(* ===== verification/_CoqProject ===== *)
-Q . S2P
Prelude.v
Domain.v
Trace.v
Orchestrator.v
StateStore.v
RunQueue.v
Registry.v
ConfigStore.v
DateTime.v
Scheduler.v
Evaluator.v
EvaluatorProofs.v
Safety.v
Urls.v
Tenancy.v
Services.v
Auth.v
Egress.v
Relay.v
Seconds.v
Fetchers.v
Floats.v
Text.v
Parsers.v
Pages.v
Digest.v
Smtp.v
Settings.v
Notices.v
BrowserGate.v
Browser.v
Watchdog.v
Camoufox.v
Uc.v
UcSweep.v
Session.v
Filters.v
Web.v
WebGate.v
WebIsolation.v
WebOracle.v
WebPages.v
Yaml.v
Boot.v
Factories.v
Mcp.v
Cli.v
Schema.v
Upgrade.v
OpenOrder.v
App.v
