(* ===== verification/Prelude.v ===== *)
(** * Verification of kerdoos and autolycos

    kerdoos watches the prices of products for several owners: it fetches the
    pages of a catalogue of shops, reads a price from each, stores the answers
    and mails each owner a digest at the times of its jobs.  autolycos is the
    fetching library under it: plain HTTP, impersonated TLS and three browser
    tiers behind one SSRF guard.  The sources are under
    [src/packages/kerdoos/src/kerdoos/] (written [kerdoos/] below) and
    [src/packages/autolycos/src/autolycos/] ([autolycos/]).

    The development is a shallow embedding: a Python function becomes a Rocq
    function with the same name, an exception a value of [exn] in [result],
    an effect a state passed through the small monad [M S] of this file, a
    database its tables as maps and lists, a protocol between threads a step
    function with its reachable states.  Every definition is executable.

    ** Files, in order

    Shared:
    - [Prelude] (this file): exception classes with their bases, [result], the
      state-and-error monad [M] with [try]/[except]/[finally], lemmas on
      lists, sorting, strings, and the hint database [kerdoos];
    - [Trace]: effects recorded as a history of calls; [opened] is the shape of
      a [with] block, [adds] states what a computation appends to the history;
    - [DateTime], [Seconds], [Floats], [Text], [Urls]: the parts of the
      standard library the program leans on: civil time, durations, the
      binary64 numbers of price conversion, regular expressions over Latin-1
      text, [urllib.parse].

    The core, [kerdoos/core], [kerdoos/persistence], [kerdoos/registry],
    [kerdoos/auth]:
    - [Domain]: [core/domain.py], [core/verdict.py]: a scrape is OK only with a
      positive price on a page that was fetched; everything unclear is
      INDETERMINATE;
    - [Orchestrator]: [core/orchestrator.py], [core/retry.py];
    - [StateStore]: [persistence/sqlite_store.py] as two tables, behind the
      class [StateStore] of [persistence/ports.py];
    - [RunQueue]: [core/run_queue.py] as a step function on the queue state
      with its invariant, its crash supervisor and its liveness;
    - [Registry], [ConfigStore]: [registry/ports.py] and
      [registry/sqlite_store.py]: tables of config.db, one definition per
      command, keys and foreign keys as an invariant, tenant isolation;
    - [Scheduler]: [core/scheduler.py];
    - [Evaluator], [EvaluatorProofs]: [core/evaluator.py]: the periodic tick,
      over interfaces for the stores, the scraper and the sender;
    - [Services]: [core/app/services.py]; [Auth]: [core/app/auth.py],
      [auth/ports.py] and [registry/auth_store.py].

    - [Schema]: what opening a database file does, [__init__] and [_migrate] of
      the three SQLite stores, statement by statement on tables, columns and
      indexes, with the states the disk goes through; [Upgrade]: the theorems on
      the upgrade of each file; [OpenOrder]: the two stores that open config.db,
      in either order.

    Reaching the shops, [autolycos]:
    - [Safety]: [safety.py], [registry/domain_policy.py],
      [registry/url_validation.py]: the guard each fetch passes first;
    - [Egress], [Relay]: [egress_proxy.py], the loopback proxy a browser goes
      through: one CONNECT request, then the accept loop and the tunnel;
    - [Fetchers], [Factories]: [adapters/http.py], [adapters/tls.py],
      [router.py], [challenge.py], the constructors of the adapters;
    - [BrowserGate]: [browser_gate.py];
    - [Browser], [Watchdog], [Camoufox], [Uc]: the browser tiers.  A fetch runs
      in a thread of its own beside the caller that gives it a deadline: what
      the thread does to its browser is a computation over a driver interface
      ([Browser.run_fetch], [Camoufox.drive]), and what caller and thread do
      to each other is a step function ([Watchdog], [Uc.Launch],
      [Uc.PostLaunch]) whose every interleaving is covered;
    - [UcSweep]: the kill passes of the uc tier, call by call on a process
      table that moves between the calls, and its whole [fetch].

    Reading and reporting:
    - [Parsers], [Pages]: [parsers/];
    - [Digest]: [digest/render.py], [digest/view.py], [digest/templates.py];
    - [Smtp]: [digest/smtp_sender.py], [digest/factory.py];
    - [Settings], [Notices]: [config.py], [tiers.py].

    The web interface, [kerdoos/interfaces/web]:
    - [Session]: [security.py], [csrf.py]: the signed cookie and the token;
    - [Filters]: [templates.py], the texts of the pages;
    - [Web]: [deps.py] and [routers/]: every route as a handler on one state
      ([Web.Web]: the databases, the queue, the outside), the guards of the
      routers ([Web.gate], [Web.serve]), the rendering of errors ([app.py]);
    - [WebGate] (who is let through, the life of a login), [WebIsolation]
      (what a request may change), [WebOracle] (what its answer depends on) and
      [WebPages] (what some pages do) are theorems about [Web]; [Tenancy] is
      the two-run logic under the last but one: [twice R m] says that from
      related states the two runs of [m] answer the same and stay related.

    The other ways in, [kerdoos/interfaces]:
    - [Yaml]: [registry/yaml_store.py] and the documents that [cli/main.py]
      exports, over the class [Yaml] of a YAML library;
    - [Boot]: [boot_checks.py], [routing.py], [web/forwarded_allow_ips.py];
    - [Mcp]: [mcp/auth.py], [mcp/tools.py], [mcp/server.py];
    - [Cli]: [cli/main.py]: each command on a machine ([Cli.Machine]) of
      database files, other files, standard streams and settings;
    - [App]: [web/app.py]: what [create_app] builds and in which order, and
      the tasks of its lifespan.

    ** What the theorems show

    - Nothing is reported that was not seen: a failed or challenged fetch or a
      parser error never becomes a price ([Orchestrator], [Domain]), each
      scraper takes the price of the product of its page or none ([Pages]),
      prices are exact cents ([Parsers], [Floats]) and print back to the same
      number ([Digest]).
    - Nothing is reported twice: a window of a job is claimed once
      ([StateStore]) and handed to the sender once, across ticks and restarts
      ([EvaluatorProofs]); a mail is retried only if the relay cannot have
      taken it, before its deadline ([Smtp]).
    - Nothing is reached that was not allowed: every hop of every tier is
      validated against the allowlist and pinned to a public address
      ([Safety], [Fetchers], [Egress], [Browser], [Uc]).
    - Nobody acts for somebody else: every command and service leaves other
      owners alone ([ConfigStore], [Services]); logins, sessions, tokens and
      the rate limit of [Auth].  At the edge, a guarded route runs exactly for
      the principal that cookie, role and token authorise ([WebGate]), changes
      only what is that principal's ([WebIsolation]), and answers the same
      whatever other tenants hold, but for the four things a request asks of
      the deployment as a whole (is an e-mail address taken, how deep is the
      queue, is a fresh job id or a fresh token free; [WebOracle.asks]).  A token stands for the same
      principal over MCP ([Mcp]), an owner made at the command line is the one
      who logs in ([Cli]), and the proxies whose word is taken for a client's
      address are few ([Boot]).
    - Nothing leaks or hangs: the browser gate refines a bounded set of
      holders ([BrowserGate]), counts of abandoned fetches are exact
      ([Watchdog]), a launched browser is handed out or quit exactly once
      ([Uc]), a cleanup signals only its own launch's processes and leaves none
      that SIGKILL ends ([UcSweep]), the application starts on a usable secret or not at
      all and stops what it started ([App]), a fetch ends ([Camoufox]), a tick returns unless an enabled job has a
      schedule croniter refuses or a registry whose rows dangle
      ([EvaluatorProofs]), the queue serves everyone ([RunQueue]).
    - Files survive: an old database is upgraded without losing a row, and a
      crash in the middle is made good by the next opening, but for one window
      of state.db ([Upgrade]); the order in which two stores open config.db
      makes no difference to it ([OpenOrder]).
    - Configuration is total: any environment gives usable settings, but for a
      KERDOOS_WORKERS of more digits than [int] reads ([Settings]); the tables keep their invariant ([ConfigStore]); an exported
      registry is read back, and an import says truly what it did ([Cli]).

    Where the code does not do what its comments say, the difference is a
    proved statement too ([Smtp.delivered_but_raised],
    [Digest.bad_href_aborts_the_digest], [Parsers.to_cents_huge],
    [BrowserGate.acquire_waits_twice],
    [Upgrade.StateProofs.interrupted_backfill_orphans],
    [App.sender_failure_leaves_the_queue], [UcSweep.budget_misses_a_wait],
    [Auth.unreadable_hash_raises] and the like).

    ** Parameters

    Code the repository does not hold is an argument of the definitions that
    use it: croniter and the time zone database, [json.loads], the
    [html.parser] tokenizer, Jinja2, the SMTP client and its relay, the
    resolver, Argon2, HMAC, PyYAML, argparse, the MCP SDK, the hash and random
    sources, the browser drivers,
    the process table and the installed packages.  FastAPI's routing is the type
    [Web.endpoint], a route with the parameters read from its path or form; a
    page is the record of values its template is given.  What the code relies on is a
    law of the interface (a [Class] beside the operations) or a named
    hypothesis, and each theorem that needs one has a witness with a concrete
    instance.

    ** Bounds and fuel

    - Redirect loops stop at the code's own [MAX_REDIRECTS]; retries at the
      configured attempts: both are structural.
    - Regular expressions repeat at most the length of the text, which is
      enough because a round that consumes nothing is never needed.
    - Decimal printing and reading use the binary logarithm of the number or
      the length of the text.
    - The settling loop of [Camoufox] takes fuel; [Camoufox.drive_terminates]
      proves that the intervals that fit in the navigation budget suffice.
    - Durations are whole microseconds; integers are Python's, so unbounded,
      except where the code bounds them (ports, byte caps, cents).

    ** Restrictions

    - Text is Latin-1: a Python character above U+00FF does not occur in the
      model.  Case mapping is that of ASCII, where Python would also map
      accented letters.
    - Log lines are modelled only where the code latches them (the warnings of
      [Settings], [Evaluator], [Camoufox]).
    - Threads interleave at the steps that touch shared state, under the locks
      the code takes.

    ** Not modelled

    Of the web interface, the validation of forms by FastAPI (a malformed form
    is a 422 before any handler) and the HTML templates; of a YAML file, what
    the store makes of a site name or parser field that is not a text (the
    argument [Cli.other_site]); the reading of command-line arguments.
*)

From stdpp Require Export base gmap strings list pretty.
From Stdlib Require Export ZArith Lia.
From Stdlib Require Import String.
From Stdlib Require Export Ascii.
From Stdlib Require Export Sorted Permutation.

#[export] Set Default Goal Selector "!".
Global Open Scope Z_scope.

Create HintDb kerdoos.

(** * Exceptions and results *)

(** The Python exception classes the program raises, catches or re-raises. *)
Inductive exc : Type :=
| FetchError | SSRFError | UnknownFetcherError
| ParseError | PathResolutionError | UnknownParserKindError
| KeyError | ValueError | IndexError | TypeError | OverflowError
| RecursionError | JSONDecodeError | NotImplementedError | RuntimeError
| OSError | TimeoutError | PermissionError | GaiError
| ConfigError | FetcherTierUnavailableError | ConfigImportError
| ConfigImportPartialError | UrlValidationError | EmailAlreadyTakenError
| IntegrityError | OperationalError | UnsafeRecipientError
| OtherException (name : string)
| CancelledError.

#[export] Instance exc_eq_dec : EqDecision exc.
Proof. solve_decision. Defined.

(** [Exception] as an [except] clause sees it: everything but the
    [BaseException] subclasses. *)
Definition is_Exception (c : exc) : bool :=
  match c with CancelledError => false | _ => true end.

(** The base classes of each class, itself first (the Python MRO restricted
    to the classes above). *)
Definition exc_mro (c : exc) : list exc :=
  match c with
  | SSRFError => [SSRFError; FetchError]
  | UnknownFetcherError => [UnknownFetcherError; KeyError]
  | UnknownParserKindError => [UnknownParserKindError; ValueError]
  | JSONDecodeError => [JSONDecodeError; ValueError]
  | RecursionError => [RecursionError; RuntimeError]
  | NotImplementedError => [NotImplementedError; RuntimeError]
  | TimeoutError => [TimeoutError; OSError]
  | PermissionError => [PermissionError; OSError]
  | GaiError => [GaiError; OSError]
  | ConfigError => [ConfigError; ValueError]
  | FetcherTierUnavailableError =>
      [FetcherTierUnavailableError; ConfigError; ValueError]
  | ConfigImportError => [ConfigImportError; ConfigError; ValueError]
  | ConfigImportPartialError => [ConfigImportPartialError; ConfigError; ValueError]
  | UrlValidationError => [UrlValidationError; ValueError]
  | EmailAlreadyTakenError => [EmailAlreadyTakenError; ValueError]
  | c => [c]
  end.

(** [isinstance(exc, cls)]. *)
Definition is_a (c cls : exc) : bool := bool_decide (cls ∈ exc_mro c).

(** An exception value: its class and its message. *)
Record exn := Exn { exn_class : exc; exn_msg : string }.

#[export] Instance exn_eq_dec : EqDecision exn.
Proof. solve_decision. Defined.

(** [type(exc).__name__]. *)
Definition exc_name (c : exc) : string :=
  match c with
  | FetchError => "FetchError" | SSRFError => "SSRFError"
  | UnknownFetcherError => "UnknownFetcherError"
  | ParseError => "ParseError" | PathResolutionError => "PathResolutionError"
  | UnknownParserKindError => "UnknownParserKindError"
  | KeyError => "KeyError" | ValueError => "ValueError"
  | IndexError => "IndexError" | TypeError => "TypeError"
  | OverflowError => "OverflowError" | RecursionError => "RecursionError"
  | JSONDecodeError => "JSONDecodeError"
  | NotImplementedError => "NotImplementedError"
  | RuntimeError => "RuntimeError" | OSError => "OSError"
  | TimeoutError => "TimeoutError" | PermissionError => "PermissionError"
  | GaiError => "gaierror" | ConfigError => "ConfigError"
  | FetcherTierUnavailableError => "FetcherTierUnavailableError"
  | ConfigImportError => "ConfigImportError"
  | ConfigImportPartialError => "ConfigImportPartialError"
  | UrlValidationError => "UrlValidationError"
  | EmailAlreadyTakenError => "EmailAlreadyTakenError"
  | IntegrityError => "IntegrityError" | OperationalError => "OperationalError"
  | UnsafeRecipientError => "_UnsafeRecipientError"
  | OtherException n => n
  | CancelledError => "CancelledError"
  end.

(** The outcome of a Python call. *)
Inductive result (A : Type) : Type :=
| Ok (a : A)
| Raise (e : exn).
Arguments Ok {A} a.
Arguments Raise {A} e.

#[export] Instance result_eq_dec `{EqDecision A} : EqDecision (result A).
Proof. solve_decision. Defined.

Definition raise {A} (c : exc) (msg : string) : result A := Raise (Exn c msg).

Definition is_ok {A} (r : result A) : bool :=
  match r with Ok _ => true | Raise _ => false end.

Definition rbind {A B} (r : result A) (k : A → result B) : result B :=
  match r with Ok a => k a | Raise e => Raise e end.

(** A call that may raise and changes the state [S]; the state changes made
    before an exception survive it, as in Python. *)
Definition M (S A : Type) : Type := S → result A * S.

Definition mret' {S A} (a : A) : M S A := λ s, (Ok a, s).
Definition mraise {S A} (e : exn) : M S A := λ s, (Raise e, s).
Definition mbind' {S A B} (m : M S A) (k : A → M S B) : M S B :=
  λ s, match m s with
       | (Ok a, s') => k a s'
       | (Raise e, s') => (Raise e, s')
       end.
Definition mlift {S A} (r : result A) : M S A := λ s, (r, s).
Definition mget {S} : M S S := λ s, (Ok s, s).
Definition mgets {S A} (f : S → A) : M S A := λ s, (Ok (f s), s).
Definition mmodify {S} (f : S → S) : M S unit := λ s, (Ok tt, f s).

(** [try: m except Exception as e: h e]. *)
Definition mtry {S A} (m : M S A) (h : exn → M S A) : M S A :=
  λ s, match m s with
       | (Ok a, s') => (Ok a, s')
       | (Raise e, s') => if is_Exception (exn_class e) then h e s' else (Raise e, s')
       end.

(** [try: m finally: f]. *)
Definition mfinally {S A} (m : M S A) (f : M S unit) : M S A :=
  λ s, let '(r, s') := m s in
       match f s' with
       | (Ok _, s'') => (r, s'')
       | (Raise e, s'') => (Raise e, s'')
       end.

Declare Scope py_scope.
Delimit Scope py_scope with py.
Notation "'let!' x ':=' m 'in' k" := (mbind' m (λ x, k))
  (at level 10, x pattern, m at level 100, k at level 200) : py_scope.
Notation "'let?' x ':=' r 'in' k" := (rbind r (λ x, k))
  (at level 10, x pattern, r at level 100, k at level 200) : py_scope.
Notation "m ';;;' k" := (mbind' m (λ _, k))
  (at level 199, right associativity) : py_scope.
Global Open Scope py_scope.

(** [for x in l: f x], the state threaded through. *)
Fixpoint mfor {S A} (f : A → M S unit) (l : list A) : M S unit :=
  match l with
  | [] => mret' tt
  | x :: l' => let! _ := f x in mfor f l'
  end.

(** A call that never raises. *)
Definition total {S A} (m : M S A) : Prop := ∀ s, is_ok (fst (m s)) = true.

Lemma total_ret {S A} (a : A) : total (S:=S) (mret' a).
Proof. by intros s. Qed.

Lemma total_bind {S A B} (m : M S A) (k : A → M S B) :
  total m → (∀ a, total (k a)) → total (mbind' m k).
Proof.
  intros Hm Hk s. unfold mbind'. specialize (Hm s).
  destruct (m s) as [[a|e] s']; [apply Hk | done].
Qed.

Lemma total_mfor {S A} (f : A → M S unit) (l : list A) :
  (∀ a, total (f a)) → total (mfor f l).
Proof.
  intros Hf. induction l as [|x l IH]; simpl; [apply total_ret|].
  apply total_bind; auto.
Qed.

Lemma total_modify {S} (f : S → S) : total (mmodify f).
Proof. by intros s. Qed.

Lemma total_gets {S A} (f : S → A) : total (mgets f).
Proof. by intros s. Qed.

#[export] Hint Resolve total_ret total_bind total_mfor total_modify total_gets : kerdoos.

(** Executing a loop preserves what each iteration preserves. *)
Lemma mfor_invariant {S A} (I : S → Prop) (f : A → M S unit) (l : list A) s :
  (∀ a s, a ∈ l → I s → I (snd (f a s))) → I s → I (snd (mfor f l s)).
Proof.
  revert s. induction l as [|x l IH]; intros s Hf Hs; simpl; [done|].
  unfold mbind'. pose proof (Hf x s ltac:(left) Hs) as H.
  destruct (f x s) as [[[]|e] s']; simpl in *; [|done].
  apply IH; [|done]. intros a s0 Ha. apply Hf. by right.
Qed.

Lemma mbind_ok {S A B} (m : M S A) (k : A → M S B) s a s' :
  m s = (Ok a, s') → mbind' m k s = k a s'.
Proof. unfold mbind'. by intros ->. Qed.

Lemma mbind_raise {S A B} (m : M S A) (k : A → M S B) s e s' :
  m s = (Raise e, s') → mbind' m k s = (Raise e, s').
Proof. unfold mbind'. by intros ->. Qed.

(** *** What a call keeps *)

Lemma mbind_inv {S A B} (m : M S A) (k : A → M S B) s b s' :
  mbind' m k s = (Ok b, s') → ∃ a s1, m s = (Ok a, s1) ∧ k a s1 = (Ok b, s').
Proof. unfold mbind'. destruct (m s) as [[a | e] s1]; [eauto | done]. Qed.

Lemma mfinally_inv {S A} (m : M S A) (f : M S unit) s a s' :
  mfinally m f s = (Ok a, s') → ∃ s1, m s = (Ok a, s1) ∧ f s1 = (Ok tt, s').
Proof.
  unfold mfinally. destruct (m s) as [r s1]. destruct (f s1) as [[[] | e] s2] eqn:E; [| done].
  intros [= -> ->]. eauto.
Qed.


(** [m] keeps [I], whether it returns or raises. *)
Definition pres {S A} (I : S → Prop) (m : M S A) : Prop := ∀ s, I s → I (snd (m s)).

Lemma pres_ret {S A} (I : S → Prop) (a : A) : pres I (mret' a).
Proof. by intros s. Qed.

Lemma pres_raise {S A} (I : S → Prop) e : pres I (mraise (A:=A) e).
Proof. by intros s. Qed.

Lemma pres_lift {S A} (I : S → Prop) (r : result A) : pres I (mlift r).
Proof. by intros s. Qed.

Lemma pres_bind {S A B} (I : S → Prop) (m : M S A) (k : A → M S B) :
  pres I m → (∀ a, pres I (k a)) → pres I (mbind' m k).
Proof.
  intros Hm Hk s Hs. unfold mbind'. specialize (Hm s Hs).
  destruct (m s) as [[a|e] s']; [by apply Hk|done].
Qed.

Lemma pres_try {S A} (I : S → Prop) (m : M S A) h :
  pres I m → (∀ e, pres I (h e)) → pres I (mtry m h).
Proof.
  intros Hm Hh s Hs. unfold mtry. specialize (Hm s Hs).
  destruct (m s) as [[a|e] s']; [done|]. case_match; [by apply Hh|done].
Qed.

Lemma pres_finally {S A} (I : S → Prop) (m : M S A) f :
  pres I m → pres I f → pres I (mfinally m f).
Proof.
  intros Hm Hf s Hs. unfold mfinally. specialize (Hm s Hs).
  destruct (m s) as [r s']. specialize (Hf s' Hm). by destruct (f s') as [[u|e] s''].
Qed.

Lemma pres_for {S A} (I : S → Prop) (f : A → M S unit) (l : list A) :
  (∀ a, pres I (f a)) → pres I (mfor f l).
Proof. intros Hf s. apply mfor_invariant. intros a s' _. apply Hf. Qed.

#[export] Hint Resolve pres_ret pres_raise pres_lift pres_bind pres_try pres_for : kerdoos.

(** Whatever [m] raises satisfies [P]. *)
Definition raises_in {S A} (P : exn → Prop) (m : M S A) : Prop :=
  ∀ s, match fst (m s) with Ok _ => True | Raise e => P e end.

Lemma raises_in_ret {S A} (P : exn → Prop) (a : A) : raises_in (S:=S) P (mret' a).
Proof. by intros s. Qed.

Lemma raises_in_raise {S A} (P : exn → Prop) e : P e → raises_in (S:=S) P (mraise (A:=A) e).
Proof. by intros H s. Qed.

Lemma raises_in_lift {S A} (P : exn → Prop) (r : result A) :
  (∀ e, r = Raise e → P e) → raises_in (S:=S) P (mlift r).
Proof. intros H s. cbn. destruct r; auto. Qed.

Lemma raises_in_bind {S A B} (P : exn → Prop) (m : M S A) (k : A → M S B) :
  raises_in P m → (∀ a, raises_in P (k a)) → raises_in P (mbind' m k).
Proof.
  intros Hm Hk s. unfold mbind'. specialize (Hm s).
  destruct (m s) as [[a|e] s']; [apply Hk|done].
Qed.

Lemma raises_in_for {S A} (P : exn → Prop) (f : A → M S unit) (l : list A) :
  (∀ x, x ∈ l → raises_in P (f x)) → raises_in P (mfor f l).
Proof.
  induction l as [|x l IH]; intros Hf; [apply raises_in_ret|].
  apply raises_in_bind; [apply Hf; left|]. intros _. apply IH. intros y Hy. apply Hf. by right.
Qed.

#[export] Hint Resolve raises_in_ret raises_in_raise raises_in_lift raises_in_bind : kerdoos.

(** [m] raises nothing but [Exception]s, so an [except Exception] catches
    it. *)
Definition tame {S A} (m : M S A) : Prop :=
  ∀ s, match fst (m s) with Ok _ => True | Raise e => is_Exception e.(exn_class) = true end.

Definition tame_result {A} (r : result A) : Prop :=
  match r with Ok _ => True | Raise e => is_Exception e.(exn_class) = true end.

Lemma tame_ret {S A} (a : A) : tame (S:=S) (mret' a).
Proof. by intros s. Qed.

Lemma tame_lift {S A} (r : result A) : tame_result r → tame (S:=S) (mlift r).
Proof. by intros H s. Qed.

Lemma tame_bind {S A B} (m : M S A) (k : A → M S B) :
  tame m → (∀ a, tame (k a)) → tame (mbind' m k).
Proof.
  intros Hm Hk s. unfold mbind'. specialize (Hm s).
  destruct (m s) as [[a|e] s']; [apply Hk|done].
Qed.

Lemma tame_total {S A} (m : M S A) : total m → tame m.
Proof. intros Hm s. specialize (Hm s). by destruct (fst (m s)). Qed.

Lemma total_try {S A} (m : M S A) h : tame m → (∀ e, total (h e)) → total (mtry m h).
Proof.
  intros Hm Hh s. unfold mtry. specialize (Hm s).
  destruct (m s) as [[a|e] s']; [done|]. simpl in Hm. rewrite Hm. apply Hh.
Qed.

Lemma tame_try {S A} (m : M S A) h : tame m → (∀ e, tame (h e)) → tame (mtry m h).
Proof.
  intros Hm Hh s. unfold mtry. specialize (Hm s).
  destruct (m s) as [[a|e] s']; [done|]. simpl in Hm. rewrite Hm. apply Hh.
Qed.

#[export] Hint Resolve tame_ret tame_lift tame_bind tame_try total_try : kerdoos.

(** * Tactics *)

(** Break the matches of the goal and of the hypotheses one by one. *)
Ltac break_match :=
  match goal with
  | |- context [match ?x with _ => _ end] =>
      lazymatch x with context [match _ with _ => _ end] => fail | _ => destruct x eqn:? end
  | H : context [match ?x with _ => _ end] |- _ =>
      lazymatch x with context [match _ with _ => _ end] => fail | _ => destruct x eqn:? end
  end.

Ltac break := repeat (break_match; simplify_eq/=).

(** Turn boolean tests into propositions. *)
Ltac bool_prop :=
  repeat match goal with
  | H : context [(_ =? _)%Z = true] |- _ => rewrite Z.eqb_eq in H
  | H : context [(_ =? _)%Z = false] |- _ => rewrite Z.eqb_neq in H
  | H : context [(_ <? _)%Z = true] |- _ => rewrite Z.ltb_lt in H
  | H : context [(_ <? _)%Z = false] |- _ => rewrite Z.ltb_ge in H
  | H : context [(_ <=? _)%Z = true] |- _ => rewrite Z.leb_le in H
  | H : context [(_ <=? _)%Z = false] |- _ => rewrite Z.leb_gt in H
  | H : (_ && _)%bool = true |- _ => apply andb_true_iff in H as [? ?]
  | H : (_ && _)%bool = false |- _ => apply andb_false_iff in H
  | H : (_ || _)%bool = false |- _ => apply orb_false_iff in H as [? ?]
  | H : (_ || _)%bool = true |- _ => apply orb_true_iff in H
  | H : negb _ = true |- _ => apply negb_true_iff in H
  | H : negb _ = false |- _ => apply negb_false_iff in H
  | H : bool_decide _ = true |- _ => apply bool_decide_eq_true in H
  | H : bool_decide _ = false |- _ => apply bool_decide_eq_false in H
  end.

(** * Strings as lists of characters *)

Definition chars (s : string) : list ascii := list_ascii_of_string s.
Definition of_chars (l : list ascii) : string := string_of_list_ascii l.

#[global] Arguments chars : simpl never.
#[global] Arguments of_chars : simpl never.

Lemma chars_app a b : chars (a +:+ b) = (chars a ++ chars b)%list.
Proof. unfold chars. induction a as [|c a IH]; simpl; [done|]. by f_equal. Qed.

Lemma of_chars_chars s : of_chars (chars s) = s.
Proof. apply string_of_list_ascii_of_string. Qed.

Lemma chars_of_chars l : chars (of_chars l) = l.
Proof. apply list_ascii_of_string_of_list_ascii. Qed.

Lemma chars_inj a b : chars a = chars b → a = b.
Proof. intros H. by rewrite <- (of_chars_chars a), H, of_chars_chars. Qed.

Lemma chars_cons c s : chars (String c s) = c :: chars s.
Proof. done. Qed.

(** A separator that neither prefix contains splits in only one way. *)
Lemma sep_split {A} (c : A) (a a' b b' : list A) :
  (a ++ c :: b = a' ++ c :: b')%list → c ∉ a → c ∉ a' → a = a' ∧ b = b'.
Proof.
  revert a'. induction a as [|x a IH]; intros [|x' a'] H Ha Ha'; simplify_eq/=; try done.
  - exfalso. apply Ha'. left.
  - exfalso. apply Ha. left.
  - destruct (IH a') as [-> ->]; [done|set_solver..|done].
Qed.

Lemma sep_split_last {A} (c : A) (a a' b b' : list A) :
  (a ++ c :: b = a' ++ c :: b')%list → c ∉ b → c ∉ b' → a = a' ∧ b = b'.
Proof.
  intros H Hb Hb'. apply (f_equal reverse) in H.
  rewrite !reverse_app, !reverse_cons, <- !app_assoc in H. simpl in H.
  apply sep_split in H as [H1 H2]; [|by rewrite elem_of_reverse..].
  split; by apply (inj reverse).
Qed.

(** * Order on strings

    Text is held as its UTF-8 bytes.  Comparing code points (Python's [<] on
    [str]) and comparing those bytes (SQLite's BINARY collation) give the same
    order, the one of [String.compare]. *)

Definition str_lt (a b : string) : Prop := String.compare a b = Lt.
Definition str_ltb (a b : string) : bool :=
  match String.compare a b with Lt => true | _ => false end.
Definition str_leb (a b : string) : bool :=
  match String.compare a b with Gt => false | _ => true end.

Lemma str_ltb_lt a b : str_ltb a b = true ↔ str_lt a b.
Proof. unfold str_ltb, str_lt. by destruct (String.compare a b). Qed.

Lemma str_leb_ltb a b : str_leb a b = negb (str_ltb b a).
Proof.
  unfold str_leb, str_ltb. rewrite String.compare_antisym.
  by destruct (String.compare b a).
Qed.

Lemma ascii_compare_refl c : Ascii.compare c c = Eq.
Proof. unfold Ascii.compare. apply N.compare_refl. Qed.

Lemma str_compare_refl a : String.compare a a = Eq.
Proof. induction a as [|c a IH]; simpl; [done|]. by rewrite ascii_compare_refl. Qed.

Lemma str_compare_eq a b : String.compare a b = Eq ↔ a = b.
Proof. split; [apply String.compare_eq_iff | intros ->; apply str_compare_refl]. Qed.

Lemma ascii_compare_eq c d : Ascii.compare c d = Eq → c = d.
Proof.
  unfold Ascii.compare. intros ?%N.compare_eq.
  rewrite <- (ascii_N_embedding c), <- (ascii_N_embedding d). by f_equal.
Qed.

Lemma str_lt_trans a b c : str_lt a b → str_lt b c → str_lt a c.
Proof.
  unfold str_lt. revert b c.
  induction a as [|x a IH]; intros [|y b] [|z c]; simpl; try done.
  destruct (Ascii.compare x y) eqn:Hxy, (Ascii.compare y z) eqn:Hyz; try done;
    repeat match goal with H : Ascii.compare _ _ = Eq |- _ => apply ascii_compare_eq in H as -> end;
    rewrite ?ascii_compare_refl, ?Hyz, ?Hxy; try done; [apply IH|].
  replace (Ascii.compare x z) with Lt; [done|].
  unfold Ascii.compare in *. symmetry. rewrite N.compare_lt_iff in *. lia.
Qed.

Lemma str_lt_irrefl a : ¬ str_lt a a.
Proof. unfold str_lt. by rewrite str_compare_refl. Qed.

Lemma str_leb_refl a : str_leb a a = true.
Proof. unfold str_leb. by rewrite str_compare_refl. Qed.

Lemma str_leb_total a b : str_leb a b = true ∨ str_leb b a = true.
Proof.
  unfold str_leb. rewrite (String.compare_antisym b a).
  destruct (String.compare a b); auto.
Qed.

Lemma str_leb_or a b : str_leb a b = true ↔ str_lt a b ∨ a = b.
Proof.
  unfold str_leb, str_lt. rewrite <- (str_compare_eq a b).
  destruct (String.compare a b); naive_solver.
Qed.

Lemma str_leb_trans a b c :
  str_leb a b = true → str_leb b c = true → str_leb a c = true.
Proof.
  rewrite !str_leb_or. intros [H1|H1] [H2|H2]; subst; eauto using str_lt_trans.
Qed.

Lemma str_leb_antisym a b : str_leb a b = true → str_leb b a = true → a = b.
Proof.
  rewrite !str_leb_or. intros [Hl|Hl] [Hr|Hr]; try done.
  exfalso. eapply str_lt_irrefl, str_lt_trans; eauto.
Qed.

(** * ORDER BY: insertion sort by a boolean order *)

Section Sorting.
Context {A : Type} (leb : A → A → bool).

Fixpoint sort_insert (x : A) (l : list A) : list A :=
  match l with
  | [] => [x]
  | y :: l' => if leb x y then x :: y :: l' else y :: sort_insert x l'
  end.

Fixpoint sort_by (l : list A) : list A :=
  match l with [] => [] | x :: l' => sort_insert x (sort_by l') end.

Lemma sort_insert_perm x l : sort_insert x l ≡ₚ x :: l.
Proof.
  induction l as [|y l IH]; simpl; [done|].
  destruct (leb x y); [done|]. rewrite IH. apply Permutation_swap.
Qed.

Lemma sort_by_perm l : sort_by l ≡ₚ l.
Proof. induction l as [|x l IH]; simpl; [done|]. by rewrite sort_insert_perm, IH. Qed.

Lemma elem_of_sort_by x l : x ∈ sort_by l ↔ x ∈ l.
Proof. by rewrite sort_by_perm. Qed.

Hypothesis leb_total : ∀ x y, leb x y = true ∨ leb y x = true.
Hypothesis leb_trans : ∀ x y z, leb x y = true → leb y z = true → leb x z = true.

Lemma sort_insert_sorted x l :
  StronglySorted (λ a b, leb a b = true) l →
  StronglySorted (λ a b, leb a b = true) (sort_insert x l).
Proof.
  induction 1 as [|y l Hl IH Hy]; simpl; [repeat constructor|].
  destruct (leb x y) eqn:Hxy.
  - constructor; [by constructor|]. constructor; [done|].
    eapply Forall_impl; [exact Hy|]. eauto.
  - constructor; [done|]. rewrite sort_insert_perm. constructor; [|done].
    destruct (leb_total x y); congruence.
Qed.

Lemma sort_by_sorted l : StronglySorted (λ a b, leb a b = true) (sort_by l).
Proof. induction l; simpl; [constructor | by apply sort_insert_sorted]. Qed.

(** The head of the sorted list is a least element. *)
Lemma sort_by_head l x l' :
  sort_by l = x :: l' → x ∈ l ∧ ∀ y, y ∈ l → leb x y = true ∨ y = x.
Proof.
  intros H. pose proof (sort_by_sorted l) as Hs. rewrite H in Hs.
  apply StronglySorted_inv in Hs as [_ Hall].
  split; [apply elem_of_sort_by; rewrite H; left|].
  intros y Hy. apply elem_of_sort_by in Hy. rewrite H in Hy.
  apply elem_of_cons in Hy as [->|Hy]; [by right|left].
  rewrite Forall_forall in Hall. by apply Hall.
Qed.

(** Two least elements of the same list coincide, so the head is unique. *)
Lemma sort_by_head_unique l x :
  (∀ a b, a ∈ l → b ∈ l → leb a b = true → leb b a = true → a = b) →
  x ∈ l → (∀ y, y ∈ l → leb x y = true) → head (sort_by l) = Some x.
Proof.
  intros Hanti Hx Hmin. destruct (sort_by l) as [|h t] eqn:Hs.
  - apply elem_of_sort_by in Hx. rewrite Hs in Hx. by apply elem_of_nil in Hx.
  - destruct (sort_by_head _ _ _ Hs) as [Hh Hall]. simpl. f_equal.
    destruct (Hall x Hx) as [?|]; [|done]. apply Hanti; auto.
Qed.
End Sorting.

(** * Insertion-ordered dictionaries *)

(** A Python [dict] whose iteration order matters: assigning to a present key
    keeps its position, assigning to an absent key appends. *)
Section Odict.
Context {K V : Type} `{EqDecision K}.

Fixpoint od_get (k : K) (d : list (K * V)) : option V :=
  match d with
  | [] => None
  | (k', v) :: d' => if decide (k = k') then Some v else od_get k d'
  end.

Fixpoint od_set (k : K) (v : V) (d : list (K * V)) : list (K * V) :=
  match d with
  | [] => [(k, v)]
  | (k', v') :: d' =>
      if decide (k = k') then (k, v) :: d' else (k', v') :: od_set k v d'
  end.

Lemma od_get_set_eq k v d : od_get k (od_set k v d) = Some v.
Proof.
  induction d as [|[k' v'] d IH]; simpl; repeat (case_decide; simpl); congruence.
Qed.

Lemma od_get_set_ne k k' v d : k ≠ k' → od_get k' (od_set k v d) = od_get k' d.
Proof.
  intros Hne. induction d as [|[k0 v0] d IH]; simpl; repeat (case_decide; simpl); congruence.
Qed.

Lemma od_get_set k k' v d :
  od_get k' (od_set k v d) = if decide (k = k') then Some v else od_get k' d.
Proof. case_decide; subst; [apply od_get_set_eq | by apply od_get_set_ne]. Qed.

Lemma od_set_keys k v d x : x ∈ (od_set k v d).*1 ↔ x = k ∨ x ∈ d.*1.
Proof.
  induction d as [|[k' v'] d IH]; simpl; [set_solver|].
  case_decide; subst; simpl; rewrite ?elem_of_cons; [naive_solver|].
  rewrite IH. naive_solver.
Qed.

Lemma od_set_NoDup k v d : NoDup d.*1 → NoDup (od_set k v d).*1.
Proof.
  induction d as [|[k' v'] d IH]; simpl; [intros; repeat constructor; set_solver|].
  rewrite NoDup_cons. intros [Hk' Hd]. case_decide; subst; simpl; constructor; auto.
  rewrite od_set_keys. naive_solver.
Qed.

Lemma od_get_Some k v d : od_get k d = Some v → (k, v) ∈ d.
Proof.
  induction d as [|[k' v'] d IH]; simpl; [done|].
  case_decide; intros; simplify_eq; [left | right; auto].
Qed.

Lemma od_get_None k d : od_get k d = None ↔ k ∉ d.*1.
Proof.
  induction d as [|[k' v'] d IH]; simpl; [split; [set_solver|done]|].
  rewrite not_elem_of_cons, <- IH. case_decide; naive_solver.
Qed.

Lemma od_get_in k v d : NoDup d.*1 → (k, v) ∈ d → od_get k d = Some v.
Proof.
  induction d as [|[k' v'] d IH]; simpl; [set_solver|].
  rewrite NoDup_cons, elem_of_cons. intros [Hk' Hd] [?|Hin]; simplify_eq.
  - by rewrite decide_True.
  - rewrite decide_False; [auto|]. intros ->. apply Hk'.
    apply list_elem_of_fmap. by exists (k', v).
Qed.
End Odict.


#[export] Hint Resolve @od_set_NoDup str_leb_refl : kerdoos.

(** A dictionary built by assignments, keyed by distinct keys. *)
Lemma foldl_insert_other {A V} (k : A → string) (v : A → V) (l : list A) (m : gmap string V) x :
  x ∉ (k <$> l) → foldl (λ m r, <[k r := v r]> m) m l !! x = m !! x.
Proof.
  revert m. induction l as [|r l IH]; intros m; simpl; [done|].
  intros [Hne Hx]%not_elem_of_cons. rewrite IH by done. by rewrite lookup_insert_ne.
Qed.

Lemma foldl_insert_lookup {A V} (k : A → string) (v : A → V) (l : list A) (m : gmap string V) r :
  NoDup (k <$> l) → r ∈ l → foldl (λ m r, <[k r := v r]> m) m l !! k r = Some (v r).
Proof.
  revert m. induction l as [|x l IH]; intros m; simpl; [by intros _ ?%elem_of_nil|].
  rewrite NoDup_cons, elem_of_cons. intros [Hx Hl] [->|Hr]; [|by apply IH].
  rewrite foldl_insert_other by done. by rewrite lookup_insert_eq.
Qed.

Lemma foldl_insert_inv {A V} (k : A → string) (v : A → V) (l : list A) (m : gmap string V) x y :
  foldl (λ m r, <[k r := v r]> m) m l !! x = Some y →
  m !! x = Some y ∨ ∃ r, r ∈ l ∧ k r = x ∧ v r = y.
Proof.
  revert m. induction l as [|r l IH]; intros m; simpl; [auto|].
  intros [H|(r'&?&?&?)]%IH.
  - destruct (decide (k r = x)) as [<-|Hne].
    + rewrite lookup_insert_eq in H. simplify_eq. right. exists r. split; [left|done].
    + rewrite lookup_insert_ne in H by done. by left.
  - right. exists r'. split; [by right|done].
Qed.

(** * Mapping a fallible function *)

Fixpoint rmap {A B} (f : A → result B) (l : list A) : result (list B) :=
  match l with
  | [] => Ok []
  | x :: l' => let? y := f x in let? ys := rmap f l' in Ok (y :: ys)
  end.

Lemma rmap_Ok {A B} (f : A → result B) (g : A → B) l :
  (∀ x, x ∈ l → f x = Ok (g x)) → rmap f l = Ok (g <$> l).
Proof.
  induction l as [|x l IH]; intros Hf; simpl; [done|].
  rewrite Hf by left. simpl. rewrite IH by (intros; apply Hf; by right). done.
Qed.

Lemma rmap_Forall2 {A B} (f : A → result B) l ys :
  rmap f l = Ok ys → Forall2 (λ x y, f x = Ok y) l ys.
Proof.
  revert ys. induction l as [|x l IH]; intros ys; simpl; [by intros [= <-]|].
  destruct (f x) as [y|] eqn:E; [|done]. simpl. destruct (rmap f l) as [ys'|]; [|done].
  intros [= <-]. constructor; auto.
Qed.

Lemma tame_rmap {A B} (f : A → result B) (l : list A) :
  (∀ x, tame_result (f x)) → tame_result (rmap f l).
Proof.
  intros Hf. induction l as [|x l IH]; simpl; [done|].
  specialize (Hf x). destruct (f x); simpl; [|done]. by destruct (rmap f l).
Qed.

Lemma rmap_ext {A B} (f g : A → result B) (l : list A) :
  (∀ x, x ∈ l → f x = g x) → rmap f l = rmap g l.
Proof.
  induction l as [|x l IH]; intros Hf; simpl; [done|].
  rewrite (Hf x) by left. destruct (g x); simpl; [|done].
  rewrite IH by (intros; apply Hf; by right). done.
Qed.

(** * Filters *)

(** A filter keeps a row updated in place iff it keeps the original, when the
    update does not change what the filter looks at. *)
Lemma filter_fmap_id {A} (P : A → Prop) `{∀ x, Decision (P x)} (f : A → A) (l : list A) :
  (∀ x, P (f x) ↔ P x) → filter P (f <$> l) = f <$> filter P l.
Proof.
  intros Hf. induction l as [|x l IH]; [done|]. rewrite fmap_cons.
  specialize (Hf x). destruct (decide (P x)).
  - rewrite !filter_cons_True by tauto. by rewrite fmap_cons, IH.
  - rewrite !filter_cons_False by tauto. done.
Qed.

Lemma fmap_id_on {A} (f : A → A) (l : list A) : (∀ x, x ∈ l → f x = x) → f <$> l = l.
Proof.
  induction l as [|x l IH]; intros Hf; simpl; [done|].
  f_equal; [apply Hf; left | apply IH; intros; apply Hf; by right].
Qed.

Lemma filter_none {A} (P : A → Prop) `{∀ x, Decision (P x)} (l : list A) :
  (∀ x, x ∈ l → ¬ P x) → filter P l = [].
Proof.
  induction l as [|x l IH]; intros Hl; [done|].
  rewrite filter_cons_False by (apply Hl; left).
  apply IH. intros y Hy. apply Hl. by right.
Qed.

Lemma NoDup_count `{EqDecision A} (l : list A) :
  NoDup l ↔ ∀ x : A, x ∈ l → List.length (filter (λ y, y = x) l) = 1%nat.
Proof.
  induction l as [|y l IH]; [split; [intros _ x ?%elem_of_nil; done|constructor]|].
  assert (∀ x : A, x ∉ l → filter (λ y, y = x) l = []) as Hnone.
  { intros x Hx. apply filter_none. by intros z Hz ->. }
  rewrite NoDup_cons. split.
  - intros [Hy Hl] x [->|Hx]%elem_of_cons.
    + rewrite filter_cons_True by done. by rewrite Hnone.
    + rewrite filter_cons_False by (by intros ->). by apply IH.
  - intros Hx. assert (y ∉ l) as Hy.
    { intros Hy. specialize (Hx y ltac:(left)). rewrite filter_cons_True in Hx by done.
      simpl in Hx. assert (y ∈ filter (λ z, z = y) l) as Hin by (by apply list_elem_of_filter).
      destruct (filter (λ z, z = y) l); [by apply elem_of_nil in Hin|done]. }
    split; [done|]. apply IH. intros x Hin.
    specialize (Hx x ltac:(by right)). rewrite filter_cons_False in Hx; [done|]. by intros ->.
Qed.

(** [GROUP BY x HAVING COUNT( * ) > 1] selects nothing. *)
Lemma no_duplicates `{EqDecision A} (l : list A) :
  filter (λ x, (1 < List.length (filter (λ y, y = x) l))%nat) (remove_dups l) = [] ↔ NoDup l.
Proof.
  split.
  - intros E. apply NoDup_count. intros x Hx.
    destruct (decide (1 < List.length (filter (λ y, y = x) l))%nat) as [Hlt | Hge].
    + assert (x ∈ filter (λ x, (1 < List.length (filter (λ y, y = x) l))%nat) (remove_dups l)) as Hin
        by (apply list_elem_of_filter; split; [done | by apply elem_of_remove_dups]).
      rewrite E in Hin. by apply elem_of_nil in Hin.
    + assert (x ∈ filter (λ y, y = x) l) as Hin by (by apply list_elem_of_filter).
      destruct (filter (λ y, y = x) l); [by apply elem_of_nil in Hin | simpl in *; lia].
  - intros Hnd. apply filter_none. intros x Hx Hlt. rewrite elem_of_remove_dups in Hx.
    rewrite (proj1 (NoDup_count l) Hnd x Hx) in Hlt. lia.
Qed.

Lemma filter_all {A} (P : A → Prop) `{∀ x, Decision (P x)} (l : list A) :
  (∀ x, x ∈ l → P x) → filter P l = l.
Proof.
  induction l as [|x l IH]; intros Hl; [done|].
  rewrite filter_cons_True by (apply Hl; left).
  f_equal. apply IH. intros y Hy. apply Hl. by right.
Qed.

Lemma filter_filter' {A} (P Q : A → Prop)
    `{∀ x, Decision (P x)} `{∀ x, Decision (Q x)} (l : list A) :
  filter P (filter Q l) = filter (λ x, P x ∧ Q x) l.
Proof.
  induction l as [|x l IH]; [done|].
  rewrite !filter_cons. case_decide; rewrite ?filter_cons; repeat case_decide;
    rewrite ?IH; first [done | tauto].
Qed.

Lemma filter_ext {A} (P Q : A → Prop)
    `{∀ x, Decision (P x)} `{∀ x, Decision (Q x)} (l : list A) :
  (∀ x, x ∈ l → P x ↔ Q x) → filter P l = filter Q l.
Proof.
  induction l as [|x l IH]; intros Hl; [done|].
  rewrite !filter_cons. pose proof (Hl x ltac:(left)).
  rewrite IH by (intros; apply Hl; by right). repeat case_decide; tauto.
Qed.

(** An element of a concatenation is in one part or the other. *)
Lemma app_split {A} (l1 l2 pre : list A) (e : A) post :
  (l1 ++ l2 = pre ++ e :: post)%list →
  (∃ post1, l1 = pre ++ e :: post1 ∧ post = post1 ++ l2)%list
  ∨ (∃ pre2, pre = l1 ++ pre2 ∧ l2 = pre2 ++ e :: post)%list.
Proof.
  revert pre. induction l1 as [|x l1 IH]; intros pre H; [right; by exists pre|].
  destruct pre as [|y pre]; simplify_eq/=; [left; by exists l1|].
  destruct (IH pre) as [(p1 & -> & ->)|(p2 & -> & ->)]; [done|left; by exists p1|right; by exists p2].
Qed.
