(* ===== verification/Domain.v ===== *)
(** Domain types shared by every component: the scrape verdict and
    availability enumerations, the parser's [Extract], the fetcher's
    [FetchResult], the persisted DTOs ([ScrapeRecord], [JobRun]) and the
    three-valued verdict machine of [core/verdict.py]. *)

From S2P Require Import Prelude.

(** ** core/domain.py *)

Inductive ScrapeStatus := OK | INDETERMINATE | UNAVAILABLE.

Inductive Availability := IN_STOCK | OUT_OF_STOCK | UNKNOWN.

#[export] Instance ScrapeStatus_eq_dec : EqDecision ScrapeStatus.
Proof. solve_decision. Defined.
#[export] Instance Availability_eq_dec : EqDecision Availability.
Proof. solve_decision. Defined.

(** [status.value] and the enumeration's inverse, [ScrapeStatus(value)]. *)
Definition ScrapeStatus_value (s : ScrapeStatus) : string :=
  match s with
  | OK => "ok" | INDETERMINATE => "indeterminate" | UNAVAILABLE => "unavailable"
  end.

Definition ScrapeStatus_of (v : string) : result ScrapeStatus :=
  if bool_decide (v = "ok") then Ok OK
  else if bool_decide (v = "indeterminate") then Ok INDETERMINATE
  else if bool_decide (v = "unavailable") then Ok UNAVAILABLE
  else raise ValueError "not a valid ScrapeStatus".

Definition Availability_value (a : Availability) : string :=
  match a with
  | IN_STOCK => "InStock" | OUT_OF_STOCK => "OutOfStock" | UNKNOWN => "UNKNOWN"
  end.

Definition Availability_of (v : string) : result Availability :=
  if bool_decide (v = "InStock") then Ok IN_STOCK
  else if bool_decide (v = "OutOfStock") then Ok OUT_OF_STOCK
  else if bool_decide (v = "UNKNOWN") then Ok UNKNOWN
  else raise ValueError "not a valid Availability".

(** Prices are integer cents; an absent price is [None], never [0]. *)
Record Extract := {
  price_pix_cents : option Z;
  price_card_cents : option Z;
  currency : string;
  availability : Availability;
  price_pix_member_cents : option Z;
  price_card_member_cents : option Z;
}.

Definition has_price (x : Extract) : bool :=
  bool_decide (is_Some x.(price_pix_cents))
  || bool_decide (is_Some x.(price_card_cents))
  || bool_decide (is_Some x.(price_pix_member_cents))
  || bool_decide (is_Some x.(price_card_member_cents)).

(** ** autolycos/ports.py *)

Record FetchResult := {
  html : string;
  http_status : Z;
  method : string;
  challenged : bool;
}.

(** ** persistence/ports.py *)

Record ScrapeRecord := {
  sr_source_id : string;
  sr_ts : string;
  sr_status : ScrapeStatus;
  sr_price_pix_cents : option Z;
  sr_price_card_cents : option Z;
  sr_currency : option string;
  sr_availability : Availability;
  sr_method : option string;
  sr_error : option string;
  sr_price_pix_member_cents : option Z;
  sr_price_card_member_cents : option Z;
  sr_raw_ref : option string;
}.

Record JobRun := {
  jr_job_id : string;
  jr_owner_id : string;
  jr_window_start : string;
  jr_fired_at : string;
  jr_status : string;
  jr_sent_at : option string;
  jr_error : option string;
}.

Record JobRunSummary := {
  jrs_latest : JobRun;
  jrs_last_sent_at : option string;
}.

#[export] Instance Extract_eq_dec : EqDecision Extract.
Proof. solve_decision. Defined.
#[export] Instance FetchResult_eq_dec : EqDecision FetchResult.
Proof. solve_decision. Defined.
#[export] Instance ScrapeRecord_eq_dec : EqDecision ScrapeRecord.
Proof. solve_decision. Defined.
#[export] Instance JobRun_eq_dec : EqDecision JobRun.
Proof. solve_decision. Defined.
#[export] Instance JobRunSummary_eq_dec : EqDecision JobRunSummary.
Proof. solve_decision. Defined.

(** ** core/verdict.py *)

Definition compute_verdict (fetch_result : option FetchResult)
    (extract : option Extract) (parse_error : option string) : ScrapeStatus :=
  match fetch_result with
  | None => INDETERMINATE
  | Some fr =>
      if fr.(challenged) then INDETERMINATE
      else match extract, parse_error with
           | Some x, None =>
               if bool_decide (x.(availability) = OUT_OF_STOCK) then UNAVAILABLE
               else if has_price x then OK
               else INDETERMINATE
           | _, _ => INDETERMINATE
           end
  end.

(** * Lemmas *)

Lemma ScrapeStatus_of_value s : ScrapeStatus_of (ScrapeStatus_value s) = Ok s.
Proof. by destruct s. Qed.

Lemma Availability_of_value a : Availability_of (Availability_value a) = Ok a.
Proof. by destruct a. Qed.

#[export] Hint Resolve ScrapeStatus_of_value Availability_of_value : kerdoos.

Lemma has_price_true x :
  has_price x = true ↔
  is_Some x.(price_pix_cents) ∨ is_Some x.(price_card_cents) ∨
  is_Some x.(price_pix_member_cents) ∨ is_Some x.(price_card_member_cents).
Proof. unfold has_price. rewrite !orb_true_iff, !bool_decide_eq_true. tauto. Qed.

(** the verdict machine, completely characterised.  A page is reported
    [UNAVAILABLE] exactly when it was fetched without a challenge, parsed
    without an error, and says OutOfStock in so many words; it is reported
    [OK] exactly when it was fetched and parsed, carries at least one price
    and does not say OutOfStock.  Every other outcome (no fetch, a challenge,
    a parse failure, a page with no price) is [INDETERMINATE], so a transient
    block is never reported as a stock-out. *)
Theorem compute_verdict_spec fetch_result extract parse_error :
  (compute_verdict fetch_result extract parse_error = UNAVAILABLE ↔
     ∃ fr x, fetch_result = Some fr ∧ fr.(challenged) = false ∧
             extract = Some x ∧ parse_error = None ∧
             x.(availability) = OUT_OF_STOCK) ∧
  (compute_verdict fetch_result extract parse_error = OK ↔
     ∃ fr x, fetch_result = Some fr ∧ fr.(challenged) = false ∧
             extract = Some x ∧ parse_error = None ∧
             x.(availability) ≠ OUT_OF_STOCK ∧
             (is_Some x.(price_pix_cents) ∨ is_Some x.(price_card_cents) ∨
              is_Some x.(price_pix_member_cents) ∨
              is_Some x.(price_card_member_cents))).
Proof.
  unfold compute_verdict.
  destruct fetch_result as [fr|]; [|split; split; [done|by intros (?&?&?&_)|done|by intros (?&?&?&_)]].
  destruct (challenged fr) eqn:Hc;
    [split; split; first [done | by intros (?&?&?&?&_); simplify_eq; congruence]|].
  destruct extract as [x|];
    [|split; split; first [done | by intros (?&?&_&_&?&_)]].
  destruct parse_error as [pe|];
    [split; split; first [done | by intros (?&?&_&_&_&?&_)]|].
  case_bool_decide as Ha.
  - split; split; [by exists fr, x | done | done |].
    intros (?&?&?&?&?&_&?&_); simplify_eq; congruence.
  - split; split; [by destruct (has_price x)| | |].
    + intros (?&?&?&?&?&_&?); simplify_eq; congruence.
    + destruct (has_price x) eqn:Hp; [|done]. apply has_price_true in Hp. by exists fr, x.
    + intros (?&?&?&?&?&_&?&Hp); simplify_eq. apply has_price_true in Hp. by rewrite Hp.
Qed.
