(* ===== verification/Trace.v ===== *)
(** Programs that talk to a library: a call's answer may depend on the calls
    made so far, and each call is recorded with its answer.  The adapters of
    the browser tiers are written with it. *)

From S2P Require Import Prelude.

Section Trace.
Context {E : Type}.
Notation trace := (list E).

(** A call, recorded with its answer. *)
Definition perform {A} (ask : trace → result A) (log : result A → E) : M trace A :=
  λ h, let r := ask h in (r, h ++ [log r])%list.

(** The same, the answer itself as the value. *)
Definition observe {A} (ask : trace → result A) (log : result A → E) : M trace (result A) :=
  λ h, let r := ask h in (Ok r, h ++ [log r])%list.

Lemma perform_inv {A} ask (log : result A → E) h a h' :
  perform ask log h = (Ok a, h') → ask h = Ok a ∧ h' = (h ++ [log (Ok a)])%list.
Proof. unfold perform. intros [= Ha <-]. by rewrite Ha. Qed.

(** ** What a program adds to the trace *)

Definition adds {A} (P : trace → Prop) (m : M trace A) : Prop :=
  ∀ h, ∃ t, snd (m h) = (h ++ t)%list ∧ P t.

Lemma adds_weaken {A} (P Q : trace → Prop) (m : M trace A) :
  (∀ t, P t → Q t) → adds P m → adds Q m.
Proof. intros HPQ Hm h. destruct (Hm h) as (t & Ht & HP). exists t. auto. Qed.

Lemma adds_bind {A B} (P : E → Prop) (m : M trace A) (k : A → M trace B) :
  adds (Forall P) m → (∀ a, adds (Forall P) (k a)) → adds (Forall P) (mbind' m k).
Proof.
  intros Hm Hk h. destruct (Hm h) as (t & Ht & HP). unfold mbind'.
  destruct (m h) as [[a | e] s]; cbn in *; subst s; [| by exists t].
  destruct (Hk a (h ++ t)%list) as (t' & -> & HP'). exists (t ++ t')%list.
  rewrite app_assoc. split; [done | by apply Forall_app].
Qed.

Lemma adds_perform {A} (P : E → Prop) ask (log : result A → E) :
  (∀ r, P (log r)) → adds (Forall P) (perform ask log).
Proof. intros HP h. eexists. split; [reflexivity |]. by repeat constructor. Qed.

Lemma adds_observe {A} (P : E → Prop) ask (log : result A → E) :
  (∀ r, P (log r)) → adds (Forall P) (observe ask log).
Proof. intros HP h. eexists. split; [reflexivity |]. by repeat constructor. Qed.

Lemma adds_nil {A} (P : E → Prop) (m : M trace A) :
  (∀ h, snd (m h) = h) → adds (Forall P) m.
Proof. intros Hm h. exists []. by rewrite Hm, app_nil_r. Qed.

Lemma adds_try {A} (P : trace → Prop) (m : M trace A) handler :
  adds P m → (∀ e h, snd (handler e h) = h) → adds P (mtry m handler).
Proof.
  intros Hm Hh h. destruct (Hm h) as (t & Ht & HP). exists t. split; [| done]. unfold mtry.
  destruct (m h) as [[a | e] s]; cbn in *; [done |].
  destruct (is_Exception _); [by rewrite Hh | done].
Qed.

(** A resource between its two calls: entering, the body, leaving. *)
Definition opened {A} (enter : result A → E) (body : A → trace → Prop) (leave : result unit → E)
    (t : trace) : Prop :=
  (∃ e, t = [enter (Raise e)])
  ∨ ∃ a inner r, t = (enter (Ok a) :: inner ++ [leave r])%list ∧ body a inner.

Lemma adds_opened {A B} (enter : result A → E) (body : A → trace → Prop)
    (leave : result unit → E) (m1 : M trace A) (m2 : A → M trace B) ask2 :
  (∀ h, (∃ r, m1 h = (r, h ++ [enter r])%list)
        ∨ ∃ e e', m1 h = (Raise e', h ++ [enter (Raise e)])%list) →
  (∀ a, adds (body a) (m2 a)) →
  adds (opened enter body leave) (let! a := m1 in mfinally (m2 a) (perform ask2 leave)).
Proof.
  intros Hm1 Hm2 h. unfold mbind', mfinally, perform.
  assert (Hfail : ∀ e, opened enter body leave [enter (Raise e)]) by (intros e; left; by exists e).
  destruct (Hm1 h) as [[[a | e] ->] | (e & e' & ->)].
  2, 3: eexists; split; [reflexivity | apply Hfail].
  destruct (Hm2 a (h ++ [enter (Ok a)])%list) as (t & Ht & HP).
  destruct (m2 a _) as [r2 s2]. cbn in Ht. subst s2.
  exists (enter (Ok a) :: t ++ [leave (ask2 ((h ++ [enter (Ok a)]) ++ t)%list)])%list.
  split; [| right; by eexists _, _, _].
  destruct (ask2 _); cbn; by rewrite <- !app_assoc.
Qed.
(** Calls made one after the other, each only if the one before succeeded. *)
Fixpoint steps (calls : list (result unit → E)) (after : trace → Prop) (t : trace) : Prop :=
  match calls with
  | [] => after t
  | log :: calls =>
      (∃ e, t = [log (Raise e)]) ∨ ∃ t', t = log (Ok tt) :: t' ∧ steps calls after t'
  end.

Lemma adds_step {B} ask log calls after (m : M trace B) :
  adds (steps calls after) m →
  adds (steps (log :: calls) after) (let! _ := perform ask log in m).
Proof.
  intros Hm h. unfold mbind', perform. destruct (ask h) as [[] | e].
  - destruct (Hm (h ++ [log (Ok tt)])%list) as (t & -> & Ht).
    exists (log (Ok tt) :: t). split; [by rewrite <- app_assoc |]. right. by exists t.
  - eexists. split; [reflexivity |]. left. by exists e.
Qed.
End Trace.
