(* ===== verification/Orchestrator.v ===== *)
(** One scrape: the same-tier retry loop ([core/retry.py]) and
    fetch -> parse -> verdict -> record ([core/orchestrator.py]).

    [W] is the world a fetcher acts on; a [Fetcher W] is any stateful call
    that may raise, a [Parser] any function of the document that may raise:
    the ports [autolycos/ports.py:Fetcher] and [parsers/ports.py:Parser]. *)

From S2P Require Import Prelude Domain.

Definition Fetcher (W : Type) : Type := string → M W FetchResult.
Definition Parser : Type := string → result Extract.

Definition DEFAULT_RETRIES : Z := 3.
Definition DEFAULT_BACKOFF_BASE : Z := 1.

Section Orchestrator.
Context {W : Type}.
(** [sleep] is injectable, like the clock. *)
Variable sleep : Z → M W unit.
Variable utcnow_iso : M W string.

(** The [while result.challenged and attempt < retries] loop, with
    [left = retries - attempt] iterations left. *)
Fixpoint retry_loop (fetcher : Fetcher W) (url : string) (backoff_base : Z)
    (left : nat) (attempt : Z) (res : FetchResult) : M W FetchResult :=
  if res.(challenged) then
    match left with
    | O => mret' res
    | S left' =>
        let! _ := sleep (backoff_base * 2 ^ attempt) in
        let! res' := fetcher url in
        retry_loop fetcher url backoff_base left' (attempt + 1) res'
    end
  else mret' res.

Definition fetch_with_retry (fetcher : Fetcher W) (url : string)
    (retries backoff_base : Z) : M W FetchResult :=
  let! res := fetcher url in
  retry_loop fetcher url backoff_base (Z.to_nat retries) 0 res.

Definition indeterminate (source_id ts : string) (meth : option string)
    (error : string) : ScrapeRecord :=
  {| sr_source_id := source_id; sr_ts := ts; sr_status := INDETERMINATE;
     sr_price_pix_cents := None; sr_price_card_cents := None;
     sr_currency := None; sr_availability := UNKNOWN;
     sr_method := meth; sr_error := Some error;
     sr_price_pix_member_cents := None; sr_price_card_member_cents := None;
     sr_raw_ref := None |}.

(** The part of [scrape_one] after the fetch succeeded. *)
Definition scrape_result (parser : Parser) (source_id ts : string)
    (res : FetchResult) : result ScrapeRecord :=
  if res.(challenged) then
    Ok (indeterminate source_id ts (Some res.(method))
          ("challenged (http " +:+ pretty res.(http_status) +:+ ")"))
  else
    let outcome :=
      match parser res.(html) with
      | Ok x => Ok (Some x, None)
      | Raise e =>
          if is_a e.(exn_class) ParseError then Ok (None, Some e.(exn_msg))
          else Raise e
      end in
    let? (extract, parse_error) := outcome in
    let status := compute_verdict (Some res) extract parse_error in
    match extract with
    | None =>
        Ok (indeterminate source_id ts (Some res.(method))
              ("parse: " +:+ default "None" parse_error))
    | Some x =>
        Ok {| sr_source_id := source_id; sr_ts := ts; sr_status := status;
              sr_price_pix_cents := x.(price_pix_cents);
              sr_price_card_cents := x.(price_card_cents);
              sr_currency := Some x.(currency);
              sr_availability := x.(availability);
              sr_method := Some res.(method); sr_error := None;
              sr_price_pix_member_cents := x.(price_pix_member_cents);
              sr_price_card_member_cents := x.(price_card_member_cents);
              sr_raw_ref := None |}
    end.

(** The body of the outer [try]: a [FetchError] of the fetch is handled
    inside it, anything else leaves it. *)
Definition scrape_body (fetcher : Fetcher W) (parser : Parser)
    (source_id url ts : string) : M W ScrapeRecord :=
  λ w,
    match fetch_with_retry fetcher url DEFAULT_RETRIES DEFAULT_BACKOFF_BASE w with
    | (Ok res, w') => (scrape_result parser source_id ts res, w')
    | (Raise e, w') =>
        if is_a e.(exn_class) FetchError
        then (Ok (indeterminate source_id ts None ("fetch: " +:+ e.(exn_msg))), w')
        else (Raise e, w')
    end.

(** [now or _utcnow_iso()]: an absent or empty timestamp takes the clock. *)
Definition timestamp (now : option string) : M W string :=
  match now with
  | Some ts => if bool_decide (ts = "") then utcnow_iso else mret' ts
  | None => utcnow_iso
  end.

Definition scrape_one (fetcher : Fetcher W) (parser : Parser)
    (source_id url : string) (now : option string) : M W ScrapeRecord :=
  let! ts := timestamp now in
  mtry (scrape_body fetcher parser source_id url ts)
    (λ exc, mret' (indeterminate source_id ts None
              ("unexpected: " +:+ exc_name exc.(exn_class) +:+ ": " +:+ exc.(exn_msg)))).

Definition scrape_and_record (fetcher : Fetcher W) (parser : Parser)
    (record : string → ScrapeRecord → M W unit)
    (owner source_id url : string) (now : option string) : M W ScrapeRecord :=
  let! r := scrape_one fetcher parser source_id url now in
  let! _ := record owner r in
  mret' r.

End Orchestrator.

Arguments indeterminate source_id ts meth error : assert.

(** * The retry loop against a scripted fetcher *)

Module Retry.
(** A world that counts the fetches and logs the pauses; the [i]-th fetch
    answers [rs i]. *)
Record Script := { fetches : nat; sleeps : list Z }.

Definition scripted (rs : nat → result FetchResult) : Fetcher Script :=
  λ _ s, (rs s.(fetches), {| fetches := S s.(fetches); sleeps := s.(sleeps) |}).

Definition log_sleep (d : Z) : M Script unit :=
  mmodify (λ s, {| fetches := s.(fetches); sleeps := s.(sleeps) ++ [d] |}).

(** The pause before the [j]-th re-try. *)
Definition backoff (base : Z) (j : nat) : Z := base * 2 ^ Z.of_nat j.

(** The attempt the loop should stop at: the first one that raises or is not
    challenged, or else the last one allowed. *)
Definition settles (r : result FetchResult) : bool :=
  match r with Ok res => negb res.(challenged) | Raise _ => true end.

Fixpoint stop_at (rs : nat → result FetchResult) (i left : nat) : nat :=
  if settles (rs i) then i
  else match left with O => i | S left' => stop_at rs (S i) left' end.

Lemma stop_at_bounds rs i left : (i ≤ stop_at rs i left ≤ i + left)%nat.
Proof.
  revert i. induction left as [|left IH]; intros i; simpl; case_match; try lia.
  specialize (IH (S i)). lia.
Qed.

Lemma stop_at_spec rs i left :
  (∀ j, (i ≤ j < stop_at rs i left)%nat → settles (rs j) = false) ∧
  (settles (rs (stop_at rs i left)) = true ∨ stop_at rs i left = (i + left)%nat).
Proof.
  revert i. induction left as [|left IH]; intros i; simpl;
    destruct (settles (rs i)) eqn:Hi.
  - split; [intros; lia | by left].
  - split; [intros; lia | right; lia].
  - split; [intros; lia | by left].
  - destruct (IH (S i)) as [Hlt Hend]. split.
    + intros j Hj. destruct (decide (j = i)) as [->|]; [done|]. apply Hlt. lia.
    + destruct Hend; [by left|]. right. lia.
Qed.

Lemma retry_loop_scripted rs url base left (i : nat) res log :
  rs i = Ok res →
  retry_loop log_sleep (scripted rs) url base left (Z.of_nat i) res
    {| fetches := S i; sleeps := log |} =
  (rs (stop_at rs i left),
   {| fetches := S (stop_at rs i left);
      sleeps := log ++ (backoff base <$> seq i (stop_at rs i left - i)) |}).
Proof.
  revert i res log. induction left as [|left IH]; intros i res log Hi; simpl;
    unfold settles at 1 2 3; rewrite Hi; destruct (challenged res) eqn:Hc; simpl;
    rewrite ?Hi, ?Nat.sub_diag, ?app_nil_r; try done.
  unfold mbind', log_sleep, mmodify, scripted at 1; simpl.
  destruct (rs (S i)) as [res'|e] eqn:HSi.
  - replace (Z.of_nat i + 1) with (Z.of_nat (S i)) by lia.
    rewrite (IH (S i) res' _ HSi).
    pose proof (stop_at_bounds rs (S i) left).
    replace (stop_at rs (S i) left - i)%nat with (S (stop_at rs (S i) left - S i)) by lia.
    simpl. by rewrite <- app_assoc.
  - assert (stop_at rs (S i) left = S i) as ->.
    { destruct left; simpl; unfold settles; by rewrite HSi. }
    replace (S i - i)%nat with 1%nat by lia. by rewrite HSi.
Qed.

(** same-tier retry.  Against any script of answers, [fetch_with_retry]
    stops at the first fetch that raises or is not challenged, or after
    [retries] re-tries, whichever comes first: it returns that fetch's
    outcome (a still-challenged one when every attempt was), it has made
    exactly one more fetch than re-tries, never more than [retries + 1] in
    all, and its pauses are the exponential back-off
    [base, 2*base, 4*base, ...], one before each re-try. *)
Theorem fetch_with_retry_spec rs url retries base :
  let k := stop_at rs 0 (Z.to_nat retries) in
  fetch_with_retry log_sleep (scripted rs) url retries base
      {| fetches := 0; sleeps := [] |} =
    (rs k, {| fetches := S k;
              sleeps := backoff base <$> seq 0 k |}) ∧
  (k ≤ Z.to_nat retries)%nat ∧
  (∀ i, (i < k)%nat → settles (rs i) = false) ∧
  (settles (rs k) = true ∨ k = Z.to_nat retries).
Proof.
  intros k. destruct (stop_at_spec rs 0 (Z.to_nat retries)) as [Hlt Hend].
  pose proof (stop_at_bounds rs 0 (Z.to_nat retries)). fold k in Hlt, Hend, H.
  split; [|split_and!; [lia | intros; apply Hlt; lia | destruct Hend; auto]].
  unfold fetch_with_retry, mbind'. simpl. destruct (rs 0%nat) as [res|e] eqn:H0.
  - etransitivity; [exact (retry_loop_scripted rs url base _ 0 res [] H0)|].
    by rewrite Nat.sub_0_r.
  - assert (k = 0%nat) as ->; [|by rewrite H0].
    unfold k. destruct (Z.to_nat retries); simpl; unfold settles; by rewrite H0.
Qed.
End Retry.

(** * Fail-closed scraping *)

Section FailClosed.
Context {W : Type} (sleep : Z → M W unit) (utcnow_iso : M W string).

(** A call raises nothing that an [except Exception] clause would miss. *)
Definition raises_Exception {A} (m : M W A) : Prop :=
  ∀ w e w', m w = (Raise e, w') → is_Exception e.(exn_class) = true.

Lemma raises_bind {A B} (m : M W A) (k : A → M W B) :
  raises_Exception m → (∀ a, raises_Exception (k a)) → raises_Exception (mbind' m k).
Proof.
  intros Hm Hk w e w'. unfold mbind'. destruct (m w) as [[a|e'] w1] eqn:Hmw.
  - apply Hk.
  - intros ?. simplify_eq. by eapply Hm.
Qed.

Lemma fetch_with_retry_raises (fetcher : Fetcher W) url retries base :
  (∀ d, raises_Exception (sleep d)) → raises_Exception (fetcher url) →
  raises_Exception (fetch_with_retry sleep fetcher url retries base).
Proof.
  intros Hs Hf. apply raises_bind; [done|]. intros res. generalize 0.
  revert res. induction (Z.to_nat retries) as [|n IH]; intros res a; simpl;
    destruct (challenged res); try (by intros ???).
  repeat (apply raises_bind; [auto|intros]). apply IH.
Qed.

(** What a record says when the page was really read. *)
Definition read_record (source_id ts : string) (res : FetchResult) (x : Extract)
    (r : ScrapeRecord) : Prop :=
  r.(sr_status) = compute_verdict (Some res) (Some x) None ∧
  r.(sr_price_pix_cents) = x.(price_pix_cents) ∧
  r.(sr_price_card_cents) = x.(price_card_cents) ∧
  r.(sr_price_pix_member_cents) = x.(price_pix_member_cents) ∧
  r.(sr_price_card_member_cents) = x.(price_card_member_cents) ∧
  r.(sr_currency) = Some x.(currency) ∧ r.(sr_availability) = x.(availability) ∧
  r.(sr_method) = Some res.(method) ∧ r.(sr_error) = None.

(** What a record says when it was not. *)
Definition unread_record (r : ScrapeRecord) : Prop :=
  r.(sr_status) = INDETERMINATE ∧ r.(sr_availability) = UNKNOWN ∧
  r.(sr_price_pix_cents) = None ∧ r.(sr_price_card_cents) = None ∧
  r.(sr_price_pix_member_cents) = None ∧ r.(sr_price_card_member_cents) = None ∧
  r.(sr_currency) = None ∧ is_Some r.(sr_error).

Lemma unread_indeterminate s ts m err : unread_record (indeterminate s ts m err).
Proof. by repeat split; eauto. Qed.

Lemma scrape_result_cases parser source_id ts res r :
  scrape_result parser source_id ts res = Ok r →
  (unread_record r ∨
   ∃ x, res.(challenged) = false ∧ parser res.(html) = Ok x ∧
        read_record source_id ts res x r) ∧
  r.(sr_source_id) = source_id ∧ r.(sr_ts) = ts.
Proof.
  unfold scrape_result. destruct (challenged res) eqn:Hc.
  { intros [= <-]. split; [left; apply unread_indeterminate | done]. }
  destruct (parser (html res)) as [x|e] eqn:Hp; simpl.
  { intros [= <-]. split; [|done]. right. exists x. by repeat split. }
  case_match; simpl; [|done]. intros [= <-].
  split; [left; apply unread_indeterminate | done].
Qed.

(** C18: a scrape is fail-closed.  Whatever the fetcher and the parser do --
    answer, answer with a challenge, raise any [Exception] -- [scrape_one]
    returns a record for the requested source and timestamp, and the record
    is either the faithful image of a page that was fetched without a
    challenge and parsed (status from the verdict machine, the four prices,
    currency and availability of the extract, no error), or an
    [INDETERMINATE] record with no price, unknown availability and an
    error message. *)
Theorem scrape_one_fail_closed (fetcher : Fetcher W) (parser : Parser)
    source_id url ts w :
  ts ≠ "" →
  (∀ d, raises_Exception (sleep d)) →
  raises_Exception (fetcher url) →
  (∀ h e, parser h = Raise e → is_Exception e.(exn_class) = true) →
  ∃ r, scrape_one sleep utcnow_iso fetcher parser source_id url (Some ts) w =
         (Ok r, snd (fetch_with_retry sleep fetcher url
                       DEFAULT_RETRIES DEFAULT_BACKOFF_BASE w)) ∧
       r.(sr_source_id) = source_id ∧ r.(sr_ts) = ts ∧
       (unread_record r ∨
        ∃ res x,
          fst (fetch_with_retry sleep fetcher url
                 DEFAULT_RETRIES DEFAULT_BACKOFF_BASE w) = Ok res ∧
          res.(challenged) = false ∧ parser res.(html) = Ok x ∧
          read_record source_id ts res x r).
Proof.
  intros Hts Hs Hf Hp. unfold scrape_one, timestamp, mbind'.
  rewrite bool_decide_eq_false_2 by done. simpl. unfold mtry, scrape_body.
  pose proof (fetch_with_retry_raises fetcher url DEFAULT_RETRIES
                DEFAULT_BACKOFF_BASE Hs Hf w) as Hr.
  destruct (fetch_with_retry _ _ _ _ _ w) as [[res|e] w'].
  - simpl. destruct (scrape_result parser source_id ts res) as [r|e] eqn:Hres.
    + exists r. apply scrape_result_cases in Hres as (Hcase & ? & ?).
      split_and!; [done..|]. destruct Hcase as [?|(x&?&?&?)]; [by left|right]. by exists res, x.
    + assert (is_Exception (exn_class e) = true) as ->.
      { revert Hres. unfold scrape_result. destruct (challenged res); [done|].
        destruct (parser (html res)) eqn:Hpr; simpl; [done|].
        case_match; simpl; [done|]. intros [= <-]. eauto. }
      eexists. split_and!; [done..|]. left. apply unread_indeterminate.
  - simpl. destruct (is_a (exn_class e) FetchError); simpl.
    + eexists. split_and!; [done..|]. left. apply unread_indeterminate.
    + rewrite (Hr e w' eq_refl). eexists. split_and!; [done..|].
      left. apply unread_indeterminate.
Qed.
End FailClosed.

(** * What a scrape keeps and what it answers *)

Section Frame.
Context {W : Type} (sleep : Z → M W unit) (utcnow_iso : M W string).

Lemma pres_fetch_with_retry (I : W → Prop) (fetcher : Fetcher W) url retries base :
  (∀ d, pres I (sleep d)) → pres I (fetcher url) →
  pres I (fetch_with_retry sleep fetcher url retries base).
Proof.
  intros Hs Hf. apply pres_bind; [done|]. generalize (Z.to_nat retries) 0.
  intros left. induction left as [|left IH]; intros a res; simpl; case_match;
    auto with kerdoos.
Qed.

Lemma pres_scrape_and_record (I : W → Prop) (fetcher : Fetcher W) parser record owner id url now :
  (∀ d, pres I (sleep d)) → pres I utcnow_iso → pres I (fetcher url) →
  (∀ o r, pres I (record o r)) →
  pres I (scrape_and_record sleep utcnow_iso fetcher parser record owner id url now).
Proof.
  intros Hs Hc Hf Hr. apply pres_bind; [|intros r; apply pres_bind; auto with kerdoos].
  apply pres_bind; [unfold timestamp; repeat case_match; auto with kerdoos|].
  intros ts. apply pres_try; [|auto with kerdoos]. intros w Hw. unfold scrape_body.
  pose proof (pres_fetch_with_retry I fetcher url DEFAULT_RETRIES DEFAULT_BACKOFF_BASE Hs Hf w Hw).
  destruct (fetch_with_retry _ _ _ _ _ w) as [[res|e] w']; [done|]. by case_match.
Qed.

Lemma tame_fetch_with_retry (fetcher : Fetcher W) url retries base :
  (∀ d, tame (sleep d)) → tame (fetcher url) →
  tame (fetch_with_retry sleep fetcher url retries base).
Proof.
  intros Hs Hf. apply tame_bind; [done|]. generalize (Z.to_nat retries) 0.
  intros left. induction left as [|left IH]; intros a res; simpl; case_match;
    auto with kerdoos.
Qed.

Lemma tame_scrape_and_record (fetcher : Fetcher W) (parser : Parser) record owner id url now :
  (∀ d, tame (sleep d)) → tame utcnow_iso → tame (fetcher url) →
  (∀ h, tame_result (parser h)) → (∀ o r, tame (record o r)) →
  tame (scrape_and_record sleep utcnow_iso fetcher parser record owner id url now).
Proof.
  intros Hs Hc Hf Hp Hr. apply tame_bind; [|intros r; apply tame_bind; auto with kerdoos].
  apply tame_bind; [unfold timestamp; repeat case_match; auto with kerdoos|].
  intros ts. apply tame_try; [|auto with kerdoos]. intros w. unfold scrape_body.
  pose proof (tame_fetch_with_retry fetcher url DEFAULT_RETRIES DEFAULT_BACKOFF_BASE Hs Hf w) as Hl.
  destruct (fetch_with_retry _ _ _ _ _ w) as [[res|e] w']; simpl in *; [|by destruct (is_a _ _)].
  unfold scrape_result. destruct (challenged res); [done|]. specialize (Hp (html res)).
  destruct (parser (html res)) as [x|exn]; simpl; [done|]. by destruct (is_a _ _).
Qed.

(** The record of a scrape is about the source and the time asked for. *)
Lemma scrape_and_record_subject (fetcher : Fetcher W) parser record owner id url ts w r w' :
  ts ≠ "" →
  scrape_and_record sleep utcnow_iso fetcher parser record owner id url (Some ts) w = (Ok r, w') →
  sr_source_id r = id ∧ sr_ts r = ts.
Proof.
  intros Hts. unfold scrape_and_record, mbind'.
  destruct (scrape_one _ _ _ _ _ _ _ w) as [[r0|e] w1] eqn:E; [|done].
  destruct (record owner r0 w1) as [[u|e] w2]; [|done]. intros [= <- _].
  revert E. unfold scrape_one, timestamp, mbind'. rewrite bool_decide_eq_false_2 by done.
  cbn [mret']. unfold mtry, scrape_body, mret'.
  destruct (fetch_with_retry _ _ _ _ _ w) as [[res|e] w3].
  - destruct (scrape_result parser id ts res) as [r1|e] eqn:Er.
    + intros [= <- _]. by apply scrape_result_cases in Er as (_ & ? & ?).
    + case_match; [|done]. by intros [= <- _].
  - destruct (is_a _ _); [by intros [= <- _]|]. case_match; [|done]. by intros [= <- _].
Qed.
End Frame.

(** A fetch that times out on the first try, recorded fail-closed. *)
Lemma scrape_one_fail_closed_witness :
  ∃ r, fst (scrape_one Retry.log_sleep (mret' "")
              (Retry.scripted (λ _, raise FetchError "timed out"))
              (λ _, raise ParseError "no price") "p:kabum:1" "https://kabum.com.br/p"
              (Some "2026-01-01T00:00:00+00:00")
              {| Retry.fetches := 0; Retry.sleeps := [] |}) = Ok r ∧ unread_record r.
Proof.
  destruct (scrape_one_fail_closed Retry.log_sleep (mret' "")
              (Retry.scripted (λ _, raise FetchError "timed out"))
              (λ _, raise ParseError "no price") "p:kabum:1" "https://kabum.com.br/p"
              "2026-01-01T00:00:00+00:00" {| Retry.fetches := 0; Retry.sleeps := [] |})
    as (r & Hr & _ & _ & Hcase).
  - discriminate.
  - intros d w e w' H. discriminate.
  - intros w e w' H. injection H as <- _. reflexivity.
  - intros h e H. injection H as <-. reflexivity.
  - exists r. split; [by rewrite Hr|].
    destruct Hcase as [?|(res & x & H & _)]; [assumption|]. vm_compute in H. discriminate.
Defined.
