(* ===== verification/StateStore.v ===== *)
(** The StateStore port ([persistence/ports.py]) as a type class, what its
    clients may rely on, and its SQLite adapter
    ([persistence/sqlite_store.py]) over the tables [scrapes] and
    [job_runs], each a list of rows in rowid order. *)

From S2P Require Import Prelude Domain.

(** * The port *)

Class StateStore (S : Type) := {
  record : string → ScrapeRecord → M S unit;
  history : string → string → Z → M S (list ScrapeRecord);
  latest_all : string → M S (list ScrapeRecord);
  record_job_run : JobRun → M S bool;
  update_job_run : string → string → string → option string → option string → M S bool;
  latest_job_runs : string → M S (gmap string JobRunSummary);
  has_active_job_run : string → string → M S bool;
  reap_stale_job_run : string → string → string → M S bool;
}.

(** What the digest evaluator relies on: the set of (job_id, window_start)
    keys only grows, and [record_job_run] answers [True] only for the call
    that added its key. *)
Definition run_key (r : JobRun) : string * string := (r.(jr_job_id), r.(jr_window_start)).

(** A call that loses no recorded key. *)
Definition keeps_keys {S A : Type} (keys : S → gset (string * string)) (m : M S A) : Prop :=
  ∀ s, keys s ⊆ keys (snd (m s)).

Class JobRunLedger (S : Type) `{StateStore S} := {
  ledger_keys : S → gset (string * string);
  ledger_record o r : keeps_keys ledger_keys (record o r);
  ledger_history o s n : keeps_keys ledger_keys (history o s n);
  ledger_update j w st sa er : keeps_keys ledger_keys (update_job_run j w st sa er);
  ledger_active o j : keeps_keys ledger_keys (has_active_job_run o j);
  ledger_reap o j b : keeps_keys ledger_keys (reap_stale_job_run o j b);
  ledger_record_job_run r : keeps_keys ledger_keys (record_job_run r);
  ledger_recorded r s s' :
    record_job_run r s = (Ok true, s') →
    run_key r ∉ ledger_keys s ∧ run_key r ∈ ledger_keys s';
}.

(** * The SQLite adapter *)

(** A row of [scrapes]; the enumerations are stored as their text values. *)
Record ScrapeRow := {
  c_id : Z;
  c_owner_id : string;
  c_source_id : string;
  c_ts : string;
  c_status : string;
  c_price_pix_cents : option Z;
  c_price_card_cents : option Z;
  c_currency : option string;
  c_availability : string;
  c_method : option string;
  c_error : option string;
  c_raw_ref : option string;
  c_price_pix_member_cents : option Z;
  c_price_card_member_cents : option Z;
}.

(** state.db: [scrapes] with its AUTOINCREMENT counter, and [job_runs]. *)
Record StateDb := {
  scrapes : list ScrapeRow;
  next_id : Z;
  job_runs : list JobRun;
}.

Definition empty_state_db : StateDb :=
  {| scrapes := []; next_id := 1; job_runs := [] |}.

Definition row_to_record (row : ScrapeRow) : result ScrapeRecord :=
  let? status := ScrapeStatus_of row.(c_status) in
  let? avail := Availability_of row.(c_availability) in
  Ok {| sr_source_id := row.(c_source_id); sr_ts := row.(c_ts);
        sr_status := status;
        sr_price_pix_cents := row.(c_price_pix_cents);
        sr_price_card_cents := row.(c_price_card_cents);
        sr_currency := row.(c_currency);
        sr_availability := avail;
        sr_method := row.(c_method); sr_error := row.(c_error);
        sr_price_pix_member_cents := row.(c_price_pix_member_cents);
        sr_price_card_member_cents := row.(c_price_card_member_cents);
        sr_raw_ref := row.(c_raw_ref) |}.

(** The row [_INSERT] writes. *)
Definition insert_row (id : Z) (owner : string) (s : ScrapeRecord) : ScrapeRow :=
  {| c_id := id; c_owner_id := owner; c_source_id := s.(sr_source_id);
     c_ts := s.(sr_ts); c_status := ScrapeStatus_value s.(sr_status);
     c_price_pix_cents := s.(sr_price_pix_cents);
     c_price_card_cents := s.(sr_price_card_cents);
     c_currency := s.(sr_currency);
     c_availability := Availability_value s.(sr_availability);
     c_method := s.(sr_method); c_error := s.(sr_error);
     c_raw_ref := s.(sr_raw_ref);
     c_price_pix_member_cents := s.(sr_price_pix_member_cents);
     c_price_card_member_cents := s.(sr_price_card_member_cents) |}.

(** [ORDER BY ts DESC, id DESC]. *)
Definition newer (a b : ScrapeRow) : bool :=
  if str_ltb b.(c_ts) a.(c_ts) then true
  else if str_ltb a.(c_ts) b.(c_ts) then false
  else b.(c_id) <=? a.(c_id).

(** [LIMIT ?]: SQLite reads a negative limit as no limit. *)
Definition sql_limit {A} (n : Z) (l : list A) : list A :=
  if n <? 0 then l else take (Z.to_nat n) l.

Definition active (status : string) : Prop := status = "queued" ∨ status = "running".
#[export] Instance active_dec status : Decision (active status).
Proof. unfold active. apply _. Defined.

Definition REAPED : string := "reaped: stale job_run past max-send-timeout".

Module Sqlite.

Definition record (owner : string) (scrape : ScrapeRecord) : M StateDb unit :=
  if bool_decide (owner = "") then mlift (raise ValueError "owner must not be empty")
  else mmodify (λ db,
    {| scrapes := db.(scrapes) ++ [insert_row db.(next_id) owner scrape];
       next_id := db.(next_id) + 1; job_runs := db.(job_runs) |}).

Definition history_rows (owner source_id : string) (db : StateDb) : list ScrapeRow :=
  sort_by newer (filter (λ r, c_owner_id r = owner ∧ c_source_id r = source_id)
                   db.(scrapes)).

Definition history (owner source_id : string) (limit : Z)
    : M StateDb (list ScrapeRecord) :=
  let! db := mget in
  mlift (rmap row_to_record (sql_limit limit (history_rows owner source_id db))).

(** [ROW_NUMBER() OVER (PARTITION BY source_id ORDER BY ts DESC, id DESC)],
    the rows numbered 1, [ORDER BY source_id]. *)
Definition latest_rows (owner : string) (db : StateDb) : list ScrapeRow :=
  let mine := filter (λ r, c_owner_id r = owner) db.(scrapes) in
  let keys := sort_by str_leb (remove_dups (c_source_id <$> mine)) in
  omap (λ s, head (sort_by newer (filter (λ r, c_source_id r = s) mine))) keys.

Definition latest_all (owner : string) : M StateDb (list ScrapeRecord) :=
  let! db := mget in mlift (rmap row_to_record (latest_rows owner db)).

Definition set_runs (f : list JobRun → list JobRun) (db : StateDb) : StateDb :=
  {| scrapes := db.(scrapes); next_id := db.(next_id); job_runs := f db.(job_runs) |}.

(** [INSERT ... ON CONFLICT(job_id, window_start) DO NOTHING]; the answer is
    [rowcount == 1]. *)
Definition record_job_run (run : JobRun) : M StateDb bool :=
  λ db,
    if bool_decide (run_key run ∈ run_key <$> db.(job_runs)) then (Ok false, db)
    else (Ok true, set_runs (λ rs, rs ++ [run]) db).

(** An UPDATE: the rows [P] selects are rewritten by [f], in place; the
    answer is [rowcount == 1]. *)
Definition update_where (P : JobRun → Prop) `{∀ r, Decision (P r)}
    (f : JobRun → JobRun) : M StateDb bool :=
  λ db,
    (Ok (bool_decide (length (filter P db.(job_runs)) = 1%nat)),
     set_runs (fmap (λ r, if decide (P r) then f r else r)) db).

Definition set_status (status : string) (sent_at error : option string)
    (r : JobRun) : JobRun :=
  {| jr_job_id := r.(jr_job_id); jr_owner_id := r.(jr_owner_id);
     jr_window_start := r.(jr_window_start); jr_fired_at := r.(jr_fired_at);
     jr_status := status; jr_sent_at := sent_at; jr_error := error |}.

Definition update_job_run (job_id window_start status : string)
    (sent_at error : option string) : M StateDb bool :=
  update_where (λ r, jr_job_id r = job_id ∧ jr_window_start r = window_start)
    (set_status status sent_at error).

(** [ROW_NUMBER() OVER (PARTITION BY job_id ORDER BY fired_at DESC, rowid
    DESC) = 1]: going down the rows in rowid order, a row replaces the
    current one unless it fired strictly earlier. *)
Definition latest_of (runs : list JobRun) : option JobRun :=
  foldl (λ best r,
    match best with
    | None => Some r
    | Some b => if str_ltb r.(jr_fired_at) b.(jr_fired_at) then Some b else Some r
    end) None runs.

(** [MAX(sent_at)]: NULLs are ignored. *)
Definition max_sent_at (runs : list JobRun) : option string :=
  foldl (λ best r,
    match best, r.(jr_sent_at) with
    | None, s => s
    | Some b, Some s => if str_ltb b s then Some s else Some b
    | Some b, None => Some b
    end) None runs.

Definition summary_of (owner job_id : string) (runs : list JobRun)
    : option JobRunSummary :=
  let mine := filter (λ r, jr_owner_id r = owner ∧ jr_job_id r = job_id) runs in
  (λ r, {| jrs_latest := r;
           jrs_last_sent_at := max_sent_at (filter (λ r, jr_status r = "sent") mine) |})
    <$> latest_of mine.

Definition latest_job_runs (owner : string) : M StateDb (gmap string JobRunSummary) :=
  mgets (λ db,
    list_to_map (omap (λ j, pair j <$> summary_of owner j db.(job_runs))
      (remove_dups (jr_job_id <$> filter (λ r, jr_owner_id r = owner) db.(job_runs))))).

Definition has_active_job_run (owner job_id : string) : M StateDb bool :=
  mgets (λ db,
    bool_decide (Exists (λ r, jr_owner_id r = owner ∧ jr_job_id r = job_id ∧
                              active (jr_status r)) db.(job_runs))).

Definition reap_stale_job_run (owner job_id fired_before : string) : M StateDb bool :=
  update_where (λ r, jr_owner_id r = owner ∧ jr_job_id r = job_id ∧
                     active (jr_status r) ∧ str_ltb (jr_fired_at r) fired_before = true)
    (λ r, set_status "error" r.(jr_sent_at) (Some REAPED) r).

#[global] Instance sqlite_state_store : StateStore StateDb := {
  record := record; history := history; latest_all := latest_all;
  record_job_run := record_job_run; update_job_run := update_job_run;
  latest_job_runs := latest_job_runs; has_active_job_run := has_active_job_run;
  reap_stale_job_run := reap_stale_job_run;
}.
End Sqlite.

(** * Invariant and reachable states *)

(** A row that [row_to_record] accepts. *)
Definition decodable (r : ScrapeRow) : Prop := ∃ x, row_to_record r = Ok x.

Record wf (db : StateDb) : Prop := {
  wf_ids : StronglySorted (λ a b, c_id a < c_id b) db.(scrapes);
  wf_next : ∀ r, r ∈ db.(scrapes) → c_id r < db.(next_id);
  wf_text : ∀ r, r ∈ db.(scrapes) → decodable r;
  wf_owner : ∀ r, r ∈ db.(scrapes) → c_owner_id r ≠ "";
  wf_keys : NoDup (run_key <$> db.(job_runs));
}.

(** The writes of the adapter, each with the answer it gives. *)
Inductive write : Type :=
| WRecord (owner : string) (r : ScrapeRecord)
| WRecordJobRun (r : JobRun)
| WUpdateJobRun (job_id window_start status : string) (sent_at error : option string)
| WReap (owner job_id fired_before : string).

Definition exec_write (w : write) (db : StateDb) : StateDb :=
  match w with
  | WRecord o r => snd (Sqlite.record o r db)
  | WRecordJobRun r => snd (Sqlite.record_job_run r db)
  | WUpdateJobRun j ws st sa er => snd (Sqlite.update_job_run j ws st sa er db)
  | WReap o j b => snd (Sqlite.reap_stale_job_run o j b db)
  end.

(** The states that some sequence of writes reaches from [db]. *)
Inductive reaches (db : StateDb) : StateDb → Prop :=
| reaches_refl : reaches db db
| reaches_step db' w : reaches db db' → reaches db (exec_write w db').

Section Lemmas.

Lemma row_to_insert id owner s : row_to_record (insert_row id owner s) = Ok s.
Proof.
  unfold row_to_record. simpl.
  rewrite ScrapeStatus_of_value, Availability_of_value. by destruct s.
Qed.

Lemma newer_spec a b :
  newer a b = true ↔
  str_lt (c_ts b) (c_ts a) ∨ (c_ts a = c_ts b ∧ c_id b ≤ c_id a).
Proof.
  unfold newer. destruct (str_ltb (c_ts b) (c_ts a)) eqn:H1.
  - apply str_ltb_lt in H1. tauto.
  - assert (¬ str_lt (c_ts b) (c_ts a)) by (rewrite <- str_ltb_lt; congruence).
    destruct (str_ltb (c_ts a) (c_ts b)) eqn:H2.
    + apply str_ltb_lt in H2. split; [done|].
      intros [?|[Heq _]]; [done|]. rewrite Heq in H2. by apply str_lt_irrefl in H2.
    + rewrite Z.leb_le. split; [|tauto]. intros ?. right. split; [|done].
      apply str_leb_antisym; rewrite str_leb_ltb; by apply negb_true_iff.
Qed.

Lemma newer_total a b : newer a b = true ∨ newer b a = true.
Proof.
  rewrite !newer_spec. destruct (str_leb_total (c_ts a) (c_ts b)) as [H|H];
    apply str_leb_or in H as [?|Heq]; auto; rewrite Heq;
    destruct (Z.le_ge_cases (c_id a) (c_id b)); auto.
Qed.

Lemma newer_trans a b c : newer a b = true → newer b c = true → newer a c = true.
Proof.
  rewrite !newer_spec. intros [?|[Hab ?]] [?|[Hbc ?]].
  - left. by eapply str_lt_trans.
  - left. by rewrite <- Hbc.
  - left. by rewrite Hab.
  - right. split; [congruence|lia].
Qed.

Lemma newer_antisym a b : newer a b = true → newer b a = true → c_id a = c_id b.
Proof.
  rewrite !newer_spec. intros [H|[H ?]] [H'|[H' ?]]; try lia.
  - exfalso. eapply str_lt_irrefl, str_lt_trans; eauto.
  - rewrite H' in H. by apply str_lt_irrefl in H.
  - rewrite H in H'. by apply str_lt_irrefl in H'.
Qed.

(** Row ids identify rows. *)
Lemma wf_id_inj db a b :
  wf db → a ∈ db.(scrapes) → b ∈ db.(scrapes) → c_id a = c_id b → a = b.
Proof.
  intros [Hs _ _ _ _]. induction Hs as [|x l _ IH Hx]; [by intros ?%elem_of_nil|].
  rewrite Forall_forall in Hx. rewrite !elem_of_cons.
  intros [->|Ha] [->|Hb] Heq; auto.
  - specialize (Hx _ Hb). lia.
  - specialize (Hx _ Ha). lia.
Qed.

(** An UPDATE that leaves the key columns alone leaves the keys alone. *)
Lemma update_keys (P : JobRun → Prop) `{∀ r, Decision (P r)} f (l : list JobRun) :
  (∀ r, run_key (f r) = run_key r) →
  run_key <$> ((λ r, if decide (P r) then f r else r) <$> l) = run_key <$> l.
Proof.
  intros Hf. rewrite <- list_fmap_compose. apply list_fmap_ext.
  intros i r _. simpl. by case_decide.
Qed.

Lemma StronglySorted_snoc (R : ScrapeRow → ScrapeRow → Prop) (l : list ScrapeRow) x :
  StronglySorted R l → (∀ y, y ∈ l → R y x) → StronglySorted R (l ++ [x]).
Proof.
  induction 1 as [|y l Hl IH Hy]; intros Hx; simpl; [repeat constructor|].
  constructor; [apply IH; intros; apply Hx; by right|].
  apply Forall_app. split; [done|]. constructor; [|done]. apply Hx. left.
Qed.

Lemma wf_empty : wf empty_state_db.
Proof. split; simpl; [constructor | set_solver.. | constructor]. Qed.

Lemma wf_write w db : wf db → wf (exec_write w db).
Proof.
  intros [Hids Hnext Htext Hown Hkeys]. destruct w as [o r|r|j ws st sa er|o j b]; simpl.
  - unfold Sqlite.record. case_bool_decide as Ho; [done|]. simpl.
    split; simpl; [| | | |done].
    + apply StronglySorted_snoc; [done|]. intros y Hy. simpl. by apply Hnext.
    + intros y [Hy|Hy%list_elem_of_singleton]%elem_of_app; subst; simpl; [|lia].
      specialize (Hnext _ Hy). lia.
    + intros y [Hy|Hy%list_elem_of_singleton]%elem_of_app; subst; [auto|].
      eexists. apply row_to_insert.
    + intros y [Hy|Hy%list_elem_of_singleton]%elem_of_app; subst; auto.
  - unfold Sqlite.record_job_run. case_bool_decide as Hk; [done|].
    split; simpl; [done..|]. rewrite fmap_app. simpl.
    apply NoDup_app. split_and!; [done| |apply NoDup_singleton].
    intros x Hx Hx'%list_elem_of_singleton. by subst.
  - split; simpl; [done..|].
    by rewrite update_keys.
  - split; simpl; [done..|].
    by rewrite update_keys.
Qed.

Lemma wf_reaches db db' : wf db → reaches db db' → wf db'.
Proof. intros Hwf. induction 1; [done|]. by apply wf_write. Qed.
End Lemmas.

#[export] Hint Resolve wf_empty wf_write wf_reaches newer_total newer_trans : kerdoos.

(** * Properties of the adapter *)

Section Properties.

(** The record a decodable row holds. *)
Definition decoded (row : ScrapeRow) (x : ScrapeRecord) : Prop :=
  row_to_record row = Ok x.

Lemma rmap_decoded (rows : list ScrapeRow) :
  (∀ r, r ∈ rows → decodable r) →
  ∃ xs, rmap row_to_record rows = Ok xs ∧ Forall2 decoded rows xs.
Proof.
  induction rows as [|r rows IH]; intros Hr; [by exists []|].
  destruct (Hr r ltac:(left)) as [x Hx].
  destruct IH as (xs & Hxs & HF); [intros; apply Hr; by right|].
  exists (x :: xs). simpl. rewrite Hx. simpl. rewrite Hxs. by split; [|constructor].
Qed.

Lemma history_rows_decodable db o s r :
  wf db → r ∈ Sqlite.history_rows o s db →
  r ∈ db.(scrapes) ∧ c_owner_id r = o ∧ c_source_id r = s ∧ decodable r.
Proof.
  intros Hwf [[Ho Hs] Hr]%elem_of_sort_by%list_elem_of_filter.
  split_and!; [done..|]. by apply (wf_text _ Hwf).
Qed.

Lemma history_one db o s :
  fst (Sqlite.history o s 1 db) =
  rmap row_to_record (option_list (head (Sqlite.history_rows o s db))).
Proof. simpl. by destruct (Sqlite.history_rows o s db). Qed.

(** The history round trip and its tenant scope.  Recording a scrape for
    an owner under a timestamp no earlier than that source's history makes it
    the newest record of that (owner, source) history, read back field by
    field as it was given; the history of every other (owner, source) pair,
    and every digest-job run, is left exactly as it was. *)
Theorem record_history_roundtrip db owner r :
  wf db → owner ≠ "" →
  (∀ row, row ∈ db.(scrapes) → c_owner_id row = owner →
          c_source_id row = r.(sr_source_id) →
          str_leb (c_ts row) r.(sr_ts) = true) →
  let db' := snd (Sqlite.record owner r db) in
  fst (Sqlite.record owner r db) = Ok tt ∧
  fst (Sqlite.history owner r.(sr_source_id) 1 db') = Ok [r] ∧
  (∀ o s n, (o, s) ≠ (owner, r.(sr_source_id)) →
            fst (Sqlite.history o s n db') = fst (Sqlite.history o s n db)) ∧
  job_runs db' = job_runs db.
Proof.
  intros Hwf Ho Hts. unfold Sqlite.record. rewrite bool_decide_eq_false_2 by done.
  set (new := insert_row (next_id db) owner r). simpl. fold new.
  split_and!; [done| |..|done].
  - unfold Sqlite.history_rows. simpl.
    assert (head (sort_by newer (filter (λ x, c_owner_id x = owner ∧
              c_source_id x = sr_source_id r) (scrapes db ++ [new]))) = Some new) as Hh.
    { apply sort_by_head_unique; [apply newer_total | apply newer_trans | | |].
      - intros a b [_ Ha]%list_elem_of_filter [_ Hb]%list_elem_of_filter Hab Hba.
        pose proof (wf_write (WRecord owner r) db Hwf) as Hwf'. simpl in Hwf'.
        unfold Sqlite.record in Hwf'. rewrite bool_decide_eq_false_2 in Hwf' by done.
        eapply (wf_id_inj _ _ _ Hwf'); [done..|by apply newer_antisym].
      - apply list_elem_of_filter. split; [done|]. set_solver.
      - intros y [[Hyo Hys] [Hy|Hy%list_elem_of_singleton]%elem_of_app]%list_elem_of_filter.
        + apply newer_spec. specialize (Hts _ Hy Hyo Hys).
          pose proof (wf_next _ Hwf _ Hy).
          apply str_leb_or in Hts as [?|?]; [by left|right]. simpl. split; [done|lia].
        + subst y. apply newer_spec. right. split; [done|lia]. }
    destruct (sort_by _ _) as [|h t]; [done|]. simplify_eq/=.
    unfold new. by rewrite row_to_insert.
  - intros o s n Hne. unfold Sqlite.history_rows. simpl.
    rewrite filter_app, (filter_none _ [new]), app_nil_r; [done|].
    intros x ->%list_elem_of_singleton. simpl. naive_solver.
Qed.

Lemma elem_of_latest_rows o db row :
  row ∈ Sqlite.latest_rows o db ↔ head (Sqlite.history_rows o (c_source_id row) db) = Some row.
Proof.
  unfold Sqlite.latest_rows, Sqlite.history_rows.
  assert (∀ s, filter (λ r, c_source_id r = s) (filter (λ r, c_owner_id r = o) (scrapes db))
               = filter (λ r, c_owner_id r = o ∧ c_source_id r = s) (scrapes db)) as Hf.
  { intros s. rewrite filter_filter'. apply filter_ext. tauto. }
  rewrite list_elem_of_omap. setoid_rewrite elem_of_sort_by.
  setoid_rewrite elem_of_remove_dups. setoid_rewrite Hf. split.
  - intros (s & _ & Hs). assert (c_source_id row = s) as ->; [|done].
    destruct (sort_by newer _) as [|x l] eqn:Hx in Hs; [done|]. simplify_eq/=.
    assert (row ∈ row :: l) as Hin by left. rewrite <- Hx in Hin.
    apply elem_of_sort_by, list_elem_of_filter in Hin. tauto.
  - intros Hs. exists (c_source_id row). split; [|done].
    destruct (sort_by newer _) as [|x l] eqn:Hx in Hs; [done|]. simplify_eq/=.
    assert (row ∈ row :: l) as Hin by left. rewrite <- Hx in Hin.
    apply elem_of_sort_by, list_elem_of_filter in Hin as [[Ho _] Hin].
    apply list_elem_of_fmap. exists row. split; [done|].
    by apply list_elem_of_filter.
Qed.

Lemma Forall2_decoded_elem rows xs x :
  Forall2 decoded rows xs → x ∈ xs ↔ ∃ row, row ∈ rows ∧ decoded row x.
Proof.
  induction 1 as [|row y rows xs Hd _ IH]; [set_solver|].
  rewrite elem_of_cons, IH. unfold decoded in *. split.
  - intros [->|(r & ? & ?)]; [exists row | exists r]; (split; [|done]); [left | by right].
  - intros (r & [->|?]%elem_of_cons & ?); [left; congruence | right; eauto].
Qed.

Lemma decoded_source row x : decoded row x → c_source_id row = sr_source_id x.
Proof.
  unfold decoded, row_to_record.
  destruct (ScrapeStatus_of (c_status row)); [|done].
  destruct (Availability_of (c_availability row)); [|done]. simpl. by intros [= <-].
Qed.

(** the one-query dashboard read is the per-source read.  On every
    reachable state, [latest_all] (one window query) succeeds, and a record
    is in its answer exactly when it is the answer of
    [history(owner, source_id, limit=1)] for its own source: one newest
    record for each source of that owner, and nothing of any other owner. *)
Theorem latest_all_is_newest db owner :
  wf db →
  ∃ xs, fst (Sqlite.latest_all owner db) = Ok xs ∧
    ∀ x, x ∈ xs ↔ fst (Sqlite.history owner x.(sr_source_id) 1 db) = Ok [x].
Proof.
  intros Hwf.
  assert (∀ r, r ∈ Sqlite.latest_rows owner db → decodable r) as Hdec.
  { intros r Hr%elem_of_latest_rows.
    apply (history_rows_decodable db owner (c_source_id r) r Hwf).
    destruct (Sqlite.history_rows _ _ _); simplify_eq/=. left. }
  destruct (rmap_decoded _ Hdec) as (xs & Hxs & HF). exists xs. split; [done|].
  intros x. rewrite (Forall2_decoded_elem _ _ _ HF), history_one. split.
  - intros (row & Hrow%elem_of_latest_rows & Hd).
    rewrite <- (decoded_source _ _ Hd), Hrow. simpl. by rewrite Hd.
  - intros Hx. destruct (head (Sqlite.history_rows owner (sr_source_id x) db))
      as [row|] eqn:Hrow; simpl in Hx; [|done].
    destruct (row_to_record row) eqn:Hd; simplify_eq/=.
    exists row. split; [|done]. apply elem_of_latest_rows.
    by rewrite (decoded_source _ _ Hd).
Qed.

(** ** Digest-job runs *)

Lemma write_keys w db :
  ∀ k, k ∈ run_key <$> db.(job_runs) → k ∈ run_key <$> job_runs (exec_write w db).
Proof.
  intros k Hk. destruct w as [o r|r|j ws st sa er|o j b]; simpl.
  - unfold Sqlite.record. by case_bool_decide.
  - unfold Sqlite.record_job_run. case_bool_decide; [done|]. simpl.
    rewrite fmap_app. set_solver.
  - by rewrite update_keys.
  - by rewrite update_keys.
Qed.

Lemma reaches_keys db db' k :
  reaches db db' → k ∈ run_key <$> db.(job_runs) → k ∈ run_key <$> db'.(job_runs).
Proof. induction 1; [done|]. intros. apply write_keys. auto. Qed.

Lemma record_job_run_true r db db' :
  Sqlite.record_job_run r db = (Ok true, db') →
  run_key r ∉ run_key <$> db.(job_runs) ∧ run_key r ∈ run_key <$> db'.(job_runs) ∧
  db'.(job_runs) = db.(job_runs) ++ [r].
Proof.
  unfold Sqlite.record_job_run. case_bool_decide as Hk; [done|].
  intros [= <-]. simpl. rewrite fmap_app. set_solver.
Qed.

(** The idempotence key.  A run is recorded (answer [True]) exactly when
    its (job_id, window_start) key is not in the table; from then on,
    whatever sequence of writes follows -- status updates, reaping, other
    runs -- recording a run under the same key answers [False] and changes
    nothing. *)
Theorem record_job_run_once db r1 :
  (fst (Sqlite.record_job_run r1 db) =
     Ok (bool_decide (run_key r1 ∉ run_key <$> db.(job_runs)))) ∧
  ∀ db' r2,
    reaches (snd (Sqlite.record_job_run r1 db)) db' → run_key r2 = run_key r1 →
    Sqlite.record_job_run r2 db' = (Ok false, db').
Proof.
  split.
  - unfold Sqlite.record_job_run. by repeat case_bool_decide.
  - intros db' r2 Hr Hk. unfold Sqlite.record_job_run at 1.
    rewrite bool_decide_eq_true_2; [done|]. rewrite Hk.
    eapply reaches_keys; [exact Hr|]. unfold Sqlite.record_job_run.
    case_bool_decide; [done|]. simpl. rewrite fmap_app. set_solver.
Qed.

(** A run the reaper may take. *)
Definition stale (owner job_id fired_before : string) (r : JobRun) : Prop :=
  jr_owner_id r = owner ∧ jr_job_id r = job_id ∧ active (jr_status r) ∧
  str_ltb (jr_fired_at r) fired_before = true.
#[export] Instance stale_dec o j b r : Decision (stale o j b r).
Proof. unfold stale. apply _. Defined.

Lemma error_inactive : ¬ active "error".
Proof. by intros [?|?]. Qed.

(** the reaper.  It rewrites, in place, exactly the runs of that owner
    and job that are queued or running and fired before the bound: their
    status becomes the terminal ['error'], everything else in the table and
    every key stays; afterwards the job is active only if a run that was not
    stale still is.  Its answer is [True] exactly when one row was stale. *)
Theorem reap_stale_job_run_spec owner job_id fired_before db :
  let db' := snd (Sqlite.reap_stale_job_run owner job_id fired_before db) in
  job_runs db' = (λ r, if decide (stale owner job_id fired_before r)
                       then Sqlite.set_status "error" (jr_sent_at r) (Some REAPED) r
                       else r) <$> job_runs db ∧
  run_key <$> job_runs db' = run_key <$> job_runs db ∧
  scrapes db' = scrapes db ∧
  fst (Sqlite.reap_stale_job_run owner job_id fired_before db) =
    Ok (bool_decide (length (filter (stale owner job_id fired_before)
                               (job_runs db)) = 1%nat)) ∧
  (fst (Sqlite.has_active_job_run owner job_id db') = Ok true ↔
   ∃ r, r ∈ job_runs db ∧ jr_owner_id r = owner ∧ jr_job_id r = job_id ∧
        active (jr_status r) ∧ ¬ stale owner job_id fired_before r).
Proof.
  simpl. split_and!; [done|by rewrite update_keys|done|done|].
  set (f := λ r, if decide _ then _ else _).
  transitivity (Exists (λ r, jr_owner_id r = owner ∧ jr_job_id r = job_id ∧
                             active (jr_status r)) (f <$> job_runs db)).
  { split; [intros [= H]; by apply bool_decide_eq_true in H
           | intros; f_equal; by apply bool_decide_eq_true]. }
  rewrite Exists_fmap, Exists_exists. split.
  - intros (r & Hr & Ho & Hj & Ha). exists r. unfold compose, f in *.
    case_decide as Hs; [by apply error_inactive in Ha|]. done.
  - intros (r & Hr & Ho & Hj & Ha & Hs). exists r. unfold compose, f.
    by rewrite decide_False.
Qed.
End Properties.

(** The adapter discharges the ledger interface. *)
#[export] Instance sqlite_ledger : JobRunLedger StateDb.
Proof.
  refine {| ledger_keys db := list_to_set (run_key <$> db.(job_runs)) |};
    unfold keeps_keys.
  - intros o r s k. rewrite !elem_of_list_to_set. apply (write_keys (WRecord o r)).
  - intros o s n db. done.
  - intros j w st sa er s k. rewrite !elem_of_list_to_set.
    apply (write_keys (WUpdateJobRun j w st sa er)).
  - intros o j db. done.
  - intros o j b s k. rewrite !elem_of_list_to_set. apply (write_keys (WReap o j b)).
  - intros r s k. rewrite !elem_of_list_to_set. apply (write_keys (WRecordJobRun r)).
  - intros r s s'. rewrite !elem_of_list_to_set. intros H.
    apply record_job_run_true in H. tauto.
Defined.

(** * Concrete instances *)

Definition demo_record (src ts : string) : ScrapeRecord :=
  {| sr_source_id := src; sr_ts := ts; sr_status := OK;
     sr_price_pix_cents := Some 755800; sr_price_card_cents := None;
     sr_currency := Some "BRL"; sr_availability := IN_STOCK;
     sr_method := Some "http"; sr_error := None;
     sr_price_pix_member_cents := None; sr_price_card_member_cents := None;
     sr_raw_ref := None |}.

Definition demo_run (job ws status : string) : JobRun :=
  {| jr_job_id := job; jr_owner_id := "alice"; jr_window_start := ws;
     jr_fired_at := ws; jr_status := status; jr_sent_at := None; jr_error := None |}.

(** Two tenants following the same source. *)
Definition demo_db : StateDb :=
  exec_write (WRecord "bob" (demo_record "p:kabum:1" "2026-01-02T00:00:00+00:00"))
    (exec_write (WRecord "alice" (demo_record "p:kabum:1" "2026-01-01T00:00:00+00:00"))
       empty_state_db).

Lemma demo_db_wf : wf demo_db.
Proof. repeat apply wf_write. apply wf_empty. Qed.

Lemma record_history_roundtrip_witness :
  fst (Sqlite.history "alice" "p:kabum:1" 1
         (snd (Sqlite.record "alice" (demo_record "p:kabum:1" "2026-01-03T00:00:00+00:00")
                 demo_db)))
  = Ok [demo_record "p:kabum:1" "2026-01-03T00:00:00+00:00"].
Proof.
  apply (record_history_roundtrip demo_db "alice"
           (demo_record "p:kabum:1" "2026-01-03T00:00:00+00:00") demo_db_wf).
  - discriminate.
  - intros row [->|[->|H%elem_of_nil]%elem_of_cons]%elem_of_cons Ho _;
      [vm_compute; reflexivity | vm_compute in Ho; discriminate | done].
Defined.

Lemma latest_all_is_newest_witness :
  ∃ xs, fst (Sqlite.latest_all "alice" demo_db) = Ok xs ∧
        demo_record "p:kabum:1" "2026-01-01T00:00:00+00:00" ∈ xs.
Proof.
  destruct (latest_all_is_newest demo_db "alice" demo_db_wf) as (xs & Hxs & Hiff).
  exists xs. split; [exact Hxs|]. apply Hiff. vm_compute. reflexivity.
Defined.

Lemma record_job_run_once_witness :
  fst (Sqlite.record_job_run (demo_run "j" "w" "queued")
         (exec_write (WUpdateJobRun "j" "w" "sent" (Some "t") None)
            (snd (Sqlite.record_job_run (demo_run "j" "w" "queued") demo_db)))) = Ok false.
Proof.
  rewrite (proj2 (record_job_run_once demo_db (demo_run "j" "w" "queued"))
             (exec_write (WUpdateJobRun "j" "w" "sent" (Some "t") None)
               (snd (Sqlite.record_job_run (demo_run "j" "w" "queued") demo_db)))
             (demo_run "j" "w" "queued")); [reflexivity | | reflexivity].
  constructor. constructor.
Defined.
