(* ===== verification/RunQueue.v ===== *)
(** The background run_now queue ([core/run_queue.py]): one consumer, one
    supervisor, per-owner coalescing, a post-run cooldown and a restart
    budget.

    asyncio runs one callback at a time, and none of the critical sections
    below suspends (the lock is never held across an [await] that waits, the
    queue is unbounded), so the atomic steps are the stretches of code between
    two suspensions: [enqueue], the consumer's stretch after [queue.get], the
    one after [run_now] returned or raised, the supervisor's handler after a
    crash, its wake-up after the back-off, and the cancellation of the task,
    which no [except Exception] catches.  Time is [time.monotonic()] as
    an integer number of ticks. *)

From S2P Require Import Prelude.

Inductive RunState := QUEUED | RUNNING | DONE | ERROR.

#[export] Instance RunState_eq_dec : EqDecision RunState.
Proof. solve_decision. Defined.

Record RunStatus := mkRunStatus {
  state : RunState;
  finished_at : option string;
  rs_error : option string;
}.

#[export] Instance RunStatus_eq_dec : EqDecision RunStatus.
Proof. solve_decision. Defined.

(** The constructor arguments of [RunQueue]. *)
Record Config := {
  max_consumer_restarts : Z;
  cooldown_seconds : Z;
  backlog_warn_threshold : Z;
}.

(** Where the consumer task stands: waiting in [queue.get], awaiting
    [run_now] for an owner, sleeping off a crash, or returned. *)
Inductive Consumer := Polling | Serving (owner : string) | BackingOff | Stopped.

#[export] Instance Consumer_eq_dec : EqDecision Consumer.
Proof. solve_decision. Defined.

Record RunQueue := {
  queue : list string;
  queued_or_running : gset string;
  status : gmap string RunStatus;
  backlog_warned : bool;
  done_monotonic : gmap string Z;
  dead : bool;
  dead_reason : option string;
  restarts : Z;
  consumer : Consumer;
}.

Definition CRASHED : string := "run_queue consumer crashed".

Section RunQueue.
Variable cfg : Config.

Definition init : RunQueue :=
  {| queue := []; queued_or_running := ∅; status := ∅; backlog_warned := false;
     done_monotonic := ∅; dead := false; dead_reason := None; restarts := 0;
     consumer := Polling |}.

Definition queued_count (q : RunQueue) : Z := Z.of_nat (size q.(queued_or_running)).

Definition backlog_warning_active (q : RunQueue) : bool :=
  if cfg.(backlog_warn_threshold) <=? 0 then false
  else cfg.(backlog_warn_threshold) <=? queued_count q.

(** Replace the set of owners, then run [_check_backlog_warning_locked]. *)
Definition check_backlog_warning (q : RunQueue) : RunQueue :=
  if cfg.(backlog_warn_threshold) <=? 0 then q
  else
    let depth := queued_count q in
    let warned :=
      if (cfg.(backlog_warn_threshold) <=? depth) && negb q.(backlog_warned) then true
      else if (depth <? cfg.(backlog_warn_threshold)) && q.(backlog_warned) then false
      else q.(backlog_warned) in
    {| queue := q.(queue); queued_or_running := q.(queued_or_running);
       status := q.(status); backlog_warned := warned;
       done_monotonic := q.(done_monotonic); dead := q.(dead);
       dead_reason := q.(dead_reason); restarts := q.(restarts);
       consumer := q.(consumer) |}.

Definition status_for (owner : string) (q : RunQueue) : option RunStatus :=
  q.(status) !! owner.

Definition cooldown_remaining_seconds (owner : string) (now : Z) (q : RunQueue)
    : option Z :=
  if cfg.(cooldown_seconds) <=? 0 then None
  else match q.(status) !! owner with
       | Some st =>
           if bool_decide (st.(state) = DONE) then
             match q.(done_monotonic) !! owner with
             | Some done_at =>
                 let remaining := cfg.(cooldown_seconds) - (now - done_at) in
                 if 0 <? remaining then Some remaining else None
             | None => None
             end
           else None
       | None => None
       end.

Definition with_status (st : gmap string RunStatus) (q : RunQueue) : RunQueue :=
  {| queue := q.(queue); queued_or_running := q.(queued_or_running);
     status := st; backlog_warned := q.(backlog_warned);
     done_monotonic := q.(done_monotonic); dead := q.(dead);
     dead_reason := q.(dead_reason); restarts := q.(restarts);
     consumer := q.(consumer) |}.

Definition with_consumer (c : Consumer) (q : RunQueue) : RunQueue :=
  {| queue := q.(queue); queued_or_running := q.(queued_or_running);
     status := q.(status); backlog_warned := q.(backlog_warned);
     done_monotonic := q.(done_monotonic); dead := q.(dead);
     dead_reason := q.(dead_reason); restarts := q.(restarts); consumer := c |}.

Definition with_owners (s : gset string) (q : RunQueue) : RunQueue :=
  {| queue := q.(queue); queued_or_running := s; status := q.(status);
     backlog_warned := q.(backlog_warned); done_monotonic := q.(done_monotonic);
     dead := q.(dead); dead_reason := q.(dead_reason); restarts := q.(restarts);
     consumer := q.(consumer) |}.

Definition with_queue (l : list string) (q : RunQueue) : RunQueue :=
  {| queue := l; queued_or_running := q.(queued_or_running); status := q.(status);
     backlog_warned := q.(backlog_warned); done_monotonic := q.(done_monotonic);
     dead := q.(dead); dead_reason := q.(dead_reason); restarts := q.(restarts);
     consumer := q.(consumer) |}.

Definition enqueue (owner : string) (now : Z) (q : RunQueue) : bool * RunQueue :=
  if q.(dead) then
    (false, with_status (<[owner := mkRunStatus ERROR None q.(dead_reason)]> q.(status)) q)
  else match cooldown_remaining_seconds owner now q with
       | Some _ => (false, q)
       | None =>
           if bool_decide (owner ∈ q.(queued_or_running)) then (false, q)
           else
             let q1 := with_owners ({[owner]} ∪ q.(queued_or_running)) q in
             let q2 := with_status (<[owner := mkRunStatus QUEUED None None]> q1.(status)) q1 in
             let q3 := check_backlog_warning q2 in
             (true, with_queue (q3.(queue) ++ [owner]) q3)
       end.

(** [run_forever], from the return of [queue.get] to the await of [run_now]. *)
Definition on_get (q : RunQueue) : option RunQueue :=
  match q.(consumer), q.(queue) with
  | Polling, owner :: rest =>
      Some (with_consumer (Serving owner)
              (with_status (<[owner := mkRunStatus RUNNING None None]> q.(status))
                 (with_queue rest q)))
  | _, _ => None
  end.

(** The [finally] clause. *)
Definition release (owner : string) (q : RunQueue) : RunQueue :=
  check_backlog_warning (with_owners (q.(queued_or_running) ∖ {[owner]}) q).

(** [run_now] returned: the [else] clause, then [finally]. *)
Definition on_run_ok (finished : string) (now : Z) (q : RunQueue) : option RunQueue :=
  match q.(consumer) with
  | Serving owner =>
      Some (with_consumer Polling (release owner
        {| queue := q.(queue); queued_or_running := q.(queued_or_running);
           status := <[owner := mkRunStatus DONE (Some finished) None]> q.(status);
           backlog_warned := q.(backlog_warned);
           done_monotonic := <[owner := now]> q.(done_monotonic);
           dead := q.(dead); dead_reason := q.(dead_reason); restarts := 0;
           consumer := q.(consumer) |}))
  | _ => None
  end.

(** [run_now] raised an [Exception]: the [except] clause, then [finally]. *)
Definition on_run_error (e : exn) (q : RunQueue) : option RunQueue :=
  match q.(consumer) with
  | Serving owner =>
      if is_Exception e.(exn_class) then
        Some (with_consumer Polling (release owner
          (with_status (<[owner := mkRunStatus ERROR None (Some e.(exn_msg))]> q.(status)) q)))
      else None
  | _ => None
  end.

(** What is no [Exception], a cancellation of the task to begin with, is caught
    neither here nor by the supervisor: of a run, only the [finally] clause is
    left, and the consumer ends. *)
Definition on_cancel (q : RunQueue) : option RunQueue :=
  match q.(consumer) with
  | Serving owner => Some (with_consumer Stopped (release owner q))
  | Polling | BackingOff => Some (with_consumer Stopped q)
  | Stopped => None
  end.

(** The supervisor's sweep over [list(self._status.items())]. *)
Definition lost (dying : bool) (st : RunStatus) : bool :=
  match st.(state) with RUNNING => true | QUEUED => dying | _ => false end.

Definition sweep (dying : bool) (q : RunQueue) : RunQueue :=
  let gone := dom (filter (λ kv, lost dying kv.2 = true) q.(status)) in
  check_backlog_warning
    (with_owners (q.(queued_or_running) ∖ gone)
       (with_status ((λ st, if lost dying st
                            then mkRunStatus ERROR None (Some CRASHED) else st)
                       <$> q.(status)) q)).

(** The supervisor's [except Exception] handler; [stopping] is
    [stop_event.is_set()]. *)
Definition on_crash_handler (stopping : bool) (q : RunQueue) : RunQueue :=
  let n := q.(restarts) + 1 in
  let dying := cfg.(max_consumer_restarts) <? n in
  let q1 := sweep dying
    {| queue := q.(queue); queued_or_running := q.(queued_or_running);
       status := q.(status); backlog_warned := q.(backlog_warned);
       done_monotonic := q.(done_monotonic); dead := q.(dead);
       dead_reason := q.(dead_reason); restarts := n; consumer := q.(consumer) |} in
  if stopping then with_consumer Stopped q1
  else if dying then
    {| queue := q1.(queue); queued_or_running := q1.(queued_or_running);
       status := q1.(status); backlog_warned := q1.(backlog_warned);
       done_monotonic := q1.(done_monotonic); dead := true;
       dead_reason := Some (CRASHED +:+ " " +:+ pretty n +:+
                              " times, exceeding the restart budget");
       restarts := q1.(restarts); consumer := Stopped |}
  else with_consumer BackingOff q1.

(** The consumer crashes with an [Exception] while polling, or, serving an
    owner, before the outcome was written ([finally] still runs).  A crash
    after the outcome was written is [on_run_ok] or [on_run_error] followed by
    a crash while polling: the two leave the same state. *)
Definition on_crash (stopping : bool) (q : RunQueue) : option RunQueue :=
  match q.(consumer) with
  | Polling => Some (on_crash_handler stopping q)
  | Serving owner => Some (on_crash_handler stopping (release owner q))
  | _ => None
  end.

(** [asyncio.sleep(_RESTART_BACKOFF_SECONDS)] is over: [run_forever] again. *)
Definition on_resume (q : RunQueue) : option RunQueue :=
  match q.(consumer) with
  | BackingOff => Some (with_consumer Polling q)
  | _ => None
  end.

(** [stop_event] seen between two items: a clean return. *)
Definition on_stop (q : RunQueue) : option RunQueue :=
  match q.(consumer) with
  | Polling => Some (with_consumer Stopped q)
  | _ => None
  end.

(** ** The step relation *)

Inductive step (q : RunQueue) : RunQueue → Prop :=
| step_enqueue owner now : step q (snd (enqueue owner now q))
| step_get q' : on_get q = Some q' → step q q'
| step_ok finished now q' : on_run_ok finished now q = Some q' → step q q'
| step_error e q' : on_run_error e q = Some q' → step q q'
| step_crash stopping q' : on_crash stopping q = Some q' → step q q'
| step_resume q' : on_resume q = Some q' → step q q'
| step_stop q' : on_stop q = Some q' → step q q'
| step_cancel q' : on_cancel q = Some q' → step q q'.

Inductive reachable : RunQueue → Prop :=
| reach_init : reachable init
| reach_step q q' : reachable q → step q q' → reachable q'.

(** The same steps as data, to run a schedule. *)
Inductive action :=
| Enqueue (owner : string) (now : Z) | Get | RunOk (finished : string) (now : Z)
| RunError (e : exn) | Crash (stopping : bool) | Resume | Stop | Cancel.

Definition act (a : action) (q : RunQueue) : option RunQueue :=
  match a with
  | Enqueue owner now => Some (snd (enqueue owner now q))
  | Get => on_get q
  | RunOk finished now => on_run_ok finished now q
  | RunError e => on_run_error e q
  | Crash stopping => on_crash stopping q
  | Resume => on_resume q
  | Stop => on_stop q
  | Cancel => on_cancel q
  end.

Fixpoint exec (l : list action) (q : RunQueue) : option RunQueue :=
  match l with
  | [] => Some q
  | a :: l' => match act a q with Some q1 => exec l' q1 | None => None end
  end.

(** The owner whose run is in flight. *)
Definition in_flight (q : RunQueue) : list string :=
  match q.(consumer) with Serving owner => [owner] | _ => [] end.

Definition run_state (owner : string) (q : RunQueue) : option RunState :=
  state <$> q.(status) !! owner.

(** What [except Exception] catches of a run. *)
Definition caught (out : result unit) : bool :=
  match out with Ok _ => true | Raise e => is_Exception e.(exn_class) end.

(** A run of the consumer over its backlog, nobody else acting: one outcome of
    [run_now] per queued owner, up to one that ends the consumer. *)
Fixpoint drain (outs : list (result unit * string * Z)) (q : RunQueue) : option RunQueue :=
  match outs with
  | [] => Some q
  | (out, finished, now) :: outs' =>
      match on_get q with
      | Some q1 =>
          if caught out then
            match (match out with
                   | Ok _ => on_run_ok finished now q1
                   | Raise e => on_run_error e q1
                   end) with
            | Some q2 => drain outs' q2
            | None => None
            end
          else on_cancel q1
      | None => None
      end
  end.

(** ** The invariant *)

Definition live (q : RunQueue) : Prop :=
  NoDup (q.(queue) ++ in_flight q) ∧
  (∀ o, o ∈ q.(queued_or_running) ↔ o ∈ q.(queue) ++ in_flight q) ∧
  (∀ o, run_state o q = Some QUEUED ↔ o ∈ q.(queue)) ∧
  (∀ o, run_state o q = Some RUNNING ↔ o ∈ in_flight q) ∧
  q.(dead) = false ∧
  (q.(restarts) = 0 ∨ 0 < q.(restarts) ≤ cfg.(max_consumer_restarts)).

Definition inv (q : RunQueue) : Prop :=
  (q.(consumer) ≠ Stopped → live q) ∧
  (q.(dead) = true → q.(consumer) = Stopped ∧ cfg.(max_consumer_restarts) < q.(restarts)
                     ∧ q.(dead_reason) <> None) ∧
  q.(backlog_warned) = backlog_warning_active q ∧
  (∀ o, run_state o q = Some DONE → is_Some (q.(done_monotonic) !! o)).

(** *** Frame facts of the debounced warning *)

Lemma check_fields q :
  let q' := check_backlog_warning q in
  q'.(queue) = q.(queue) ∧ q'.(queued_or_running) = q.(queued_or_running) ∧
  q'.(status) = q.(status) ∧ q'.(done_monotonic) = q.(done_monotonic) ∧
  q'.(dead) = q.(dead) ∧ q'.(dead_reason) = q.(dead_reason) ∧
  q'.(restarts) = q.(restarts) ∧ q'.(consumer) = q.(consumer).
Proof. unfold check_backlog_warning. by destruct (_ <=? _). Qed.

Lemma check_warned q :
  (cfg.(backlog_warn_threshold) ≤ 0 → q.(backlog_warned) = false) →
  (check_backlog_warning q).(backlog_warned) = backlog_warning_active (check_backlog_warning q).
Proof.
  unfold check_backlog_warning, backlog_warning_active, queued_count.
  destruct (cfg.(backlog_warn_threshold) <=? 0) eqn:H0; bool_prop; simpl; [auto|].
  intros _. destruct (q.(backlog_warned)); simpl;
    destruct (Z.leb_spec cfg.(backlog_warn_threshold) (Z.of_nat (size q.(queued_or_running))));
    destruct (Z.ltb_spec (Z.of_nat (size q.(queued_or_running))) cfg.(backlog_warn_threshold));
    simpl; try done; lia.
Qed.

Lemma check_disabled q :
  cfg.(backlog_warn_threshold) ≤ 0 → check_backlog_warning q = q.
Proof. intros. unfold check_backlog_warning. by rewrite (proj2 (Z.leb_le _ _)). Qed.

Lemma inv_disabled q :
  q.(backlog_warned) = backlog_warning_active q →
  cfg.(backlog_warn_threshold) ≤ 0 → q.(backlog_warned) = false.
Proof.
  intros -> ?. unfold backlog_warning_active. by rewrite (proj2 (Z.leb_le _ _)).
Qed.

(** The invariant reads only these fields. *)
Lemma live_ext q q' :
  q'.(queue) = q.(queue) → q'.(queued_or_running) = q.(queued_or_running) →
  q'.(status) = q.(status) → q'.(dead) = q.(dead) → q'.(restarts) = q.(restarts) →
  q'.(consumer) = q.(consumer) → live q → live q'.
Proof. unfold live, in_flight, run_state. by intros -> -> -> -> -> ->. Qed.

Lemma live_check q : live q → live (check_backlog_warning q).
Proof. destruct (check_fields q) as (?&?&?&?&?&?&?&?). by apply live_ext. Qed.

Lemma live_check_inv q : live (check_backlog_warning q) → live q.
Proof.
  destruct (check_fields q) as (?&?&?&?&?&?&?&?). by apply live_ext.
Qed.

(** The state an owner has after one entry of the table is replaced. *)
Lemma run_state_set o x st (m : gmap string RunStatus) :
  state <$> (<[x := st]> m) !! o
  = if decide (o = x) then Some st.(state) else state <$> m !! o.
Proof. case_decide; simplify_map_eq; done. Qed.

(** *** Each step keeps the invariant *)

Lemma live_enqueue owner q :
  q.(consumer) ≠ Stopped → owner ∉ q.(queued_or_running) → live q →
  live (with_queue (q.(queue) ++ [owner])
          (with_status (<[owner := mkRunStatus QUEUED None None]> q.(status))
             (with_owners ({[owner]} ∪ q.(queued_or_running)) q))).
Proof.
  intros _ Hnew (Hnd & Hset & Hq & Hr & Hd & Hn).
  assert (owner ∉ q.(queue) ++ in_flight q) as Hnew' by (by rewrite <- Hset).
  unfold live, run_state, in_flight in *. simpl in *.
  assert ((q.(queue) ++ [owner]) ++ match q.(consumer) with Serving o => [o] | _ => [] end
          ≡ₚ owner :: q.(queue) ++ match q.(consumer) with Serving o => [o] | _ => [] end) as Hp
    by (rewrite <- app_assoc; symmetry; apply Permutation_middle).
  repeat split; try done.
  - rewrite Hp. by constructor.
  - rewrite Hp. set_solver.
  - rewrite Hp. set_solver.
  - rewrite run_state_set. case_decide; [set_solver|]. rewrite Hq. set_solver.
  - rewrite run_state_set. case_decide; [set_solver|]. rewrite Hq. set_solver.
  - rewrite run_state_set. case_decide; [done|]. by rewrite Hr.
  - rewrite run_state_set. case_decide; [subst; set_solver|]. by rewrite Hr.
Qed.

Lemma live_get q q' : live q → on_get q = Some q' → live q'.
Proof.
  unfold on_get, live, run_state, in_flight.
  destruct (q.(consumer)), (q.(queue)) as [|x rest]; intros Hl ?; simplify_eq/=.
  destruct Hl as (Hnd & Hset & Hq & Hr & Hd & Hn).
  rewrite app_nil_r in *. rewrite NoDup_cons in Hnd. destruct Hnd as [Hx Hnd].
  repeat split; try done.
  - rewrite (Permutation_app_comm rest [x]). simpl. by constructor.
  - rewrite Hset. set_solver.
  - rewrite Hset. set_solver.
  - rewrite run_state_set. case_decide; [done|]. rewrite Hq. set_solver.
  - rewrite run_state_set. case_decide; [by subst|]. rewrite Hq. set_solver.
  - rewrite run_state_set. case_decide; [set_solver|]. rewrite Hr. set_solver.
  - rewrite run_state_set. case_decide; [set_solver|]. set_solver.
Qed.

(** The outcome of the owner served is written and the owner released. *)
Lemma live_finish owner st q n d :
  q.(consumer) = Serving owner → st.(state) ≠ QUEUED → st.(state) ≠ RUNNING →
  n = 0 ∨ n = q.(restarts) → live q →
  live (with_consumer Polling (release owner
    {| queue := q.(queue); queued_or_running := q.(queued_or_running);
       status := <[owner := st]> q.(status); backlog_warned := q.(backlog_warned);
       done_monotonic := d; dead := q.(dead); dead_reason := q.(dead_reason);
       restarts := n; consumer := q.(consumer) |})).
Proof.
  intros Hc Hst1 Hst2 Hn (Hnd & Hset & Hq & Hr & Hd & Hres). unfold release.
  set (q0 := with_owners _ _).
  destruct (check_fields q0) as (E1&E2&E3&E4&E5&E6&E7&E8).
  unfold live, run_state, in_flight in *. simpl. rewrite E1, E2, E3, E5, E7.
  subst q0. simpl. rewrite Hc in *. rewrite app_nil_r.
  rewrite NoDup_app in Hnd. destruct Hnd as (Hnd & Hdisj & _).
  assert (owner ∉ q.(queue)) as Hout by (intros Ho; apply (Hdisj _ Ho); left).
  repeat split; try done; try (rewrite run_state_set; case_decide; subst).
  - set_solver.
  - set_solver.
  - naive_solver.
  - by rewrite Hq.
  - done.
  - by rewrite Hq.
  - naive_solver.
  - rewrite Hr. set_solver.
  - set_solver.
  - set_solver.
  - naive_solver.
Qed.

Lemma run_state_sweep o dying q :
  run_state o (sweep dying q) =
  match run_state o q with
  | Some RUNNING => Some ERROR
  | Some QUEUED => if dying then Some ERROR else Some QUEUED
  | r => r
  end.
Proof.
  unfold sweep, run_state. set (q0 := with_owners _ _).
  destruct (check_fields q0) as (_&_&->&_). subst q0. simpl.
  rewrite lookup_fmap. destruct (q.(status) !! o) as [st|]; simpl; [|done].
  destruct st as [[] ? ?], dying; done.
Qed.

Lemma owners_sweep o dying q :
  o ∈ (sweep dying q).(queued_or_running) ↔
  o ∈ q.(queued_or_running) ∧ run_state o q ≠ Some RUNNING ∧
  (dying = true → run_state o q ≠ Some QUEUED).
Proof.
  unfold sweep, run_state. set (q0 := with_owners _ _).
  destruct (check_fields q0) as (_&->&_). subst q0. simpl.
  rewrite elem_of_difference. f_equiv.
  rewrite not_elem_of_dom, map_lookup_filter_None.
  destruct (q.(status) !! o) as [st|] eqn:E; simpl; [|split; [naive_solver|tauto]].
  split.
  - intros [?|H]; [done|]. specialize (H st eq_refl). unfold lost in H. simpl in H.
    destruct (st.(state)), dying; naive_solver.
  - intros [H1 H2]. right. intros st' [= <-]. unfold lost. simpl.
    destruct (st.(state)), dying; naive_solver.
Qed.

Lemma sweep_fields dying q :
  let q' := sweep dying q in
  q'.(queue) = q.(queue) ∧ q'.(done_monotonic) = q.(done_monotonic) ∧
  q'.(dead) = q.(dead) ∧ q'.(dead_reason) = q.(dead_reason) ∧
  q'.(restarts) = q.(restarts) ∧ q'.(consumer) = q.(consumer).
Proof.
  unfold sweep. set (q0 := with_owners _ _).
  destruct (check_fields q0) as (->&_&_&->&->&->&->&->). done.
Qed.

(** What the supervisor finds when it handles a crash: the owner that was
    being served is released but its status still reads RUNNING. *)
Definition crashed (q : RunQueue) : Prop :=
  NoDup q.(queue) ∧
  (∀ o, o ∈ q.(queued_or_running) ↔ o ∈ q.(queue)) ∧
  (∀ o, run_state o q = Some QUEUED ↔ o ∈ q.(queue)) ∧
  q.(dead) = false ∧
  (q.(restarts) = 0 ∨ 0 < q.(restarts) ≤ cfg.(max_consumer_restarts)).

Lemma crashed_polling q : q.(consumer) = Polling → live q → crashed q.
Proof.
  unfold live, crashed, in_flight. intros ->. rewrite app_nil_r. naive_solver.
Qed.

Lemma crashed_serving owner q :
  q.(consumer) = Serving owner → live q → crashed (release owner q).
Proof.
  unfold live, crashed, in_flight, release, run_state. intros ->.
  set (q0 := with_owners _ _).
  destruct (check_fields q0) as (->&->&->&_&->&_&->&_). subst q0. simpl.
  rewrite NoDup_app. intros ((Hnd & Hdisj & _) & Hset & Hq & Hr & Hd & Hn).
  repeat split; try done; [| |by apply Hq|by apply Hq].
  - intros H. set_solver.
  - intros H. specialize (Hdisj o H). set_solver.
Qed.

Lemma crash_handler_live stopping q :
  crashed q → (on_crash_handler stopping q).(consumer) ≠ Stopped →
  live (on_crash_handler stopping q).
Proof.
  intros (Hnd & Hset & Hq & Hd & Hn). unfold on_crash_handler.
  set (q0 := {| queue := _ |}). set (dying := _ <? _).
  destruct (sweep_fields dying q0) as (E1&E2&E3&E4&E5&E6).
  destruct stopping; [done|]. destruct dying eqn:Hdy; [done|]. intros _.
  unfold live, in_flight. simpl. rewrite E1, E3, E5, app_nil_r. simpl.
  unfold dying in Hdy. bool_prop.
  repeat split; try done.
  - rewrite owners_sweep. simpl. rewrite Hset. tauto.
  - rewrite owners_sweep. intros Ho. simpl. rewrite Hset. split; [done|].
    apply Hq in Ho. unfold run_state in *. simpl. rewrite Ho. done.
  - unfold run_state at 1. simpl. change (state <$> _) with (run_state o (sweep false q0)).
    rewrite run_state_sweep. intros H. apply Hq. change (run_state o q) with (run_state o q0).
    by break.
  - intros Ho. apply Hq in Ho. unfold run_state at 1. simpl.
    change (state <$> _) with (run_state o (sweep false q0)). rewrite run_state_sweep.
    change (run_state o q0) with (run_state o q). by rewrite Ho.
  - unfold run_state. simpl. change (state <$> _) with (run_state o (sweep false q0)).
    rewrite run_state_sweep. intros H. by break.
  - set_solver.
  - lia.
Qed.

Lemma check_inv_rest q :
  q.(backlog_warned) = false ∨ 0 < cfg.(backlog_warn_threshold) →
  (check_backlog_warning q).(backlog_warned) = backlog_warning_active (check_backlog_warning q).
Proof. intros H. apply check_warned. intros. destruct H; [done|lia]. Qed.

Lemma warned_or q :
  q.(backlog_warned) = backlog_warning_active q →
  q.(backlog_warned) = false ∨ 0 < cfg.(backlog_warn_threshold).
Proof.
  intros ->. unfold backlog_warning_active.
  destruct (Z.leb_spec cfg.(backlog_warn_threshold) 0); auto with lia.
Qed.

(** The last two clauses of [inv], which every step keeps whatever the
    consumer does. *)
Definition inv_rest (q : RunQueue) : Prop :=
  q.(backlog_warned) = backlog_warning_active q ∧
  (∀ o, run_state o q = Some DONE → is_Some (q.(done_monotonic) !! o)).

Lemma rest_check q : 
  q.(backlog_warned) = false ∨ 0 < cfg.(backlog_warn_threshold) →
  (∀ o, run_state o q = Some DONE → is_Some (q.(done_monotonic) !! o)) →
  inv_rest (check_backlog_warning q).
Proof.
  intros Hw Hd. split; [by apply check_inv_rest|].
  destruct (check_fields q) as (_&_&Es&Ed&_). unfold run_state. by rewrite Es, Ed.
Qed.

Lemma rest_consumer c q : inv_rest q → inv_rest (with_consumer c q).
Proof. done. Qed.

Lemma rest_release owner q : inv_rest q → inv_rest (release owner q).
Proof. intros [Hw Hd]. apply rest_check; [exact (warned_or _ Hw)|done]. Qed.

Lemma rest_handler stopping q : inv_rest q → inv_rest (on_crash_handler stopping q).
Proof.
  intros [Hw Hd]. unfold on_crash_handler. set (q0 := {| queue := _ |}). set (dying := _ <? _).
  assert (inv_rest (sweep dying q0)) as H.
  { apply rest_check; [exact (warned_or _ Hw)|]. intros o. unfold run_state. simpl.
    rewrite lookup_fmap. intros H. apply Hd. unfold run_state.
    destruct (q.(status) !! o) as [st|]; simpl in *; [|done].
    by destruct (lost dying st). }
  by destruct stopping, dying.
Qed.

Lemma step_rest q q' : inv_rest q → step q q' → inv_rest q'.
Proof.
  intros [Hw Hd]. destruct 1 as [owner now|q' H|fin now q' H|e q' H|st q' H|q' H|q' H|q' H].
  - unfold enqueue. destruct (dead q); [|destruct (cooldown_remaining_seconds _ _ _)]; simpl.
    + split; [done|]. intros o. unfold run_state. simpl. rewrite run_state_set.
      case_decide; [done|]. apply Hd.
    + done.
    + case_bool_decide; [done|]. simpl. apply (rest_check (with_status _ _)).
      * exact (warned_or _ Hw).
      * intros o. unfold run_state. simpl. rewrite run_state_set.
        case_decide; [done|]. apply Hd.
  - unfold on_get in H. break. split; [done|]. intros o. unfold run_state. simpl.
    rewrite run_state_set. case_decide; [done|]. apply Hd.
  - unfold on_run_ok in H. break. apply rest_consumer, rest_release. split; [done|].
    intros o. unfold run_state. simpl. rewrite run_state_set.
    case_decide; simplify_map_eq; [done|]. apply Hd.
  - unfold on_run_error in H. break. apply rest_consumer, rest_release. split; [done|].
    intros o. unfold run_state. simpl. rewrite run_state_set. case_decide; [done|]. apply Hd.
  - unfold on_crash in H. break; apply rest_handler; [done|]. by apply rest_release.
  - unfold on_resume in H. by break.
  - unfold on_stop in H. by break.
  - unfold on_cancel in H. break; apply rest_consumer; [done|by apply rest_release|done].
Qed.

(** The first two clauses. *)
Definition dead_ok (q : RunQueue) : Prop :=
  q.(dead) = true → q.(consumer) = Stopped ∧ cfg.(max_consumer_restarts) < q.(restarts)
                    ∧ q.(dead_reason) <> None.

Lemma handler_dead stopping q :
  q.(dead) = false → dead_ok (on_crash_handler stopping q).
Proof.
  intros Hd. unfold on_crash_handler. set (q0 := {| queue := _ |}). set (dying := _ <? _).
  destruct (sweep_fields dying q0) as (_&_&E&_&En&_). unfold dead_ok.
  destruct stopping; simpl; rewrite ?E; simpl; [congruence|].
  destruct dying eqn:Hdy; simpl; [|rewrite E; simpl; congruence].
  rewrite En. subst dying. bool_prop. simpl. intros _. split_and!; [done|lia|done].
Qed.

Lemma step_live q q' :
  (q.(consumer) ≠ Stopped → live q) → dead_ok q → step q q' →
  (q'.(consumer) ≠ Stopped → live q') ∧ dead_ok q'.
Proof.
  intros Hl Hd. destruct 1 as [owner now|q' H|fin now q' H|e q' H|st q' H|q' H|q' H|q' H].
  - unfold enqueue. destruct (dead q) eqn:E; [|destruct (cooldown_remaining_seconds _ _ _)].
    + simpl. destruct (Hd E) as (?&?&?). by split.
    + done.
    + case_bool_decide; [done|]. simpl. set (q0 := with_status _ _).
      pose proof (check_fields q0) as (E1&E2&E3&E4&E5&E6&E7&E8). split.
      * simpl. rewrite E8. intros Hc. eapply live_ext; cycle -1.
        { by apply (live_enqueue owner q); auto. }
        all: simpl; rewrite ?E1, ?E2, ?E3, ?E5, ?E7, ?E8; done.
      * unfold dead_ok. simpl. rewrite E5. simpl. congruence.
  - assert (q.(consumer) = Polling) as Hc by (unfold on_get in H; by break).
    assert (live q') as Hl' by (eapply live_get; [apply Hl; congruence|done]).
    split; [done|]. intros E. destruct Hl' as (_&_&_&_&E'&_). congruence.
  - unfold on_run_ok in H. destruct (consumer q) as [|owner| |] eqn:Hc; simplify_eq.
    match goal with |- _ ∧ dead_ok ?x => assert (live x) as Hl' end.
    { rewrite <- Hc. apply (live_finish owner (mkRunStatus DONE (Some fin) None)); auto; by apply Hl. }
    split; [done|]. intros E. destruct Hl' as (_&_&_&_&E'&_). congruence.
  - unfold on_run_error in H. destruct (consumer q) as [|owner| |] eqn:Hc; simplify_eq.
    destruct (is_Exception _); simplify_eq.
    match goal with |- _ ∧ dead_ok ?x => assert (live x) as Hl' end.
    { apply (live_finish owner (mkRunStatus ERROR None (Some (exn_msg e)))); auto; by apply Hl. }
    split; [done|]. intros E. destruct Hl' as (_&_&_&_&E'&_). congruence.
  - assert (∃ q0, q' = on_crash_handler st q0 ∧ crashed q0) as (q0&->&Hcr).
    { unfold on_crash in H. destruct (consumer q) as [|owner| |] eqn:Hc; simplify_eq.
      - exists q. split; [done|]. apply crashed_polling; [done|by apply Hl].
      - exists (release owner q). split; [done|]. apply (crashed_serving owner); [done|by apply Hl]. }
    split; [by apply crash_handler_live|]. apply handler_dead. by destruct Hcr as (_&_&_&?&_).
  - unfold on_resume in H. destruct (consumer q) eqn:Hc; simplify_eq.
    assert (live q) as Hl0 by (by apply Hl). split.
    + intros _. revert Hl0. unfold live, in_flight, run_state. simpl. by rewrite Hc.
    + intros E. destruct Hl0 as (_&_&_&_&E'&_). simpl in *. congruence.
  - unfold on_stop in H. destruct (consumer q) eqn:Hc; simplify_eq.
    split; [done|]. intros E. by destruct (Hd E) as (?&?&?).
  - assert (q.(consumer) ≠ Stopped) as Hc by (unfold on_cancel in H; intros Hc; by rewrite Hc in H).
    destruct (Hl Hc) as (_&_&_&_&E&_). unfold on_cancel, release in H.
    destruct (consumer q) as [|owner| |]; simplify_eq; (split; [done|]); unfold dead_ok; simpl; try congruence.
    destruct (check_fields (with_owners (q.(queued_or_running) ∖ {[owner]}) q)) as (_&_&_&_&E5&_).
    rewrite E5. simpl. congruence.
Qed.

(** [live] for every state with a consumer, and the bookkeeping clauses for
    every state. *)
Lemma reachable_inv q : reachable q → inv q.
Proof.
  intros H. enough (((q.(consumer) ≠ Stopped → live q) ∧ dead_ok q) ∧ inv_rest q) as H'.
  { destruct H' as [[? ?] [? ?]]. by split_and!. }
  induction H as [|q q' _ [[Hl Hd] Hr] Hs].
  - split; [split|split].
    + intros _. unfold live, run_state, in_flight. simpl.
      repeat split; try done; rewrite ?lookup_empty; try set_solver; by constructor.
    + done.
    + unfold backlog_warning_active, queued_count.
      change (queued_or_running init) with (∅ : gset string).
      change (backlog_warned init) with false. rewrite size_empty.
      destruct (Z.leb_spec cfg.(backlog_warn_threshold) 0); [done|].
      symmetry. apply Z.leb_gt. lia.
    + intros o. unfold run_state. simpl. by rewrite lookup_empty.
  - split; [by apply (step_live q q')|by eapply step_rest].
Qed.

Lemma exec_reachable l q q' : reachable q → exec l q = Some q' → reachable q'.
Proof.
  revert q. induction l as [|a l IH]; intros q Hq H; simplify_eq/=; [done|].
  destruct (act a q) as [q1|] eqn:Ha; [|done]. apply (IH q1); [|done].
  apply (reach_step q); [done|]. destruct a; simplify_eq/=; by econstructor.
Qed.

(** ** The properties *)

(** C31: In every state the queue can reach while its consumer runs, an owner is
    in at most one place: waiting in the FIFO queue (status QUEUED) or being
    served (status RUNNING); the set of owners queued or running is exactly
    those; the queue is not dead and the crash count is within the budget; a
    dead queue has no consumer and a reason; the debounced warning flag says
    exactly whether the backlog is at the threshold. *)
Theorem run_queue_invariant q : reachable q →
  (q.(consumer) ≠ Stopped →
     NoDup (q.(queue) ++ in_flight q) ∧
     (∀ o, o ∈ q.(queued_or_running) ↔ o ∈ q.(queue) ++ in_flight q) ∧
     (∀ o, run_state o q = Some QUEUED ↔ o ∈ q.(queue)) ∧
     (∀ o, run_state o q = Some RUNNING ↔ o ∈ in_flight q) ∧
     q.(dead) = false ∧
     (q.(restarts) = 0 ∨ 0 < q.(restarts) ≤ cfg.(max_consumer_restarts))) ∧
  (q.(dead) = true → q.(consumer) = Stopped ∧ cfg.(max_consumer_restarts) < q.(restarts)
                     ∧ q.(dead_reason) <> None) ∧
  q.(backlog_warned) = backlog_warning_active q.
Proof. intros (?&?&?&_)%reachable_inv. by split_and!. Qed.

(** The cooldown refuses an owner exactly for the configured time after its
    last success. *)
Lemma cooldown_done owner now q : inv q →
  is_Some (cooldown_remaining_seconds owner now q) ↔
  run_state owner q = Some DONE ∧
  ∃ t, q.(done_monotonic) !! owner = Some t ∧ now - t < cfg.(cooldown_seconds) ∧
       0 < cfg.(cooldown_seconds).
Proof.
  intros (_&_&_&Hd). specialize (Hd owner). unfold cooldown_remaining_seconds, run_state in *.
  destruct (Z.leb_spec cfg.(cooldown_seconds) 0).
  { split; [by intros []|]. intros (_&t&_&?&?). lia. }
  destruct (q.(status) !! owner) as [st|]; simpl in *; [|split; [by intros []|by intros []]].
  case_bool_decide as Hst.
  2: { split; [by intros []|]. intros [[=] _]. done. }
  rewrite Hst in Hd. destruct (Hd eq_refl) as [t Ht]. rewrite Ht, Hst.
  destruct (Z.ltb_spec 0 (cfg.(cooldown_seconds) - (now - t))).
  - split; [|done]. intros _. split; [done|]. exists t. split_and!; [done|lia|lia].
  - split; [by intros []|]. intros (_&t'&[= <-]&?&?). lia.
Qed.

(** [enqueue] on a queue with a consumer accepts the owner exactly when no
    run of it is queued or in flight and its last success is older than the
    cooldown; accepted, the owner goes to the back of the FIFO queue with
    status QUEUED and nothing else changes; refused, nothing at all changes,
    and the owner's state is DONE for a cooldown, QUEUED or RUNNING for a
    coalesced request. *)
Theorem enqueue_spec owner now q :
  reachable q → q.(consumer) ≠ Stopped →
  let in_cooldown := run_state owner q = Some DONE ∧
    ∃ t, q.(done_monotonic) !! owner = Some t ∧ now - t < cfg.(cooldown_seconds) ∧
         0 < cfg.(cooldown_seconds) in
  let pending := owner ∈ q.(queue) ++ in_flight q in
  match enqueue owner now q with
  | (true, q') =>
      ¬ in_cooldown ∧ ¬ pending ∧
      q'.(queue) = q.(queue) ++ [owner] ∧ in_flight q' = in_flight q ∧
      q'.(queued_or_running) = {[owner]} ∪ q.(queued_or_running) ∧
      q'.(status) = <[owner := mkRunStatus QUEUED None None]> q.(status) ∧
      q'.(done_monotonic) = q.(done_monotonic) ∧ q'.(restarts) = q.(restarts)
  | (false, q') =>
      q' = q ∧ (in_cooldown ∨
                pending ∧ (run_state owner q = Some QUEUED ∨ run_state owner q = Some RUNNING))
  end.
Proof.
  intros Hreach Hc in_cooldown pending. apply reachable_inv in Hreach as Hinv.
  pose proof (cooldown_done owner now q Hinv) as Hcd.
  destruct Hinv as (Hl&_). destruct (Hl Hc) as (_&Hset&Hq&Hr&Hdead&_).
  unfold enqueue. rewrite Hdead.
  destruct (cooldown_remaining_seconds owner now q) as [r|].
  { split; [done|]. left. apply Hcd. done. }
  case_bool_decide as Hin.
  - split; [done|]. right. rewrite Hset in Hin. split; [done|]. unfold run_state in *.
    rewrite Hq, Hr. by apply elem_of_app.
  - set (q0 := with_status _ _). destruct (check_fields q0) as (E1&E2&E3&E4&E5&E6&E7&E8).
    unfold in_flight. simpl. rewrite E1, E2, E3, E4, E7, E8. subst q0. simpl.
    split_and!; try done.
    + intros Hx. apply Hcd in Hx. by destruct Hx.
    + intros H%Hset. done.
Qed.

(** The owner at the head of the queue is served, whatever the outcome. *)
Definition served (out : result unit) (finished : string) : RunStatus :=
  match out with
  | Ok _ => mkRunStatus DONE (Some finished) None
  | Raise e => mkRunStatus ERROR None (Some e.(exn_msg))
  end.

Lemma serve_head out fin now owner rest q :
  q.(consumer) = Polling → q.(queue) = owner :: rest → caught out = true →
  ∃ q1 q2, on_get q = Some q1 ∧
    (match out with Ok _ => on_run_ok fin now q1 | Raise e => on_run_error e q1 end) = Some q2 ∧
    q2.(consumer) = Polling ∧ q2.(queue) = rest ∧
    q2.(status) = <[owner := served out fin]> q.(status) ∧
    q2.(queued_or_running) = q.(queued_or_running) ∖ {[owner]}.
Proof.
  intros Hc Hq Hcaught. unfold on_get. rewrite Hc, Hq. eexists.
  destruct out as [[]|e]; simpl in Hcaught; unfold on_run_error; simpl; rewrite ?Hcaught;
    (eexists; split; [done|split; [done|]]); unfold release; simpl;
    match goal with |- context [check_backlog_warning ?q0] =>
      destruct (check_fields q0) as (E1&E2&E3&_) end;
    rewrite E1, E2, E3; simpl; split_and!; try done;
    by rewrite insert_insert, decide_True.
Qed.

(** The owner at the head of the queue when the consumer is ended. *)
Lemma cancel_head owner rest q :
  q.(consumer) = Polling → q.(queue) = owner :: rest →
  ∃ q1 q2, on_get q = Some q1 ∧ on_cancel q1 = Some q2 ∧
    q2.(consumer) = Stopped ∧ q2.(queue) = rest ∧
    q2.(status) = <[owner := mkRunStatus RUNNING None None]> q.(status) ∧
    q2.(queued_or_running) = q.(queued_or_running) ∖ {[owner]}.
Proof.
  intros Hc Hq. unfold on_get. rewrite Hc, Hq. do 2 eexists. split; [done|split; [done|]].
  unfold release; simpl.
  match goal with |- context [check_backlog_warning ?q0] =>
    destruct (check_fields q0) as (E1&E2&E3&_) end. by rewrite E1, E2, E3.
Qed.

Notation outcome := (result unit * string * Z)%type.

(** How many outcomes come before the first that ends the consumer. *)
Fixpoint served_count (outs : list outcome) : nat :=
  match outs with
  | (out, _, _) :: outs' => if caught out then S (served_count outs') else 0
  | [] => 0
  end.

Lemma drain_ok outs q :
  q.(consumer) = Polling → NoDup q.(queue) → length outs = length q.(queue) →
  let n := served_count outs in
  ∃ q', drain outs q = Some q' ∧
    q'.(queue) = drop (S n) q.(queue) ∧
    q'.(queued_or_running) = q.(queued_or_running) ∖ list_to_set (take (S n) q.(queue)) ∧
    (∀ i o out fin now, (i < n)%nat → q.(queue) !! i = Some o → outs !! i = Some (out, fin, now) →
       q'.(status) !! o = Some (served out fin)) ∧
    (∀ o, q.(queue) !! n = Some o → q'.(status) !! o = Some (mkRunStatus RUNNING None None)) ∧
    (∀ o, o ∉ take (S n) q.(queue) → q'.(status) !! o = q.(status) !! o) ∧
    q'.(consumer) = (if decide (n < length outs)%nat then Stopped else Polling).
Proof.
  revert q. induction outs as [|[[out fin] now] outs IH]; intros q Hc Hnd Hlen;
    destruct (q.(queue)) as [|owner rest] eqn:Hq; simplify_eq/=.
  { exists q. split_and!; rewrite ?Hq; simpl; try done. set_solver. }
  apply NoDup_cons in Hnd as [Hfresh Hnd]. destruct (caught out) eqn:Hcaught.
  - destruct (serve_head out fin now owner rest q Hc Hq Hcaught)
      as (q1&q2&->&->&Hc2&Hq2&Hs2&Ho2).
    destruct (IH q2) as (q'&Hd&Hq'&Ho'&Hst&Hrun&Hother&Hc'); rewrite ?Hq2; try done.
    rewrite Hq2 in *. exists q'.
    assert (owner ∉ take (S (served_count outs)) rest) as Hnt
      by (intros Hin; apply Hfresh; rewrite <- (take_drop (S (served_count outs)) rest), elem_of_app; by left).
    split_and!; try done.
    + rewrite Ho', Ho2. set_solver.
    + intros [|i] o out' fin' now' Hi Hio Houts; simplify_eq/=.
      * rewrite Hother, Hs2 by done. by rewrite lookup_insert_eq.
      * eapply Hst; [|done..]. lia.
    + intros o [Hne Hnin]%not_elem_of_cons.
      by rewrite Hother, Hs2, lookup_insert_ne by done.
    + rewrite Hc'. by repeat case_decide; try lia.
  - destruct (cancel_head owner rest q Hc Hq) as (q1&q2&->&->&Hc2&Hq2&Hs2&Ho2).
    exists q2. split_and!; try done.
    + rewrite take_0, Ho2. set_solver.
    + intros i ? ? ? ? Hi. lia.
    + intros o [= <-]. by rewrite Hs2, lookup_insert_eq.
    + intros o [Hne _]%not_elem_of_cons. by rewrite Hs2, lookup_insert_ne.
Qed.

(** C39: The consumer makes progress: from any reachable state in which it is
    idle, it serves its backlog in FIFO order.  Whatever each [run_now] returns,
    and whatever [Exception] it raises, every queued owner gets its own terminal
    status (DONE, or ERROR with the message) and is released, and when all have
    been served the queue is empty.  Only a run that ends with something else, a
    cancellation, stops the consumer: that owner is released with its status
    left at RUNNING, and those behind it stay queued as they were.  No other
    owner's status is touched. *)
Theorem drain_serves_everyone q outs :
  reachable q → q.(consumer) = Polling → length outs = length q.(queue) →
  let n := served_count outs in
  ∃ q', drain outs q = Some q' ∧
    (∀ i o out fin now, (i < n)%nat → q.(queue) !! i = Some o → outs !! i = Some (out, fin, now) →
       status_for o q' = Some (served out fin)) ∧
    (∀ o, o ∉ take (S n) q.(queue) → status_for o q' = status_for o q) ∧
    (Forall (λ x, caught x.1.1 = true) outs →
       n = length outs ∧ q'.(queue) = [] ∧ q'.(queued_or_running) = ∅ ∧ q'.(consumer) = Polling) ∧
    (∀ o, q.(queue) !! n = Some o →
       status_for o q' = Some (mkRunStatus RUNNING None None) ∧ q'.(consumer) = Stopped ∧
       q'.(queue) = drop (S n) q.(queue) ∧ q'.(queued_or_running) = list_to_set q'.(queue)).
Proof.
  intros Hreach Hc Hlen n. destruct (reachable_inv q Hreach) as (Hl&_).
  destruct (Hl ltac:(congruence)) as (Hnd&Hset&_).
  unfold in_flight in *. rewrite Hc, app_nil_r in *.
  destruct (drain_ok outs q Hc Hnd Hlen) as (q'&Hd&Hq'&Ho&Hst&Hrun&Hother&Hc').
  fold n in Hq', Ho, Hst, Hrun, Hother, Hc'.
  exists q'. split_and!; try done.
  - intros Hall. assert (n = length outs) as Hn.
    { unfold n. clear -Hall. induction Hall as [|[[out fin] now] outs Hx _ IH]; simpl in *; [done|].
      rewrite Hx. by rewrite IH. }
    rewrite Hn, Hlen in *. split; [done|].
    rewrite Hq', Ho, Hc', drop_ge, take_ge by lia. split_and!; [done|set_solver|].
    case_decide; [lia|done].
  - intros o Hio. split_and!; [by apply Hrun| |done|].
    + rewrite Hc'. apply lookup_lt_Some in Hio. case_decide; [done|lia].
    + rewrite Ho, Hq'. rewrite <- (take_drop (S n) q.(queue)) in Hnd, Hset.
      apply NoDup_app in Hnd as (_&Hdis&_). apply set_eq. intros x.
      rewrite elem_of_difference, !elem_of_list_to_set, Hset, elem_of_app. naive_solver.
Qed.

(** A crash of the consumer loses at most the run in flight: the FIFO
    queue is untouched; while the budget lasts every queued owner stays QUEUED
    and registered, and the served owner alone is marked ERROR and released;
    past the budget the queue is dead, and every owner that was queued or
    running is marked ERROR and released. *)
Theorem crash_spec q q' :
  reachable q → on_crash false q = Some q' →
  q'.(queue) = q.(queue) ∧
  (∀ o, o ∈ in_flight q → run_state o q' = Some ERROR ∧ o ∉ q'.(queued_or_running)) ∧
  (if cfg.(max_consumer_restarts) <? q.(restarts) + 1 then
     q'.(dead) = true ∧ q'.(consumer) = Stopped ∧ q'.(queued_or_running) = ∅ ∧
     (∀ o, o ∈ q.(queue) → run_state o q' = Some ERROR)
   else
     q'.(dead) = false ∧ q'.(consumer) = BackingOff ∧
     (∀ o, o ∈ q.(queue) → run_state o q' = Some QUEUED ∧ o ∈ q'.(queued_or_running))).
Proof.
  intros Hreach Hcr. destruct (reachable_inv q Hreach) as (Hl&_).
  assert (∃ q0, q' = on_crash_handler false q0 ∧ crashed q0 ∧ q0.(queue) = q.(queue) ∧
            q0.(restarts) = q.(restarts) ∧ live q ∧
            (∀ o, run_state o q0 = run_state o q) ∧
            (∀ o, o ∈ in_flight q → o ∉ q0.(queued_or_running)))
    as (q0&->&Hc0&Hqq&Hn&Hlive&Hst&Hfl).
  { unfold on_crash in Hcr. unfold in_flight.
    destruct (consumer q) as [|owner| |] eqn:Hc; simplify_eq.
    - exists q. assert (live q) by (by apply Hl). split_and!; try done; [by apply crashed_polling|set_solver].
    - exists (release owner q). assert (live q) by (by apply Hl).
      pose proof (check_fields (with_owners (q.(queued_or_running) ∖ {[owner]}) q))
        as (E1&E2&E3&E4&E5&E6&E7&E8).
      split_and!; try done; [by apply crashed_serving| |]; unfold release, run_state.
      + by rewrite E3.
      + rewrite E2. simpl. set_solver. }
  destruct Hc0 as (Hnd0&Hset0&Hq0&Hd0&_). destruct Hlive as (_&_&Hq&Hr&_).
  unfold on_crash_handler. set (q1 := {| queue := q0.(queue) |}). rewrite Hn.
  set (dying := _ <? _).
  destruct (sweep_fields dying q1) as (E1&_&E3&_&_&_).
  assert (∀ o, run_state o q1 = run_state o q) as Hst1 by done.
  assert (∀ o, o ∈ in_flight q → run_state o (sweep dying q1) = Some ERROR
                ∧ o ∉ (sweep dying q1).(queued_or_running)) as Hserved.
  { intros o Ho. rewrite run_state_sweep, owners_sweep, Hst1, (proj2 (Hr o)) by done.
    split; [done|]. tauto. }
  clearbody dying. destruct dying; split_and!; try done;
    simpl; rewrite ?E1, ?E3; try first [exact Hqq | exact Hd0].
  - apply set_eq. intros o. rewrite owners_sweep, Hst1. simpl. rewrite Hset0, Hqq, <- Hq.
    set_solver.
  - intros o Ho%Hq. unfold run_state at 1. simpl.
    change (state <$> _) with (run_state o (sweep true q1)).
    by rewrite run_state_sweep, Hst1, Ho.
  - intros o Ho. pose proof Ho as Hs%Hq. unfold run_state at 1. simpl.
    change (state <$> _) with (run_state o (sweep false q1)).
    rewrite run_state_sweep, owners_sweep, Hst1, Hs. simpl. rewrite Hset0, Hqq. done.
Qed.

(** Once the restart budget is exhausted the queue is dead for good: no
    later step of anybody changes the queue, the owners or the consumer, no
    run is started, and every request is refused with status ERROR and the
    recorded reason. *)
Theorem dead_is_final q q' :
  reachable q → q.(dead) = true → rtc step q q' →
  q'.(dead) = true ∧ q'.(consumer) = Stopped ∧ q'.(queue) = q.(queue) ∧
  q'.(queued_or_running) = q.(queued_or_running) ∧
  ∀ owner now, let '(accepted, q'') := enqueue owner now q' in
    accepted = false ∧ ∃ reason, q.(dead_reason) = Some reason ∧
    status_for owner q'' = Some (mkRunStatus ERROR None (Some reason)).
Proof.
  intros Hreach Hdead Hsteps.
  destruct (reachable_inv q Hreach) as (_&Hd&_). destruct (Hd Hdead) as (Hc&_&Hreason).
  enough (q'.(dead) = true ∧ q'.(consumer) = Stopped ∧ q'.(queue) = q.(queue) ∧
          q'.(queued_or_running) = q.(queued_or_running) ∧ q'.(dead_reason) = q.(dead_reason))
    as (Hd'&?&?&?&Hr).
  { split_and!; try done. intros owner now. unfold enqueue. rewrite Hd', Hr. split; [done|].
    destruct (dead_reason q) as [r|]; [|done]. exists r. split; [done|].
    unfold status_for. simpl. by rewrite lookup_insert_eq. }
  clear Hreason Hd Hreach. induction Hsteps as [q|q q1 q2 Hstep _ IH]; [done|].
  assert (q1.(dead) = true ∧ q1.(consumer) = Stopped ∧ q1.(queue) = q.(queue) ∧
          q1.(queued_or_running) = q.(queued_or_running) ∧ q1.(dead_reason) = q.(dead_reason))
    as (H1&H2&<-&<-&<-); [|by apply IH].
  destruct Hstep as [owner now|? H|? ? ? H|? ? H|? ? H|? H|? H|? H];
    [unfold enqueue; rewrite Hdead; done
    | unfold on_get in H | unfold on_run_ok in H | unfold on_run_error in H
    | unfold on_crash in H | unfold on_resume in H | unfold on_stop in H | unfold on_cancel in H];
    by rewrite Hc in H.
Qed.

End RunQueue.

(** ** A concrete schedule *)

Module Demo.
Definition cfg : Config :=
  {| max_consumer_restarts := 1; cooldown_seconds := 60; backlog_warn_threshold := 2 |}.

Definition after (l : list action) : RunQueue := default init (exec cfg l init).

(** Two owners queued, the first being served. *)
Definition busy : list action := [Enqueue "ana" 0; Enqueue "bia" 1; Get].
(** Two owners queued, nobody served yet, one owner served before. *)
Definition waiting : list action :=
  [Enqueue "ana" 0; Get; RunOk "t0" 5; Enqueue "bia" 6; Enqueue "leo" 7].
(** Two consecutive crashes exhaust a budget of one. *)
Definition doomed : list action := busy ++ [Crash false; Resume; Crash false].

Lemma after_reachable l : is_Some (exec cfg l init) → reachable cfg (after l).
Proof.
  intros [q Hq]. unfold after. rewrite Hq. eapply exec_reachable; [apply reach_init|exact Hq].
Qed.
End Demo.

Lemma run_queue_invariant_witness :
  reachable Demo.cfg (Demo.after Demo.busy) ∧
  NoDup ((Demo.after Demo.busy).(queue) ++ in_flight (Demo.after Demo.busy)).
Proof.
  assert (reachable Demo.cfg (Demo.after Demo.busy)) as H
    by (apply Demo.after_reachable; vm_compute; eauto).
  split; [exact H|].
  destruct (run_queue_invariant Demo.cfg _ H) as (Hl & _). apply Hl. vm_compute. discriminate.
Defined.

Lemma enqueue_spec_witness :
  let q := Demo.after Demo.waiting in
  reachable Demo.cfg q ∧ q.(consumer) ≠ Stopped ∧
  (enqueue Demo.cfg "ana" 10 q).1 = false ∧ (enqueue Demo.cfg "ana" 10 q).2 = q ∧
  (enqueue Demo.cfg "ana" 65 q).1 = true ∧ (enqueue Demo.cfg "bia" 65 q).1 = false.
Proof.
  assert (reachable Demo.cfg (Demo.after Demo.waiting)) as H
    by (apply Demo.after_reachable; vm_compute; eauto).
  assert ((Demo.after Demo.waiting).(consumer) ≠ Stopped) as Hc by (vm_compute; discriminate).
  pose proof (enqueue_spec Demo.cfg "ana" 10 _ H Hc) as Hs.
  split; [exact H|split; [exact Hc|]].
  destruct (enqueue Demo.cfg "ana" 10 (Demo.after Demo.waiting)) as [b q'] eqn:E.
  assert (b = false) as -> by (vm_compute in E; congruence).
  destruct Hs as [-> _]. repeat split; vm_compute; reflexivity.
Defined.

Lemma drain_serves_everyone_witness :
  let q := Demo.after Demo.waiting in
  let outs := [(Ok tt, "t1", 70); (raise FetchError "down", "", 71)] in
  reachable Demo.cfg q ∧ q.(consumer) = Polling ∧ length outs = length q.(queue) ∧
  ∃ q', drain Demo.cfg outs q = Some q' ∧
    status_for "bia" q' = Some (mkRunStatus DONE (Some "t1") None) ∧
    status_for "leo" q' = Some (mkRunStatus ERROR None (Some "down")).
Proof.
  intros q outs.
  assert (reachable Demo.cfg q) as H by (apply Demo.after_reachable; vm_compute; eauto).
  assert (q.(consumer) = Polling) as Hc by (vm_compute; reflexivity).
  assert (length outs = length q.(queue)) as Hlen by (vm_compute; reflexivity).
  split; [exact H|split; [exact Hc|split; [exact Hlen|]]].
  destruct (drain_serves_everyone Demo.cfg q outs H Hc Hlen) as (q'&Hd&Hst&_).
  exists q'. split; [exact Hd|]. split.
  - apply (Hst 0%nat "bia" (Ok tt) "t1" 70); [vm_compute; lia|vm_compute; reflexivity..].
  - apply (Hst 1%nat "leo" (raise FetchError "down") "" 71); [vm_compute; lia|vm_compute; reflexivity..].
Defined.

(** Cancelled while it serves "bia": "leo" stays queued. *)
Example cancelled_in_flight :
  ∃ q', drain Demo.cfg [(raise CancelledError "", "", 70); (Ok tt, "t1", 71)] (Demo.after Demo.waiting) = Some q'
        ∧ q'.(queue) = ["leo"] ∧ q'.(consumer) = Stopped.
Proof. eexists. by vm_compute. Qed.

Lemma crash_spec_witness :
  let q := Demo.after Demo.busy in
  ∃ q', reachable Demo.cfg q ∧ on_crash Demo.cfg false q = Some q' ∧
    run_state "ana" q' = Some ERROR ∧ run_state "bia" q' = Some QUEUED ∧
    q'.(queue) = ["bia"].
Proof.
  intros q. eexists. 
  assert (reachable Demo.cfg q) as H by (apply Demo.after_reachable; vm_compute; eauto).
  split; [exact H|]. split; [reflexivity|].
  pose proof (crash_spec Demo.cfg q _ H eq_refl) as (Hq & Hf & Hb).
  split; [apply Hf; vm_compute; left|]. split; [|rewrite Hq; reflexivity].
  apply Hb. vm_compute. left.
Defined.

Lemma dead_is_final_witness :
  let q := Demo.after Demo.doomed in
  reachable Demo.cfg q ∧ q.(dead) = true ∧ (enqueue Demo.cfg "leo" 9 q).1 = false ∧
  (snd (enqueue Demo.cfg "leo" 9 q)).(dead) = true.
Proof.
  intros q.
  assert (reachable Demo.cfg q) as H by (apply Demo.after_reachable; vm_compute; eauto).
  assert (q.(dead) = true) as Hd by (vm_compute; reflexivity).
  split; [exact H|split; [exact Hd|split; [reflexivity|]]].
  apply (dead_is_final Demo.cfg q _ H Hd). apply rtc_once. apply step_enqueue.
Defined.
