(* ===== verification/Registry.v ===== *)
(** The configuration DTOs and their authoring-time validation
    ([registry/ports.py], [parsers/ports.py:ParserSpec]): sites, products and
    sources, digest jobs, job options, schedules, source ids.

    The interpolated parts that Python prints with [repr] are left out of the
    messages of the exceptions. *)

From S2P Require Import Prelude.

(** * Values of an options dictionary *)

(** A Python float: finite, [flt_m * 2 ^ flt_e], or not. *)
Inductive flt := FFin (m e : Z) | FInf (negative : bool) | FNaN.

#[export] Instance flt_eq_dec : EqDecision flt.
Proof. solve_decision. Defined.

(** [0 <= f <= 100]. *)
Definition flt_in_0_100 (f : flt) : bool :=
  match f with
  | FFin m e =>
      if 0 <=? e then (0 <=? m * 2 ^ e) && (m * 2 ^ e <=? 100)
      else (0 <=? m) && (m <=? 100 * 2 ^ (- e))
  | FInf _ | FNaN => false
  end.

(** The dynamic values [json.loads] and a form can put in the dictionary;
    [VObject] stands for a list or a nested dictionary. *)
Inductive pyval :=
| VNone | VBool (b : bool) | VInt (n : Z) | VFloat (f : flt) | VStr (s : string)
| VObject.

#[export] Instance pyval_eq_dec : EqDecision pyval.
Proof. solve_decision. Defined.

(** * Data *)

Record ParserSpec := {
  spec_kind : string;
  spec_pix : option string;
  spec_card : option string;
  spec_availability : option string;
}.

Record SiteConfig := {
  site_name : string;
  site_fetcher : string;
  site_parser : ParserSpec;
  site_domain : string;
  tier2_label : option string;
  subresource_domains : list string;
}.

Record ProductSource := {
  source_id : string;
  product_id : string;
  source_site : string;
  source_url : string;
}.

Record Product := {
  prod_id : string;
  prod_name : option string;
  prod_sources : list ProductSource;
}.

Record Registry := {
  sites : gmap string SiteConfig;
  products : list Product;
}.

Record JobOptions := {
  show_pix : bool;
  show_card : bool;
  variation_threshold_pct : option flt;
}.

Record DigestJob := {
  job_id : string;
  job_owner_id : string;
  job_name : string;
  job_frequency_kind : string;
  schedule_cron : string;
  job_timezone : string;
  job_template_id : string;
  job_options : JobOptions;
  job_enabled : bool;
  job_created_at : option string;
  job_source_ids : list string;
}.

#[export] Instance ParserSpec_eq_dec : EqDecision ParserSpec.
Proof. solve_decision. Defined.
#[export] Instance SiteConfig_eq_dec : EqDecision SiteConfig.
Proof. solve_decision. Defined.
#[export] Instance ProductSource_eq_dec : EqDecision ProductSource.
Proof. solve_decision. Defined.
#[export] Instance Product_eq_dec : EqDecision Product.
Proof. solve_decision. Defined.
#[export] Instance JobOptions_eq_dec : EqDecision JobOptions.
Proof. solve_decision. Defined.
#[export] Instance DigestJob_eq_dec : EqDecision DigestJob.
Proof. solve_decision. Defined.

Definition default_options : JobOptions :=
  {| show_pix := true; show_card := true; variation_threshold_pct := None |}.

(** [bool(s)] of a string, and of an optional one. *)
Definition truthy (s : string) : bool := negb (bool_decide (s = "")).
Definition truthy_opt (s : option string) : bool :=
  match s with Some s => truthy s | None => false end.

(** * Registry *)

(** The generator [Registry.iter_sources]: the triples it yields, and the
    exception that ends it if a source references an unknown site. *)
Fixpoint iter_flat (m : gmap string SiteConfig) (l : list (Product * ProductSource))
    : list (Product * ProductSource * SiteConfig) * option exn :=
  match l with
  | [] => ([], None)
  | (p, s) :: l' =>
      match m !! s.(source_site) with
      | None => ([], Some (Exn KeyError "source references unknown site"))
      | Some site =>
          let '(items, e) := iter_flat m l' in ((p, s, site) :: items, e)
      end
  end.

Definition product_sources (r : Registry) : list (Product * ProductSource) :=
  r.(products) ≫= λ p, pair p <$> p.(prod_sources).

Definition iter_sources (r : Registry)
    : list (Product * ProductSource * SiteConfig) * option exn :=
  iter_flat r.(sites) (product_sources r).

(** [f"{product.name or product.id} -- {source.site}"]. *)
Definition source_label (p : Product) (s : ProductSource) : string :=
  (if truthy_opt p.(prod_name) then default "" p.(prod_name) else p.(prod_id))
    +:+ " -- " +:+ s.(source_site).

Definition source_labels (r : Registry) : gmap string string :=
  foldl (λ m ps, <[ps.2.(source_id) := source_label ps.1 ps.2]> m) ∅ (product_sources r).

(** * Job options *)

Definition ALLOWED_OPTION_KEYS : list string :=
  ["show_pix"; "show_card"; "variation_threshold_pct"].

Definition VALID_TEMPLATE_IDS : list string := ["default"].

Definition parse_job_options (raw : list (string * pyval)) : result JobOptions :=
  if bool_decide (filter (λ k, k ∉ ALLOWED_OPTION_KEYS) raw.*1 = []) then
    let pix := default (VBool true) (od_get "show_pix" raw) in
    let card := default (VBool true) (od_get "show_card" raw) in
    let threshold := default VNone (od_get "variation_threshold_pct" raw) in
    match pix with
    | VBool p =>
        match card with
        | VBool c =>
            let? t :=
              match threshold with
              | VNone => Ok None
              | VInt n =>
                  if (0 <=? n) && (n <=? 100) then Ok (Some (FFin n 0))
                  else raise ValueError "variation_threshold_pct must be within [0, 100]"
              | VFloat f =>
                  if flt_in_0_100 f then Ok (Some f)
                  else raise ValueError "variation_threshold_pct must be within [0, 100]"
              | _ => raise ValueError "variation_threshold_pct must be numeric"
              end in
            Ok {| show_pix := p; show_card := c; variation_threshold_pct := t |}
        | _ => raise ValueError "show_card must be a bool"
        end
    | _ => raise ValueError "show_pix must be a bool"
    end
  else raise ValueError "unknown job option keys".

Definition dump_job_options (o : JobOptions) : list (string * pyval) :=
  [("show_pix", VBool o.(show_pix)); ("show_card", VBool o.(show_card));
   ("variation_threshold_pct",
     match o.(variation_threshold_pct) with Some f => VFloat f | None => VNone end)].

(** * Schedules *)

(** The white space of [str.split()] and [str.strip()], in Latin-1. *)
Definition is_space (c : ascii) : bool :=
  let n := Z.of_N (N_of_ascii c) in
  (n =? 32) || ((9 <=? n) && (n <=? 13)) || ((28 <=? n) && (n <=? 31)) || (n =? 133) || (n =? 160).

(** [s.split()]: [cur] is the field being read, reversed. *)
Fixpoint split_ws (s : list ascii) (cur : list ascii) : list (list ascii) :=
  match s with
  | [] => match cur with [] => [] | _ => [reverse cur] end
  | c :: s' =>
      if is_space c then
        match cur with [] => split_ws s' [] | _ => reverse cur :: split_ws s' [] end
      else split_ws s' (c :: cur)
  end.

Definition split (s : string) : list string :=
  of_chars <$> split_ws (chars s) [].

Definition normalize_schedule (frequency_kind : string) (minute hour : Z)
    (cron_expr : option string) : result string :=
  if bool_decide (frequency_kind = "hourly") then
    if negb ((0 <=? minute) && (minute <=? 59))
    then raise ValueError "minute must be within [0, 59]"
    else Ok (pretty minute +:+ " * * * *")
  else if bool_decide (frequency_kind = "daily") then
    if negb ((0 <=? minute) && (minute <=? 59))
    then raise ValueError "minute must be within [0, 59]"
    else if negb ((0 <=? hour) && (hour <=? 23))
    then raise ValueError "hour must be within [0, 23]"
    else Ok (pretty minute +:+ " " +:+ pretty hour +:+ " * * *")
  else if bool_decide (frequency_kind = "cron") then
    if negb (truthy_opt cron_expr)
    then raise ValueError "cron_expr is required for frequency_kind='cron'"
    else
      let e := default "" cron_expr in
      if negb (bool_decide (length (split e) = 5%nat))
      then raise ValueError "cron_expr must have exactly 5 space-separated fields"
      else Ok e
  else raise ValueError "unknown frequency_kind".

(** [available_timezones()] is the host's tz database: an argument. *)
Definition validate_timezone (available_timezones : list string) (tz : string)
    : result unit :=
  if bool_decide (tz ∈ available_timezones) then Ok tt
  else raise ValueError "unknown IANA timezone".

Definition validate_template_id (template_id : string) : result unit :=
  if bool_decide (template_id ∈ VALID_TEMPLATE_IDS) then Ok tt
  else raise ValueError "unknown template_id".

(** * Source ids *)

Definition COLON : ascii := ":"%char.

Definition validate_product_key (product_key : string) : result unit :=
  if bool_decide (product_key = "") then raise ValueError "product_key must not be empty"
  else if bool_decide (COLON ∈ chars product_key)
  then raise ValueError "product_key must not contain ':'"
  else Ok tt.

(** [url_digest] is [hashlib.sha256(url).hexdigest()[:12]]. *)
Definition make_source_id (url_digest : string → string)
    (product_key site url : string) : result string :=
  let? _ := validate_product_key product_key in
  Ok (product_key +:+ ":" +:+ site +:+ ":" +:+ url_digest url).

(** * Lemmas *)

Lemma iter_flat_ok m l :
  (∀ p s, (p, s) ∈ l → is_Some (m !! s.(source_site))) → (iter_flat m l).2 = None.
Proof.
  induction l as [|[p s] l IH]; intros Hl; simpl; [done|].
  destruct (Hl p s ltac:(left)) as [site ->].
  assert ((iter_flat m l).2 = None) as H by (apply IH; intros; eapply Hl; right; done).
  by destruct (iter_flat m l).
Qed.

Lemma iter_flat_keys m l p s site :
  (p, s, site) ∈ (iter_flat m l).1 → (p, s) ∈ l ∧ m !! s.(source_site) = Some site.
Proof.
  induction l as [|[p0 s0] l IH]; simpl; [by intros ?%elem_of_nil|].
  destruct (m !! source_site s0) as [site0|] eqn:Hm; [|by intros ?%elem_of_nil].
  destruct (iter_flat m l) as [items e]. simpl in *.
  rewrite !elem_of_cons. intros [[= -> -> ->]|H]; [auto|]. destruct (IH H). auto.
Qed.

Lemma validate_key_ok k u :
  validate_product_key k = Ok u → k ≠ "" ∧ COLON ∉ chars k.
Proof. unfold validate_product_key. repeat case_bool_decide; done. Qed.

(** * Properties *)

Definition valid_options (o : JobOptions) : bool :=
  match o.(variation_threshold_pct) with Some f => flt_in_0_100 f | None => true end.

Lemma dump_options_parse o :
  valid_options o = true → parse_job_options (dump_job_options o) = Ok o.
Proof.
  destruct o as [p c [f|]]; unfold valid_options; simpl; intros H; [|done].
  assert (parse_job_options (dump_job_options
    {| show_pix := p; show_card := c; variation_threshold_pct := Some f |}) =
      (let? t := (if flt_in_0_100 f then Ok (Some f)
                  else raise ValueError "variation_threshold_pct must be within [0, 100]") in
       Ok {| show_pix := p; show_card := c; variation_threshold_pct := t |})) as -> by done.
  by rewrite H.
Qed.

Lemma parse_job_options_valid raw o : parse_job_options raw = Ok o → valid_options o = true.
Proof.
  unfold parse_job_options. case_bool_decide; [|done]. intros Ho.
  unfold valid_options. break; try done; simpl.
  rewrite Z.mul_1_r. bool_prop. apply andb_true_iff. rewrite !Z.leb_le. tauto.
Qed.

(** What [parse_job_options] accepts is in bounds, came from a dictionary
    with no key outside the whitelist, and survives the round trip through
    storage ([dump_job_options], then [parse_job_options] on the way back). *)
Theorem parse_job_options_roundtrip raw o :
  parse_job_options raw = Ok o →
  (∀ k, k ∈ raw.*1 → k ∈ ALLOWED_OPTION_KEYS) ∧
  valid_options o = true ∧
  parse_job_options (dump_job_options o) = Ok o.
Proof.
  intros H. pose proof (parse_job_options_valid raw o H) as Hv.
  split_and!; [|done|by apply dump_options_parse].
  unfold parse_job_options in H. case_bool_decide as Hk; [|done].
  intros k Hin. destruct (decide (k ∈ ALLOWED_OPTION_KEYS)) as [|Hn]; [done|].
  assert (k ∈ filter (λ k, k ∉ ALLOWED_OPTION_KEYS) raw.*1) as Hf
    by (by apply list_elem_of_filter).
  rewrite Hk in Hf. by apply elem_of_nil in Hf.
Qed.

Lemma parse_job_options_roundtrip_witness :
  let raw := [("show_card", VBool false); ("variation_threshold_pct", VInt 15)] in
  ∃ o, parse_job_options raw = Ok o ∧ parse_job_options (dump_job_options o) = Ok o.
Proof.
  eexists. split; [reflexivity|].
  apply (parse_job_options_roundtrip
           [("show_card", VBool false); ("variation_threshold_pct", VInt 15)]).
  reflexivity.
Defined.

(** The hourly and daily expressions, all of them: five fields. *)
Lemma hourly_five minute :
  0 ≤ minute ≤ 59 → length (split (pretty minute +:+ " * * * *")) = 5%nat.
Proof.
  intros H.
  assert (forallb (λ m, bool_decide
            (length (split (pretty (Z.of_nat m) +:+ " * * * *")) = 5%nat)) (seq 0 60) = true)
    as Hall by (vm_compute; reflexivity).
  rewrite forallb_forall in Hall. specialize (Hall (Z.to_nat minute)).
  rewrite Z2Nat.id in Hall by lia. eapply bool_decide_eq_true_1, Hall.
  apply in_seq. lia.
Qed.

Lemma daily_five minute hour :
  0 ≤ minute ≤ 59 → 0 ≤ hour ≤ 23 →
  length (split (pretty minute +:+ " " +:+ pretty hour +:+ " * * *")) = 5%nat.
Proof.
  intros Hm Hh.
  assert (forallb (λ m, forallb (λ h, bool_decide
            (length (split (pretty (Z.of_nat m) +:+ " " +:+ pretty (Z.of_nat h) +:+ " * * *"))
             = 5%nat)) (seq 0 24)) (seq 0 60) = true)
    as Hall by (vm_compute; reflexivity).
  rewrite forallb_forall in Hall. specialize (Hall (Z.to_nat minute) ltac:(apply in_seq; lia)).
  rewrite forallb_forall in Hall. specialize (Hall (Z.to_nat hour) ltac:(apply in_seq; lia)).
  rewrite !Z2Nat.id in Hall by lia. by apply bool_decide_eq_true_1 in Hall.
Qed.

(** Every schedule [normalize_schedule] accepts has the shape of a cron
    expression, five space-separated fields, and it refuses, with
    [ValueError] and nothing else, exactly the out-of-range minutes and hours,
    the missing or misshapen expressions and the unknown kinds. *)
Theorem normalize_schedule_spec kind minute hour expr :
  match normalize_schedule kind minute hour expr with
  | Ok c =>
      length (split c) = 5%nat ∧
      (kind = "hourly" ∧ 0 ≤ minute ≤ 59 ∨
       kind = "daily" ∧ 0 ≤ minute ≤ 59 ∧ 0 ≤ hour ≤ 23 ∨
       kind = "cron" ∧ expr = Some c)
  | Raise e =>
      e.(exn_class) = ValueError ∧
      (kind = "hourly" ∧ ¬ (0 ≤ minute ≤ 59) ∨
       kind = "daily" ∧ ¬ (0 ≤ minute ≤ 59 ∧ 0 ≤ hour ≤ 23) ∨
       kind = "cron" ∧ length (split (default "" expr)) ≠ 5%nat ∨
       kind ∉ ["hourly"; "daily"; "cron"])
  end.
Proof.
  unfold normalize_schedule.
  case_bool_decide as Hh; [|case_bool_decide as Hd; [|case_bool_decide as Hc]];
    repeat match goal with |- context [(?a <=? ?b) && (?c <=? ?d)] =>
      destruct (Z.leb_spec a b), (Z.leb_spec c d); simpl end.
  12: { destruct (truthy_opt expr) eqn:Ht; simpl.
    - case_bool_decide as H5; simpl.
      + split; [done|]. right. right. split; [done|]. by destruct expr.
      + split; [done|]. auto.
    - split; [done|]. right. right. left. split; [done|].
      destruct expr as [e|]; [|done]. unfold truthy_opt, truthy in Ht.
      apply negb_false_iff, bool_decide_eq_true in Ht. by subst. }
  12: { split; [done|]. right. right. right. set_solver. }
  all: try (split; [by auto using hourly_five, daily_five|]).
  all: try (split; [done|]).
  all: try (left; split; [done|lia]).
  all: right; left; split_and!; first [done|lia].
Qed.

(** The id of a source determines its product key, its site and the
    digest of its url: two sources of one owner whose urls have different
    digests never share an id, whatever ':' the site's name holds. *)
Theorem make_source_id_inj (url_digest : string → string) k s u k' s' u' id :
  (∀ v, COLON ∉ chars (url_digest v)) →
  make_source_id url_digest k s u = Ok id →
  make_source_id url_digest k' s' u' = Ok id →
  k = k' ∧ s = s' ∧ url_digest u = url_digest u'.
Proof.
  unfold make_source_id. intros Hd H H'.
  destruct (validate_product_key k) as [u0|] eqn:Hk; [|done].
  destruct (validate_product_key k') as [u0'|] eqn:Hk'; [|done].
  apply validate_key_ok in Hk as [_ Hk]. apply validate_key_ok in Hk' as [_ Hk'].
  simpl in H, H'. rewrite <- H' in H. injection H as H.
  apply (f_equal chars) in H. rewrite !chars_app in H.
  change (chars ":") with [COLON] in H. simpl in H.
  apply sep_split in H as [Hkk H]; [|done..].
  apply sep_split_last in H as [Hss Huu]; [|done..].
  split_and!; by apply chars_inj.
Qed.

(** Two urls whose digests collide share an id; the theorem finds the
    collision. *)
Lemma make_source_id_inj_witness :
  let digest := λ u : string, if bool_decide (u = "https://kabum.com.br/p/1") then "aa11" else "bb22" in
  make_source_id digest "gpu" "kabum:br" "https://kabum.com.br/p/2" = Ok "gpu:kabum:br:bb22" ∧
  digest "https://kabum.com.br/p/2" = digest "https://kabum.com.br/p/3".
Proof.
  intros digest. split; [reflexivity|].
  apply (make_source_id_inj digest "gpu" "kabum:br" "https://kabum.com.br/p/2"
           "gpu" "kabum:br" "https://kabum.com.br/p/3" "gpu:kabum:br:bb22");
    try reflexivity.
  intros v; unfold digest; case_bool_decide; apply (bool_decide_unpack (COLON ∉ _)); vm_compute; exact I.
Defined.
