(* ===== verification/ConfigStore.v ===== *)
(** config.db: the SQLite configuration store ([registry/sqlite_store.py]),
    each table a list of rows in rowid order.

    Every operation runs on its own connection inside [_op]: an exception
    closes the connection without a commit, so it leaves the database as it
    was.  [options] and [subresource_domains] are JSON columns; they are held
    as the value [json.dumps] was given. *)

From S2P Require Import Prelude Registry.

(** * Rows *)

Record OwnerRow := {
  o_id : string;
  o_name : string;
  o_email : option string;
  o_role : string;
  o_state : string;
  o_password_hash : option string;
  o_created_at : option string;
}.

Record SiteRow := {
  t_name : string;
  t_fetcher : string;
  t_domain : string;
  t_tier2_label : option string;
  t_subresource_domains : list string;
  t_parser_kind : string;
  t_parser_pix : option string;
  t_parser_card : option string;
  t_parser_availability : option string;
}.

Record ProductRow := { p_owner : string; p_key : string; p_name : option string }.

Record SourceRow := {
  s_id : string;
  s_owner : string;
  s_key : string;
  s_site : string;
  s_url : string;
}.

Record JobRow := {
  j_id : string;
  j_owner : string;
  j_name : string;
  j_kind : string;
  j_cron : string;
  j_timezone : string;
  j_template : string;
  j_options : list (string * pyval);
  j_enabled : Z;
  j_created_at : option string;
}.

Record LinkRow := { l_owner : string; l_job : string; l_source : string }.

Record ConfigDb := {
  owners : list OwnerRow;
  site_rows : list SiteRow;
  product_rows : list ProductRow;
  source_rows : list SourceRow;
  job_rows : list JobRow;
  link_rows : list LinkRow;
}.

Definition empty_config_db : ConfigDb :=
  {| owners := []; site_rows := []; product_rows := []; source_rows := [];
     job_rows := []; link_rows := [] |}.

#[export] Instance SourceRow_eq_dec : EqDecision SourceRow.
Proof. solve_decision. Defined.
#[export] Instance LinkRow_eq_dec : EqDecision LinkRow.
Proof. solve_decision. Defined.

Definition set_sites (l : list SiteRow) (db : ConfigDb) : ConfigDb :=
  {| owners := db.(owners); site_rows := l; product_rows := db.(product_rows);
     source_rows := db.(source_rows); job_rows := db.(job_rows);
     link_rows := db.(link_rows) |}.
Definition set_products (l : list ProductRow) (db : ConfigDb) : ConfigDb :=
  {| owners := db.(owners); site_rows := db.(site_rows); product_rows := l;
     source_rows := db.(source_rows); job_rows := db.(job_rows);
     link_rows := db.(link_rows) |}.
Definition set_sources (l : list SourceRow) (db : ConfigDb) : ConfigDb :=
  {| owners := db.(owners); site_rows := db.(site_rows);
     product_rows := db.(product_rows); source_rows := l;
     job_rows := db.(job_rows); link_rows := db.(link_rows) |}.
Definition set_jobs (l : list JobRow) (db : ConfigDb) : ConfigDb :=
  {| owners := db.(owners); site_rows := db.(site_rows);
     product_rows := db.(product_rows); source_rows := db.(source_rows);
     job_rows := l; link_rows := db.(link_rows) |}.
Definition set_links (l : list LinkRow) (db : ConfigDb) : ConfigDb :=
  {| owners := db.(owners); site_rows := db.(site_rows);
     product_rows := db.(product_rows); source_rows := db.(source_rows);
     job_rows := db.(job_rows); link_rows := l |}.
Definition set_owners (l : list OwnerRow) (db : ConfigDb) : ConfigDb :=
  {| owners := l; site_rows := db.(site_rows);
     product_rows := db.(product_rows); source_rows := db.(source_rows);
     job_rows := db.(job_rows); link_rows := db.(link_rows) |}.

(** * Conversions *)

Definition site_to_row (s : SiteConfig) : SiteRow :=
  {| t_name := s.(site_name); t_fetcher := s.(site_fetcher);
     t_domain := s.(site_domain); t_tier2_label := s.(tier2_label);
     t_subresource_domains := s.(subresource_domains);
     t_parser_kind := s.(site_parser).(spec_kind);
     t_parser_pix := s.(site_parser).(spec_pix);
     t_parser_card := s.(site_parser).(spec_card);
     t_parser_availability := s.(site_parser).(spec_availability) |}.

Definition row_to_site (r : SiteRow) : SiteConfig :=
  {| site_name := r.(t_name); site_fetcher := r.(t_fetcher);
     site_parser := {| spec_kind := r.(t_parser_kind); spec_pix := r.(t_parser_pix);
                       spec_card := r.(t_parser_card);
                       spec_availability := r.(t_parser_availability) |};
     site_domain := r.(t_domain); tier2_label := r.(t_tier2_label);
     subresource_domains := r.(t_subresource_domains) |}.

Definition row_to_job (r : JobRow) (source_ids : list string) : result DigestJob :=
  let? options := parse_job_options r.(j_options) in
  Ok {| job_id := r.(j_id); job_owner_id := r.(j_owner); job_name := r.(j_name);
        job_frequency_kind := r.(j_kind); schedule_cron := r.(j_cron);
        job_timezone := r.(j_timezone); job_template_id := r.(j_template);
        job_options := options; job_enabled := negb (r.(j_enabled) =? 0);
        job_created_at := r.(j_created_at); job_source_ids := source_ids |}.

(** The row [create_job] inserts. *)
Definition job_to_row (owner : string) (j : DigestJob) : JobRow :=
  {| j_id := j.(job_id); j_owner := owner; j_name := j.(job_name);
     j_kind := j.(job_frequency_kind); j_cron := j.(schedule_cron);
     j_timezone := j.(job_timezone); j_template := j.(job_template_id);
     j_options := dump_job_options j.(job_options);
     j_enabled := if j.(job_enabled) then 1 else 0;
     j_created_at := j.(job_created_at) |}.

(** [_replace_job(job, id=..., owner_id=..., source_ids=...)]. *)
Definition replace_job (id owner : string) (source_ids : list string) (j : DigestJob)
    : DigestJob :=
  {| job_id := id; job_owner_id := owner; job_name := j.(job_name);
     job_frequency_kind := j.(job_frequency_kind); schedule_cron := j.(schedule_cron);
     job_timezone := j.(job_timezone); job_template_id := j.(job_template_id);
     job_options := j.(job_options); job_enabled := j.(job_enabled);
     job_created_at := j.(job_created_at); job_source_ids := source_ids |}.

(** * Operations *)

(** [with self._op() as conn]: commit on a normal exit, no commit on an
    exception. *)
Definition op {A} (m : M ConfigDb A) : M ConfigDb A :=
  λ db, match m db with
        | (Ok a, db') => (Ok a, db')
        | (Raise e, _) => (Raise e, db)
        end.

Definition integrity_error : exn := Exn IntegrityError "constraint failed".

Module Config.

(** ** Reads *)

(** [{row["name"]: _row_to_site(row) ...}]. *)
Definition load_sites (db : ConfigDb) : gmap string SiteConfig :=
  foldl (λ m r, <[r.(t_name) := row_to_site r]> m) ∅
    (sort_by (λ a b, str_leb a.(t_name) b.(t_name)) db.(site_rows)).

Definition site_domains (db : ConfigDb) : list string :=
  remove_dups (t_domain <$> filter (λ r, t_domain r ≠ "") db.(site_rows)).

Definition source_order (a b : SourceRow) : bool :=
  if str_ltb a.(s_key) b.(s_key) then true
  else if str_ltb b.(s_key) a.(s_key) then false
  else str_leb a.(s_id) b.(s_id).

(** The dictionary [sources_by_product]. *)
Definition group_sources (rows : list SourceRow) : gmap string (list ProductSource) :=
  foldl (λ m r,
    <[r.(s_key) := (default [] (m !! r.(s_key)) ++
         [{| source_id := r.(s_id); product_id := r.(s_key);
             source_site := r.(s_site); source_url := r.(s_url) |}])%list]> m) ∅ rows.

Definition load_products (owner : string) (db : ConfigDb) : list Product :=
  let prows := sort_by (λ a b, str_leb a.(p_key) b.(p_key))
                 (filter (λ r, p_owner r = owner) db.(product_rows)) in
  let by_product := group_sources
    (sort_by source_order (filter (λ r, s_owner r = owner) db.(source_rows))) in
  (λ r, {| prod_id := r.(p_key); prod_name := r.(p_name);
           prod_sources := default [] (by_product !! r.(p_key)) |}) <$> prows.

Definition load (owner : string) : M ConfigDb Registry :=
  op (mgets (λ db, {| sites := load_sites db; products := load_products owner db |})).

Definition load_job_sources (owner job : string) (db : ConfigDb) : list string :=
  sort_by str_leb
    (l_source <$> filter (λ r, l_owner r = owner ∧ l_job r = job) db.(link_rows)).

Definition jobs_of_rows (rows : list JobRow) (db : ConfigDb) : result (list DigestJob) :=
  rmap (λ r, row_to_job r (load_job_sources r.(j_owner) r.(j_id) db)) rows.

Definition list_jobs (owner : string) : M ConfigDb (list DigestJob) :=
  op (λ db, (jobs_of_rows
               (sort_by (λ a b, str_leb a.(j_name) b.(j_name))
                  (filter (λ r, j_owner r = owner) db.(job_rows))) db, db)).

Definition job_order (a b : JobRow) : bool :=
  if str_ltb a.(j_owner) b.(j_owner) then true
  else if str_ltb b.(j_owner) a.(j_owner) then false
  else str_leb a.(j_name) b.(j_name).

Definition list_all_enabled_jobs : M ConfigDb (list DigestJob) :=
  op (λ db, (jobs_of_rows
               (sort_by job_order (filter (λ r, j_enabled r = 1) db.(job_rows))) db, db)).

Definition list_referenced_fetcher_tiers (db : ConfigDb) : list string :=
  remove_dups
    (db.(source_rows) ≫= λ s,
       t_fetcher <$> filter (λ t, t_name t = s_site s) db.(site_rows)).

Definition find_job (owner job : string) (db : ConfigDb) : option JobRow :=
  head (filter (λ r, j_owner r = owner ∧ j_id r = job) db.(job_rows)).

Definition get_job (owner job : string) : M ConfigDb DigestJob :=
  op (λ db,
    match find_job owner job db with
    | None => (raise KeyError "unknown digest job", db)
    | Some r => (row_to_job r (load_job_sources owner job db), db)
    end).

(** ** Writes *)

Definition add_site (s : SiteConfig) : M ConfigDb unit :=
  op (mmodify (λ db,
    if bool_decide (site_name s ∈ t_name <$> db.(site_rows))
    then set_sites ((λ r, if bool_decide (t_name r = site_name s)
                          then site_to_row s else r) <$> db.(site_rows)) db
    else set_sites (db.(site_rows) ++ [site_to_row s]) db)).

Definition product_key_of (r : ProductRow) : string * string := (r.(p_owner), r.(p_key)).

Definition add_product (owner : string) (p : Product) : M ConfigDb unit :=
  let row := {| p_owner := owner; p_key := p.(prod_id); p_name := p.(prod_name) |} in
  op (mmodify (λ db,
    if bool_decide (product_key_of row ∈ product_key_of <$> db.(product_rows))
    then set_products ((λ r, if bool_decide (product_key_of r = product_key_of row)
                             then row else r) <$> db.(product_rows)) db
    else set_products (db.(product_rows) ++ [row]) db)).

Definition source_key_of (r : SourceRow) : string * string := (r.(s_owner), r.(s_id)).
Definition source_triple_of (r : SourceRow) : string * string * string * string :=
  (r.(s_owner), r.(s_key), r.(s_site), r.(s_url)).

(** The [ON CONFLICT] target is tested first, then the other UNIQUE
    constraint, then the two foreign keys. *)
Definition add_source (owner : string) (s : ProductSource) : M ConfigDb unit :=
  let row := {| s_id := s.(source_id); s_owner := owner; s_key := s.(product_id);
                s_site := s.(source_site); s_url := s.(source_url) |} in
  op (λ db,
    if bool_decide (source_key_of row ∈ source_key_of <$> db.(source_rows))
    then (Ok tt, db)
    else if bool_decide (source_triple_of row ∈ source_triple_of <$> db.(source_rows))
    then (Raise integrity_error, db)
    else if bool_decide ((owner, s.(product_id)) ∈ product_key_of <$> db.(product_rows)
                         ∧ s.(source_site) ∈ t_name <$> db.(site_rows))
    then (Ok tt, set_sources (db.(source_rows) ++ [row]) db)
    else (Raise integrity_error, db)).

(** DELETE on [sources], its ON DELETE CASCADE included. *)
Definition delete_sources (P : SourceRow → Prop) `{∀ r, Decision (P r)}
    (db : ConfigDb) : ConfigDb :=
  let gone := source_key_of <$> filter P db.(source_rows) in
  set_links (filter (λ l, (l_owner l, l_source l) ∉ gone) db.(link_rows))
    (set_sources (filter (λ r, ¬ P r) db.(source_rows)) db).

Definition remove_source (owner source : string) : M ConfigDb unit :=
  op (mmodify (delete_sources (λ r, s_id r = source ∧ s_owner r = owner))).

Definition remove_product (owner key : string) : M ConfigDb unit :=
  op (λ db,
    if bool_decide ((owner, key) ∈ product_key_of <$> db.(product_rows)) then
      let db1 := delete_sources (λ r, s_owner r = owner ∧ s_key r = key) db in
      (Ok tt, set_products (filter (λ r, product_key_of r ≠ (owner, key))
                              db1.(product_rows)) db1)
    else (raise KeyError "unknown product", db)).

Definition job_name_of (r : JobRow) : string * string := (r.(j_owner), r.(j_name)).
Definition link_key_of (r : LinkRow) : string * string := (r.(l_job), r.(l_source)).

(** One INSERT ... SELECT ... ON CONFLICT DO NOTHING; the answer is
    [rowcount == 1]. *)
Definition link_source (owner job source : string) (db : ConfigDb) : bool * ConfigDb :=
  if bool_decide ((owner, source) ∈ source_key_of <$> db.(source_rows)
                  ∧ (job, source) ∉ link_key_of <$> db.(link_rows))
  then (true, set_links (db.(link_rows) ++
                [{| l_owner := owner; l_job := job; l_source := source |}]) db)
  else (false, db).

Fixpoint link_sources (owner job : string) (source_ids : list string) (db : ConfigDb)
    : list string * ConfigDb :=
  match source_ids with
  | [] => ([], db)
  | s :: rest =>
      let '(ok, db1) := link_source owner job s db in
      let '(linked, db2) := link_sources owner job rest db1 in
      (if ok then s :: linked else linked, db2)
  end.

Definition name_conflict : exn := Exn ConfigError "digest job name conflict".

Definition create_job (owner : string) (j : DigestJob) (source_ids : list string)
    : M ConfigDb DigestJob :=
  op (λ db,
    if bool_decide (job_id j ∈ j_id <$> db.(job_rows)
                    ∨ (owner, job_name j) ∈ job_name_of <$> db.(job_rows))
    then (Raise name_conflict, db)
    else
      let db1 := set_jobs (db.(job_rows) ++ [job_to_row owner j]) db in
      let '(linked, db2) := link_sources owner j.(job_id) source_ids db1 in
      (Ok (replace_job j.(job_id) owner linked j), db2)).

(** The UPDATE of [update_job] on one row. *)
Definition updated_row (j : DigestJob) (r : JobRow) : JobRow :=
  {| j_id := r.(j_id); j_owner := r.(j_owner); j_name := j.(job_name);
     j_kind := j.(job_frequency_kind); j_cron := j.(schedule_cron);
     j_timezone := j.(job_timezone); j_template := j.(job_template_id);
     j_options := dump_job_options j.(job_options);
     j_enabled := if j.(job_enabled) then 1 else 0;
     j_created_at := r.(j_created_at) |}.

Definition update_job (owner job : string) (j : DigestJob) : M ConfigDb DigestJob :=
  op (λ db,
    let hit := λ r, j_owner r = owner ∧ j_id r = job in
    if bool_decide (Exists hit db.(job_rows)) then
      if bool_decide (Exists (λ r, ¬ hit r ∧ job_name_of r = (owner, job_name j))
                        db.(job_rows))
      then (Raise name_conflict, db)
      else
        let db1 := set_jobs ((λ r, if bool_decide (hit r) then updated_row j r else r)
                               <$> db.(job_rows)) db in
        (Ok (replace_job job owner (load_job_sources owner job db1) j), db1)
    else (raise KeyError "unknown digest job", db)).

(** The two DELETEs, with the ON DELETE CASCADE of [digest_job_sources]. *)
Definition delete_job (owner job : string) : M ConfigDb unit :=
  op (λ db,
    match find_job owner job db with
    | None => (raise KeyError "unknown digest job", db)
    | Some _ =>
        (Ok tt,
         set_links (filter (λ l, l_job l ≠ job) db.(link_rows))
           (set_jobs (filter (λ r, ¬ (j_owner r = owner ∧ j_id r = job)) db.(job_rows)) db))
    end).

Definition add_job_source (owner job source : string) : M ConfigDb bool :=
  op (λ db,
    match find_job owner job db with
    | None => (raise KeyError "unknown digest job", db)
    | Some _ =>
        let '(linked, db1) := link_sources owner job [source] db in
        (Ok (negb (bool_decide (linked = []))), db1)
    end).

Definition remove_job_source (owner job source : string) : M ConfigDb unit :=
  op (mmodify (λ db,
    set_links (filter (λ l, ¬ (l_owner l = owner ∧ l_job l = job ∧ l_source l = source))
                 db.(link_rows)) db)).

(** ** Owners *)

Definition identity_conflict (id name : string) (email : option string) (r : OwnerRow)
    : Prop :=
  o_id r ≠ id ∧ (o_name r = name ∨ (email ≠ None ∧ o_email r = email)).

#[global] Instance identity_conflict_dec id name email r :
  Decision (identity_conflict id name email r).
Proof. unfold identity_conflict. apply _. Defined.

(** [created_at] is the clock's value when the argument is absent. *)
Definition ensure_owner (id name role : string) (email password_hash : option string)
    (created_at : string) : M ConfigDb string :=
  op (λ db,
    if bool_decide (Exists (identity_conflict id name email) db.(owners))
    then (raise ConfigError "owner identity conflict", db)
    else if bool_decide (id ∈ o_id <$> db.(owners)) then
      (Ok id,
       set_owners ((λ r, if bool_decide (o_id r = id)
         then {| o_id := id; o_name := name; o_email := email; o_role := role;
                 o_state := r.(o_state); o_password_hash := password_hash;
                 o_created_at := r.(o_created_at) |}
         else r) <$> db.(owners)) db)
    else
      (Ok id,
       set_owners (db.(owners) ++
         [{| o_id := id; o_name := name; o_email := email; o_role := role;
             o_state := "active"; o_password_hash := password_hash;
             o_created_at := Some created_at |}]) db)).

Definition get_owner_role (id : string) (db : ConfigDb) : option string :=
  o_role <$> head (filter (λ r, o_id r = id) db.(owners)).

(** ** Opening a database *)

(** [GROUP BY ... HAVING COUNT( * ) > 1]. *)
Definition duplicated (l : list string) : list string :=
  filter (λ x, (1 < length (filter (λ y, y = x) l))%nat) (remove_dups l).

Definition reject_duplicate_identities (db : ConfigDb) : result unit :=
  let dup_names := duplicated (o_name <$> db.(owners)) in
  let dup_emails := duplicated (omap o_email db.(owners)) in
  if bool_decide (dup_names = [] ∧ dup_emails = []) then Ok tt
  else raise ConfigError "cannot enforce owner identity uniqueness".

(** [sources_pk] lists the primary key columns of an existing [sources]
    table, empty when there is none. *)
Definition open_store (sources_pk : list string) (db : ConfigDb) : result ConfigDb :=
  if bool_decide (sources_pk = ["source_id"])
  then raise ConfigError "config.db predates schema 5 (source_id without owner)"
  else let? _ := reject_duplicate_identities db in Ok db.

End Config.

(** * Invariant *)

Record wf (db : ConfigDb) : Prop := {
  wf_sites : NoDup (t_name <$> db.(site_rows));
  wf_products : NoDup (Config.product_key_of <$> db.(product_rows));
  wf_sources : NoDup (Config.source_key_of <$> db.(source_rows));
  wf_triples : NoDup (Config.source_triple_of <$> db.(source_rows));
  wf_fk_product : ∀ r, r ∈ db.(source_rows) →
    (s_owner r, s_key r) ∈ Config.product_key_of <$> db.(product_rows);
  wf_fk_site : ∀ r, r ∈ db.(source_rows) → s_site r ∈ t_name <$> db.(site_rows);
  wf_jobs : NoDup (j_id <$> db.(job_rows));
  wf_names : NoDup (Config.job_name_of <$> db.(job_rows));
  wf_options : ∀ r, r ∈ db.(job_rows) → is_ok (parse_job_options (j_options r)) = true;
  wf_links : NoDup (Config.link_key_of <$> db.(link_rows));
  wf_fk_source : ∀ l, l ∈ db.(link_rows) →
    (l_owner l, l_source l) ∈ Config.source_key_of <$> db.(source_rows);
  wf_fk_job : ∀ l, l ∈ db.(link_rows) →
    ∃ r, r ∈ db.(job_rows) ∧ j_id r = l_job l ∧ j_owner r = l_owner l;
}.

(** The write operations as data. *)
Inductive cmd :=
| AddSite (s : SiteConfig)
| AddProduct (owner : string) (p : Product)
| AddSource (owner : string) (s : ProductSource)
| RemoveSource (owner source : string)
| RemoveProduct (owner key : string)
| CreateJob (owner : string) (j : DigestJob) (source_ids : list string)
| UpdateJob (owner job : string) (j : DigestJob)
| DeleteJob (owner job : string)
| AddJobSource (owner job source : string)
| RemoveJobSource (owner job source : string).

Definition exec (c : cmd) (db : ConfigDb) : ConfigDb :=
  match c with
  | AddSite s => snd (Config.add_site s db)
  | AddProduct o p => snd (Config.add_product o p db)
  | AddSource o s => snd (Config.add_source o s db)
  | RemoveSource o s => snd (Config.remove_source o s db)
  | RemoveProduct o k => snd (Config.remove_product o k db)
  | CreateJob o j ids => snd (Config.create_job o j ids db)
  | UpdateJob o i j => snd (Config.update_job o i j db)
  | DeleteJob o i => snd (Config.delete_job o i db)
  | AddJobSource o i s => snd (Config.add_job_source o i s db)
  | RemoveJobSource o i s => snd (Config.remove_job_source o i s db)
  end.

(** The options a client stores passed [parse_job_options]. *)
Definition cmd_ok (c : cmd) : Prop :=
  match c with
  | CreateJob _ j _ | UpdateJob _ _ j => valid_options j.(job_options) = true
  | _ => True
  end.

(** The owner a command acts for; the site catalogue belongs to nobody. *)
Definition cmd_owner (c : cmd) : option string :=
  match c with
  | AddSite _ => None
  | AddProduct o _ | AddSource o _ | RemoveSource o _ | RemoveProduct o _
  | CreateJob o _ _ | UpdateJob o _ _ | DeleteJob o _ | AddJobSource o _ _
  | RemoveJobSource o _ _ => Some o
  end.

(** Everything the database holds for one owner. *)
Definition tenant (o : string) (db : ConfigDb) : list ProductRow * list SourceRow * list JobRow * list LinkRow :=
  (filter (λ r, p_owner r = o) db.(product_rows),
   filter (λ r, s_owner r = o) db.(source_rows),
   filter (λ r, j_owner r = o) db.(job_rows),
   filter (λ r, l_owner r = o) db.(link_rows)).

Section Lemmas.

Lemma op_snd {A} (m : M ConfigDb A) db (P : ConfigDb → Prop) :
  P db → (∀ a db', m db = (Ok a, db') → P db') → P (snd (op m db)).
Proof. intros Hdb Hm. unfold op. destruct (m db) as [[a|e] db'] eqn:E; [by eapply Hm|done]. Qed.

Lemma NoDup_fmap_inj_in {A B} (f : A → B) (l : list A) x y :
  NoDup (f <$> l) → x ∈ l → y ∈ l → f x = f y → x = y.
Proof.
  induction l as [|z l IH]; [by intros _ ?%elem_of_nil|].
  rewrite fmap_cons, NoDup_cons, !elem_of_cons. intros [Hz Hl] [->|Hx] [->|Hy] E; auto.
  - exfalso. apply Hz. rewrite E. by apply list_elem_of_fmap_2.
  - exfalso. apply Hz. rewrite <- E. by apply list_elem_of_fmap_2.
Qed.

Lemma NoDup_fmap_filter {A B} (f : A → B) (P : A → Prop) `{∀ x, Decision (P x)} (l : list A) :
  NoDup (f <$> l) → NoDup (f <$> filter P l).
Proof.
  induction l as [|x l IH]; [done|]. rewrite fmap_cons, NoDup_cons, filter_cons.
  intros [Hx Hl]. case_decide; [|auto]. rewrite fmap_cons, NoDup_cons. split; [|auto].
  intros (y&Hy&Hin)%list_elem_of_fmap. apply Hx.
  apply list_elem_of_filter in Hin as [_ Hin]. apply list_elem_of_fmap. by exists y.
Qed.

Lemma NoDup_snoc {A} (l : list A) x : NoDup l → x ∉ l → NoDup (l ++ [x]).
Proof.
  intros Hl Hx. apply NoDup_app. split_and!; [done| |apply NoDup_singleton].
  intros y Hy ->%list_elem_of_singleton. done.
Qed.

(** Rewriting some rows in place keeps a column the rewriting keeps. *)
Lemma fmap_update {A B} (f : A → B) (b : A → bool) (g : A → A) (l : list A) :
  (∀ x, b x = true → f (g x) = f x) →
  f <$> ((λ x, if b x then g x else x) <$> l) = f <$> l.
Proof.
  intros Hf. rewrite <- list_fmap_compose. apply list_fmap_ext.
  intros i x _. simpl. destruct (b x) eqn:E; auto.
Qed.

Lemma elem_of_update {A} (b : A → bool) (g : A → A) (l : list A) x :
  x ∈ ((λ x, if b x then g x else x) <$> l) →
  ∃ y, y ∈ l ∧ (x = y ∧ b y = false ∨ x = g y ∧ b y = true).
Proof.
  intros (y&->&Hy)%list_elem_of_fmap. exists y. split; [done|].
  destruct (b y); auto.
Qed.

(** Rewriting the one row [b] selects to a value no other row has. *)
Lemma NoDup_update_one {A B} (f : A → B) (b : A → bool) (y : B) (l : list A) :
  NoDup (f <$> l) → NoDup l → (∀ x x', x ∈ l → x' ∈ l → b x = true → b x' = true → x = x') →
  (∀ x, x ∈ l → b x = false → f x ≠ y) →
  NoDup ((λ x, if b x then y else f x) <$> l).
Proof.
  induction l as [|x l IH]; [intros; constructor|].
  rewrite !fmap_cons, !NoDup_cons. intros [Hx Hl] [Hxl Hnd] Hb Hy. split.
  - intros (x'&E&Hx')%list_elem_of_fmap. destruct (b x) eqn:Ex, (b x') eqn:Ex'.
    + apply Hxl. rewrite (Hb x x'); [done|left|by right|done|done].
    + apply (Hy x'); [by right|done..].
    + apply (Hy x); [left|done..].
    + apply Hx. apply list_elem_of_fmap. by exists x'.
  - apply IH; [done|done| |].
    + intros a a' Ha Ha'. apply Hb; by right.
    + intros a Ha. apply Hy. by right.
Qed.

Lemma NoDup_omap_update_one {A B} (f : A → option B) (b : A → bool) (y : option B) (l : list A) :
  NoDup (omap f l) → NoDup l → (∀ x x', x ∈ l → x' ∈ l → b x = true → b x' = true → x = x') →
  (∀ x, x ∈ l → b x = false → y ≠ None → f x ≠ y) →
  NoDup (omap (λ x, if b x then y else f x) l).
Proof.
  induction l as [|x l IH]; [intros; constructor|].
  rewrite NoDup_cons. intros Hx [Hxl Hnd] Hb Hy.
  assert (NoDup (omap (λ x, if b x then y else f x) l)) as Hrest.
  { apply IH; [|done| |].
    - simpl in Hx. destruct (f x); [by apply NoDup_cons in Hx as [_ ?]|done].
    - intros a a' Ha Ha'. apply Hb; by right.
    - intros a Ha. apply Hy. by right. }
  simpl. destruct (if b x then y else f x) as [z|] eqn:Ez; [|done].
  constructor; [|done]. rewrite list_elem_of_omap. intros (x'&Hx'&E).
  destruct (b x) eqn:Ex, (b x') eqn:Ex'.
  - apply Hxl. rewrite (Hb x x'); [done|left|by right|done|done].
  - apply (Hy x'); [by right|done|by rewrite Ez|congruence].
  - apply (Hy x); [left|done|by rewrite E|congruence].
  - simpl in Hx. rewrite Ez in Hx. apply NoDup_cons in Hx as [Hx _]. apply Hx.
    apply list_elem_of_omap. eauto.
Qed.

Lemma omap_fmap_ext {A B C} (f : B → option C) (g : A → B) (h : A → option C) (l : list A) :
  (∀ x, f (g x) = h x) → omap f (g <$> l) = omap h l.
Proof.
  intros Hf. induction l as [|x l IH]; [done|]. rewrite fmap_cons. simpl.
  rewrite Hf. destruct (h x); [f_equal|]; exact IH.
Qed.

(** The row with a given key is the first one with that key. *)
Lemma head_filter_key {A B} `{EqDecision B} (f : A → B) (l : list A) x k :
  NoDup (f <$> l) → x ∈ l → f x = k → head (filter (λ y, f y = k) l) = Some x.
Proof.
  intros Hnd Hx <-. destruct (filter _ l) as [|y l'] eqn:E.
  - assert (x ∈ filter (λ y, f y = f x) l) as Hin by (by apply list_elem_of_filter).
    rewrite E in Hin. by apply elem_of_nil in Hin.
  - simpl. f_equal. assert (y ∈ y :: l') as Hy by left. rewrite <- E in Hy.
    apply list_elem_of_filter in Hy as [? Hy]. by eapply (NoDup_fmap_inj_in f).
Qed.

Lemma elem_of_key {A B} (f : A → B) (l : list A) x : x ∈ l → f x ∈ f <$> l.
Proof. apply list_elem_of_fmap_2. Qed.

Lemma config_wf_empty : wf empty_config_db.
Proof. split; simpl; try constructor; try set_solver. Qed.

(** ** The two compound updates *)

Lemma wf_delete_sources (P : SourceRow → Prop) `{∀ r, Decision (P r)} db :
  wf db → wf (Config.delete_sources P db).
Proof.
  intros Hw. destruct Hw. unfold Config.delete_sources.
  split; simpl; try done; eauto using NoDup_fmap_filter.
  - intros r [_ Hr]%list_elem_of_filter. auto.
  - intros r [_ Hr]%list_elem_of_filter. auto.
  - intros l [Hl Hin]%list_elem_of_filter. specialize (wf_fk_source0 l Hin).
    apply list_elem_of_fmap in wf_fk_source0 as (r&Heq&Hr).
    rewrite Heq. apply elem_of_key. apply list_elem_of_filter. split; [|done].
    intros HP. apply Hl. rewrite Heq. apply elem_of_key. by apply list_elem_of_filter.
  - intros l [_ Hin]%list_elem_of_filter. auto.
Qed.

Lemma wf_link_source owner job source db :
  wf db → (∃ r, r ∈ db.(job_rows) ∧ j_id r = job ∧ j_owner r = owner) →
  wf (snd (Config.link_source owner job source db)).
Proof.
  intros Hw Hj. unfold Config.link_source. case_bool_decide as Hc; [|done].
  destruct Hc as [Hs Hl]. destruct Hw. split; simpl; try done.
  - rewrite fmap_app. by apply NoDup_snoc.
  - intros l [Hin|Hin%list_elem_of_singleton]%elem_of_app; subst; auto.
  - intros l [Hin|Hin%list_elem_of_singleton]%elem_of_app; subst; auto.
Qed.

Lemma link_source_frame owner job source db :
  let db' := snd (Config.link_source owner job source db) in
  db'.(owners) = db.(owners) ∧ db'.(site_rows) = db.(site_rows) ∧
  db'.(product_rows) = db.(product_rows) ∧ db'.(source_rows) = db.(source_rows) ∧
  db'.(job_rows) = db.(job_rows).
Proof. unfold Config.link_source. by case_bool_decide. Qed.

Lemma link_sources_frame owner job ids db :
  let db' := snd (Config.link_sources owner job ids db) in
  db'.(owners) = db.(owners) ∧ db'.(site_rows) = db.(site_rows) ∧
  db'.(product_rows) = db.(product_rows) ∧ db'.(source_rows) = db.(source_rows) ∧
  db'.(job_rows) = db.(job_rows).
Proof.
  revert db. induction ids as [|s ids IH]; intros db; simpl; [done|].
  pose proof (link_source_frame owner job s db) as H.
  destruct (Config.link_source owner job s db) as [ok db1]. specialize (IH db1).
  destruct (Config.link_sources owner job ids db1) as [linked db2]. simpl in *.
  destruct IH as (->&->&->&->&->). done.
Qed.

Lemma wf_link_sources owner job ids db :
  wf db → (∃ r, r ∈ db.(job_rows) ∧ j_id r = job ∧ j_owner r = owner) →
  wf (snd (Config.link_sources owner job ids db)).
Proof.
  revert db. induction ids as [|s ids IH]; intros db Hw Hj; simpl; [done|].
  pose proof (wf_link_source owner job s db Hw Hj) as H.
  destruct (link_source_frame owner job s db) as (_&_&_&_&Hjobs).
  destruct (Config.link_source owner job s db) as [ok db1]. simpl in *.
  specialize (IH db1 H). rewrite Hjobs in IH. specialize (IH Hj).
  by destruct (Config.link_sources owner job ids db1).
Qed.

Lemma find_job_Some owner job db r :
  Config.find_job owner job db = Some r → r ∈ db.(job_rows) ∧ j_owner r = owner ∧ j_id r = job.
Proof.
  unfold Config.find_job. intros H%head_Some_elem_of.
  apply list_elem_of_filter in H. tauto.
Qed.
End Lemmas.

Section Invariant.

Lemma wf_add_site s db : wf db → wf (exec (AddSite s) db).
Proof.
  intros Hw. unfold exec, Config.add_site. apply op_snd; [done|].
  intros [] db' [= <-]. case_bool_decide as Hin; destruct Hw; split; simpl; try done.
  - by rewrite fmap_update by (intros x ?%bool_decide_eq_true; done).
  - intros r Hr. rewrite fmap_update by (intros x ?%bool_decide_eq_true; done). auto.
  - rewrite fmap_app. by apply NoDup_snoc.
  - intros r Hr. rewrite fmap_app. apply elem_of_app. left. auto.
Qed.

Lemma wf_add_product o p db : wf db → wf (exec (AddProduct o p) db).
Proof.
  intros Hw. unfold exec, Config.add_product. apply op_snd; [done|].
  intros [] db' [= <-]. case_bool_decide as Hin; destruct Hw; split; simpl; try done.
  - by rewrite fmap_update by (intros x ?%bool_decide_eq_true; done).
  - intros r Hr. rewrite fmap_update by (intros x ?%bool_decide_eq_true; done). auto.
  - rewrite fmap_app. by apply NoDup_snoc.
  - intros r Hr. rewrite fmap_app. apply elem_of_app. left. auto.
Qed.

Lemma wf_add_source o s db : wf db → wf (exec (AddSource o s) db).
Proof.
  intros Hw. unfold exec, Config.add_source. apply op_snd; [done|].
  intros [] db' H. repeat case_bool_decide; simplify_eq; [done|].
  match goal with Hfk : _ ∈ _ ∧ _ ∈ _ |- _ => destruct Hfk end.
  destruct Hw; split; simpl; try done.
  - rewrite fmap_app. by apply NoDup_snoc.
  - rewrite fmap_app. by apply NoDup_snoc.
  - intros r [Hr|Hr%list_elem_of_singleton]%elem_of_app; subst; auto.
  - intros r [Hr|Hr%list_elem_of_singleton]%elem_of_app; subst; auto.
  - intros l Hl. rewrite fmap_app. apply elem_of_app. left. auto.
Qed.

Lemma wf_remove_source o s db : wf db → wf (exec (RemoveSource o s) db).
Proof.
  intros Hw. unfold exec, Config.remove_source. apply op_snd; [done|].
  intros [] db' [= <-]. by apply wf_delete_sources.
Qed.

Lemma wf_remove_product o k db : wf db → wf (exec (RemoveProduct o k) db).
Proof.
  intros Hw. unfold exec, Config.remove_product. apply op_snd; [done|].
  intros [] db' H. case_bool_decide; simplify_eq.
  pose proof (wf_delete_sources (λ r, s_owner r = o ∧ s_key r = k) db Hw) as Hd.
  destruct Hd. split; simpl in *; try done; eauto using NoDup_fmap_filter.
  intros r Hr. pose proof (wf_fk_product0 r Hr) as (p&Hp&Hin)%list_elem_of_fmap.
  rewrite Hp. apply elem_of_key. apply list_elem_of_filter. split; [|done].
  rewrite <- Hp. intros [= H1 H2]. apply list_elem_of_filter in Hr as [Hr _].
  by apply Hr.
Qed.

Lemma wf_create_job o j ids db :
  valid_options j.(job_options) = true → wf db → wf (exec (CreateJob o j ids) db).
Proof.
  intros Hv Hw. unfold exec, Config.create_job. apply op_snd; [done|].
  intros a db' H. case_bool_decide as Hc; [done|]. apply Decidable.not_or in Hc as [Hid Hnm].
  set (db1 := set_jobs _ db) in H.
  assert (wf db1) as Hw1.
  { destruct Hw. split; simpl; try done.
    - rewrite fmap_app. by apply NoDup_snoc.
    - rewrite fmap_app. by apply NoDup_snoc.
    - intros r [Hr|Hr%list_elem_of_singleton]%elem_of_app; subst; [auto|]. simpl.
      by rewrite dump_options_parse.
    - intros l Hl. destruct (wf_fk_job0 l Hl) as (r&?&?). exists r.
      split; [|done]. apply elem_of_app. by left. }
  pose proof (wf_link_sources o (job_id j) ids db1 Hw1) as Hl.
  destruct (Config.link_sources o (job_id j) ids db1) as [linked db2]. simplify_eq.
  apply Hl. exists (job_to_row o j). split; [|done]. apply elem_of_app. right. left.
Qed.

Lemma wf_update_job o i j db :
  valid_options j.(job_options) = true → wf db → wf (exec (UpdateJob o i j) db).
Proof.
  intros Hv Hw. unfold exec, Config.update_job. apply op_snd; [done|].
  intros a db' H. case_bool_decide as Hhit; [|done].
  case_bool_decide as Hc; simplify_eq. destruct Hw. split; simpl; try done.
  - by rewrite fmap_update by done.
  - assert (∀ l : list JobRow,
      Config.job_name_of <$> ((λ r, if bool_decide (j_owner r = o ∧ j_id r = i)
                                    then Config.updated_row j r else r) <$> l)
      = (λ r, if bool_decide (j_owner r = o ∧ j_id r = i)
              then (o, job_name j) else Config.job_name_of r) <$> l) as ->.
    { intros l. rewrite <- list_fmap_compose. apply list_fmap_ext. intros ? r _. simpl.
      case_bool_decide as Hr; [|done]. unfold Config.job_name_of. simpl. by destruct Hr as [-> _]. }
    apply NoDup_update_one; [done|by eapply NoDup_fmap_1| |].
    + intros x x' Hx Hx' [_ E]%bool_decide_eq_true [_ E']%bool_decide_eq_true.
      eapply (NoDup_fmap_inj_in j_id); [done..|congruence].
    + intros x Hx E%bool_decide_eq_false Hn. apply Hc. apply Exists_exists. by exists x.
  - intros r (y&Hy&[[-> _]|[-> _]])%elem_of_update; [auto|]. simpl.
    by rewrite dump_options_parse.
  - intros l Hl. destruct (wf_fk_job0 l Hl) as (r&Hr&?&?).
    eexists. split; [by apply list_elem_of_fmap_2|]. by case_bool_decide.
Qed.

Lemma wf_delete_job o i db : wf db → wf (exec (DeleteJob o i) db).
Proof.
  intros Hw. unfold exec, Config.delete_job. apply op_snd; [done|].
  intros [] db' H. destruct (Config.find_job o i db) as [r|]; simplify_eq.
  destruct Hw. split; simpl; try done; eauto using NoDup_fmap_filter.
  - intros x [_ Hx]%list_elem_of_filter. auto.
  - intros l [_ Hl]%list_elem_of_filter. auto.
  - intros l [Hne Hl]%list_elem_of_filter. destruct (wf_fk_job0 l Hl) as (x&Hx&Hi&Ho).
    exists x. split; [|done]. apply list_elem_of_filter. split; [|done].
    intros [_ ?]. congruence.
Qed.

Lemma wf_add_job_source o i s db : wf db → wf (exec (AddJobSource o i s) db).
Proof.
  intros Hw. unfold exec, Config.add_job_source. apply op_snd; [done|].
  intros b db' H. destruct (Config.find_job o i db) as [r|] eqn:Hf; [|done].
  pose proof (wf_link_sources o i [s] db Hw) as Hl.
  destruct (Config.link_sources o i [s] db) as [linked db1]. simplify_eq.
  apply Hl. exists r. apply find_job_Some in Hf. naive_solver.
Qed.

Lemma wf_remove_job_source o i s db : wf db → wf (exec (RemoveJobSource o i s) db).
Proof.
  intros Hw. unfold exec, Config.remove_job_source. apply op_snd; [done|].
  intros [] db' [= <-]. destruct Hw. split; simpl; try done; eauto using NoDup_fmap_filter.
  - intros l [_ Hl]%list_elem_of_filter. auto.
  - intros l [_ Hl]%list_elem_of_filter. auto.
Qed.

Lemma wf_exec c db : cmd_ok c → wf db → wf (exec c db).
Proof.
  destruct c; intros; [apply wf_add_site | apply wf_add_product | apply wf_add_source
    | apply wf_remove_source | apply wf_remove_product | apply wf_create_job
    | apply wf_update_job | apply wf_delete_job | apply wf_add_job_source
    | apply wf_remove_job_source]; done.
Qed.
End Invariant.

(** * Tenants *)

Section Tenancy.

Lemma filter_update_other {A} (P : A → Prop) `{∀ x, Decision (P x)} (b : A → bool) g (l : list A) :
  (∀ x, x ∈ l → b x = true → ¬ P x ∧ ¬ P (g x)) →
  filter P ((λ x, if b x then g x else x) <$> l) = filter P l.
Proof.
  induction l as [|x l IH]; intros Hb; [done|].
  rewrite fmap_cons, !filter_cons. pose proof (Hb x ltac:(left)).
  rewrite IH by (intros; apply Hb; [by right|done]).
  destruct (b x); repeat case_decide; naive_solver.
Qed.

Lemma filter_snoc_other {A} (P : A → Prop) `{∀ x, Decision (P x)} (l : list A) x :
  ¬ P x → filter P (l ++ [x]) = filter P l.
Proof.
  intros Hx. rewrite filter_app, filter_cons_False by done. simpl. apply app_nil_r.
Qed.

Lemma filter_filter_other {A} (P Q : A → Prop)
    `{∀ x, Decision (P x)} `{∀ x, Decision (Q x)} (l : list A) :
  (∀ x, x ∈ l → P x → Q x) → filter P (filter Q l) = filter P l.
Proof.
  intros Hq. rewrite filter_filter'. apply filter_ext. intros x Hx.
  specialize (Hq x Hx). tauto.
Qed.

Lemma tenant_delete_sources (P : SourceRow → Prop) `{∀ r, Decision (P r)} o db :
  (∀ r, P r → s_owner r ≠ o) → tenant o (Config.delete_sources P db) = tenant o db.
Proof.
  intros HP. unfold tenant, Config.delete_sources. simpl.
  rewrite !filter_filter_other; [done| |].
  - intros l _ Ho (r&[= E1 E2]&Hr)%list_elem_of_fmap.
    apply list_elem_of_filter in Hr as [Hr _]. apply (HP r Hr). congruence.
  - intros r _ Ho Hr. by apply (HP r Hr).
Qed.

Lemma tenant_set_products l o db :
  filter (λ r, p_owner r = o) l = filter (λ r, p_owner r = o) db.(product_rows) →
  tenant o (set_products l db) = tenant o db.
Proof. intros H. unfold tenant. simpl. by rewrite H. Qed.

Lemma tenant_set_jobs l o db :
  filter (λ r, j_owner r = o) l = filter (λ r, j_owner r = o) db.(job_rows) →
  tenant o (set_jobs l db) = tenant o db.
Proof. intros H. unfold tenant. simpl. by rewrite H. Qed.

Lemma tenant_set_links l o db :
  filter (λ r, l_owner r = o) l = filter (λ r, l_owner r = o) db.(link_rows) →
  tenant o (set_links l db) = tenant o db.
Proof. intros H. unfold tenant. simpl. by rewrite H. Qed.

Lemma tenant_link_sources owner job ids o db :
  owner ≠ o → tenant o (snd (Config.link_sources owner job ids db)) = tenant o db.
Proof.
  intros Hne. revert db. induction ids as [|s ids IH]; intros db; simpl; [done|].
  destruct (Config.link_source owner job s db) as [ok db1] eqn:E1. specialize (IH db1).
  destruct (Config.link_sources owner job ids db1) as [linked db2]. simpl in *.
  rewrite IH. revert E1. unfold Config.link_source. case_bool_decide; intros [= <- <-]; [|done].
  unfold tenant. simpl. by rewrite filter_snoc_other.
Qed.

Lemma tenant_exec c o db :
  wf db → cmd_owner c ≠ Some o → tenant o (exec c db) = tenant o db.
Proof.
  intros Hw Ho.
  assert (∀ A (m : M ConfigDb A), (∀ a db', m db = (Ok a, db') → tenant o db' = tenant o db) →
            tenant o (snd (op m db)) = tenant o db) as Hop
    by (intros A m Hm; apply (op_snd m db (λ db', tenant o db' = tenant o db)); done).
  destruct c as [s|o1 p|o1 s|o1 s|o1 k|o1 j ids|o1 i j|o1 i|o1 i s|o1 i s];
    simpl in Ho; unfold exec.
  - apply Hop. intros [] db' [= <-]. by case_bool_decide.
  - apply Hop. intros [] db' [= <-]. case_bool_decide; unfold tenant; simpl.
    + rewrite filter_update_other; [done|]. intros x _ Hx%bool_decide_eq_true.
      injection Hx as E1 E2. split; simpl; congruence.
    + rewrite filter_snoc_other; [done|]. simpl. congruence.
  - apply Hop. intros [] db' H. repeat case_bool_decide; simplify_eq; [done|].
    unfold tenant. simpl. rewrite filter_snoc_other; [done|]. simpl. congruence.
  - apply Hop. intros [] db' [= <-]. apply tenant_delete_sources. naive_solver.
  - apply Hop. intros [] db' H. case_bool_decide; [|done]. injection H as <-.
    rewrite tenant_set_products; [apply tenant_delete_sources; naive_solver|].
    apply filter_filter_other. intros x _ Hx [= E1 E2]. congruence.
  - apply Hop. intros a db' H. case_bool_decide; [done|]. cbv zeta in H.
    match type of H with context [Config.link_sources ?a ?b ?c ?d] =>
      pose proof (tenant_link_sources a b c o d ltac:(congruence)) as Hl;
      destruct (Config.link_sources a b c d) as [linked db2] end.
    injection H as _ <-. simpl in Hl. etransitivity; [exact Hl|]. unfold tenant. simpl.
    rewrite filter_snoc_other; [done|]. simpl. congruence.
  - apply Hop. intros a db' H. cbv zeta in H.
    case_bool_decide; [|done]. case_bool_decide; [done|].
    injection H as _ <-. apply tenant_set_jobs, filter_update_other.
    intros x _ [E _]%bool_decide_eq_true. simpl. split; congruence.
  - apply Hop. intros [] db' H. destruct (Config.find_job o1 i db) as [r|] eqn:Hf; [|done].
    injection H as <-. rewrite tenant_set_links; [apply tenant_set_jobs, filter_filter_other; intros x _ Hx [E _]; congruence|].
    apply filter_filter_other. intros l Hl El Ej. apply find_job_Some in Hf as (Hr&Hro&Hri).
    destruct (wf_fk_job db Hw l Hl) as (r'&Hr'&Hi'&Ho').
    assert (r' = r) as -> by (eapply (NoDup_fmap_inj_in j_id); [apply Hw|done..|congruence]).
    congruence.
  - apply Hop. intros b db' H. destruct (Config.find_job o1 i db) as [r|] eqn:Hf; [|done].
    pose proof (tenant_link_sources o1 i [s] o db ltac:(congruence)) as Hl.
    destruct (Config.link_sources o1 i [s] db) as [linked db1]. by injection H as _ <-.
  - apply Hop. intros [] db' [= <-]. apply tenant_set_links, filter_filter_other.
    intros x _ Hx [E _]. congruence.
Qed.

(** A part of the database that linking and the writes of a command leave
    alone is left alone by the command. *)
Lemma link_sources_keep {A} (part : ConfigDb → A) o j ids db :
  (∀ l db, part (set_links l db) = part db) → part (snd (Config.link_sources o j ids db)) = part db.
Proof.
  intros Hl. revert db. induction ids as [| i ids IH]; intros d; [done |]. cbn [Config.link_sources].
  destruct (Config.link_source o j i d) as [ok d1] eqn:E. specialize (IH d1).
  destruct (Config.link_sources o j ids d1). cbn [snd] in *. rewrite IH.
  revert E. unfold Config.link_source. case_bool_decide; intros [= <- <-]; auto.
Qed.

Lemma exec_keep {A} (part : ConfigDb → A) c db :
  (∀ l db, part (set_links l db) = part db) → (∀ l db, part (set_jobs l db) = part db) →
  (∀ l db, part (set_sources l db) = part db) → (∀ l db, part (set_products l db) = part db) →
  (∀ s l, c = AddSite s → part (set_sites l db) = part db) →
  part (exec c db) = part db.
Proof.
  intros Hl Hj Hs Hp Ht.
  assert (Hop : ∀ B (m : M ConfigDb B),
    (∀ a db', m db = (Ok a, db') → part db' = part db) → part (snd (op m db)) = part db)
    by (intros B m Hm; apply (op_snd m db (λ db', part db' = part db)); done).
  destruct c as [s|o1 p|o1 s|o1 s|o1 k|o1 j ids|o1 i j|o1 i|o1 i s|o1 i s];
    apply Hop; intros x db' E; cbv zeta in E.
  - injection E as _ <-. case_bool_decide; by eapply Ht.
  - injection E as _ <-. by case_bool_decide.
  - repeat case_bool_decide; by simplify_eq.
  - injection E as _ <-. unfold Config.delete_sources. by rewrite Hl, Hs.
  - case_bool_decide; simplify_eq. unfold Config.delete_sources. by rewrite Hp, Hl, Hs.
  - case_bool_decide; [by simplify_eq |].
    pose proof (link_sources_keep part o1 (job_id j) ids
      (set_jobs (job_rows db ++ [job_to_row o1 j])%list db) Hl) as Hk.
    destruct (Config.link_sources _ _ _ _). injection E as _ <-. cbn in Hk. by rewrite Hk, Hj.
  - repeat case_bool_decide; by simplify_eq.
  - destruct (Config.find_job o1 i db); simplify_eq. by rewrite Hl, Hj.
  - destruct (Config.find_job o1 i db); [| by simplify_eq].
    pose proof (link_sources_keep part o1 i [s] db Hl) as Hk.
    destruct (Config.link_sources o1 i [s] db). by injection E as _ <-.
  - injection E as _ <-. by rewrite Hl.
Qed.

(** Only [add_site] writes the catalogue, and no command the owners. *)
Lemma site_rows_exec c db : (∀ s, c ≠ AddSite s) → site_rows (exec c db) = site_rows db.
Proof. intros Hs. apply exec_keep; try done. intros s l ->. by destruct (Hs s). Qed.

Lemma owners_exec c db : owners (exec c db) = owners db.
Proof. by apply exec_keep. Qed.

(** The tenant-facing reads look at nothing but the tenant's rows (and the
    shared catalogue of sites). *)
Lemma load_products_tenant o db db' :
  tenant o db' = tenant o db → Config.load_products o db' = Config.load_products o db.
Proof. intros [= E1 E2 _ _]. unfold Config.load_products. by rewrite E1, E2. Qed.

Lemma load_job_sources_tenant o i db db' :
  tenant o db' = tenant o db →
  Config.load_job_sources o i db' = Config.load_job_sources o i db.
Proof.
  intros [= _ _ _ E]. unfold Config.load_job_sources.
  assert (∀ l : list LinkRow, filter (λ r, l_owner r = o ∧ l_job r = i) l
               = filter (λ r, l_job r = i) (filter (λ r, l_owner r = o) l)) as Hf.
  { intros l. rewrite filter_filter'. apply filter_ext. tauto. }
  by rewrite !Hf, E.
Qed.

Lemma list_jobs_tenant o db db' :
  tenant o db' = tenant o db → fst (Config.list_jobs o db') = fst (Config.list_jobs o db).
Proof.
  intros E. assert (fst (Config.list_jobs o db') =
    Config.jobs_of_rows (sort_by (λ a b, str_leb (j_name a) (j_name b))
                           (filter (λ r, j_owner r = o) (job_rows db'))) db') as ->.
  { unfold Config.list_jobs, op. by destruct (Config.jobs_of_rows _ db'). }
  assert (fst (Config.list_jobs o db) =
    Config.jobs_of_rows (sort_by (λ a b, str_leb (j_name a) (j_name b))
                           (filter (λ r, j_owner r = o) (job_rows db))) db) as ->.
  { unfold Config.list_jobs, op. by destruct (Config.jobs_of_rows _ db). }
  pose proof E as [= _ _ Ej _]. rewrite Ej. unfold Config.jobs_of_rows.
  apply rmap_ext. intros r Hr. apply elem_of_sort_by, list_elem_of_filter in Hr as [<- _].
  by rewrite (load_job_sources_tenant (j_owner r) (j_id r) db db' E).
Qed.

End Tenancy.

(** * Loading *)

Definition source_of_row (r : SourceRow) : ProductSource :=
  {| source_id := r.(s_id); product_id := r.(s_key);
     source_site := r.(s_site); source_url := r.(s_url) |}.

Section Loading.

Lemma group_sources_go (rows : list SourceRow) (m : gmap string (list ProductSource)) k :
  default [] (foldl (λ m r, <[r.(s_key) := (default [] (m !! r.(s_key)) ++
      [source_of_row r])%list]> m) m rows !! k)
  = (default [] (m !! k) ++ (source_of_row <$> filter (λ r, s_key r = k) rows))%list.
Proof.
  revert m. induction rows as [|r rows IH]; intros m; simpl; [by rewrite app_nil_r|].
  rewrite IH, filter_cons. case_decide as Hk.
  - subst k. rewrite lookup_insert_eq. simpl. by rewrite <- app_assoc.
  - by rewrite lookup_insert_ne.
Qed.

Lemma group_sources_lookup rows k :
  default [] (Config.group_sources rows !! k)
  = source_of_row <$> filter (λ r, s_key r = k) rows.
Proof. unfold Config.group_sources. rewrite group_sources_go. by rewrite lookup_empty. Qed.

Lemma load_sites_lookup db r :
  wf db → r ∈ db.(site_rows) → Config.load_sites db !! t_name r = Some (row_to_site r).
Proof.
  intros Hw Hr. unfold Config.load_sites.
  apply (foldl_insert_lookup t_name row_to_site).
  - rewrite sort_by_perm. apply Hw.
  - by apply elem_of_sort_by.
Qed.

Lemma load_sites_inv db n s :
  Config.load_sites db !! n = Some s →
  ∃ r, r ∈ db.(site_rows) ∧ t_name r = n ∧ s = row_to_site r.
Proof.
  unfold Config.load_sites. intros H.
  apply (foldl_insert_inv t_name row_to_site) in H as [H|(r&Hr&?&?)].
  - by rewrite lookup_empty in H.
  - apply elem_of_sort_by in Hr. eauto.
Qed.

Lemma load_products_elem o db p s :
  (p, s) ∈ (Config.load_products o db ≫= λ p, pair p <$> p.(prod_sources)) ↔
  p ∈ Config.load_products o db ∧ s ∈ p.(prod_sources).
Proof.
  rewrite list_elem_of_bind. split.
  - intros (p'&Hin&Hp). apply list_elem_of_fmap in Hin as (s'&[= -> ->]&Hs). done.
  - intros [Hp Hs]. exists p. split; [|done]. apply list_elem_of_fmap. eauto.
Qed.

(** The sources a loaded product carries are its rows. *)
Lemma load_products_sources o db p s :
  p ∈ Config.load_products o db → s ∈ p.(prod_sources) →
  ∃ r, r ∈ db.(source_rows) ∧ s_owner r = o ∧ s_key r = p.(prod_id) ∧ s = source_of_row r.
Proof.
  unfold Config.load_products. intros (pr&->&Hpr)%list_elem_of_fmap. simpl.
  rewrite group_sources_lookup. intros (r&->&Hr)%list_elem_of_fmap.
  apply list_elem_of_filter in Hr as [Hk Hr]. apply elem_of_sort_by in Hr.
  apply list_elem_of_filter in Hr as [Ho Hr]. eauto.
Qed.

Lemma load_products_row o db r :
  wf db → r ∈ db.(source_rows) → s_owner r = o →
  ∃ p, p ∈ Config.load_products o db ∧ p.(prod_id) = s_key r ∧
       source_of_row r ∈ p.(prod_sources).
Proof.
  intros Hw Hr Ho. pose proof (wf_fk_product db Hw r Hr) as Hfk; apply list_elem_of_fmap in Hfk as (pr&Hk&Hpr).
  injection Hk as Hk1 Hk2. eexists. split.
  - unfold Config.load_products. apply list_elem_of_fmap. exists pr. split; [done|].
    apply elem_of_sort_by, list_elem_of_filter. split; [congruence|done].
  - simpl. split; [done|]. rewrite group_sources_lookup.
    apply list_elem_of_fmap. exists r. split; [done|].
    apply list_elem_of_filter. split; [done|].
    by apply elem_of_sort_by, list_elem_of_filter.
Qed.

Lemma load_iter_none o db :
  wf db →
  (iter_flat (Config.load_sites db)
     (Config.load_products o db ≫= λ p, pair p <$> prod_sources p)).2 = None.
Proof.
  intros Hw. apply iter_flat_ok. intros p s [Hp Hs]%load_products_elem.
  destruct (load_products_sources o db p s Hp Hs) as (r&Hr&_&_&->). simpl.
  pose proof (wf_fk_site db Hw r Hr) as Hfk; apply list_elem_of_fmap in Hfk as (t&->&Ht).
  rewrite (load_sites_lookup db t Hw Ht). eauto.
Qed.

Lemma iter_flat_complete m l p s site :
  (iter_flat m l).2 = None → (p, s) ∈ l → m !! s.(source_site) = Some site →
  (p, s, site) ∈ (iter_flat m l).1.
Proof.
  induction l as [|[p0 s0] l IH]; simpl; [by intros _ ?%elem_of_nil|].
  destruct (m !! source_site s0) as [site0|] eqn:E; [|done].
  destruct (iter_flat m l) as [items e]. simpl in *. intros He.
  rewrite !elem_of_cons. intros [[= -> ->]|Hin] Hm; [left; congruence|right; auto].
Qed.

End Loading.

(** * Properties *)

Definition run (cs : list cmd) (db : ConfigDb) : ConfigDb := foldl (λ db c, exec c db) db cs.

Lemma wf_run cs db : wf db → Forall cmd_ok cs → wf (run cs db).
Proof.
  intros Hw Hok. revert db Hw. induction Hok as [|c cs Hc _ IH]; intros db Hw; [done|].
  apply IH. by apply wf_exec.
Qed.

(** C32: The schema's integrity holds whatever sequence of commands runs,
    failures included: names, keys and ids stay unique, every source has its
    product and its site, every link has its source and a job of the same
    owner, and the options of every job can be read back. *)
Theorem config_store_invariant cs db :
  wf db → Forall cmd_ok cs → wf (run cs db).
Proof.
  intros Hw Hok. by apply wf_run.
Qed.

(** C2: Tenant isolation: a command of one owner, and an addition to the
    site catalogue, leave every other owner's products, sources, jobs and
    links row for row as they were, so what the other owner lists is
    unchanged, even when the command names the other owner's ids. *)
Theorem tenant_isolation c o db :
  wf db → cmd_owner c ≠ Some o →
  tenant o (exec c db) = tenant o db ∧
  Config.load_products o (exec c db) = Config.load_products o db ∧
  fst (Config.list_jobs o (exec c db)) = fst (Config.list_jobs o db).
Proof.
  intros Hw Ho. pose proof (tenant_exec c o db Hw Ho) as E.
  split_and!; [done|by apply load_products_tenant|by apply list_jobs_tenant].
Qed.

(** Loading an owner's registry never fails on a consistent database, and
    iterating over it yields exactly the owner's sources, each with its
    product and its own site, never raising for an unknown site. *)
Theorem load_exact o db :
  wf db →
  ∃ reg, Config.load o db = (Ok reg, db) ∧ (iter_sources reg).2 = None ∧
    (∀ p s site, (p, s, site) ∈ (iter_sources reg).1 →
       ∃ sr tr, sr ∈ db.(source_rows) ∧ s_owner sr = o ∧ s = source_of_row sr ∧
         prod_id p = s_key sr ∧ tr ∈ db.(site_rows) ∧ t_name tr = s_site sr ∧
         site = row_to_site tr) ∧
    (∀ sr, sr ∈ db.(source_rows) → s_owner sr = o →
       ∃ p tr, (p, source_of_row sr, row_to_site tr) ∈ (iter_sources reg).1 ∧
         prod_id p = s_key sr ∧ tr ∈ db.(site_rows) ∧ t_name tr = s_site sr).
Proof.
  intros Hw. eexists. split; [done|]. unfold iter_sources, product_sources. simpl.
  pose proof (load_iter_none o db Hw) as Hnone.
  split_and!; [done| |].
  - intros p s site [Hin Hsite]%iter_flat_keys.
    apply load_products_elem in Hin as [Hp Hs].
    destruct (load_products_sources o db p s Hp Hs) as (r&Hr&Ho&Hk&->). simpl in Hsite.
    destruct (load_sites_inv db _ _ Hsite) as (t&Ht&Hn&->). eauto 10.
  - intros sr Hsr Ho. destruct (load_products_row o db sr Hw Hsr Ho) as (p&Hp&Hk&Hin).
    pose proof (wf_fk_site db Hw sr Hsr) as Hfk; apply list_elem_of_fmap in Hfk as (t&Ht'&Ht).
    exists p, t. split_and!; [|done..]. apply iter_flat_complete; [done| |].
    + by apply load_products_elem.
    + simpl. rewrite Ht'. by apply load_sites_lookup.
Qed.

Section Jobs.

Definition mk_link (owner job source : string) : LinkRow :=
  {| l_owner := owner; l_job := job; l_source := source |}.

Lemma link_sources_spec owner job ids db :
  let '(linked, db') := Config.link_sources owner job ids db in
  db'.(link_rows) = (db.(link_rows) ++ (mk_link owner job <$> linked))%list ∧
  NoDup linked ∧
  ∀ s, s ∈ linked ↔ s ∈ ids ∧ (owner, s) ∈ Config.source_key_of <$> db.(source_rows) ∧
                     (job, s) ∉ Config.link_key_of <$> db.(link_rows).
Proof.
  revert db. induction ids as [|x ids IH]; intros db; simpl.
  { rewrite app_nil_r. split_and!; [done|constructor|set_solver]. }
  unfold Config.link_source. case_bool_decide as Hc.
  - specialize (IH (set_links (db.(link_rows) ++ [mk_link owner job x]) db)).
    destruct (Config.link_sources _ _ _ _) as [linked db2]. simpl in IH.
    destruct IH as (Hl&Hnd&Hin). rewrite fmap_app in Hin.
    assert (∀ s, (job, s) ∉ (Config.link_key_of <$> db.(link_rows)) ++
                  (Config.link_key_of <$> [mk_link owner job x]) ↔
                 (job, s) ∉ (Config.link_key_of <$> db.(link_rows)) ∧ s ≠ x) as Hnin.
    { intros s. rewrite not_elem_of_app. simpl. rewrite list_elem_of_singleton.
      unfold Config.link_key_of. simpl. naive_solver. }
    split_and!.
    + rewrite Hl. by rewrite <- app_assoc.
    + constructor; [|done]. rewrite Hin, Hnin. naive_solver.
    + intros s. rewrite !elem_of_cons, Hin, Hnin.
      destruct (decide (s = x)) as [->|]; naive_solver.
  - specialize (IH db). destruct (Config.link_sources _ _ _ _) as [linked db2].
    destruct IH as (Hl&Hnd&Hin). split_and!; [done|done|].
    intros s. rewrite Hin, elem_of_cons. destruct (decide (s = x)) as [->|]; [tauto|naive_solver].
Qed.

Lemma find_job_ok db r :
  wf db → r ∈ db.(job_rows) → Config.find_job (j_owner r) (j_id r) db = Some r.
Proof.
  intros Hw Hr. unfold Config.find_job.
  destruct (filter _ _) as [|x l] eqn:E.
  - assert (r ∈ filter (λ x, j_owner x = j_owner r ∧ j_id x = j_id r) db.(job_rows)) as Hin
      by (by apply list_elem_of_filter).
    rewrite E in Hin. by apply elem_of_nil in Hin.
  - simpl. f_equal. assert (x ∈ x :: l) as Hx by left. rewrite <- E in Hx.
    apply list_elem_of_filter in Hx as [[_ Hid] Hx].
    eapply (NoDup_fmap_inj_in j_id); [apply Hw|done..].
Qed.

(** The sources [load_job_sources] finds for a job nothing was linked to
    before. *)
Lemma load_job_sources_linked o job linked rest (l : list LinkRow) :
  job ∉ (l_job <$> l) →
  rest.(link_rows) = (l ++ (mk_link o job <$> linked))%list →
  Config.load_job_sources o job rest = sort_by str_leb linked.
Proof.
  intros Hfresh Hl. unfold Config.load_job_sources. rewrite Hl, filter_app.
  rewrite (filter_none _ l), filter_all; simpl.
  - f_equal. rewrite <- list_fmap_compose. by rewrite list_fmap_id.
  - intros x (s&->&_)%list_elem_of_fmap. done.
  - intros x Hx [_ Hj]. apply Hfresh. rewrite <- Hj. by apply elem_of_key.
Qed.
End Jobs.

(** Creating a job either refuses a taken id or name with [ConfigError]
    and changes nothing, or stores the job for the caller and links exactly
    the requested sources that belong to the caller: an id of somebody else's
    source, or of no source, is dropped silently.  The stored job is then what
    [get_job] reads back. *)
Theorem create_job_spec o j ids db :
  wf db → valid_options j.(job_options) = true →
  let db' := snd (Config.create_job o j ids db) in
  match fst (Config.create_job o j ids db) with
  | Raise e =>
      e = Config.name_conflict ∧ db' = db ∧
      (job_id j ∈ j_id <$> db.(job_rows) ∨ (o, job_name j) ∈ Config.job_name_of <$> db.(job_rows))
  | Ok j' =>
      j' = replace_job (job_id j) o (job_source_ids j') j ∧
      NoDup (job_source_ids j') ∧
      (∀ s, s ∈ job_source_ids j' ↔
            s ∈ ids ∧ (o, s) ∈ Config.source_key_of <$> db.(source_rows)) ∧
      Config.get_job o (job_id j) db' =
        (Ok (replace_job (job_id j) o (sort_by str_leb (job_source_ids j')) j), db')
  end.
Proof.
  intros Hw Hv. cbv zeta. pose proof (wf_create_job o j ids db Hv Hw) as Hw'.
  unfold exec in Hw'. unfold Config.create_job, op in *.
  case_bool_decide as Hc; [done|]. apply Decidable.not_or in Hc as [Hid Hnm].
  cbv zeta in *. set (db1 := set_jobs _ db) in *.
  pose proof (link_sources_spec o (job_id j) ids db1) as Hspec.
  pose proof (link_sources_frame o (job_id j) ids db1) as (_&_&_&_&Hjobs).
  destruct (Config.link_sources o (job_id j) ids db1) as [linked db2]. simpl in *.
  destruct Hspec as (Hl&Hnd&Hin).
  assert (job_id j ∉ (l_job <$> db.(link_rows))) as Hfresh.
  { intros (l&E&Hlk)%list_elem_of_fmap. destruct (wf_fk_job db Hw l Hlk) as (r&Hr&Hi&_).
    apply Hid. rewrite E, <- Hi. by apply elem_of_key. }
  split_and!; [done|done| |].
  - intros s. rewrite Hin. split; [tauto|]. intros [H1 H2]. split_and!; [done|done|].
    intros (l&E&Hlk)%list_elem_of_fmap. apply Hfresh. unfold Config.link_key_of in E.
    injection E as -> _. by apply elem_of_key.
  - unfold Config.get_job, op.
    assert (job_to_row o j ∈ db2.(job_rows)) as Hrow
      by (rewrite Hjobs; apply elem_of_app; right; left).
    pose proof (find_job_ok db2 _ Hw' Hrow) as Hf. simpl in Hf. rewrite Hf.
    rewrite (load_job_sources_linked o (job_id j) linked db2 db.(link_rows) Hfresh Hl).
    unfold row_to_job. simpl. rewrite dump_options_parse by done. simpl.
    unfold replace_job. by destruct (job_enabled j).
Qed.

(** ** Owners *)

Definition unique_identities (db : ConfigDb) : Prop :=
  NoDup (o_id <$> db.(owners)) ∧ NoDup (o_name <$> db.(owners)) ∧
  NoDup (omap o_email db.(owners)).

(** Nobody else has the name or the e-mail. *)
Definition identity_free (id name : string) (email : option string) (db : ConfigDb) : Prop :=
  ∀ r, r ∈ db.(owners) → o_id r ≠ id → o_name r ≠ name ∧ (email ≠ None → o_email r ≠ email).

Lemma no_conflict_free id name email db :
  ¬ Exists (Config.identity_conflict id name email) db.(owners) →
  identity_free id name email db.
Proof.
  intros Hconf r Hr Hne.
  split; intros; intros E; apply Hconf, Exists_exists; exists r;
    (split; [done|]); unfold Config.identity_conflict; tauto.
Qed.

(** Giving one owner a free identity, and adding an owner with one. *)
Lemma unique_update id name email (up : OwnerRow → OwnerRow) db :
  (∀ r, o_id (up r) = o_id r) →
  (∀ r, o_name (up r) = if bool_decide (o_id r = id) then name else o_name r) →
  (∀ r, o_email (up r) = if bool_decide (o_id r = id) then email else o_email r) →
  unique_identities db → identity_free id name email db →
  unique_identities (set_owners (up <$> db.(owners)) db).
Proof.
  intros Hid Hname Hemail (Hids&Hnames&Hemails) Hfree.
  assert (NoDup db.(owners)) as Hnd by (by eapply NoDup_fmap_1).
  assert (∀ x x', x ∈ owners db → x' ∈ owners db → bool_decide (o_id x = id) = true →
            bool_decide (o_id x' = id) = true → x = x') as Hone.
  { intros x x' Hx Hx' E%bool_decide_eq_true E'%bool_decide_eq_true.
    eapply (NoDup_fmap_inj_in o_id); [done..|congruence]. }
  unfold unique_identities. simpl. rewrite <- !list_fmap_compose. split_and!.
  - by rewrite (list_fmap_ext (o_id ∘ up) o_id) by (intros; apply Hid).
  - rewrite (list_fmap_ext (o_name ∘ up)
      (λ r, if bool_decide (o_id r = id) then name else o_name r)) by (intros; apply Hname).
    apply NoDup_update_one; [done..|].
    intros x Hx E%bool_decide_eq_false. by apply Hfree.
  - rewrite (omap_fmap_ext _ up (λ r, if bool_decide (o_id r = id) then email else o_email r))
      by apply Hemail.
    apply NoDup_omap_update_one; [done..|].
    intros x Hx E%bool_decide_eq_false He. by apply Hfree.
Qed.

Lemma unique_add new db :
  o_id new ∉ (o_id <$> db.(owners)) →
  unique_identities db → identity_free (o_id new) (o_name new) (o_email new) db →
  unique_identities (set_owners (db.(owners) ++ [new]) db).
Proof.
  intros Hin (Hids&Hnames&Hemails) Hfree.
  assert (∀ r, r ∈ db.(owners) → o_id r ≠ o_id new) as Hne
    by (intros r Hr E; apply Hin; rewrite <- E; by apply elem_of_key).
  unfold unique_identities. simpl. rewrite !fmap_app, omap_app. split_and!.
  - by apply NoDup_snoc.
  - apply NoDup_snoc; [done|]. intros (r&E&Hr)%list_elem_of_fmap. simpl in E.
    destruct (Hfree r Hr (Hne r Hr)). congruence.
  - simpl. destruct (o_email new) as [e|]; [|by rewrite app_nil_r].
    apply NoDup_snoc; [done|]. intros (r&Hr&E)%list_elem_of_omap.
    by apply (Hfree r Hr (Hne r Hr)).
Qed.

(** [ensure_owner] never lets two owners share a login: from unique ids,
    names and e-mails it either refuses with [ConfigError] and changes
    nothing, when another owner has the name or the e-mail, or leaves them
    unique and gives the owner the requested role. *)
Theorem ensure_owner_unique id name role email pw at_ db :
  unique_identities db →
  let db' := snd (Config.ensure_owner id name role email pw at_ db) in
  match fst (Config.ensure_owner id name role email pw at_ db) with
  | Raise e =>
      e.(exn_class) = ConfigError ∧ db' = db ∧
      Exists (Config.identity_conflict id name email) db.(owners)
  | Ok id' =>
      id' = id ∧ unique_identities db' ∧ Config.get_owner_role id db' = Some role ∧
      (∀ r, r ∈ db.(owners) → o_id r ≠ id → r ∈ db'.(owners))
  end.
Proof.
  intros Hu. cbv zeta. unfold Config.ensure_owner, op.
  case_bool_decide as Hconf; [done|]. apply no_conflict_free in Hconf as Hfree.
  case_bool_decide as Hin; simpl.
  - set (up := λ r, if bool_decide (o_id r = id) then _ else r).
    assert (unique_identities (set_owners (up <$> db.(owners)) db)) as Hu'.
    { apply (unique_update id name email); try done; intros r; unfold up; by case_bool_decide. }
    split_and!; [done|done| |].
    + apply list_elem_of_fmap in Hin as (r&->&Hr). unfold Config.get_owner_role. simpl.
      rewrite (head_filter_key o_id _ (up r) (o_id r)).
      * simpl. unfold up. by rewrite bool_decide_eq_true_2.
      * apply Hu'.
      * by apply list_elem_of_fmap_2.
      * unfold up. by rewrite bool_decide_eq_true_2.
    + intros r Hr Hne. apply list_elem_of_fmap. exists r. split; [|done].
      unfold up. by rewrite bool_decide_eq_false_2.
  - set (new := {| o_id := id |}).
    assert (unique_identities (set_owners (db.(owners) ++ [new]) db)) as Hu' by (by apply unique_add).
    split_and!; [done|done| |].
    + unfold Config.get_owner_role. simpl. rewrite (head_filter_key o_id _ new id); try done.
      * apply Hu'.
      * apply elem_of_app. right. left.
    + intros r Hr _. apply elem_of_app. by left.
Qed.

(** A database is opened only if its owners' names and e-mails are unique
    and its sources are keyed per owner; otherwise the opening fails with
    [ConfigError], before any write. *)
Theorem open_store_spec pk db :
  match Config.open_store pk db with
  | Ok db' => db' = db ∧ pk ≠ ["source_id"] ∧
              NoDup (o_name <$> db.(owners)) ∧ NoDup (omap o_email db.(owners))
  | Raise e => e.(exn_class) = ConfigError ∧
      (pk = ["source_id"] ∨ ¬ NoDup (o_name <$> db.(owners)) ∨ ¬ NoDup (omap o_email db.(owners)))
  end.
Proof.
  assert (∀ l, Config.duplicated l = [] ↔ NoDup l) as Hdup by (intros l; apply no_duplicates).
  unfold Config.open_store, Config.reject_duplicate_identities.
  case_bool_decide; [split; [done|by left]|].
  case_bool_decide as Hd; simpl; rewrite !Hdup in Hd; [naive_solver|].
  split; [done|]. right.
  destruct (decide (NoDup (o_name <$> owners db))); [right|by left]. tauto.
Qed.

(** * A concrete configuration *)

Module ConfigDemo.
Definition kabum : SiteConfig :=
  {| site_name := "kabum"; site_fetcher := "http";
     site_parser := {| spec_kind := "statejson"; spec_pix := Some "a.b";
                       spec_card := None; spec_availability := None |};
     site_domain := "kabum.com.br"; tier2_label := None; subresource_domains := [] |}.

Definition gpu : Product := {| prod_id := "gpu"; prod_name := Some "RTX"; prod_sources := [] |}.

Definition src : ProductSource :=
  {| source_id := "gpu:kabum:1"; product_id := "gpu"; source_site := "kabum";
     source_url := "https://kabum.com.br/p/1" |}.

Definition job : DigestJob :=
  {| job_id := "j1"; job_owner_id := "ana"; job_name := "daily";
     job_frequency_kind := "daily"; schedule_cron := "0 9 * * *";
     job_timezone := "UTC"; job_template_id := "default";
     job_options := default_options; job_enabled := true; job_created_at := None;
     job_source_ids := [] |}.

(** Two owners follow the same url: the same source id, twice. *)
Definition setup : list cmd :=
  [AddSite kabum; AddProduct "ana" gpu; AddSource "ana" src;
   AddProduct "bia" gpu; AddSource "bia" src].

Definition db : ConfigDb := run setup empty_config_db.

Lemma db_wf : wf db.
Proof.
  apply wf_run; [apply config_wf_empty|]. repeat constructor.
Qed.
End ConfigDemo.

Lemma config_store_invariant_witness :
  wf ConfigDemo.db ∧
  wf (run [CreateJob "ana" ConfigDemo.job ["gpu:kabum:1"]; RemoveProduct "ana" "gpu"] ConfigDemo.db).
Proof.
  split; [apply ConfigDemo.db_wf|]. apply config_store_invariant; [apply ConfigDemo.db_wf|].
  repeat constructor.
Defined.

Lemma tenant_isolation_witness :
  wf ConfigDemo.db ∧
  tenant "bia" (exec (RemoveSource "ana" "gpu:kabum:1") ConfigDemo.db) = tenant "bia" ConfigDemo.db ∧
  exec (RemoveSource "ana" "gpu:kabum:1") ConfigDemo.db ≠ ConfigDemo.db.
Proof.
  split; [apply ConfigDemo.db_wf|]. split.
  - apply (tenant_isolation (RemoveSource "ana" "gpu:kabum:1") "bia"); [apply ConfigDemo.db_wf|].
    discriminate.
  - vm_compute. discriminate.
Defined.

Lemma load_exact_witness :
  wf ConfigDemo.db ∧
  ∃ reg, Config.load "bia" ConfigDemo.db = (Ok reg, ConfigDemo.db) ∧ (iter_sources reg).2 = None ∧
         length (iter_sources reg).1 = 1%nat.
Proof.
  split; [apply ConfigDemo.db_wf|].
  destruct (load_exact "bia" _ ConfigDemo.db_wf) as (reg&H&Hn&_).
  exists reg. split; [exact H|split; [exact Hn|]].
  unfold Config.load, op in H. injection H as <-. vm_compute. reflexivity.
Defined.

(** Linking a source of one's own and an unknown one. *)
Lemma create_job_spec_witness :
  wf ConfigDemo.db ∧ valid_options default_options = true ∧
  Config.get_job "ana" "j1"
    (snd (Config.create_job "ana" ConfigDemo.job ["gpu:kabum:1"; "gpu:kabum:2"] ConfigDemo.db))
  = (Ok (replace_job "j1" "ana" ["gpu:kabum:1"] ConfigDemo.job),
     snd (Config.create_job "ana" ConfigDemo.job ["gpu:kabum:1"; "gpu:kabum:2"] ConfigDemo.db)).
Proof.
  split; [apply ConfigDemo.db_wf|split; [reflexivity|]].
  pose proof (create_job_spec "ana" ConfigDemo.job ["gpu:kabum:1"; "gpu:kabum:2"]
                ConfigDemo.db ConfigDemo.db_wf eq_refl) as H.
  cbv zeta in H.
  replace (fst (Config.create_job "ana" ConfigDemo.job ["gpu:kabum:1"; "gpu:kabum:2"] ConfigDemo.db))
    with (Ok (replace_job "j1" "ana" ["gpu:kabum:1"] ConfigDemo.job)) in H
    by (vm_compute; reflexivity).
  destruct H as (_&_&_&H). exact H.
Defined.

Lemma ensure_owner_unique_witness :
  unique_identities empty_config_db ∧
  Config.get_owner_role "1"
    (snd (Config.ensure_owner "1" "ana" "admin" (Some "a@x.br") None "t0" empty_config_db)) = Some "admin".
Proof.
  assert (unique_identities empty_config_db) as H by (repeat split; constructor).
  split; [exact H|].
  apply (ensure_owner_unique "1" "ana" "admin" (Some "a@x.br") None "t0" empty_config_db H).
Defined.
