(* ===== verification/DateTime.v ===== *)
(** The part of Python's [datetime] the program uses: UTC instants,
    [isoformat] and [fromisoformat], as CPython computes them.

    An instant is the number of microseconds since 0001-01-01T00:00:00 UTC;
    Python's range ends with the year 9999.  The stores compare timestamps as
    text, so what matters is that the textual order is the chronological
    one. *)

From S2P Require Import Prelude.

(** * The calendar *)

Definition is_leap (y : Z) : bool :=
  (y mod 4 =? 0) && (negb (y mod 100 =? 0) || (y mod 400 =? 0)).

Definition days_before_month_table (m : Z) : Z :=
  match m with
  | 2 => 31 | 3 => 59 | 4 => 90 | 5 => 120 | 6 => 151 | 7 => 181
  | 8 => 212 | 9 => 243 | 10 => 273 | 11 => 304 | 12 => 334 | _ => 0
  end.

Definition days_in_month_table (m : Z) : Z :=
  match m with
  | 2 => 28 | 4 | 6 | 9 | 11 => 30 | _ => 31
  end.

Definition days_in_month (y m : Z) : Z :=
  days_in_month_table m + (if (m =? 2) && is_leap y then 1 else 0).

Definition days_before_month (y m : Z) : Z :=
  days_before_month_table m + (if (2 <? m) && is_leap y then 1 else 0).

Definition days_before_year (y : Z) : Z :=
  let y := y - 1 in y * 365 + y / 4 - y / 100 + y / 400.

Definition ymd2ord (y m d : Z) : Z := days_before_year y + days_before_month y m + d.

(** Month and day of the [n]-th day of a year, from a first guess that is one
    month too far at most. *)
Definition month_day (leapyear : bool) (n : Z) : Z * Z :=
  let month := Z.shiftr (n + 50) 5 in
  let preceding := days_before_month_table month
                   + (if (2 <? month) && leapyear then 1 else 0) in
  if n <? preceding then
    (month - 1, n - (preceding - (days_in_month_table (month - 1)
                       + (if (month - 1 =? 2) && leapyear then 1 else 0))) + 1)
  else (month, n - preceding + 1).

Definition ord2ymd (n : Z) : Z * Z * Z :=
  let n := n - 1 in
  let n400 := n / 146097 in let n := n mod 146097 in
  let n100 := n / 36524 in let n := n mod 36524 in
  let n4 := n / 1461 in let n := n mod 1461 in
  let n1 := n / 365 in let n := n mod 365 in
  let year := n400 * 400 + 1 + n100 * 100 + n4 * 4 + n1 in
  if (n1 =? 4) || (n100 =? 4) then (year - 1, 12, 31)
  else
    let leapyear := (n1 =? 3) && (negb (n4 =? 24) || (n100 =? 3)) in
    let '(month, day) := month_day leapyear n in (year, month, day).

(** * Text *)

Definition digit (n : Z) : ascii := ascii_of_N (Z.to_N (48 + n)).

(** [f"{n:0wd}"] for [0 <= n < 10 ** w]. *)
Fixpoint pad (w : nat) (n : Z) : list ascii :=
  match w with
  | O => []
  | S w' => (pad w' (n / 10) ++ [digit (n mod 10)])%list
  end.

Definition US_PER_SECOND : Z := 1000000.
Definition US_PER_DAY : Z := 86400 * US_PER_SECOND.
Definition MAX_ORDINAL : Z := 3652059.

Definition valid_instant (t : Z) : Prop := 0 ≤ t < MAX_ORDINAL * US_PER_DAY.

(** The fields of an instant: year, month, day, hour, minute, second,
    microsecond. *)
Definition fields (t : Z) : list Z :=
  let '(y, m, d) := ord2ymd (t / US_PER_DAY + 1) in
  let secs := t mod US_PER_DAY / US_PER_SECOND in
  [y; m; d; secs / 3600; secs mod 3600 / 60; secs mod 60; t mod US_PER_SECOND].

Definition iso_fraction (us : Z) : list ascii :=
  if us =? 0 then [] else "."%char :: pad 6 us.

Definition iso_chars (t : Z) : list ascii :=
  match fields t with
  | [y; m; d; hh; mm; ss; us] =>
      (pad 4 y ++ "-"%char :: pad 2 m ++ "-"%char :: pad 2 d ++ "T"%char ::
       pad 2 hh ++ ":"%char :: pad 2 mm ++ ":"%char :: pad 2 ss ++
       iso_fraction us ++ chars "+00:00")%list
  | _ => []
  end.

(** [t.isoformat()] of an aware UTC datetime. *)
Definition isoformat (t : Z) : string := of_chars (iso_chars t).

(** ** Reading it back *)

Definition digit_value (c : ascii) : option Z :=
  let n := Z.of_N (N_of_ascii c) in
  if (48 <=? n) && (n <=? 57) then Some (n - 48) else None.

(** [w] digits off the front. *)
Fixpoint read_digits (w : nat) (acc : Z) (s : list ascii) : option (Z * list ascii) :=
  match w with
  | O => Some (acc, s)
  | S w' =>
      match s with
      | c :: s' => match digit_value c with
                   | Some v => read_digits w' (acc * 10 + v) s'
                   | None => None
                   end
      | [] => None
      end
  end.

Definition read_char (c : ascii) (s : list ascii) : option (list ascii) :=
  match s with
  | c' :: s' => if decide (c = c') then Some s' else None
  | [] => None
  end.

Definition check (b : bool) : option unit := if b then Some tt else None.

(** The offset, in minutes: [None] for a naive datetime. *)
Definition read_offset (s : list ascii) : option (option Z) :=
  match s with
  | [] => Some None
  | sign :: s' =>
      sgn ← (if decide (sign = "+"%char) then Some 1
             else if decide (sign = "-"%char) then Some (-1) else None);
      '(hh, s1) ← read_digits 2 0 s';
      s2 ← read_char ":"%char s1;
      '(mm, s3) ← read_digits 2 0 s2;
      _ ← check (bool_decide (s3 = []) && (hh <? 24) && (mm <? 60));
      Some (Some (sgn * (hh * 60 + mm)))
  end.

Definition read_fraction (s : list ascii) : option (Z * list ascii) :=
  match read_char "."%char s with
  | Some s' => read_digits 6 0 s'
  | None => Some (0, s)
  end.

Definition read_iso (s : list ascii) : option (Z * option Z) :=
  '(y, s) ← read_digits 4 0 s; s ← read_char "-"%char s;
  '(m, s) ← read_digits 2 0 s; s ← read_char "-"%char s;
  '(d, s) ← read_digits 2 0 s; s ← read_char "T"%char s;
  '(hh, s) ← read_digits 2 0 s; s ← read_char ":"%char s;
  '(mm, s) ← read_digits 2 0 s; s ← read_char ":"%char s;
  '(ss, s) ← read_digits 2 0 s;
  '(us, s) ← read_fraction s;
  offset ← read_offset s;
  _ ← check ((1 <=? y) && (1 <=? m) && (m <=? 12) && (1 <=? d) &&
             (d <=? days_in_month y m) && (hh <? 24) && (mm <? 60) && (ss <? 60));
  Some ((ymd2ord y m d - 1) * US_PER_DAY
        + (hh * 3600 + mm * 60 + ss) * US_PER_SECOND + us, offset).

(** [datetime.fromisoformat], on the texts [isoformat] produces, with or
    without an offset; a naive datetime is read as UTC, as [_parse_ts]
    does.  (The other ISO 8601 forms Python accepts are never stored.) *)
Definition parse_ts (s : string) : result Z :=
  match read_iso (chars s) with
  | Some (wall, Some offset) => Ok (wall - offset * 60 * US_PER_SECOND)
  | Some (wall, None) => Ok wall
  | None => raise ValueError "Invalid isoformat string"
  end.

Example iso_1 : isoformat 0 = "0001-01-01T00:00:00+00:00".
Proof. vm_compute. reflexivity. Qed.
Example iso_2 : isoformat (739682 * US_PER_DAY + 45296789001) = "2026-03-08T12:34:56.789001+00:00".
Proof. vm_compute. reflexivity. Qed.
Example iso_3 : parse_ts "2026-03-08T12:34:56.789001+00:00" = Ok (739682 * US_PER_DAY + 45296789001).
Proof. vm_compute. reflexivity. Qed.

(** * The calendar is a bijection *)

Definition valid_ymd (y m d : Z) : bool :=
  (1 <=? m) && (m <=? 12) && (1 <=? d) && (d <=? days_in_month y m).

Lemma valid_ymd_spec y m d :
  valid_ymd y m d = true ↔ 1 ≤ m ≤ 12 ∧ 1 ≤ d ≤ days_in_month y m.
Proof. unfold valid_ymd. rewrite !andb_true_iff, !Z.leb_le. tauto. Qed.

Lemma month_range m : 1 ≤ m ≤ 12 →
  m = 1 ∨ m = 2 ∨ m = 3 ∨ m = 4 ∨ m = 5 ∨ m = 6 ∨ m = 7 ∨ m = 8 ∨ m = 9 ∨ m = 10 ∨ m = 11 ∨ m = 12.
Proof. lia. Qed.

Ltac months H := destruct (month_range _ H) as
  [->|[->|[->|[->|[->|[->|[->|[->|[->|[->|[->| ->]]]]]]]]]]].

Section Calendar.

(** A year inside its 400-, 100- and 4-year cycles. *)
Lemma days_before_year_cycles n400 n100 n4 n1 :
  0 ≤ n100 ≤ 3 → 0 ≤ n4 ≤ 24 → 0 ≤ n1 ≤ 3 →
  days_before_year (n400 * 400 + 1 + n100 * 100 + n4 * 4 + n1)
  = n400 * 146097 + n100 * 36524 + n4 * 1461 + n1 * 365.
Proof.
  intros H100 H4 H1. unfold days_before_year.
  set (y := n400 * 400 + n100 * 100 + n4 * 4 + n1).
  replace (n400 * 400 + 1 + n100 * 100 + n4 * 4 + n1 - 1) with y by lia.
  rewrite <- (Z.div_unique y 4 (n400 * 100 + n100 * 25 + n4) n1) by lia.
  rewrite <- (Z.div_unique y 100 (n400 * 4 + n100) (n4 * 4 + n1)) by lia.
  rewrite <- (Z.div_unique y 400 n400 (n100 * 100 + n4 * 4 + n1)) by lia. lia.
Qed.

Lemma is_leap_cycles n400 n100 n4 n1 :
  0 ≤ n100 ≤ 3 → 0 ≤ n4 ≤ 24 → 0 ≤ n1 ≤ 3 →
  is_leap (n400 * 400 + 1 + n100 * 100 + n4 * 4 + n1)
  = (n1 =? 3) && (negb (n4 =? 24) || (n100 =? 3)).
Proof.
  intros H100 H4 H1. unfold is_leap.
  destruct (Z.eqb_spec n1 3), (Z.eqb_spec n4 24), (Z.eqb_spec n100 3); subst; simpl;
    repeat match goal with |- context [?a mod ?b =? 0] =>
      destruct (Z.eqb_spec (a mod b) 0) end; simpl; try done; exfalso;
    repeat match goal with
    | H : ?a mod ?b = 0 |- _ => apply Z.mod_divide in H as [? H]; [|lia]
    | H : ?a mod ?b ≠ 0 |- _ =>
        pose proof (Z.div_mod a b ltac:(lia)); pose proof (Z.mod_pos_bound a b ltac:(lia));
        apply H; clear H; lia
    end; lia.
Qed.

Definition month_ok (leap : bool) (n : Z) : bool :=
  let '(m, d) := month_day leap n in
  (1 <=? m) && (m <=? 12) && (1 <=? d)
  && (d <=? days_in_month_table m + (if (m =? 2) && leap then 1 else 0))
  && (days_before_month_table m + (if (2 <? m) && leap then 1 else 0) + d =? n + 1).

Fixpoint all_from (p : Z → bool) (count : nat) (n : Z) : bool :=
  match count with O => true | S c => p n && all_from p c (n + 1) end.

Lemma all_from_spec p count n x :
  all_from p count n = true → n ≤ x < n + Z.of_nat count → p x = true.
Proof.
  revert n. induction count as [|c IH]; intros n; simpl; [lia|].
  intros [Hn Hc]%andb_true_iff Hx. destruct (decide (x = n)) as [->|]; [done|].
  apply (IH (n + 1)); [done|lia].
Qed.

Lemma month_day_ok leap n : 0 ≤ n < 365 → month_ok leap n = true.
Proof.
  intros Hn. apply (all_from_spec (month_ok leap) 365 0); [|lia].
  by destruct leap; vm_compute.
Qed.

Lemma div_bounds a b c : 0 < b → 0 ≤ a < b * c → 0 ≤ a / b < c.
Proof. intros. split; [apply Z.div_pos; lia | apply Z.div_lt_upper_bound; lia]. Qed.

(** The two shapes [ord2ymd] answers with. *)
Lemma valid_from_table k n100 n4 n1 r m d :
  0 ≤ n100 ≤ 3 → 0 ≤ n4 ≤ 24 → 0 ≤ n1 ≤ 3 → 0 ≤ r < 365 →
  month_day ((n1 =? 3) && (negb (n4 =? 24) || (n100 =? 3))) r = (m, d) →
  let y := k * 400 + 1 + n100 * 100 + n4 * 4 + n1 in
  valid_ymd y m d = true ∧
  ymd2ord y m d = k * 146097 + n100 * 36524 + n4 * 1461 + n1 * 365 + r + 1.
Proof.
  intros H100 H4 H1 Hr E y. set (leap := _ && _) in E.
  pose proof (month_day_ok leap r Hr) as Hok. unfold month_ok in Hok. rewrite E in Hok.
  rewrite !andb_true_iff, Z.eqb_eq, !Z.leb_le in Hok. destruct Hok as [[[[Hm1 Hm2] Hd1] Hd2] Ho].
  assert (is_leap y = leap) as Hl by (by apply is_leap_cycles). split.
  - apply valid_ymd_spec. unfold days_in_month. rewrite Hl. lia.
  - unfold ymd2ord, days_before_month. rewrite Hl.
    unfold y at 1. rewrite days_before_year_cycles by done. lia.
Qed.

Lemma valid_dec31 k n100 n4 :
  0 ≤ n100 ≤ 3 → 0 ≤ n4 ≤ 24 → (n4 = 24 → n100 = 3) →
  let y := k * 400 + 1 + n100 * 100 + n4 * 4 + 3 in
  valid_ymd y 12 31 = true ∧
  ymd2ord y 12 31 = k * 146097 + n100 * 36524 + n4 * 1461 + 1461.
Proof.
  intros H100 H4 H24 y.
  assert (is_leap y = true) as Hl.
  { unfold y. rewrite is_leap_cycles by lia. simpl.
    destruct (Z.eqb_spec n4 24), (Z.eqb_spec n100 3); simpl; lia. }
  split; [apply valid_ymd_spec; unfold days_in_month; rewrite Hl; simpl; lia|].
  unfold ymd2ord, days_before_month. rewrite Hl.
  unfold y. rewrite days_before_year_cycles by lia. simpl. lia.
Qed.

Lemma ord2ymd_valid n y m d :
  ord2ymd n = (y, m, d) → 1 ≤ n → 1 ≤ y ∧ valid_ymd y m d = true ∧ ymd2ord y m d = n.
Proof.
  unfold ord2ymd. intros H Hn.
  pose proof (Z.div_mod (n - 1) 146097 ltac:(lia)) as D0.
  pose proof (Z.mod_pos_bound (n - 1) 146097 ltac:(lia)) as B0.
  assert (0 ≤ (n - 1) / 146097) as Hk by (apply Z.div_pos; lia).
  set (k := (n - 1) / 146097) in *. set (a := (n - 1) mod 146097) in *.
  pose proof (Z.div_mod a 36524 ltac:(lia)) as D1.
  pose proof (Z.mod_pos_bound a 36524 ltac:(lia)) as B1.
  pose proof (div_bounds a 36524 5 ltac:(lia) ltac:(lia)) as Q1.
  set (n100 := a / 36524) in *. set (b := a mod 36524) in *.
  pose proof (Z.div_mod b 1461 ltac:(lia)) as D2.
  pose proof (Z.mod_pos_bound b 1461 ltac:(lia)) as B2.
  pose proof (div_bounds b 1461 25 ltac:(lia) ltac:(lia)) as Q2.
  set (n4 := b / 1461) in *. set (c := b mod 1461) in *.
  pose proof (Z.div_mod c 365 ltac:(lia)) as D3.
  pose proof (Z.mod_pos_bound c 365 ltac:(lia)) as B3.
  pose proof (div_bounds c 365 5 ltac:(lia) ltac:(lia)) as Q3.
  set (n1 := c / 365) in *. set (r := c mod 365) in *.
  clearbody k a n100 b n4 c n1 r.
  destruct (Z.eqb_spec n1 4) as [->|H1]; [|destruct (Z.eqb_spec n100 4) as [->|H100]];
    simpl in H.
  - injection H as <- <- <-. assert (n100 ≤ 3) by lia.
    destruct (valid_dec31 k n100 n4) as [Hv Ho]; [lia..|].
    replace (k * 400 + 1 + n100 * 100 + n4 * 4 + 4 - 1)
      with (k * 400 + 1 + n100 * 100 + n4 * 4 + 3) by lia.
    split; [lia|split; [done|]]. rewrite Ho. lia.
  - injection H as <- <- <-. assert (n4 = 0 ∧ n1 = 0) as [-> ->] by lia.
    destruct (valid_dec31 k 3 24) as [Hv Ho]; [lia..|].
    replace (k * 400 + 1 + 4 * 100 + 0 * 4 + 0 - 1)
      with (k * 400 + 1 + 3 * 100 + 24 * 4 + 3) by lia.
    split; [lia|split; [done|]]. rewrite Ho. lia.
  - destruct (month_day _ r) as [m' d'] eqn:E. injection H as <- <- <-.
    destruct (valid_from_table k n100 n4 n1 r m' d') as [Hv Ho]; [lia..|done|].
    split; [lia|split; [done|]]. rewrite Ho. lia.
Qed.

(** *** Order *)

Lemma div_pred y b : 0 < b → (y - 1) / b = y / b - (if y mod b =? 0 then 1 else 0).
Proof.
  intros Hb. pose proof (Z.div_mod y b ltac:(lia)). pose proof (Z.mod_pos_bound y b Hb).
  destruct (Z.eqb_spec (y mod b) 0) as [E|E]; symmetry.
  - apply (Z.div_unique _ _ _ (b - 1)); lia.
  - apply (Z.div_unique _ _ _ (y mod b - 1)); lia.
Qed.

Lemma mod_mod_divisor y a b : 0 < a → 0 < b → y mod (a * b) = 0 → y mod a = 0.
Proof.
  intros Ha Hb H. apply Z.mod_divide in H as [q ->]; [|lia].
  replace (q * (a * b)) with (q * b * a) by lia. apply Z.mod_mul. lia.
Qed.

Lemma days_before_year_succ y :
  days_before_year (y + 1) = days_before_year y + 365 + (if is_leap y then 1 else 0).
Proof.
  unfold days_before_year, is_leap. replace (y + 1 - 1) with y by lia.
  rewrite !(div_pred y) by lia.
  pose proof (mod_mod_divisor y 4 25 ltac:(lia) ltac:(lia)).
  pose proof (mod_mod_divisor y 100 4 ltac:(lia) ltac:(lia)).
  change (4 * 25) with 100 in *. change (100 * 4) with 400 in *.
  destruct (Z.eqb_spec (y mod 4) 0), (Z.eqb_spec (y mod 100) 0), (Z.eqb_spec (y mod 400) 0);
    simpl; try lia; tauto.
Qed.

Lemma days_before_year_mono y y' : y ≤ y' → days_before_year y ≤ days_before_year y'.
Proof.
  intros Hy. replace y' with (y + Z.of_nat (Z.to_nat (y' - y))) by lia.
  induction (Z.to_nat (y' - y)) as [|k IH]; [rewrite Z.add_0_r; lia|].
  replace (y + Z.of_nat (S k)) with (y + Z.of_nat k + 1) by lia.
  rewrite days_before_year_succ. destruct (is_leap _); lia.
Qed.

Lemma day_of_year_bound y m d :
  valid_ymd y m d = true →
  1 ≤ days_before_month y m + d ≤ 365 + (if is_leap y then 1 else 0).
Proof.
  rewrite valid_ymd_spec. unfold days_in_month, days_before_month. intros [Hm Hd].
  months Hm; simpl in *; destruct (is_leap y); simpl in *; lia.
Qed.

Lemma month_step y m m' : 1 ≤ m < m' → m' ≤ 12 →
  days_before_month y m + days_in_month y m ≤ days_before_month y m'.
Proof.
  intros Hm Hm'. unfold days_in_month, days_before_month.
  assert (1 ≤ m ≤ 12) as H1 by lia. assert (1 ≤ m' ≤ 12) as H2 by lia.
  months H1; months H2; simpl; destruct (is_leap y); simpl; lia.
Qed.

(** The ordinal respects the lexicographic order of (year, month, day). *)
Lemma ymd2ord_mono y m d y' m' d' :
  valid_ymd y m d = true → valid_ymd y' m' d' = true →
  y < y' ∨ y = y' ∧ (m < m' ∨ m = m' ∧ d < d') → ymd2ord y m d < ymd2ord y' m' d'.
Proof.
  intros Hv Hv' [Hy | [<- [Hm | [<- Hd]]]].
  - pose proof (day_of_year_bound y m d Hv). pose proof (day_of_year_bound y' m' d' Hv').
    pose proof (days_before_year_mono (y + 1) y' ltac:(lia)) as H1.
    rewrite days_before_year_succ in H1. unfold ymd2ord. lia.
  - apply valid_ymd_spec in Hv as [? ?], Hv' as [? ?].
    pose proof (month_step y m m' ltac:(lia) ltac:(lia)). unfold ymd2ord. lia.
  - unfold ymd2ord. lia.
Qed.

Lemma ord2ymd_year_bound n y m d :
  ord2ymd n = (y, m, d) → 1 ≤ n ≤ MAX_ORDINAL → y ≤ 9999.
Proof.
  intros E [H1 H2]. destruct (ord2ymd_valid n y m d E H1) as (_&Hv&Ho).
  destruct (decide (y ≤ 9999)) as [|Hy]; [done|].
  pose proof (days_before_year_mono 10000 y ltac:(lia)) as Hm.
  change (days_before_year 10000) with MAX_ORDINAL in Hm.
  pose proof (day_of_year_bound y m d Hv). unfold ymd2ord in Ho. lia.
Qed.

End Calendar.

(** * Textual order *)

Section Text.

Definition text_lt (a b : list ascii) : Prop := str_lt (of_chars a) (of_chars b).

Lemma text_lt_cons c a b : text_lt (c :: a) (c :: b) ↔ text_lt a b.
Proof. unfold text_lt, str_lt, of_chars. simpl. by rewrite ascii_compare_refl. Qed.

Lemma text_lt_head c d a b : Ascii.compare c d = Lt → text_lt (c :: a) (d :: b).
Proof. unfold text_lt, str_lt, of_chars. simpl. by intros ->. Qed.

Lemma text_lt_app_l p a b : text_lt a b → text_lt (p ++ a) (p ++ b).
Proof. intros H. induction p as [|c p IH]; simpl; [done|]. by apply text_lt_cons. Qed.

Lemma text_lt_prefix p q a b : length p = length q → text_lt p q → text_lt (p ++ a) (q ++ b).
Proof.
  revert q. induction p as [|c p IH]; intros [|d q]; simpl; try done.
  intros [= Hlen]. unfold text_lt, str_lt, of_chars in *. simpl.
  destruct (Ascii.compare c d); [|done|done]. by apply IH.
Qed.

Lemma length_pad w n : length (pad w n) = w.
Proof. revert n. induction w; intros n; simpl; [done|]. rewrite length_app, IHw. simpl. lia. Qed.

Lemma digit_code n : 0 ≤ n < 10 → N_of_ascii (digit n) = Z.to_N (48 + n).
Proof. intros Hn. unfold digit. apply N_ascii_embedding. lia. Qed.

Lemma digit_lt n m : 0 ≤ n < m → m < 10 → Ascii.compare (digit n) (digit m) = Lt.
Proof.
  intros Hn Hm. unfold Ascii.compare. rewrite !digit_code by lia. apply N.compare_lt_iff. lia.
Qed.

Lemma pad_lt w n m : 0 ≤ n < m → m < 10 ^ Z.of_nat w → text_lt (pad w n) (pad w m).
Proof.
  revert n m. induction w as [|w IH]; intros n m Hn Hm; [simpl in Hm; lia|].
  replace (Z.of_nat (S w)) with (1 + Z.of_nat w) in Hm by lia.
  rewrite Z.pow_add_r in Hm by lia. change (10 ^ 1) with 10 in Hm. simpl.
  pose proof (Z.div_mod n 10 ltac:(lia)). pose proof (Z.mod_pos_bound n 10 ltac:(lia)).
  pose proof (Z.div_mod m 10 ltac:(lia)). pose proof (Z.mod_pos_bound m 10 ltac:(lia)).
  assert (0 ≤ n / 10) by (apply Z.div_pos; lia).
  assert (m / 10 < 10 ^ Z.of_nat w) by (apply Z.div_lt_upper_bound; lia).
  destruct (decide (n / 10 = m / 10)) as [E|].
  - rewrite E. apply text_lt_app_l, text_lt_head, digit_lt; lia.
  - apply text_lt_prefix; [by rewrite !length_pad|]. apply IH; lia.
Qed.

(** Two texts that start with a number of the same width. *)
Lemma text_lt_field w n m a b :
  0 ≤ n → 0 ≤ m < 10 ^ Z.of_nat w →
  n < m ∨ n = m ∧ text_lt a b → text_lt (pad w n ++ a) (pad w m ++ b).
Proof.
  intros Hn Hm [H|[-> H]]; [|by apply text_lt_app_l].
  apply text_lt_prefix; [by rewrite !length_pad|]. apply pad_lt; lia.
Qed.

Lemma text_lt_fraction us us' tl :
  0 ≤ us < us' → us' < US_PER_SECOND →
  text_lt (iso_fraction us ++ "+"%char :: tl) (iso_fraction us' ++ "+"%char :: tl).
Proof.
  intros H H'. unfold iso_fraction. rewrite (proj2 (Z.eqb_neq us' 0)) by lia.
  destruct (Z.eqb_spec us 0); simpl.
  - by apply text_lt_head.
  - apply text_lt_cons, (text_lt_field 6); simpl; unfold US_PER_SECOND in *; lia.
Qed.

(** The date part of [iso_chars]. *)
Lemma ord2ymd_lex n n' y m d y' m' d' :
  1 ≤ n < n' → ord2ymd n = (y, m, d) → ord2ymd n' = (y', m', d') →
  y < y' ∨ y = y' ∧ (m < m' ∨ m = m' ∧ d < d').
Proof.
  intros Hn E E'. destruct (ord2ymd_valid n y m d E ltac:(lia)) as (_&Hv&Ho).
  destruct (ord2ymd_valid n' y' m' d' E' ltac:(lia)) as (_&Hv'&Ho').
  destruct (Z.lt_total y y') as [|[->|Hy]]; [by left| |].
  - right. split; [done|]. destruct (Z.lt_total m m') as [|[->|Hm]]; [by left| |].
    + right. split; [done|]. unfold ymd2ord in *. lia.
    + pose proof (ymd2ord_mono y' m' d' y' m d Hv' Hv). lia.
  - pose proof (ymd2ord_mono y' m' d' y m d Hv' Hv). lia.
Qed.

(** Hours, minutes and seconds, and the microseconds. *)
Lemma time_lex s s' :
  0 ≤ s < s' → s' < 86400 →
  s / 3600 < s' / 3600 ∨ s / 3600 = s' / 3600 ∧
  (s mod 3600 / 60 < s' mod 3600 / 60 ∨ s mod 3600 / 60 = s' mod 3600 / 60 ∧
   s mod 60 < s' mod 60).
Proof.
  intros Hs Hs'.
  assert (∀ x, (x mod 3600) mod 60 = x mod 60) as Hmm
    by (intros x; apply Z.mod_mod_divide; by exists 60).
  pose proof (Z.div_mod s 3600 ltac:(lia)). pose proof (Z.mod_pos_bound s 3600 ltac:(lia)).
  pose proof (Z.div_mod s' 3600 ltac:(lia)). pose proof (Z.mod_pos_bound s' 3600 ltac:(lia)).
  pose proof (Z.div_mod (s mod 3600) 60 ltac:(lia)).
  pose proof (Z.div_mod (s' mod 3600) 60 ltac:(lia)).
  pose proof (Z.mod_pos_bound (s mod 3600) 60 ltac:(lia)).
  pose proof (Z.mod_pos_bound (s' mod 3600) 60 ltac:(lia)).
  rewrite <- (Hmm s), <- (Hmm s'). lia.
Qed.

Lemma time_bounds s : 0 ≤ s < 86400 →
  0 ≤ s / 3600 < 24 ∧ 0 ≤ s mod 3600 / 60 < 60 ∧ 0 ≤ s mod 60 < 60.
Proof.
  intros Hs. split_and!; try apply Z.div_pos; try apply Z.div_lt_upper_bound;
    try apply Z.mod_pos_bound; try lia;
    pose proof (Z.mod_pos_bound s 3600); try apply Z.mod_pos_bound; lia.
Qed.
End Text.

(** * Properties of [isoformat] *)

Section Iso.

(** The fields of a valid instant, named and bounded. *)
Lemma fields_valid t :
  valid_instant t →
  ∃ y m d hh mm ss us, fields t = [y; m; d; hh; mm; ss; us] ∧
    ord2ymd (t / US_PER_DAY + 1) = (y, m, d) ∧
    hh = t mod US_PER_DAY / US_PER_SECOND / 3600 ∧
    mm = t mod US_PER_DAY / US_PER_SECOND mod 3600 / 60 ∧
    ss = t mod US_PER_DAY / US_PER_SECOND mod 60 ∧ us = t mod US_PER_SECOND ∧
    1 ≤ y ≤ 9999 ∧ valid_ymd y m d = true ∧ ymd2ord y m d = t / US_PER_DAY + 1 ∧
    0 ≤ hh < 24 ∧ 0 ≤ mm < 60 ∧ 0 ≤ ss < 60 ∧ 0 ≤ us < US_PER_SECOND.
Proof.
  intros [Ht0 Ht]. unfold fields.
  assert (0 ≤ t / US_PER_DAY < MAX_ORDINAL) as Hd
    by (apply div_bounds; unfold US_PER_DAY, US_PER_SECOND in *; lia).
  pose proof (Z.mod_pos_bound t US_PER_DAY ltac:(done)) as Hm.
  assert (0 ≤ t mod US_PER_DAY / US_PER_SECOND < 86400) as Hs
    by (apply div_bounds; unfold MAX_ORDINAL, US_PER_DAY, US_PER_SECOND in *; lia).
  destruct (ord2ymd (t / US_PER_DAY + 1)) as [[y m] d] eqn:E.
  destruct (ord2ymd_valid _ _ _ _ E ltac:(lia)) as (Hy&Hv&Ho).
  pose proof (ord2ymd_year_bound _ _ _ _ E ltac:(lia)).
  destruct (time_bounds _ Hs) as (?&?&?).
  pose proof (Z.mod_pos_bound t US_PER_SECOND ltac:(done)).
  exists y, m, d. do 4 eexists. split_and!; try done; lia.
Qed.

Lemma day_bounds y m d : valid_ymd y m d = true → 1 ≤ m ≤ 12 ∧ 1 ≤ d ≤ 31.
Proof.
  rewrite valid_ymd_spec. intros [Hm Hd]. split; [done|]. unfold days_in_month in Hd.
  months Hm; simpl in *; destruct (is_leap y); simpl in *; lia.
Qed.

(** Two instants of the same day. *)
Lemma day_time_lex a a' :
  0 ≤ a < a' → a' < US_PER_DAY →
  let s := a / US_PER_SECOND in let s' := a' / US_PER_SECOND in
  s / 3600 < s' / 3600 ∨ s / 3600 = s' / 3600 ∧
  (s mod 3600 / 60 < s' mod 3600 / 60 ∨ s mod 3600 / 60 = s' mod 3600 / 60 ∧
   (s mod 60 < s' mod 60 ∨ s mod 60 = s' mod 60 ∧
    a mod US_PER_SECOND < a' mod US_PER_SECOND)).
Proof.
  intros Ha Ha' s s'.
  pose proof (Z.div_mod a US_PER_SECOND ltac:(done)).
  pose proof (Z.div_mod a' US_PER_SECOND ltac:(done)).
  pose proof (Z.mod_pos_bound a US_PER_SECOND ltac:(done)).
  pose proof (Z.mod_pos_bound a' US_PER_SECOND ltac:(done)).
  assert (0 ≤ s) by (apply Z.div_pos; lia).
  assert (s' < 86400) by (apply Z.div_lt_upper_bound; unfold US_PER_DAY, US_PER_SECOND in *; lia).
  fold s s' in H, H0. destruct (Z.lt_total s s') as [Hs|[Hs|Hs]].
  - pose proof (time_lex s s' ltac:(lia) ltac:(lia)). tauto.
  - rewrite Hs in *. assert (a mod US_PER_SECOND < a' mod US_PER_SECOND) by lia. tauto.
  - unfold US_PER_SECOND in *; lia.
Qed.

(** The fields of two instants, compared in order. *)
Lemma fields_lex t t' y m d y' m' d' :
  0 ≤ t < t' →
  ord2ymd (t / US_PER_DAY + 1) = (y, m, d) → ord2ymd (t' / US_PER_DAY + 1) = (y', m', d') →
  let s := t mod US_PER_DAY / US_PER_SECOND in
  let s' := t' mod US_PER_DAY / US_PER_SECOND in
  y < y' ∨ y = y' ∧ (m < m' ∨ m = m' ∧ (d < d' ∨ d = d' ∧
  (s / 3600 < s' / 3600 ∨ s / 3600 = s' / 3600 ∧
   (s mod 3600 / 60 < s' mod 3600 / 60 ∨ s mod 3600 / 60 = s' mod 3600 / 60 ∧
    (s mod 60 < s' mod 60 ∨ s mod 60 = s' mod 60 ∧
     t mod US_PER_SECOND < t' mod US_PER_SECOND))))).
Proof.
  intros Ht E E'. cbv zeta.
  pose proof (Z.div_mod t US_PER_DAY ltac:(done)). pose proof (Z.div_mod t' US_PER_DAY ltac:(done)).
  pose proof (Z.mod_pos_bound t US_PER_DAY ltac:(done)).
  pose proof (Z.mod_pos_bound t' US_PER_DAY ltac:(done)).
  assert (0 ≤ t / US_PER_DAY) by (apply Z.div_pos; [lia|done]).
  assert (∀ x, (x mod US_PER_DAY) mod US_PER_SECOND = x mod US_PER_SECOND) as Hmm
    by (intros x; apply Z.mod_mod_divide; by exists 86400).
  destruct (Z.lt_total (t / US_PER_DAY) (t' / US_PER_DAY)) as [Hd|[Hd|Hd]].
  - pose proof (ord2ymd_lex (t / US_PER_DAY + 1) (t' / US_PER_DAY + 1)
                  _ _ _ _ _ _ ltac:(lia) E E'). tauto.
  - rewrite Hd in E. rewrite E in E'. injection E' as <- <- <-.
    pose proof (day_time_lex (t mod US_PER_DAY) (t' mod US_PER_DAY) ltac:(lia) ltac:(lia)) as Hl.
    rewrite !Hmm in Hl. tauto.
  - unfold US_PER_DAY, US_PER_SECOND in *; lia.
Qed.

Lemma isoformat_lt_1 t t' :
  valid_instant t → valid_instant t' → t < t' → str_lt (isoformat t) (isoformat t').
Proof.
  intros Ht Ht' Hlt. change (text_lt (iso_chars t) (iso_chars t')).
  destruct (fields_valid t Ht)
    as (y&m&d&hh&mm&ss&us&F&E&->&->&->&->&Hy&Hv&_&Hh&Hm&Hs&Hu).
  destruct (fields_valid t' Ht')
    as (y'&m'&d'&hh'&mm'&ss'&us'&F'&E'&->&->&->&->&Hy'&Hv'&_&Hh'&Hm'&Hs'&Hu').
  unfold iso_chars. rewrite F, F'.
  apply day_bounds in Hv as [? ?]. apply day_bounds in Hv' as [? ?].
  pose proof (fields_lex t t' y m d y' m' d' ltac:(split; [apply Ht|done]) E E') as Hlex.
  cbv zeta in Hlex.
  apply text_lt_field; [lia|simpl; lia|].
  destruct Hlex as [?|[-> Hlex]]; [by left|right; split; [done|]]. apply text_lt_cons.
  apply text_lt_field; [lia|simpl; lia|].
  destruct Hlex as [?|[-> Hlex]]; [by left|right; split; [done|]]. apply text_lt_cons.
  apply text_lt_field; [lia|simpl; lia|].
  destruct Hlex as [?|[-> Hlex]]; [by left|right; split; [done|]]. apply text_lt_cons.
  apply text_lt_field; [lia|simpl; lia|].
  destruct Hlex as [?|[E1 Hlex]]; [by left|right; split; [done|]]. apply text_lt_cons.
  apply text_lt_field; [lia|simpl; lia|].
  destruct Hlex as [?|[E2 Hlex]]; [by left|right; split; [done|]]. apply text_lt_cons.
  apply text_lt_field; [lia|simpl; lia|].
  destruct Hlex as [?|[E3 Hlex]]; [by left|right; split; [done|]].
  apply text_lt_fraction; lia.
Qed.

(** Comparing two UTC timestamps as text, as SQLite's [ORDER BY], [MAX] and
    [<] on the stored columns do, is comparing the instants: the width of the
    fields and the place of the optional microseconds make the textual order
    the chronological one over the whole range of [datetime]. *)
Lemma isoformat_order t t' :
  valid_instant t → valid_instant t' →
  (str_ltb (isoformat t) (isoformat t') = true ↔ t < t') ∧
  (isoformat t = isoformat t' ↔ t = t').
Proof.
  intros Ht Ht'. rewrite str_ltb_lt.
  assert (∀ a b, valid_instant a → valid_instant b → a < b → isoformat a ≠ isoformat b) as Hne.
  { intros a b Ha Hb Hab E. apply (str_lt_irrefl (isoformat a)).
    rewrite E at 2. by apply isoformat_lt_1. }
  split; (split; [|intros H; subst; auto using isoformat_lt_1]); intros H.
  - destruct (Z.lt_total t t') as [|[->|Hgt]]; [done| |]; exfalso.
    + by eapply str_lt_irrefl.
    + eapply str_lt_irrefl, str_lt_trans; [exact H|]. by apply isoformat_lt_1.
  - destruct (Z.lt_total t t') as [Hlt|[?|Hgt]]; [|done|]; exfalso.
    + by eapply (Hne t t').
    + by eapply (Hne t' t).
Qed.

(** *** Reading a timestamp back *)

Lemma digit_value_digit n : 0 ≤ n < 10 → digit_value (digit n) = Some n.
Proof.
  intros Hn. unfold digit_value. rewrite digit_code by done. rewrite Z2N.id by lia.
  rewrite (proj2 (Z.leb_le 48 _)), (proj2 (Z.leb_le _ 57)) by lia. simpl. f_equal. lia.
Qed.

Lemma read_digits_snoc w acc s :
  read_digits (S w) acc s =
  match read_digits w acc s with
  | Some (v, c :: s') =>
      match digit_value c with Some x => Some (v * 10 + x, s') | None => None end
  | _ => None
  end.
Proof.
  revert acc s. induction w as [|w IH]; intros acc s.
  - simpl. destruct s as [|c s]; [done|]. by destruct (digit_value c).
  - destruct s as [|c s]; [done|]. cbn [read_digits]. destruct (digit_value c) as [x|]; [|done].
    exact (IH (acc * 10 + x) s).
Qed.

Lemma read_digits_pad w acc n s :
  0 ≤ n < 10 ^ Z.of_nat w →
  read_digits w acc (pad w n ++ s)%list = Some (acc * 10 ^ Z.of_nat w + n, s).
Proof.
  revert n s. induction w as [|w IH]; intros n s Hn.
  - simpl in *. f_equal. f_equal. lia.
  - rewrite read_digits_snoc. cbn [pad]. rewrite <- app_assoc.
    replace (Z.of_nat (S w)) with (1 + Z.of_nat w) in * by lia.
    rewrite Z.pow_add_r in * by lia. change (10 ^ 1) with 10 in *.
    pose proof (Z.div_mod n 10 ltac:(lia)). pose proof (Z.mod_pos_bound n 10 ltac:(lia)).
    rewrite IH by (split; [apply Z.div_pos|apply Z.div_lt_upper_bound]; lia).
    cbn [app]. rewrite digit_value_digit by lia. f_equal. f_equal. lia.
Qed.

Lemma read_fraction_iso us tl :
  0 ≤ us < US_PER_SECOND →
  read_fraction (iso_fraction us ++ "+"%char :: tl)%list = Some (us, "+"%char :: tl).
Proof.
  intros Hu. unfold iso_fraction, read_fraction. destruct (Z.eqb_spec us 0) as [->|]; [done|].
  cbn [app]. unfold read_char at 1. rewrite decide_True by done.
  rewrite (read_digits_pad 6); [done|]. unfold US_PER_SECOND in *. simpl. lia.
Qed.

(** Timestamps round-trip: reading what [isoformat] wrote gives the
    instant back, microseconds included. *)
Lemma parse_isoformat t : valid_instant t → parse_ts (isoformat t) = Ok t.
Proof.
  intros Ht. unfold parse_ts, isoformat. rewrite chars_of_chars. unfold iso_chars.
  destruct (fields_valid t Ht)
    as (y&m&d&hh&mm&ss&us&F&_&Eh&Em&Es&Eu&Hy&Hv&Ho&Hh&Hm&Hs&Hu).
  rewrite F. unfold read_iso. pose proof Hv as Hv0. apply day_bounds in Hv0 as [? ?].
  change (chars "+00:00") with ("+"%char :: chars "00:00").
  assert (∀ (w : nat) acc n (rest : list ascii) {B} (k : Z * list ascii → option B),
    0 ≤ n < 10 ^ Z.of_nat w →
    (read_digits w acc (pad w n ++ rest)%list ≫= k) = k (acc * 10 ^ Z.of_nat w + n, rest)) as Hd
    by (intros; by rewrite read_digits_pad).
  assert (∀ c (rest : list ascii) {B} (k : list ascii → option B),
    (read_char c (c :: rest) ≫= k) = k rest) as Hc
    by (intros; unfold read_char; by rewrite decide_True).
  rewrite (Hd 4%nat) by (simpl; lia). rewrite Hc, (Hd 2%nat) by (simpl; lia).
  rewrite Hc, (Hd 2%nat) by (simpl; lia). rewrite Hc, (Hd 2%nat) by (simpl; lia).
  rewrite Hc, (Hd 2%nat) by (simpl; lia). rewrite Hc, (Hd 2%nat) by (simpl; lia).
  rewrite read_fraction_iso by done.
  change (Some (us, "+"%char :: chars "00:00") ≫= ?k) with (k (us, "+"%char :: chars "00:00")).
  cbv beta iota. rewrite !Z.mul_0_l, !Z.add_0_l.
  replace (read_offset ("+"%char :: chars "00:00")) with (Some (Some 0)) by (vm_compute; done).
  change (Some (Some 0) ≫= ?k) with (k (Some 0)). cbv beta.
  assert (check ((1 <=? y) && (1 <=? m) && (m <=? 12) && (1 <=? d) &&
             (d <=? days_in_month y m) && (hh <? 24) && (mm <? 60) && (ss <? 60)) = Some tt) as ->.
  { apply valid_ymd_spec in Hv as [? ?]. unfold check.
    replace (_ && _) with true; [done|]. symmetry.
    rewrite !andb_true_iff, !Z.leb_le, !Z.ltb_lt. lia. }
  cbn -[Z.mul Z.add Z.sub US_PER_DAY US_PER_SECOND ymd2ord]. f_equal. rewrite Ho.
  pose proof (Z.div_mod t US_PER_DAY ltac:(done)).
  assert ((t mod US_PER_DAY) mod US_PER_SECOND = us) as Hmm
    by (rewrite Eu; apply Z.mod_mod_divide; by exists 86400).
  set (a := t mod US_PER_DAY) in *. set (s := a / US_PER_SECOND) in *.
  pose proof (Z.div_mod a US_PER_SECOND ltac:(done)).
  pose proof (Z.div_mod s 3600 ltac:(done)).
  pose proof (Z.div_mod (s mod 3600) 60 ltac:(done)).
  assert ((s mod 3600) mod 60 = s mod 60) as Hss by (apply Z.mod_mod_divide; by exists 60).
  subst hh mm ss. fold s in H2. unfold US_PER_SECOND in *. lia.
Qed.

End Iso.
