(* ===== verification/Scheduler.v ===== *)
(** The exactly-once key of a digest: [core/scheduler.py:compute_window_start]
    and the two time helpers of [core/evaluator.py].

    [croniter] and the tz database are not part of the repository: a type
    class of operations, and a class of the laws their documentation states,
    both instantiated at a concrete hourly grid below. *)

From S2P Require Import Prelude DateTime.

(** A [datetime]: naive, its wall clock as if it were UTC, or aware, its UTC
    instant. *)
Inductive datetime := Naive (wall : Z) | Aware (instant : Z).

Class Cron := {
  (** [ZoneInfo(tz_name)] succeeds. *)
  zone_known : string → bool;
  (** A wall clock of a zone, as the UTC instant ([fold = 0]). *)
  local_to_utc : string → Z → Z;
  (** [croniter(expr, base).get_prev(datetime)] from an aware base in a
      zone. *)
  get_prev : string → string → Z → result datetime;
  (** The first two [get_next(datetime)] from an aware UTC base. *)
  get_next2 : string → Z → result (Z * Z);
}.

Definition occurrence_utc `{Cron} (tz_name : string) (occurrence : datetime) : Z :=
  match occurrence with Naive w => local_to_utc tz_name w | Aware i => i end.

(** Documented behaviour: [get_prev] gives the last occurrence strictly
    before its base, on a grid of whole seconds. *)
Class CronLaws `{Cron} := {
  grid : string → string → Z → Prop;
  get_prev_law expr tz base o :
    get_prev expr tz base = Ok o →
    grid expr tz (occurrence_utc tz o) ∧ occurrence_utc tz o < base ∧
    ∀ x, grid expr tz x → x < base → x ≤ occurrence_utc tz o;
  grid_valid expr tz x : grid expr tz x → valid_instant x;
}.

Section Scheduler.
Context `{Cron}.

Definition now_utc (now : datetime) : Z :=
  match now with Naive wall => wall | Aware instant => instant end.

Definition INCLUSIVE_EPSILON : Z := 1.

Definition compute_window_start (schedule_cron tz_name : string) (now : datetime)
    : result string :=
  if zone_known tz_name then
    let? occurrence_local :=
      get_prev schedule_cron tz_name (now_utc now + INCLUSIVE_EPSILON) in
    Ok (isoformat (occurrence_utc tz_name occurrence_local))
  else raise KeyError "No time zone found".

(** [_job_period]. *)
Definition job_period (schedule_cron : string) (now : Z) : result Z :=
  let? (first, second) := get_next2 schedule_cron now in Ok (second - first).

End Scheduler.

Section Properties.
Context `{CronLaws}.

Lemma window_start_last expr tz now w :
  compute_window_start expr tz now = Ok w →
  ∃ o, w = isoformat o ∧ grid expr tz o ∧ o ≤ now_utc now ∧
       ∀ x, grid expr tz x → x ≤ now_utc now → x ≤ o.
Proof.
  unfold compute_window_start. destruct (zone_known tz); [|done].
  destruct (get_prev _ _ _) as [o|e] eqn:E; [|done]. intros [= <-].
  apply get_prev_law in E as (Hg&Hlt&Hmax). unfold INCLUSIVE_EPSILON in *.
  exists (occurrence_utc tz o). split_and!; [done|done|lia|].
  intros x Hx Hle. apply Hmax; [done|lia].
Qed.

(** The window key is the job's cron occurrence, not the tick: two ticks
    get the same key exactly when no occurrence of the job's grid falls
    between them, the later tick included, so every tick of a window shares
    its key and the next window never does. *)
Theorem window_start_key expr tz a b wa wb :
  now_utc a ≤ now_utc b →
  compute_window_start expr tz a = Ok wa →
  compute_window_start expr tz b = Ok wb →
  (wa = wb ↔ ∀ x, grid expr tz x → ¬ (now_utc a < x ≤ now_utc b)) ∧
  str_ltb wb wa = false.
Proof.
  intros Hab Ha Hb.
  destruct (window_start_last expr tz a wa Ha) as (oa&->&Hga&Hla&Hma).
  destruct (window_start_last expr tz b wb Hb) as (ob&->&Hgb&Hlb&Hmb).
  pose proof (grid_valid _ _ _ Hga) as Va. pose proof (grid_valid _ _ _ Hgb) as Vb.
  pose proof (Hmb oa Hga ltac:(lia)).
  rewrite (proj2 (isoformat_order oa ob Va Vb)). split.
  - split.
    + intros -> x Hx [Hx1 Hx2]. specialize (Hmb x Hx Hx2). lia.
    + intros Hno. destruct (decide (ob ≤ now_utc a)) as [Hle|Hgt].
      * specialize (Hma ob Hgb Hle). lia.
      * exfalso. apply (Hno ob Hgb). lia.
  - destruct (str_ltb _ _) eqn:E; [|done].
    apply (isoformat_order ob oa Vb Va) in E. lia.
Qed.
End Properties.

(** * An hourly grid *)

Module Hourly.
Definition HOUR : Z := 3600 * US_PER_SECOND.

#[global] Instance hourly : Cron := {
  zone_known := λ tz, bool_decide (tz = "UTC");
  local_to_utc := λ _ w, w;
  get_prev := λ expr _ base,
    if bool_decide (0 < base ≤ MAX_ORDINAL * US_PER_DAY) then Ok (Aware ((base - 1) / HOUR * HOUR))
    else raise OverflowError "date value out of range";
  get_next2 := λ _ now, Ok ((now / HOUR + 1) * HOUR, (now / HOUR + 2) * HOUR);
}.

Definition on_hour (x : Z) : Prop := valid_instant x ∧ ∃ k, x = k * HOUR.

#[global] Program Instance hourly_laws : CronLaws := {
  grid := λ _ _ x, on_hour x;
}.
Next Obligation.
  intros expr tz base o. simpl. case_bool_decide as Hb; [|done]. intros [= <-]. simpl.
  pose proof (Z.div_mod (base - 1) HOUR ltac:(done)).
  pose proof (Z.mod_pos_bound (base - 1) HOUR ltac:(done)).
  assert (0 ≤ (base - 1) / HOUR) by (apply Z.div_pos; [lia|done]).
  unfold on_hour, valid_instant, HOUR, MAX_ORDINAL, US_PER_DAY, US_PER_SECOND in *.
  split_and!; [lia|lia|eauto|lia|].
  intros x [_ [k ->]] Hx. assert (k ≤ (base - 1) / (3600 * 1000000)); [|lia].
  apply Z.div_le_lower_bound; lia.
Qed.
Next Obligation. by intros expr tz x []. Qed.
End Hourly.

(** 10:00:00 and 10:59:59.999999 share a window; 11:00:00 opens the next. *)
Lemma window_start_key_witness :
  let t := 63908820000000000 in
  compute_window_start "0 * * * *" "UTC" (Aware t) = Ok "2026-03-11T10:00:00+00:00" ∧
  compute_window_start "0 * * * *" "UTC" (Aware (t + 3599999999)) = Ok "2026-03-11T10:00:00+00:00" ∧
  compute_window_start "0 * * * *" "UTC" (Aware (t + 3600000000)) = Ok "2026-03-11T11:00:00+00:00" ∧
  (∀ x, Hourly.on_hour x → ¬ (t < x ≤ t + 3599999999)).
Proof.
  intros t.
  assert (compute_window_start "0 * * * *" "UTC" (Aware t) = Ok "2026-03-11T10:00:00+00:00")
    as Ha by (vm_compute; reflexivity).
  assert (compute_window_start "0 * * * *" "UTC" (Aware (t + 3599999999))
          = Ok "2026-03-11T10:00:00+00:00") as Hb by (vm_compute; reflexivity).
  split; [exact Ha|split; [exact Hb|split; [vm_compute; reflexivity|]]].
  destruct (window_start_key "0 * * * *" "UTC" (Aware t) (Aware (t + 3599999999)) _ _
              ltac:(simpl; lia) Ha Hb) as [[H _] _].
  exact (H eq_refl).
Defined.
