(* ===== verification/Evaluator.v ===== *)
(** The digest evaluator ([core/evaluator.py], [core/fetcher_guard.py]): one
    tick is a reaper sweep, then Plan A (scrape what is stale), then Plan B
    (notify each job at most once per window).

    The evaluator is one coroutine: ticks of one loop never overlap and
    Plan B awaits each send, so a tick is a sequential program.  What runs
    beside it shows only through what it reads: [outcome] gives the fate of
    the n-th send (it returned, it raised, it outlived its deadline), and
    [orphan_done] tells, at the i-th pruning of the retired pools, whether an
    orphaned send has ended meanwhile.  The send semaphore is held by one
    sender at a time here and is not modelled. *)

From S2P Require Import Prelude Domain Orchestrator StateStore Registry DateTime Scheduler.

(** * Ports *)

(** [registry/ports.py:ConfigStore] as the evaluator uses it, and
    [autolycos/ports.py:Router]; [E] is the world outside the state store. *)
Class EvalPorts (E : Type) := {
  list_all_enabled_jobs : M E (list DigestJob);
  load : string → M E Registry;
  select : string → list string → result (Fetcher E);
  tier_available : string → result bool;
  parser_factory : ParserSpec → result Parser;
  sleep : Z → M E unit;
  utcnow_iso : M E string;
}.

(** * The send executors *)

Definition LIVE_ORPHANS_PER_WORKER : Z := 3.

(** Pools and futures are numbered in the order of their creation. *)
Record RotatingSendExecutor := {
  max_workers : Z;
  current : nat;
  next_pool : nat;
  retired : list (nat * nat);
  max_live_orphans : Z;
  prunes : nat;
  stopped : list nat;
}.

Definition new_executor (workers : Z) : RotatingSendExecutor :=
  {| max_workers := workers; current := 0; next_pool := 1; retired := [];
     max_live_orphans := workers * LIVE_ORPHANS_PER_WORKER; prunes := 0; stopped := [] |}.

(** The executor a tick is given: [_RotatingSendExecutor], or
    [_DaemonThreadSendExecutor], which has no state. *)
Inductive SendExecutor := Rotating (x : RotatingSendExecutor) | DaemonThread.

Section Executor.
Variable orphan_done : nat → nat → bool.

Definition prune_retired (x : RotatingSendExecutor) : RotatingSendExecutor :=
  {| max_workers := x.(max_workers); current := x.(current); next_pool := x.(next_pool);
     retired := filter (λ pf, orphan_done x.(prunes) pf.2 = false) x.(retired);
     max_live_orphans := x.(max_live_orphans); prunes := S x.(prunes);
     stopped := (x.(stopped) ++
       (filter (λ pf, orphan_done x.(prunes) pf.2 = true) x.(retired)).*1)%list |}.

Definition can_submit_rotating (x : RotatingSendExecutor) : bool * RotatingSendExecutor :=
  let x := prune_retired x in
  (Z.of_nat (length x.(retired)) <? x.(max_live_orphans), x).

Definition rotate_rotating (orphan : option nat) (x : RotatingSendExecutor)
    : RotatingSendExecutor :=
  let stuck := x.(current) in
  let fresh := λ retired stopped,
    {| max_workers := x.(max_workers); current := x.(next_pool);
       next_pool := S x.(next_pool); retired := retired;
       max_live_orphans := x.(max_live_orphans); prunes := x.(prunes);
       stopped := stopped |} in
  match orphan with
  | Some f => prune_retired (fresh (x.(retired) ++ [(stuck, f)])%list x.(stopped))
  | None => fresh x.(retired) (x.(stopped) ++ [stuck])%list
  end.

Definition shutdown_rotating (x : RotatingSendExecutor) : RotatingSendExecutor :=
  {| max_workers := x.(max_workers); current := x.(current); next_pool := x.(next_pool);
     retired := []; max_live_orphans := x.(max_live_orphans); prunes := x.(prunes);
     stopped := (x.(stopped) ++ x.(current) :: x.(retired).*1)%list |}.

Definition can_submit (x : SendExecutor) : bool * SendExecutor :=
  match x with
  | Rotating r => let '(b, r') := can_submit_rotating r in (b, Rotating r')
  | DaemonThread => (true, DaemonThread)
  end.

Definition rotate (orphan : option nat) (x : SendExecutor) : SendExecutor :=
  match x with
  | Rotating r => Rotating (rotate_rotating orphan r)
  | DaemonThread => DaemonThread
  end.

Definition shutdown (x : SendExecutor) : SendExecutor :=
  match x with Rotating r => Rotating (shutdown_rotating r) | DaemonThread => DaemonThread end.
End Executor.

(** * The empty-digest warnings *)

Definition EMPTY_DIGEST_WARNING_TTL : Z := 2 * US_PER_DAY.

(** [self._warned]. *)
Notation Tracker := (list ((string * string) * Z)) (only parsing).

Definition should_warn (job_id window_start : string) (tick_now : Z) (t : Tracker)
    : bool * Tracker :=
  let cutoff := tick_now - EMPTY_DIGEST_WARNING_TTL in
  let warned := filter (λ kv, cutoff ≤ kv.2) t in
  match od_get (job_id, window_start) warned with
  | Some _ => (false, warned)
  | None => (true, od_set (job_id, window_start) tick_now warned)
  end.

(** * The tick's state *)

Record EvaluationSummary := {
  scraped_sources : Z;
  notified_jobs : Z;
  skipped_jobs : Z;
  errors : Z;
}.

Definition no_summary : EvaluationSummary :=
  {| scraped_sources := 0; notified_jobs := 0; skipped_jobs := 0; errors := 0 |}.

(** A call of [sender.send] handed to the executor. *)
Record Submission := {
  sub_job : DigestJob;
  sub_window : string;
  sub_records : list ScrapeRecord;
  sub_generated_at : string;
  sub_labels : gmap string string;
}.

Definition sub_key (x : Submission) : string * string :=
  (x.(sub_job).(job_id), x.(sub_window)).

(** How a send ends for the tick that awaits it; [cancelled] is the answer of
    [cf_future.cancel()] once the deadline has passed. *)
Inductive SendOutcome := Returned (sent : bool) | Raised (e : exn) | TimedOut (cancelled : bool).

Definition SourceIndex : Type := gmap string (Product * ProductSource * SiteConfig).

Record Ev (E S : Type) := mkEv {
  outside : E;
  store : S;
  executor : SendExecutor;
  tracker : Tracker;
  summary : EvaluationSummary;
  outbox : list Submission;
}.
Arguments mkEv {E S}.
Arguments outside {E S}.
Arguments store {E S}.
Arguments executor {E S}.
Arguments tracker {E S}.
Arguments summary {E S}.
Arguments outbox {E S}.

(** [should_start_intra_process_evaluator]. *)
Definition should_start_intra_process_evaluator (workers : Z) : bool := workers <=? 1.

Section Evaluator.
Context {E S : Type} `{EvalPorts E} `{StateStore S} `{Cron}.
Variable outcome : nat → SendOutcome.
Variable orphan_done : nat → nat → bool.

Definition on_outside {A} (m : M E A) : M (Ev E S) A :=
  λ w, let '(r, e) := m w.(outside) in
       (r, mkEv e w.(store) w.(executor) w.(tracker) w.(summary) w.(outbox)).

Definition on_store {A} (m : M S A) : M (Ev E S) A :=
  λ w, let '(r, s) := m w.(store) in
       (r, mkEv w.(outside) s w.(executor) w.(tracker) w.(summary) w.(outbox)).

Definition on_executor {A} (f : SendExecutor → A * SendExecutor) : M (Ev E S) A :=
  λ w, let '(a, x) := f w.(executor) in
       (Ok a, mkEv w.(outside) w.(store) x w.(tracker) w.(summary) w.(outbox)).

Definition on_tracker {A} (f : Tracker → A * Tracker) : M (Ev E S) A :=
  λ w, let '(a, t) := f w.(tracker) in
       (Ok a, mkEv w.(outside) w.(store) w.(executor) t w.(summary) w.(outbox)).

Definition count (f : EvaluationSummary → EvaluationSummary) : M (Ev E S) unit :=
  λ w, (Ok tt, mkEv w.(outside) w.(store) w.(executor) w.(tracker) (f w.(summary)) w.(outbox)).

Definition scraped (s : EvaluationSummary) : EvaluationSummary :=
  {| scraped_sources := s.(scraped_sources) + 1; notified_jobs := s.(notified_jobs);
     skipped_jobs := s.(skipped_jobs); errors := s.(errors) |}.
Definition notified (s : EvaluationSummary) : EvaluationSummary :=
  {| scraped_sources := s.(scraped_sources); notified_jobs := s.(notified_jobs) + 1;
     skipped_jobs := s.(skipped_jobs); errors := s.(errors) |}.
Definition skipped (s : EvaluationSummary) : EvaluationSummary :=
  {| scraped_sources := s.(scraped_sources); notified_jobs := s.(notified_jobs);
     skipped_jobs := s.(skipped_jobs) + 1; errors := s.(errors) |}.
Definition failed (s : EvaluationSummary) : EvaluationSummary :=
  {| scraped_sources := s.(scraped_sources); notified_jobs := s.(notified_jobs);
     skipped_jobs := s.(skipped_jobs); errors := s.(errors) + 1 |}.

(** ** Plan A *)

(** [tier_unavailable]. *)
Definition tier_unavailable (site : SiteConfig) : result bool :=
  let? b := tier_available site.(site_fetcher) in Ok (negb b).

Definition build_source_index (r : Registry) : result SourceIndex :=
  let '(items, e) := iter_sources r in
  match e with
  | Some e => Raise e
  | None => Ok (foldl (λ m x, <[x.1.2.(source_id) := x]> m) ∅ items)
  end.

(** The loop over one job's sources: keep the shortest period. *)
Definition require (owner : string) (period : Z) (ids : list string)
    (required : list ((string * string) * Z)) : list ((string * string) * Z) :=
  foldl (λ acc id,
    match od_get (owner, id) acc with
    | Some current => if period <? current then od_set (owner, id) period acc else acc
    | None => od_set (owner, id) period acc
    end) required ids.

Fixpoint required_periods (jobs : list DigestJob) (tick_now : Z)
    (required : list ((string * string) * Z)) : result (list ((string * string) * Z)) :=
  match jobs with
  | [] => Ok required
  | job :: rest =>
      let? period := job_period job.(schedule_cron) tick_now in
      required_periods rest tick_now
        (require job.(job_owner_id) period job.(job_source_ids) required)
  end.

Definition fresh_enough (hist : list ScrapeRecord) (tick_now period : Z) : result bool :=
  match hist with
  | [] => Ok false
  | r :: _ => let? ts := parse_ts r.(sr_ts) in Ok (tick_now - ts <? period)
  end.

(** The body of the second loop, inside its [try]. *)
Definition scrape_source (owner id : string) (period : Z)
    (entry : Product * ProductSource * SiteConfig) (tick_now : Z) (now_iso : string)
    : M (Ev E S) unit :=
  let '(_, source, site) := entry in
  let! hist := on_store (history owner id 1) in
  let! fresh := mlift (fresh_enough hist tick_now period) in
  if fresh : bool then mret' tt
  else
    let! unavailable := mlift (tier_unavailable site) in
    if unavailable : bool then mret' tt
    else
      let! fetcher := mlift (select site.(site_fetcher) site.(subresource_domains)) in
      let! parser := mlift (parser_factory site.(site_parser)) in
      let! _ := scrape_and_record (λ d, on_outside (sleep d)) (on_outside utcnow_iso)
                  (λ url, on_outside (fetcher url)) parser
                  (λ o r, on_store (record o r))
                  owner source.(source_id) source.(source_url) (Some now_iso) in
      count scraped.

Definition run_plan_a (jobs : list DigestJob) (source_index : gmap string SourceIndex)
    (tick_now : Z) (now_iso : string) : M (Ev E S) unit :=
  let! required := mlift (required_periods jobs tick_now []) in
  mfor (λ kp : (string * string) * Z,
    let '((owner, id), period) := kp in
    match source_index !! owner ≫= λ index : SourceIndex, index !! id with
    | None => mret' tt
    | Some entry =>
        mtry (scrape_source owner id period entry tick_now now_iso)
             (λ _, count failed)
    end) required.

(** ** Plan B *)

Fixpoint collect_job_digest (owner : string) (ids : list string) (index : SourceIndex)
    : M (Ev E S) (list ScrapeRecord * gmap string string) :=
  match ids with
  | [] => mret' ([], ∅)
  | id :: rest =>
      let! hist := on_store (history owner id 1) in
      let! (records, labels) := collect_job_digest owner rest index in
      mret' (match hist with [] => records | r :: _ => r :: records end,
             match index !! id with
             | Some (_, _, site) =>
                 if truthy_opt site.(tier2_label)
                 then <[id := default "" site.(tier2_label)]> labels else labels
             | None => labels
             end)
  end.

(** [executor.current.submit(...)], then the bounded wait for its future. *)
Definition submit (x : Submission) : M (Ev E S) (nat * SendOutcome) :=
  λ w, let n := length w.(outbox) in
       (Ok (n, outcome n),
        mkEv w.(outside) w.(store) w.(executor) w.(tracker) w.(summary)
             (w.(outbox) ++ [x])%list).

(** [f"{type(exc).__name__}: {exc}"[:500]]. *)
Definition error_text (e : exn) : string :=
  String.substring 0 500 (exc_name e.(exn_class) +:+ ": " +:+ e.(exn_msg)).

Definition mark (job : DigestJob) (window status : string)
    (sent_at error : option string) : M (Ev E S) bool :=
  on_store (update_job_run job.(job_id) window status sent_at error).

(** What follows the send: the two [except] clauses and the [if sent]. *)
Definition settle (job : DigestJob) (window now_iso : string) (n : nat)
    (o : SendOutcome) : M (Ev E S) unit :=
  let timed_out := λ (cancelled : bool) (e : exn),
    let! _ := on_executor (λ x, (tt, rotate orphan_done
                (if cancelled then None else Some n) x)) in
    let! _ := mark job window "error" None (Some (error_text e)) in
    count failed in
  match o with
  | TimedOut cancelled => timed_out cancelled (Exn TimeoutError "")
  | Raised e =>
      if is_a e.(exn_class) TimeoutError then timed_out false e
      else if is_Exception e.(exn_class) then
        let! _ := mark job window "error" None (Some (error_text e)) in count failed
      else mraise e
  | Returned true =>
      let! _ := mark job window "sent" (Some now_iso) None in count notified
  | Returned false =>
      let! _ := mark job window "skipped_no_email" None None in count skipped
  end.

(** The body of the loop, inside its [try]. *)
Definition notify_job (job : DigestJob) (index : SourceIndex) (tick_now : Z)
    (now_iso : string) : M (Ev E S) unit :=
  let! active := on_store (has_active_job_run job.(job_owner_id) job.(job_id)) in
  if active : bool then count skipped
  else
    let! (records, labels) :=
      collect_job_digest job.(job_owner_id) job.(job_source_ids) index in
    if bool_decide (records = []) then
      let! window := mlift (compute_window_start job.(schedule_cron) job.(job_timezone)
                              (Aware tick_now)) in
      let! _ := on_tracker (should_warn job.(job_id) window tick_now) in
      count skipped
    else
      let! allowed := on_executor (can_submit orphan_done) in
      if negb allowed then count skipped
      else
        let! window := mlift (compute_window_start job.(schedule_cron) job.(job_timezone)
                                (Aware tick_now)) in
        let run := {| jr_job_id := job.(job_id); jr_owner_id := job.(job_owner_id);
                      jr_window_start := window; jr_fired_at := now_iso;
                      jr_status := "queued"; jr_sent_at := None; jr_error := None |} in
        let! recorded := on_store (record_job_run run) in
        if negb recorded then count skipped
        else
          let! _ := mark job window "running" None None in
          let! (n, o) := submit {| sub_job := job; sub_window := window;
                                   sub_records := records; sub_generated_at := now_iso;
                                   sub_labels := labels |} in
          settle job window now_iso n o.

Definition run_plan_b (jobs : list DigestJob) (source_index : gmap string SourceIndex)
    (tick_now : Z) (now_iso : string) : M (Ev E S) unit :=
  mfor (λ job,
    mtry (notify_job job (default ∅ (source_index !! job.(job_owner_id))) tick_now now_iso)
         (λ _, count failed)) jobs.

(** ** The tick and the loop *)

Definition reap_stale_job_runs (jobs : list DigestJob) (tick_now reaper_timeout_seconds : Z)
    : M (Ev E S) unit :=
  let fired_before := isoformat (tick_now - reaper_timeout_seconds * US_PER_SECOND) in
  mfor (λ job,
    mtry (let! _ := on_store (reap_stale_job_run job.(job_owner_id) job.(job_id) fired_before) in
          mret' tt)
         (λ _, mret' tt)) jobs.

Fixpoint load_indexes (owners : list string) (acc : gmap string SourceIndex)
    : M (Ev E S) (gmap string SourceIndex) :=
  match owners with
  | [] => mret' acc
  | o :: rest =>
      let! reg := mtry (let! r := on_outside (load o) in mret' (Some r))
                       (λ _, let! _ := count failed in mret' None) in
      match reg with
      | None => load_indexes rest acc
      | Some r => let! index := mlift (build_source_index r) in
                  load_indexes rest (<[o := index]> acc)
      end
  end.

Definition evaluate_tick (tick_now reaper_timeout_seconds : Z) : M (Ev E S) unit :=
  let now_iso := isoformat tick_now in
  let! _ := count (λ _, no_summary) in
  let! jobs := mtry (let! l := on_outside list_all_enabled_jobs in mret' (Some l))
                    (λ _, let! _ := count failed in mret' None) in
  match jobs with
  | None | Some [] => mret' tt
  | Some jobs =>
      let! _ := reap_stale_job_runs jobs tick_now reaper_timeout_seconds in
      let! source_index :=
        load_indexes (sort_by str_leb (remove_dups (job_owner_id <$> jobs))) ∅ in
      let! _ := run_plan_a jobs source_index tick_now now_iso in
      run_plan_b jobs source_index tick_now now_iso
  end.

(** [run_evaluator_loop], one tick per instant of [ticks] until the stop
    event, then the executor's shutdown. *)
Definition run_evaluator_loop (ticks : list Z) (reaper_timeout_seconds : Z)
    : M (Ev E S) unit :=
  mfinally (mfor (λ now, mtry (evaluate_tick now reaper_timeout_seconds)
                              (λ _, mret' tt)) ticks)
           (on_executor (λ x, (tt, shutdown x))).

End Evaluator.
