(* ===== verification/EvaluatorProofs.v ===== *)
(** Properties of the digest evaluator. *)

From S2P Require Import Prelude Domain Orchestrator StateStore Registry DateTime Scheduler.
From S2P Require Import Evaluator.

(** * What each piece of the state keeps *)

Section Frames.
Context {E S : Type} `{EvalPorts E} `{StateStore S} `{Cron}.
Variable outcome : nat → SendOutcome.
Variable orphan_done : nat → nat → bool.
Implicit Types w : Ev E S.

(** An invariant that reads only some fields is kept by what leaves them. *)
Lemma pres_outside {A} (I : Ev E S → Prop) (m : M E A) :
  (∀ w e, I w → I (mkEv e w.(store) w.(executor) w.(tracker) w.(summary) w.(outbox))) →
  pres I (on_outside m).
Proof. intros HI w Hw. unfold on_outside. destruct (m _) as [r e]. by apply HI. Qed.

Lemma pres_store {A} (I : Ev E S → Prop) (m : M S A) :
  (∀ w, I w → I (mkEv w.(outside) (snd (m w.(store))) w.(executor) w.(tracker)
                   w.(summary) w.(outbox))) →
  pres I (on_store m).
Proof.
  intros HI w Hw. specialize (HI w Hw). unfold on_store.
  by destruct (m w.(store)) as [r s].
Qed.

Lemma pres_executor {A} (I : Ev E S → Prop) (f : SendExecutor → A * SendExecutor) :
  (∀ w, I w → I (mkEv w.(outside) w.(store) (snd (f w.(executor))) w.(tracker)
                   w.(summary) w.(outbox))) →
  pres I (on_executor f).
Proof.
  intros HI w Hw. specialize (HI w Hw). unfold on_executor.
  by destruct (f w.(executor)) as [a x].
Qed.

Lemma pres_tracker {A} (I : Ev E S → Prop) (f : Tracker → A * Tracker) :
  (∀ w t, I w → I (mkEv w.(outside) w.(store) w.(executor) t w.(summary) w.(outbox))) →
  pres I (on_tracker f).
Proof. intros HI w Hw. unfold on_tracker. destruct (f _) as [a t]. by apply HI. Qed.

Lemma pres_count (I : Ev E S → Prop) f :
  (∀ w s, I w → I (mkEv w.(outside) w.(store) w.(executor) w.(tracker) s w.(outbox))) →
  pres I (count f).
Proof. intros HI w Hw. by apply HI. Qed.

Lemma on_store_eq {A} (m : M S A) w r s' :
  m w.(store) = (r, s') →
  on_store m w = (r, mkEv w.(outside) s' w.(executor) w.(tracker) w.(summary) w.(outbox)).
Proof. unfold on_store. by intros ->. Qed.

(** Scraping touches the world outside and the store, through [record]. *)
Lemma pres_scrape (I : Ev E S → Prop) (fetcher : Fetcher E) parser owner id url now :
  (∀ w e, I w → I (mkEv e w.(store) w.(executor) w.(tracker) w.(summary) w.(outbox))) →
  (∀ o r, pres I (on_store (record o r))) →
  pres I (scrape_and_record (λ d, on_outside (sleep d)) (on_outside utcnow_iso)
            (λ u, on_outside (fetcher u)) parser (λ o r, on_store (record o r))
            owner id url now).
Proof.
  intros HI Hrec. apply pres_scrape_and_record; auto using pres_outside.
Qed.

Lemma pres_load_indexes (I : Ev E S → Prop) owners acc :
  (∀ w e, I w → I (mkEv e w.(store) w.(executor) w.(tracker) w.(summary) w.(outbox))) →
  pres I (count failed) → pres I (load_indexes owners acc).
Proof.
  intros HI Hf. revert acc. induction owners as [|o owners IH]; intros acc; simpl;
    [auto with kerdoos|].
  apply pres_bind.
  { apply pres_try; [|intros]; apply pres_bind; auto using pres_outside with kerdoos. }
  intros [r|]; [|auto]. apply pres_bind; auto with kerdoos.
Qed.

(** A whole tick keeps what its pieces keep. *)
Section Tick.
Variable I : Ev E S → Prop.
Hypothesis I_outside : ∀ w e, I w →
  I (mkEv e w.(store) w.(executor) w.(tracker) w.(summary) w.(outbox)).
Hypothesis I_tracker : ∀ w t, I w →
  I (mkEv w.(outside) w.(store) w.(executor) t w.(summary) w.(outbox)).
Hypothesis I_count : ∀ w s, I w →
  I (mkEv w.(outside) w.(store) w.(executor) w.(tracker) s w.(outbox)).
Hypothesis I_record : ∀ o r, pres I (on_store (record o r)).
Hypothesis I_history : ∀ o s n, pres I (on_store (history o s n)).
Hypothesis I_reap : ∀ o j b, pres I (on_store (reap_stale_job_run o j b)).
Hypothesis I_notify : ∀ job index t iso, pres I (notify_job outcome orphan_done job index t iso).

Lemma pres_plan_a jobs index t iso : pres I (run_plan_a jobs index t iso).
Proof.
  unfold run_plan_a. apply pres_bind; [auto with kerdoos|]. intros required.
  apply pres_for. intros [[owner id] period].
  destruct (index !! owner ≫= _) as [[[p s] site]|]; [|auto with kerdoos].
  apply pres_try; [|intros; by apply pres_count]. unfold scrape_source.
  apply pres_bind; [auto|]. intros hist. apply pres_bind; [auto with kerdoos|].
  intros [|]; [auto with kerdoos|]. apply pres_bind; [auto with kerdoos|].
  intros [|]; [auto with kerdoos|]. apply pres_bind; [auto with kerdoos|].
  intros fetcher. apply pres_bind; [auto with kerdoos|]. intros parser.
  apply pres_bind; [by apply pres_scrape|]. intros _. by apply pres_count.
Qed.

Lemma pres_plan_b jobs index t iso : pres I (run_plan_b outcome orphan_done jobs index t iso).
Proof.
  unfold run_plan_b. apply pres_for. intros job. apply pres_try; auto using pres_count.
Qed.

Lemma pres_reap_all jobs t timeout : pres I (reap_stale_job_runs jobs t timeout).
Proof.
  unfold reap_stale_job_runs. apply pres_for. intros j.
  apply pres_try; [apply pres_bind|]; auto with kerdoos.
Qed.

Lemma pres_tick t timeout : pres I (evaluate_tick outcome orphan_done t timeout).
Proof.
  unfold evaluate_tick. apply pres_bind; [by apply pres_count|]. intros _.
  apply pres_bind.
  { apply pres_try; [|intros]; apply pres_bind; auto using pres_outside, pres_count with kerdoos. }
  intros [[|job jobs]|]; [auto with kerdoos| |auto with kerdoos].
  apply pres_bind; [apply pres_reap_all|].
  intros _. apply pres_bind; [|intros; apply pres_bind; auto using pres_plan_a, pres_plan_b].
  apply pres_load_indexes; [done|]. intros w' Hw'. by apply pres_count.
Qed.

Lemma pres_loop_body ticks timeout :
  pres I (mfor (λ now, mtry (evaluate_tick outcome orphan_done now timeout)
                            (λ _, mret' tt)) ticks).
Proof. apply pres_for. intros now. apply pres_try; auto using pres_tick with kerdoos. Qed.
End Tick.
End Frames.

(** * At most one submission per window *)

Section AtMostOnce.
Context {E S : Type} `{EvalPorts E} `{JobRunLedger S} `{Cron}.
Variable outcome : nat → SendOutcome.
Variable orphan_done : nat → nat → bool.
Implicit Types w : Ev E S.

(** [K] is the ledger the evaluator started from. *)
Definition claimed (K : gset (string * string)) (w : Ev E S) : Prop :=
  NoDup (sub_key <$> w.(outbox)) ∧ K ⊆ ledger_keys w.(store) ∧
  ∀ k, k ∈ sub_key <$> w.(outbox) → k ∈ ledger_keys w.(store) ∧ k ∉ K.

Lemma claimed_store {A} K (m : M S A) : keeps_keys ledger_keys m → pres (claimed K) (on_store m).
Proof.
  intros Hm. apply pres_store. intros w (Hnd&HK&Hin). specialize (Hm w.(store)).
  split_and!; simpl; [done|set_solver|]. intros k Hk. destruct (Hin k Hk). set_solver.
Qed.

Lemma claimed_other K w e x t s :
  claimed K w → claimed K (mkEv e w.(store) x t s w.(outbox)).
Proof. done. Qed.

Lemma claimed_settle K job window iso n o : pres (claimed K) (settle orphan_done job window iso n o).
Proof.
  assert (∀ st sa er, pres (claimed K) (mark job window st sa er)) as Hmark
    by (intros; apply claimed_store, ledger_update).
  assert (∀ f, pres (claimed K) (count f)) as Hcount by (intros; by apply pres_count).
  assert (∀ b, pres (claimed K) (on_executor (λ x, (tt, rotate orphan_done b x)))) as Hx
    by (intros; by apply pres_executor).
  unfold settle. repeat case_match; auto with kerdoos;
    repeat (apply pres_bind; [auto|intros]); auto.
Qed.

(** The claim, the mark and the submission. *)
Lemma claimed_submit K job window iso labels records :
  pres (claimed K)
    (let! recorded := on_store (record_job_run
       {| jr_job_id := job_id job; jr_owner_id := job_owner_id job;
          jr_window_start := window; jr_fired_at := iso; jr_status := "queued";
          jr_sent_at := None; jr_error := None |}) in
     if negb recorded then count skipped
     else
       let! _ := mark job window "running" None None in
       let! (n, o) := submit outcome {| sub_job := job; sub_window := window;
         sub_records := records; sub_generated_at := iso; sub_labels := labels |} in
       settle orphan_done job window iso n o).
Proof.
  set (run := {| jr_job_id := _ |}). intros w Hw.
  pose proof (claimed_store K _ (ledger_record_job_run run) w Hw) as Hc.
  destruct (record_job_run run w.(store)) as [[recorded|e] s'] eqn:Er;
    rewrite (on_store_eq _ _ _ _ Er) in Hc; apply on_store_eq in Er as Er';
    [rewrite (mbind_ok _ _ _ _ _ Er')|by rewrite (mbind_raise _ _ _ _ _ Er')].
  destruct recorded; cbn [negb]; [|done].
  destruct (ledger_recorded _ _ _ Er) as [Hnew Hold]. destruct Hw as (Hnd&HK&Hin).
  pose proof (ledger_update (job_id job) window "running" None None s') as Hupd.
  destruct (update_job_run (job_id job) window "running" None None s') as [[b|e] s''] eqn:Eu;
    [erewrite mbind_ok by (apply on_store_eq; exact Eu)
    |erewrite mbind_raise by (apply on_store_eq; exact Eu)]; simpl in Hupd, Hc.
  - erewrite mbind_ok by reflexivity. apply claimed_settle. unfold claimed. simpl.
    rewrite fmap_app. simpl.
    assert (run_key run = (job_id job, window)) as Hkey by done. rewrite Hkey in *.
    assert (∀ k, k ∈ sub_key <$> outbox w → k ∈ ledger_keys s'' ∧ k ∉ K) as Hin'.
    { destruct Hc as (_&_&Hc). intros k Hk. destruct (Hc k Hk). set_solver. }
    split_and!.
    + apply NoDup_app. split_and!; [done| |apply NoDup_singleton].
      intros k Hk ->%list_elem_of_singleton. unfold sub_key in Hk. simpl in Hk.
      destruct (Hin _ Hk). done.
    + destruct Hc as (_&Hc&_). simpl in Hc. set_solver.
    + intros k [Hk|Hk]%elem_of_app; [by apply Hin'|].
      apply list_elem_of_singleton in Hk as ->. unfold sub_key. simpl. set_solver.
  - destruct Hc as (?&?&Hc). split_and!; simpl in *; [done|set_solver|].
    intros k Hk. destruct (Hc k Hk). set_solver.
Qed.

Lemma claimed_notify K job index t iso :
  pres (claimed K) (notify_job outcome orphan_done job index t iso).
Proof.
  unfold notify_job. apply pres_bind; [apply claimed_store, ledger_active|]. intros active.
  destruct active; [by apply pres_count|]. apply pres_bind.
  { generalize (job_source_ids job). intros ids. induction ids as [|id ids IH]; simpl;
      [auto with kerdoos|]. apply pres_bind; [apply claimed_store, ledger_history|]. intros hist.
    apply pres_bind; [done|]. intros [rs ls]. auto with kerdoos. }
  intros [records labels]. case_bool_decide.
  { apply pres_bind; [auto with kerdoos|]. intros window.
    apply pres_bind; [by apply pres_tracker|]. intros _. by apply pres_count. }
  apply pres_bind; [by apply pres_executor|]. intros [|]; [|by apply pres_count]. simpl.
  apply pres_bind; [auto with kerdoos|]. intros window.
  apply claimed_submit.
Qed.

(** C1: Exactly-once ledger: whatever ticks the loop runs, and however the
    sends end, no (job, window) is handed to the sender twice; each one handed
    over was absent from the ledger the loop started from (so no window that
    an earlier process claimed is sent again) and is in the ledger afterwards,
    where it stops every later one. *)
Theorem at_most_once ticks timeout w :
  w.(outbox) = [] →
  let w' := snd (run_evaluator_loop outcome orphan_done ticks timeout w) in
  NoDup (sub_key <$> w'.(outbox)) ∧
  ∀ k, k ∈ sub_key <$> w'.(outbox) →
       k ∉ ledger_keys w.(store) ∧ k ∈ ledger_keys w'.(store).
Proof.
  intros Hempty. cbv zeta.
  assert (claimed (ledger_keys (store w)) w) as Hw.
  { unfold claimed. rewrite Hempty. split_and!; [constructor|done|]. intros k Hk.
    by apply elem_of_nil in Hk. }
  assert (pres (claimed (ledger_keys (store w)))
            (run_evaluator_loop outcome orphan_done ticks timeout)) as Hp.
  { unfold run_evaluator_loop. apply pres_finally; [|by apply pres_executor].
    apply pres_loop_body; try done; intros; auto using claimed_notify.
    - apply claimed_store, ledger_record.
    - apply claimed_store, ledger_history.
    - apply claimed_store, ledger_reap. }
  destruct (Hp w Hw) as (Hnd&_&Hin). split; [done|]. intros k Hk. by destruct (Hin k Hk).
Qed.
End AtMostOnce.

(** * Every job is counted once *)

Section Counters.
Context {E S : Type} `{EvalPorts E} `{StateStore S} `{Cron}.
Variable outcome : nat → SendOutcome.
Variable orphan_done : nat → nat → bool.
Implicit Types w : Ev E S.

(** The jobs a tick has dealt with. *)
Definition handled (s : EvaluationSummary) : Z :=
  s.(notified_jobs) + s.(skipped_jobs) + s.(errors).

(** [m] leaves the counters alone. *)
Definition quiet {A} (m : M (Ev E S) A) : Prop := ∀ w, (snd (m w)).(summary) = w.(summary).

(** [m] counts once when it returns, and not at all when it raises. *)
Definition counts (m : M (Ev E S) unit) : Prop :=
  ∀ w, handled (snd (m w)).(summary)
       = handled w.(summary) + match fst (m w) with Ok _ => 1 | Raise _ => 0 end.

Lemma quiet_store {A} (m : M S A) : quiet (on_store m).
Proof. intros w. unfold on_store. by destruct (m _). Qed.
Lemma quiet_executor {A} (f : SendExecutor → A * SendExecutor) : quiet (on_executor f).
Proof. intros w. unfold on_executor. by destruct (f _). Qed.
Lemma quiet_tracker {A} (f : Tracker → A * Tracker) : quiet (on_tracker f).
Proof. intros w. unfold on_tracker. by destruct (f _). Qed.
Lemma quiet_lift {A} (r : result A) : quiet (mlift r).
Proof. by intros w. Qed.
Lemma quiet_ret {A} (a : A) : quiet (mret' a).
Proof. by intros w. Qed.
Lemma quiet_bind {A B} (m : M (Ev E S) A) (k : A → M (Ev E S) B) :
  quiet m → (∀ a, quiet (k a)) → quiet (mbind' m k).
Proof.
  intros Hm Hk w. unfold mbind'. specialize (Hm w).
  destruct (m w) as [[a|e] w']; simpl in *; [|done]. by rewrite Hk.
Qed.

Lemma counts_bind {A} (m : M (Ev E S) A) (k : A → M (Ev E S) unit) :
  quiet m → (∀ a, counts (k a)) → counts (mbind' m k).
Proof.
  intros Hm Hk w. unfold mbind'. specialize (Hm w).
  destruct (m w) as [[a|e] w']; simpl in *; rewrite <- Hm; [apply Hk|lia].
Qed.

Lemma counts_raise e : counts (mraise e).
Proof. intros w. simpl. lia. Qed.
Lemma counts_notified : counts (count notified).
Proof. intros w. unfold handled. simpl. lia. Qed.
Lemma counts_skipped : counts (count skipped).
Proof. intros w. unfold handled. simpl. lia. Qed.
Lemma counts_failed : counts (count failed).
Proof. intros w. unfold handled. simpl. lia. Qed.

Hint Resolve quiet_store quiet_executor quiet_tracker quiet_lift quiet_ret quiet_bind
  counts_bind counts_raise counts_notified counts_skipped counts_failed : core.

Lemma counts_settle job window iso n o : counts (settle orphan_done job window iso n o).
Proof. unfold settle, mark. repeat case_match; auto 8. Qed.

Lemma quiet_collect owner ids index : quiet (collect_job_digest (E:=E) (S:=S) owner ids index).
Proof.
  induction ids as [|id ids IH]; simpl; [auto|].
  apply quiet_bind; [auto|]. intros hist. apply quiet_bind; [done|]. by intros [rs ls].
Qed.

Lemma counts_notify job index t iso : counts (notify_job outcome orphan_done job index t iso).
Proof.
  unfold notify_job. apply counts_bind; [auto|]. intros [|]; [auto|].
  apply counts_bind; [apply quiet_collect|]. intros [records labels].
  case_bool_decide; [auto 8|]. apply counts_bind; [auto|]. intros [|]; [|auto]. simpl.
  apply counts_bind; [auto|]. intros window. apply counts_bind; [auto|].
  intros [|]; [|auto]. simpl. apply counts_bind; [unfold mark; auto|]. intros _.
  apply counts_bind; [by intros w|]. intros [n o]. apply counts_settle.
Qed.

(** Plan B accounts for every job: when it returns, each enabled job was
    counted exactly once, as notified, skipped or failed. *)
Theorem every_job_counted jobs index t iso w w' :
  run_plan_b outcome orphan_done jobs index t iso w = (Ok tt, w') →
  handled w'.(summary) = handled w.(summary) + Z.of_nat (length jobs).
Proof.
  unfold run_plan_b. revert w. induction jobs as [|job jobs IH]; intros w; simpl.
  { intros [= <-]. lia. }
  unfold mbind'. set (body := mtry _ _).
  assert (∀ v, fst (body v) = Ok tt → handled (snd (body v)).(summary) = handled v.(summary) + 1) as Hb.
  { intros v. unfold body, mtry.
    pose proof (counts_notify job (default ∅ (index !! job_owner_id job)) t iso v) as Hc.
    destruct (notify_job _ _ _ _ _ _ v) as [[[]|e] v']; simpl in *; [done|].
    case_match; [|done]. intros _. pose proof (counts_failed v') as Hf. simpl in Hf |- *. rewrite Hf. lia. }
  specialize (Hb w). destruct (body w) as [[[]|e] w1] eqn:Eb; [|done].
  intros Hrest. apply IH in Hrest. simpl in Hb. specialize (Hb eq_refl). lia.
Qed.

(** ** Accepted schedules *)

Lemma required_periods_bad jobs t acc job e :
  job ∈ jobs → job_period job.(schedule_cron) t = Raise e →
  is_ok (required_periods jobs t acc) = false.
Proof.
  intros Hj He. revert acc. induction jobs as [|j jobs IH]; intros acc; simpl; [by apply elem_of_nil in Hj|].
  apply elem_of_cons in Hj as [<-|Hj]; [by rewrite He|].
  destruct (job_period (schedule_cron j) t); [by apply IH|done].
Qed.

Lemma required_periods_raise jobs t acc e :
  required_periods jobs t acc = Raise e →
  ∃ job, job ∈ jobs ∧ job_period job.(schedule_cron) t = Raise e.
Proof.
  revert acc. induction jobs as [|j jobs IH]; intros acc; simpl; [done|].
  destruct (job_period (schedule_cron j) t) as [p|e'] eqn:Ej; simpl.
  - intros (job&?&?)%IH. exists job. split; [by right|done].
  - intros [= ->]. exists j. split; [by left|done].
Qed.
End Counters.

(** * When a tick raises *)

Section Raises.
Context {E S : Type} `{EvalPorts E} `{StateStore S} `{Cron}.
Variable outcome : nat → SendOutcome.
Variable orphan_done : nat → nat → bool.
Implicit Types w : Ev E S.

(** The collaborators raise [Exception]s only: no cancellation, no exit. *)
Record tame_world : Prop := {
  tame_list : tame list_all_enabled_jobs;
  tame_load o : tame (load o);
  tame_sleep d : tame (sleep d);
  tame_now : tame utcnow_iso;
  tame_tier n : tame_result (tier_available n);
  tame_select n subs : tame_result (select n subs);
  tame_fetch n subs f url : select n subs = Ok f → tame (f url);
  tame_factory spec : tame_result (parser_factory spec);
  tame_parser spec p html : parser_factory spec = Ok p → tame_result (p html);
  tame_record o r : tame (record (S:=S) o r);
  tame_history o s n : tame (history (S:=S) o s n);
  tame_claim r : tame (record_job_run (S:=S) r);
  tame_update j ws st sa er : tame (update_job_run (S:=S) j ws st sa er);
  tame_active o j : tame (has_active_job_run (S:=S) o j);
  tame_reap o j b : tame (reap_stale_job_run (S:=S) o j b);
  tame_prev expr tz base : tame_result (get_prev expr tz base);
  tame_outcome n e : outcome n = Raised e → is_Exception e.(exn_class) = true;
}.

Lemma tame_outside {A} (m : M E A) : tame m → tame (S:=Ev E S) (on_outside m).
Proof. intros Hm w. specialize (Hm w.(outside)). unfold on_outside. by destruct (m _). Qed.

Lemma tame_store {A} (m : M S A) : tame m → tame (S:=Ev E S) (on_store m).
Proof. intros Hm w. specialize (Hm w.(store)). unfold on_store. by destruct (m _). Qed.

Lemma total_executor {A} (f : SendExecutor → A * SendExecutor) : total (S:=Ev E S) (on_executor f).
Proof. intros w. unfold on_executor. by destruct (f _). Qed.

Lemma total_tracker {A} (f : Tracker → A * Tracker) : total (S:=Ev E S) (on_tracker f).
Proof. intros w. unfold on_tracker. by destruct (f _). Qed.

Lemma total_count f : total (S:=Ev E S) (count f).
Proof. by intros w. Qed.

Lemma tame_window cron tz now :
  (∀ expr tz base, tame_result (get_prev expr tz base)) →
  tame_result (compute_window_start cron tz now).
Proof.
  intros Hp. unfold compute_window_start. destruct (zone_known tz); [|done].
  specialize (Hp cron tz (now_utc now + INCLUSIVE_EPSILON)). by destruct (get_prev _ _ _).
Qed.

Hint Resolve tame_outside tame_store total_executor total_tracker total_count tame_total
  tame_window : core.

Lemma tame_settle job window iso n o :
  (∀ j ws st sa er, tame (update_job_run (S:=S) j ws st sa er)) →
  (∀ e, o = Raised e → is_Exception e.(exn_class) = true) →
  tame (S:=Ev E S) (settle orphan_done job window iso n o).
Proof.
  intros Hu Ho. unfold settle, mark.
  assert (∀ e, tame (S:=Ev E S) (let! _ := on_store (update_job_run (job_id job) window "error" None
            (Some (error_text e))) in count failed)) as Hm by (intros; apply tame_bind; auto).
  destruct o as [[|]|e|b].
  - apply tame_bind; auto.
  - apply tame_bind; auto.
  - destruct (is_a _ _); [apply tame_bind; auto|]. rewrite (Ho e eq_refl). apply Hm.
  - apply tame_bind; auto.
Qed.

Lemma tame_notify job index t iso :
  tame_world → tame (S:=Ev E S) (notify_job outcome orphan_done job index t iso).
Proof.
  intros W. destruct W. unfold notify_job. apply tame_bind; [auto|]. intros [|]; [auto|].
  apply tame_bind.
  { generalize (job_source_ids job). intros ids. induction ids as [|id ids IH]; simpl;
      [auto with kerdoos|]. apply tame_bind; [auto|]. intros hist.
    apply tame_bind; [done|]. intros [rs ls]. auto with kerdoos. }
  intros [records labels]. case_bool_decide.
  { apply tame_bind; [auto with kerdoos|]. intros window. apply tame_bind; auto. }
  apply tame_bind; [auto|]. intros [|]; [|simpl; auto]. simpl.
  apply tame_bind; [auto with kerdoos|]. intros window. apply tame_bind; [auto|].
  intros [|]; [|simpl; auto]. simpl. apply tame_bind; [unfold mark; auto|]. intros _.
  intros w. unfold mbind', submit. simpl. apply tame_settle; [done|].
  intros e He. by eapply tame_outcome0.
Qed.

Lemma tame_scrape_one (fetcher : Fetcher E) (parser : Parser) owner id url now :
  tame_world → tame (fetcher url) → (∀ h, tame_result (parser h)) →
  tame (S:=Ev E S) (scrape_and_record (λ d, on_outside (sleep d)) (on_outside utcnow_iso)
            (λ u, on_outside (fetcher u)) parser (λ o r, on_store (record o r))
            owner id url now).
Proof.
  intros W Hf Hp. destruct W. apply tame_scrape_and_record; auto with kerdoos.
Qed.

(** The exceptions a computation raises all satisfy [P]. *)
Definition raises_only {X A} (P : exn → Prop) (m : M X A) : Prop :=
  ∀ x, match fst (m x) with Ok _ => True | Raise e => P e end.

Lemma raises_only_total {X A} P (m : M X A) : total m → raises_only P m.
Proof. intros Hm x. specialize (Hm x). by destruct (fst (m x)). Qed.

Lemma raises_only_weaken {X A} (P Q : exn → Prop) (m : M X A) :
  (∀ e, P e → Q e) → raises_only P m → raises_only Q m.
Proof. intros HPQ Hm x. specialize (Hm x). destruct (fst (m x)); auto. Qed.

Lemma raises_only_bind {X A B} P (m : M X A) (k : A → M X B) :
  raises_only P m → (∀ a, raises_only P (k a)) → raises_only P (mbind' m k).
Proof.
  intros Hm Hk x. specialize (Hm x). unfold mbind'.
  destruct (m x) as [[a|e] y]; [apply Hk|exact Hm].
Qed.

Lemma raises_plan_a jobs index t iso :
  tame_world →
  raises_only (X:=Ev E S) (λ e, required_periods jobs t [] = Raise e) (run_plan_a jobs index t iso).
Proof.
  intros W. unfold run_plan_a. apply raises_only_bind.
  { intros w. by destruct (required_periods jobs t []). }
  intros required. apply raises_only_total, total_mfor. intros [[owner id] period].
  destruct (index !! owner ≫= _) as [[[p s] site]|]; [|auto with kerdoos].
  apply total_try; [|auto]. pose proof W as W'. destruct W'. unfold scrape_source.
  apply tame_bind; [auto|]. intros hist. apply tame_bind.
  { apply tame_lift. unfold fresh_enough. destruct hist as [|r hist]; [done|].
    unfold parse_ts. repeat case_match; done. }
  intros [|]; [auto with kerdoos|]. apply tame_bind.
  { apply tame_lift. unfold tier_unavailable. specialize (tame_tier0 (site_fetcher site)).
    by destruct (tier_available _). }
  intros [|]; [auto with kerdoos|].
  intros w. unfold mbind' at 1, mlift at 1.
  pose proof (tame_select0 (site_fetcher site) (subresource_domains site)) as Hs.
  destruct (select _ _) as [f|e] eqn:Es; [|done].
  unfold mbind' at 1, mlift at 1. pose proof (tame_factory0 (site_parser site)) as Hpf.
  destruct (parser_factory _) as [p0|e] eqn:Ep; [|done].
  apply tame_bind; [|auto]. eapply tame_scrape_one; eauto.
Qed.

Lemma total_reap jobs t timeout :
  tame_world → total (S:=Ev E S) (reap_stale_job_runs jobs t timeout).
Proof.
  intros W. destruct W. unfold reap_stale_job_runs. apply total_mfor. intros j.
  apply total_try; [apply tame_bind|]; auto with kerdoos.
Qed.

(** The registry of [o] has a source that names an unknown site. *)
Definition dangling (o : string) (e : exn) : Prop :=
  ∃ u reg, fst (load o u) = Ok reg ∧ (iter_sources reg).2 = Some e.

Lemma raises_load_indexes owners acc :
  tame_world →
  raises_only (X:=Ev E S) (λ e, ∃ o, o ∈ owners ∧ dangling o e) (load_indexes owners acc).
Proof.
  intros W. revert acc. induction owners as [|o owners IH]; intros acc; [done|].
  assert (∀ acc, raises_only (X:=Ev E S) (λ e, ∃ o', o' ∈ o :: owners ∧ dangling o' e)
            (load_indexes owners acc)) as IH'.
  { intros acc'. eapply raises_only_weaken; [|apply IH]. intros e (o'&?&?).
    exists o'. split; [by right|done]. }
  simpl. intros v. unfold mbind' at 1, mtry, mbind' at 1, on_outside.
  pose proof (tame_load W o (outside v)) as Ht.
  destruct (load o (outside v)) as [[reg|e] u] eqn:El; simpl in *.
  - unfold mbind', mlift, build_source_index.
    destruct (iter_sources reg) as [items [e|]] eqn:Ei; [|apply IH'].
    exists o. split; [by left|]. exists (outside v), reg. by rewrite El, Ei.
  - rewrite Ht. apply IH'.
Qed.


(** One refused schedule stops everybody: [cron_expr] is only checked for
    its five fields when a job is authored, and [_job_period] runs outside
    every [try].  If croniter refuses the schedule of a single enabled job, of
    any owner, the tick raises before a single source is scraped or a single
    digest is handed over, for every owner, and so does every later tick. *)
Theorem one_bad_schedule_stops_every_tenant t timeout w jobs u job e :
  list_all_enabled_jobs w.(outside) = (Ok jobs, u) →
  job ∈ jobs → job_period job.(schedule_cron) t = Raise e →
  let '(r, w') := evaluate_tick (S:=S) outcome orphan_done t timeout w in
  is_ok r = false ∧ w'.(outbox) = w.(outbox) ∧
  w'.(summary).(scraped_sources) = 0 ∧ w'.(summary).(notified_jobs) = 0.
Proof.
  intros Hl Hjob He. set (I := λ v : Ev E S, v.(outbox) = w.(outbox) ∧
    v.(summary).(scraped_sources) = 0 ∧ v.(summary).(notified_jobs) = 0).
  unfold evaluate_tick. erewrite mbind_ok by reflexivity.
  erewrite mbind_ok.
  2: { unfold mtry, mbind', on_outside. simpl. rewrite Hl. reflexivity. }
  destruct jobs as [|j jobs]; [by apply elem_of_nil in Hjob|].
  assert (∀ acc, pres I (load_indexes (sort_by str_leb (remove_dups (job_owner_id <$> j :: jobs))) acc))
    as Hload by (intros acc; apply pres_load_indexes; [done|]; intros v (?&?&?); done).
  assert (pres I (reap_stale_job_runs (j :: jobs) t timeout)) as Hreap
    by (apply pres_reap_all; intros; by apply pres_store).
  match goal with |- context [mbind' (reap_stale_job_runs _ _ _) _ ?w0] =>
    assert (I w0) as HI by done; specialize (Hreap w0 HI) end.
  unfold mbind' at 1. destruct (reap_stale_job_runs _ _ _ _) as [[[]|e1] w1]; [|done].
  specialize (Hload ∅ w1 Hreap).
  unfold mbind' at 1. destruct (load_indexes _ _ _) as [[index|e2] w2]; [|done].
  unfold run_plan_a, mlift, mbind' at 1.
  pose proof (required_periods_bad (j :: jobs) t [] job e Hjob He) as Hbad.
  destruct (required_periods (j :: jobs) t []) as [req|e3]; [done|]. simpl. by simpl in Hload.
Qed.
End Raises.

(** * Orphaned sends *)

Section Orphans.
Context {E S : Type} `{EvalPorts E} `{StateStore S} `{Cron}.
Variable outcome : nat → SendOutcome.
Variable orphan_done : nat → nat → bool.
Implicit Types w : Ev E S.

Variable workers : Z.
#[local] Arguments seq : simpl never.

(** Every pool ever created is in use, retired with an orphan, or shut
    down. *)
Definition pools (r : RotatingSendExecutor) : list nat :=
  (r.(current) :: r.(retired).*1 ++ r.(stopped))%list.

Definition pools_ok (r : RotatingSendExecutor) : Prop :=
  pools r ≡ₚ seq 0 r.(next_pool) ∧
  r.(max_live_orphans) = workers * LIVE_ORPHANS_PER_WORKER.

Definition bounded (slack : Z) (w : Ev E S) : Prop :=
  match w.(executor) with
  | Rotating r => pools_ok r ∧ Z.of_nat (length r.(retired)) + slack ≤ r.(max_live_orphans)
  | DaemonThread => False
  end.

Lemma filter_split {A} (P Q : A → Prop) `{∀ x, Decision (P x)} `{∀ x, Decision (Q x)} (l : list A) :
  (∀ x, Q x ↔ ¬ P x) → l ≡ₚ filter P l ++ filter Q l.
Proof.
  intros HQ. induction l as [|x l IH]; [done|]. rewrite !filter_cons.
  specialize (HQ x). repeat case_decide; try tauto; simpl; rewrite IH at 1; [done|].
  apply Permutation_middle.
Qed.

Lemma prune_pools r : pools_ok r → pools_ok (prune_retired orphan_done r).
Proof.
  intros [Hp Hm]. split; [|done]. rewrite <- Hp. unfold pools, prune_retired. simpl.
  apply Permutation_skip. rewrite (app_assoc _ (stopped r)), <- app_assoc.
  rewrite (Permutation_app_comm (stopped r)), app_assoc. apply Permutation_app_tail.
  rewrite <- fmap_app. apply Permutation_map. symmetry. apply filter_split.
  intros [p f]. simpl. destruct (orphan_done _ f); naive_solver.
Qed.

Lemma prune_length r :
  (length (prune_retired orphan_done r).(retired) ≤ length r.(retired))%nat.
Proof. simpl. apply length_filter. Qed.

Lemma seq_next n : seq 0 n ++ [n] ≡ₚ seq 0 (Datatypes.S n).
Proof. by rewrite seq_S. Qed.

Lemma rotate_pools o r : pools_ok r → pools_ok (rotate_rotating orphan_done o r).
Proof.
  intros [Hp Hm]. destruct o as [f|]; simpl; [apply prune_pools|]; (split; [|done]);
    unfold pools in *; simpl; rewrite <- seq_next, <- Hp.
  - etransitivity; [|apply Permutation_app_comm]. simpl. apply Permutation_skip.
    rewrite fmap_app, <- app_assoc. simpl. symmetry. apply Permutation_middle.
  - etransitivity; [|apply Permutation_app_comm]. simpl. apply Permutation_skip.
    rewrite app_assoc. apply (Permutation_app_comm _ [_]).
Qed.

Lemma bounded_can_submit w :
  bounded 0 w →
  let '(r, w') := on_executor (A:=bool) (can_submit orphan_done) w in
  ∃ b, r = Ok b ∧ bounded 0 w' ∧ (b = true → bounded 1 w').
Proof.
  unfold bounded, on_executor, can_submit. destruct (executor w) as [r|]; simpl; [|done].
  intros [Hp Hlen]. eexists. split; [done|].
  pose proof (prune_length r). split.
  - split; [by apply prune_pools|]. simpl in *. lia.
  - intros Hb%Z.ltb_lt. split; [by apply prune_pools|]. simpl in *. lia.
Qed.

Lemma bounded_weaken w : bounded 1 w → bounded 0 w.
Proof. unfold bounded. destruct (executor w); [|done]. intros [? ?]. split; [done|lia]. Qed.

Lemma bounded_rotate o w :
  bounded 1 w → bounded 0 (snd (on_executor (A:=unit) (λ x, (tt, rotate orphan_done o x)) w)).
Proof.
  unfold bounded, on_executor. destruct (executor w) as [r|]; simpl; [|done].
  intros [Hp Hlen]. split; [by apply rotate_pools|]. destruct o as [f|]; simpl.
  - match goal with |- context [filter ?P ?l] => pose proof (length_filter P l) as Hl end.
    rewrite length_app in Hl. simpl in Hl. lia.
  - lia.
Qed.

(** From a state with room for one more orphan to a state within the
    ceiling. *)
Definition within {A} (m : M (Ev E S) A) : Prop := ∀ w, bounded 1 w → bounded 0 (snd (m w)).

Lemma within_pres {A} (m : M (Ev E S) A) : pres (bounded 0) m → within m.
Proof. intros Hm w Hw. by apply Hm, bounded_weaken. Qed.

Lemma within_bind {A B} (m : M (Ev E S) A) (k : A → M (Ev E S) B) :
  pres (bounded 1) m → (∀ a, within (k a)) → within (mbind' m k).
Proof.
  intros Hm Hk w Hw. unfold mbind'. specialize (Hm w Hw).
  destruct (m w) as [[a|e] w']; [by apply Hk|]. by apply bounded_weaken.
Qed.

Lemma within_settle job window iso n o : within (settle orphan_done job window iso n o).
Proof.
  assert (∀ (st : string) sa er f, pres (bounded 0) (let! _ := mark (E:=E) job window st sa er in count f)) as Hm.
  { intros. apply pres_bind; [by apply pres_store|]. intros _. by apply pres_count. }
  assert (∀ b er f, within (let! _ := on_executor (λ x, (tt, rotate orphan_done b x)) in
            let! _ := mark job window "error" None er in count f)) as Hr.
  { intros b er f w Hw. unfold mbind' at 1. pose proof (bounded_rotate b w Hw) as H'.
    unfold on_executor in *. simpl in *. by apply Hm. }
  unfold settle. repeat case_match; auto using within_pres with kerdoos.
Qed.

Lemma bounded_notify job index t iso :
  pres (bounded 0) (notify_job outcome orphan_done job index t iso).
Proof.
  unfold notify_job. apply pres_bind; [by apply pres_store|]. intros [|]; [by apply pres_count|].
  apply pres_bind.
  { generalize (job_source_ids job). intros ids. induction ids as [|id ids IH]; simpl;
      [auto with kerdoos|]. apply pres_bind; [by apply pres_store|]. intros hist.
    apply pres_bind; [done|]. intros [rs ls]. auto with kerdoos. }
  intros [records labels]. case_bool_decide.
  { apply pres_bind; [auto with kerdoos|]. intros window.
    apply pres_bind; [by apply pres_tracker|]. intros _. by apply pres_count. }
  intros w Hw. unfold mbind' at 1. pose proof (bounded_can_submit w Hw) as Hc.
  destruct (on_executor _ w) as [[b|e] w1]; destruct Hc as (b'&[= <-]&Hw1&Hroom).
  destruct b; [|done]. simpl negb. specialize (Hroom eq_refl). revert w1 Hroom Hw1.
  assert (∀ m : M (Ev E S) unit, within m → ∀ w1, bounded 1 w1 → bounded 0 w1 → bounded 0 (m w1).2)
    as Hgo by auto.
  apply Hgo, within_bind; [auto with kerdoos|]. intros window.
  apply within_bind; [by apply pres_store|]. intros [|]; [|by intros w1 ?%bounded_weaken].
  simpl. apply within_bind; [by apply pres_store|]. intros _.
  apply within_bind; [by intros w1|]. intros [n o]. apply within_settle.
Qed.

Lemma bounded_ticks ticks timeout :
  pres (bounded 0) (mfor (λ now, mtry (evaluate_tick outcome orphan_done now timeout)
                                      (λ _, mret' tt)) ticks).
Proof.
  apply pres_loop_body; try done; intros; try (by apply pres_store). by apply bounded_notify.
Qed.

Lemma shutdown_all r :
  pools_ok r → ∀ p, (p < r.(next_pool))%nat → p ∈ (shutdown_rotating r).(stopped).
Proof.
  intros [Hp _] p Hlt. simpl. assert (p ∈ seq 0 r.(next_pool)) as Hin by (apply elem_of_seq; lia).
  rewrite <- Hp in Hin. unfold pools in Hin. set_solver.
Qed.
End Orphans.

(** Stuck sends cost a bounded amount: between any two ticks of a loop that
    starts on a fresh executor, at most three orphaned pools per worker are
    alive (a send past that ceiling is refused, and its window is not
    consumed), and when the loop ends every pool it ever created has been shut
    down. *)
Theorem orphans_bounded {E S} `{EvalPorts E} `{StateStore S} `{Cron} outcome orphan_done
    ticks timeout workers (w : Ev E S) :
  0 ≤ workers → w.(executor) = Rotating (new_executor workers) →
  match (snd (mfor (λ now, mtry (evaluate_tick outcome orphan_done now timeout)
                                (λ _, mret' tt)) ticks w)).(executor) with
  | Rotating r => Z.of_nat (length r.(retired)) ≤ 3 * workers
  | DaemonThread => False
  end ∧
  match (snd (run_evaluator_loop outcome orphan_done ticks timeout w)).(executor) with
  | Rotating r => r.(retired) = [] ∧ ∀ p, (p < r.(next_pool))%nat → p ∈ r.(stopped)
  | DaemonThread => False
  end.
Proof.
  intros Hw Hx. assert (bounded workers 0 w) as Hb.
  { unfold bounded. rewrite Hx. simpl. split; [|unfold LIVE_ORPHANS_PER_WORKER; lia].
    split; [reflexivity|done]. }
  pose proof (bounded_ticks outcome orphan_done workers ticks timeout w Hb) as Ht.
  unfold run_evaluator_loop, mfinally. destruct (mfor _ ticks w) as [r w'].
  unfold bounded in Ht. simpl in *. destruct (executor w') as [x|] eqn:Ex; [|done].
  destruct Ht as [Hp Hlen]. split.
  - destruct Hp as [_ Hm]. unfold LIVE_ORPHANS_PER_WORKER in *. lia.
  - split; [done|].
    change (∀ p, (p < next_pool x)%nat → p ∈ (shutdown_rotating x).(stopped)).
    by eapply shutdown_all.
Qed.

(** * The warnings *)

(** The purge keeps an entry that is not too old. *)
Lemma filter_keeps_recent (k : string * string) t0 now (tr : Tracker) :
  now ≤ t0 + EMPTY_DIGEST_WARNING_TTL → od_get k tr = Some t0 →
  od_get k (filter (λ kv, now - EMPTY_DIGEST_WARNING_TTL ≤ kv.2) tr) = Some t0.
Proof.
  intros Hnow. induction tr as [|[k' v] tr IH]; [done|].
  rewrite filter_cons. cbn [od_get snd]. destruct (decide (k = k')) as [->|Hk]; intros Hget.
  - simplify_eq. rewrite decide_True by lia. cbn [od_get]. by rewrite decide_True.
  - case_decide; cbn [od_get]; [rewrite decide_False by done|]; by apply IH.
Qed.

(** The "nothing to report" warning fires once per window: after it fired
    for a (job, window) at [t0], no later check of the same key within the
    two days fires again, whatever other keys are checked in between. *)
Theorem warn_once job window t0 tr checks t :
  Forall (λ c : string * string * Z, c.2 ≤ t0 + EMPTY_DIGEST_WARNING_TTL) checks →
  t ≤ t0 + EMPTY_DIGEST_WARNING_TTL →
  let after := foldl (λ tr c, (should_warn c.1.1 c.1.2 c.2 tr).2) in
  (should_warn job window t0 tr).1 = true →
  (should_warn job window t (after ((should_warn job window t0 tr).2) checks)).1 = false.
Proof.
  intros Hc Ht after Hw.
  enough (od_get (job, window) (after ((should_warn job window t0 tr).2) checks) = Some t0) as Hk.
  { unfold should_warn. by rewrite (filter_keeps_recent (job, window) t0). }
  assert (od_get (job, window) (should_warn job window t0 tr).2 = Some t0) as H0.
  { revert Hw. unfold should_warn. destruct (od_get _ (filter _ _)); [done|].
    intros _. apply od_get_set_eq. }
  clear Hw Ht. revert H0. generalize ((should_warn job window t0 tr).2). unfold after.
  induction Hc as [|[[j w] now] checks Hnow _ IH]; intros tr0 H0; simpl; [done|].
  apply IH. simpl in Hnow. unfold should_warn.
  pose proof (filter_keeps_recent (job, window) t0 now tr0 Hnow H0) as Hf.
  destruct (od_get (j, w) (filter _ tr0)) eqn:E; simpl; [done|].
  rewrite od_get_set_ne; [done|]. intros [= -> ->]. congruence.
Qed.

Lemma warn_once_witness :
  let ok := (should_warn "j" "w" 10 []).1 = true in
  ok ∧ (should_warn "j" "w" 99 (should_warn "k" "w" 20 ((should_warn "j" "w" 10 []).2)).2).1 = false.
Proof.
  split; [reflexivity|].
  apply (warn_once "j" "w" 10 [] [(("k", "w"), 20)] 99).
  - repeat constructor. vm_compute. discriminate.
  - vm_compute. discriminate.
  - reflexivity.
Defined.

(** * The scrape cadence *)

Section Cadence.
Context `{Cron}.

Definition references (job : DigestJob) (k : string * string) : Prop :=
  job.(job_owner_id) = k.1 ∧ k.2 ∈ job.(job_source_ids).

Lemma require_get owner period ids acc o id :
  od_get (o, id) (require owner period ids acc) =
  if bool_decide (owner = o ∧ id ∈ ids)
  then Some (match od_get (o, id) acc with Some c => Z.min c period | None => period end)
  else od_get (o, id) acc.
Proof.
  unfold require. revert acc. induction ids as [|x ids IH]; intros acc; simpl.
  { rewrite bool_decide_eq_false_2; [done|]. intros [_ Hn]. by apply elem_of_nil in Hn. }
  rewrite IH. clear IH. set (acc' := match od_get (owner, x) acc with Some _ => _ | None => _ end).
  assert (od_get (o, id) acc' =
    if bool_decide (owner = o ∧ id = x)
    then Some (match od_get (o, id) acc with Some c => Z.min c period | None => period end)
    else od_get (o, id) acc) as ->.
  { unfold acc'. case_bool_decide as Hk.
    - destruct Hk as [-> ->]. destruct (od_get (o, x) acc) as [c|] eqn:E.
      + destruct (Z.ltb_spec period c); rewrite ?od_get_set_eq, ?E; f_equal; lia.
      + by rewrite od_get_set_eq.
    - assert ((owner, x) ≠ (o, id)) by (intros [= -> ->]; by apply Hk).
      destruct (od_get (owner, x) acc); [destruct (period <? z)|]; by rewrite ?od_get_set_ne. }
  repeat case_bool_decide; try (f_equal; done); try (exfalso; set_solver);
    destruct (od_get (o, id) acc); try (f_equal; lia); set_solver.
Qed.

Lemma required_periods_spec jobs t acc req k :
  required_periods jobs t acc = Ok req →
  match od_get k req with
  | Some p =>
      (od_get k acc = Some p ∨
       ∃ job, job ∈ jobs ∧ references job k ∧ job_period job.(schedule_cron) t = Ok p) ∧
      (∀ c, od_get k acc = Some c → p ≤ c) ∧
      (∀ job p', job ∈ jobs → references job k →
         job_period job.(schedule_cron) t = Ok p' → p ≤ p')
  | None => od_get k acc = None ∧ ∀ job, job ∈ jobs → ¬ references job k
  end.
Proof.
  revert acc. induction jobs as [|j jobs IH]; intros acc; simpl.
  { intros [= <-]. destruct (od_get k acc) as [p|]; split_and!.
    - by left.
    - intros c [= ->]. lia.
    - by intros job p' ?%elem_of_nil.
    - done.
    - by intros job ?%elem_of_nil. }
  destruct (job_period (schedule_cron j) t) as [period|e] eqn:Ej; simpl; [|done].
  intros Hreq. specialize (IH _ Hreq). destruct k as [o id]. rewrite require_get in IH.
  case_bool_decide as Hk.
  - destruct (od_get (o, id) req) as [p|]; [|naive_solver].
    destruct IH as (Hor&Hacc&Hall).
    pose proof (Hacc _ eq_refl) as Hp. split_and!.
    + destruct (od_get (o, id) acc) as [c|]; destruct Hor as [[= Hor]|(job&?&?&?)];
        [|right; exists job; split; [by right|done]| |right; exists job; split; [by right|done]].
      * destruct (Z.min_spec c period) as [[? E]|[? E]]; rewrite E in Hor.
        -- left. by f_equal.
        -- right. exists j. split; [left|]. split; [done|]. by rewrite Ej, Hor.
      * right. exists j. split; [left|]. split; [done|]. by rewrite Ej, Hor.
    + intros c Hc. rewrite Hc in Hp. lia.
    + intros job p' [->|Hj]%elem_of_cons Href Hp'; [|by eapply Hall].
      rewrite Ej in Hp'. injection Hp' as <-. destruct (od_get (o, id) acc); lia.
  - destruct (od_get (o, id) req) as [p|].
    + destruct IH as (Hor&Hacc&Hall). split_and!; [|done|].
      * destruct Hor as [?|(job&?&?&?)]; [by left|right; exists job; split; [by right|done]].
      * intros job p' [->|Hj]%elem_of_cons Href; [by destruct Hk|by apply Hall].
    + destruct IH as [Hn Hall]. split; [done|].
      intros job [->|Hj]%elem_of_cons; [done|by apply Hall].
Qed.

(** A source is due at the cadence of its most frequent job: the period
    Plan A uses for (owner, source) is the period of some enabled job of that
    owner that lists the source, and no such job has a shorter one; a source
    no job lists is not scraped at all. *)
Theorem cadence_is_shortest jobs t req owner id :
  required_periods jobs t [] = Ok req →
  match od_get (owner, id) req with
  | Some p =>
      (∃ job, job ∈ jobs ∧ references job (owner, id) ∧
              job_period job.(schedule_cron) t = Ok p) ∧
      (∀ job p', job ∈ jobs → references job (owner, id) →
         job_period job.(schedule_cron) t = Ok p' → p ≤ p')
  | None => ∀ job, job ∈ jobs → ¬ references job (owner, id)
  end.
Proof.
  intros Hreq. pose proof (required_periods_spec jobs t [] req (owner, id) Hreq) as Hs.
  destruct (od_get (owner, id) req); naive_solver.
Qed.
End Cadence.


(** * A concrete evaluator *)

Module EvalDemo.
Definition job (id cron : string) : DigestJob :=
  {| job_id := id; job_owner_id := "ana"; job_name := id; job_frequency_kind := "hourly";
     schedule_cron := cron; job_timezone := "UTC"; job_template_id := "default";
     job_options := default_options; job_enabled := true; job_created_at := None;
     job_source_ids := ["gpu:kabum:1"] |}.

Definition of_owner (owner : string) (j : DigestJob) : DigestJob :=
  {| job_id := j.(job_id); job_owner_id := owner; job_name := j.(job_name);
     job_frequency_kind := j.(job_frequency_kind); schedule_cron := j.(schedule_cron);
     job_timezone := j.(job_timezone); job_template_id := j.(job_template_id);
     job_options := j.(job_options); job_enabled := j.(job_enabled);
     job_created_at := j.(job_created_at); job_source_ids := j.(job_source_ids) |}.

Definition kabum : SiteConfig :=
  {| site_name := "kabum"; site_fetcher := "http";
     site_parser := {| spec_kind := "jsonld"; spec_pix := None; spec_card := None;
                       spec_availability := None |};
     site_domain := "kabum.com.br"; tier2_label := None; subresource_domains := [] |}.

Definition gpu : Product :=
  {| prod_id := "gpu"; prod_name := None;
     prod_sources := [{| source_id := "gpu:kabum:1"; product_id := "gpu"; source_site := "kabum";
                         source_url := "https://kabum.com.br/p/1" |}] |}.

(** The world outside is the list of enabled jobs; of the two owners, [bia]'s
    registry has lost its site, and no page has a price. *)
#[global] Instance ports : EvalPorts (list DigestJob) := {
  list_all_enabled_jobs := mget;
  load := λ o, mret' {| sites := if bool_decide (o = "bia") then ∅ else {["kabum" := kabum]};
                        products := [gpu] |};
  select := λ _ _, Ok (λ _, mret' {| html := ""; http_status := 200; method := "http"; challenged := false |});
  tier_available := λ _, Ok true;
  parser_factory := λ _, Ok (λ _, raise ParseError "no price");
  sleep := λ _, mret' tt;
  utcnow_iso := mret' "";
}.

(** croniter on the hourly grid, refusing what it cannot parse. *)
#[global] Instance cron : Cron := {
  zone_known := λ tz, bool_decide (tz = "UTC");
  local_to_utc := λ _ w, w;
  get_prev := λ expr _ base,
    if bool_decide (expr = "0 * * * *") then Ok (Aware ((base - 1) / Hourly.HOUR * Hourly.HOUR))
    else raise ValueError "not a valid cron";
  get_next2 := λ expr now,
    if bool_decide (expr = "0 * * * *") then Ok ((now / Hourly.HOUR + 1) * Hourly.HOUR,
                                                  (now / Hourly.HOUR + 2) * Hourly.HOUR)
    else raise ValueError "not a valid cron";
}.

Definition state0 : StateDb :=
  (Sqlite.record "ana"
     {| sr_source_id := "gpu:kabum:1"; sr_ts := "2026-03-11T09:00:00+00:00"; sr_status := OK;
        sr_price_pix_cents := Some 100; sr_price_card_cents := None; sr_currency := Some "BRL";
        sr_availability := IN_STOCK; sr_method := Some "http"; sr_error := None;
        sr_price_pix_member_cents := None; sr_price_card_member_cents := None;
        sr_raw_ref := None |} empty_state_db).2.

Definition world (jobs : list DigestJob) : Ev (list DigestJob) StateDb :=
  mkEv jobs state0 (Rotating (new_executor 1)) [] no_summary [].

Definition t0 : Z := 63908820000000000.

(** The first send succeeds, the others outlive their deadline. *)
Definition outcome (n : nat) : SendOutcome :=
  match n with O => Returned true | _ => TimedOut false end.
Definition never_done (i f : nat) : bool := false.
End EvalDemo.

Lemma at_most_once_witness :
  let w := EvalDemo.world [EvalDemo.job "j1" "0 * * * *"] in
  let ticks := [EvalDemo.t0; EvalDemo.t0 + 60000000; EvalDemo.t0 + Hourly.HOUR] in
  let w' := snd (run_evaluator_loop EvalDemo.outcome EvalDemo.never_done ticks 300 w) in
  sub_key <$> w'.(outbox) = [("j1", "2026-03-11T10:00:00+00:00"); ("j1", "2026-03-11T11:00:00+00:00")] ∧
  NoDup (sub_key <$> w'.(outbox)).
Proof.
  split; [vm_compute; reflexivity|].
  apply (at_most_once EvalDemo.outcome EvalDemo.never_done _ 300
           (EvalDemo.world [EvalDemo.job "j1" "0 * * * *"])). reflexivity.
Defined.

Lemma every_job_counted_witness :
  let res := run_plan_b EvalDemo.outcome EvalDemo.never_done
          [EvalDemo.job "j1" "0 * * * *"; EvalDemo.job "j2" "bad"] ∅ EvalDemo.t0
          (isoformat EvalDemo.t0) (EvalDemo.world []) in
  fst res = Ok tt ∧ handled (snd res).(summary) = 2.
Proof.
  intros res. assert (fst res = Ok tt) as E by (vm_compute; reflexivity).
  split; [exact E|].
  rewrite (every_job_counted EvalDemo.outcome EvalDemo.never_done
    [EvalDemo.job "j1" "0 * * * *"; EvalDemo.job "j2" "bad"] ∅ EvalDemo.t0
    (isoformat EvalDemo.t0) (EvalDemo.world []) (snd res)); [reflexivity|].
  rewrite <- E. apply surjective_pairing.
Defined.

(** The SQLite adapter raises [ValueError]s at most. *)
Lemma tame_row r : tame_result (row_to_record r).
Proof.
  unfold row_to_record, ScrapeStatus_of, Availability_of. by repeat case_bool_decide.
Qed.

Lemma eval_demo_tame : tame_world (E:=list DigestJob) (S:=StateDb) EvalDemo.outcome.
Proof.
  split; try by intros.
  - intros n subs f url [= <-]. by intros v.
  - intros spec p h [= <-]. done.
  - intros o r v. simpl. unfold Sqlite.record. by case_bool_decide.
  - intros o s n v. exact (tame_rmap row_to_record _ tame_row).
  - intros r v. simpl. unfold Sqlite.record_job_run. by case_bool_decide.
  - intros expr tz base. simpl. by case_bool_decide.
  - intros [|n] e; simpl; congruence.
Qed.


Lemma one_bad_schedule_stops_every_tenant_witness :
  let good := EvalDemo.job "j1" "0 * * * *" in
  let bad := EvalDemo.job "j2" "a b c d e" in
  let '(r, w') := evaluate_tick EvalDemo.outcome EvalDemo.never_done EvalDemo.t0 300
                    (EvalDemo.world [good; bad]) in
  normalize_schedule "cron" 0 0 (Some "a b c d e") = Ok "a b c d e" ∧
  is_ok r = false ∧ w'.(outbox) = [].
Proof.
  intros good bad.
  pose proof (one_bad_schedule_stops_every_tenant (S:=StateDb) EvalDemo.outcome
    EvalDemo.never_done EvalDemo.t0 300 (EvalDemo.world [good; bad]) [good; bad] [good; bad]
    bad (Exn ValueError "not a valid cron") eq_refl ltac:(right; left) eq_refl) as H.
  destruct (evaluate_tick _ _ _ _ _) as [r w']. destruct H as (Hr&Ho&_).
  split; [reflexivity|]. split; [exact Hr|exact Ho].
Defined.

Lemma orphans_bounded_witness :
  let w := EvalDemo.world [EvalDemo.job "j1" "0 * * * *"] in
  let ticks := [EvalDemo.t0; EvalDemo.t0 + Hourly.HOUR; EvalDemo.t0 + 2 * Hourly.HOUR] in
  w.(executor) = Rotating (new_executor 1) ∧
  match (snd (run_evaluator_loop EvalDemo.outcome EvalDemo.never_done ticks 300 w)).(executor) with
  | Rotating r => r.(retired) = [] ∧ r.(next_pool) = 3%nat
  | DaemonThread => False
  end.
Proof.
  intros w ticks. split; [reflexivity|].
  destruct (orphans_bounded EvalDemo.outcome EvalDemo.never_done ticks 300 1 w
              ltac:(lia) eq_refl) as [_ H].
  vm_compute in H |- *. destruct H as [H _]. split; [exact H|reflexivity].
Defined.

Lemma cadence_is_shortest_witness :
  ∃ req, required_periods [EvalDemo.job "j1" "0 * * * *"] EvalDemo.t0 [] = Ok req ∧
    od_get ("ana", "gpu:kabum:1") req = Some Hourly.HOUR ∧
    (∀ job p', job ∈ [EvalDemo.job "j1" "0 * * * *"] →
       references job ("ana", "gpu:kabum:1") →
       job_period job.(schedule_cron) EvalDemo.t0 = Ok p' → Hourly.HOUR ≤ p').
Proof.
  eexists. split; [reflexivity|]. split; [vm_compute; reflexivity|].
  pose proof (cadence_is_shortest [EvalDemo.job "j1" "0 * * * *"] EvalDemo.t0 _ "ana"
    "gpu:kabum:1" eq_refl) as H.
  vm_compute in H |- *. apply H.
Defined.
