(* ===== verification/Safety.v ===== *)
(** The anti-SSRF guard ([autolycos/safety.py]) and the write-path url gate
    ([registry/url_validation.py], [registry/domain_policy.py]), with the
    parts of [urllib.parse] and [ipaddress] they rest on.

    [socket.getaddrinfo] is the resolver: an argument.  Text is ASCII: the
    guard refuses a url with any other character first. *)

From S2P Require Import Prelude.

(** * Text *)

Definition code (c : ascii) : Z := Z.of_N (N_of_ascii c).
Definition is_upper (c : ascii) : bool := (65 <=? code c) && (code c <=? 90).
Definition is_lower (c : ascii) : bool := (97 <=? code c) && (code c <=? 122).
Definition is_alpha (c : ascii) : bool := is_upper c || is_lower c.
Definition is_digit (c : ascii) : bool := (48 <=? code c) && (code c <=? 57).

Definition lower_char (c : ascii) : ascii :=
  if is_upper c then ascii_of_N (Z.to_N (code c + 32)) else c.
Definition lower (s : list ascii) : list ascii := lower_char <$> s.

(** [s.partition(c)]: before, whether found, after. *)
Fixpoint partition (c : ascii) (s : list ascii) : list ascii * bool * list ascii :=
  match s with
  | [] => ([], false, [])
  | x :: s' =>
      if decide (x = c) then ([], true, s')
      else let '(a, f, b) := partition c s' in (x :: a, f, b)
  end.

(** [s.rpartition(c)[2]]: what follows the last [c], or everything. *)
Definition after_last (c : ascii) (s : list ascii) : list ascii :=
  let '(a, _, _) := partition c (reverse s) in reverse a.

(** [s.rstrip(".")]. *)
Fixpoint drop_while (p : ascii → bool) (s : list ascii) : list ascii :=
  match s with [] => [] | c :: s' => if p c then drop_while p s' else s end.
Definition rstrip_dot (s : list ascii) : list ascii :=
  reverse (drop_while (λ c, bool_decide (c = "."%char)) (reverse s)).

Definition ends_with (s suffix : list ascii) : bool := bool_decide (suffix `suffix_of` s).

(** * Addresses *)

Inductive ip := V4 (n : Z) | V6 (n : Z).

#[export] Instance ip_eq_dec : EqDecision ip.
Proof. solve_decision. Defined.

(** ** Parsing *)

(** The fields of [s] between separators. *)
Fixpoint fields_of (c : ascii) (s : list ascii) : list (list ascii) :=
  match s with
  | [] => [[]]
  | x :: s' =>
      if decide (x = c) then [] :: fields_of c s'
      else match fields_of c s' with [] => [[x]] | f :: fs => (x :: f) :: fs end
  end.

Definition number (base : Z) (digit : ascii → option Z) (s : list ascii) : option Z :=
  foldl (λ acc c, a ← acc; d ← digit c; Some (a * base + d)) (Some 0) s.

Definition dec_digit (c : ascii) : option Z := if is_digit c then Some (code c - 48) else None.
Definition hex_digit (c : ascii) : option Z :=
  if is_digit c then Some (code c - 48)
  else if (97 <=? code c) && (code c <=? 102) then Some (code c - 87)
  else if (65 <=? code c) && (code c <=? 70) then Some (code c - 55)
  else None.

(** [_parse_octet]: one to three digits, no leading zero, at most 255. *)
Definition octet (s : list ascii) : option Z :=
  if bool_decide (s = []) || (3 <? Z.of_nat (length s)) then None
  else if bool_decide (head s = Some "0"%char) && (1 <? Z.of_nat (length s)) then None
  else n ← number 10 dec_digit s; if n <=? 255 then Some n else None.

Definition parse_v4 (s : list ascii) : option Z :=
  match fields_of "."%char s with
  | [a; b; c; d] =>
      a ← octet a; b ← octet b; c ← octet c; d ← octet d;
      Some (((a * 256 + b) * 256 + c) * 256 + d)
  | _ => None
  end.

(** One 16-bit group of an IPv6 address. *)
Definition hextet (s : list ascii) : option Z :=
  if bool_decide (s = []) || (4 <? Z.of_nat (length s)) then None else number 16 hex_digit s.

(** The groups of an address text; [None] marks an empty one.  A dotted quad
    in the last place stands for two groups. *)
Definition group (s : list ascii) : option (option Z) :=
  if bool_decide (s = []) then Some None else Some <$> hextet s.

Fixpoint groups (parts : list (list ascii)) : option (list (option Z)) :=
  match parts with
  | [] => Some []
  | [p] =>
      if bool_decide ("."%char ∈ p)
      then n ← parse_v4 p; Some [Some (n / 65536); Some (n mod 65536)]
      else g ← group p; Some [g]
  | p :: rest => g ← group p; gs ← groups rest; Some (g :: gs)
  end.

Definition group_value (l : list Z) : Z := foldl (λ acc g, acc * 65536 + g) 0 l.

(** The positions of the empty groups other than the first and the last. *)
Definition gaps (gs : list (option Z)) : list nat :=
  filter (λ i, gs !! i = Some None) (seq 1 (length gs - 2)).

(** [IPv6Address._ip_int_from_string]: 8 groups, or one gap standing for at
    least one zero group. *)
Definition parse_v6 (s : list ascii) : option Z :=
  let parts := fields_of ":"%char s in
  if (Z.of_nat (length parts) <? 3) then None
  else
    gs ← groups parts;
    if (9 <? Z.of_nat (length gs)) then None
    else match gaps gs with
    | [] => vs ← mapM id gs;
            if (Z.of_nat (length vs) =? 8) then Some (group_value vs) else None
    | [i] =>
        let hi := take i gs in
        let lo := drop (S i) gs in
        let hi := if bool_decide (head hi = Some None) then drop 1 hi else hi in
        let hi_bad := bool_decide (head gs = Some None) && negb (bool_decide (hi = [])) in
        let lo' := if bool_decide (last lo = Some None) then removelast lo else lo in
        let lo_bad := bool_decide (last lo = Some None) && negb (bool_decide (lo' = [])) in
        let skipped := 8 - Z.of_nat (length hi + length lo') in
        if hi_bad || lo_bad || (skipped <? 1) then None
        else h ← mapM id hi; l ← mapM id lo';
             Some (group_value (h ++ replicate (Z.to_nat skipped) 0 ++ l)%list)
    | _ => None
    end.

(** [ipaddress.ip_address(addr)]; a scope id after [%] is accepted on an IPv6
    address. *)
Definition ip_address (addr : string) : result ip :=
  match parse_v4 (chars addr) with
  | Some n => Ok (V4 n)
  | None =>
      let '(a, scoped, zone) := partition "%"%char (chars addr) in
      if scoped && (bool_decide (zone = []) || bool_decide ("%"%char ∈ zone))
      then raise ValueError "does not appear to be an IPv4 or IPv6 address"
      else match parse_v6 a with
           | Some n => Ok (V6 n)
           | None => raise ValueError "does not appear to be an IPv4 or IPv6 address"
           end
  end.

(** ** Classification: the tables of [ipaddress] *)

Definition in_net (width n : Z) (net : Z * Z) : bool :=
  Z.shiftr n (width - net.2) =? Z.shiftr net.1 (width - net.2).

Definition v4 (a b c d : Z) : Z := ((a * 256 + b) * 256 + c) * 256 + d.
Definition v6 (l : list Z) : Z := group_value (l ++ replicate (8 - length l) 0)%list.

Definition PRIVATE4 : list (Z * Z) :=
  [(v4 0 0 0 0, 8); (v4 10 0 0 0, 8); (v4 127 0 0 0, 8); (v4 169 254 0 0, 16);
   (v4 172 16 0 0, 12); (v4 192 0 0 0, 24); (v4 192 0 2 0, 24); (v4 192 168 0 0, 16);
   (v4 198 18 0 0, 15); (v4 198 51 100 0, 24); (v4 203 0 113 0, 24);
   (v4 240 0 0 0, 4)].
Definition PRIVATE4_EXCEPT : list (Z * Z) := [(v4 192 0 0 9, 32); (v4 192 0 0 10, 32)].

Definition PRIVATE6 : list (Z * Z) :=
  [(1, 128); (0, 128); (v6 [0; 0; 0; 0; 0; 65535], 96); (v6 [0x64; 0xff9b; 1], 48);
   (v6 [0x100], 64); (v6 [0x2001], 23); (v6 [0x2001; 0xdb8], 32); (v6 [0x2002], 16);
   (v6 [0xfc00], 7); (v6 [0xfe80], 10)].
Definition PRIVATE6_EXCEPT : list (Z * Z) :=
  [(v6 [0x2001; 1; 0; 0; 0; 0; 0; 1], 128); (v6 [0x2001; 1; 0; 0; 0; 0; 0; 2], 128);
   (v6 [0x2001; 3], 32); (v6 [0x2001; 4; 0x112], 48); (v6 [0x2001; 0x20], 28);
   (v6 [0x2001; 0x30], 28)].
Definition RESERVED6 : list (Z * Z) :=
  [(0, 8); (v6 [0x100], 8); (v6 [0x200], 7); (v6 [0x400], 6); (v6 [0x800], 5);
   (v6 [0x1000], 4); (v6 [0x4000], 3); (v6 [0x6000], 3); (v6 [0x8000], 3);
   (v6 [0xa000], 3); (v6 [0xc000], 3); (v6 [0xe000], 4); (v6 [0xf000], 5);
   (v6 [0xf800], 6); (v6 [0xfe00], 9)].

Definition in_any (width n : Z) (l : list (Z * Z)) : bool := existsb (in_net width n) l.

Definition is_private (a : ip) : bool :=
  match a with
  | V4 n => in_any 32 n PRIVATE4 && negb (in_any 32 n PRIVATE4_EXCEPT)
  | V6 n => in_any 128 n PRIVATE6 && negb (in_any 128 n PRIVATE6_EXCEPT)
  end.
Definition is_loopback (a : ip) : bool :=
  match a with V4 n => in_net 32 n (v4 127 0 0 0, 8) | V6 n => n =? 1 end.
Definition is_link_local (a : ip) : bool :=
  match a with V4 n => in_net 32 n (v4 169 254 0 0, 16) | V6 n => in_net 128 n (v6 [0xfe80], 10) end.
Definition is_reserved (a : ip) : bool :=
  match a with V4 n => in_net 32 n (v4 240 0 0 0, 4) | V6 n => in_any 128 n RESERVED6 end.
Definition is_multicast (a : ip) : bool :=
  match a with V4 n => in_net 32 n (v4 224 0 0 0, 4) | V6 n => in_net 128 n (v6 [0xff00], 8) end.
Definition is_unspecified (a : ip) : bool :=
  match a with V4 n | V6 n => n =? 0 end.
Definition is_global (a : ip) : bool :=
  match a with
  | V4 n => negb (in_net 32 n (v4 100 64 0 0, 10)) && negb (is_private a)
  | V6 _ => negb (is_private a)
  end.

(** [ip.ipv4_mapped]. *)
Definition ipv4_mapped (a : ip) : option Z :=
  match a with
  | V6 n => if Z.shiftr n 32 =? 65535 then Some (n mod 2 ^ 32) else None
  | V4 _ => None
  end.

Definition ip_is_safe (addr : string) : bool :=
  match ip_address addr with
  | Raise _ => false
  | Ok a =>
      let a := match ipv4_mapped a with Some n => V4 n | None => a end in
      if is_private a || is_loopback a || is_link_local a
         || is_reserved a || is_multicast a || is_unspecified a then false
      else is_global a
  end.

(** * Domains *)

Definition normalize_host (host : string) : list ascii := rstrip_dot (lower (chars host)).

(** [DomainPolicy.domain_allowed]. *)
Definition domain_allowed (allowed_domains : list string) (host : string) : bool :=
  let h := normalize_host host in
  existsb (λ d, bool_decide (h = chars d) || ends_with h ("."%char :: chars d)) allowed_domains.

(** * Urls *)

Definition ALLOWED_SCHEMES : list string := ["http"; "https"].

(** [_RFC3986_SAFE_RE]. *)
Definition rfc3986_char (c : ascii) : bool :=
  is_alpha c || is_digit c || bool_decide (c ∈ chars "-._~:/?#[]@!$&'()*+,;=%").
Definition rfc3986_safe (url : string) : bool := forallb rfc3986_char (chars url).

Definition scheme_char (c : ascii) : bool :=
  is_alpha c || is_digit c || bool_decide (c ∈ chars "+-.").

(** [_check_bracketed_netloc] of a netloc with both brackets. *)
Definition check_bracketed_netloc (netloc : list ascii) : result unit :=
  let bad := raise ValueError "Invalid IPv6 URL" in
  let hp := after_last "@"%char netloc in
  let '(before, open, bracketed) := partition "["%char hp in
  let '(hostname, _, port) := if open then partition "]"%char bracketed
                              else partition ":"%char hp in
  if (open : bool) && (negb (bool_decide (before = []))
             || (negb (bool_decide (port = [])) && negb (bool_decide (head port = Some ":"%char))))
  then bad
  else match hostname with
       | "v"%char :: rest =>
           let '(version, dot, tail) := partition "."%char rest in
           if (dot : bool) && negb (bool_decide (version = []))
              && forallb (λ c, bool_decide (is_Some (hex_digit c))) version
              && negb (bool_decide (tail = []))
           then Ok tt else raise ValueError "IPvFuture address is invalid"
       | _ =>
           match ip_address (of_chars hostname) with
           | Ok (V6 _) => Ok tt
           | Ok (V4 _) => raise ValueError "An IPv4 address cannot be in brackets"
           | Raise e => Raise e
           end
       end.

Fixpoint take_until (p : ascii → bool) (s : list ascii) : list ascii :=
  match s with [] => [] | c :: s' => if p c then [] else c :: take_until p s' end.

(** [urlsplit(url)]: the scheme and the netloc. *)
Definition urlsplit (url : string) : result (list ascii * list ascii) :=
  let s := drop_while (λ c, code c <=? 32) (chars url) in
  let s := filter (λ c, c ∉ ["009"; "010"; "013"]%char) s in
  let '(pre, colon, post) := partition ":"%char s in
  let '(scheme, s) :=
    match pre with
    | c :: _ => if (colon : bool) && is_alpha c && forallb scheme_char pre
                then (lower pre, post) else ([], s)
    | [] => ([], s)
    end in
  match s with
  | "/"%char :: "/"%char :: rest =>
      let netloc := take_until (λ c, bool_decide (c ∈ ["/"; "?"; "#"]%char)) rest in
      let open := bool_decide ("["%char ∈ netloc) in
      let close := bool_decide ("]"%char ∈ netloc) in
      if xorb open close then raise ValueError "Invalid IPv6 URL"
      else if open then let? _ := check_bracketed_netloc netloc in Ok (scheme, netloc)
      else Ok (scheme, netloc)
  | _ => Ok (scheme, [])
  end.

(** [_hostinfo]: the raw host and port texts of a netloc. *)
Definition hostinfo (netloc : list ascii) : list ascii * list ascii :=
  let hp := after_last "@"%char netloc in
  let '(_, open, bracketed) := partition "["%char hp in
  if (open : bool) then
    let '(hostname, _, rest) := partition "]"%char bracketed in
    let '(_, _, port) := partition ":"%char rest in (hostname, port)
  else let '(hostname, _, port) := partition ":"%char hp in (hostname, port).

(** [parts.hostname]: lower-cased up to a zone id; [None] if empty. *)
Definition hostname (netloc : list ascii) : option (list ascii) :=
  match (hostinfo netloc).1 with
  | [] => None
  | h => let '(a, percent, zone) := partition "%"%char h in
         Some (lower a ++ (if (percent : bool) then "%"%char :: zone else []))%list
  end.

(** [parts.port]. *)
Definition port (netloc : list ascii) : result (option Z) :=
  match (hostinfo netloc).2 with
  | [] => Ok None
  | p => match number 10 dec_digit p with
         | Some n => if n <=? 65535 then Ok (Some n)
                     else raise ValueError "Port out of range 0-65535"
         | None => raise ValueError "Port could not be cast to integer value"
         end
  end.

(** ** The guard *)

Definition check_scheme_and_domain (url : string) (allowed : string → bool)
    : result (string * string) :=
  if negb (rfc3986_safe url) then raise SSRFError "url contains a character outside RFC 3986"
  else
    let? (scheme, netloc) := urlsplit url in
    if negb (bool_decide (of_chars scheme ∈ ALLOWED_SCHEMES))
    then raise SSRFError "scheme not allowed"
    else match hostname netloc with
         | None => raise SSRFError "missing host"
         | Some h =>
             if negb (allowed (of_chars h)) then raise SSRFError "domain not in allowlist"
             else Ok (of_chars scheme, of_chars h)
         end.

(** [getaddrinfo host port]: the addresses, or a [gaierror]. *)
Definition Resolver : Type := string → Z → result (list string).

Definition resolve_and_check (getaddrinfo : Resolver) (host : string) (port : Z)
    : result string :=
  match getaddrinfo host port with
  | Raise e => if is_a e.(exn_class) GaiError then raise FetchError "DNS resolution failed"
               else Raise e
  | Ok addrs =>
      match addrs with
      | [] => raise SSRFError "no addresses resolved"
      | first :: _ =>
          if forallb ip_is_safe addrs then Ok first
          else raise SSRFError "resolved address blocked"
      end
  end.

Record ValidatedTarget := {
  vt_url : string; vt_scheme : string; vt_host : string; vt_port : Z; vt_ip : string;
}.

Definition default_port (scheme : string) : Z :=
  if bool_decide (scheme = "https") then 443 else 80.

Definition validate_target (getaddrinfo : Resolver) (url : string)
    (allowed : string → bool) : result ValidatedTarget :=
  let? (scheme, host) := check_scheme_and_domain url allowed in
  let? (_, netloc) := urlsplit url in
  let? p := port netloc in
  let p := match p with
           | Some n => if n =? 0 then default_port scheme else n
           | None => default_port scheme
           end in
  let? addr := resolve_and_check getaddrinfo host p in
  Ok {| vt_url := url; vt_scheme := scheme; vt_host := host; vt_port := p; vt_ip := addr |}.

Record PinnedAddress := { pa_host : string; pa_port : Z; pa_ip : string }.

Definition resolve_and_pin (getaddrinfo : Resolver) (host : string) (port : Z)
    : result PinnedAddress :=
  let? addr := resolve_and_check getaddrinfo host port in
  Ok {| pa_host := host; pa_port := port; pa_ip := addr |}.

(** [registry/url_validation.py:validate_source_url]. *)
Definition validate_source_url (url : string) (allowed : string → bool) : result unit :=
  match check_scheme_and_domain url allowed with
  | Ok _ => Ok tt
  | Raise e => if is_a e.(exn_class) SSRFError then raise UrlValidationError e.(exn_msg)
               else Raise e
  end.

Example ip_1 : ip_address "192.168.0.1" = Ok (V4 (v4 192 168 0 1)).
Proof. vm_compute. reflexivity. Qed.
Example ip_2 : ip_address "::ffff:169.254.169.254" = Ok (V6 (v6 [0;0;0;0;0;65535;0xa9fe;0xa9fe])).
Proof. vm_compute. reflexivity. Qed.
Example ip_3 : ip_address "2800:3f0:4001::200e" = Ok (V6 (v6 [0x2800;0x3f0;0x4001;0;0;0;0;0x200e])).
Proof. vm_compute. reflexivity. Qed.
Example ip_4 : ip_address "::1" = Ok (V6 1) ∧ ip_address "::" = Ok (V6 0)
  ∧ ip_address "fe80::1%eth0" = Ok (V6 (v6 [0xfe80;0;0;0;0;0;0;1])).
Proof. vm_compute. auto. Qed.
Example ip_5 : is_ok (ip_address "1::2::3") = false ∧ is_ok (ip_address ":1::") = false
  ∧ is_ok (ip_address "01.2.3.4") = false ∧ is_ok (ip_address "1:2:3:4:5:6:7:8:9") = false
  ∧ is_ok (ip_address "1:2:3:4:5:6:7::8") = false ∧ is_ok (ip_address "1:2:3:4:5:6:7:8") = true
  ∧ is_ok (ip_address "1:2:3:4:5:6:7::") = true ∧ is_ok (ip_address "::1:") = false
  ∧ is_ok (ip_address "1:::2") = false ∧ is_ok (ip_address "") = false.
Proof. vm_compute. repeat split. Qed.

(** * Text lemmas *)

Lemma fields_of_ne c s : fields_of c s ≠ [].
Proof. destruct s; cbn; [done |]. case_decide; [done |]. by destruct (fields_of c s). Qed.

Lemma fields_of_sep c a b : fields_of c (a ++ c :: b) = (fields_of c a ++ fields_of c b)%list.
Proof.
  induction a as [| x a IH]; cbn [app fields_of].
  - by rewrite decide_True.
  - case_decide; [by rewrite IH |].
    rewrite IH. destruct (fields_of c a) eqn:E; [by apply fields_of_ne in E | done].
Qed.

Lemma fields_of_free c s : c ∉ s → fields_of c s = [s].
Proof.
  induction s as [| x s IH]; intros H; [done |]. cbn.
  rewrite decide_False by set_solver. rewrite IH by set_solver. done.
Qed.

(** [c.join(fields)]. *)
Fixpoint join_fields (c : ascii) (l : list (list ascii)) : list ascii :=
  match l with
  | [] => []
  | [f] => f
  | f :: l' => (f ++ c :: join_fields c l')%list
  end.

Lemma join_fields_of c s : join_fields c (fields_of c s) = s.
Proof.
  induction s as [| x s IH]; [done |]. cbn. case_decide as E; subst.
  - cbn. rewrite IH. destruct (fields_of c s) eqn:E; [by apply fields_of_ne in E | done].
  - destruct (fields_of c s) as [| f [| g l]] eqn:F; [by apply fields_of_ne in F | |];
      cbn in *; congruence.
Qed.

Lemma fields_of_join c l :
  l ≠ [] → Forall (λ f, c ∉ f) l → fields_of c (join_fields c l) = l.
Proof.
  intros Hne Hl. induction Hl as [| f l Hf Hl IH]; [done |]. destruct l as [| g l].
  - by apply fields_of_free.
  - change (join_fields c (f :: g :: l)) with (f ++ c :: join_fields c (g :: l))%list.
    rewrite fields_of_sep, fields_of_free, IH by done. done.
Qed.

Lemma join_fields_cons c f l :
  l ≠ [] → join_fields c (f :: l) = (f ++ c :: join_fields c l)%list.
Proof. by destruct l. Qed.

Lemma join_fields_app c k l :
  k ≠ [] → l ≠ [] → join_fields c (k ++ l) = (join_fields c k ++ c :: join_fields c l)%list.
Proof.
  intros Hk Hl. induction k as [| f k IH]; [done |]. rewrite <- app_comm_cons.
  destruct (decide (k = [])) as [-> | Hne].
  - by rewrite app_nil_l, join_fields_cons.
  - rewrite !join_fields_cons, IH, <- app_assoc; [done .. |]. by destruct k.
Qed.

(** A name ends at a label boundary of another one exactly when its labels
    are the last ones. *)
Lemma label_suffix (h d : list ascii) :
  fields_of "."%char d `suffix_of` fields_of "."%char h
  ↔ h = d ∨ ("."%char :: d) `suffix_of` h.
Proof.
  split.
  - intros [k Hk]. destruct (decide (k = [])) as [-> | Hne].
    + left. rewrite <- (join_fields_of "."%char h), Hk. apply join_fields_of.
    + right. exists (join_fields "."%char k).
      rewrite <- (join_fields_of "."%char h), Hk, join_fields_app by
        (done || apply fields_of_ne). by rewrite join_fields_of.
  - intros [-> | [k ->]]; [done |]. rewrite fields_of_sep. by exists (fields_of "."%char k).
Qed.

Lemma partition_free c s : c ∉ s → partition c s = (s, false, []).
Proof.
  induction s as [| x s IH]; intros H; [done |]. cbn.
  rewrite decide_False by set_solver. by rewrite IH by set_solver.
Qed.

Lemma partition_sep c a b : c ∉ a → partition c (a ++ c :: b) = (a, true, b).
Proof.
  induction a as [| x a IH]; intros H; cbn.
  - by rewrite decide_True.
  - rewrite decide_False by set_solver. by rewrite IH by set_solver.
Qed.

Lemma after_last_free c s : c ∉ s → after_last c s = s.
Proof.
  intros H. unfold after_last. rewrite partition_free by (by rewrite elem_of_reverse).
  apply reverse_involutive.
Qed.

Lemma after_last_sep c a b : c ∉ b → after_last c (a ++ c :: b) = b.
Proof.
  intros H. unfold after_last. rewrite reverse_app, reverse_cons, <- app_assoc. cbn.
  rewrite partition_sep by (by rewrite elem_of_reverse). apply reverse_involutive.
Qed.

Lemma take_until_app p a b :
  forallb (λ c, negb (p c)) a = true → (∀ c b', b = c :: b' → p c = true) →
  take_until p (a ++ b) = a.
Proof.
  induction a as [| x a IH]; cbn; intros Ha Hb.
  - destruct b as [| c b]; [done |]. cbn. by rewrite (Hb c b).
  - apply andb_prop in Ha as [Hx Ha]. apply negb_true_iff in Hx. rewrite Hx. f_equal. auto.
Qed.

(** * Domains *)

(** the allowlist matches whole DNS labels: a host is allowed exactly
    when the labels of one of the allowed domains are the last labels of the
    host (lower-cased, without trailing dots); a name that merely ends with
    the same letters, or that continues after an allowed name, is not. *)
Theorem domain_allowed_labels (ds : list string) (host : string) :
  domain_allowed ds host = true
  ↔ ∃ d, d ∈ ds ∧ fields_of "."%char (chars d)
                    `suffix_of` fields_of "."%char (normalize_host host).
Proof.
  unfold domain_allowed. rewrite existsb_exists. split.
  - intros (d & Hd & H). exists d. split; [by apply list_elem_of_In |].
    apply label_suffix. unfold ends_with in H. apply orb_prop in H as [H | H]; bool_prop; auto.
  - intros (d & Hd & H). exists d. split; [by apply list_elem_of_In |].
    apply label_suffix in H. unfold ends_with. rewrite orb_true_iff, !bool_decide_eq_true. done.
Qed.

(** * Addresses *)

(** The judgement on an IPv4 address. *)
Definition safe_v4 (n : Z) : bool :=
  negb (is_private (V4 n) || is_loopback (V4 n) || is_link_local (V4 n)
        || is_reserved (V4 n) || is_multicast (V4 n) || is_unspecified (V4 n))
  && is_global (V4 n).

(** The blocked ranges, by their bytes: "this" network, private, loopback,
    link-local, shared (carrier-grade NAT), protocol assignments,
    documentation, benchmarking, multicast and reserved. *)
Definition blocked_v4 (a b c d : Z) : Prop :=
  a = 0 ∨ a = 10 ∨ a = 127 ∨ (a = 169 ∧ b = 254) ∨ (a = 172 ∧ 16 <= b < 32)
  ∨ (a = 192 ∧ b = 0 ∧ c = 0 ∧ d ≠ 9 ∧ d ≠ 10) ∨ (a = 192 ∧ b = 0 ∧ c = 2)
  ∨ (a = 192 ∧ b = 168) ∨ (a = 198 ∧ 18 <= b < 20) ∨ (a = 198 ∧ b = 51 ∧ c = 100)
  ∨ (a = 203 ∧ b = 0 ∧ c = 113) ∨ (a = 100 ∧ 64 <= b < 128) ∨ 224 <= a.

Definition byte_range (x : Z) : Prop := 0 <= x < 256.

Section Nets.
Context (a b c d : Z).
Context (Ha : byte_range a) (Hb : byte_range b) (Hc : byte_range c) (Hd : byte_range d).

(** A prefix of an address, from its leading bytes. *)
Lemma in_net_prefix (hi lo k base l : Z) :
  v4 a b c d = hi * 2 ^ k + lo → 0 <= lo < 2 ^ k → k = 32 - l → 0 <= k →
  in_net 32 (v4 a b c d) (base, l) = true ↔ hi = Z.shiftr base k.
Proof.
  intros E Hlo -> Hk. unfold in_net. cbn [fst snd]. rewrite E, Z.shiftr_div_pow2 by done.
  rewrite Z.eqb_eq, Z.div_add_l, (Z.div_small lo) by lia. lia.
Qed.

Ltac net hi lo k :=
  intros; unfold byte_range in *; rewrite (in_net_prefix hi lo k);
  [rewrite ?Z.shiftr_div_pow2 by lia | | | reflexivity | lia]; unfold v4;
  try (change (2 ^ k) with (ltac:(let x := eval cbv in (2 ^ k) in exact x)));
  Z.to_euclidean_division_equations; lia.

Lemma net8 A : in_net 32 (v4 a b c d) (v4 A 0 0 0, 8) = true ↔ a = A.
Proof. net a ((b * 256 + c) * 256 + d) 24. Qed.
Lemma net16 A B :
  byte_range B → in_net 32 (v4 a b c d) (v4 A B 0 0, 16) = true ↔ a = A ∧ b = B.
Proof. net (a * 256 + b) (c * 256 + d) 16. Qed.
Lemma net24 A B C :
  byte_range B → byte_range C →
  in_net 32 (v4 a b c d) (v4 A B C 0, 24) = true ↔ a = A ∧ b = B ∧ c = C.
Proof. net ((a * 256 + b) * 256 + c) d 8. Qed.
Lemma net32 A B C D :
  byte_range B → byte_range C → byte_range D →
  in_net 32 (v4 a b c d) (v4 A B C D, 32) = true ↔ a = A ∧ b = B ∧ c = C ∧ d = D.
Proof. net (v4 a b c d) 0 0. Qed.
Lemma net_reserved : in_net 32 (v4 a b c d) (v4 240 0 0 0, 4) = true ↔ 240 <= a.
Proof. net (a / 16) (((a mod 16 * 256 + b) * 256 + c) * 256 + d) 28. Qed.
Lemma net_multicast : in_net 32 (v4 a b c d) (v4 224 0 0 0, 4) = true ↔ 224 <= a < 240.
Proof. net (a / 16) (((a mod 16 * 256 + b) * 256 + c) * 256 + d) 28. Qed.
Lemma net_shared :
  in_net 32 (v4 a b c d) (v4 100 64 0 0, 10) = true ↔ a = 100 ∧ 64 <= b < 128.
Proof. net (a * 4 + b / 64) ((b mod 64 * 256 + c) * 256 + d) 22. Qed.
Lemma net_172 : in_net 32 (v4 a b c d) (v4 172 16 0 0, 12) = true ↔ a = 172 ∧ 16 <= b < 32.
Proof. net (a * 16 + b / 16) ((b mod 16 * 256 + c) * 256 + d) 20. Qed.
Lemma net_198 : in_net 32 (v4 a b c d) (v4 198 18 0 0, 15) = true ↔ a = 198 ∧ 18 <= b < 20.
Proof. net (a * 128 + b / 2) ((b mod 2 * 256 + c) * 256 + d) 17. Qed.

Definition private_range : Prop :=
  (a = 0 ∨ a = 10 ∨ a = 127 ∨ a = 169 ∧ b = 254 ∨ a = 172 ∧ 16 <= b < 32
   ∨ a = 192 ∧ b = 0 ∧ c = 0 ∨ a = 192 ∧ b = 0 ∧ c = 2 ∨ a = 192 ∧ b = 168
   ∨ a = 198 ∧ 18 <= b < 20 ∨ a = 198 ∧ b = 51 ∧ c = 100 ∨ a = 203 ∧ b = 0 ∧ c = 113
   ∨ 240 <= a)
  ∧ ¬ (a = 192 ∧ b = 0 ∧ c = 0 ∧ d = 9 ∨ a = 192 ∧ b = 0 ∧ c = 0 ∧ d = 10).

Lemma private_v4 : is_private (V4 (v4 a b c d)) = true ↔ private_range.
Proof.
  unfold is_private, in_any, PRIVATE4, PRIVATE4_EXCEPT, private_range. cbn [existsb].
  rewrite andb_true_iff, negb_true_iff, <- not_true_iff_false, !orb_true_iff.
  rewrite !net8, !net16, !net24, !net32, net_172, net_198, net_reserved by done.
  assert (false = true ↔ False) as -> by done. tauto.
Qed.

Lemma blocked_v4_cases :
  blocked_v4 a b c d ↔ private_range ∨ 224 <= a ∨ a = 100 ∧ 64 <= b < 128.
Proof.
  clear. unfold blocked_v4, private_range. split.
  - intros H. repeat (destruct H as [H | H]; [first
      [ left; split; [tauto | lia] | right; right; exact H ] |]). right; left; exact H.
  - intros [[H Hx] | [H | H]]; [| tauto ..].
    repeat (destruct H as [H | H]; [tauto || (clear - H Hx; lia) |]).
    repeat right. lia.
Qed.

Lemma safe_v4_blocked : safe_v4 (v4 a b c d) = true ↔ ¬ blocked_v4 a b c d.
Proof.
  rewrite blocked_v4_cases.
  unfold safe_v4, is_global, is_loopback, is_link_local, is_reserved, is_multicast.
  rewrite !andb_true_iff, !negb_true_iff, !orb_false_iff, <- !not_true_iff_false.
  rewrite private_v4, net_shared, net_reserved, net_multicast, !net8, net16 by done.
  unfold is_unspecified. rewrite Z.eqb_eq.
  assert (v4 a b c d = 0 → a = 0) by (clear - Ha Hb Hc Hd; unfold v4, byte_range in *; lia).
  assert (a = 0 → private_range) by (clear; unfold private_range; split; [tauto | lia]).
  assert (a = 127 → private_range) by (clear; unfold private_range; split; [tauto | lia]).
  assert (a = 169 ∧ b = 254 → private_range) by (clear; unfold private_range; split; [tauto | lia]).
  assert (224 <= a ↔ 224 <= a < 240 ∨ 240 <= a) as -> by (clear; lia).
  assert (224 <= a < 240 → 240 <= a → False) by (clear; lia).
  tauto.
Qed.
End Nets.

(** ** The text of an IPv4 address *)

Lemma number_nonneg s n : number 10 dec_digit s = Some n → 0 <= n.
Proof.
  unfold number. assert (Hz0 : ∀ z, Some 0 = Some z → 0 <= z) by (intros z [= <-]; lia).
  revert Hz0. generalize (Some 0).
  induction s as [| x l IH]; intros o Ho; cbn [foldl]; [apply Ho |].
  apply IH. intros z Hz. destruct o as [y |]; [| done]. cbn in Hz.
  unfold dec_digit, is_digit in Hz. case_match; [| done]. bool_prop. cbn in Hz.
  injection Hz as <-. specialize (Ho y eq_refl). lia.
Qed.

Lemma parse_v4_inv s n :
  parse_v4 s = Some n →
  ∃ a b c d, Forall (λ f, is_Some (octet f)) (fields_of "."%char s)
    ∧ byte_range a ∧ byte_range b ∧ byte_range c ∧ byte_range d ∧ n = v4 a b c d.
Proof.
  unfold parse_v4. intros H.
  destruct (fields_of "."%char s) as [| f1 [| f2 [| f3 [| f4 [|]]]]]; try done.
  assert (Hr : ∀ f m, octet f = Some m → byte_range m).
  { intros f m Hm. unfold octet in Hm. do 2 (case_match; [done |]).
    destruct (number 10 dec_digit f) as [k |] eqn:Ek; [| done]. cbn in Hm.
    case_match; [| done]. injection Hm as <-. bool_prop. split; [| lia].
    by eapply number_nonneg. }
  destruct (octet f1) as [a |] eqn:E1; [| done]. destruct (octet f2) as [b |] eqn:E2; [| done].
  destruct (octet f3) as [c |] eqn:E3; [| done]. destruct (octet f4) as [d |] eqn:E4; [| done].
  cbn [mbind option_bind] in H. injection H as <-. exists a, b, c, d.
  repeat constructor; eauto; eapply Hr; eassumption.
Qed.

Lemma fields_of_elem c x s : x ∈ s → x ≠ c → ∃ f, f ∈ fields_of c s ∧ x ∈ f.
Proof.
  intros Hin Hne. induction s as [| y s IH]; [by apply elem_of_nil in Hin |]. cbn.
  apply elem_of_cons in Hin as [<- | Hin].
  - rewrite decide_False by done. destruct (fields_of c s) as [| f fs];
      eexists; split; [left | left | left | left].
  - destruct (IH Hin) as (f & Hf & Hc). case_decide; [exists f; split; [by right | done] |].
    destruct (fields_of c s) as [| g fs]; [by apply elem_of_nil in Hf |].
    apply elem_of_cons in Hf as [-> | Hf];
      [exists (y :: g); split; [left | by right] | exists f; split; [by right | done]].
Qed.

Lemma number_bad base digit c s : c ∈ s → digit c = None → number base digit s = None.
Proof.
  intros Hin Hc. unfold number. generalize (Some 0).
  induction s as [| x s IH]; intros o; [by apply elem_of_nil in Hin |]. cbn [foldl].
  apply elem_of_cons in Hin as [<- | Hin]; [| by apply IH].
  rewrite Hc. assert ((a ← o; d ← None; Some (a * base + d)) = @None Z) as -> by (by destruct o).
  clear. by induction s as [| x s IH].
Qed.

Lemma parse_v4_char s n c : parse_v4 s = Some n → c ∈ s → c = "."%char ∨ is_digit c = true.
Proof.
  intros H Hin. destruct (decide (c = "."%char)) as [| Hne]; [by left | right].
  apply parse_v4_inv in H as (? & ? & ? & ? & Hoct & _).
  destruct (fields_of_elem "."%char c s Hin Hne) as (f & Hf & Hc).
  rewrite Forall_forall in Hoct. destruct (Hoct f Hf) as [m Hm]. unfold octet in Hm.
  do 2 (case_match; [done |]). destruct (is_digit c) eqn:Ed; [done |].
  rewrite (number_bad _ _ c) in Hm; [done | done |]. unfold dec_digit. by rewrite Ed.
Qed.

Lemma parse_v4_dot s n : parse_v4 s = Some n → "."%char ∈ s.
Proof.
  intros H. destruct (decide ("."%char ∈ s)) as [| Hn]; [done |].
  unfold parse_v4 in H. by rewrite fields_of_free in H.
Qed.

Lemma ip_address_v4 s n : parse_v4 (chars s) = Some n → ip_is_safe s = safe_v4 n.
Proof.
  intros H. unfold ip_is_safe, ip_address, safe_v4. rewrite H. cbn [ipv4_mapped].
  by repeat destruct (_ || _).
Qed.

Lemma mapped_groups s n :
  parse_v4 s = Some n →
  groups [[]; []; chars "ffff"; s] = Some [None; None; Some 65535; Some (n / 65536); Some (n mod 65536)].
Proof.
  intros H. cbn [groups]. rewrite (bool_decide_true ("."%char ∈ s)) by (by eapply parse_v4_dot).
  rewrite H. reflexivity.
Qed.

Lemma ip_address_mapped s n :
  parse_v4 (chars s) = Some n → ip_address ("::ffff:" +:+ s) = Ok (V6 (0xffff * 2 ^ 32 + n)).
Proof.
  intros H. pose proof (parse_v4_inv _ _ H) as (a & b & c & d & _ & ? & ? & ? & ? & ->).
  assert (Hfree : ∀ x : ascii, x ≠ "."%char → is_digit x = false → x ∉ chars s).
  { intros x Hx Hd Hin. destruct (parse_v4_char _ _ _ H Hin) as [|]; congruence. }
  unfold ip_address. rewrite chars_app.
  assert (parse_v4 (chars "::ffff:" ++ chars s)%list = None) as ->.
  { apply eq_None_not_Some. intros [z E].
    destruct (parse_v4_char _ _ ":"%char E) as [|]; [apply elem_of_app; left; by apply (bool_decide_eq_true_1 _) | done | done]. }
  rewrite partition_free; [cbn [andb] |].
  2: { rewrite not_elem_of_app. split; [by apply (bool_decide_eq_false_1 _) | by apply Hfree]. }
  unfold parse_v6. change (chars "::ffff:") with (chars "::ffff" ++ [":"%char])%list.
  rewrite <- app_assoc. cbn [app]. rewrite fields_of_sep.
  rewrite (fields_of_free _ (chars s)) by (by apply Hfree).
  change (fields_of ":"%char (chars "::ffff")) with [[]; []; chars "ffff"]. cbn [app].
  rewrite mapped_groups with (n := v4 a b c d) by done. cbn [mbind option_bind].
  pose proof (Z.div_mod (v4 a b c d) 65536 ltac:(lia)) as Hdm.
  set (hi := v4 a b c d / 65536) in *. set (lo := v4 a b c d mod 65536) in *.
  assert (group_value [0; 0; 0; 0; 0; 65535; hi; lo] = 0xffff * 2 ^ 32 + v4 a b c d) as <-.
  { unfold group_value. cbn [foldl]. lia. }
  clearbody hi lo. reflexivity.
Qed.

Lemma mapped_v4 n : 0 <= n < 2 ^ 32 → ipv4_mapped (V6 (0xffff * 2 ^ 32 + n)) = Some n.
Proof.
  intros H. unfold ipv4_mapped. rewrite Z.shiftr_div_pow2, Z.div_add_l, (Z.div_small n) by lia.
  rewrite Z.add_0_r, Z.eqb_refl, Z.add_comm, Z.mod_add, Z.mod_small by lia. done.
Qed.

(** an address literal passes the guard exactly when it lies in none of
    the non-routable ranges (private, loopback, link-local with the cloud
    metadata address, carrier-grade NAT, documentation, multicast, reserved
    ...), and an IPv4-mapped IPv6 literal is judged on the IPv4 address it
    carries. *)
Theorem ip_is_safe_v4 (s : string) (n : Z) :
  parse_v4 (chars s) = Some n →
  ∃ a b c d, byte_range a ∧ byte_range b ∧ byte_range c ∧ byte_range d ∧ n = v4 a b c d
    ∧ (ip_is_safe s = true ↔ ¬ blocked_v4 a b c d)
    ∧ ip_is_safe ("::ffff:" +:+ s) = ip_is_safe s.
Proof.
  intros H. pose proof (parse_v4_inv _ _ H) as (a & b & c & d & _ & Ha & Hb & Hc & Hd & ->).
  exists a, b, c, d. split_and!; try done.
  - rewrite (ip_address_v4 _ _ H). by apply safe_v4_blocked.
  - rewrite (ip_address_v4 _ _ H). unfold ip_is_safe. rewrite (ip_address_mapped _ _ H).
    rewrite mapped_v4 by (unfold v4, byte_range in *; lia).
    unfold safe_v4. by repeat destruct (_ || _).
Qed.

Lemma ip_is_safe_v4_witness :
  ∃ a b c d, byte_range a ∧ byte_range b ∧ byte_range c ∧ byte_range d
    ∧ v4 169 254 169 254 = v4 a b c d
    ∧ (ip_is_safe "169.254.169.254" = true ↔ ¬ blocked_v4 a b c d)
    ∧ ip_is_safe "::ffff:169.254.169.254" = ip_is_safe "169.254.169.254".
Proof. exact (ip_is_safe_v4 "169.254.169.254" (v4 169 254 169 254) eq_refl). Defined.

Example ip_is_safe_1 :
  ip_is_safe "127.0.0.1" = false ∧ ip_is_safe "8.8.8.8" = true ∧ ip_is_safe "100.64.0.1" = false
  ∧ ip_is_safe "2800:3f0:4001::200e" = true ∧ ip_is_safe "::1" = false
  ∧ ip_is_safe "fe80::1%eth0" = false ∧ ip_is_safe "localhost" = false.
Proof. vm_compute. repeat split. Qed.

(** * The guard *)

Lemma rfc3986_char_code c : rfc3986_char c = true → 32 < code c ∧ c ∉ ["009"; "010"; "013"]%char.
Proof.
  assert (H : ∀ b7 b6 b5 b4 b3 b2 b1 b0,
    rfc3986_char (Ascii b0 b1 b2 b3 b4 b5 b6 b7) = true →
    (32 <? code (Ascii b0 b1 b2 b3 b4 b5 b6 b7))
    && bool_decide (Ascii b0 b1 b2 b3 b4 b5 b6 b7 ∉ ["009"; "010"; "013"]%char) = true).
  { intros [] [] [] [] [] [] [] []; vm_compute; intros H; (exact H || reflexivity). }
  intros Hc. destruct c as [b0 b1 b2 b3 b4 b5 b6 b7]. apply H in Hc. clear H.
  bool_prop. done.
Qed.

(** Nothing of an accepted text is dropped before it is split. *)
Lemma urlsplit_clean url :
  rfc3986_safe url = true →
  filter (λ c, c ∉ ["009"; "010"; "013"]%char) (drop_while (λ c, code c <=? 32) (chars url))
  = chars url.
Proof.
  unfold rfc3986_safe. rewrite forallb_forall. intros H.
  assert (Hf : ∀ c, c ∈ chars url → 32 < code c ∧ c ∉ ["009"; "010"; "013"]%char).
  { intros c Hc. apply rfc3986_char_code, H. by apply list_elem_of_In. }
  destruct (chars url) as [| c s]; [done |]. cbn [drop_while].
  destruct (Hf c) as [Hc _]; [left |].
  assert (code c <=? 32 = false) as -> by lia.
  apply filter_all. intros x Hx. by apply Hf.
Qed.

(** The characters that end or bracket an authority. *)
Definition plain_netloc (s : list ascii) : Prop :=
  Forall (λ c, c ∉ ["/"; "?"; "#"; "["; "]"]%char) s.

Lemma plain_netloc_free s c : plain_netloc s → c ∈ ["/"; "?"; "#"; "["; "]"]%char → c ∉ s.
Proof. unfold plain_netloc. rewrite Forall_forall. intros H Hc Hin. by apply (H c). Qed.

Section Authority.
Context (scheme user host port rest : list ascii).
Context (Hscheme : ∃ c s, scheme = c :: s ∧ is_alpha c = true).
Context (Hscheme' : forallb scheme_char scheme = true).
Context (Hplain : plain_netloc (user ++ host ++ port)).
Context (Huser : user = [] ∨ ∃ u, user = (u ++ ["@"%char])%list).
Context (Hhost : "@"%char ∉ host ∧ ":"%char ∉ host ∧ "%"%char ∉ host).
Context (Hport : port = [] ∨ ∃ p, port = ":"%char :: p ∧ "@"%char ∉ p).
Context (Hrest : rest = [] ∨ ∃ c r, rest = c :: r ∧ c ∈ ["/"; "?"; "#"]%char).

Definition authority_url : string :=
  of_chars (scheme ++ chars "://" ++ (user ++ host ++ port) ++ rest).

Lemma scheme_no_colon : ":"%char ∉ scheme.
Proof.
  intros Hin. rewrite forallb_forall in Hscheme'.
  apply list_elem_of_In in Hin. by specialize (Hscheme' _ Hin).
Qed.

Lemma urlsplit_authority :
  rfc3986_safe authority_url = true →
  urlsplit authority_url = Ok (lower scheme, (user ++ host ++ port)%list).
Proof.
  intros Hs. unfold urlsplit. rewrite urlsplit_clean by done.
  unfold authority_url. rewrite chars_of_chars.
  change (chars "://") with (":"%char :: chars "//"). cbn [app].
  rewrite partition_sep by apply scheme_no_colon.
  destruct Hscheme as (c & s & E & Hc).
  pose proof Hscheme' as Hall. rewrite E, Hc. rewrite E in Hall. rewrite Hall. cbn [andb].
  change (chars "//" ++ (user ++ host ++ port) ++ rest)%list
    with ("/"%char :: "/"%char :: ((user ++ host ++ port) ++ rest))%list. cbn iota.
  rewrite take_until_app.
  - rewrite !bool_decide_false by (by apply plain_netloc_free; [| set_solver]). done.
  - apply forallb_forall. intros x Hx. apply list_elem_of_In in Hx.
    apply negb_true_iff, bool_decide_eq_false. intros Hin.
    eapply (plain_netloc_free _ x Hplain); [set_solver | done].
  - intros x b' E'. destruct Hrest as [-> | (c' & r & -> & Hc')]; [done |].
    injection E' as <- <-. by apply bool_decide_eq_true.
Qed.

Lemma hostname_authority :
  hostname (user ++ host ++ port)
  = if bool_decide (host = []) then None else Some (lower host).
Proof using Hplain Huser Hhost Hport.
  clear - Hplain Huser Hhost Hport.
  destruct Hhost as (Hat & Hcolon & Hpct).
  assert (Hat' : "@"%char ∉ (host ++ port)%list).
  { rewrite elem_of_app. intros [|Hin]; [done |].
    destruct Hport as [-> | (p & -> & Hp)]; set_solver. }
  assert (Hal : after_last "@"%char (user ++ host ++ port) = (host ++ port)%list).
  { destruct Huser as [-> | [u ->]]; [by apply after_last_free |].
    rewrite <- app_assoc. by apply after_last_sep. }
  assert (Hbr : "["%char ∉ (host ++ port)%list).
  { intros Hin. eapply (plain_netloc_free _ "["%char Hplain); [set_solver |]. set_solver. }
  unfold hostname, hostinfo. rewrite Hal, (partition_free "["%char) by done.
  assert (∃ f b, partition ":"%char (host ++ port) = (host, f, b)) as (f & b & ->).
  { destruct Hport as [-> | (p & -> & _)]; [rewrite app_nil_r, partition_free by done; eauto |].
    rewrite partition_sep by done. eauto. }
  cbn [fst]. destruct host as [| c s] eqn:E; [done |]. rewrite <- E in *.
  rewrite partition_free by done. rewrite bool_decide_false by congruence. by rewrite app_nil_r.
Qed.
End Authority.

(** a url [scheme://user@host:port/...] is accepted exactly when its
    scheme is http or https and the host after the last "@" and before the
    port, lower-cased, is not empty and is allowed; what is returned is that
    scheme and that host, whatever the user information, the port, the path,
    the query or the fragment contain. *)
Theorem check_scheme_and_domain_spec (scheme user host port rest : list ascii)
    (allowed : string → bool) :
  (∃ c s, scheme = c :: s ∧ is_alpha c = true) → forallb scheme_char scheme = true →
  plain_netloc (user ++ host ++ port) →
  (user = [] ∨ ∃ u, user = (u ++ ["@"%char])%list) →
  ("@"%char ∉ host ∧ ":"%char ∉ host ∧ "%"%char ∉ host) →
  (port = [] ∨ ∃ p, port = ":"%char :: p ∧ "@"%char ∉ p) →
  (rest = [] ∨ ∃ c r, rest = c :: r ∧ c ∈ ["/"; "?"; "#"]%char) →
  let url := authority_url scheme user host port rest in
  rfc3986_safe url = true →
  check_scheme_and_domain url allowed =
    if bool_decide (of_chars (lower scheme) ∈ ALLOWED_SCHEMES) then
      if bool_decide (host = []) then raise SSRFError "missing host"
      else if allowed (of_chars (lower host))
      then Ok (of_chars (lower scheme), of_chars (lower host))
      else raise SSRFError "domain not in allowlist"
    else raise SSRFError "scheme not allowed".
Proof.
  intros H1 H2 H3 H4 H5 H6 H7 url Hs. unfold check_scheme_and_domain. rewrite Hs.
  cbn [negb]. unfold url. rewrite urlsplit_authority by done. cbn [rbind].
  case_bool_decide; cbn [negb]; [| done]. rewrite hostname_authority by done.
  case_bool_decide; [done |]. by destruct (allowed _).
Qed.

Lemma check_scheme_and_domain_spec_witness :
  let url := authority_url (chars "HTTPS") (chars "kabum.com.br@") (chars "Evil.com")
               (chars ":443") (chars "/@kabum.com.br") in
  url = "HTTPS://kabum.com.br@Evil.com:443/@kabum.com.br"
  ∧ check_scheme_and_domain url (domain_allowed ["kabum.com.br"])
    = raise SSRFError "domain not in allowlist"
  ∧ check_scheme_and_domain url (domain_allowed ["evil.com"]) = Ok ("https", "evil.com").
Proof.
  intros url. split; [reflexivity |].
  split; (etransitivity; [apply (check_scheme_and_domain_spec (chars "HTTPS")
    (chars "kabum.com.br@") (chars "Evil.com") (chars ":443") (chars "/@kabum.com.br")) |]).
  all: try (vm_compute; reflexivity).
  all: try (right; exists (chars "kabum.com.br"); reflexivity).
  all: try (exists "H"%char, (chars "TTPS"); vm_compute; done).
  all: try (right; exists (chars "443"); split; [reflexivity | set_solver]).
  all: try (right; exists "/"%char, (chars "@kabum.com.br"); split; [reflexivity | set_solver]).
  all: try (split_and!; apply (bool_decide_eq_false_1 _); vm_compute; reflexivity).
  all: apply (bool_decide_eq_true_1 _); vm_compute; reflexivity.
Defined.

Lemma resolve_and_check_ok g host port addr :
  resolve_and_check g host port = Ok addr ↔
  ∃ rest, g host port = Ok (addr :: rest) ∧ Forall (λ a, ip_is_safe a = true) (addr :: rest).
Proof.
  unfold resolve_and_check. split.
  - intros H. destruct (g host port) as [[| a l] | e]; [done | | by destruct (is_a _ _)].
    destruct (forallb ip_is_safe (a :: l)) eqn:E; [| done]. injection H as <-.
    exists l. split; [done |]. apply Forall_forall. rewrite forallb_forall in E.
    intros x Hx. apply E. by apply list_elem_of_In.
  - intros (l & -> & Hall). replace (forallb ip_is_safe (addr :: l)) with true; [done |].
    symmetry. apply forallb_forall. rewrite Forall_forall in Hall.
    intros x Hx. apply Hall. by apply list_elem_of_In.
Qed.

(** an egress connection is pinned to the first resolved address, and
    only when every address the resolver gave (one call) is safe: a host that
    mixes safe and unsafe answers, or has none, is refused with SSRFError, and
    a failed resolution is a FetchError. *)
Theorem resolve_and_pin_spec (g : Resolver) (host : string) (port : Z) :
  match resolve_and_pin g host port with
  | Ok p =>
      ∃ rest, g host port = Ok (pa_ip p :: rest)
        ∧ Forall (λ a, ip_is_safe a = true) (pa_ip p :: rest)
        ∧ pa_host p = host ∧ pa_port p = port
  | Raise e =>
      match g host port with
      | Ok addrs => exn_class e = SSRFError
                    ∧ (addrs = [] ∨ Exists (λ a, ip_is_safe a = false) addrs)
      | Raise e' => if is_a (exn_class e') GaiError then exn_class e = FetchError else e = e'
      end
  end.
Proof.
  unfold resolve_and_pin. destruct (resolve_and_check g host port) as [a | e] eqn:E; cbn [rbind].
  - apply resolve_and_check_ok in E as (rest & -> & Hall). by exists rest.
  - unfold resolve_and_check in E. destruct (g host port) as [[| a l] | e'].
    + injection E as <-. auto.
    + destruct (forallb ip_is_safe (a :: l)) eqn:Ef; [done |]. injection E as <-.
      split; [done | right]. apply Exists_exists. apply not_true_iff_false in Ef.
      assert (existsb (λ x, negb (ip_is_safe x)) (a :: l) = true) as Hex.
      { destruct (existsb _ _) eqn:Ee; [done |]. destruct Ef. apply forallb_forall.
        intros x Hx. destruct (ip_is_safe x) eqn:Ex; [done |].
        apply not_true_iff_false in Ee. destruct Ee. apply existsb_exists. exists x.
        by rewrite Ex. }
      apply existsb_exists in Hex as (x & Hx & Hn). exists x.
      split; [by apply list_elem_of_In | by apply negb_true_iff].
    + by destruct (is_a _ _); injection E as <-.
Qed.

Lemma hostname_ne netloc h : hostname netloc = Some h → of_chars h ≠ "".
Proof.
  unfold hostname. destruct (hostinfo netloc).1 as [| c r]; [done |].
  destruct (partition "%"%char (c :: r)) as [[x f] z] eqn:Epar. intros [= <-].
  cbn [partition] in Epar. case_decide; [by injection Epar as <- <- <- |].
  destruct (partition "%"%char r) as [[x' f'] z']. by injection Epar as <- <- <-.
Qed.

Lemma port_default s netloc p :
  port netloc = Ok p →
  1 <= match p with
       | Some n => if n =? 0 then default_port s else n
       | None => default_port s
       end <= 65535.
Proof.
  assert (1 <= default_port s <= 65535) by (unfold default_port; case_bool_decide; lia).
  unfold port. destruct (hostinfo netloc).2; [by intros [= <-] |].
  destruct (number 10 dec_digit _) as [n |] eqn:En; [| done].
  apply number_nonneg in En. destruct (n <=? 65535) eqn:El; [| done]. intros [= <-].
  bool_prop. destruct (Z.eqb_spec n 0); lia.
Qed.

(** The only exceptions of the url gate. *)
Lemma ip_address_raises s e : ip_address s = Raise e → exn_class e = ValueError.
Proof.
  unfold ip_address. destruct (parse_v4 (chars s)); [done |].
  destruct (partition "%"%char (chars s)) as [[a f] z]. case_match; [by intros [= <-] |].
  destruct (parse_v6 a); [done |]. by intros [= <-].
Qed.

Lemma check_bracketed_netloc_raises netloc e :
  check_bracketed_netloc netloc = Raise e → exn_class e = ValueError.
Proof.
  unfold check_bracketed_netloc. intros H.
  repeat (case_match; try discriminate H; try (injection H as <-; done)).
  all: injection H as <-; by eapply ip_address_raises.
Qed.

Lemma urlsplit_raises url e : urlsplit url = Raise e → exn_class e = ValueError.
Proof.
  unfold urlsplit. intros H. repeat (case_match; try discriminate H; try (injection H as <-; done)).
  all: destruct (check_bracketed_netloc _) eqn:E; [done |]; injection H as <-;
    by eapply check_bracketed_netloc_raises.
Qed.

Lemma check_scheme_and_domain_raises url allowed e :
  check_scheme_and_domain url allowed = Raise e →
  exn_class e = SSRFError ∨ exn_class e = ValueError.
Proof.
  unfold check_scheme_and_domain. case_match; [intros [= <-]; auto |].
  destruct (urlsplit url) as [[s n] | e'] eqn:E; cbn [rbind].
  - repeat case_match; intros [= <-]; auto.
  - intros [= <-]. right. by eapply urlsplit_raises.
Qed.

Lemma validate_source_url_raises url allowed e :
  validate_source_url url allowed = Raise e →
  exn_class e = UrlValidationError ∨ exn_class e = ValueError.
Proof.
  unfold validate_source_url. destruct (check_scheme_and_domain url allowed) as [| e'] eqn:E; [done |].
  apply check_scheme_and_domain_raises in E as [E | E]; rewrite E; intros [= <-]; auto.
Qed.

(** Widening the policy refuses nothing more. *)
Lemma validate_source_url_mono url (p q : string → bool) :
  (∀ h, p h = true → q h = true) →
  validate_source_url url p = Ok tt → validate_source_url url q = Ok tt.
Proof.
  intros Hpq. unfold validate_source_url, check_scheme_and_domain.
  destruct (rfc3986_safe url); cbn [negb]; [| done].
  destruct (urlsplit url) as [[s n] | e]; cbn [rbind]; [| done].
  case_bool_decide; cbn [negb]; [| done]. destruct (hostname n) as [h |]; [| done].
  destruct (p (of_chars h)) eqn:E; [| done]. by rewrite (Hpq _ E).
Qed.

Lemma domain_allowed_mono (ds ds' : list string) h :
  ds ⊆ ds' → domain_allowed ds h = true → domain_allowed ds' h = true.
Proof.
  intros Hsub. unfold domain_allowed. rewrite !existsb_exists. intros (d & Hd & Ht).
  exists d. split; [| done]. apply list_elem_of_In, Hsub. by apply list_elem_of_In.
Qed.

(** C15: a fetch target is only validated when the url is clean, its scheme
    and host are allowed, its port is between 1 and 65535, and the pinned
    address and all the others of the same answer are safe. *)
Theorem validate_target_fail_closed (g : Resolver) (url : string) (allowed : string → bool)
    (vt : ValidatedTarget) :
  validate_target g url allowed = Ok vt →
  rfc3986_safe url = true ∧ vt_url vt = url
  ∧ vt_scheme vt ∈ ALLOWED_SCHEMES ∧ vt_host vt ≠ "" ∧ allowed (vt_host vt) = true
  ∧ 1 <= vt_port vt <= 65535
  ∧ ∃ rest, g (vt_host vt) (vt_port vt) = Ok (vt_ip vt :: rest)
      ∧ Forall (λ a, ip_is_safe a = true) (vt_ip vt :: rest).
Proof.
  unfold validate_target. destruct (check_scheme_and_domain url allowed) as [[s h] |] eqn:Ec; [| done].
  cbn [rbind]. destruct (urlsplit url) as [[s' netloc] |] eqn:Eu; [| done]. cbn [rbind].
  destruct (port netloc) as [p |] eqn:Ep; [| done]. cbn [rbind].
  destruct (resolve_and_check _ _ _) as [a |] eqn:Er; [| done]. cbn [rbind].
  intros H. injection H as <-. cbn [vt_url vt_scheme vt_host vt_port vt_ip].
  apply resolve_and_check_ok in Er.
  unfold check_scheme_and_domain in Ec. destruct (rfc3986_safe url); [| done].
  rewrite Eu in Ec. cbn [negb rbind] in Ec. case_bool_decide as Hs; [| done].
  destruct (hostname netloc) as [h' |] eqn:Eh; [| done]. cbn [negb] in Ec.
  destruct (allowed (of_chars h')) eqn:Ea; [| done]. injection Ec as <- <-.
  apply (port_default (of_chars s')) in Ep.
  split_and!; [done .. | by eapply hostname_ne | done | apply Ep | apply Ep | by apply Er].
Qed.

Definition demo_resolver : Resolver := λ host _,
  if bool_decide (host = "kabum.com.br") then Ok ["8.8.8.8"; "2800:3f0:4001::200e"]
  else if bool_decide (host = "mixed.kabum.com.br") then Ok ["8.8.8.8"; "10.0.0.1"]
  else raise GaiError "Name or service not known".

Lemma validate_target_fail_closed_witness :
  let vt := {| vt_url := "https://KABUM.com.br/p?id=1"; vt_scheme := "https";
               vt_host := "kabum.com.br"; vt_port := 443; vt_ip := "8.8.8.8" |} in
  ∃ rest, demo_resolver (vt_host vt) (vt_port vt) = Ok (vt_ip vt :: rest)
      ∧ Forall (λ a, ip_is_safe a = true) (vt_ip vt :: rest).
Proof.
  intros vt. pose proof (validate_target_fail_closed demo_resolver (vt_url vt)
    (domain_allowed ["kabum.com.br"]) vt) as H.
  refine (proj2 (proj2 (proj2 (proj2 (proj2 (proj2 (H _))))))). vm_compute. reflexivity.
Defined.

(** contrary to its contract (SSRFError for a refused target, FetchError
    for a failed resolution), the guard lets a bare ValueError out: for a port
    above 65535 of an otherwise valid target, and for an unclosed bracket. *)
Theorem validate_target_bare_ValueError (g : Resolver) :
  validate_target g "https://kabum.com.br:99999/" (domain_allowed ["kabum.com.br"])
    = raise ValueError "Port out of range 0-65535"
  ∧ check_scheme_and_domain "https://[kabum.com.br/" (domain_allowed ["kabum.com.br"])
    = raise ValueError "Invalid IPv6 URL".
Proof. split; vm_compute; reflexivity. Qed.
