(* ===== verification/Urls.v ===== *)
(** The parts of [urllib.parse] that the browser tiers use beyond the guard:
    [urlsplit] with its path, query and fragment, [urldefrag] and [quote].
    Text is ASCII in the urls; [quote] is given Latin-1 characters. *)

From S2P Require Import Prelude Safety.

(** * Splitting *)

Record SplitResult := mkSplit {
  sr_scheme : list ascii;
  sr_netloc : list ascii;
  sr_path : list ascii;
  sr_query : list ascii;
  sr_fragment : list ascii;
}.

(** What follows the authority: the path, the query and the fragment. *)
Definition split_rest (s : list ascii) : list ascii * list ascii * list ascii :=
  let '(s, _, fragment) := partition "#"%char s in
  let '(path, _, query) := partition "?"%char s in (path, query, fragment).

Definition netloc_end (c : ascii) : bool := bool_decide (c ∈ ["/"; "?"; "#"]%char).

(** [urlsplit(url)] in full. *)
Definition urlsplit5 (url : string) : result SplitResult :=
  let s := drop_while (λ c, code c <=? 32) (chars url) in
  let s := filter (λ c, c ∉ ["009"; "010"; "013"]%char) s in
  let '(pre, colon, post) := partition ":"%char s in
  let '(scheme, s) :=
    match pre with
    | c :: _ => if (colon : bool) && is_alpha c && forallb scheme_char pre
                then (lower pre, post) else ([], s)
    | [] => ([], s)
    end in
  let build netloc rest :=
    let '(path, query, fragment) := split_rest rest in
    mkSplit scheme netloc path query fragment in
  match s with
  | "/"%char :: "/"%char :: rest =>
      let netloc := take_until netloc_end rest in
      let after := drop (length netloc) rest in
      let open := bool_decide ("["%char ∈ netloc) in
      let close := bool_decide ("]"%char ∈ netloc) in
      if xorb open close then raise ValueError "Invalid IPv6 URL"
      else if open then let? _ := check_bracketed_netloc netloc in Ok (build netloc after)
      else Ok (build netloc after)
  | _ => Ok (build [] s)
  end.

(** [parts.username is not None or parts.password is not None]. *)
Definition has_userinfo (parts : SplitResult) : bool := bool_decide ("@"%char ∈ parts.(sr_netloc)).

(** * Putting together *)

Definition uses_netloc : list string :=
  [""; "ftp"; "http"; "gopher"; "nntp"; "telnet"; "imap"; "wais"; "file"; "mms"; "https";
   "shttp"; "snews"; "prospero"; "rtsp"; "rtsps"; "rtspu"; "rsync"; "svn"; "svn+ssh"; "sftp";
   "nfs"; "git"; "git+ssh"; "ws"; "wss"; "itms-services"].
Definition uses_params : list string :=
  [""; "ftp"; "hdl"; "prospero"; "http"; "https"; "shttp"; "rtsp"; "rtsps"; "sip"; "sips";
   "mms"; "sftp"; "tel"].

(** The text after the last slash, and what comes before it. *)
Definition last_segment (s : list ascii) : list ascii * list ascii :=
  let seg := take_until (λ c, bool_decide (c = "/"%char)) (reverse s) in
  (take (length s - length seg) s, reverse seg).

(** [_splitparams]: the parameters are those of the last segment. *)
Definition splitparams (path : list ascii) : list ascii * list ascii :=
  let '(dir, seg) := last_segment path in
  let '(name, _, params) := partition ";"%char seg in ((dir ++ name)%list, params).

(** [c + part] if there is a part. *)
Definition suffixed (c : ascii) (part : list ascii) : list ascii :=
  match part with [] => [] | _ => c :: part end.

Definition urlunsplit (p : SplitResult) : list ascii :=
  let slashes : list ascii := ["/"; "/"]%char in
  let url := p.(sr_path) in
  let two := bool_decide (slashes `prefix_of` url) in
  let url :=
    match p.(sr_netloc) with
    | _ :: _ =>
        let url := match url with
                   | [] => [] | "/"%char :: _ => url | _ => "/"%char :: url end in
        (slashes ++ p.(sr_netloc) ++ url)%list
    | [] =>
        if two then (slashes ++ url)%list
        else if negb (bool_decide (p.(sr_scheme) = []))
                && bool_decide (of_chars p.(sr_scheme) ∈ uses_netloc)
                && bool_decide (url = [] ∨ head url = Some "/"%char)
        then (slashes ++ url)%list else url
    end in
  ((match p.(sr_scheme) with [] => [] | s => s ++ [":"%char] end)
   ++ url ++ suffixed "?" p.(sr_query) ++ suffixed "#" p.(sr_fragment))%list.

(** [urlunparse(urlparse(url)[:5] + ("",))]: the parameters are split off the
    path and put back, so an empty one loses its semicolon. *)
Definition reparse (p : SplitResult) : SplitResult :=
  let path :=
    if bool_decide (of_chars p.(sr_scheme) ∈ uses_params) && bool_decide (";"%char ∈ p.(sr_path))
    then let '(path, params) := splitparams p.(sr_path) in (path ++ suffixed ";" params)%list
    else p.(sr_path) in
  mkSplit p.(sr_scheme) p.(sr_netloc) path p.(sr_query) [].

(** [urldefrag(url).url]. *)
Definition urldefrag (url : string) : result string :=
  if bool_decide ("#"%char ∈ chars url)
  then let? p := urlsplit5 url in Ok (of_chars (urlunsplit (reparse p)))
  else Ok url.

(** * Lemmas *)

(** The guard's [urlsplit] is the scheme and the netloc of the full one. *)
Lemma urlsplit5_urlsplit url :
  urlsplit url = let? p := urlsplit5 url in Ok (p.(sr_scheme), p.(sr_netloc)).
Proof.
  unfold urlsplit, urlsplit5. change netloc_end with (λ c, bool_decide (c ∈ ["/"; "?"; "#"]%char)).
  destruct (partition ":"%char _) as [[pre colon] post].
  destruct (match pre with [] => _ | _ :: _ => _ end) as [scheme s].
  assert (Hb : ∀ netloc rest p, (let '(path, query, fragment) := split_rest rest in
      mkSplit scheme netloc path query fragment) = p →
      (sr_scheme p, sr_netloc p) = (scheme, netloc)).
  { intros netloc rest p <-. by destruct (split_rest rest) as [[? ?] ?]. }
  destruct s as [| c1 s]; [cbn [rbind]; by erewrite Hb |].
  destruct s as [| c2 rest].
  { destruct c1 as [[] [] [] [] [] [] [] []]; cbn [rbind]; by erewrite Hb. }
  destruct (decide (c1 = "/"%char)) as [-> | H1].
  2: { destruct c1 as [[] [] [] [] [] [] [] []]; try done; cbn [rbind]; by erewrite Hb. }
  destruct (decide (c2 = "/"%char)) as [-> | H2].
  2: { destruct c2 as [[] [] [] [] [] [] [] []]; try done; cbn [rbind]; by erewrite Hb. }
  cbv zeta. destruct (xorb _ _); [done |].
  destruct (bool_decide (_ ∈ _)); [destruct (check_bracketed_netloc _); [| done] |];
    cbn [rbind]; by erewrite Hb.
Qed.

Lemma forallb_app_iff {A} (f : A → bool) l k :
  forallb f (l ++ k) = true ↔ forallb f l = true ∧ forallb f k = true.
Proof. rewrite forallb_app. apply andb_true_iff. Qed.

(** The components of a url that [urlunsplit] writes and [urlsplit] reads. *)
Record canonical (p : SplitResult) : Prop := {
  can_scheme : ∃ c s, p.(sr_scheme) = c :: s ∧ is_alpha c = true;
  can_scheme_chars : forallb scheme_char p.(sr_scheme) = true;
  can_lower : lower p.(sr_scheme) = p.(sr_scheme);
  can_netloc : p.(sr_netloc) ≠ [];
  can_plain : plain_netloc p.(sr_netloc);
  can_path : p.(sr_path) = [] ∨ ∃ s, p.(sr_path) = "/"%char :: s;
  can_path_chars : "?"%char ∉ p.(sr_path) ∧ "#"%char ∉ p.(sr_path);
  can_query : "#"%char ∉ p.(sr_query);
  can_clean : rfc3986_safe (of_chars (urlunsplit p)) = true;
}.

Lemma split_rest_suffixed path query fragment :
  "?"%char ∉ path → "#"%char ∉ path → "#"%char ∉ query →
  split_rest (path ++ suffixed "?" query ++ suffixed "#" fragment) = (path, query, fragment).
Proof.
  intros Hq Hh Hqh. unfold split_rest. rewrite app_assoc.
  assert (Hf : "#"%char ∉ (path ++ suffixed "?" query)%list).
  { rewrite elem_of_app. destruct query; cbn; set_solver. }
  assert (partition "#"%char ((path ++ suffixed "?" query) ++ suffixed "#" fragment)%list
          = ((path ++ suffixed "?" query)%list, bool_decide (fragment ≠ []), fragment)) as ->.
  { destruct fragment as [| f fragment]; cbn [suffixed].
    - by rewrite app_nil_r, partition_free.
    - by rewrite partition_sep. }
  destruct query as [| c query]; cbn [suffixed].
  - by rewrite app_nil_r, partition_free.
  - by rewrite partition_sep.
Qed.

Lemma urlunsplit_canonical p :
  canonical p →
  urlunsplit p = (p.(sr_scheme) ++ ":"%char :: "/"%char :: "/"%char :: p.(sr_netloc) ++ p.(sr_path)
                  ++ suffixed "?" p.(sr_query) ++ suffixed "#" p.(sr_fragment))%list.
Proof.
  intros [(c & s & Hs & _) _ _ Hn _ Hp _ _ _]. unfold urlunsplit.
  destruct p as [scheme netloc path query fragment]. cbn in *. subst scheme.
  destruct netloc as [| n netloc]; [done |].
  assert (match path with [] => [] | "/"%char :: _ => path | _ => "/"%char :: path end = path) as ->.
  { destruct Hp as [-> | [? ->]]; done. }
  cbn. rewrite <- !app_assoc. done.
Qed.

(** what [urlunsplit] writes, [urlsplit] reads back. *)
Lemma urlsplit_urlunsplit (p : SplitResult) :
  canonical p → urlsplit5 (of_chars (urlunsplit p)) = Ok p.
Proof.
  intros Hp. pose proof (urlunsplit_canonical p Hp) as E.
  destruct Hp as [(c & s & Hs & Hc) Hsc Hl Hn Hpl Hpath [Hq Hh] Hqh Hclean].
  unfold urlsplit5. rewrite urlsplit_clean by done. rewrite chars_of_chars, E. clear Hclean E.
  destruct p as [scheme netloc path query fragment].
  cbn [sr_scheme sr_netloc sr_path sr_query sr_fragment] in *.
  rewrite partition_sep.
  2: { intros Hin%list_elem_of_In. rewrite forallb_forall in Hsc. by specialize (Hsc _ Hin). }
  assert (match scheme with
          | [] => ([], (scheme ++ ":"%char :: "/"%char :: "/"%char :: netloc ++ path
                    ++ suffixed "?" query ++ suffixed "#" fragment)%list)
          | c :: _ => if true && is_alpha c && forallb scheme_char scheme
              then (lower scheme, ("/"%char :: "/"%char :: netloc ++ path
                    ++ suffixed "?" query ++ suffixed "#" fragment)%list)
              else ([], (scheme ++ ":"%char :: "/"%char :: "/"%char :: netloc ++ path
                    ++ suffixed "?" query ++ suffixed "#" fragment)%list)
          end = (scheme, ("/"%char :: "/"%char :: netloc ++ path
                    ++ suffixed "?" query ++ suffixed "#" fragment)%list)) as ->.
  { rewrite Hsc, Hl. subst scheme. by rewrite Hc. }
  rewrite take_until_app.
  - rewrite drop_app_length, !bool_decide_false by (by apply plain_netloc_free; [| set_solver]).
    cbn. by rewrite split_rest_suffixed.
  - apply forallb_forall. intros x Hx%list_elem_of_In. unfold netloc_end.
    apply negb_true_iff, bool_decide_eq_false. intros Hin.
    eapply (plain_netloc_free _ x Hpl); [set_solver | done].
  - intros x b Hx. unfold netloc_end. apply bool_decide_eq_true.
    destruct Hpath as [-> | [r ->]]; [| injection Hx as <- _; set_solver].
    destruct query as [| q query]; [| injection Hx as <- _; set_solver].
    destruct fragment as [| f fragment]; [done | injection Hx as <- _; set_solver].
Qed.

Lemma take_until_split (p : ascii → bool) s : ∃ b, s = (take_until p s ++ b)%list.
Proof.
  induction s as [| c s [b IH]]; [by exists [] |]. cbn. destruct (p c).
  - by exists (c :: s).
  - exists b. cbn. by rewrite <- IH.
Qed.

Lemma last_segment_app s : s = ((last_segment s).1 ++ (last_segment s).2)%list.
Proof.
  unfold last_segment. cbn. set (p := λ c : ascii, _).
  destruct (take_until_split p (reverse s)) as [b Hb].
  assert (Hs : s = (reverse b ++ reverse (take_until p (reverse s)))%list).
  { by rewrite <- reverse_app, <- Hb, reverse_involutive. }
  revert Hs. generalize (take_until p (reverse s)) as seg. intros seg ->.
  rewrite length_app, !length_reverse, Nat.add_sub, <- (length_reverse b).
  by rewrite take_app_length.
Qed.

Lemma partition_join c s : let '(a, f, b) := partition c s in
  s = if (f : bool) then (a ++ c :: b)%list else a.
Proof.
  induction s as [| x s IH]; [done |]. cbn. case_decide as H; [by subst |].
  destruct (partition c s) as [[a f] b]. destruct f; cbn; by rewrite IH.
Qed.

Lemma splitparams_join path : last path ≠ Some ";"%char →
  let '(a, params) := splitparams path in (a ++ suffixed ";" params)%list = path.
Proof.
  intros Hl. unfold splitparams. pose proof (last_segment_app path) as Hp.
  destruct (last_segment path) as [dir seg]. cbn in Hp.
  pose proof (partition_join ";" seg) as Hj.
  destruct (partition ";"%char seg) as [[name f] params] eqn:E.
  destruct f.
  - destruct params as [| c params]; cbn.
    + destruct Hl. rewrite Hp, Hj, app_assoc, last_snoc. done.
    + by rewrite Hp, Hj, <- app_assoc.
  - assert (params = []) as ->.
    { clear - E. revert name params E. induction seg as [| x seg IH]; cbn; intros name params E.
      - by injection E as <- <-.
      - case_decide; [done |]. destruct (partition ";"%char seg) as [[a g] b].
        injection E as <- -> <-. by eapply IH. }
    cbn. by rewrite app_nil_r, Hp, Hj.
Qed.

(** [urldefrag] removes the fragment and nothing else. *)
Lemma urldefrag_canonical (p : SplitResult) :
  canonical p → last p.(sr_path) ≠ Some ";"%char →
  urldefrag (of_chars (urlunsplit p))
  = Ok (of_chars (urlunsplit
      (mkSplit p.(sr_scheme) p.(sr_netloc) p.(sr_path) p.(sr_query) []))).
Proof.
  intros Hp Hl. unfold urldefrag. rewrite urlsplit_urlunsplit, chars_of_chars by done.
  case_bool_decide as Hf; cbn [rbind].
  - do 3 f_equal. unfold reparse. f_equal.
    destruct (bool_decide (_ ∈ _) && _); [| done].
    pose proof (splitparams_join _ Hl) as Hj. by destruct (splitparams _).
  - do 3 f_equal. destruct p as [scheme netloc path query [| c fragment]]; [done |].
    destruct Hf. rewrite urlunsplit_canonical by done. cbn.
    rewrite !elem_of_app, !elem_of_cons, !elem_of_app. cbn. set_solver.
Qed.
