(* ===== verification/Tenancy.v ===== *)
(** Two runs beside each other: what a call for one owner answers, and what it
    leaves for that owner, does not depend on the rows of any other owner.

    [twice R m] is the relational counterpart of [pres]: from two states that
    [R] relates, the two runs of [m] answer the same and end in related
    states.  [same_tenant o] relates two databases that hold the same for the
    owner [o] and the same catalogue of sites. *)

From S2P Require Import Prelude Registry ConfigStore.

(** * Two runs *)

Definition twice {S A} (R : S → S → Prop) (m : M S A) : Prop :=
  ∀ s1 s2, R s1 s2 → fst (m s1) = fst (m s2) ∧ R (snd (m s1)) (snd (m s2)).

(** The same of two states only. *)
Definition alike {S A} (R : S → S → Prop) (m : M S A) (s1 s2 : S) : Prop :=
  fst (m s1) = fst (m s2) ∧ R (snd (m s1)) (snd (m s2)).

Section Twice.
Context {S : Type} (R : S → S → Prop).

Lemma alike_bind {A B} (m : M S A) (k : A → M S B) s1 s2 :
  alike R m s1 s2 → (∀ a, twice R (k a)) → alike R (mbind' m k) s1 s2.
Proof.
  intros [Hr Hs] Hk. unfold alike, mbind'.
  destruct (m s1) as [[a | e] t1], (m s2) as [[a' | e'] t2]; try done; cbn in *;
    injection Hr as <-; first [by apply Hk | by split].
Qed.

Lemma alike_try {A} (m : M S A) h s1 s2 :
  alike R m s1 s2 → (∀ e, twice R (h e)) → alike R (mtry m h) s1 s2.
Proof.
  intros [Hr Hs] Hh. unfold alike, mtry.
  destruct (m s1) as [[a | e] t1], (m s2) as [[a' | e'] t2]; try done; cbn in *.
  injection Hr as <-. case_match; [by apply Hh | done].
Qed.

Lemma twice_ret {A} (a : A) : twice R (mret' a).
Proof. by intros s1 s2. Qed.

Lemma twice_raise {A} e : twice R (mraise (A:=A) e).
Proof. by intros s1 s2. Qed.

Lemma twice_lift {A} (r : result A) : twice R (mlift r).
Proof. by intros s1 s2. Qed.

Lemma twice_gets {A} (f : S → A) : (∀ s1 s2, R s1 s2 → f s1 = f s2) → twice R (mgets f).
Proof. intros Hf s1 s2 Hs. cbn. by rewrite (Hf s1 s2 Hs). Qed.

(** A read of which only [f] is used. *)
Lemma twice_gets_via {A B C} (g : S → A) (f : A → B) (k : B → M S C) :
  (∀ s1 s2, R s1 s2 → f (g s1) = f (g s2)) → (∀ b, twice R (k b)) →
  twice R (mbind' (mgets g) (λ a, k (f a))).
Proof. intros Hf Hk s1 s2 Hs. unfold mbind', mgets. rewrite (Hf s1 s2 Hs). by apply Hk. Qed.

Lemma twice_bind {A B} (m : M S A) (k : A → M S B) :
  twice R m → (∀ a, twice R (k a)) → twice R (mbind' m k).
Proof.
  intros Hm Hk s1 s2 Hs. unfold mbind'. destruct (Hm s1 s2 Hs) as [Hr Hs'].
  destruct (m s1) as [[a | e] t1], (m s2) as [[a' | e'] t2]; try done; cbn in *.
  - injection Hr as <-. by apply Hk.
  - injection Hr as <-. by split.
Qed.

Lemma twice_try {A} (m : M S A) h :
  twice R m → (∀ e, twice R (h e)) → twice R (mtry m h).
Proof.
  intros Hm Hh s1 s2 Hs. unfold mtry. destruct (Hm s1 s2 Hs) as [Hr Hs'].
  destruct (m s1) as [[a | e] t1], (m s2) as [[a' | e'] t2]; try done; cbn in *.
  injection Hr as <-. case_match; [by apply Hh | done].
Qed.
End Twice.

#[export] Hint Resolve twice_ret twice_raise twice_lift twice_bind twice_try : kerdoos.

(** * Lists *)

(** A key that tells its owner is looked for among the owner's rows only. *)
Lemma elem_of_own {A B} (own : A → string) (f : A → B) (o : string) (l : list A) (k : B) :
  (∀ a, f a = k → own a = o) → k ∈ f <$> l ↔ k ∈ f <$> filter (λ a, own a = o) l.
Proof.
  intros Hk. rewrite !list_elem_of_fmap. setoid_rewrite list_elem_of_filter.
  split; [| naive_solver]. intros (a & -> & Ha). exists a. split_and!; [done | by apply Hk | done].
Qed.

Lemma filter_comm {A} (P Q : A → Prop) `{∀ x, Decision (P x)} `{∀ x, Decision (Q x)} (l : list A) :
  filter P (filter Q l) = filter Q (filter P l).
Proof. rewrite !filter_filter'. apply filter_ext. tauto. Qed.

(** Selecting the rows of one owner among those that are. *)
Lemma filter_own {A} (own : A → string) (P : A → Prop) `{∀ x, Decision (P x)} (o : string) (l : list A) :
  (∀ a, P a → own a = o) → filter P l = filter P (filter (λ a, own a = o) l).
Proof. intros HP. rewrite filter_filter'. apply filter_ext. intros a _. split; [| tauto]. auto. Qed.

Lemma filter_fmap_own {A} (own : A → string) (g : A → A) (o : string) (l : list A) :
  (∀ a, own (g a) = own a) →
  filter (λ a, own a = o) (g <$> l) = g <$> filter (λ a, own a = o) l.
Proof.
  intros Hg. induction l as [| a l IH]; [done |]. rewrite fmap_cons, !filter_cons, Hg, IH.
  by case_decide.
Qed.

Lemma filter_not_cong {A} (own : A → string) (P : A → Prop) `{∀ x, Decision (P x)} (o : string) (l1 l2 : list A) :
  filter (λ a, own a = o) l1 = filter (λ a, own a = o) l2 →
  filter (λ a, own a = o) (filter P l1) = filter (λ a, own a = o) (filter P l2).
Proof. intros E. by rewrite (filter_comm _ P), (filter_comm _ P), E. Qed.

Lemma Exists_own {A} (own : A → string) (P : A → Prop) (o : string) (l : list A) :
  (∀ a, P a → own a = o) → Exists P l ↔ Exists P (filter (λ a, own a = o) l).
Proof.
  intros HP. rewrite !Exists_exists. setoid_rewrite list_elem_of_filter. naive_solver.
Qed.

(** * One owner's view of the configuration *)

Record same_tenant (o : string) (db1 db2 : ConfigDb) : Prop := {
  st_wf1 : wf db1;
  st_wf2 : wf db2;
  st_tenant : tenant o db1 = tenant o db2;
  st_sites : site_rows db1 = site_rows db2;
}.

Section Views.
Context (o : string).

(** A command on both sides: it is enough to look at its answer and at the
    owner's rows. *)
Lemma twice_op {A} (m : M ConfigDb A) (c : cmd) :
  cmd_ok c → (∀ db, snd (op m db) = exec c db) → (∀ s, c ≠ AddSite s) →
  (∀ db1 db2, same_tenant o db1 db2 →
     fst (m db1) = fst (m db2)
     ∧ (is_ok (fst (m db1)) = true → tenant o (snd (m db1)) = tenant o (snd (m db2)))) →
  twice (same_tenant o) (op m).
Proof.
  intros Hc Hex Hs Hm db1 db2 HR. destruct (Hm db1 db2 HR) as [Hr Ht].
  assert (∀ db, wf db → wf (snd (op m db))) as Hwf by (intros db Hdb; rewrite Hex; by apply wf_exec).
  assert (∀ db, site_rows (snd (op m db)) = site_rows db) as Hsites
    by (intros db; rewrite Hex; apply site_rows_exec, Hs).
  destruct HR as [Hw1 Hw2 HT HS].
  assert (fst (op m db1) = fst (op m db2) ∧ tenant o (snd (op m db1)) = tenant o (snd (op m db2))) as [Hf HT'].
  { unfold op. destruct (m db1) as [[a | e] t1], (m db2) as [[a' | e'] t2]; cbn in *; try done; auto. }
  split; [exact Hf |]. split; auto. by rewrite !Hsites.
Qed.

(** ** The commands, one by one *)

Lemma tenant_eq db1 db2 :
  tenant o db1 = tenant o db2 →
  filter (λ r, p_owner r = o) (product_rows db1) = filter (λ r, p_owner r = o) (product_rows db2)
  ∧ filter (λ r, s_owner r = o) (source_rows db1) = filter (λ r, s_owner r = o) (source_rows db2)
  ∧ filter (λ r, j_owner r = o) (job_rows db1) = filter (λ r, j_owner r = o) (job_rows db2)
  ∧ filter (λ r, l_owner r = o) (link_rows db1) = filter (λ r, l_owner r = o) (link_rows db2).
Proof. by intros [= -> -> -> ->]. Qed.

Lemma product_key_own k (l : list ProductRow) :
  (o, k) ∈ Config.product_key_of <$> l ↔ (o, k) ∈ Config.product_key_of <$> filter (λ r, p_owner r = o) l.
Proof. apply elem_of_own. by intros r [= -> _]. Qed.

Lemma source_key_own i (l : list SourceRow) :
  (o, i) ∈ Config.source_key_of <$> l ↔ (o, i) ∈ Config.source_key_of <$> filter (λ r, s_owner r = o) l.
Proof. apply elem_of_own. by intros r [= -> _]. Qed.

Lemma source_triple_own k s u (l : list SourceRow) :
  (o, k, s, u) ∈ Config.source_triple_of <$> l ↔
  (o, k, s, u) ∈ Config.source_triple_of <$> filter (λ r, s_owner r = o) l.
Proof. apply elem_of_own. by intros r [= -> _ _ _]. Qed.

Lemma twice_add_product p : twice (same_tenant o) (Config.add_product o p).
Proof.
  apply (twice_op _ (AddProduct o p)); [done .. |]. intros db1 db2 HR. split; [done |]. intros _.
  destruct (tenant_eq _ _ (st_tenant _ _ _ HR)) as (Ep & Es & Ej & El). unfold mmodify, tenant. cbn [snd].
  set (row := {| p_owner := o |}).
  assert (∀ db, Config.product_key_of row ∈ Config.product_key_of <$> product_rows db ↔
    Config.product_key_of row ∈ Config.product_key_of <$> filter (λ r, p_owner r = o) (product_rows db)) as Hk
    by (intros db; apply product_key_own).
  assert (∀ db, filter (λ r, p_owner r = o) (product_rows
      (if bool_decide (Config.product_key_of row ∈ Config.product_key_of <$> product_rows db)
       then set_products ((λ r, if bool_decide (Config.product_key_of r = Config.product_key_of row)
                                then row else r) <$> product_rows db) db
       else set_products (product_rows db ++ [row]) db))
    = let own := filter (λ r, p_owner r = o) (product_rows db) in
      if bool_decide (Config.product_key_of row ∈ Config.product_key_of <$> own)
      then (λ r, if bool_decide (Config.product_key_of r = Config.product_key_of row) then row else r) <$> own
      else (own ++ [row])%list) as Hn.
  { intros db. cbv zeta. rewrite <- (bool_decide_ext _ _ (Hk db)). case_bool_decide; cbn [product_rows set_products].
    - apply filter_fmap_own. intros r. case_bool_decide as E; [| done]. by injection E as -> _.
    - by rewrite filter_app, (filter_cons_True _ row). }
  rewrite !Hn, Ep. by repeat case_bool_decide; cbn; rewrite ?Es, ?Ej, ?El.
Qed.

Lemma twice_add_source s : twice (same_tenant o) (Config.add_source o s).
Proof.
  apply (twice_op _ (AddSource o s)); [done .. |]. intros db1 db2 HR.
  destruct (tenant_eq _ _ (st_tenant _ _ _ HR)) as (Ep & Es & Ej & El).
  set (row := {| s_id := source_id s |}).
  change (Config.source_key_of row) with (o, source_id s).
  change (Config.source_triple_of row) with (o, product_id s, source_site s, source_url s).
  rewrite (bool_decide_ext _ _ (source_key_own (source_id s) (source_rows db1))),
    (bool_decide_ext _ _ (source_key_own (source_id s) (source_rows db2))),
    (bool_decide_ext _ _ (source_triple_own _ _ _ (source_rows db1))),
    (bool_decide_ext _ _ (source_triple_own _ _ _ (source_rows db2))),
    (bool_decide_ext _ _ (and_iff_compat_r _ (product_key_own (product_id s) (product_rows db1)))),
    (bool_decide_ext _ _ (and_iff_compat_r _ (product_key_own (product_id s) (product_rows db2)))).
  rewrite Ep, Es, (st_sites _ _ _ HR).
  repeat case_bool_decide; cbn [fst snd]; split; try done; intros _; [by apply (st_tenant _ _ _ HR) |].
  unfold tenant. cbn. by rewrite !filter_app, Ep, Es, Ej, El.
Qed.

(** The catalogue is nobody's. *)
Lemma twice_add_site s : twice (same_tenant o) (Config.add_site s).
Proof.
  intros db1 db2 [Hw1 Hw2 HT HS]. apply (wf_exec (AddSite s) _ I) in Hw1, Hw2. cbn in Hw1, Hw2.
  destruct (tenant_eq _ _ HT) as (Ep & Es & Ej & El). unfold Config.add_site, op, mmodify in *. cbn in *.
  split; [done |]. rewrite HS in *.
  split; [done | done | |]; case_bool_decide; unfold tenant; cbn; by rewrite ?Ep, ?Es, ?Ej, ?El, ?HS.
Qed.

Lemma tenant_delete_own (P : SourceRow → Prop) `{∀ r, Decision (P r)} db1 db2 :
  (∀ r, P r → s_owner r = o) → tenant o db1 = tenant o db2 →
  tenant o (Config.delete_sources P db1) = tenant o (Config.delete_sources P db2).
Proof.
  intros HP (Ep & Es & Ej & El)%tenant_eq. unfold tenant, Config.delete_sources. cbn.
  rewrite (filter_own s_owner P o (source_rows db1) HP), (filter_own s_owner P o (source_rows db2) HP), Es.
  by rewrite Ep, Ej, (filter_not_cong s_owner _ o _ _ Es), (filter_not_cong l_owner _ o _ _ El).
Qed.

Lemma twice_remove_source i : twice (same_tenant o) (Config.remove_source o i).
Proof.
  apply (twice_op _ (RemoveSource o i)); [done .. |]. intros db1 db2 HR. split; [done |]. intros _.
  apply tenant_delete_own; [naive_solver | apply HR].
Qed.

Lemma twice_remove_product k : twice (same_tenant o) (Config.remove_product o k).
Proof.
  apply (twice_op _ (RemoveProduct o k)); [done .. |]. intros db1 db2 HR.
  destruct (tenant_eq _ _ (st_tenant _ _ _ HR)) as (Ep & _).
  rewrite (bool_decide_ext _ _ (product_key_own k (product_rows db1))),
    (bool_decide_ext _ _ (product_key_own k (product_rows db2))), Ep.
  case_bool_decide; [| by split]. split; [done |]. intros _. cbn [fst snd].
  assert (tenant o (Config.delete_sources (λ r, s_owner r = o ∧ s_key r = k) db1)
          = tenant o (Config.delete_sources (λ r, s_owner r = o ∧ s_key r = k) db2)) as Hd
    by (apply tenant_delete_own; [naive_solver | apply HR]).
  apply tenant_eq in Hd as (Ep' & Es & Ej & El). unfold tenant.
  cbn [product_rows source_rows job_rows link_rows set_products].
  by rewrite (filter_not_cong p_owner _ o _ _ Ep'), Es, Ej, El.
Qed.

Lemma find_job_own i db1 db2 :
  tenant o db1 = tenant o db2 → Config.find_job o i db1 = Config.find_job o i db2.
Proof.
  intros (_ & _ & Ej & _)%tenant_eq. unfold Config.find_job.
  by rewrite (filter_own j_owner _ o (job_rows db1)), (filter_own j_owner _ o (job_rows db2)), Ej by tauto.
Qed.

Lemma twice_update_job i j : valid_options (job_options j) = true →
  twice (same_tenant o) (Config.update_job o i j).
Proof.
  intros Hv. apply (twice_op _ (UpdateJob o i j)); [done .. |]. intros db1 db2 HR. cbv zeta.
  destruct (tenant_eq _ _ (st_tenant _ _ _ HR)) as (Ep & Es & Ej & El).
  rewrite (bool_decide_ext _ _ (Exists_own j_owner _ o (job_rows db1) (λ a Ha, proj1 Ha))),
    (bool_decide_ext _ _ (Exists_own j_owner _ o (job_rows db2) (λ a Ha, proj1 Ha))), Ej.
  case_bool_decide; [| by split].
  assert (∀ r, ¬ (j_owner r = o ∧ j_id r = i) ∧ Config.job_name_of r = (o, job_name j) → j_owner r = o)
    as Hn by (intros r [_ [= -> _]]; done).
  rewrite (bool_decide_ext _ _ (Exists_own j_owner _ o (job_rows db1) Hn)),
    (bool_decide_ext _ _ (Exists_own j_owner _ o (job_rows db2) Hn)), Ej.
  case_bool_decide; [by split |].
  assert (∀ r, j_owner (if bool_decide (j_owner r = o ∧ j_id r = i) then Config.updated_row j r else r) = j_owner r)
    as Hup by (intros r; by case_bool_decide).
  assert (tenant o (set_jobs ((λ r, if bool_decide (j_owner r = o ∧ j_id r = i) then Config.updated_row j r else r)
                                <$> job_rows db1) db1)
          = tenant o (set_jobs ((λ r, if bool_decide (j_owner r = o ∧ j_id r = i) then Config.updated_row j r else r)
                                <$> job_rows db2) db2)) as Ht
    by (unfold tenant; cbn; by rewrite !(filter_fmap_own j_owner _ o _ Hup), Ep, Es, Ej, El).
  cbn [fst snd]. split; [| done]. by rewrite (load_job_sources_tenant o i _ _ Ht).
Qed.

Lemma twice_delete_job i : twice (same_tenant o) (Config.delete_job o i).
Proof.
  apply (twice_op _ (DeleteJob o i)); [done .. |]. intros db1 db2 HR.
  pose proof (st_tenant _ _ _ HR) as HT. destruct (tenant_eq _ _ HT) as (Ep & Es & Ej & El).
  rewrite (find_job_own i _ _ HT). destruct (Config.find_job o i db2); [| by split].
  split; [done |]. intros _. unfold tenant. cbn.
  by rewrite (filter_not_cong l_owner _ o _ _ El), (filter_not_cong j_owner _ o _ _ Ej), Ep, Es.
Qed.

Lemma twice_remove_job_source i s : twice (same_tenant o) (Config.remove_job_source o i s).
Proof.
  apply (twice_op _ (RemoveJobSource o i s)); [done .. |]. intros db1 db2 HR. split; [done |]. intros _.
  destruct (tenant_eq _ _ (st_tenant _ _ _ HR)) as (Ep & Es & Ej & El). unfold tenant. cbn.
  by rewrite (filter_not_cong l_owner _ o _ _ El), Ep, Es, Ej.
Qed.

(** The links of an owner's job are the owner's. *)
Lemma link_owner db i r l :
  wf db → Config.find_job o i db = Some r → l ∈ link_rows db → l_job l = i → l_owner l = o.
Proof.
  intros Hw Hf Hl Hi. apply find_job_Some in Hf as (Hr & Hro & Hri).
  destruct (wf_fk_job db Hw l Hl) as (r' & Hr' & Hi' & Ho').
  assert (r' = r) as -> by (eapply (NoDup_fmap_inj_in j_id); [apply Hw | done .. | congruence]).
  congruence.
Qed.

Lemma link_key_own db i s r :
  wf db → Config.find_job o i db = Some r →
  (i, s) ∈ Config.link_key_of <$> link_rows db ↔
  (i, s) ∈ Config.link_key_of <$> filter (λ l, l_owner l = o) (link_rows db).
Proof.
  intros Hw Hf. rewrite !list_elem_of_fmap. setoid_rewrite list_elem_of_filter. split; [| naive_solver].
  intros (l & [= -> ->] & Hl). exists l. split_and!; [done | | done]. by eapply link_owner.
Qed.

(** One link of a job that is there. *)
Lemma link_source_alike i s r db1 db2 :
  same_tenant o db1 db2 → Config.find_job o i db1 = Some r →
  let '(ok1, db1') := Config.link_source o i s db1 in
  let '(ok2, db2') := Config.link_source o i s db2 in
  ok1 = ok2 ∧ tenant o db1' = tenant o db2'.
Proof.
  intros HR Hf. pose proof (st_tenant _ _ _ HR) as HT.
  destruct (tenant_eq _ _ HT) as (Ep & Es & Ej & El).
  pose proof Hf as Hf2. rewrite (find_job_own i _ _ HT) in Hf2. unfold Config.link_source.
  assert (∀ db, wf db → Config.find_job o i db = Some r →
    ((o, s) ∈ Config.source_key_of <$> source_rows db ∧ (i, s) ∉ Config.link_key_of <$> link_rows db) ↔
    ((o, s) ∈ Config.source_key_of <$> filter (λ r, s_owner r = o) (source_rows db)
     ∧ (i, s) ∉ Config.link_key_of <$> filter (λ l, l_owner l = o) (link_rows db))) as Hk.
  { intros db Hw Hj. rewrite <- (link_key_own db i s r Hw Hj).
    by rewrite <- source_key_own. }
  rewrite (bool_decide_ext _ _ (Hk db1 (st_wf1 _ _ _ HR) Hf)), (bool_decide_ext _ _ (Hk db2 (st_wf2 _ _ _ HR) Hf2)), Es, El.
  case_bool_decide; (split; [done |]); [| done].
  unfold tenant. cbn. by rewrite !filter_app, Ep, Es, Ej, El.
Qed.

Lemma twice_add_job_source i s : twice (same_tenant o) (Config.add_job_source o i s).
Proof.
  apply (twice_op _ (AddJobSource o i s)); [done .. |]. intros db1 db2 HR.
  pose proof (find_job_own i _ _ (st_tenant _ _ _ HR)) as Hf. rewrite Hf.
  destruct (Config.find_job o i db2) as [r |] eqn:E2; [| by split].
  cbn [Config.link_sources]. pose proof (link_source_alike i s r db1 db2 HR Hf) as Hl.
  destruct (Config.link_source o i s db1) as [ok1 d1], (Config.link_source o i s db2) as [ok2 d2].
  destruct Hl as [<- Ht]. destruct ok1; cbn [fst snd]; split; try done; intros _; exact Ht.
Qed.

Lemma link_sources_alike i ids r db1 db2 :
  same_tenant o db1 db2 → Config.find_job o i db1 = Some r →
  let '(linked1, db1') := Config.link_sources o i ids db1 in
  let '(linked2, db2') := Config.link_sources o i ids db2 in
  linked1 = linked2 ∧ tenant o db1' = tenant o db2'.
Proof.
  revert db1 db2. induction ids as [| s ids IH]; intros db1 db2 HR Hf; cbn;
    [split; [done | apply HR] |].
  pose proof (link_source_alike i s r db1 db2 HR Hf) as Hl.
  assert (∀ db, Config.find_job o i db = Some r →
            ∃ r', r' ∈ job_rows db ∧ j_id r' = i ∧ j_owner r' = o) as Hin
    by (intros db (?&?&?)%find_job_Some; by exists r).
  pose proof (find_job_own i _ _ (st_tenant _ _ _ HR)) as Hf2. rewrite Hf in Hf2. symmetry in Hf2.
  pose proof (wf_link_source o i s db1 (st_wf1 _ _ _ HR) (Hin _ Hf)) as Hw1.
  pose proof (wf_link_source o i s db2 (st_wf2 _ _ _ HR) (Hin _ Hf2)) as Hw2.
  destruct (link_source_frame o i s db1) as (_&S1&_&_&J1), (link_source_frame o i s db2) as (_&S2&_&_&J2).
  destruct (Config.link_source o i s db1) as [ok1 d1], (Config.link_source o i s db2) as [ok2 d2].
  cbn [snd] in *. destruct Hl as [<- HT].
  assert (same_tenant o d1 d2) as HR' by (split; [done .. |]; rewrite S1, S2; apply HR).
  assert (Config.find_job o i d1 = Some r) as Hf' by (unfold Config.find_job; by rewrite J1).
  specialize (IH d1 d2 HR' Hf').
  destruct (Config.link_sources o i ids d1) as [l1 e1], (Config.link_sources o i ids d2) as [l2 e2].
  destruct IH as [<- IH]. split; [by destruct ok1 | done].
Qed.

(** A new job, when its id is taken on both sides or on neither. *)
Lemma create_job_alike j ids db1 db2 :
  valid_options (job_options j) = true →
  (job_id j ∈ j_id <$> job_rows db1 ↔ job_id j ∈ j_id <$> job_rows db2) →
  same_tenant o db1 db2 → alike (same_tenant o) (Config.create_job o j ids) db1 db2.
Proof.
  intros Hv Hid HR. pose proof (st_tenant _ _ _ HR) as HT. destruct (tenant_eq _ _ HT) as (Ep & Es & Ej & El).
  assert (∀ l : list JobRow, (o, job_name j) ∈ Config.job_name_of <$> l ↔
     (o, job_name j) ∈ Config.job_name_of <$> filter (λ r, j_owner r = o) l) as Hn
    by (intros l; apply elem_of_own; by intros r [= -> _]).
  pose proof (wf_create_job o j ids db1 Hv (st_wf1 _ _ _ HR)) as Hw1.
  pose proof (wf_create_job o j ids db2 Hv (st_wf2 _ _ _ HR)) as Hw2.
  pose proof (site_rows_exec (CreateJob o j ids) db1 ltac:(done)) as S1.
  pose proof (site_rows_exec (CreateJob o j ids) db2 ltac:(done)) as S2.
  cbn [exec] in *. unfold alike.
  assert (fst (Config.create_job o j ids db1) = fst (Config.create_job o j ids db2)
          ∧ tenant o (snd (Config.create_job o j ids db1)) = tenant o (snd (Config.create_job o j ids db2)))
    as [Hr HT'].
  2: { split; [exact Hr |]. split; [done .. |]. by rewrite S1, S2, (st_sites _ _ _ HR). }
  clear Hw1 Hw2 S1 S2. unfold Config.create_job, op.
  rewrite (bool_decide_ext _ _ (or_iff_compat_l _ (Hn (job_rows db1)))),
    (bool_decide_ext _ _ (or_iff_compat_l _ (Hn (job_rows db2)))), Ej,
    (bool_decide_ext _ _ (or_iff_compat_r _ Hid)).
  case_bool_decide as Hc; [by split |]. apply Decidable.not_or in Hc as [Hid2 Hname].
  set (add db := set_jobs (job_rows db ++ [job_to_row o j])%list db).
  assert (same_tenant o (add db1) (add db2)) as HR'.
  { assert (∀ db, wf db → job_id j ∉ j_id <$> job_rows db →
       (o, job_name j) ∉ Config.job_name_of <$> job_rows db → wf (add db)) as Hadd.
    { intros db Hw H1 H2. pose proof (wf_create_job o j [] db Hv Hw) as Hw'. cbn [exec] in Hw'.
      unfold Config.create_job, op in Hw'. by rewrite bool_decide_eq_false_2 in Hw' by tauto. }
    split; [apply Hadd; [apply HR | by rewrite Hid | by rewrite Hn, Ej]
           | apply Hadd; [apply HR | done | by rewrite Hn] | | apply HR].
    unfold tenant, add. cbn. by rewrite !filter_app, Ep, Es, Ej, El. }
  assert (Config.find_job o (job_id j) (add db1) = Some (job_to_row o j)) as Hf.
  { unfold Config.find_job, add. cbn. rewrite filter_app, filter_none.
    - cbn. by rewrite decide_True.
    - intros r Hr [_ Hir]. apply Hid2, Hid, list_elem_of_fmap. by exists r. }
  pose proof (link_sources_alike (job_id j) ids _ _ _ HR' Hf) as Hl. unfold add in Hl.
  destruct (Config.link_sources o (job_id j) ids (set_jobs _ db1)) as [l1 d1],
    (Config.link_sources o (job_id j) ids (set_jobs _ db2)) as [l2 d2].
  destruct Hl as [<- HT']. by split.
Qed.

(** ** The reads *)

Lemma twice_read {A} (f : ConfigDb → result A) :
  (∀ db1 db2, same_tenant o db1 db2 → f db1 = f db2) → twice (same_tenant o) (op (λ db, (f db, db))).
Proof.
  intros Hf db1 db2 HR. unfold op. rewrite (Hf _ _ HR). by destruct (f db2).
Qed.

Lemma twice_load : twice (same_tenant o) (Config.load o).
Proof.
  apply (twice_read (λ db, Ok {| sites := Config.load_sites db; products := Config.load_products o db |})).
  intros db1 db2 HR. unfold Config.load_sites. rewrite (st_sites _ _ _ HR).
  by rewrite (load_products_tenant o _ _ (st_tenant _ _ _ HR)).
Qed.

Lemma twice_get_job i : twice (same_tenant o) (Config.get_job o i).
Proof.
  intros db1 db2 HR. pose proof (st_tenant _ _ _ HR) as HT. unfold Config.get_job, op.
  rewrite (find_job_own i _ _ HT), (load_job_sources_tenant o i _ _ HT).
  destruct (Config.find_job o i db2); [| done]. by destruct (row_to_job _ _).
Qed.

Lemma twice_list_jobs : twice (same_tenant o) (Config.list_jobs o).
Proof.
  intros db1 db2 HR. split; [by apply list_jobs_tenant, HR |].
  unfold Config.list_jobs, op. by destruct (Config.jobs_of_rows _ db1), (Config.jobs_of_rows _ db2).
Qed.
End Views.

#[export] Hint Resolve twice_add_product twice_add_source twice_remove_source twice_remove_product
  twice_update_job twice_delete_job twice_add_job_source twice_remove_job_source twice_load
  twice_get_job twice_list_jobs : kerdoos.
