(* ===== verification/Services.v ===== *)
(** The use cases ([core/app/services.py:AppService]) over the config store,
    any StateStore, a router and a parser factory, with the live domain policy
    ([registry/domain_policy.py]) and the batch import of a site catalogue. *)

From S2P Require Import Prelude Domain Orchestrator StateStore Registry ConfigStore Safety.

(** * Ports and data *)

(** [autolycos/ports.py:Router], the parser factory, the clock and
    [uuid.uuid4], over a world [W]. *)
Class AppPorts (W : Type) := {
  known_tiers : list string;
  tier_available : string → result bool;
  select : string → list string → result (Fetcher W);
  parser_factory : ParserSpec → result Parser;
  sleep : Z → M W unit;
  utcnow_iso : M W string;
  clock : M W string;
  uuid4 : M W string;
}.

Record Principal := { owner_id : string; role : string }.

Record ProductSpec := { spec_key : string; spec_name : option string }.

Record DigestJobSpec := {
  spec_job_name : string;
  frequency_kind : string;
  minute : Z;
  hour : Z;
  cron_expr : option string;
  timezone : string;
  template_id : string;
  options : list (string * pyval);
  enabled : bool;
  source_ids : list string;
}.

Record RunResult := {
  records : list ScrapeRecord;
  generated_at : string;
  tier2_labels : gmap string string;
  run_source_labels : gmap string string;
}.

Record ImportSummary := { imported_sites : Z; imported_products : Z }.

(** A batch: the parsed [sites.yaml] and [products.yaml]; [sites] is a dict,
    in insertion order. *)
Definition SiteBatch : Type := list (string * SiteConfig).
Definition ProductBatch : Type := list (string * list (string * string)).

(** [registry/domain_policy.py:CatalogueDomainPolicy]: the catalogue as it is
    at the time of the call. *)
Definition catalogue_domain_allowed (db : ConfigDb) (host : string) : bool :=
  domain_allowed (Config.site_domains db) host.

(** [_CombinedDomainPolicy.domain_allowed]. *)
Definition combined_domain_allowed (base batch : string → bool) (host : string) : bool :=
  base host || batch host.

(** * The service *)

Record App (W S : Type) := mkApp { config : ConfigDb; state : S; world : W }.
Arguments mkApp {W S}.
Arguments config {W S}.
Arguments state {W S}.
Arguments world {W S}.

Section AppService.
Context {W S : Type} `{AppPorts W} `{StateStore S}.
Variable url_digest : string → string.
Variable available_timezones : list string.
(** The injected policy, a function of the catalogue. *)
Variable domain_policy : ConfigDb → string → bool.

Definition on_config {A} (m : M ConfigDb A) : M (App W S) A :=
  λ a, let '(r, c) := m a.(config) in (r, mkApp c a.(state) a.(world)).
Definition on_state {A} (m : M S A) : M (App W S) A :=
  λ a, let '(r, s) := m a.(state) in (r, mkApp a.(config) s a.(world)).
Definition on_world {A} (m : M W A) : M (App W S) A :=
  λ a, let '(r, w) := m a.(world) in (r, mkApp a.(config) a.(state) w).

(** ** Reads *)

Definition list_state (owner : string) : M (App W S) (list ScrapeRecord) :=
  on_state (latest_all owner).
Definition get_history (owner source_id : string) (limit : Z) : M (App W S) (list ScrapeRecord) :=
  on_state (history owner source_id limit).
Definition list_config (owner : string) : M (App W S) Registry := on_config (Config.load owner).

(** ** Writes *)

Definition unknown_fetcher_tier_error (spec : SiteConfig) : option string :=
  if bool_decide (spec.(site_fetcher) ∈ known_tiers) then None
  else Some ("site " +:+ spec.(site_name) +:+ " references unknown fetcher tier "
             +:+ spec.(site_fetcher)).

Definition is_admin (p : Principal) : bool := bool_decide (p.(role) = "admin").

Definition add_site (principal : Principal) (spec : SiteConfig) : M (App W S) SiteConfig :=
  if negb (is_admin principal)
  then mraise (Exn PermissionError "principal is not allowed to add a site")
  else match unknown_fetcher_tier_error spec with
       | Some error => mraise (Exn ConfigError error)
       | None => let! _ := on_config (Config.add_site spec) in mret' spec
       end.

Definition add_product (owner : string) (spec : ProductSpec) : M (App W S) Product :=
  if negb (truthy owner) then mraise (Exn ValueError "owner must not be empty")
  else
    let! _ := mlift (validate_product_key spec.(spec_key)) in
    let product := {| prod_id := spec.(spec_key); prod_name := spec.(spec_name);
                      prod_sources := [] |} in
    let! _ := on_config (Config.add_product owner product) in
    mret' product.

Definition add_source (owner product_key site url : string) : M (App W S) ProductSource :=
  if negb (truthy owner) then mraise (Exn ValueError "owner must not be empty")
  else
    let! _ := mlift (validate_product_key product_key) in
    let! registry := on_config (Config.load owner) in
    match registry.(sites) !! site with
    | None => mraise (Exn KeyError "unknown site")
    | Some s =>
        let! available := mlift (tier_available s.(site_fetcher)) in
        if negb available
        then mraise (Exn FetcherTierUnavailableError "tier not available in this deployment")
        else
          let! db := mgets config in
          let! _ := mlift (validate_source_url url (domain_policy db)) in
          let! id := mlift (make_source_id url_digest product_key site url) in
          let source := {| source_id := id; product_id := product_key;
                           source_site := site; source_url := url |} in
          let! _ := on_config (Config.add_source owner source) in
          mret' source
    end.

Definition remove_source (owner source_id : string) : M (App W S) unit :=
  on_config (Config.remove_source owner source_id).
Definition remove_product (owner product_key : string) : M (App W S) unit :=
  on_config (Config.remove_product owner product_key).

(** ** Batch import *)

(** The errors [except ValueError] collects; anything else leaves the pass. *)
Definition collect (r : result unit) (ctx : string) : result (list string) :=
  match r with
  | Ok _ => Ok []
  | Raise e => if is_a e.(exn_class) ValueError then Ok [ctx +:+ ": " +:+ e.(exn_msg)]
               else Raise e
  end.

(** The errors of one source of the batch. *)
Definition check_source (sites : SiteBatch) (policy : string → bool)
    (product_key : string) (source : string * string) : result (list string) :=
  let '(site_name, url) := source in
  let ctx := "product " +:+ product_key +:+ " source (site=" +:+ site_name +:+ ")" in
  match od_get site_name sites with
  | None => Ok [ctx +:+ ": unknown site"]
  | Some site =>
      let? available := tier_available site.(site_fetcher) in
      let? errs := collect (validate_source_url url policy) ctx in
      Ok ((if (available : bool) then []
           else [ctx +:+ ": fetcher tier not available in this deployment"]) ++ errs)%list
  end.

Definition check_product (sites : SiteBatch) (policy : string → bool)
    (product : string * list (string * string)) : result (list string) :=
  let? key_errs := collect (validate_product_key product.1) ("product " +:+ product.1) in
  let? source_errs := rmap (check_source sites policy product.1) product.2 in
  Ok (key_errs ++ mjoin source_errs)%list.

(** The validation pass: every error of the batch. *)
Definition validate_batch (owner : option string) (sites : SiteBatch)
    (products : ProductBatch) (base : string → bool) : result (list string) :=
  let site_errs := omap (λ s, unknown_fetcher_tier_error s.2) sites in
  let policy := combined_domain_allowed base (domain_allowed ((λ s, site_domain s.2) <$> sites)) in
  if truthy_opt owner then
    let? errs := rmap (check_product sites policy) products in
    Ok (site_errs ++ mjoin errs)%list
  else Ok site_errs.

Definition write_sites (principal : Principal) (sites : SiteBatch) : M (App W S) unit :=
  mfor (λ s, let! _ := add_site principal s.2 in mret' tt) sites.

Definition write_product (owner : string) (product : string * list (string * string))
    : M (App W S) unit :=
  let! _ := add_product owner {| spec_key := product.1; spec_name := None |} in
  mfor (λ s, let! _ := add_source owner product.1 s.1 s.2 in mret' tt) product.2.

Definition write_batch (principal : Principal) (owner : option string) (sites : SiteBatch)
    (products : ProductBatch) : M (App W S) Z :=
  let! _ := write_sites principal sites in
  if truthy_opt owner then
    let! _ := mfor (write_product (default "" owner)) products in
    mret' (Z.of_nat (length products))
  else mret' 0.

Definition join_errors (errors : list string) : string := String.concat "; " errors.

Definition import_config (principal : Principal) (owner : option string)
    (sites : SiteBatch) (products : ProductBatch) : M (App W S) ImportSummary :=
  if negb (bool_decide (sites = [])) && negb (is_admin principal)
  then mraise (Exn PermissionError "principal is not allowed to add a site")
  else if negb (is_admin principal)
          && negb (bool_decide (owner = None ∨ owner = Some principal.(owner_id)))
  then mraise (Exn PermissionError "principal is not allowed to import products for owner")
  else
    let! db := mgets config in
    let! errors := mlift (validate_batch owner sites products (domain_policy db)) in
    if negb (bool_decide (errors = []))
    then mraise (Exn ConfigImportError (join_errors errors))
    else
      let! n := mtry (write_batch principal owner sites products)
        (λ e, if is_a e.(exn_class) PermissionError then mraise e
              else mraise (Exn ConfigImportPartialError
                             ("write phase interrupted, import PARTIAL: " +:+ e.(exn_msg)))) in
      mret' {| imported_sites := Z.of_nat (length sites); imported_products := n |}.

(** ** Digest jobs *)

(** What [create_job] and [update_job] check of a spec before building a job. *)
Definition check_spec (spec : DigestJobSpec) : result (string * JobOptions) :=
  let? schedule_cron := normalize_schedule spec.(frequency_kind) spec.(minute) spec.(hour)
                          spec.(cron_expr) in
  let? _ := validate_timezone available_timezones spec.(timezone) in
  let? _ := validate_template_id spec.(template_id) in
  let? options := parse_job_options spec.(options) in
  Ok (schedule_cron, options).

Definition job_of_spec (id owner : string) (spec : DigestJobSpec) (cron : string)
    (opts : JobOptions) (created_at : option string) : DigestJob :=
  {| job_id := id; job_owner_id := owner; job_name := spec.(spec_job_name);
     job_frequency_kind := spec.(frequency_kind); schedule_cron := cron;
     job_timezone := spec.(timezone); job_template_id := spec.(template_id);
     job_options := opts; job_enabled := spec.(enabled);
     job_created_at := created_at; job_source_ids := [] |}.

Definition create_job (principal : Principal) (spec : DigestJobSpec) : M (App W S) DigestJob :=
  if negb (truthy principal.(owner_id)) then mraise (Exn ValueError "owner must not be empty")
  else
    let! (cron, opts) := mlift (check_spec spec) in
    let! id := on_world uuid4 in
    let! created_at := on_world clock in
    on_config (Config.create_job principal.(owner_id)
      (job_of_spec id principal.(owner_id) spec cron opts (Some created_at))
      spec.(source_ids)).

Definition update_job (owner job_id : string) (spec : DigestJobSpec) : M (App W S) DigestJob :=
  if negb (truthy owner) then mraise (Exn ValueError "owner must not be empty")
  else
    let! (cron, opts) := mlift (check_spec spec) in
    on_config (Config.update_job owner job_id (job_of_spec job_id owner spec cron opts None)).

Definition list_jobs (owner : string) : M (App W S) (list DigestJob) :=
  on_config (Config.list_jobs owner).

Definition list_jobs_with_status (owner : string)
    : M (App W S) (list (DigestJob * option JobRunSummary)) :=
  let! jobs := on_config (Config.list_jobs owner) in
  let! latest := on_state (latest_job_runs owner) in
  mret' ((λ job, (job, latest !! job.(job_id))) <$> jobs).

Definition get_job (owner job_id : string) : M (App W S) DigestJob :=
  on_config (Config.get_job owner job_id).
Definition delete_job (owner job_id : string) : M (App W S) unit :=
  on_config (Config.delete_job owner job_id).
Definition add_job_source (owner job_id source_id : string) : M (App W S) bool :=
  on_config (Config.add_job_source owner job_id source_id).
Definition remove_job_source (owner job_id source_id : string) : M (App W S) unit :=
  on_config (Config.remove_job_source owner job_id source_id).

(** ** Runs *)

(** The body of the loop, inside its [try]; [None] is the [continue]. *)
Definition run_source (owner now : string) (source : ProductSource) (site : SiteConfig)
    : M (App W S) (option ScrapeRecord) :=
  let! available := mlift (tier_available site.(site_fetcher)) in
  if negb available then mret' None
  else
    let! fetcher := mlift (select site.(site_fetcher) site.(subresource_domains)) in
    let! parser := mlift (parser_factory site.(site_parser)) in
    let! r := scrape_and_record (λ d, on_world (sleep d)) (on_world utcnow_iso)
                (λ url, on_world (fetcher url)) parser (λ o r, on_state (record o r))
                owner source.(source_id) source.(source_url) (Some now) in
    mret' (Some r).

Definition source_failed (source_id now : string) (e : exn) : ScrapeRecord :=
  indeterminate source_id now None
    ("source failed: " +:+ exc_name e.(exn_class) +:+ ": " +:+ e.(exn_msg)).

Fixpoint run_sources (owner now : string) (items : list (Product * ProductSource * SiteConfig))
    : M (App W S) (list ScrapeRecord) :=
  match items with
  | [] => mret' []
  | (_, source, site) :: rest =>
      let! r := mtry (run_source owner now source site)
                  (λ e, mret' (Some (source_failed source.(source_id) now e))) in
      let! rs := run_sources owner now rest in
      mret' (match r with Some r => r :: rs | None => rs end)
  end.

Definition labels_of (items : list (Product * ProductSource * SiteConfig)) : gmap string string :=
  foldl (λ m x, if truthy_opt x.2.(tier2_label)
                then <[x.1.2.(source_id) := default "" x.2.(tier2_label)]> m else m) ∅ items.

Definition run_now (owner : string) : M (App W S) RunResult :=
  let! registry := on_config (Config.load owner) in
  let! now := on_world clock in
  let '(items, err) := iter_sources registry in
  let! rs := run_sources owner now items in
  match err with
  | Some e => mraise e
  | None => mret' {| records := rs; generated_at := now; tier2_labels := labels_of items;
                     run_source_labels := source_labels registry |}
  end.

End AppService.

(** * Service calls as data *)

Inductive call :=
| CAddSite (p : Principal) (s : SiteConfig)
| CAddProduct (owner : string) (s : ProductSpec)
| CAddSource (owner product_key site url : string)
| CRemoveSource (owner source_id : string)
| CRemoveProduct (owner product_key : string)
| CImport (p : Principal) (owner : option string) (sites : SiteBatch) (products : ProductBatch)
| CCreateJob (p : Principal) (s : DigestJobSpec)
| CUpdateJob (owner job_id : string) (s : DigestJobSpec)
| CDeleteJob (owner job_id : string)
| CAddJobSource (owner job_id source_id : string)
| CRemoveJobSource (owner job_id source_id : string)
| CRunNow (owner : string).

(** The owner a call writes for, and whether it may change the catalogue. *)
Definition call_owner (c : call) : option string :=
  match c with
  | CAddSite _ _ => None
  | CImport _ o _ _ => o
  | CCreateJob p _ => Some p.(owner_id)
  | CAddProduct o _ | CAddSource o _ _ _ | CRemoveSource o _ | CRemoveProduct o _
  | CUpdateJob o _ _ | CDeleteJob o _ | CAddJobSource o _ _ | CRemoveJobSource o _ _
  | CRunNow o => Some o
  end.

Definition by_admin (c : call) : bool :=
  match c with CAddSite p _ | CImport p _ _ _ => is_admin p | _ => false end.

Section Calls.
Context {W S : Type} `{AppPorts W} `{StateStore S}.
Context (url_digest : string → string) (available_timezones : list string).
Context (domain_policy : ConfigDb → string → bool).

Definition exec_call (c : call) (a : App W S) : App W S :=
  match c with
  | CAddSite p s => snd (add_site p s a)
  | CAddProduct o s => snd (add_product o s a)
  | CAddSource o k s u => snd (add_source url_digest domain_policy o k s u a)
  | CRemoveSource o i => snd (remove_source o i a)
  | CRemoveProduct o k => snd (remove_product o k a)
  | CImport p o ss ps => snd (import_config url_digest domain_policy p o ss ps a)
  | CCreateJob p s => snd (create_job available_timezones p s a)
  | CUpdateJob o j s => snd (update_job available_timezones o j s a)
  | CDeleteJob o j => snd (delete_job o j a)
  | CAddJobSource o j s => snd (add_job_source o j s a)
  | CRemoveJobSource o j s => snd (remove_job_source o j s a)
  | CRunNow o => snd (run_now o a)
  end.

(** ** What the commands behind a call keep, the call keeps *)

Section Keeps.
Context (I : ConfigDb → Prop) (allow : cmd → Prop).
Context (Hkeep : ∀ c db, allow c → cmd_ok c → I db → I (exec c db)).

Definition on_db (a : App W S) : Prop := I a.(config).

Lemma keep_config {A} (m : M ConfigDb A) : pres I m → pres on_db (on_config (W:=W) (S:=S) m).
Proof.
  intros Hm a Ha. specialize (Hm _ Ha). unfold on_config, on_db in *.
  by destruct (m a.(config)).
Qed.

Lemma keep_state {A} (m : M S A) : pres on_db (on_state (W:=W) m).
Proof. intros a Ha. unfold on_state, on_db in *. by destruct (m a.(state)). Qed.

Lemma keep_world {A} (m : M W A) : pres on_db (on_world (S:=S) m).
Proof. intros a Ha. unfold on_world, on_db in *. by destruct (m a.(world)). Qed.

Lemma keep_gets {A} (f : App W S → A) : pres on_db (mgets f).
Proof. by intros a. Qed.

Lemma keep_load o : pres on_db (on_config (W:=W) (S:=S) (Config.load o)).
Proof. apply keep_config. by intros db. Qed.

Hint Resolve keep_state keep_world keep_gets keep_load : kerdoos.

Lemma keep_cmd {A} (m : M ConfigDb A) c :
  (∀ db, snd (m db) = exec c db) → allow c → cmd_ok c → pres on_db (on_config (W:=W) (S:=S) m).
Proof. intros Hm Ha Hc. apply keep_config. intros db Hdb. rewrite Hm. by apply Hkeep. Qed.

Lemma keep_add_site p s :
  (is_admin p = true → allow (AddSite s)) → pres on_db (add_site (S:=S) p s).
Proof.
  intros Ha. unfold add_site. destruct (is_admin p); cbn [negb]; [| apply pres_raise].
  destruct (unknown_fetcher_tier_error s); [apply pres_raise |].
  apply pres_bind; [| auto with kerdoos]. by eapply (keep_cmd _ (AddSite s)); auto.
Qed.

Section Owner.
Context (o : string) (Ho : ∀ c, cmd_owner c = Some o → allow c).

Lemma keep_add_product s : pres on_db (add_product o s).
Proof.
  unfold add_product. destruct (truthy o); cbn [negb]; [| apply pres_raise].
  apply pres_bind; [apply pres_lift | intros _].
  apply pres_bind; [| auto with kerdoos]. by eapply (keep_cmd _ (AddProduct o _)); auto.
Qed.

Lemma keep_add_source k s u : pres on_db (add_source url_digest domain_policy o k s u).
Proof.
  unfold add_source. destruct (truthy o); cbn [negb]; [| apply pres_raise].
  apply pres_bind; [apply pres_lift | intros _].
  apply pres_bind; [apply keep_load | intros r].
  destruct (sites r !! s); [| apply pres_raise].
  apply pres_bind; [apply pres_lift | intros b]. destruct b; cbn [negb]; [| apply pres_raise].
  apply pres_bind; [apply keep_gets | intros db].
  apply pres_bind; [apply pres_lift | intros _].
  apply pres_bind; [apply pres_lift | intros i].
  apply pres_bind; [| auto with kerdoos]. by eapply (keep_cmd _ (AddSource o _)); auto.
Qed.

Lemma keep_write_product p : pres on_db (write_product url_digest domain_policy o p).
Proof.
  apply pres_bind; [apply keep_add_product | intros _]. apply pres_for. intros s.
  apply pres_bind; [apply keep_add_source | auto with kerdoos].
Qed.

Lemma check_spec_options spec cron opts :
  check_spec available_timezones spec = Ok (cron, opts) → valid_options opts = true.
Proof.
  unfold check_spec. destruct (normalize_schedule _ _ _ _); [| done]. cbn [rbind].
  destruct (validate_timezone _ _); [| done]. cbn [rbind].
  destruct (validate_template_id _); [| done]. cbn [rbind].
  destruct (parse_job_options _) eqn:E; [| done]. intros [= <- <-].
  by eapply parse_job_options_valid.
Qed.

Lemma keep_create_job p s :
  owner_id p = o → pres on_db (create_job available_timezones p s).
Proof.
  intros Hp. unfold create_job. destruct (truthy _); cbn [negb]; [| apply pres_raise].
  destruct (check_spec available_timezones s) as [[cron opts] |] eqn:E.
  2: { intros a Ha. by rewrite (mbind_raise _ _ a e a) by done. }
  apply check_spec_options in E as Hv. intros a Ha. rewrite (mbind_ok _ _ a (cron, opts) a) by done.
  revert a Ha. change (pres on_db (let! id := on_world uuid4 in
    let! created_at := on_world clock in on_config (S:=S) (Config.create_job p.(owner_id)
      (job_of_spec id p.(owner_id) s cron opts (Some created_at)) s.(source_ids)))).
  apply pres_bind; [apply keep_world | intros id]. apply pres_bind; [apply keep_world | intros at_].
  eapply (keep_cmd _ (CreateJob (owner_id p) _ _)); [done | | exact Hv]. apply Ho. by rewrite Hp.
Qed.

Lemma keep_update_job j s : pres on_db (update_job available_timezones o j s).
Proof.
  unfold update_job. destruct (truthy o); cbn [negb]; [| apply pres_raise].
  destruct (check_spec available_timezones s) as [[cron opts] |] eqn:E.
  2: { intros a Ha. by rewrite (mbind_raise _ _ a e a) by done. }
  apply check_spec_options in E as Hv. intros a Ha. rewrite (mbind_ok _ _ a (cron, opts) a) by done.
  revert a Ha. change (pres on_db (on_config (W:=W) (S:=S)
    (Config.update_job o j (job_of_spec j o s cron opts None)))).
  eapply (keep_cmd _ (UpdateJob o j _)); [done | by apply Ho | exact Hv].
Qed.

Lemma keep_run_now : pres on_db (run_now o).
Proof.
  unfold run_now. apply pres_bind; [apply keep_load | intros r].
  apply pres_bind; [apply keep_world | intros now]. destruct (iter_sources r) as [items err].
  apply pres_bind; [| destruct err; auto with kerdoos].
  induction items as [| [[p s] site] items IH]; cbn [run_sources]; [auto with kerdoos |].
  apply pres_bind; [| intros x; apply pres_bind; auto with kerdoos].
  apply pres_try; [| auto with kerdoos]. unfold run_source.
  apply pres_bind; [apply pres_lift | intros b]. destruct b; cbn [negb]; [| apply pres_ret].
  apply pres_bind; [apply pres_lift | intros f]. apply pres_bind; [apply pres_lift | intros q].
  apply pres_bind; [| auto with kerdoos].
  apply pres_scrape_and_record; auto with kerdoos.
Qed.

End Owner.

Lemma keep_import p oo ss ps :
  (is_admin p = true → ∀ s, allow (AddSite s)) →
  (∀ o c, oo = Some o → cmd_owner c = Some o → allow c) →
  pres on_db (import_config url_digest domain_policy p oo ss ps).
Proof.
  intros Hp Hoo. unfold import_config. case_match; [apply pres_raise |].
  case_match; [apply pres_raise |].
  apply pres_bind; [apply keep_gets | intros db]. apply pres_bind; [apply pres_lift | intros errs].
  case_match; [apply pres_raise |]. apply pres_bind; [| auto with kerdoos].
  apply pres_try; [| intros e; case_match; apply pres_raise].
  apply pres_bind.
  { apply pres_for. intros s. apply pres_bind; [| auto with kerdoos].
    apply keep_add_site. auto. }
  intros _. destruct oo as [o |]; cbn [truthy_opt default]; [| apply pres_ret].
  case_match; [| apply pres_ret].
  apply pres_bind; [| auto with kerdoos]. apply pres_for. apply keep_write_product. eauto.
Qed.

(** The store commands a call may issue: those of its owner, and the
    catalogue's when an admin makes it. *)
Definition issues (c : call) (c' : cmd) : Prop :=
  (∃ o, cmd_owner c' = Some o ∧ call_owner c = Some o)
  ∨ (by_admin c = true ∧ ∃ s, c' = AddSite s).

Lemma keep_call c a :
  (∀ c', issues c c' → allow c') → I (config a) → I (config (exec_call c a)).
Proof.
  intros Hc HI. unfold issues in Hc.
  assert (Ho : ∀ o, call_owner c = Some o → ∀ c', cmd_owner c' = Some o → allow c') by naive_solver.
  assert (Hcmd : ∀ A (m : M ConfigDb A) c', (∀ db, snd (m db) = exec c' db) → cmd_ok c' →
    is_Some (cmd_owner c') → cmd_owner c' = call_owner c →
    I (config (snd (on_config (W:=W) (S:=S) m a)))).
  { intros A m c' Hm Hok [o Hs] Heq. refine (keep_cmd m c' Hm _ Hok a HI). apply (Ho o); congruence. }
  destruct c; cbn [call_owner exec_call] in *.
  - refine (keep_add_site _ _ _ a HI). naive_solver.
  - refine (keep_add_product _ _ _ a HI). eauto.
  - refine (keep_add_source _ _ _ _ _ a HI). eauto.
  - by apply (Hcmd _ _ (RemoveSource owner source_id)).
  - by apply (Hcmd _ _ (RemoveProduct owner product_key)).
  - refine (keep_import _ _ _ _ _ _ a HI); [intros Ha s; apply Hc; right; eauto | eauto].
  - refine (keep_create_job _ _ _ _ _ a HI); eauto.
  - refine (keep_update_job _ _ _ _ a HI); eauto.
  - by apply (Hcmd _ _ (DeleteJob owner job_id)).
  - by apply (Hcmd _ _ (AddJobSource owner job_id source_id)).
  - by apply (Hcmd _ _ (RemoveJobSource owner job_id source_id)).
  - refine (keep_run_now _ a HI).
Qed.
End Keeps.
End Calls.

(** * Properties *)

Section Properties.
Context {W S : Type} `{AppPorts W} `{StateStore S}.
Context (url_digest : string → string) (available_timezones : list string).

(** C3: no service call, whatever its outcome, breaks the integrity of the
    configuration database or touches the products, sources, jobs or links
    of an owner other than the one it acts for; only an admin's call changes
    the site catalogue; and an import by a non-admin for somebody else does
    nothing at all. *)
Theorem service_isolation (domain_policy : ConfigDb → string → bool) (c : call) (a : App W S) :
  wf (config a) →
  let a' := exec_call url_digest available_timezones domain_policy c a in
  wf (config a')
  ∧ (∀ o, call_owner c ≠ Some o → tenant o (config a') = tenant o (config a))
  ∧ (by_admin c = false → site_rows (config a') = site_rows (config a))
  ∧ (∀ p o ss ps, c = CImport p (Some o) ss ps → is_admin p = false → o ≠ owner_id p → a' = a).
Proof.
  intros Hw a'. split_and!.
  - apply (keep_call url_digest available_timezones domain_policy wf (λ _, True)); auto.
    intros c' db _. apply wf_exec.
  - intros o Ho. refine (proj2 (keep_call url_digest available_timezones domain_policy
      (λ db, wf db ∧ tenant o db = tenant o (config a)) (λ c', cmd_owner c' ≠ Some o) _ c a _ _)).
    + intros c' db Hc Hok [Hdb Ht]. split; [by apply wf_exec |]. by rewrite tenant_exec.
    + intros c' [(o' & -> & Hc) | (_ & s & ->)]; [congruence | done].
    + done.
  - intros Hadmin. apply (keep_call url_digest available_timezones domain_policy
      (λ db, site_rows db = site_rows (config a)) (λ c', ∀ s, c' ≠ AddSite s)); [| | done].
    + intros c' db Hc _ <-. by apply site_rows_exec.
    + intros c' [(o & Ho & _) | (Ha & _)] s ->; [done | congruence].
  - intros p o ss ps -> Hp Ho. unfold a'. cbn [exec_call]. unfold import_config. rewrite Hp.
    cbn [negb]. rewrite (bool_decide_eq_false_2 (Some o = None ∨ _)) by naive_solver.
    cbn [andb negb]. by case_match.
Qed.

(** ** Imports *)

(** The router answers, whether or not a tier is there. *)
Context (Htier : ∀ t, is_ok (tier_available t) = true).

(** The exceptions of the write phase: none is a PermissionError, and all are
    [Exception]s. *)
Definition reported (e : exn) : Prop :=
  is_Exception (exn_class e) = true ∧ is_a (exn_class e) PermissionError = false.

Lemma reported_class e :
  exn_class e ∈ [ConfigError; ValueError; KeyError; FetcherTierUnavailableError;
                 UrlValidationError; IntegrityError] → reported e.
Proof. rewrite !elem_of_cons, elem_of_nil. unfold reported. by intros [-> | [-> | [-> | [-> | [-> | [-> | []]]]]]]. Qed.

Lemma add_site_raises p s :
  is_admin p = true → raises_in reported (add_site (W:=W) (S:=S) p s).
Proof.
  intros Hp. unfold add_site. rewrite Hp. cbn [negb].
  destruct (unknown_fetcher_tier_error s); [by apply raises_in_raise, reported_class; left |].
  apply raises_in_bind; [by intros a | auto with kerdoos].
Qed.

Lemma validate_product_key_raises k e :
  validate_product_key k = Raise e → exn_class e = ValueError.
Proof. unfold validate_product_key. repeat case_bool_decide; by intros [= <-]. Qed.

Lemma make_source_id_raises k s u e :
  make_source_id url_digest k s u = Raise e → exn_class e = ValueError.
Proof.
  unfold make_source_id. destruct (validate_product_key k) eqn:E; [done |]. intros [= <-].
  by eapply validate_product_key_raises.
Qed.

Lemma config_add_source_raises o s db e db' :
  Config.add_source o s db = (Raise e, db') → exn_class e = IntegrityError.
Proof. unfold Config.add_source, op. repeat case_bool_decide; by intros [= <- _]. Qed.

Lemma add_product_raises o s : raises_in reported (add_product (W:=W) (S:=S) o s).
Proof.
  unfold add_product. case_match; [apply raises_in_raise, reported_class; set_solver |].
  apply raises_in_bind.
  { apply raises_in_lift. intros e He. apply validate_product_key_raises in He.
    apply reported_class. rewrite He. set_solver. }
  intros _. apply raises_in_bind; [by intros a | auto with kerdoos].
Qed.

Lemma add_source_raises domain_policy o k s u :
  raises_in reported (add_source (W:=W) (S:=S) url_digest domain_policy o k s u).
Proof.
  unfold add_source. case_match; [apply raises_in_raise, reported_class; set_solver |].
  apply raises_in_bind.
  { apply raises_in_lift. intros e He. apply validate_product_key_raises in He.
    apply reported_class. rewrite He. set_solver. }
  intros _. apply raises_in_bind; [by intros a |]. intros r.
  destruct (sites r !! s) as [site |]; [| apply raises_in_raise, reported_class; set_solver].
  apply raises_in_bind.
  { apply raises_in_lift. intros e He. specialize (Htier (site_fetcher site)). by rewrite He in Htier. }
  intros b. case_match; [apply raises_in_raise, reported_class; set_solver |].
  apply raises_in_bind; [by intros a |]. intros db. apply raises_in_bind.
  { apply raises_in_lift. intros e He. apply reported_class.
    apply validate_source_url_raises in He as [-> | ->]; set_solver. }
  intros _. apply raises_in_bind.
  { apply raises_in_lift. intros e He. apply make_source_id_raises in He.
    apply reported_class. rewrite He. set_solver. }
  intros i. apply raises_in_bind; [| auto with kerdoos].
  intros a. unfold on_config. destruct (Config.add_source o _ (config a)) as [[x | e] db'] eqn:E; [done |].
  apply config_add_source_raises in E. apply reported_class. rewrite E. set_solver.
Qed.

Lemma write_batch_raises domain_policy p o ss ps :
  (ss = [] ∨ is_admin p = true) →
  raises_in reported (write_batch (W:=W) (S:=S) url_digest domain_policy p o ss ps).
Proof.
  intros Hp. apply raises_in_bind.
  { destruct Hp as [-> | Hp]; [apply raises_in_ret |]. apply raises_in_for. intros s _.
    apply raises_in_bind; [by apply add_site_raises | auto with kerdoos]. }
  intros _. case_match; [| auto with kerdoos]. apply raises_in_bind; [| auto with kerdoos].
  apply raises_in_for. intros q _. apply raises_in_bind; [apply add_product_raises |].
  intros _. apply raises_in_for. intros x _.
  apply raises_in_bind; [apply add_source_raises | auto with kerdoos].
Qed.

Lemma collect_ok r ctx :
  (∀ e, r = Raise e → is_a (exn_class e) ValueError = true) → is_ok (collect r ctx) = true.
Proof. unfold collect. destruct r as [| e]; [done |]. intros He. by rewrite (He e). Qed.

Lemma rmap_is_ok {A B} (f : A → result B) (l : list A) :
  (∀ x, x ∈ l → is_ok (f x) = true) → is_ok (rmap f l) = true.
Proof.
  induction l as [| x l IH]; intros Hf; [done |]. cbn [rmap].
  pose proof (Hf x ltac:(left)). destruct (f x); [| done]. cbn [rbind].
  assert (is_ok (rmap f l) = true) as Hl by (apply IH; intros; apply Hf; by right).
  by destruct (rmap f l).
Qed.

Lemma validate_batch_ok o ss ps base : is_ok (validate_batch (W:=W) o ss ps base) = true.
Proof.
  unfold validate_batch. case_match; [| done].
  match goal with |- is_ok (rbind (rmap ?f ps) _) = true =>
    assert (is_ok (rmap f ps) = true) as Hok; [| by destruct (rmap f ps)] end.
  apply rmap_is_ok. intros [k srcs] _. unfold check_product. cbn [fst snd].
  assert (is_ok (collect (validate_product_key k) ("product " +:+ k)) = true) as Hk.
  { apply collect_ok. intros e He. by apply validate_product_key_raises in He as ->. }
  destruct (collect _ _); [| done]. cbn [rbind].
  match goal with |- is_ok (rbind (rmap ?f srcs) _) = true =>
    assert (is_ok (rmap f srcs) = true) as Hs; [| by destruct (rmap f srcs)] end.
  apply rmap_is_ok. intros [sn u] _. unfold check_source.
  destruct (od_get sn ss) as [site |]; [| done].
  specialize (Htier (site_fetcher site)). destruct (tier_available _); [| done]. cbn [rbind].
  match goal with |- is_ok (rbind (collect ?r ?c) _) = true =>
    assert (is_ok (collect r c) = true) as Hc; [| by destruct (collect r c)] end.
  apply collect_ok. intros e He. by apply validate_source_url_raises in He as [-> | ->].
Qed.

(** an import either succeeds, or is refused with the catalogue, the
    products and the sources untouched (PermissionError for a caller who may
    not write that batch, ConfigImportError listing at least one error of the
    validation pass), or stops in the write phase with
    ConfigImportPartialError: no other exception leaves it, whatever the
    batch contains. *)
Theorem import_config_outcomes domain_policy p o ss ps (a : App W S) :
  match import_config url_digest domain_policy p o ss ps a with
  | (Ok s, a') =>
      imported_sites s = Z.of_nat (length ss)
      ∧ imported_products s = (if truthy_opt o then Z.of_nat (length ps) else 0)
      ∧ validate_batch (W:=W) o ss ps (domain_policy (config a)) = Ok []
  | (Raise e, a') =>
      (exn_class e = PermissionError ∧ a' = a ∧ is_admin p = false)
      ∨ (exn_class e = ConfigImportError ∧ a' = a
         ∧ ∃ errs, validate_batch (W:=W) o ss ps (domain_policy (config a)) = Ok errs ∧ errs ≠ [])
      ∨ (exn_class e = ConfigImportPartialError
         ∧ validate_batch (W:=W) o ss ps (domain_policy (config a)) = Ok [])
  end.
Proof.
  unfold import_config.
  destruct (negb (bool_decide (ss = [])) && negb (is_admin p)) eqn:E1.
  { cbn. left. by bool_prop. }
  destruct (negb (is_admin p) && _) eqn:E2.
  { cbn. left. apply andb_true_iff in E2 as [E2 _]. split_and!; try done. by apply negb_true_iff. }
  assert (Hp : ss = [] ∨ is_admin p = true).
  { apply andb_false_iff in E1 as [E1 | E1]; apply negb_false_iff in E1; [left | by right].
    by apply bool_decide_eq_true in E1. }
  pose proof (validate_batch_ok o ss ps (domain_policy (config a))) as Hv.
  rewrite (mbind_ok _ _ a (config a) a) by done.
  destruct (validate_batch o ss ps (domain_policy (config a))) as [errs |] eqn:Ev; [| done].
  rewrite (mbind_ok _ _ a errs a) by done.
  destruct (decide (errs = [])) as [-> | He].
  2: { rewrite bool_decide_eq_false_2 by done. cbn. right. left. eauto. }
  rewrite bool_decide_eq_true_2 by done. cbn [negb].
  pose proof (write_batch_raises domain_policy p o ss ps Hp a) as Hr.
  unfold mbind' at 1, mtry.
  destruct (write_batch url_digest domain_policy p o ss ps a) as [[n | e] a'] eqn:Ew.
  - cbn. split_and!; [done | | done]. unfold write_batch in Ew.
    unfold mbind' at 1 in Ew. destruct (write_sites p ss a) as [[u |] a1]; [| done].
    destruct (truthy_opt o); [| by injection Ew as <- _].
    unfold mbind' in Ew. destruct (mfor _ ps a1) as [[v |] a2]; [| done].
    by injection Ew as <- _.
  - destruct Hr as [Hx Hn]. rewrite Hx, Hn. right. right. done.
Qed.
(** ** A validated batch is written whole *)

(** The parts of the batch the write phase needs: each site under its own
    name, with a domain, and with the domain it has if it is already known. *)
Record batch_ok (ss : SiteBatch) (db : ConfigDb) : Prop := {
  batch_keys : NoDup ss.*1;
  batch_names : ∀ n s, (n, s) ∈ ss → site_name s = n;
  batch_domains : ∀ n s, (n, s) ∈ ss → site_domain s ≠ "";
  batch_keeps : ∀ n s r, (n, s) ∈ ss → r ∈ site_rows db → t_name r = n → t_domain r = site_domain s;
}.

(** Every stored source has the id the service gives it. *)
Definition canonical_ids (db : ConfigDb) : Prop :=
  ∀ r, r ∈ source_rows db → make_source_id url_digest (s_key r) (s_site r) (s_url r) = Ok (s_id r).

Definition domains (db : ConfigDb) : list string := t_domain <$> site_rows db.

Lemma exec_add_site_rows s db r :
  r ∈ site_rows (exec (AddSite s) db) ↔
  r = site_to_row s ∨ (r ∈ site_rows db ∧ t_name r ≠ site_name s).
Proof.
  unfold exec, Config.add_site, op. cbn [mmodify snd]. case_bool_decide as Hin; cbn [site_rows set_sites].
  - rewrite list_elem_of_fmap. split.
    + intros (x & -> & Hx). case_bool_decide; auto.
    + apply list_elem_of_fmap in Hin as (x & Hn & Hx). intros [-> | [Hr Hne]].
      * exists x. by rewrite bool_decide_eq_true_2.
      * exists r. by rewrite bool_decide_eq_false_2.
  - rewrite elem_of_app, list_elem_of_singleton. split; [| naive_solver].
    intros [Hr | ->]; [| by left]. right. split; [done |]. intros E. apply Hin.
    rewrite <- E. by apply list_elem_of_fmap_2.
Qed.

Lemma exec_add_site_rest s db :
  product_rows (exec (AddSite s) db) = product_rows db
  ∧ source_rows (exec (AddSite s) db) = source_rows db.
Proof. unfold exec, Config.add_site, op. cbn [mmodify snd]. by case_bool_decide. Qed.

(** Writing the sites of a batch. *)
Lemma write_sites_ok p ss (a : App W S) :
  is_admin p = true ∨ ss = [] →
  (∀ n s, (n, s) ∈ ss → unknown_fetcher_tier_error (W:=W) s = None) →
  wf (config a) → batch_ok ss (config a) →
  ∃ db', write_sites p ss a = (Ok tt, mkApp db' a.(state) a.(world)) ∧ wf db'
    ∧ source_rows db' = source_rows (config a)
    ∧ (∀ n s, (n, s) ∈ ss → site_to_row s ∈ site_rows db')
    ∧ (∀ r, r ∈ site_rows (config a) → t_name r ∉ ss.*1 → r ∈ site_rows db')
    ∧ (∀ d, d ∈ domains (config a) → d ∈ domains db').
Proof.
  revert a. induction ss as [| [n s] ss IH]; intros a Hp Ht Hw [Hk Hn Hd Hkeep].
  { exists (config a). split; [by destruct a |]. split_and!; try done.
    intros n s Hin. by apply elem_of_nil in Hin. }
  destruct Hp as [Hp | Hp]; [| done].
  assert (Hadd : add_site p s a
    = (Ok s, mkApp (exec (AddSite s) (config a)) (state a) (world a))).
  { unfold add_site. rewrite Hp, (Ht n s) by left. done. }
  apply NoDup_cons in Hk as [Hnotin Hk].
  pose proof (Hn n s ltac:(left)) as Hname.
  pose proof (exec_add_site_rows s (config a)) as Hrows.
  destruct (exec_add_site_rest s (config a)) as [_ Hsrc].
  set (db1 := exec (AddSite s) (config a)) in *.
  destruct (IH (mkApp db1 (state a) (world a))) as (db' & Hrun & Hw' & Hsrc' & Hin & Hfin & Hdom); cbn [config state world] in *.
  - by left.
  - intros n' s' Hs'. apply (Ht n'). by right.
  - apply wf_exec; [done | exact Hw].
  - split; [done | | | ].
    + intros n' s' Hs'. apply Hn. by right.
    + intros n' s' Hs'. apply (Hd n'). by right.
    + intros n' s' r Hs' [-> | [Hr _]]%Hrows Hnr; [| apply (Hkeep n' s' r); [by right | done ..]].
      cbn in Hnr. destruct Hnotin. rewrite <- Hname, Hnr. by apply (list_elem_of_fmap_2 fst _ (n', s')).
  - exists db'. split; [| split_and!].
    + unfold write_sites. cbn [mfor]. unfold mbind' at 1 2. cbn [snd]. rewrite Hadd. exact Hrun.
    + done.
    + by rewrite Hsrc'.
    + intros n' s' [[= -> ->] | Hs']%elem_of_cons; [| by apply (Hin n')].
      apply Hfin; [apply Hrows; by left | cbn; by rewrite Hname].
    + intros r Hr Hnr. cbn in Hnr. apply not_elem_of_cons in Hnr as [Hnr Hnr'].
      apply Hfin; [| done]. apply Hrows. right. by rewrite Hname.
    + intros d (r & -> & Hr)%list_elem_of_fmap. apply Hdom. apply list_elem_of_fmap.
      destruct (decide (t_name r = site_name s)) as [E | E].
      * exists (site_to_row s). split; [| apply Hrows; by left].
        apply (Hkeep n s r); [left | done | congruence].
      * exists r. split; [done |]. apply Hrows. auto.
Qed.
(** Writing products and sources only adds to the database. *)
Definition product_keys (db : ConfigDb) : list (string * string) :=
  Config.product_key_of <$> product_rows db.
Definition source_keys (db : ConfigDb) : list (string * string) :=
  Config.source_key_of <$> source_rows db.

Definition grows (db db' : ConfigDb) : Prop :=
  product_keys db ⊆ product_keys db' ∧ source_keys db ⊆ source_keys db'.

(** The state the write phase of the products works in. *)
Record ready (rows : list SiteRow) (db : ConfigDb) : Prop := {
  ready_wf : wf db;
  ready_ids : canonical_ids db;
  ready_sites : site_rows db = rows;
}.

Lemma mfor_grows {A} (f : A → M (App W S) unit) (Pre : ConfigDb → Prop)
    (Post : A → ConfigDb → Prop) (l : list A) (a : App W S) :
  (∀ x db db', grows db db' → Post x db → Post x db') →
  (∀ x (b : App W S), x ∈ l → Pre (config b) →
     ∃ db', f x b = (Ok tt, mkApp db' (state b) (world b)) ∧ Pre db'
       ∧ grows (config b) db' ∧ Post x db') →
  Pre (config a) →
  ∃ db', mfor f l a = (Ok tt, mkApp db' (state a) (world a)) ∧ Pre db'
    ∧ grows (config a) db' ∧ (∀ x, x ∈ l → Post x db').
Proof.
  intros Hst. revert a. induction l as [| x l IH]; intros a Hf Ha.
  { exists (config a). split; [by destruct a |]. split_and!; try done.
    intros x Hx. by apply elem_of_nil in Hx. }
  destruct (Hf x a ltac:(left) Ha) as (db1 & Hrun & Hpre & [Hg1 Hg2] & Hpost).
  destruct (IH (mkApp db1 (state a) (world a))) as (db' & Hrun' & Hpre' & [Hg1' Hg2'] & Hpost').
  { intros y b Hy. apply Hf. by right. }
  { done. }
  cbn [config state world] in *.
  exists db'. split_and!; [| done | | ].
  - cbn [mfor]. by rewrite (mbind_ok _ _ _ _ _ Hrun).
  - split; by etransitivity.
  - intros y [-> | Hy]%elem_of_cons; [eapply Hst; [by split | done] | auto].
Qed.

Lemma config_add_product_grows o p db :
  site_rows (exec (AddProduct o p) db) = site_rows db ∧ grows db (exec (AddProduct o p) db)
  ∧ (o, prod_id p) ∈ product_keys (exec (AddProduct o p) db).
Proof.
  unfold exec, Config.add_product, op. cbn [mmodify snd].
  set (row := {| p_owner := o; p_key := prod_id p; p_name := prod_name p |}).
  case_bool_decide as Hin; unfold grows, product_keys; cbn [product_rows set_products].
  - assert (Hk : Config.product_key_of <$> ((λ r, if bool_decide (Config.product_key_of r
      = Config.product_key_of row) then row else r) <$> product_rows db)
      = Config.product_key_of <$> product_rows db).
    { rewrite <- list_fmap_compose. apply list_fmap_ext. intros _ r _. cbn. by case_bool_decide. }
    rewrite Hk. done.
  - rewrite fmap_app. split; [done |]. split; [split; [set_solver | done] |].
    apply elem_of_app. right. by left.
Qed.

Lemma config_add_product_spec o p db rows :
  ready rows db →
  ready rows (exec (AddProduct o p) db) ∧ grows db (exec (AddProduct o p) db)
  ∧ (o, prod_id p) ∈ product_keys (exec (AddProduct o p) db).
Proof.
  intros [Hw Hi Hs]. destruct (config_add_product_grows o p db) as (Es & Hg & Hk).
  split; [| done]. split; [by apply (wf_exec (AddProduct o p)) | | congruence].
  intros r. unfold exec, Config.add_product, op. cbn. case_bool_decide; apply Hi.
Qed.

Lemma config_add_source_spec o src db rows :
  ready rows db →
  (o, product_id src) ∈ product_keys db → source_site src ∈ t_name <$> rows →
  make_source_id url_digest (product_id src) (source_site src) (source_url src)
    = Ok (source_id src) →
  let db' := exec (AddSource o src) db in
  fst (Config.add_source o src db) = Ok tt ∧ ready rows db' ∧ grows db db'
  ∧ (o, source_id src) ∈ source_keys db'.
Proof.
  intros [Hw Hi Hs] Hp Hsite Hid db'. assert (Hw' := wf_exec (AddSource o src) db I Hw). revert Hw'.
  unfold db', exec, Config.add_source, op.
  set (row := {| s_id := source_id src; s_owner := o; s_key := product_id src;
                 s_site := source_site src; s_url := source_url src |}).
  case_bool_decide as Hkey; cbn [fst snd]; intros Hw'; [by split_and! |].
  case_bool_decide as Htr.
  { exfalso. apply list_elem_of_fmap in Htr as (r & Hr & Hin). specialize (Hi r Hin).
    unfold Config.source_triple_of in Hr. cbn in Hr. injection Hr as Ho Hk Hst Hu.
    apply Hkey. apply list_elem_of_fmap. exists r. split; [| done].
    unfold Config.source_key_of. cbn. rewrite Ho. rewrite <- Hk, <- Hst, <- Hu, Hid in Hi. congruence. }
  rewrite bool_decide_eq_true_2 in Hw' |- * by (by rewrite Hs). cbn [fst snd] in *.
  unfold grows, source_keys. cbn [source_rows set_sources]. rewrite fmap_app. split_and!; try done.
  - split; [done | | done]. intros r. cbn [source_rows set_sources].
    intros [Hr | ->%list_elem_of_singleton]%elem_of_app; [by apply Hi | exact Hid].
  - set_solver.
  - apply elem_of_app. right. by left.
Qed.
Section Products.
Context (ss : SiteBatch) (rows : list SiteRow) (base : string → bool) (o : string).
Context (Ho : o ≠ "").
Context (Hrows : ∀ n s, (n, s) ∈ ss → site_name s = n ∧ site_to_row s ∈ rows).
Context (Hpolicy : ∀ db h, site_rows db = rows →
  combined_domain_allowed base (domain_allowed ((λ s, site_domain s.2) <$> ss)) h = true →
  catalogue_domain_allowed db h = true).

Let policy := combined_domain_allowed base (domain_allowed ((λ s, site_domain s.2) <$> ss)).

(** A source of the batch is in the database. *)
Definition source_stored (k : string) (x : string * string) (db : ConfigDb) : Prop :=
  ∃ id, make_source_id url_digest k x.1 x.2 = Ok id ∧ (o, id) ∈ source_keys db.

Lemma check_source_nil k sn u :
  check_source (W:=W) ss policy k (sn, u) = Ok [] →
  ∃ s, (sn, s) ∈ ss ∧ tier_available (site_fetcher s) = Ok true
    ∧ validate_source_url u policy = Ok tt.
Proof.
  unfold check_source. destruct (od_get sn ss) as [s |] eqn:Es; [| done].
  apply od_get_Some in Es. destruct (tier_available _) as [b |] eqn:Eb; [| done]. cbn [rbind].
  destruct (validate_source_url u policy) as [[] | e] eqn:Ev; cbn [collect rbind].
  - destruct b; [| done]. intros _. eauto.
  - destruct (is_a _ _); [| done]. cbn [rbind]. by destruct b.
Qed.

Lemma add_source_ok k x (a : App W S) :
  check_source (W:=W) ss policy k x = Ok [] → validate_product_key k = Ok tt →
  ready rows (config a) → (o, k) ∈ product_keys (config a) →
  ∃ db', (let! _ := add_source url_digest catalogue_domain_allowed o k x.1 x.2 in mret' tt) a
         = (Ok tt, mkApp db' (state a) (world a))
    ∧ (ready rows db' ∧ (o, k) ∈ product_keys db') ∧ grows (config a) db' ∧ source_stored k x db'.
Proof.
  destruct x as [sn u]. intros (s & Hin & Ht & Hu)%check_source_nil Hk Hready Hp. cbn [fst snd].
  destruct (Hrows sn s Hin) as [Hn Hr]. pose proof (ready_sites _ _ Hready) as Hs.
  assert (Hload : Config.load_sites (config a) !! sn = Some s).
  { rewrite <- Hn. rewrite <- Hs in Hr.
    rewrite (load_sites_lookup _ (site_to_row s)) by (done || apply Hready).
    by destruct s as [??[]???]. }
  assert (Hid : ∃ id, make_source_id url_digest k sn u = Ok id)
    by (unfold make_source_id; rewrite Hk; cbn [rbind]; eauto).
  destruct Hid as [id Hid].
  set (src := {| source_id := id; product_id := k; source_site := sn; source_url := u |}).
  destruct (config_add_source_spec o src (config a) rows Hready Hp) as (Hok & Hready' & Hg & Hst).
  { cbn. rewrite <- Hn. apply (list_elem_of_fmap_2 t_name _ (site_to_row s)), Hr. }
  { exact Hid. }
  exists (exec (AddSource o src) (config a)). split_and!; [| done | by apply Hg | done | by exists id].
  unfold add_source. unfold truthy. rewrite bool_decide_eq_false_2 by done. cbn [negb].
  unfold mbind', mlift, mgets, on_config. rewrite Hk. cbn [Config.load op mgets sites fst snd].
  rewrite Hload, Ht. cbn [negb config state world].
  destruct a as [db st w]. cbn [config state world] in *.
  rewrite (validate_source_url_mono u policy) by (done || intros h; by apply Hpolicy).
  rewrite Hid. change {| source_id := id; product_id := k; source_site := sn; source_url := u |} with src.
  unfold exec in *. destruct (Config.add_source o src db) as [[[] | e] db']; [done | done].
Qed.

Definition product_stored (p : string * list (string * string)) (db : ConfigDb) : Prop :=
  (o, p.1) ∈ product_keys db ∧ ∀ x, x ∈ p.2 → source_stored p.1 x db.

Lemma source_stored_grows k x db db' : grows db db' → source_stored k x db → source_stored k x db'.
Proof. intros [_ Hg] (id & Hid & Hin). exists id. split; [done |]. by apply Hg. Qed.

Lemma rmap_mjoin_nil {A B} (f : A → result (list B)) (l : list A) ls x :
  rmap f l = Ok ls → mjoin ls = [] → x ∈ l → f x = Ok [].
Proof.
  revert ls. induction l as [| y l IH]; intros ls; [intros _ _ Hx; by apply elem_of_nil in Hx |].
  cbn [rmap]. destruct (f y) as [v |] eqn:Ey; [| done]. cbn [rbind].
  destruct (rmap f l) as [vs |]; [| done]. cbn [rbind]. intros [= <-] Hnil.
  cbn in Hnil. apply app_nil in Hnil as [-> Hnil].
  intros [-> | Hx]%elem_of_cons; [done | by eapply IH].
Qed.

Lemma write_product_ok p (a : App W S) :
  check_product (W:=W) ss policy p = Ok [] → ready rows (config a) →
  ∃ db', write_product url_digest catalogue_domain_allowed o p a
         = (Ok tt, mkApp db' (state a) (world a))
    ∧ ready rows db' ∧ grows (config a) db' ∧ product_stored p db'.
Proof.
  destruct p as [k srcs]. unfold check_product. cbn [fst snd]. intros Hc Hready.
  destruct (validate_product_key k) as [[] | e] eqn:Ek; cbn [collect rbind] in Hc.
  2: { destruct (is_a _ _); [| done]. cbn [rbind] in Hc. by destruct (rmap _ srcs). }
  destruct (rmap _ srcs) as [ls |] eqn:Er; [| done]. cbn [rbind] in Hc.
  assert (Hnil : mjoin ls = []) by (by injection Hc).
  set (pr := {| prod_id := k; prod_name := None; prod_sources := [] |}).
  destruct (config_add_product_spec o pr (config a) rows Hready) as (Hr1 & Hg1 & Hk1).
  set (db1 := exec (AddProduct o pr) (config a)) in *.
  destruct (mfor_grows
    (λ s, let! _ := add_source url_digest catalogue_domain_allowed o k s.1 s.2 in mret' tt)
    (λ db, ready rows db ∧ (o, k) ∈ product_keys db) (source_stored k) srcs
    (mkApp db1 (state a) (world a))) as (db' & Hrun & [Hr' Hk'] & Hg' & Hpost).
  - intros x db db'. apply source_stored_grows.
  - intros x b Hx [Hb Hkb]. apply add_source_ok; [| done ..].
    by apply (rmap_mjoin_nil _ srcs ls).
  - done.
  - exists db'. split_and!; [| done | | by split].
    + unfold write_product, add_product. unfold truthy. rewrite bool_decide_eq_false_2 by done.
      cbn [negb spec_key spec_name fst snd]. rewrite Ek. exact Hrun.
    + split; (etransitivity; [apply Hg1 | apply Hg']).
Qed.
End Products.
(** The catalogue after the write phase covers what the validation pass
    allowed. *)
Lemma catalogue_wider ss db0 db h :
  (∀ n s, (n, s) ∈ ss → site_domain s ≠ "") →
  (∀ d, (d ∈ domains db0 ∨ ∃ n s, (n, s) ∈ ss ∧ d = site_domain s) → d ∈ domains db) →
  combined_domain_allowed (catalogue_domain_allowed db0)
    (domain_allowed ((λ s : string * SiteConfig, site_domain s.2) <$> ss)) h = true →
  catalogue_domain_allowed db h = true.
Proof.
  intros Hne Hd. unfold combined_domain_allowed, catalogue_domain_allowed.
  assert (Hs : ∀ d db, d ∈ Config.site_domains db ↔ d ≠ "" ∧ d ∈ domains db).
  { intros d db1. unfold Config.site_domains, domains. rewrite elem_of_remove_dups, !list_elem_of_fmap.
    setoid_rewrite list_elem_of_filter. naive_solver. }
  intros [H1 | H1]%orb_prop; (eapply domain_allowed_mono; [| exact H1]); intros d Hin; apply Hs.
  - apply Hs in Hin as [? ?]. auto.
  - apply list_elem_of_fmap in Hin as ([n s] & -> & Hin). cbn [snd]. split; [by eapply Hne |].
    apply Hd. right. eauto.
Qed.

Lemma import_runs policy p o (ss : SiteBatch) (ps : ProductBatch) (a : App W S) n a' :
  (is_admin p = true ∨ ss = [] ∧ o = owner_id p) → o ≠ "" →
  validate_batch (W:=W) (Some o) ss ps (policy (config a)) = Ok [] →
  write_batch url_digest policy p (Some o) ss ps a = (Ok n, a') →
  import_config url_digest policy p (Some o) ss ps a
  = (Ok {| imported_sites := Z.of_nat (length ss); imported_products := n |}, a').
Proof.
  intros Hp Ho Hv Hw. unfold import_config.
  assert (negb (bool_decide (ss = [])) && negb (is_admin p) = false) as ->.
  { destruct Hp as [-> | [-> _]]; [by rewrite andb_false_r | done]. }
  assert (negb (is_admin p) && negb (bool_decide (Some o = None ∨ Some o = Some (owner_id p))) = false) as ->.
  { destruct Hp as [-> | [_ ->]]; [done |]. rewrite bool_decide_eq_true_2 by auto. apply andb_false_r. }
  rewrite (mbind_ok _ _ a (config a) a) by done. rewrite Hv. rewrite (mbind_ok _ _ a [] a) by done.
  cbn [negb]. rewrite bool_decide_eq_true_2 by done. cbn [negb].
  rewrite (mbind_ok _ _ a n a'); [done |]. unfold mtry. by rewrite Hw.
Qed.

(** ** An accepted batch is stored *)

(** What a call keeps, in addition to adding to the database. *)
Definition stays (rows : list SiteRow) (db : ConfigDb) : Prop := wf db ∧ site_rows db = rows.

Lemma mfor_stored {A} (f : A → M (App W S) unit) (Post : A → ConfigDb → Prop) rows (l : list A) (a a' : App W S) :
  (∀ x db db', grows db db' → Post x db → Post x db') →
  (∀ x b b', x ∈ l → stays rows (config b) → f x b = (Ok tt, b') →
     stays rows (config b') ∧ grows (config b) (config b') ∧ Post x (config b')) →
  stays rows (config a) → mfor f l a = (Ok tt, a') →
  stays rows (config a') ∧ grows (config a) (config a') ∧ ∀ x, x ∈ l → Post x (config a').
Proof.
  intros Hst. revert a. induction l as [| x l IH]; intros a Hf Ha; cbn [mfor].
  { intros [= <-]. split_and!; [apply Ha.. | done | by intros x ?%elem_of_nil]. }
  intros ([] & a1 & E & Hrun)%mbind_inv.
  destruct (Hf x a a1 ltac:(left) Ha E) as (Ha1 & [G1 G2] & Hp).
  destruct (IH a1) as (Ha' & [G1' G2'] & Hp'); [| done.. |].
  { intros y b b' Hy. apply Hf. by right. }
  split; [done |]. split; [split; by etransitivity |].
  intros y [-> | Hy]%elem_of_cons; [eapply Hst; [by split | done] | auto].
Qed.

Lemma config_add_source_grows o src db :
  fst (Config.add_source o src db) = Ok tt →
  let db' := exec (AddSource o src) db in
  site_rows db' = site_rows db ∧ grows db db' ∧ (o, source_id src) ∈ source_keys db'.
Proof.
  unfold exec, Config.add_source, op. repeat case_bool_decide; cbn [fst snd]; try done.
  intros _. unfold grows, source_keys. cbn. rewrite fmap_app. split_and!; [done.. | set_solver |].
  apply elem_of_app. right. by left.
Qed.

Lemma add_source_stored o k x rows (policy : ConfigDb → string → bool) (a a' : App W S) :
  stays rows (config a) →
  (let! _ := add_source url_digest policy o k x.1 x.2 in mret' tt) a = (Ok tt, a') →
  stays rows (config a') ∧ grows (config a) (config a') ∧ source_stored o k x (config a').
Proof.
  intros [Hw Hs]. destruct x as [sn u]. cbn [fst snd]. intros (src & a1 & E & [= <-])%mbind_inv.
  unfold add_source in E. destruct (truthy o); cbn [negb] in E; [| done].
  apply mbind_inv in E as ([] & a2 & [= _ <-] & E).
  apply mbind_inv in E as (reg & a2 & [= _ <-] & E). cbn [config] in E.
  destruct (_ !! sn) as [site |]; [| done].
  apply mbind_inv in E as (avail & a3 & [= _ <-] & E). destruct avail; cbn [negb] in E; [| done].
  apply mbind_inv in E as (db & a4 & [= _ <-] & E).
  apply mbind_inv in E as ([] & a5 & [= _ <-] & E).
  apply mbind_inv in E as (id & a6 & [= Hid <-] & E).
  apply mbind_inv in E as ([] & a7 & E & [= _ <-]). unfold on_config in E. cbn [config] in E.
  set (new := {| source_id := id |}) in E.
  pose proof (config_add_source_grows o new (config a)) as Hg.
  pose proof (wf_exec (AddSource o new) (config a) I Hw) as Hw'. cbn [exec] in Hg, Hw'.
  destruct (Config.add_source o new (config a)) as [[[] | e] db']; [| done].
  injection E as <-. cbn in *. destruct (Hg eq_refl) as (E1 & E2 & E3).
  split; [split; [done | congruence] |]. split; [exact E2 |]. exists id. split; [exact Hid | exact E3].
Qed.

Lemma write_product_stored o q rows (policy : ConfigDb → string → bool) (a a' : App W S) :
  stays rows (config a) → write_product url_digest policy o q a = (Ok tt, a') →
  stays rows (config a') ∧ grows (config a) (config a') ∧ product_stored o q (config a').
Proof.
  intros [Hw Hs]. destruct q as [k srcs]. unfold write_product. cbn [fst snd].
  intros (pr & a1 & E & Hrun)%mbind_inv. unfold add_product in E.
  destruct (truthy o); cbn [negb spec_key spec_name] in E; [| done].
  apply mbind_inv in E as ([] & a2 & [= _ <-] & E).
  apply mbind_inv in E as ([] & a3 & E & [= _ <-]). unfold on_config in E.
  set (new := {| prod_id := k |}) in E.
  destruct (config_add_product_grows o new (config a)) as (E1 & G1 & K1).
  pose proof (wf_exec (AddProduct o new) (config a) I Hw) as Hw'. cbn [exec] in *.
  destruct (Config.add_product o new (config a)) as [[[] | e] db']; [| done].
  injection E as <-. cbn [snd config] in *.
  assert (stays rows (config a') ∧ grows db' (config a')
          ∧ ∀ x, x ∈ srcs → source_stored o k x (config a')) as (Ha' & G2 & Hp).
  { refine (mfor_stored _ (source_stored o k) rows srcs _ a' _ _ _ Hrun).
    - intros x db db2. apply source_stored_grows.
    - intros x b b' _. apply add_source_stored.
    - split; [done | cbn; congruence]. }
  split; [done |]. split; [split; (etransitivity; [apply G1 | apply G2]) |].
  split; [by apply G2 | done].
Qed.

Lemma write_sites_stored p ss (a a' : App W S) :
  write_sites p ss a = (Ok tt, a') → wf (config a) →
  NoDup ss.*1 → (∀ n s, (n, s) ∈ ss → site_name s = n) →
  wf (config a')
  ∧ (∀ n s, (n, s) ∈ ss → site_to_row s ∈ site_rows (config a'))
  ∧ (∀ r, r ∈ site_rows (config a) → t_name r ∉ ss.*1 → r ∈ site_rows (config a')).
Proof.
  revert a. induction ss as [| [n s] ss IH]; intros a.
  { intros [= <-] Hw _ _. split_and!; [done | by intros ? ? ?%elem_of_nil | done]. }
  unfold write_sites. cbn [mfor]. intros ([] & a1 & E & Hrun)%mbind_inv Hw [Hnotin Hk]%NoDup_cons Hn.
  apply mbind_inv in E as (x & a2 & E & [= <-]). cbn [snd] in E. unfold add_site in E.
  destruct (is_admin p); cbn [negb] in E; [| done].
  destruct (unknown_fetcher_tier_error s); [done |].
  apply mbind_inv in E as ([] & a3 & [= <-] & [= _ <-]).
  pose proof (exec_add_site_rows s (config a)) as Hrows. pose proof (Hn n s ltac:(left)) as Hname.
  destruct (IH _ Hrun) as (Hw' & Hin & Hfin); cbn [config] in *.
  - by apply (wf_exec (AddSite s)).
  - done.
  - intros n' s' Hs'. apply Hn. by right.
  - split; [done |]. split.
    + intros n' s' [[= -> ->] | Hs']%elem_of_cons; [| by apply (Hin n')].
      apply Hfin; [apply Hrows; by left | cbn; by rewrite Hname].
    + intros r0 Hr Hnr. cbn in Hnr. apply not_elem_of_cons in Hnr as [Hnr Hnr'].
      apply Hfin; [| done]. apply Hrows. right. by rewrite Hname.
Qed.

(** An import that answers has left every site of the batch as the batch has it,
    and every product and source of it, whatever was there before. *)
Theorem import_config_stored (policy : ConfigDb → string → bool) p o (ss : SiteBatch) (ps : ProductBatch) (a a' : App W S) i :
  o ≠ "" → wf (config a) → NoDup ss.*1 → (∀ n s, (n, s) ∈ ss → site_name s = n) →
  import_config url_digest policy p (Some o) ss ps a = (Ok i, a') →
  (∀ n s, (n, s) ∈ ss → Config.load_sites (config a') !! n = Some s)
  ∧ (∀ q, q ∈ ps → product_stored o q (config a')).
Proof.
  intros Ho Hw Hk Hn. unfold import_config. destruct (_ && _); [done |]. destruct (_ && _); [done |].
  intros (db & a1 & [= _ <-] & E)%mbind_inv. apply mbind_inv in E as (errs & a2 & [= _ <-] & E).
  destruct (negb _); [done |]. apply mbind_inv in E as (n & a3 & E & [= _ <-]).
  unfold mtry in E. destruct (write_batch _ _ p (Some o) ss ps a) as [[n' | e] a4] eqn:Ew;
    [injection E as -> -> | by repeat case_match].
  unfold write_batch in Ew. apply mbind_inv in Ew as ([] & a5 & Es & Ew).
  cbn [truthy_opt default] in Ew. unfold truthy in Ew. rewrite bool_decide_eq_false_2 in Ew by done.
  cbn [negb] in Ew. apply mbind_inv in Ew as ([] & a6 & Ep & [= _ <-]).
  destruct (write_sites_stored p ss a a5 Es Hw Hk Hn) as (Hw5 & Hin & _).
  assert (stays (site_rows (config a5)) (config a6) ∧ grows (config a5) (config a6)
          ∧ ∀ q, q ∈ ps → product_stored o q (config a6)) as ([Hw6 Hs6] & _ & Hps).
  { refine (mfor_stored _ (product_stored o) _ ps a5 a6 _ _ _ Ep).
    - intros q db1 db2 Hg [Hq Hx]. split; [by apply Hg |]. intros x Hx'. eapply source_stored_grows; [done | auto].
    - intros q b b' _. apply write_product_stored.
    - by split. }
  split; [| done]. intros n0 s Hs. rewrite <- (Hn n0 s Hs).
  change (site_name s) with (t_name (site_to_row s)). rewrite load_sites_lookup; [| done |].
  - by destruct s as [??[]???].
  - rewrite Hs6. by eapply Hin.
Qed.

(** a batch that passes validation is written whole.  When the live
    catalogue is the policy, the batch keeps the domain of every site it
    redefines, and the stored sources have the ids the service computes, an
    import by an admin (or without sites, for oneself) whose validation pass
    reports nothing answers [Ok] and leaves every site of the batch as the
    batch has it, and every product and source of the batch in the database. *)
Theorem import_config_complete p o (ss : SiteBatch) (ps : ProductBatch) (a : App W S) :
  (is_admin p = true ∨ ss = [] ∧ o = owner_id p) → o ≠ "" →
  wf (config a) → canonical_ids (config a) → batch_ok ss (config a) →
  validate_batch (W:=W) (Some o) ss ps (catalogue_domain_allowed (config a)) = Ok [] →
  ∃ db', import_config url_digest catalogue_domain_allowed p (Some o) ss ps a
         = (Ok {| imported_sites := Z.of_nat (length ss);
                  imported_products := Z.of_nat (length ps) |},
            mkApp db' (state a) (world a))
    ∧ (∀ n s, (n, s) ∈ ss → Config.load_sites db' !! n = Some s)
    ∧ (∀ q, q ∈ ps → product_stored o q db').
Proof.
  intros Hp Ho Hw Hids Hb Hv. pose proof Hv as Hv'. unfold validate_batch in Hv.
  cbn [truthy_opt] in Hv. unfold truthy in Hv. rewrite bool_decide_eq_false_2 in Hv by done.
  cbn [negb] in Hv. destruct (rmap _ ps) as [ls |] eqn:Er; [| done]. cbn [rbind] in Hv.
  injection Hv as Hv. apply app_nil in Hv as [Hsites Hprods].
  destruct (write_sites_ok p ss a) as (db1 & Hrun & Hw1 & Hsrc & Hin & _ & Hdom); [naive_solver | | done | done |].
  { intros n s Hs. destruct (unknown_fetcher_tier_error s) as [err |] eqn:E; [| done].
    assert (err ∈ omap (λ s : string * SiteConfig, unknown_fetcher_tier_error s.2) ss) as Herr
      by (apply list_elem_of_omap; by exists (n, s)).
    rewrite Hsites in Herr. by apply elem_of_nil in Herr. }
  assert (Hr1 : ready (site_rows db1) db1) by (split; [done | unfold canonical_ids; by rewrite Hsrc | done]).
  destruct (mfor_grows (write_product url_digest catalogue_domain_allowed o)
    (ready (site_rows db1)) (product_stored o) ps (mkApp db1 (state a) (world a)))
    as (db' & Hrun' & Hr' & _ & Hpost); cbn [config state world] in *.
  - intros q db db' Hg [Hk Hs]. split; [by apply Hg |]. intros x Hx.
    eapply source_stored_grows; [done | auto].
  - intros q b Hq Hrb. apply (write_product_ok ss (site_rows db1)
      (catalogue_domain_allowed (config a)) o Ho); [| | | done].
    + intros n s Hs. split; [by apply (batch_names _ _ Hb) | by eapply Hin].
    + intros db h Hdb. apply (catalogue_wider ss (config a)); [by apply (batch_domains _ _ Hb) |]. intros d Hd.
      unfold domains. rewrite Hdb. destruct Hd as [Hd | (n & s & Hs & ->)]; [by apply Hdom |].
      apply (list_elem_of_fmap_2 t_domain _ (site_to_row s)). by eapply Hin.
    + by apply (rmap_mjoin_nil _ ps ls).
  - done.
  - exists db'. split_and!; [| | done].
    + apply import_runs; [done | done | exact Hv' |]. unfold write_batch.
      rewrite (mbind_ok _ _ _ _ _ Hrun). cbn [truthy_opt default]. unfold truthy.
      rewrite bool_decide_eq_false_2 by done. cbn [negb]. by rewrite (mbind_ok _ _ _ _ _ Hrun').
    + intros n s Hs. rewrite <- (batch_names _ _ Hb n s Hs).
      change (site_name s) with (t_name (site_to_row s)). rewrite load_sites_lookup.
      * by destruct s as [??[]???].
      * apply Hr'.
      * rewrite (ready_sites _ _ Hr'). by eapply Hin.
Qed.

(** ** Runs *)

(** Nothing a run calls raises past an [except Exception]. *)
Record tame_app : Prop := {
  tame_sleep d : tame (S:=W) (sleep d);
  tame_utcnow : tame (S:=W) utcnow_iso;
  tame_select t ds : tame_result (select (W:=W) t ds);
  tame_fetch t ds f url : select t ds = Ok f → tame (S:=W) (f url);
  tame_factory spec : tame_result (parser_factory (W:=W) spec);
  tame_parser spec q h : parser_factory (W:=W) spec = Ok q → tame_result (q h);
  tame_record o r : tame (S:=S) (record o r);
}.

Definition unavailable (site : SiteConfig) : bool :=
  match tier_available (W:=W) site.(site_fetcher) with Ok b => negb b | Raise _ => false end.

Lemma tame_on_world {A} (m : M W A) : tame m → tame (on_world (W:=W) (S:=S) m).
Proof. intros Hm a. specialize (Hm a.(world)). unfold on_world. by destruct (m a.(world)). Qed.

Lemma tame_on_state {A} (m : M S A) : tame m → tame (on_state (W:=W) (S:=S) m).
Proof. intros Hm a. specialize (Hm a.(state)). unfold on_state. by destruct (m a.(state)). Qed.

Lemma run_source_tame owner now source site :
  tame_app → tame (run_source owner now source site).
Proof.
  intros [Hsl Hut Hse Hfe Hpf Hpa Hre]. unfold run_source.
  specialize (Htier (site_fetcher site)). destruct (tier_available _) as [b |] eqn:Eb; [| done].
  apply tame_bind; [by intros a |]. intros b'. destruct b'; cbn [negb]; [| auto with kerdoos].
  destruct (select (site_fetcher site) (subresource_domains site)) as [f | e] eqn:Ef.
  2: { intros a. specialize (Hse (site_fetcher site) (subresource_domains site)). by rewrite Ef in Hse. }
  destruct (parser_factory (site_parser site)) as [q | e] eqn:Eq.
  2: { intros a. specialize (Hpf (site_parser site)). by rewrite Eq in Hpf. }
  intros a. rewrite (mbind_ok _ _ a f a) by done. rewrite (mbind_ok _ _ a q a) by done.
  revert a. apply tame_bind; [| auto with kerdoos].
  apply tame_scrape_and_record; intros; try apply tame_on_world; try apply tame_on_state; eauto.
Qed.

(** What one iteration of the loop appends: nothing for an unavailable tier,
    else one record about that source, at the time of the run. *)
Lemma run_source_record owner now source site (a a' : App W S) r :
  now ≠ "" → run_source owner now source site a = (Ok r, a') →
  match r with
  | Some r => sr_source_id r = source_id source ∧ sr_ts r = now ∧ unavailable site = false
  | None => unavailable site = true
  end.
Proof.
  intros Hnow. unfold run_source, unavailable.
  destruct (tier_available (site_fetcher site)) as [b | e] eqn:Eb; [| done].
  rewrite (mbind_ok _ _ a b a) by done. destruct b; cbn [negb]; [| by intros [= <- _]].
  destruct (select _ _) as [f | e]; [| done]. rewrite (mbind_ok _ _ a f a) by done.
  destruct (parser_factory _) as [q | e]; [| done]. rewrite (mbind_ok _ _ a q a) by done.
  unfold mbind' at 1. destruct (scrape_and_record _ _ _ _ _ _ _ _ _ a) as [[x | e] a1] eqn:Es; [| done].
  intros [= <- _]. apply scrape_and_record_subject in Es as [Hid Hts]; [| done].
  by split_and!.
Qed.

Lemma run_sources_ok owner now items (a : App W S) :
  tame_app → now ≠ "" →
  ∃ rs a', run_sources owner now items a = (Ok rs, a')
    ∧ (sr_source_id <$> rs)
      = ((λ x : Product * ProductSource * SiteConfig, source_id x.1.2) <$>
           filter (λ x : Product * ProductSource * SiteConfig, unavailable x.2 = false) items)
    ∧ Forall (λ r, sr_ts r = now) rs.
Proof.
  intros Ht Hnow. revert a. induction items as [| [[p source] site] items IH]; intros a.
  { exists [], a. split_and!; [done .. | by constructor]. }
  cbn [run_sources].
  assert (∃ r a1, mtry (run_source owner now source site)
      (λ e, mret' (Some (source_failed (source_id source) now e))) a = (Ok r, a1)
    ∧ match r with
      | Some r => sr_source_id r = source_id source ∧ sr_ts r = now ∧ unavailable site = false
      | None => unavailable site = true end) as (r & a1 & Hrun & Hr).
  { pose proof (run_source_tame owner now source site Ht a) as Hx. unfold mtry.
    destruct (run_source owner now source site a) as [[r | e] a1] eqn:E.
    - exists r, a1. split; [done |]. by eapply run_source_record.
    - cbn in Hx. rewrite Hx. eexists _, a1. split; [done |]. split_and!; [done .. |].
      unfold unavailable. destruct (tier_available (site_fetcher site)) as [[] |] eqn:Eb; [done | | done].
      exfalso. revert E. unfold run_source. rewrite Eb. done. }
  rewrite (mbind_ok _ _ _ _ _ Hrun). destruct (IH a1) as (rs & a' & Hrs & Hids & Hts).
  rewrite (mbind_ok _ _ _ _ _ Hrs). rewrite filter_cons. cbn [snd fst].
  destruct r as [r |].
  - destruct Hr as (Hid & Htm & Hun). rewrite decide_True by done.
    exists (r :: rs), a'. split_and!; [done | | by constructor]. rewrite !fmap_cons, Hid, Hids. done.
  - rewrite decide_False by congruence. by exists rs, a'.
Qed.

(** a run always reports.  Whatever the fetchers, the parsers and the
    state store raise, [run_now] returns one record for each of the owner's
    sources, in the registry's order, except those whose fetcher tier is not
    installed; every record carries the time of the run, and the
    configuration is left as it was. *)
Theorem run_now_one_record_each owner (a : App W S) now w' :
  tame_app → wf (config a) → clock (world a) = (Ok now, w') → now ≠ "" →
  ∃ reg rr a', Config.load owner (config a) = (Ok reg, config a)
    ∧ run_now owner a = (Ok rr, a')
    ∧ (sr_source_id <$> records rr)
      = ((λ x : Product * ProductSource * SiteConfig, source_id x.1.2) <$>
           filter (λ x : Product * ProductSource * SiteConfig, unavailable x.2 = false)
             (iter_sources reg).1)
    ∧ Forall (λ r, sr_ts r = now) (records rr)
    ∧ config a' = config a.
Proof.
  intros Ht Hw Hc Hnow.
  set (reg := {| sites := Config.load_sites (config a); products := Config.load_products owner (config a) |}).
  assert (Hnone : (iter_sources reg).2 = None) by (by apply load_iter_none).
  destruct (run_sources_ok owner now (iter_sources reg).1 (mkApp (config a) (state a) w') Ht Hnow)
    as (rs & a' & Hrs & Hids & Hts).
  assert (Hrun : run_now owner a = (Ok {| records := rs; generated_at := now;
    tier2_labels := labels_of (iter_sources reg).1; run_source_labels := source_labels reg |}, a')).
  { unfold run_now. rewrite (mbind_ok _ _ a reg a) by (by destruct a).
    rewrite (mbind_ok _ _ a now (mkApp (config a) (state a) w')) by (unfold on_world; by rewrite Hc).
    destruct (iter_sources reg) as [items err]. cbn [fst snd] in *. subst err.
    by rewrite (mbind_ok _ _ _ _ _ Hrs). }
  eexists reg, _, a'. split_and!; [done | exact Hrun | done | done |].
  pose proof (keep_run_now (λ db, db = config a) (W:=W) (S:=S) owner a eq_refl) as Hk.
  unfold on_db in Hk. by rewrite Hrun in Hk.
Qed.
End Properties.

(** a job is only stored with a checked specification: a schedule
    [normalize_schedule] accepts, a known timezone and template and options
    within bounds, under the caller's own owner id; a refused creation leaves
    the configuration as it was. *)
Theorem create_job_checked {W S : Type} `{AppPorts W} `{StateStore S}
    (available_timezones : list string) (p : Principal) (spec : DigestJobSpec) (a : App W S) :
  match create_job available_timezones p spec a with
  | (Ok j, a') =>
      owner_id p ≠ "" ∧ job_owner_id j = owner_id p
      ∧ normalize_schedule (frequency_kind spec) (minute spec) (hour spec) (cron_expr spec)
        = Ok (schedule_cron j)
      ∧ job_timezone j ∈ available_timezones ∧ job_template_id j ∈ VALID_TEMPLATE_IDS
      ∧ valid_options (job_options j) = true
      ∧ (owner_id p, job_name j) ∈ Config.job_name_of <$> job_rows (config a')
  | (Raise e, a') => config a' = config a
  end.
Proof.
  unfold create_job, truthy. case_bool_decide as Ho; cbn [negb]; [done |].
  destruct (check_spec available_timezones spec) as [[cron opts] | e] eqn:Ec; [| done].
  rewrite (mbind_ok _ _ a (cron, opts) a) by done.
  apply (check_spec_options available_timezones) in Ec as Hv.
  unfold check_spec in Ec.
  destruct (normalize_schedule _ _ _ _) as [c |] eqn:En; [| done]. cbn [rbind] in Ec.
  destruct (validate_timezone _ _) eqn:Etz; [| done]. cbn [rbind] in Ec.
  destruct (validate_template_id _) eqn:Et; [| done]. cbn [rbind] in Ec.
  destruct (parse_job_options _) as [o |] eqn:Eo; [| done]. injection Ec as -> ->.
  unfold mbind' at 1, on_world at 1. destruct (uuid4 (world a)) as [[id | e] w1]; [| done].
  unfold mbind' at 1, on_world at 1. cbn [world state config].
  destruct (clock w1) as [[at_ | e] w2]; [| done].
  unfold on_config. cbn [world state config]. unfold Config.create_job, op.
  case_bool_decide; [done |]. cbv zeta.
  match goal with |- context [Config.link_sources ?x ?y ?z ?d] =>
    pose proof (link_sources_frame x y z d) as Hf;
    destruct (Config.link_sources x y z d) as [linked db2] end.
  cbn [config job_owner_id replace_job schedule_cron job_timezone job_of_spec job_template_id
       job_options job_name].
  split_and!; try done.
  - revert Etz. unfold validate_timezone. by case_bool_decide.
  - revert Et. unfold validate_template_id. by case_bool_decide.
  - destruct Hf as (_ & _ & _ & _ & Hj). cbn [snd] in Hj. rewrite Hj. cbn [set_jobs job_rows].
    rewrite fmap_app, elem_of_app. right. by left.
Qed.

(** * A concrete service *)

Module ServiceDemo.
(** A world that counts the identifiers drawn; only the "uc" tier is not
    installed, and every fetch is challenged except the cataloged one. *)
#[global] Instance demo_ports : AppPorts nat := {
  known_tiers := ["http"; "tls"; "uc"];
  tier_available t := Ok (negb (bool_decide (t = "uc")));
  select t ds := Ok (λ url n, (raise FetchError "timed out", n));
  parser_factory spec := Ok (λ html, raise ParseError "no price");
  sleep d := mret' tt;
  utcnow_iso := mret' "2026-01-01T00:00:00+00:00";
  clock := mret' "2026-01-01T00:00:00+00:00";
  uuid4 := λ n, (Ok (pretty n), Datatypes.S n);
}.

Definition digest (url : string) : string := pretty (String.length url).

Definition admin : Principal := {| owner_id := "root"; role := "admin" |}.
Definition ana : Principal := {| owner_id := "ana"; role := "user" |}.

Definition url : string := "https://www.kabum.com.br/p/1".
Definition batch : SiteBatch := [("kabum", ConfigDemo.kabum)].
Definition orders : ProductBatch := [("gpu", [("kabum", url)])].

Definition empty : App nat StateDb := mkApp empty_config_db empty_state_db 0%nat.
Definition imported : App nat StateDb :=
  snd (import_config digest catalogue_domain_allowed admin (Some "ana") batch orders empty).

(** The same file after the site moved to another domain. *)
Definition moved : SiteConfig :=
  {| site_name := "kabum"; site_fetcher := "http"; site_parser := site_parser ConfigDemo.kabum;
     site_domain := "kabum.com"; tier2_label := None; subresource_domains := [] |}.

Lemma tiers_total t : is_ok (tier_available t) = true.
Proof. reflexivity. Qed.

Lemma demo_tame : tame_app (W:=nat) (S:=StateDb).
Proof.
  split; try (intros; intros s; exact Logic.I); try (intros; exact Logic.I).
  - intros t ds f u [= <-] n. reflexivity.
  - intros spec q h [= <-]. reflexivity.
  - intros o r s. cbn. destruct o; [reflexivity | exact Logic.I].
Qed.

Lemma imported_wf : wf (config imported).
Proof.
  apply (keep_call digest [] catalogue_domain_allowed wf (λ _, True)
    (λ c db _ Hc Hw, wf_exec c db Hc Hw) (CImport admin (Some "ana") batch orders) empty).
  - done.
  - apply config_wf_empty.
Qed.
End ServiceDemo.

Lemma service_isolation_witness :
  wf (config ServiceDemo.imported)
  ∧ tenant "bia" (config (exec_call ServiceDemo.digest [] catalogue_domain_allowed
      (CRemoveProduct "ana" "gpu") ServiceDemo.imported)) = tenant "bia" (config ServiceDemo.imported)
  ∧ site_rows (config (exec_call ServiceDemo.digest [] catalogue_domain_allowed
      (CRemoveProduct "ana" "gpu") ServiceDemo.imported)) = site_rows (config ServiceDemo.imported).
Proof.
  destruct (service_isolation ServiceDemo.digest [] catalogue_domain_allowed
    (CRemoveProduct "ana" "gpu") ServiceDemo.imported ServiceDemo.imported_wf) as (_ & Ht & Hs & _).
  split; [exact ServiceDemo.imported_wf |]. split; [apply Ht; discriminate | apply Hs; reflexivity].
Defined.

Lemma import_config_outcomes_witness :
  snd (import_config ServiceDemo.digest catalogue_domain_allowed ServiceDemo.ana (Some "ana")
    ServiceDemo.batch ServiceDemo.orders ServiceDemo.empty) = ServiceDemo.empty.
Proof.
  pose proof (import_config_outcomes ServiceDemo.digest ServiceDemo.tiers_total catalogue_domain_allowed
    ServiceDemo.ana (Some "ana") ServiceDemo.batch ServiceDemo.orders ServiceDemo.empty) as H.
  assert (fst (import_config ServiceDemo.digest catalogue_domain_allowed ServiceDemo.ana (Some "ana")
    ServiceDemo.batch ServiceDemo.orders ServiceDemo.empty)
    = raise PermissionError "principal is not allowed to add a site") as Hr by (vm_compute; reflexivity).
  destruct (import_config _ _ ServiceDemo.ana _ _ _ _) as [r a']. cbn [fst snd] in *. subst r.
  destruct H as [(_ & H & _) | [(H & _) | (H & _)]]; [exact H | discriminate | discriminate].
Defined.

Lemma import_config_complete_witness :
  ∃ db', import_config ServiceDemo.digest catalogue_domain_allowed ServiceDemo.admin (Some "ana")
           ServiceDemo.batch ServiceDemo.orders ServiceDemo.empty
         = (Ok {| imported_sites := 1; imported_products := 1 |}, mkApp db' empty_state_db 0%nat)
    ∧ Config.load_sites db' !! "kabum" = Some ConfigDemo.kabum
    ∧ product_stored ServiceDemo.digest "ana" ("gpu", [("kabum", ServiceDemo.url)]) db'.
Proof.
  destruct (import_config_complete ServiceDemo.digest ServiceDemo.tiers_total ServiceDemo.admin "ana" ServiceDemo.batch
    ServiceDemo.orders ServiceDemo.empty) as (db' & Hrun & Hs & Hp).
  - left. reflexivity.
  - discriminate.
  - apply config_wf_empty.
  - intros r Hr. apply elem_of_nil in Hr. destruct Hr.
  - split.
    + apply NoDup_singleton.
    + intros n s [= -> ->]%list_elem_of_singleton. reflexivity.
    + intros n s [= -> ->]%list_elem_of_singleton. discriminate.
    + intros n s r _ Hr. apply elem_of_nil in Hr. destruct Hr.
  - vm_compute. reflexivity.
  - exists db'. split; [exact Hrun | split; [apply Hs; left | apply Hp; left]].
Defined.

Lemma run_now_one_record_each_witness :
  ∃ rr a', run_now "ana" ServiceDemo.imported = (Ok rr, a')
    ∧ Forall (λ r, sr_ts r = "2026-01-01T00:00:00+00:00") (records rr)
    ∧ config a' = config ServiceDemo.imported.
Proof.
  destruct (run_now_one_record_each ServiceDemo.tiers_total "ana" ServiceDemo.imported
    "2026-01-01T00:00:00+00:00" 0%nat ServiceDemo.demo_tame ServiceDemo.imported_wf)
    as (reg & rr & a' & _ & Hrun & _ & Hts & Hc); [vm_compute; reflexivity | discriminate |].
  exists rr, a'. split; [exact Hrun | split; [exact Hts | exact Hc]].
Defined.

(** validation does not guarantee the write.  Importing a file that moves
    a known site to another domain while a product still uses the old one
    passes the validation pass (the old domain is still in the live
    catalogue) and then fails half-way: the site is overwritten, the product
    is there without its source. *)
Theorem import_moving_a_site_is_partial :
  let a := ServiceDemo.imported in
  let ss := [("kabum", ServiceDemo.moved)] in
  let ps := [("cpu", [("kabum", "https://www.kabum.com.br/p/2")])] in
  let r := import_config ServiceDemo.digest catalogue_domain_allowed ServiceDemo.admin
             (Some "ana") ss ps a in
  validate_batch (W:=nat) (Some "ana") ss ps (catalogue_domain_allowed (config a)) = Ok []
  ∧ match fst r with Raise e => exn_class e = ConfigImportPartialError | Ok _ => False end
  ∧ Config.site_domains (config (snd r)) = ["kabum.com"]
  ∧ (p_key <$> product_rows (config (snd r))) = ["gpu"; "cpu"]
  ∧ (s_key <$> source_rows (config (snd r))) = ["gpu"].
Proof. vm_compute. repeat split. Qed.
