(* ===== verification/Auth.v ===== *)
(** Identity: the tables [sessions], [tokens] and [login_attempts] next to
    [owners] ([registry/auth_store.py]) and the service over them
    ([core/app/auth.py], [auth/ports.py]).

    Each store method is one or two SQLite transactions on its own
    connection; a transaction is one atomic step here.  The clock's answer
    and the random secrets are arguments.  Instants and durations are counted
    in microseconds.  sha256 and Argon2 are parameters. *)

From S2P Require Import Prelude Registry ConfigStore Safety DateTime Services.

(** * Tables and values *)

Record SessionRow := {
  se_hash : string; se_owner : string; se_created_at : string; se_expires_at : string;
}.

Record TokenRow := {
  tk_hash : string; tk_id : string; tk_owner : string;
  tk_created_at : string; tk_expires_at : string; tk_state : string;
}.

Record AttemptRow := { at_key : string; at_count : Z; at_start : Z }.

Record AuthDb := {
  cfg : ConfigDb;
  sessions : list SessionRow;
  tokens : list TokenRow;
  attempts : list AttemptRow;
}.

Record OwnerCredentials := { oc_owner_id : string; oc_role : string; oc_password_hash : option string }.
Record ResolvedIdentity := { ri_owner_id : string; ri_role : string }.
Record TokenInfo := { ti_token_id : string; ti_created_at : string; ti_expires_at : string }.
Record IssuedToken := { it_token_id : string; it_token : string }.

#[export] Instance SessionRow_eq_dec : EqDecision SessionRow.
Proof. solve_decision. Defined.
#[export] Instance TokenRow_eq_dec : EqDecision TokenRow.
Proof. solve_decision. Defined.
#[export] Instance AttemptRow_eq_dec : EqDecision AttemptRow.
Proof. solve_decision. Defined.

Definition set_sessions (l : list SessionRow) (db : AuthDb) : AuthDb :=
  {| cfg := db.(cfg); sessions := l; tokens := db.(tokens); attempts := db.(attempts) |}.
Definition set_tokens (l : list TokenRow) (db : AuthDb) : AuthDb :=
  {| cfg := db.(cfg); sessions := db.(sessions); tokens := l; attempts := db.(attempts) |}.
Definition set_attempts (l : list AttemptRow) (db : AuthDb) : AuthDb :=
  {| cfg := db.(cfg); sessions := db.(sessions); tokens := db.(tokens); attempts := l |}.
Definition set_cfg (c : ConfigDb) (db : AuthDb) : AuthDb :=
  {| cfg := c; sessions := db.(sessions); tokens := db.(tokens); attempts := db.(attempts) |}.

Definition auth_owners (db : AuthDb) : list OwnerRow := owners db.(cfg).
Definition is_active (r : OwnerRow) : Prop := o_state r = "active".

(** * The store *)

Module AuthStore.

(** [_ensure_email_uniqueness], on a database that has the table [owners]. *)
Definition ensure_email_uniqueness (db : AuthDb) : result AuthDb :=
  if bool_decide (Config.duplicated (omap o_email (auth_owners db)) = [])
  then Ok db
  else raise EmailAlreadyTakenError "cannot enforce owner email uniqueness".

Definition credentials_of (r : OwnerRow) : OwnerCredentials :=
  {| oc_owner_id := r.(o_id); oc_role := r.(o_role); oc_password_hash := r.(o_password_hash) |}.

Definition lookup_active_credentials (identifier : string) (db : AuthDb) : option OwnerCredentials :=
  match head (filter (λ r, o_name r = identifier ∧ is_active r) (auth_owners db)) with
  | Some r => Some (credentials_of r)
  | None => credentials_of <$>
      head (filter (λ r, o_email r = Some identifier ∧ is_active r) (auth_owners db))
  end.

(** ** Login attempts *)

Section RateLimit.
Variable window_seconds : Z.
Variable max_attempts : Z.
Variable row_cap : Z.

Definition find_attempt (key : string) (l : list AttemptRow) : option AttemptRow :=
  head (filter (λ r, at_key r = key) l).

Definition retry_after (now : Z) (r : AttemptRow) : Z := window_seconds - (now - r.(at_start)).

(** The first transaction: the read of a blocked identifier. *)
Definition blocked (key : string) (now : Z) (db : AuthDb) : option Z :=
  match head (filter (λ r, at_key r = key ∧ now - window_seconds < at_start r) db.(attempts)) with
  | Some r => if max_attempts <=? r.(at_count) then Some (retry_after now r) else None
  | None => None
  end.

Definition oldest_first (a b : AttemptRow) : bool := a.(at_start) <=? b.(at_start).

(** [DELETE ... WHERE identifier_key = (SELECT ... ORDER BY window_start ASC
    LIMIT 1)]. *)
Definition evict_oldest (l : list AttemptRow) : list AttemptRow :=
  match head (sort_by oldest_first l) with
  | Some o => filter (λ r, at_key r ≠ at_key o) l
  | None => l
  end.

(** The second transaction: purge, evict if needed, count the attempt and
    decide. *)
Definition make_room (key : string) (now : Z) (l : list AttemptRow) : list AttemptRow :=
  let l := filter (λ r, now - window_seconds < at_start r) l in
  if bool_decide (key ∈ at_key <$> l) then l
  else if row_cap <=? Z.of_nat (length l) then evict_oldest l else l.

Definition count_attempt (key : string) (now : Z) (l : list AttemptRow) : list AttemptRow :=
  if bool_decide (key ∈ at_key <$> l)
  then (λ r, if bool_decide (at_key r = key)
             then {| at_key := at_key r; at_count := at_count r + 1; at_start := at_start r |}
             else r) <$> l
  else (l ++ [{| at_key := key; at_count := 1; at_start := now |}])%list.

Definition reserve_write (key : string) (now : Z) (db : AuthDb) : option Z * AuthDb :=
  let l := count_attempt key now (make_room key now db.(attempts)) in
  (match find_attempt key l with
   | Some r => if max_attempts <? r.(at_count) then Some (retry_after now r) else None
   | None => None
   end, set_attempts l db).

Definition reserve_login_attempt (key : string) (now : Z) (db : AuthDb) : option Z * AuthDb :=
  if max_attempts <=? 0 then (None, db)
  else match blocked key now db with
       | Some d => (Some d, db)
       | None => reserve_write key now db
       end.

Definition record_login_success (key : string) (db : AuthDb) : AuthDb :=
  if max_attempts <=? 0 then db
  else set_attempts (filter (λ r, at_key r ≠ key) db.(attempts)) db.
End RateLimit.

(** ** Sessions *)

Definition create_session (h owner created_at expires_at : string) : M AuthDb unit :=
  λ db, if bool_decide (h ∈ se_hash <$> db.(sessions)) then (Raise integrity_error, db)
        else (Ok tt, set_sessions (db.(sessions) ++
               [{| se_hash := h; se_owner := owner; se_created_at := created_at;
                   se_expires_at := expires_at |}])%list db).

(** The owner a row joins with: [o.id = owner AND o.state = 'active']. *)
Definition active_owner (owner : string) (db : AuthDb) : option ResolvedIdentity :=
  (λ r, {| ri_owner_id := r.(o_id); ri_role := r.(o_role) |}) <$>
    head (filter (λ r, o_id r = owner ∧ is_active r) (auth_owners db)).

(** [JOIN owners ... fetchone]: the first row of the join. *)
Definition resolve_session (h now : string) (db : AuthDb) : option ResolvedIdentity :=
  head (omap (λ s, if bool_decide (se_hash s = h) && str_ltb now (se_expires_at s)
                   then active_owner s.(se_owner) db else None) db.(sessions)).

Definition delete_session (h : string) (db : AuthDb) : AuthDb :=
  set_sessions (filter (λ s, se_hash s ≠ h) db.(sessions)) db.

Definition delete_owner_sessions (owner : string) (db : AuthDb) : AuthDb :=
  set_sessions (filter (λ s, se_owner s ≠ owner) db.(sessions)) db.

(** ** Tokens *)

Definition create_token (h id owner created_at expires_at : string) : M AuthDb unit :=
  λ db, if bool_decide (h ∈ tk_hash <$> db.(tokens)) then (Raise integrity_error, db)
        else (Ok tt, set_tokens (db.(tokens) ++
               [{| tk_hash := h; tk_id := id; tk_owner := owner; tk_created_at := created_at;
                   tk_expires_at := expires_at; tk_state := "active" |}])%list db).

Definition resolve_token (h now : string) (db : AuthDb) : option ResolvedIdentity :=
  head (omap (λ t, if bool_decide (tk_hash t = h) && bool_decide (tk_state t = "active")
                      && str_ltb now (tk_expires_at t)
                   then active_owner t.(tk_owner) db else None) db.(tokens)).

Definition disable (t : TokenRow) : TokenRow :=
  {| tk_hash := t.(tk_hash); tk_id := t.(tk_id); tk_owner := t.(tk_owner);
     tk_created_at := t.(tk_created_at); tk_expires_at := t.(tk_expires_at);
     tk_state := "disabled" |}.

Definition revoke_token (owner id : string) (db : AuthDb) : AuthDb :=
  set_tokens ((λ t, if bool_decide (tk_owner t = owner ∧ tk_id t = id) then disable t else t)
                <$> db.(tokens)) db.

Definition revoke_owner_tokens (owner : string) (db : AuthDb) : AuthDb :=
  set_tokens ((λ t, if bool_decide (tk_owner t = owner) then disable t else t) <$> db.(tokens)) db.

Definition list_tokens (owner now : string) (db : AuthDb) : list TokenInfo :=
  (λ t, {| ti_token_id := t.(tk_id); ti_created_at := t.(tk_created_at);
           ti_expires_at := t.(tk_expires_at) |}) <$>
    sort_by (λ a b, str_leb b.(tk_created_at) a.(tk_created_at))
      (filter (λ t, tk_owner t = owner ∧ tk_state t = "active"
                    ∧ str_ltb now (tk_expires_at t) = true) db.(tokens)).

(** ** Profile *)

Definition get_email (owner : string) (db : AuthDb) : option string :=
  head (filter (λ r, o_id r = owner) (auth_owners db)) ≫= o_email.

Definition with_email (email : option string) (r : OwnerRow) : OwnerRow :=
  {| o_id := r.(o_id); o_name := r.(o_name); o_email := email; o_role := r.(o_role);
     o_state := r.(o_state); o_password_hash := r.(o_password_hash);
     o_created_at := r.(o_created_at) |}.

(** The unique partial index on [email] refuses the UPDATE. *)
Definition email_conflict (owner : string) (email : option string) (l : list OwnerRow) : Prop :=
  email ≠ None ∧ owner ∈ o_id <$> l
  ∧ Exists (λ r, o_id r ≠ owner ∧ o_email r = email) l.

#[global] Instance email_conflict_dec owner email l : Decision (email_conflict owner email l).
Proof. unfold email_conflict. apply _. Defined.

Definition set_email (owner : string) (email : option string) : M AuthDb unit :=
  λ db, if bool_decide (email_conflict owner email (auth_owners db))
        then (raise EmailAlreadyTakenError "email already in use", db)
        else (Ok tt, set_cfg (set_owners ((λ r, if bool_decide (o_id r = owner)
                                then with_email email r else r) <$> auth_owners db) db.(cfg)) db).

End AuthStore.

(** * E-mail addresses *)

(** The forbidden characters of the local part. *)
Definition local_char (c : ascii) : bool :=
  negb (is_space c) && negb (bool_decide (c ∈ [","; ";"; "<"; ">"; "("; ")"; "@"; "034"]%char)).
Definition label_char (c : ascii) : bool :=
  is_alpha c || is_digit c || bool_decide (c = "-"%char).
Definition label_ok (s : list ascii) : bool :=
  negb (bool_decide (s = [])) && forallb label_char s.

(** [_EMAIL_RE.fullmatch]: the final label starts with a letter, which an
    [xn--] label does. *)
Definition email_ok (email : string) : bool :=
  match fields_of "@"%char (chars email) with
  | [local; domain] =>
      negb (bool_decide (local = [])) && forallb local_char local
      && match reverse (fields_of "."%char domain) with
         | tld :: rest =>
             negb (bool_decide (rest = [])) && forallb label_ok rest && label_ok tld
             && match tld with c :: _ => is_alpha c | [] => false end
         | [] => false
         end
  | _ => false
  end.

(** * The service *)

(** The state of the service: the database, and how many Argon2
    verifications it has paid for. *)
Record Auth := mkAuth { auth_db : AuthDb; argon2_calls : Z }.

Section AuthService.
(** [hashlib.sha256(..).hexdigest()]. *)
Variable sha256 : string → string.
(** [argon2.PasswordHasher.verify]: returns or raises. *)
Variable ph_verify : string → string → result unit.
Variable dummy_hash : string.
Variable session_ttl token_ttl : Z.
Variable window_seconds max_attempts row_cap : Z.

Definition argon2_error (e : exn) : bool :=
  bool_decide (e.(exn_class) ∈ [OtherException "VerifyMismatchError";
    OtherException "VerificationError"; OtherException "Argon2Error"]).

(** [Argon2Hasher.verify] and [dummy_verify]. *)
Definition verify (password_hash password : string) : M Auth bool :=
  λ a, (match ph_verify password_hash password with
        | Ok _ => Ok true
        | Raise e => if argon2_error e then Ok false else Raise e
        end, mkAuth a.(auth_db) (a.(argon2_calls) + 1)).

Definition dummy_verify (password : string) : M Auth unit :=
  let! _ := verify dummy_hash password in mret' tt.

Definition on_db {A} (m : M AuthDb A) : M Auth A :=
  λ a, let '(r, d) := m a.(auth_db) in (r, mkAuth d a.(argon2_calls)).

Definition authenticate (identifier password : string) : M Auth (option Principal) :=
  let! db := mgets auth_db in
  match AuthStore.lookup_active_credentials identifier db with
  | None => let! _ := dummy_verify password in mret' None
  | Some creds =>
      match creds.(oc_password_hash) with
      | None => let! _ := dummy_verify password in mret' None
      | Some h =>
          let! ok := verify h password in
          mret' (if ok : bool
                 then Some {| owner_id := creds.(oc_owner_id); role := creds.(oc_role) |}
                 else None)
      end
  end.

(** [identifier.strip().lower()]. *)
Definition login_key (identifier : string) : string :=
  of_chars (lower (reverse (drop_while is_space (reverse (drop_while is_space (chars identifier)))))).

Definition check_and_authenticate (identifier password : string) (now : Z)
    : M Auth (option Principal * option Z) :=
  let key := login_key identifier in
  let! retry := on_db (λ db,
    let '(r, db') := AuthStore.reserve_login_attempt window_seconds max_attempts row_cap key now db in
    (Ok r, db')) in
  match retry with
  | Some d => mret' (None, Some d)
  | None =>
      let! principal := authenticate identifier password in
      let! _ := match principal with
                | Some _ => on_db (mmodify (AuthStore.record_login_success max_attempts key))
                | None => mret' tt
                end in
      mret' (principal, None)
  end.

Definition create_session (principal : Principal) (session_id : string) (now : Z) : M Auth string :=
  let! _ := on_db (AuthStore.create_session (sha256 session_id) principal.(owner_id)
              (isoformat now) (isoformat (now + session_ttl))) in
  mret' session_id.

Definition principal_of (i : ResolvedIdentity) : Principal :=
  {| owner_id := i.(ri_owner_id); role := i.(ri_role) |}.

Definition verify_session (session_id : string) (now : Z) : M Auth (option Principal) :=
  mgets (λ a, principal_of <$>
    AuthStore.resolve_session (sha256 session_id) (isoformat now) a.(auth_db)).

Definition revoke_session (principal : Principal) (session_id : string) : M Auth unit :=
  on_db (mmodify (AuthStore.delete_session (sha256 session_id))).

Definition create_token (principal : Principal) (token token_id : string) (now : Z)
    : M Auth IssuedToken :=
  let! _ := on_db (AuthStore.create_token (sha256 token) token_id principal.(owner_id)
              (isoformat now) (isoformat (now + token_ttl))) in
  mret' {| it_token_id := token_id; it_token := token |}.

Definition verify_bearer (token : string) (now : Z) : M Auth (option Principal) :=
  mgets (λ a, principal_of <$>
    AuthStore.resolve_token (sha256 token) (isoformat now) a.(auth_db)).

Definition revoke_token (principal : Principal) (token_id : string) : M Auth unit :=
  on_db (mmodify (AuthStore.revoke_token principal.(owner_id) token_id)).

Definition revoke_all (principal : Principal) (target_owner_id : string) : M Auth unit :=
  if negb (bool_decide (target_owner_id = principal.(owner_id))) && negb (is_admin principal)
  then mraise (Exn PermissionError "principal may not revoke access for owner")
  else
    let! _ := on_db (mmodify (AuthStore.delete_owner_sessions target_owner_id)) in
    on_db (mmodify (AuthStore.revoke_owner_tokens target_owner_id)).

Definition get_email (principal : Principal) : M Auth (option string) :=
  mgets (λ a, AuthStore.get_email principal.(owner_id) a.(auth_db)).

Definition set_email (principal : Principal) (email : option string) : M Auth unit :=
  if match email with Some e => negb (email_ok e) | None => false end
  then mraise (Exn ValueError "invalid email format")
  else on_db (AuthStore.set_email principal.(owner_id) email).

Definition list_tokens (principal : Principal) (now : Z) : M Auth (list TokenInfo) :=
  mgets (λ a, AuthStore.list_tokens principal.(owner_id) (isoformat now) a.(auth_db)).

End AuthService.

(** * Lemmas *)

Lemma mbind_mbind {S A B C} (x : M S A) (f : A → M S B) (g : B → M S C) s :
  mbind' (mbind' x f) g s = mbind' x (λ v, mbind' (f v) g) s.
Proof. unfold mbind'. by destruct (x s) as [[v | e] s']. Qed.

Lemma head_omap_Some {A B} (f : A → option B) (l : list A) b :
  head (omap f l) = Some b → ∃ x, x ∈ l ∧ f x = Some b.
Proof.
  intros H. destruct (omap f l) as [| y ys] eqn:E; [done |]. injection H as ->.
  assert (b ∈ omap f l) as Hin by (rewrite E; left). by apply list_elem_of_omap in Hin.
Qed.

Lemma head_omap_None {A B} (f : A → option B) (l : list A) :
  (∀ x, x ∈ l → f x = None) → head (omap f l) = None.
Proof.
  induction l as [| x l IH]; intros Hf; [done |]. cbn. rewrite (Hf x) by left.
  apply IH. intros y Hy. apply Hf. by right.
Qed.

(** At most one row is selected: the head of the join is its value. *)
Lemma head_omap_unique {A B} (key : A → string) (f : A → option B) (l : list A) x :
  NoDup (key <$> l) → x ∈ l → (∀ y, y ∈ l → key y ≠ key x → f y = None) →
  head (omap f l) = f x.
Proof.
  induction l as [| y l IH]; intros Hnd Hx Hf; [by apply elem_of_nil in Hx |].
  rewrite fmap_cons in Hnd. apply NoDup_cons in Hnd as [Hy Hnd]. cbn.
  apply elem_of_cons in Hx as [-> | Hx].
  - destruct (f y) as [b |] eqn:E; [done |]. apply head_omap_None.
    intros z Hz. apply Hf; [by right |]. intros Ek. apply Hy. rewrite <- Ek. by apply elem_of_key.
  - rewrite (Hf y); [| left |].
    + apply IH; [done .. |]. intros z Hz. apply Hf. by right.
    + intros Ek. apply Hy. rewrite Ek. by apply elem_of_key.
Qed.

Lemma head_omap_ext {A B} (f g : A → option B) (l : list A) :
  (∀ x, x ∈ l → f x = g x) → head (omap f l) = head (omap g l).
Proof.
  induction l as [| x l IH]; intros H; [done |]. cbn. rewrite (H x) by left.
  destruct (g x); [done |]. apply IH. intros y Hy. apply H. by right.
Qed.

Lemma head_app_fresh {A B} (f : A → option B) (l : list A) (ys : list B) :
  (∀ x, x ∈ l → f x = None) → head (omap f l ++ ys) = head ys.
Proof.
  induction l as [| x l IH]; intros Hf; [done |]. cbn. rewrite (Hf x) by left.
  apply IH. intros y Hy. apply Hf. by right.
Qed.

Lemma head_filter_Some {A} (P : A → Prop) `{∀ x, Decision (P x)} (l : list A) x :
  head (filter P l) = Some x → x ∈ l ∧ P x.
Proof.
  intros Hh. destruct (filter P l) as [| y ys] eqn:E; [done |]. injection Hh as ->.
  assert (x ∈ filter P l) as Hin by (rewrite E; left).
  apply list_elem_of_filter in Hin. tauto.
Qed.

Lemma head_filter_None {A} (P : A → Prop) `{∀ x, Decision (P x)} (l : list A) :
  head (filter P l) = None → ∀ x, x ∈ l → ¬ P x.
Proof.
  intros Hh x Hx HP. destruct (filter P l) as [| y ys] eqn:E; [| done].
  assert (x ∈ filter P l) as Hin by (by apply list_elem_of_filter). rewrite E in Hin.
  by apply elem_of_nil in Hin.
Qed.

(** What [active_owner] answers is a row of an active owner. *)
Lemma active_owner_row o db i :
  AuthStore.active_owner o db = Some i →
  ∃ r, r ∈ auth_owners db ∧ is_active r ∧ o_id r = o
    ∧ ri_owner_id i = o_id r ∧ ri_role i = o_role r.
Proof.
  unfold AuthStore.active_owner. intros H.
  destruct (head _) as [r |] eqn:E; [| done]. injection H as <-.
  apply head_filter_Some in E as [Hr [Ho Ha]]. exists r. by subst.
Qed.

Lemma sublist_fmap {A B} (f : A → B) (l l' : list A) : l' `sublist_of` l → f <$> l' `sublist_of` f <$> l.
Proof. by induction 1; cbn; constructor. Qed.

Section Rates.
Context (W m cap : Z) (Hm : 0 < m).

(** What the requests do to the table: the write transaction of an attempt, and
    what a right password adds to it.  The read that comes before the write
    changes nothing and lets nobody through. *)
Inductive login_event :=
| Reserved (key : string) (now : Z)
| Succeeded (key : string).

#[export] Instance login_event_eq_dec : EqDecision login_event.
Proof. solve_decision. Defined.

Definition login_step (e : login_event) (db : AuthDb) : AuthDb :=
  match e with
  | Reserved key now => (AuthStore.reserve_write W m cap key now db).2
  | Succeeded key => AuthStore.record_login_success m key db
  end.

(** The attempt of [k] is let through. *)
Definition lets_through (k : string) (e : login_event) (db : AuthDb) : bool :=
  match e with
  | Reserved key now => bool_decide (key = k ∧ (AuthStore.reserve_write W m cap key now db).1 = None)
  | Succeeded _ => false
  end.

(** The table as the counting of the attempt finds it. *)
Definition before_count (e : login_event) (db : AuthDb) : list AttemptRow :=
  match e with
  | Reserved key now => AuthStore.make_room W cap key now (attempts db)
  | Succeeded key => attempts (AuthStore.record_login_success m key db)
  end.

(** The event makes the table forget [k]: its window has passed, it is the
    oldest of a full table, or it logged in. *)
Definition forgets (k : string) (e : login_event) (db : AuthDb) : bool :=
  bool_decide (k ∈ at_key <$> attempts db) && negb (bool_decide (k ∈ at_key <$> before_count e db)).

(** How often, along a serialisation, [k] is let through and is forgotten. *)
Fixpoint tally (f : login_event → AuthDb → bool) (events : list login_event) (db : AuthDb) : Z :=
  match events with
  | [] => 0
  | e :: events => Z.b2z (f e db) + tally f events (login_step e db)
  end.

(** What an identifier may still try. *)
Definition budget_in (k : string) (l : list AttemptRow) : Z :=
  match AuthStore.find_attempt k l with
  | Some r => Z.max 0 (m - at_count r)
  | None => m
  end.
Definition budget (k : string) (db : AuthDb) : Z := budget_in k (attempts db).

Lemma find_attempt_Some k (l : list AttemptRow) r :
  NoDup (at_key <$> l) → r ∈ l → at_key r = k → AuthStore.find_attempt k l = Some r.
Proof. apply head_filter_key. Qed.

Lemma find_attempt_None k (l : list AttemptRow) :
  k ∉ at_key <$> l → AuthStore.find_attempt k l = None.
Proof.
  intros Hk. unfold AuthStore.find_attempt. rewrite filter_none; [done |].
  intros r Hr E. apply Hk. rewrite <- E. by apply elem_of_key.
Qed.

Lemma make_room_sublist key now l : AuthStore.make_room W cap key now l `sublist_of` l.
Proof.
  unfold AuthStore.make_room, AuthStore.evict_oldest.
  repeat case_match; first [apply sublist_filter | etrans; apply sublist_filter].
Qed.

Lemma before_count_sublist e db : before_count e db `sublist_of` attempts db.
Proof.
  destruct e as [key now | key]; [apply make_room_sublist |]. cbn. unfold AuthStore.record_login_success.
  destruct (m <=? 0); [done | apply sublist_filter].
Qed.

(** Rows that go away give the budget back; the others keep theirs. *)
Lemma budget_sublist k (l l' : list AttemptRow) :
  NoDup (at_key <$> l) → l' `sublist_of` l →
  budget_in k l' <= budget_in k l
    + m * Z.b2z (bool_decide (k ∈ at_key <$> l) && negb (bool_decide (k ∈ at_key <$> l'))).
Proof.
  intros Hnd Hs. assert (Hnd' : NoDup (at_key <$> l')) by (eapply sublist_NoDup; [exact Hnd | by apply sublist_fmap]).
  unfold budget_in. destruct (decide (k ∈ at_key <$> l')) as [Hk | Hk].
  - apply list_elem_of_fmap in Hk as (r & Er & Hr). symmetry in Er.
    assert (Hr' : r ∈ l) by (by eapply elem_of_sublist).
    rewrite (find_attempt_Some k l' r), (find_attempt_Some k l r) by done.
    rewrite (bool_decide_eq_true_2 (k ∈ at_key <$> l')), andb_false_r by (rewrite <- Er; by apply elem_of_key).
    cbn. lia.
  - rewrite (find_attempt_None k l') by done. rewrite (bool_decide_eq_false_2 (k ∈ at_key <$> l')) by done.
    rewrite andb_true_r. case_bool_decide as Hkl.
    + cbn. case_match; lia.
    + rewrite find_attempt_None by done. cbn. lia.
Qed.

Definition bump (key : string) (r : AttemptRow) : AttemptRow :=
  if bool_decide (at_key r = key)
  then {| at_key := at_key r; at_count := at_count r + 1; at_start := at_start r |} else r.

Lemma bump_same key r : at_key (bump key r) = at_key r.
Proof. unfold bump. by case_bool_decide. Qed.

Lemma count_keys key now l :
  at_key <$> AuthStore.count_attempt key now l
  = if bool_decide (key ∈ at_key <$> l) then at_key <$> l else ((at_key <$> l) ++ [key])%list.
Proof.
  unfold AuthStore.count_attempt. case_bool_decide; [| by rewrite fmap_app].
  rewrite <- list_fmap_compose. apply list_fmap_ext. intros _ r _. apply bump_same.
Qed.

Lemma count_nodup key now l : NoDup (at_key <$> l) → NoDup (at_key <$> AuthStore.count_attempt key now l).
Proof. intros Hnd. rewrite count_keys. case_bool_decide; [done | by apply NoDup_snoc]. Qed.

(** Counting an attempt spends the budget of its identifier when it is let
    through, and no other. *)
Lemma budget_count k key now l :
  NoDup (at_key <$> l) →
  let l' := AuthStore.count_attempt key now l in
  (if bool_decide (key = k) then
     match AuthStore.find_attempt key l' with Some r => Z.b2z (negb (m <? at_count r)) | None => 1 end
   else 0) + budget_in k l' <= budget_in k l.
Proof.
  intros Hnd. cbn zeta. pose proof (count_nodup key now l Hnd) as Hnd'.
  set (l' := AuthStore.count_attempt key now l) in *. unfold budget_in.
  destruct (decide (k ∈ at_key <$> l)) as [Hk | Hk].
  - apply list_elem_of_fmap in Hk as (r & Er & Hr). symmetry in Er.
    assert (Hr' : bump key r ∈ l').
    { unfold l', AuthStore.count_attempt. case_bool_decide as Hkey; [by apply (list_elem_of_fmap_2 (bump key)) |].
      apply elem_of_app. left. unfold bump. rewrite bool_decide_eq_false_2; [done |].
      intros E. apply Hkey. rewrite <- E. by apply elem_of_key. }
    rewrite (find_attempt_Some k l r), (find_attempt_Some k l' (bump key r)) by (rewrite ?bump_same; done).
    case_bool_decide as E; [subst key |].
    + rewrite (find_attempt_Some k l' (bump k r)) by (rewrite ?bump_same; done). unfold bump.
      rewrite bool_decide_eq_true_2 by done. cbn [at_count]. destruct (Z.ltb_spec m (at_count r + 1)); cbn; lia.
    + unfold bump. rewrite bool_decide_eq_false_2 by congruence. lia.
  - rewrite (find_attempt_None k l) by done. case_bool_decide as E; [subst key |].
    + assert (Hn : {| at_key := k; at_count := 1; at_start := now |} ∈ l').
      { unfold l', AuthStore.count_attempt. rewrite bool_decide_eq_false_2 by done. apply elem_of_app. right. by left. }
      rewrite (find_attempt_Some k l' _ Hnd' Hn) by done. cbn [at_count]. destruct (Z.ltb_spec m 1); cbn; lia.
    + rewrite find_attempt_None; [lia |]. unfold l'. rewrite count_keys. case_bool_decide; [done |].
      intros [? | ?%list_elem_of_singleton]%elem_of_app; [done | congruence].
Qed.

Lemma login_step_nodup e db : NoDup (at_key <$> attempts db) → NoDup (at_key <$> attempts (login_step e db)).
Proof.
  intros Hnd. assert (NoDup (at_key <$> before_count e db)) as Hb
    by (eapply sublist_NoDup; [exact Hnd | apply sublist_fmap, before_count_sublist]).
  destruct e as [key now | key]; [| exact Hb]. by apply count_nodup.
Qed.

Lemma login_step_budget k e db :
  NoDup (at_key <$> attempts db) →
  Z.b2z (lets_through k e db) + budget k (login_step e db) <= budget k db + m * Z.b2z (forgets k e db).
Proof.
  intros Hnd. pose proof (budget_sublist k _ _ Hnd (before_count_sublist e db)) as Hb.
  assert (NoDup (at_key <$> before_count e db)) as Hnb
    by (eapply sublist_NoDup; [exact Hnd | apply sublist_fmap, before_count_sublist]).
  unfold budget, forgets. etrans; [| exact Hb]. destruct e as [key now | key]; [| done].
  pose proof (budget_count k key now _ Hnb) as Hc. cbn zeta in Hc. cbn [before_count] in *. etrans; [| exact Hc].
  cbn [lets_through login_step]. unfold AuthStore.reserve_write. cbn [fst snd attempts set_attempts].
  apply Z.add_le_mono_r. case_bool_decide as E.
  - subst key. destruct (AuthStore.find_attempt k _) as [r |].
    + destruct (m <? at_count r); [rewrite bool_decide_eq_false_2 by (by intros [_ ?]); done |].
      rewrite bool_decide_eq_true_2 by done. done.
    + rewrite bool_decide_eq_true_2 by done. done.
  - rewrite bool_decide_eq_false_2 by (by intros [? _]). done.
Qed.

(** Along any serialisation, an identifier is let through as often as it still
    may, and [m] times more for each time it is forgotten. *)
Lemma tally_budget k events db :
  NoDup (at_key <$> attempts db) →
  tally (lets_through k) events db <= budget k db + m * tally (forgets k) events db.
Proof.
  revert db. induction events as [| e events IH]; intros db Hnd.
  { cbn. unfold budget, budget_in. case_match; lia. }
  specialize (IH _ (login_step_nodup e db Hnd)). pose proof (login_step_budget k e db Hnd). cbn [tally]. lia.
Qed.

(** ** Within a window *)

Definition event_key (e : login_event) : string := match e with Reserved key _ | Succeeded key => key end.

(** The identifiers fit the table, and [k] is not from before [t0]. *)
Record tracked (k : string) (t0 : Z) (K : list string) (db : AuthDb) : Prop := {
  tracked_keys : NoDup (at_key <$> attempts db);
  tracked_known : at_key <$> attempts db ⊆ K;
  tracked_start : ∀ r, r ∈ attempts db → at_key r = k → t0 <= at_start r;
}.

Lemma make_room_kept K key now db :
  NoDup K → Z.of_nat (length K) <= cap → key ∈ K → NoDup (at_key <$> attempts db) → at_key <$> attempts db ⊆ K →
  AuthStore.make_room W cap key now (attempts db) = filter (λ r, now - W < at_start r) (attempts db).
Proof.
  intros HK Hcap Hkey Hnd Hsub. unfold AuthStore.make_room. set (l := filter _ _).
  case_bool_decide as Hin; [done |].
  assert (Hs : at_key <$> l `sublist_of` at_key <$> attempts db) by (apply sublist_fmap, sublist_filter).
  assert (key :: (at_key <$> l) ⊆+ K) as Hlen%submseteq_length.
  { apply NoDup_submseteq; [constructor; [done | by eapply sublist_NoDup] |].
    intros x [-> | Hx]%elem_of_cons; [done |]. apply Hsub. by eapply elem_of_sublist. }
  cbn [length] in Hlen. rewrite length_fmap in Hlen. by destruct (Z.leb_spec cap (Z.of_nat (length l))); [lia |].
Qed.

Lemma forgets_success k t0 K e db :
  NoDup K → Z.of_nat (length K) <= cap → event_key e ∈ K → tracked k t0 K db →
  (∀ key now, e = Reserved key now → t0 <= now < t0 + W) →
  tracked k t0 K (login_step e db) ∧ (forgets k e db = true → e = Succeeded k).
Proof.
  intros HK Hcap Hkey [Hnd Hsub Hst] Hnow.
  assert (Hb : ∀ r, r ∈ before_count e db → r ∈ attempts db)
    by (intros r Hr; eapply elem_of_sublist; [exact Hr | apply before_count_sublist]).
  assert (Hbk : at_key <$> before_count e db ⊆ K)
    by (intros x (r & -> & Hr)%list_elem_of_fmap; by apply Hsub, elem_of_key, Hb).
  split; [split; [by apply login_step_nodup | |] |].
  - destruct e as [key now | key]; [| exact Hbk]. cbn. rewrite count_keys. case_bool_decide; [exact Hbk |].
    intros x [Hx | ->%list_elem_of_singleton]%elem_of_app; [by apply Hbk | done].
  - destruct e as [key now | key]; [| cbn; intros r Hr; apply Hst; by apply Hb]. cbn. intros r Hr Ek.
    unfold AuthStore.count_attempt in Hr. destruct (Hnow key now eq_refl) as [Hn _]. case_bool_decide.
    + apply list_elem_of_fmap in Hr as (y & -> & Hy). apply Hb in Hy.
      revert Ek. case_bool_decide; cbn; intros Ek; by apply (Hst y).
    + apply elem_of_app in Hr as [Hr | ->%list_elem_of_singleton]; [apply Hst; auto | done].
  - unfold forgets. intros [Hin Hout]%andb_prop. apply bool_decide_eq_true in Hin.
    apply negb_true_iff, bool_decide_eq_false in Hout. apply list_elem_of_fmap in Hin as (r & -> & Hr).
    destruct e as [key now | key].
    + exfalso. apply Hout, list_elem_of_fmap_2. cbn. rewrite (make_room_kept K) by done.
      apply list_elem_of_filter. split; [| done]. specialize (Hst r Hr eq_refl). specialize (Hnow key now eq_refl). lia.
    + f_equal. destruct (decide (key = at_key r)) as [E | Hne]; [done |]. exfalso. apply Hout, list_elem_of_fmap_2.
      cbn. unfold AuthStore.record_login_success. destruct (m <=? 0); [done |]. apply list_elem_of_filter. auto.
Qed.

Lemma tally_forgets k t0 K events db :
  NoDup K → Z.of_nat (length K) <= cap → tracked k t0 K db →
  (∀ e, e ∈ events → event_key e ∈ K ∧ ∀ key now, e = Reserved key now → t0 <= now < t0 + W) →
  tally (forgets k) events db
  <= Z.of_nat (length (filter (λ e, e = Succeeded k) events)).
Proof.
  intros HK Hcap. revert db. induction events as [| e events IH]; intros db Ht Hev; [done |].
  destruct (Hev e ltac:(left)) as [Hkey Hnow].
  destruct (forgets_success k t0 K e db HK Hcap Hkey Ht Hnow) as [Ht' Hf].
  specialize (IH _ Ht' (λ e' He', Hev e' (list_elem_of_further _ _ _ He'))). cbn [tally]. rewrite filter_cons.
  destruct (forgets k e db).
  - rewrite (Hf eq_refl), decide_True by done. cbn [length]. rewrite (Hf eq_refl) in IH. cbn [Z.b2z]. lia.
  - cbn [Z.b2z]. destruct (decide _); cbn [length]; lia.
Qed.
End Rates.

(** ** Credentials *)

Definition identified (identifier : string) (l : list OwnerRow) (row : OwnerRow) : Prop :=
  o_name row = identifier
  ∨ (o_email row = Some identifier
     ∧ ∀ row', row' ∈ l → is_active row' → o_name row' ≠ identifier).

Lemma omap_inj_in {A B} (f : A → option B) (l : list A) x y b :
  NoDup (omap f l) → x ∈ l → y ∈ l → f x = Some b → f y = Some b → x = y.
Proof.
  intros Hnd Hx Hy Ex Ey. induction l as [| z l IH]; [by apply elem_of_nil in Hx |].
  cbn in Hnd. destruct (f z) as [c |] eqn:Ez.
  - apply NoDup_cons in Hnd as [Hc Hnd].
    assert (Hn : ∀ w, w ∈ l → f w = Some c → False)
      by (intros w Hw Ew; apply Hc; apply list_elem_of_omap; eauto).
    apply elem_of_cons in Hx as [-> | Hx], Hy as [-> | Hy]; simplify_eq; try done; eauto.
    + by destruct (Hn y Hy).
    + by destruct (Hn x Hx).
  - apply elem_of_cons in Hx as [-> | Hx], Hy as [-> | Hy]; simplify_eq; eauto.
Qed.

Lemma lookup_spec identifier db :
  NoDup (o_name <$> auth_owners db) → NoDup (omap o_email (auth_owners db)) →
  match AuthStore.lookup_active_credentials identifier db with
  | Some c => ∃ row, row ∈ auth_owners db ∧ is_active row
      ∧ identified identifier (auth_owners db) row
      ∧ (∀ row', row' ∈ auth_owners db → is_active row' →
           identified identifier (auth_owners db) row' → row' = row)
      ∧ c = AuthStore.credentials_of row
  | None => ∀ row, row ∈ auth_owners db → is_active row →
      ¬ identified identifier (auth_owners db) row
  end.
Proof.
  intros Hn He. unfold AuthStore.lookup_active_credentials, identified.
  destruct (head (filter (λ r, o_name r = identifier ∧ is_active r) (auth_owners db))) as [r |] eqn:E1.
  - apply head_filter_Some in E1 as (Hr & En & Ha). exists r. split_and!; [done | done | by left | | done].
    intros r' Hr' Ha' [En' | [_ Hno]]; [| by destruct (Hno r Hr Ha)].
    eapply (NoDup_fmap_inj_in o_name); [done .. | congruence].
  - pose proof (head_filter_None _ _ E1) as Hn1.
    assert (Hno : ∀ row', row' ∈ auth_owners db → is_active row' → o_name row' ≠ identifier)
      by (intros r' Hr' Ha' En'; by apply (Hn1 r' Hr')).
    destruct (head (filter (λ r, o_email r = Some identifier ∧ is_active r) (auth_owners db)))
      as [r |] eqn:E2; cbn [fmap option_fmap option_map].
    + apply head_filter_Some in E2 as (Hr & Em & Ha).
      exists r. split_and!; [done | done | by right | | done].
      intros r' Hr' Ha' [En' | [Em' _]]; [by destruct (Hno r' Hr' Ha') |].
      by eapply (omap_inj_in o_email).
    + pose proof (head_filter_None _ _ E2) as Hn2. intros r Hr Ha [En | [Em _]];
        [by apply (Hno r Hr Ha) | by apply (Hn2 r Hr)].
Qed.

Lemma set_email_unique o email (c : ConfigDb) :
  unique_identities c → ¬ AuthStore.email_conflict o email (owners c) →
  unique_identities (set_owners ((λ r, if bool_decide (o_id r = o)
    then AuthStore.with_email email r else r) <$> owners c) c).
Proof.
  intros Hu Hc. destruct (decide (o ∈ o_id <$> owners c)) as [Hin | Hin].
  2: { rewrite fmap_id_on; [by destruct c |]. intros r Hr. rewrite bool_decide_eq_false_2; [done |].
       intros E. apply Hin. rewrite <- E. by apply elem_of_key. }
  pose proof Hin as Hin'. apply list_elem_of_fmap in Hin' as (r0 & E0 & Hr0).
  set (up := λ r, if bool_decide (o_id r = o)
    then {| o_id := o_id r; o_name := o_name r0; o_email := email; o_role := o_role r;
            o_state := o_state r; o_password_hash := o_password_hash r;
            o_created_at := o_created_at r |} else r).
  assert (E : (λ r, if bool_decide (o_id r = o) then AuthStore.with_email email r else r) <$> owners c
    = up <$> owners c).
  { apply list_fmap_ext. intros i r Hr%list_elem_of_lookup_2. unfold up.
    case_bool_decide as Er; [| done]. unfold AuthStore.with_email.
    assert (r = r0) as ->; [| done]. destruct Hu as [Hids _].
    eapply (NoDup_fmap_inj_in o_id); [done .. | congruence]. }
  rewrite E. apply (unique_update o (o_name r0) email); try done.
  - intros r. unfold up. by case_bool_decide.
  - intros r. unfold up. by case_bool_decide.
  - intros r. unfold up. by case_bool_decide.
  - intros r Hr Hne. split.
    + intros En. apply Hne. assert (r = r0) as ->; [| done].
      eapply (NoDup_fmap_inj_in o_name); [apply Hu | done ..].
    + intros He Ee. apply Hc. split_and!; [done .. |]. apply Exists_exists. eauto.
Qed.

Section Service.
Context (sha256 : string → string) (ph_verify : string → string → result unit).
Context (dummy_hash : string) (session_ttl token_ttl : Z) (W m cap : Z).

(** ** Login *)

(** C36: login is uniform and server-resolved, in a database whose names and
    e-mails are unique.  Whatever the identifier, the password and the stored
    hash, [authenticate] makes exactly one call of the password hasher and
    changes nothing else.  It answers a principal exactly when an active owner
    has that name (or, if none has, that e-mail), a password hash and that
    password, and the principal is that owner's id with the role of its row.  It
    raises exactly when the hasher cannot read that owner's stored hash, an
    error that is not one of those [Argon2Hasher.verify] catches; otherwise it
    answers nobody. *)
Theorem authenticate_uniform identifier password (a : Auth) :
  (∀ p e, ph_verify dummy_hash p = Raise e → argon2_error e = true) →
  unique_identities (cfg (auth_db a)) →
  let addressed row h :=
    row ∈ auth_owners (auth_db a) ∧ is_active row
    ∧ (o_name row = identifier
       ∨ (o_email row = Some identifier
          ∧ ∀ row', row' ∈ auth_owners (auth_db a) → is_active row' → o_name row' ≠ identifier))
    ∧ o_password_hash row = Some h in
  ∃ r, authenticate ph_verify dummy_hash identifier password a
       = (r, mkAuth (auth_db a) (argon2_calls a + 1))
    ∧ (∀ p, r = Ok (Some p) ↔
        ∃ row h, addressed row h ∧ ph_verify h password = Ok tt
          ∧ p = {| owner_id := o_id row; role := o_role row |})
    ∧ (∀ e, r = Raise e ↔
        ∃ row h, addressed row h ∧ ph_verify h password = Raise e ∧ argon2_error e = false).
Proof.
  intros Hph (_ & Hnames & Hemails) addressed.
  pose proof (lookup_spec identifier (auth_db a) Hnames Hemails) as Hl.
  assert (Hd : dummy_verify ph_verify dummy_hash password a = (Ok tt, mkAuth (auth_db a) (argon2_calls a + 1))).
  { unfold dummy_verify, mbind', verify. destruct (ph_verify dummy_hash password) as [[] | e] eqn:E; [done |].
    by rewrite (Hph password e E). }
  unfold authenticate. rewrite (mbind_ok _ _ a (auth_db a) a) by done.
  destruct (AuthStore.lookup_active_credentials identifier (auth_db a)) as [c |].
  2: { rewrite (mbind_ok _ _ _ _ _ Hd). eexists. split; [done |].
       split; (split; [done |]); intros (row & h & (Hr & Ha & Hid & _) & _); by destruct (Hl row Hr Ha). }
  destruct Hl as (row & Hr & Ha & Hid & Hu & ->). cbn [oc_password_hash AuthStore.credentials_of].
  assert (Huniq : ∀ row' h, addressed row' h → row' = row ∧ o_password_hash row = Some h).
  { intros row' h (Hr' & Ha' & Hid' & Eh). pose proof (Hu row' Hr' Ha' Hid') as ->. done. }
  destruct (o_password_hash row) as [h |] eqn:Eh.
  2: { rewrite (mbind_ok _ _ _ _ _ Hd). eexists. split; [done |].
       split; (split; [done |]); intros (row' & h & Hadd & _); by destruct (Huniq _ _ Hadd). }
  assert (Hadd : addressed row h) by done. clearbody addressed.
  unfold mbind', verify. destruct (ph_verify h password) as [[] | e] eqn:Ep.
  - eexists. split; [done |]. split; [intros p | intros e]; split; try done.
    + intros [= <-]. eauto 10.
    + intros (row' & h' & H & _ & ->). by destruct (Huniq _ _ H) as [-> _].
    + intros (row' & h' & H & E & _). destruct (Huniq _ _ H) as [_ [= <-]]. congruence.
  - destruct (argon2_error e) eqn:Ee; (eexists; split; [done |]); (split; [intros p | intros e']); split; try done.
    + intros (row' & h' & H & E & _). destruct (Huniq _ _ H) as [_ [= <-]]. congruence.
    + intros (row' & h' & H & E & E'). destruct (Huniq _ _ H) as [_ [= <-]]. congruence.
    + intros (row' & h' & H & E & _). destruct (Huniq _ _ H) as [_ [= <-]]. congruence.
    + intros [= <-]. eauto 10.
    + intros (row' & h' & H & E & _). destruct (Huniq _ _ H) as [_ [= <-]]. congruence.
Qed.

(** Every identity comes from an active owner's row.  Whoever a session
    id or a bearer token resolves to, at any time, has a row with that id, in
    the state "active", and the role of that row: a disabled or deleted owner
    is cut off at once, and no role comes from the client. *)
Theorem resolved_identity_is_active (a : Auth) secret now p :
  fst (verify_session sha256 secret now a) = Ok (Some p)
  ∨ fst (verify_bearer sha256 secret now a) = Ok (Some p) →
  ∃ row, row ∈ auth_owners (auth_db a) ∧ is_active row
    ∧ owner_id p = o_id row ∧ role p = o_role row.
Proof.
  unfold verify_session, verify_bearer, mgets, AuthStore.resolve_session, AuthStore.resolve_token.
  cbn [fst]. intros [H | H]; injection H as H; apply fmap_Some in H as (i & H & ->);
    apply head_omap_Some in H as (x & _ & H); case_match; try done;
    apply active_owner_row in H as (r & Hr & Ha & _ & Hid & Hrole); exists r; by split_and!.
Qed.

Definition active_principal (o : string) (db : AuthDb) : option Principal :=
  principal_of <$> AuthStore.active_owner o db.

(** The instants a new secret is minted and used at. *)
Definition timely (ttl now t : Z) : Prop :=
  valid_instant now ∧ valid_instant (now + ttl) ∧ valid_instant t.

Lemma expiry ttl now t :
  timely ttl now t → str_ltb (isoformat t) (isoformat (now + ttl)) = bool_decide (t < now + ttl).
Proof.
  intros (_ & He & Ht). apply eq_true_iff_eq. rewrite bool_decide_eq_true.
  by apply isoformat_order.
Qed.

(** What a new session resolves to, at any time. *)
Lemma created_session_resolves p sid now t (a a' : Auth) :
  create_session sha256 session_ttl p sid now a = (Ok sid, a') → timely session_ttl now t →
  AuthStore.resolve_session (sha256 sid) (isoformat t) (auth_db a')
  = if bool_decide (t < now + session_ttl) then AuthStore.active_owner (owner_id p) (auth_db a) else None.
Proof.
  intros Hc Ht. unfold create_session, on_db in Hc. unfold mbind' in Hc.
  unfold AuthStore.create_session in Hc. case_bool_decide as Hnew; [done |].
  injection Hc as <-. unfold AuthStore.resolve_session. cbn [auth_db sessions set_sessions].
  rewrite omap_app, head_app_fresh.
  - cbn. rewrite bool_decide_eq_true_2 by done. cbn [andb]. rewrite (expiry _ _ _ Ht).
    case_bool_decide; [by destruct (AuthStore.active_owner _ _) | done].
  - intros s Hs. rewrite bool_decide_eq_false_2; [done |].
    intros E. apply Hnew. rewrite <- E. by apply elem_of_key.
Qed.

Lemma deleted_session_resolves h now db :
  AuthStore.resolve_session h now (AuthStore.delete_session h db) = None.
Proof.
  apply head_omap_None. intros s [Hs _]%list_elem_of_filter. by rewrite bool_decide_eq_false_2.
Qed.

Lemma deleted_session_other h h' now db :
  h' ≠ h → AuthStore.resolve_session h' now (AuthStore.delete_session h db) = AuthStore.resolve_session h' now db.
Proof.
  intros Hne. unfold AuthStore.resolve_session, AuthStore.delete_session. cbn [sessions set_sessions].
  induction (sessions db) as [| s l IH]; [done |]. rewrite filter_cons. case_decide as Hs; cbn.
  - destruct (if bool_decide _ && _ then _ else _); [done | exact IH].
  - destruct (decide (se_hash s = h)) as [E |]; [| by destruct Hs].
    rewrite bool_decide_eq_false_2 by congruence. exact IH.
Qed.

(** The life of a session.  A minted session resolves to its owner (when
    active) strictly before its expiry and to nobody from then on; revoking it
    ends it at any time; and neither step changes what any other session
    resolves to. *)
Theorem session_lifecycle p sid now (a a' : Auth) :
  create_session sha256 session_ttl p sid now a = (Ok sid, a') →
  let a'' := snd (revoke_session sha256 p sid a') in
  (∀ t, timely session_ttl now t →
     fst (verify_session sha256 sid t a')
     = Ok (if bool_decide (t < now + session_ttl) then active_principal (owner_id p) (auth_db a)
           else None))
  ∧ (∀ t, fst (verify_session sha256 sid t a'') = Ok None)
  ∧ (∀ other t, sha256 other ≠ sha256 sid →
       fst (verify_session sha256 other t a') = fst (verify_session sha256 other t a)
       ∧ fst (verify_session sha256 other t a'') = fst (verify_session sha256 other t a)).
Proof.
  intros Hc. cbv zeta. split_and!.
  { intros t Ht. unfold verify_session, mgets. cbn [fst]. f_equal.
    rewrite (created_session_resolves p sid now t a a' Hc Ht). unfold active_principal. by case_bool_decide. }
  { intros t. unfold verify_session, revoke_session, mgets, on_db, mmodify. cbn [fst snd auth_db].
    by rewrite deleted_session_resolves. }
  unfold create_session, on_db in Hc. unfold mbind' in Hc.
  unfold AuthStore.create_session in Hc. case_bool_decide as Hnew; [done |].
  injection Hc as <-.
  unfold verify_session, revoke_session, mgets, on_db, mmodify, AuthStore.resolve_session,
    AuthStore.delete_session. cbn [fst snd auth_db sessions set_sessions].
  intros other t Hne. split; (do 2 f_equal).
  - rewrite omap_app. cbn. rewrite bool_decide_eq_false_2 by congruence. cbn. by rewrite app_nil_r.
  - rewrite filter_app, filter_cons_False, filter_nil, app_nil_r by (cbn; congruence).
    rewrite filter_all; [done |]. intros s Hs Es. apply Hnew. cbn in Es. rewrite <- Es. by apply elem_of_key.
Qed.

(** ** Tokens *)

(** What a token row resolves to. *)
Definition token_identity (h now : string) (db : AuthDb) (t : TokenRow) : option ResolvedIdentity :=
  if bool_decide (tk_hash t = h) && bool_decide (tk_state t = "active") && str_ltb now (tk_expires_at t)
  then AuthStore.active_owner (tk_owner t) db else None.

(** the life of a bearer token.  A minted token resolves to its owner
    strictly before its expiry; its owner revokes it by its id, and then it
    never resolves again; nobody else's revocation touches it. *)
Theorem token_lifecycle p token id now (a a' : Auth) it :
  create_token sha256 token_ttl p token id now a = (Ok it, a') →
  (∀ t, timely token_ttl now t →
     fst (verify_bearer sha256 token t a')
     = Ok (if bool_decide (t < now + token_ttl) then active_principal (owner_id p) (auth_db a)
           else None))
  ∧ (∀ t, fst (verify_bearer sha256 token t (snd (revoke_token p id a'))) = Ok None)
  ∧ (∀ q id' t, owner_id q ≠ owner_id p →
       fst (verify_bearer sha256 token t (snd (revoke_token q id' a')))
       = fst (verify_bearer sha256 token t a')).
Proof.
  intros Hc. unfold create_token, on_db in Hc. unfold mbind' in Hc.
  unfold AuthStore.create_token in Hc. case_bool_decide as Hnew; [done |]. injection Hc as _ <-.
  assert (Hold : ∀ t, t ∈ tokens (auth_db a) → tk_hash t ≠ sha256 token)
    by (intros t Ht E; apply Hnew; rewrite <- E; by apply elem_of_key).
  set (row := {| tk_hash := sha256 token; tk_id := id |}).
  assert (Hres : ∀ (f : TokenRow → TokenRow) h now' db, (∀ t, tk_hash (f t) = tk_hash t) →
    h = sha256 token → db = auth_db a →
    AuthStore.resolve_token h now' (set_tokens (f <$> (tokens db ++ [row])%list) db)
    = token_identity h now' db (f row)).
  { intros f h now' db Hh -> ->. unfold AuthStore.resolve_token. cbn [tokens set_tokens].
    rewrite fmap_app, omap_app, head_app_fresh.
    - cbn [fmap list_fmap omap list_omap]. unfold token_identity.
      destruct (_ && _ && _); [| done]. by destruct (AuthStore.active_owner _ _).
    - intros t (t0 & -> & Ht0)%list_elem_of_fmap.
      rewrite bool_decide_eq_false_2; [done |]. rewrite Hh. by apply Hold. }
  unfold verify_bearer, revoke_token, mgets, on_db, mmodify, AuthStore.revoke_token.
  cbn [fst snd auth_db tokens set_tokens]. split_and!.
  - intros t Ht. f_equal. pose proof (Hres (λ t, t) (sha256 token) (isoformat t) _ (λ _, eq_refl) eq_refl eq_refl) as Hr.
    rewrite list_fmap_id in Hr. rewrite Hr. unfold token_identity, active_principal. cbn.
    rewrite bool_decide_eq_true_2 by done. cbn [andb]. rewrite (expiry _ _ _ Ht), (bool_decide_eq_true_2 ("active" = "active")) by done.
    cbn [andb]. by case_bool_decide.
  - intros t. f_equal. apply fmap_None.
    etrans; [refine (Hres (λ t, if bool_decide (tk_owner t = owner_id p ∧ tk_id t = id)
      then AuthStore.disable t else t) _ _ (auth_db a) _ eq_refl eq_refl); intros t'; by case_bool_decide |].
    cbv beta. rewrite bool_decide_eq_true_2 by done. unfold token_identity. cbn.
    by rewrite bool_decide_eq_true_2.
  - intros q id' t Hq. do 2 f_equal.
    etrans; [refine (Hres (λ t, if bool_decide (tk_owner t = owner_id q ∧ tk_id t = id')
      then AuthStore.disable t else t) _ _ (auth_db a) _ eq_refl eq_refl); intros t'; by case_bool_decide |].
    cbv beta. rewrite bool_decide_eq_false_2 by (intros [E _]; by apply Hq).
    pose proof (Hres (λ t, t) (sha256 token) (isoformat t) _ (λ _, eq_refl) eq_refl eq_refl) as Hr.
    rewrite list_fmap_id in Hr. by rewrite Hr.
Qed.

(** Cutting off an account.  [revoke_all] is refused, with nothing
    changed, to a non-admin acting on somebody else; otherwise no session and
    no token resolves to the target any more, and the sessions and tokens of
    the others are untouched. *)
Theorem revoke_all_spec p target (a : Auth) :
  match revoke_all p target a with
  | (Raise e, a') =>
      exn_class e = PermissionError ∧ a' = a ∧ target ≠ owner_id p ∧ is_admin p = false
  | (Ok _, a') =>
      (target = owner_id p ∨ is_admin p = true)
      ∧ (∀ secret t q,
           fst (verify_session sha256 secret t a') = Ok (Some q)
           ∨ fst (verify_bearer sha256 secret t a') = Ok (Some q) → owner_id q ≠ target)
      ∧ filter (λ s, se_owner s ≠ target) (sessions (auth_db a'))
        = filter (λ s, se_owner s ≠ target) (sessions (auth_db a))
      ∧ filter (λ t, tk_owner t ≠ target) (tokens (auth_db a'))
        = filter (λ t, tk_owner t ≠ target) (tokens (auth_db a))
      ∧ cfg (auth_db a') = cfg (auth_db a)
  end.
Proof.
  unfold revoke_all. destruct (negb _ && negb (is_admin p)) eqn:E; cbn.
  { apply andb_true_iff in E as [E1 E2]. apply negb_true_iff in E1, E2. bool_prop. by split_and!. }
  apply andb_false_iff in E. split_and!; [| | | | done].
  - destruct E as [E | E]; apply negb_false_iff in E; [left | by right]. by apply bool_decide_eq_true in E.
  - intros secret t q [H | H]; injection H as H; apply fmap_Some in H as (i & H & ->);
      apply head_omap_Some in H as (x & Hx & H); case_match eqn:Em; try done;
      apply active_owner_row in H as (r & _ & _ & Ho & Hid & _); cbn; rewrite Hid, Ho.
    + by apply list_elem_of_filter in Hx as [Hx _].
    + apply list_elem_of_fmap in Hx as (x0 & -> & _). case_bool_decide as Ht; [| done].
      revert Em. cbn. by rewrite (bool_decide_eq_false_2 ("disabled" = "active")), andb_false_r by done.
  - rewrite filter_filter'. apply filter_ext. tauto.
  - apply filter_update_other. intros x _ Hx%bool_decide_eq_true. cbn. by split; intros [].
Qed.

(** C37: the login rate limit, while it is on.  In any serialisation of the write
    transactions of all attempts and of the resets that right passwords make,
    from any table, an identifier is let through at most as often as its row
    still allows and [max_attempts] times more for each time the table forgets
    it: when it logged in, when its window has passed, or when its row is the
    oldest of a full table.  Within one window, with room for all identifiers,
    nothing but its own logins makes the table forget it.  And a refused attempt
    costs no Argon2 verification and answers no principal, whatever the
    password. *)
Theorem login_rate_limit k (events : list login_event) (db : AuthDb) :
  0 < m → NoDup (at_key <$> attempts db) →
  tally W m cap (lets_through W m cap k) events db
    <= match AuthStore.find_attempt k (attempts db) with Some r => Z.max 0 (m - at_count r) | None => m end
       + m * tally W m cap (forgets W m cap k) events db
  ∧ (∀ t0, Z.of_nat (length (remove_dups ((at_key <$> attempts db) ++ (event_key <$> events)))) <= cap →
      (∀ r, r ∈ attempts db → at_key r = k → t0 <= at_start r) →
      (∀ key now, Reserved key now ∈ events → t0 <= now < t0 + W) →
      tally W m cap (forgets W m cap k) events db
        <= Z.of_nat (length (filter (λ e, e = Succeeded k) events)))
  ∧ ∀ identifier password now (a : Auth) d,
      fst (AuthStore.reserve_login_attempt W m cap (login_key identifier) now (auth_db a)) = Some d →
      check_and_authenticate ph_verify dummy_hash W m cap identifier password now a
      = (Ok (None, Some d),
         mkAuth (snd (AuthStore.reserve_login_attempt W m cap (login_key identifier) now (auth_db a)))
           (argon2_calls a)).
Proof.
  intros Hm Hnd. split; [by apply tally_budget |]. split.
  - intros t0 Hcap Hst Hev. apply (tally_forgets W m cap k t0
      (remove_dups ((at_key <$> attempts db) ++ (event_key <$> events)))); [apply NoDup_remove_dups | done | |].
    + split; [done | | done]. intros x Hx. apply elem_of_remove_dups, elem_of_app. by left.
    + intros e He. split; [| intros key now ->; by eapply Hev].
      apply elem_of_remove_dups, elem_of_app. right. by apply list_elem_of_fmap_2.
  - intros identifier password now a d Hd. unfold check_and_authenticate, on_db.
    destruct (AuthStore.reserve_login_attempt _ _ _ _ _ _) as [r db'] eqn:E. cbn in Hd. subst r.
    rewrite (mbind_ok _ _ a (Some d) (mkAuth db' (argon2_calls a))); [done |]. by rewrite E.
Qed.

(** ** Profile *)

Lemma with_email_same_owner (r : OwnerRow) email :
  o_id (AuthStore.with_email email r) = o_id r.
Proof. done. Qed.

(** a profile e-mail keeps logins unambiguous.  [set_email] either stores
    a well-formed address (or clears it) in the caller's own row and in no
    other, keeping all ids, names and e-mails unique, or changes nothing:
    ValueError for a malformed address, EmailAlreadyTakenError when somebody
    else has it. *)
Theorem set_email_spec p email (a : Auth) :
  unique_identities (cfg (auth_db a)) →
  match set_email p email a with
  | (Ok _, a') =>
      unique_identities (cfg (auth_db a'))
      ∧ (∀ e, email = Some e → email_ok e = true)
      ∧ (owner_id p ∈ o_id <$> auth_owners (auth_db a) →
           AuthStore.get_email (owner_id p) (auth_db a') = email)
      ∧ (∀ r, o_id r ≠ owner_id p →
           r ∈ auth_owners (auth_db a') ↔ r ∈ auth_owners (auth_db a))
  | (Raise e, a') =>
      a' = a ∧ ((exn_class e = ValueError ∧ ∃ x, email = Some x ∧ email_ok x = false)
                ∨ (exn_class e = EmailAlreadyTakenError
                   ∧ ∃ r, r ∈ auth_owners (auth_db a) ∧ o_id r ≠ owner_id p ∧ o_email r = email))
  end.
Proof.
  intros Hu. unfold set_email. destruct (match email with Some e => _ | None => _ end) eqn:Em.
  { destruct email as [e |]; [| done]. apply negb_true_iff in Em. cbn. eauto 10. }
  unfold on_db, AuthStore.set_email. case_bool_decide as Hc.
  { destruct Hc as (_ & _ & (r & Hr & Hne & He)%Exists_exists). destruct a as [db n]. cbn.
    split; [done | right; eauto]. }
  set (up := λ r, if bool_decide (o_id r = owner_id p) then AuthStore.with_email email r else r).
  destruct a as [db n]. cbn [auth_db cfg set_cfg].
  assert (Hid : ∀ r, o_id (up r) = o_id r) by (intros r; unfold up; by case_bool_decide).
  split_and!.
  - by apply set_email_unique.
  - intros e ->. by apply negb_false_iff.
  - intros (r & Er & Hr)%list_elem_of_fmap. unfold AuthStore.get_email, auth_owners.
    cbn [cfg set_cfg set_owners owners]. rewrite (head_filter_key o_id _ (up r) (owner_id p)).
    + cbn. unfold up. by rewrite bool_decide_eq_true_2.
    + rewrite <- list_fmap_compose, (list_fmap_ext (o_id ∘ up) o_id) by (intros; apply Hid). apply Hu.
    + by apply list_elem_of_fmap_2.
    + by rewrite Hid.
  - intros r Hne. unfold auth_owners. cbn [cfg set_cfg set_owners owners]. split.
    + intros (x & -> & Hx)%list_elem_of_fmap. rewrite Hid in Hne.
      unfold up. by rewrite bool_decide_eq_false_2.
    + intros Hr. apply list_elem_of_fmap. exists r. split; [| done].
      unfold up. by rewrite bool_decide_eq_false_2.
Qed.
End Service.

(** ** E-mail addresses *)

Lemma label_char_free c : label_char c = true → c ≠ "@"%char ∧ c ≠ "."%char.
Proof. intros H. split; intros ->; discriminate. Qed.

Lemma label_ok_free s c : label_ok s = true → c ∈ s → c ≠ "@"%char ∧ c ≠ "."%char.
Proof.
  unfold label_ok. intros [_ H]%andb_prop Hc. apply label_char_free.
  rewrite forallb_forall in H. by apply H, list_elem_of_In.
Qed.

Lemma local_free s : forallb local_char s = true → "@"%char ∉ s.
Proof. rewrite forallb_forall. intros H Hin. apply list_elem_of_In in Hin. by apply H in Hin. Qed.

Lemma join_labels_free l : forallb label_ok l = true → "@"%char ∉ join_fields "."%char l.
Proof.
  induction l as [| f l IH]; [set_solver |]. cbn [forallb]. intros [Hf Hl]%andb_prop.
  destruct (decide (l = [])) as [-> | Hne].
  - cbn. intros Hin. by destruct (label_ok_free _ _ Hf Hin).
  - rewrite join_fields_cons by done. intros [Hin | [Hin | Hin]%elem_of_cons]%elem_of_app.
    + by destruct (label_ok_free _ _ Hf Hin).
    + done.
    + by apply IH.
Qed.

Lemma alpha_not_digit c : is_alpha c = true → dec_digit c = None.
Proof.
  unfold is_alpha, is_upper, is_lower, dec_digit, is_digit. intros H.
  destruct (_ && _) eqn:E in |- *; [| done]. bool_prop. destruct H; bool_prop; lia.
Qed.

(** The parts of an accepted address. *)
Lemma email_ok_parts email :
  email_ok email = true →
  ∃ local labels tld,
     chars email = (local ++ "@"%char :: join_fields "."%char (labels ++ [tld]))%list
     ∧ local ≠ [] ∧ forallb local_char local = true
     ∧ labels ≠ [] ∧ forallb label_ok (labels ++ [tld]) = true
     ∧ ∃ c rest, tld = c :: rest ∧ is_alpha c = true.
Proof.
  unfold email_ok. intros H.
  destruct (fields_of "@"%char (chars email)) as [| local [| domain [|]]] eqn:Ef; try done.
  bool_prop. destruct (reverse (fields_of "."%char domain)) as [| tld rest] eqn:Er; [done |].
  bool_prop. assert (Ed : fields_of "."%char domain = (reverse rest ++ [tld])%list).
  { rewrite <- (reverse_involutive (fields_of _ _)), Er. by rewrite reverse_cons. }
  exists local, (reverse rest), tld. split_and!.
  - rewrite <- Ed, join_fields_of. by rewrite <- (join_fields_of "@"%char (chars email)), Ef.
  - done.
  - done.
  - intros Hr. apply (f_equal reverse) in Hr. by rewrite reverse_involutive in Hr.
  - apply forallb_forall. intros f Hf%list_elem_of_In.
    assert (Hall : ∀ g, g ∈ rest → label_ok g = true)
      by (intros g Hg%list_elem_of_In; match goal with H : forallb label_ok rest = true |- _ =>
            rewrite forallb_forall in H; by apply H end).
    apply elem_of_app in Hf as [Hf | ->%list_elem_of_singleton]; [| done].
    apply Hall. by apply elem_of_reverse.
  - destruct tld as [| c t]; [done | eauto].
Qed.

Lemma email_fields email local labels tld :
  chars email = (local ++ "@"%char :: join_fields "."%char (labels ++ [tld]))%list →
  forallb local_char local = true → forallb label_ok (labels ++ [tld]) = true →
  fields_of "@"%char (chars email) = [local; join_fields "."%char (labels ++ [tld])]
  ∧ fields_of "."%char (join_fields "."%char (labels ++ [tld])) = (labels ++ [tld])%list.
Proof.
  intros E Hlc Hlab. split.
  - rewrite E, fields_of_sep, (fields_of_free _ local) by (by apply local_free).
    by rewrite fields_of_free by (by apply join_labels_free).
  - apply fields_of_join; [by destruct labels |]. apply Forall_forall. intros f Hin Hdot.
    rewrite forallb_forall in Hlab.
    destruct (label_ok_free f "."%char) as [_ Hx]; [apply Hlab; by apply list_elem_of_In | done | done].
Qed.

(** what an accepted e-mail address is.  One "@"; a non-empty local part
    without white space or the characters that structure an address header;
    a domain of at least two non-empty labels of letters, digits and hyphens,
    the last one starting with a letter -- so never an IPv4 literal. *)
Theorem email_ok_spec (email : string) :
  (email_ok email = true ↔
   ∃ local labels tld,
     chars email = (local ++ "@"%char :: join_fields "."%char (labels ++ [tld]))%list
     ∧ local ≠ [] ∧ forallb local_char local = true
     ∧ labels ≠ [] ∧ forallb label_ok (labels ++ [tld]) = true
     ∧ ∃ c rest, tld = c :: rest ∧ is_alpha c = true)
  ∧ (email_ok email = true →
     ∀ local domain, chars email = (local ++ "@"%char :: domain)%list → parse_v4 domain = None).
Proof.
  split; [split; [apply email_ok_parts |] |].
  - intros (local & labels & tld & E & Hl & Hlc & Hne & Hlab & c & rest & -> & Hc).
    destruct (email_fields email local labels (c :: rest) E Hlc Hlab) as [Ha Hf].
    unfold email_ok. rewrite Ha, Hf, reverse_snoc.
    rewrite forallb_app in Hlab. apply andb_prop in Hlab as [Hlab Htld]. cbn [forallb] in Htld.
    rewrite (bool_decide_eq_false_2 (local = [])), Hlc by done. cbn [negb andb].
    rewrite Hc, (bool_decide_eq_false_2 (reverse labels = [])).
    2: { intros Hr. apply Hne, (inj reverse). done. }
    apply andb_prop in Htld as [Htld _]. rewrite Htld, !andb_true_r. cbn [negb andb].
    apply forallb_forall. intros f Hin%list_elem_of_In. rewrite elem_of_reverse in Hin.
    rewrite forallb_forall in Hlab. by apply Hlab, list_elem_of_In.
  - intros H local domain E.
    apply email_ok_parts in H as (local' & labels & tld & E' & _ & Hlc & _ & Hlab & c & rest & -> & Hc).
    destruct (email_fields email local' labels (c :: rest) E' Hlc Hlab) as [Ha Hf].
    rewrite E, fields_of_sep in Ha.
    pose proof (fields_of_ne "@"%char local). pose proof (fields_of_ne "@"%char domain) as Hd.
    destruct (fields_of "@"%char local) as [| f1 [| f2 fs]]; [done | |].
    2: { destruct fs as [| f3 fs], (fields_of "@"%char domain); done. }
    injection Ha as _ Ha. rewrite <- (join_fields_of "@"%char domain), Ha. cbn [join_fields].
    destruct (parse_v4 _) as [n |] eqn:Ep; [exfalso | done].
    apply parse_v4_inv in Ep as (? & ? & ? & ? & Hoct & _). rewrite Hf in Hoct.
    apply Forall_app in Hoct as [_ Hoct]. apply Forall_singleton in Hoct as [k Hk].
    unfold octet in Hk. do 2 (case_match; [done |]).
    rewrite (number_bad _ _ c) in Hk; [done | left | by apply alpha_not_digit].
Qed.

(** * A concrete account *)

Module AuthDemo.
Definition ana_row : OwnerRow :=
  {| o_id := "1"; o_name := "ana"; o_email := Some "ana@x.br"; o_role := "user";
     o_state := "active"; o_password_hash := Some "$argon2id$s3cret"; o_created_at := None |}.

Definition db : AuthDb :=
  {| cfg := set_owners [ana_row] empty_config_db; sessions := []; tokens := []; attempts := [] |}.

Definition state : Auth := mkAuth db 0.
Definition ana : Principal := {| owner_id := "1"; role := "user" |}.

(** Stand-ins for sha256 and Argon2. *)
Definition sha (s : string) : string := "#" +:+ s.
Definition argon (h p : string) : result unit :=
  if bool_decide (h = "$argon2id$" +:+ p) then Ok tt
  else raise (OtherException "VerifyMismatchError") "mismatch".

Definition t0 : Z := 10 ^ 16.
Definition ttl : Z := 14 * US_PER_DAY.

Lemma unique : unique_identities (cfg db).
Proof. repeat split; repeat constructor; set_solver. Qed.

Lemma argon_errors h p e : argon h p = Raise e → argon2_error e = true.
Proof. unfold argon. case_bool_decide; by intros [= <-]. Qed.

Definition logged_in : Auth := snd (create_session sha ttl ana "sid" t0 state).
Definition with_token : Auth := snd (create_token sha ttl ana "tok" "t1" t0 state).

Lemma timely_now : timely ttl t0 t0.
Proof. split_and!; by vm_compute. Qed.
End AuthDemo.

Lemma authenticate_uniform_witness :
  authenticate AuthDemo.argon "dummy" "ana@x.br" "s3cret" AuthDemo.state
  = (Ok (Some AuthDemo.ana), mkAuth AuthDemo.db 1).
Proof.
  destruct (authenticate_uniform AuthDemo.argon "dummy" "ana@x.br" "s3cret" AuthDemo.state
    (AuthDemo.argon_errors "dummy") AuthDemo.unique) as (r & Hr & Hp & _).
  rewrite Hr. f_equal. apply Hp. exists AuthDemo.ana_row, "$argon2id$s3cret".
  split; [| split; reflexivity]. split; [left |]. split; [reflexivity |]. split; [right; split; [reflexivity |] | reflexivity].
  intros row' Hin%list_elem_of_singleton _. subst row'. discriminate.
Defined.

(** A stored hash argon2 cannot read: [InvalidHashError] is a [ValueError], none
    of the errors that are caught, and the login of that owner raises, unlike
    that of an unknown one. *)
Lemma unreadable_hash_raises (ph_verify : string → string → result unit) dummy password :
  ph_verify "$argon2id$s3cret" password = raise ValueError "Invalid hash" →
  ph_verify dummy password = raise (OtherException "VerifyMismatchError") "mismatch" →
  fst (authenticate ph_verify dummy "ana" password AuthDemo.state) = raise ValueError "Invalid hash"
  ∧ fst (authenticate ph_verify dummy "nobody" password AuthDemo.state) = Ok None.
Proof.
  intros E E'.
  assert (El : AuthStore.lookup_active_credentials "ana" AuthDemo.db = Some (AuthStore.credentials_of AuthDemo.ana_row))
    by (vm_compute; reflexivity).
  assert (En : AuthStore.lookup_active_credentials "nobody" AuthDemo.db = None) by (vm_compute; reflexivity).
  split; unfold authenticate, dummy_verify, verify, mbind', mgets; change (auth_db AuthDemo.state) with AuthDemo.db.
  - rewrite El. cbn [AuthStore.credentials_of oc_password_hash AuthDemo.ana_row o_password_hash]. by rewrite E.
  - rewrite En. by rewrite E'.
Qed.

Lemma resolved_identity_is_active_witness :
  ∃ row, row ∈ auth_owners (auth_db AuthDemo.logged_in) ∧ is_active row ∧ o_id row = "1".
Proof.
  destruct (resolved_identity_is_active AuthDemo.sha AuthDemo.logged_in "sid" AuthDemo.t0 AuthDemo.ana)
    as (row & Hr & Ha & Hid & _).
  - left. vm_compute. reflexivity.
  - exists row. split; [exact Hr | split; [exact Ha | symmetry; exact Hid]].
Defined.

Lemma session_lifecycle_witness :
  fst (verify_session AuthDemo.sha "sid" AuthDemo.t0 AuthDemo.logged_in) = Ok (Some AuthDemo.ana)
  ∧ fst (verify_session AuthDemo.sha "sid" AuthDemo.t0
      (snd (revoke_session AuthDemo.sha AuthDemo.ana "sid" AuthDemo.logged_in))) = Ok None.
Proof.
  destruct (session_lifecycle AuthDemo.sha AuthDemo.ttl AuthDemo.ana "sid" AuthDemo.t0
    AuthDemo.state AuthDemo.logged_in) as (Hlive & Hdead & _); [vm_compute; reflexivity |].
  split; [| apply Hdead]. rewrite (Hlive AuthDemo.t0 AuthDemo.timely_now). reflexivity.
Defined.

Lemma token_lifecycle_witness :
  fst (verify_bearer AuthDemo.sha "tok" AuthDemo.t0 AuthDemo.with_token) = Ok (Some AuthDemo.ana)
  ∧ fst (verify_bearer AuthDemo.sha "tok" AuthDemo.t0
      (snd (revoke_token AuthDemo.ana "t1" AuthDemo.with_token))) = Ok None.
Proof.
  destruct (token_lifecycle AuthDemo.sha AuthDemo.ttl AuthDemo.ana "tok" "t1" AuthDemo.t0
    AuthDemo.state AuthDemo.with_token {| it_token_id := "t1"; it_token := "tok" |})
    as (Hlive & Hdead & _); [vm_compute; reflexivity |].
  split; [| apply Hdead]. rewrite (Hlive AuthDemo.t0 AuthDemo.timely_now). reflexivity.
Defined.

Lemma set_email_spec_witness :
  unique_identities (cfg AuthDemo.db)
  ∧ AuthStore.get_email "1" (auth_db (snd (set_email AuthDemo.ana (Some "a@y.br") AuthDemo.state)))
    = Some "a@y.br".
Proof.
  split; [exact AuthDemo.unique |].
  pose proof (set_email_spec AuthDemo.ana (Some "a@y.br") AuthDemo.state AuthDemo.unique) as H.
  assert (fst (set_email AuthDemo.ana (Some "a@y.br") AuthDemo.state) = Ok tt) as E
    by (vm_compute; reflexivity).
  destruct (set_email AuthDemo.ana (Some "a@y.br") AuthDemo.state) as [r a']. cbn [fst snd] in *.
  subst r. destruct H as (_ & _ & H & _). apply H. left.
Defined.

Definition guesses : list login_event :=
  [Reserved "ana" 0; Reserved "bia" 5; Reserved "ana" 10; Reserved "ana" 20; Succeeded "ana"; Reserved "ana" 30].

(** Two attempts, a third refused, a login and one more. *)
Lemma login_rate_limit_witness :
  tally 900 2 100 (lets_through 900 2 100 "ana") guesses AuthDemo.db = 3
  ∧ tally 900 2 100 (lets_through 900 2 100 "ana") guesses AuthDemo.db
    <= 2 + 2 * tally 900 2 100 (forgets 900 2 100 "ana") guesses AuthDemo.db
  ∧ tally 900 2 100 (forgets 900 2 100 "ana") guesses AuthDemo.db <= 1.
Proof.
  split; [vm_compute; reflexivity |].
  destruct (login_rate_limit AuthDemo.argon "dummy" 900 2 100 "ana" guesses AuthDemo.db) as (H1 & H2 & _);
    [lia | constructor |].
  split; [exact H1 |]. apply (H2 0).
  - vm_compute. discriminate.
  - intros r Hr. apply elem_of_nil in Hr. destruct Hr.
  - intros key now Hin. apply list_elem_of_In in Hin. cbn in Hin.
    repeat (destruct Hin as [Hin | Hin]; [first [discriminate Hin | injection Hin as <- <-; lia] |]). destruct Hin.
Defined.
