(* ===== verification/Egress.v ===== *)
(** The egress proxy of the browser tiers ([autolycos/egress_proxy.py]): one
    CONNECT request, from the bytes read on the loopback socket to the dialled
    upstream, and the anti-bot heuristics ([autolycos/challenge.py]).

    A handler thread serves one client and shares no state with the others, so
    a request is a function of what its socket delivers and of the
    collaborators: [recv] lists the chunks (or the error) the socket gives,
    then end of file; [getaddrinfo] and the dialer are arguments; two booleans
    tell whether the peers still take the bytes written to them.  What the
    handler does is the list of its [action]s.  Bytes are characters, and
    latin-1 decoding keeps their codes. *)

From S2P Require Import Prelude Registry Safety.

(** * Constants *)

Definition CONNECT_OK : string := "HTTP/1.1 200 Connection established".
Definition BLOCKED : string := "HTTP/1.1 403 Forbidden".
Definition BAD : string := "HTTP/1.1 400 Bad Request".

Definition ALLOWED_CONNECT_PORTS : list Z := [80; 443].
Definition MAX_HEADER_BYTES : Z := 64 * 1024.

Definition DANGEROUS_BROWSER_ARGS : list string :=
  ["--proxy-server"; "--proxy-pac-url"; "--proxy-bypass-list"; "--host-resolver-rules";
   "--ignore-certificate-errors"; "--allow-insecure-localhost"].

Definition strip_dangerous_browser_args (args : list string) : list string :=
  filter (λ a, existsb (λ bad, bool_decide (chars bad `prefix_of` chars a))
                 DANGEROUS_BROWSER_ARGS = false) args.

Definition is_loopback_host (host : string) : bool :=
  match ip_address host with Ok a => is_loopback a | Raise _ => false end.

(** * Reading the request *)

Definition CRLF : list ascii := ["013"; "010"]%char.
Definition END_OF_HEAD : list ascii := (CRLF ++ CRLF)%list.

(** [b.partition(sep)]: what comes before and after the first [sep], if any. *)
Fixpoint split_on (sep s : list ascii) : option (list ascii * list ascii) :=
  if bool_decide (sep `prefix_of` s) then Some ([], drop (length sep) s)
  else match s with
       | [] => None
       | c :: s' => '(a, b) ← split_on sep s'; Some (c :: a, b)
       end.

(** [_read_head]; the end of [recv] is the peer closing. *)
Fixpoint read_head (buf : list ascii) (recv : list (result (list ascii)))
    : result (list ascii * list ascii) :=
  match split_on END_OF_HEAD buf with
  | Some (head, leftover) => Ok (head, leftover)
  | None =>
      if MAX_HEADER_BYTES <? Z.of_nat (length buf) then Ok ([], [])
      else match recv with
           | [] => Ok ([], [])
           | Raise e :: _ => Raise e
           | Ok [] :: _ => Ok ([], [])
           | Ok chunk :: rest => read_head (buf ++ chunk) rest
           end
  end.

(** The white space of [bytes.split()]. *)
Definition bytes_space (c : ascii) : bool :=
  bool_decide (c ∈ [" "; "009"; "010"; "011"; "012"; "013"]%char).

Fixpoint split_bytes (s cur : list ascii) : list (list ascii) :=
  match s with
  | [] => match cur with [] => [] | _ => [reverse cur] end
  | c :: s' =>
      if bytes_space c then
        match cur with [] => split_bytes s' [] | _ => reverse cur :: split_bytes s' [] end
      else split_bytes s' (c :: cur)
  end.

Definition upper_char (c : ascii) : ascii :=
  if is_lower c then ascii_of_N (Z.to_N (code c - 32)) else c.

(** [str.isdigit()] on latin-1 text: the superscripts are digits. *)
Definition latin1_digit (c : ascii) : bool :=
  is_digit c || bool_decide (code c ∈ [178; 179; 185]).

(** [str.lower()] on latin-1 text. *)
Definition latin1_lower (c : ascii) : ascii :=
  if (192 <=? code c) && (code c <=? 222) && negb (code c =? 215)
  then ascii_of_N (Z.to_N (code c + 32)) else lower_char c.

(** [int(s)]: decimal digits only, and no more than CPython's limit. *)
Definition int_of (s : list ascii) : result Z :=
  match number 10 dec_digit s with
  | Some n => if 4300 <? Z.of_nat (length s) then raise ValueError "Exceeds the limit" else Ok n
  | None => raise ValueError "invalid literal for int() with base 10"
  end.

(** [_parse_authority]; [None] is [(None, None)]. *)
Definition parse_authority (target : list ascii) : result (option (list ascii * Z)) :=
  let '(port_r, found, host_r) := partition ":"%char (reverse target) in
  let host := if (found : bool) then reverse host_r else [] in
  let port_s := reverse port_r in
  if bool_decide (host = []) || bool_decide (port_s = []) || negb (forallb latin1_digit port_s)
  then Ok None
  else
    let host := match host with
                | "["%char :: h =>
                    match reverse h with "]"%char :: h' => reverse h' | _ => host end
                | _ => host
                end in
    let? port := int_of port_s in
    Ok (Some (host, port)).

(** * One client *)

Inductive action :=
| Replied (status : string)
| Resolved (host : string) (port : Z)
| Dialed (ip : string) (port : Z)
| Forwarded (leftover : list ascii)
| Spliced
| UpstreamClosed
| ClientClosed.

#[export] Instance action_eq_dec : EqDecision action.
Proof. solve_decision. Defined.

Section Proxy.
Variable domain_allowed : string → bool.
Variable getaddrinfo : Resolver.
Variable dialer : string → Z → result unit.
Variable client_writable upstream_writable : bool.

(** What the handler does before closing the client, and the exception that
    ends it, if any. *)
Definition tunnel (leftover : list ascii) (addr : string) (port : Z)
    : list action * option exn :=
  match dialer addr port with
  | Raise e =>
      if is_a e.(exn_class) OSError then ([Dialed addr port; Replied BLOCKED], None)
      else ([Dialed addr port], Some e)
  | Ok _ =>
      let broken := Some (Exn OSError "broken pipe") in
      let '(acts, e) :=
        if negb client_writable then ([], broken)
        else if bool_decide (leftover = []) then ([Replied CONNECT_OK; Spliced], None)
        else if negb upstream_writable then ([Replied CONNECT_OK], broken)
        else ([Replied CONNECT_OK; Forwarded leftover; Spliced], None) in
      (Dialed addr port :: acts ++ [UpstreamClosed], e)
  end.

Definition connect (leftover : list ascii) (host : list ascii) (port : Z)
    : list action * option exn :=
  let domain := of_chars (rstrip_dot (latin1_lower <$> host)) in
  if negb (domain_allowed domain) then ([Replied BLOCKED], None)
  else if negb (bool_decide (port ∈ ALLOWED_CONNECT_PORTS)) then ([Replied BLOCKED], None)
  else
    let '(acts, e) :=
      match resolve_and_pin getaddrinfo domain port with
      | Ok pin => tunnel leftover pin.(pa_ip) port
      | Raise e =>
          if is_a e.(exn_class) SSRFError || is_a e.(exn_class) FetchError
             || is_a e.(exn_class) ValueError
          then ([Replied BLOCKED], None) else ([], Some e)
      end in
    (Resolved domain port :: acts, e).

Definition request (head leftover : list ascii) : list action * option exn :=
  let request_line := match split_on CRLF head with Some (l, _) => l | None => head end in
  match split_bytes request_line [] with
  | verb :: authority :: _ :: _ =>
      if negb (bool_decide (upper_char <$> verb = chars "CONNECT")) then ([Replied BAD], None)
      else match parse_authority authority with
           | Raise e => ([], Some e)
           | Ok None => ([Replied BAD], None)
           | Ok (Some (host, port)) => connect leftover host port
           end
  | _ => ([Replied BAD], None)
  end.

(** [_handle]: the actions, the client closed last, and the exception that
    leaves the thread: an [OSError] does not. *)
Definition handle (recv : list (result (list ascii))) : list action * option exn :=
  let '(acts, e) :=
    match read_head [] recv with
    | Raise e => ([], Some e)
    | Ok ([], _) => ([], None)
    | Ok (head, leftover) => request head leftover
    end in
  (acts ++ [ClientClosed],
   match e with
   | Some e => if is_a e.(exn_class) OSError then None else Some e
   | None => None
   end).

(** One turn of [_serve] after [accept]. *)
Definition serve_client (peer : string) (recv : list (result (list ascii)))
    : list action * option exn :=
  if is_loopback_host peer then handle recv else ([ClientClosed], None).

End Proxy.

(** * Challenge heuristics *)

Definition CHALLENGE_MARKERS : list string :=
  ["just a moment"; "cf-chl-"; "_cf_chl_opt"; "attention required"; "px-captcha"; "datadome";
   "_incapsula_"; "sec-cpt"; "scf-akamai"; "sec-if-cpt"; "validatecaptcha";
   "captcha-wall-index"; "account-verification"; "micro-landing-container";
   "micro-landing-title"].
Definition MIN_PLAUSIBLE_BYTES : Z := 1500.

(** [marker in text]. *)
Definition contains (text marker : list ascii) : bool :=
  match split_on marker text with Some _ => true | None => false end.

Definition looks_challenged (status : Z) (text : string) : bool :=
  if bool_decide (status ∈ [403; 429; 503]) then true
  else if existsb (λ m, contains (lower (chars text)) (chars m)) CHALLENGE_MARKERS then true
  else Z.of_nat (length (chars text)) <? MIN_PLAUSIBLE_BYTES.

Definition CHROME_ERROR_PAGE_MARKER : list ascii :=
  ("034"%char :: chars "errorCode" ++ ["034"; ":"; "034"]%char ++ chars "ERR_")%list.

Definition looks_like_chrome_error_page (current_url : option string) (text : string) : bool :=
  match current_url with
  | Some u => if bool_decide (chars "chrome-error://" `prefix_of` chars u) then true
              else contains (chars text) CHROME_ERROR_PAGE_MARKER
  | None => contains (chars text) CHROME_ERROR_PAGE_MARKER
  end.

Example handle_ex :
  handle (domain_allowed ["kabum.com.br"]) demo_resolver (λ _ _, Ok tt) true true
    [Ok (chars "CONN"); Ok (chars "ECT KABUM.com.br.:443 HTTP/1.1" ++ CRLF)%list; Ok CRLF]
  = ([Resolved "kabum.com.br" 443; Dialed "8.8.8.8" 443; Replied CONNECT_OK; Spliced;
      UpstreamClosed; ClientClosed], None).
Proof. vm_compute. reflexivity. Qed.

(** * Lemmas on the request text *)

Lemma split_on_Some sep s a b : split_on sep s = Some (a, b) → s = (a ++ sep ++ b)%list.
Proof.
  revert a. induction s as [| c s IH]; intros a; cbn [split_on].
  - case_bool_decide as Hp; [| done]. intros [= <- <-].
    destruct Hp as [k Hk]. by destruct sep, k.
  - case_bool_decide as Hp.
    + intros [= <- <-]. destruct Hp as [k ->]. by rewrite drop_app_length.
    + destruct (split_on sep s) as [[a' b'] |]; [| done]. intros [= <- <-].
      by rewrite (IH a') at 1.
Qed.

Lemma split_on_prefix_of sep s t :
  sep `prefix_of` s → split_on sep (s ++ t) = Some ([], (drop (length sep) s ++ t)%list).
Proof.
  intros [k ->]. rewrite drop_app_length, <- app_assoc.
  destruct (sep ++ k ++ t)%list eqn:E; cbn [split_on].
  - destruct sep, k, t; try done.
  - rewrite <- E, bool_decide_eq_true_2 by by exists (k ++ t)%list.
    by rewrite drop_app_length.
Qed.

(** The first occurrence does not depend on what follows. *)
Lemma prefix_short {A} (p s t : list A) :
  (length p ≤ length s)%nat → p `prefix_of` s ++ t → p `prefix_of` s.
Proof.
  intros Hl Hp. destruct (prefix_weak_total p s (s ++ t)) as [H | H];
    [done | by apply prefix_app_r | done |].
  apply prefix_length_eq in H; [by subst | done].
Qed.

(** The first occurrence does not depend on what follows. *)
Lemma split_on_app sep s t a b :
  split_on sep s = Some (a, b) → split_on sep (s ++ t) = Some (a, (b ++ t)%list).
Proof.
  revert a. induction s as [| c s IH]; intros a; cbn [split_on app].
  - case_bool_decide as Hp; [| done]. intros [= <- <-]. by apply (split_on_prefix_of sep []).
  - case_bool_decide as Hp.
    + intros [= <- <-]. by apply (split_on_prefix_of sep (c :: s)).
    + destruct (split_on sep s) as [[a' b'] |] eqn:E; [| done]. intros [= <- <-].
      rewrite bool_decide_eq_false_2.
      * by rewrite (IH a' eq_refl).
      * intros Hp'. apply Hp, (prefix_short _ (c :: s) t); [| done].
        apply split_on_Some in E as ->. cbn. rewrite !length_app. lia.
Qed.

Lemma split_on_complete sep a b : is_Some (split_on sep (a ++ sep ++ b)).
Proof.
  induction a as [| c a IH]; cbn [app split_on].
  - destruct (sep ++ b)%list eqn:E; cbn [split_on].
    + destruct sep, b; try done.
    + rewrite <- E, bool_decide_eq_true_2 by by apply prefix_app_r. eauto.
  - case_bool_decide; [eauto |]. destruct IH as [[x y] ->]. cbn. eauto.
Qed.

(** Before the separator is whole, it is not found. *)
Lemma split_on_later sep s t a b :
  split_on sep (s ++ t) = Some (a, b) →
  split_on sep s = Some (a, take (length s - length (a ++ sep)) b)
  ∨ split_on sep s = None ∧ (length s < length (a ++ sep))%nat.
Proof.
  intros H. destruct (split_on sep s) as [[a' b'] |] eqn:E.
  - left. apply (split_on_app _ _ t) in E as E'. rewrite H in E'. injection E' as -> ->.
    apply split_on_Some in E as ->. do 2 f_equal.
    rewrite app_assoc, (length_app (a' ++ sep)). replace (_ + _ - _)%nat with (length b') by lia.
    by rewrite take_app_length.
  - right. split; [done |]. apply split_on_Some in H.
    destruct (decide (length (a ++ sep) ≤ length s)%nat) as [Hl |]; [exfalso | lia].
    assert (Hp : (a ++ sep) `prefix_of` s).
    { apply (prefix_short _ _ t); [done |]. exists b. by rewrite H, <- app_assoc. }
    destruct Hp as [k ->]. destruct (split_on_complete sep a k) as [x Hx].
    by rewrite <- app_assoc, Hx in E.
Qed.

(** Reading ends with the head that was sent, however it was cut into
    chunks. *)
Lemma read_head_chunks (chunks : list (list ascii)) buf head rest :
  split_on END_OF_HEAD (buf ++ mjoin chunks) = Some (head, rest) →
  Forall (λ c, c ≠ []) chunks → Z.of_nat (length head) + 3 <= MAX_HEADER_BYTES →
  ∃ leftover, read_head buf (Ok <$> chunks) = Ok (head, leftover) ∧ leftover `prefix_of` rest.
Proof.
  intros Hs Hne Hlen. revert buf Hs. induction chunks as [| c chunks IH]; intros buf Hs.
  - cbn in Hs. rewrite app_nil_r in Hs. exists rest. cbn. by rewrite Hs.
  - apply Forall_cons in Hne as [Hc Hne].
    destruct (split_on_later _ _ _ _ _ Hs) as [E | [E Hl]]; cbn [read_head fmap list_fmap]; rewrite E.
    + eexists. split; [done |]. apply prefix_take.
    + rewrite length_app in Hl. change (length END_OF_HEAD) with 4%nat in Hl.
      assert (MAX_HEADER_BYTES <? Z.of_nat (length buf) = false) as -> by lia.
      destruct c as [| x c]; [done |]. apply IH; [done |]. by rewrite <- app_assoc.
Qed.

Lemma split_on_fresh c sep a b :
  c ∉ a → split_on (c :: sep) (a ++ (c :: sep) ++ b) = Some (a, b).
Proof.
  induction a as [| x a IH]; intros Ha; cbn [app split_on].
  - rewrite bool_decide_eq_true_2 by (by exists b). cbn. by rewrite drop_app_length.
  - rewrite bool_decide_eq_false_2.
    + cbn [app] in IH. rewrite IH by set_solver. done.
    + intros [k [= -> _]]. set_solver.
Qed.

Definition word (s : list ascii) : Prop := s ≠ [] ∧ Forall (λ c, bytes_space c = false) s.

Lemma split_bytes_word w cur s :
  Forall (λ c, bytes_space c = false) w →
  split_bytes (w ++ s) cur = split_bytes s (reverse w ++ cur).
Proof.
  revert cur. induction w as [| c w IH]; intros cur Hw; [done |].
  apply Forall_cons in Hw as [Hc Hw]. cbn [app split_bytes]. rewrite Hc, IH by done.
  by rewrite reverse_cons, <- app_assoc.
Qed.

Lemma split_bytes_cons w c s :
  word w → bytes_space c = true → split_bytes (w ++ c :: s) [] = w :: split_bytes s [].
Proof.
  intros [Hne Hw] Hc. rewrite split_bytes_word, app_nil_r by done. cbn [split_bytes]. rewrite Hc.
  destruct (reverse w) as [| x r] eqn:E.
  - apply (f_equal reverse) in E. by rewrite reverse_involutive in E.
  - by rewrite <- E, reverse_involutive.
Qed.

Lemma split_bytes_last w : word w → split_bytes w [] = [w].
Proof.
  intros [Hne Hw]. rewrite <- (app_nil_r w) at 1. rewrite split_bytes_word, app_nil_r by done.
  cbn [split_bytes]. destruct (reverse w) as [| x r] eqn:E.
  - apply (f_equal reverse) in E. by rewrite reverse_involutive in E.
  - by rewrite <- E, reverse_involutive.
Qed.

Lemma number_digits s n :
  number 10 dec_digit s = Some n → Forall (λ c, is_digit c = true) s.
Proof.
  intros H. apply Forall_forall. intros c Hc. destruct (is_digit c) eqn:E; [done |].
  rewrite (number_bad _ _ c) in H; [done | done |]. unfold dec_digit. by rewrite E.
Qed.

Lemma digit_word c : is_digit c = true → bytes_space c = false ∧ c ≠ ":"%char.
Proof. destruct c as [[] [] [] [] [] [] [] []]; vm_compute; done. Qed.

Lemma parse_authority_ok host pt n :
  host ≠ [] → head host ≠ Some "["%char → pt ≠ [] → Z.of_nat (length pt) <= 4300 →
  number 10 dec_digit pt = Some n →
  parse_authority (host ++ ":"%char :: pt) = Ok (Some (host, n)).
Proof.
  intros Hh Hb Hp Hl Hn. pose proof (number_digits _ _ Hn) as Hd. rewrite Forall_forall in Hd.
  unfold parse_authority. rewrite reverse_app, reverse_cons, <- app_assoc. cbn [app].
  rewrite partition_sep.
  2: { rewrite elem_of_reverse. intros Hc. by apply Hd, digit_word in Hc as []. }
  rewrite !reverse_involutive. rewrite !(bool_decide_eq_false_2 (_ = [])) by done.
  assert (forallb latin1_digit pt = true) as ->.
  { apply forallb_forall. intros c Hc%list_elem_of_In. unfold latin1_digit. by rewrite (Hd c Hc). }
  cbn [orb negb]. unfold int_of. rewrite Hn.
  assert (4300 <? Z.of_nat (length pt) = false) as -> by lia. cbn [rbind].
  destruct host as [| c host]; [done |]. cbn in Hb.
  destruct (decide (c = "["%char)) as [-> | Hne]; [done |].
  assert (match c with
    | "["%char => match reverse host with "]"%char :: h' => reverse h' | _ => c :: host end
    | _ => c :: host end = c :: host) as E; [| by rewrite E].
  destruct c as [[] [] [] [] [] [] [] []]; try done.
Qed.

Section Requests.
Context (allowed : string → bool) (getaddrinfo : Resolver) (dialer : string → Z → result unit).
Context (cw uw : bool).

(** the proxy serves what it was asked.  However the bytes of a request
    "CONNECT host:port HTTP/1.1" (with any headers, within the size limit)
    are cut into chunks, the handler decides on that host and that port, and
    closes the client last. *)
Theorem connect_request_served (host pt : list ascii) n (headers rest : list ascii) chunks :
  word host → head host ≠ Some "["%char → pt ≠ [] → Z.of_nat (length pt) <= 4300 →
  number 10 dec_digit pt = Some n →
  (headers = [] ∨ ∃ h, headers = (CRLF ++ h)%list) →
  let head := (chars "CONNECT " ++ host ++ ":"%char :: pt ++ chars " HTTP/1.1" ++ headers)%list in
  split_on END_OF_HEAD (mjoin chunks) = Some (head, rest) →
  Forall (λ c, c ≠ []) chunks → Z.of_nat (length head) + 3 <= MAX_HEADER_BYTES →
  ∃ leftover, leftover `prefix_of` rest
    ∧ fst (handle allowed getaddrinfo dialer cw uw (Ok <$> chunks))
      = (fst (connect allowed getaddrinfo dialer cw uw leftover host n) ++ [ClientClosed])%list.
Proof.
  intros [Hh Hhs] Hb Hp Hl Hn Hhead head Hs Hc Hlen.
  destruct (read_head_chunks chunks [] head rest Hs Hc Hlen) as (leftover & Hr & Hpre).
  exists leftover. split; [done |]. unfold handle. rewrite Hr.
  assert (Hreq : request allowed getaddrinfo dialer cw uw head leftover
    = connect allowed getaddrinfo dialer cw uw leftover host n).
  { pose proof (number_digits _ _ Hn) as Hd.
    assert (Hpw : Forall (λ c, bytes_space c = false) pt)
      by (eapply Forall_impl; [exact Hd |]; intros c Hx; by apply digit_word).
    set (line := (chars "CONNECT " ++ host ++ ":"%char :: pt ++ chars " HTTP/1.1")%list).
    assert (Hcr : "013"%char ∉ line).
    { unfold line. rewrite !not_elem_of_app, not_elem_of_cons, not_elem_of_app.
      rewrite Forall_forall in Hhs, Hpw.
      split_and!; try (by apply (bool_decide_eq_false_1 _)); intros Hin;
        by (apply Hhs in Hin || apply Hpw in Hin). }
    assert (Hline : match split_on CRLF head with Some (l, _) => l | None => head end = line).
    { assert (head = line ++ headers)%list as -> by (unfold head, line; by rewrite <- !app_assoc, <- app_comm_cons, <- app_assoc).
      destruct Hhead as [-> | [h ->]].
      - rewrite app_nil_r. destruct (split_on CRLF line) as [[l b] |] eqn:E; [| done].
        apply split_on_Some in E. exfalso. apply Hcr. rewrite E. apply elem_of_app. right. left.
      - unfold CRLF. by rewrite (split_on_fresh "013"%char ["010"%char] line h Hcr). }
    unfold request. rewrite Hline. unfold line.
    change (chars "CONNECT ") with (chars "CONNECT" ++ [" "%char])%list.
    change (chars " HTTP/1.1") with (" "%char :: chars "HTTP/1.1").
    rewrite <- app_assoc. cbn [app]. rewrite split_bytes_cons; [| | done].
    2: { split; [done |]. by apply (bool_decide_eq_true_1 _). }
    rewrite app_comm_cons, app_assoc, split_bytes_cons; [| | done].
    2: { split; [by destruct host |]. apply Forall_app. split; [done |]. by constructor. }
    rewrite split_bytes_last by (split; [done | by apply (bool_decide_eq_true_1 _)]).
    rewrite bool_decide_eq_true_2 by done. cbn [negb].
    by rewrite parse_authority_ok with (n := n). }
  destruct head as [| c hd] eqn:Eh; [done |]. rewrite Hreq.
  by destruct (connect _ _ _ _ _ leftover host n).
Qed.

(** What the proxy has decided about a name and a port before it resolves it. *)
Definition authorised (domain : string) (port : Z) : Prop :=
  allowed domain = true ∧ port ∈ ALLOWED_CONNECT_PORTS.

(** The address of a resolution in which every address is safe. *)
Definition pinned (domain : string) (port : Z) (addr : string) : Prop :=
  ∃ rest, getaddrinfo domain port = Ok (addr :: rest)
    ∧ Forall (λ a, ip_is_safe a = true) (addr :: rest).

(** An egress decision: the actions before the client is closed. *)
Inductive decision : list action → Prop :=
| D_silent : decision []
| D_refused s : s = BAD ∨ s = BLOCKED → decision [Replied s]
| D_unresolved domain port : authorised domain port → decision [Resolved domain port]
| D_unsafe domain port :
    authorised domain port → (∀ a, ¬ pinned domain port a) →
    decision [Resolved domain port; Replied BLOCKED]
| D_dialed domain port addr acts :
    authorised domain port → pinned domain port addr →
    dialer addr port ≠ Ok tt → acts = [] ∨ acts = [Replied BLOCKED] →
    decision (Resolved domain port :: Dialed addr port :: acts)
| D_tunnel domain port addr acts :
    authorised domain port → pinned domain port addr →
    dialer addr port = Ok tt →
    (∀ a, a ∈ acts → a = Replied CONNECT_OK ∨ (∃ l, a = Forwarded l) ∨ a = Spliced) →
    decision (Resolved domain port :: Dialed addr port :: acts ++ [UpstreamClosed]).

Lemma tunnel_decision leftover addr port domain :
  authorised domain port → pinned domain port addr →
  decision (Resolved domain port :: fst (tunnel dialer cw uw leftover addr port)).
Proof.
  intros Ha Hr. unfold tunnel. destruct (dialer addr port) as [[] | e] eqn:Ed.
  - repeat case_match; simplify_eq; cbn [fst]; apply D_tunnel; try done; set_solver.
  - case_match; cbn [fst]; apply D_dialed; auto; congruence.
Qed.

Lemma connect_decision leftover host port :
  decision (fst (connect allowed getaddrinfo dialer cw uw leftover host port)).
Proof.
  unfold connect. set (domain := of_chars _).
  destruct (allowed domain) eqn:Ea; cbn [negb]; [| constructor; auto].
  case_bool_decide as Hp; cbn [negb]; [| constructor; auto].
  unfold resolve_and_pin. destruct (resolve_and_check getaddrinfo domain port) as [a | e] eqn:Er;
    cbn [rbind pa_ip].
  - pose proof (tunnel_decision leftover a port domain (conj Ea Hp)
      (proj1 (resolve_and_check_ok _ _ _ _) Er)) as H.
    by destruct (tunnel dialer cw uw leftover a port).
  - destruct (_ || _); cbn [fst].
    + apply D_unsafe; [by split |]. intros a Ha%resolve_and_check_ok. congruence.
    + by apply D_unresolved.
Qed.

(** C16: no egress without authorisation.  Whatever bytes a client sends, the
    handler closes it last, and before that takes one of six courses; in all
    of them it resolves a name at most once, only after the fetch's allowlist
    has accepted that very name and for port 80 or 443; it dials at most once,
    the first address of a resolution in which every address is safe; it says
    the connection is established only on a dialled upstream, which it closes;
    and otherwise it says 400 or 403 at most once. *)
Theorem egress_authorised recv :
  ∃ acts, fst (handle allowed getaddrinfo dialer cw uw recv) = (acts ++ [ClientClosed])%list
    ∧ decision acts.
Proof.
  unfold handle. destruct (read_head [] recv) as [[[| c head] leftover] | e].
  - by exists []; split; [| constructor].
  - exists (fst (request allowed getaddrinfo dialer cw uw (c :: head) leftover)).
    split; [by destruct (request _ _ _ _ _ _ _) |]. unfold request.
    set (line := match split_on CRLF (c :: head) with Some (l, _) => l | None => c :: head end).
    destruct (split_bytes line []) as [| v [| a [| x r]]]; try (constructor; auto).
    case_match; [constructor; auto |].
    destruct (parse_authority a) as [[[host port] |] | e]; try (constructor; auto).
    apply connect_decision.
  - by exists []; split; [| constructor].
Qed.
End Requests.

Lemma connect_request_served_witness :
  ∃ leftover, leftover `prefix_of` chars "hello"
    ∧ fst (handle (domain_allowed ["kabum.com.br"]) demo_resolver (λ _ _, Ok tt) true true
        (Ok <$> [chars "CONNECT kabum"; chars ".com.br:443 HTTP/1.1" ++ CRLF; CRLF ++ chars "hello"]%list))
      = (fst (connect (domain_allowed ["kabum.com.br"]) demo_resolver (λ _ _, Ok tt) true true
          leftover (chars "kabum.com.br") 443) ++ [ClientClosed])%list.
Proof.
  apply (connect_request_served _ _ _ _ _ (chars "kabum.com.br") (chars "443") 443 [] (chars "hello")).
  - split; [discriminate | apply (bool_decide_eq_true_1 _); vm_compute; reflexivity].
  - discriminate.
  - discriminate.
  - vm_compute. discriminate.
  - vm_compute. reflexivity.
  - left. reflexivity.
  - vm_compute. reflexivity.
  - apply (bool_decide_eq_true_1 _). vm_compute. reflexivity.
  - vm_compute. discriminate.
Defined.

(** a request can end the handler without an answer.  [str.isdigit]
    accepts superscript digits that [int] refuses, so the ValueError of
    "CONNECT kabum.com.br:2" with a superscript two leaves the handler: the
    client gets no 400 and no 403. *)
Theorem superscript_port_kills_the_handler (allowed : string → bool) g dialer cw uw :
  handle allowed g dialer cw uw
    [Ok (chars "CONNECT kabum.com.br:" ++ "178"%char :: chars " HTTP/1.1" ++ END_OF_HEAD)%list]
  = ([ClientClosed], Some (Exn ValueError "invalid literal for int() with base 10")).
Proof. vm_compute. reflexivity. Qed.

(** The whole argument list handed to the browser is scrubbed. *)
Lemma strip_dangerous_browser_args_spec args a :
  a ∈ strip_dangerous_browser_args args ↔
  a ∈ args ∧ ∀ bad, bad ∈ DANGEROUS_BROWSER_ARGS → ¬ chars bad `prefix_of` chars a.
Proof.
  unfold strip_dangerous_browser_args. rewrite list_elem_of_filter.
  rewrite <- not_true_iff_false, existsb_exists. split.
  - intros [Hb Ha]. split; [done |]. intros bad Hin Hp. apply Hb. exists bad.
    split; [by apply list_elem_of_In | by apply bool_decide_eq_true].
  - intros [Ha Hb]. split; [| done].
    intros (bad & Hin%list_elem_of_In & Hp%bool_decide_eq_true). by apply (Hb bad).
Qed.
