(* ===== verification/Relay.v ===== *)
(** The two loops of the egress proxy ([autolycos/egress_proxy.py]) around the
    handler of [Egress]: the accept loop with [start] and [stop] as a step
    relation, and the tunnel of [_splice], two threads that copy bytes, as the
    steps of two pipes in any interleaving. *)

From S2P Require Import Prelude Egress.

(** * The tunnel *)

(** How a [sendall] ends: all sent, or an [OSError] after some bytes. *)
Inductive send := Sent | Broken (n : nat).

(** A pipe: what [recv] still gives, how each [sendall] ends ([Sent] past the
    end), what reached the destination, and whether the thread has ended, which
    it does after shutting the destination for writing. *)
Record Pipe := mkPipe {
  coming : list (result (list ascii));
  sends : list send;
  forwarded : list ascii;
  ended : bool;
}.

(** One turn of the loop of [pipe]. *)
Definition pipe_step (p : Pipe) : Pipe :=
  if p.(ended) then p
  else match p.(coming) with
       | [] | Ok [] :: _ | Raise _ :: _ => mkPipe [] p.(sends) p.(forwarded) true
       | Ok data :: rest =>
           match p.(sends) with
           | [] => mkPipe rest [] (p.(forwarded) ++ data) false
           | Sent :: sends => mkPipe rest sends (p.(forwarded) ++ data) false
           | Broken n :: sends => mkPipe rest sends (p.(forwarded) ++ take n data) true
           end
       end.

Definition open_pipe (coming : list (result (list ascii))) (sends : list send) : Pipe :=
  mkPipe coming sends [] false.

(** From the client to the upstream, and back. *)
Inductive direction := Up | Down.

#[export] Instance direction_eq_dec : EqDecision direction.
Proof. solve_decision. Defined.

Record Tunnel := { up : Pipe; down : Pipe }.

Definition tunnel_step (s : Tunnel) (d : direction) : Tunnel :=
  match d with
  | Up => {| up := pipe_step s.(up); down := s.(down) |}
  | Down => {| up := s.(up); down := pipe_step s.(down) |}
  end.

(** [_splice] under a schedule of the two threads. *)
Definition splice (schedule : list direction) (s : Tunnel) : Tunnel := foldl tunnel_step s schedule.

(** Both joins return. *)
Definition splice_done (s : Tunnel) : bool := s.(up).(ended) && s.(down).(ended).

(** ** What it carries *)

(** What a peer sends before it closes or fails. *)
Fixpoint stream (coming : list (result (list ascii))) : list ascii :=
  match coming with
  | [] | Ok [] :: _ | Raise _ :: _ => []
  | Ok data :: rest => (data ++ stream rest)%list
  end.

Definition turns (d : direction) (schedule : list direction) : nat := length (filter (λ x, x = d) schedule).

(** The threads share nothing: only the number of turns of each counts. *)
Lemma splice_turns schedule : ∀ s,
  splice schedule s = {| up := Nat.iter (turns Up schedule) pipe_step s.(up);
                         down := Nat.iter (turns Down schedule) pipe_step s.(down) |}.
Proof.
  unfold splice, turns. induction schedule as [| d l IH]; intros s; cbn [foldl]; [by destruct s |].
  rewrite IH. destruct d; cbn [tunnel_step up down].
  - rewrite filter_cons_True, filter_cons_False by done. cbn [length]. by rewrite Nat.iter_succ_r.
  - rewrite filter_cons_False, filter_cons_True by done. cbn [length]. by rewrite Nat.iter_succ_r.
Qed.

(** What was forwarded and what may still be. *)
Definition pipe_ok (total : list ascii) (faulty : bool) (p : Pipe) : Prop :=
  p.(forwarded) `prefix_of` total
  ∧ (p.(ended) = false → (p.(forwarded) ++ stream p.(coming))%list = total)
  ∧ (p.(ended) = true → faulty = false → p.(forwarded) = total)
  ∧ (faulty = false → Forall (λ x, x = Sent) p.(sends)).

Lemma pipe_step_ok total faulty p : pipe_ok total faulty p → pipe_ok total faulty (pipe_step p).
Proof.
  intros (Hp & Ho & He & Hs). unfold pipe_step. destruct (ended p) eqn:E; [by split_and!; rewrite ?E |].
  specialize (Ho eq_refl). unfold pipe_ok.
  destruct (coming p) as [| [[| c data] | e] rest]; cbn [stream] in Ho.
  1, 2, 4: rewrite app_nil_r in Ho; split_and!; cbn; by try done.
  set (d := c :: data) in *. destruct (sends p) as [| [| n] ss]; cbn [forwarded ended coming Relay.sends].
  - rewrite <- app_assoc. split_and!; [| done | done |].
    + rewrite <- Ho. rewrite app_assoc. by eexists.
    + done.
  - rewrite <- app_assoc. split_and!; [| done | done |].
    + rewrite <- Ho. rewrite app_assoc. by eexists.
    + intros Hf. specialize (Hs Hf). by inversion Hs.
  - split_and!; [| done | |].
    + rewrite <- Ho. apply prefix_app. exists (drop n d ++ stream rest)%list.
      by rewrite app_assoc, take_drop.
    + intros _ Hf. specialize (Hs Hf). by inversion Hs.
    + intros Hf. specialize (Hs Hf). by inversion Hs.
Qed.

Lemma pipe_iter_ok total faulty n p : pipe_ok total faulty p → pipe_ok total faulty (Nat.iter n pipe_step p).
Proof. intros Hp. induction n as [| n IH]; [done |]. by apply pipe_step_ok. Qed.

Lemma ended_stays p : ended p = true → pipe_step p = p.
Proof. intros He. unfold pipe_step. by rewrite He. Qed.

Lemma iter_ended n p : ended p = true → Nat.iter n pipe_step p = p.
Proof.
  intros He. induction n as [| n IH]; [done |].
  change (Nat.iter (S n) pipe_step p) with (pipe_step (Nat.iter n pipe_step p)). rewrite IH. by apply ended_stays.
Qed.

(** One turn more than there are chunks ends a pipe. *)
Lemma pipe_ends n : ∀ p, (length (coming p) < n)%nat → ended (Nat.iter n pipe_step p) = true.
Proof.
  induction n as [| n IH]; intros p Hn; [lia |]. rewrite Nat.iter_succ_r.
  assert (Hst : ended (pipe_step p) = true → ended (Nat.iter n pipe_step (pipe_step p)) = true).
  { intros He. by rewrite (iter_ended n _ He). }
  unfold pipe_step in *. destruct (ended p) eqn:E; [by apply Hst |].
  destruct (coming p) as [| [[| c d] |] rest]; try by apply Hst.
  destruct (sends p) as [| [|] ss]; [| | by apply Hst]; apply IH; cbn in *; lia.
Qed.

(** A [sendall] that broke. *)
Definition breaks (l : list send) : bool := existsb (λ x, match x with Broken _ => true | Sent => false end) l.

Lemma pipe_start total l ss : total = stream l → pipe_ok total (breaks ss) (open_pipe l ss).
Proof.
  intros ->. split_and!; cbn; [by eexists | done | done |]. intros Hb.
  induction ss as [| [] ss IH]; cbn in Hb; [done | | done]. constructor; [done | by apply IH].
Qed.

(** The tunnel carries each side's bytes to the other, whatever the order
    of the two threads: at any time a prefix of what was sent before the end of
    file or the failure, in order; all of it once the pipe has ended, unless
    the receiving side broke; no byte crosses over; and it ends as soon as each
    thread had one turn more than there were chunks. *)
Theorem tunnel_carries (schedule : list direction) (client upstream : list (result (list ascii)))
    (to_upstream to_client : list send) :
  let s := splice schedule {| up := open_pipe client to_upstream; down := open_pipe upstream to_client |} in
  s.(up).(forwarded) `prefix_of` stream client ∧ s.(down).(forwarded) `prefix_of` stream upstream
  ∧ (s.(up).(ended) = true → breaks to_upstream = false → s.(up).(forwarded) = stream client)
  ∧ (s.(down).(ended) = true → breaks to_client = false → s.(down).(forwarded) = stream upstream)
  ∧ ((length client < turns Up schedule)%nat → (length upstream < turns Down schedule)%nat →
     splice_done s = true).
Proof.
  intros s. subst s. rewrite splice_turns. cbn [up down].
  pose proof (pipe_iter_ok _ _ (turns Up schedule) _ (pipe_start _ client to_upstream eq_refl)) as (H1 & _ & H2 & _).
  pose proof (pipe_iter_ok _ _ (turns Down schedule) _ (pipe_start _ upstream to_client eq_refl)) as (H3 & _ & H4 & _).
  split_and!; [done.. |]. intros Hu Hd. unfold splice_done. cbn [up down].
  by rewrite !pipe_ends.
Qed.

(** * The server *)

(** [start]: the address asked for and what [getsockname] then says. *)
Definition proxy_url (bound : option (string * Z)) : option string :=
  match bound with
  | None => None
  | Some (host, port) => Some ("http://" +:+ host +:+ ":" +:+ pretty port)
  end.

(** The listening socket; where the accept loop and [stop] are. *)
Inductive listener := Listening | ShutDown | Closed.
Inductive loop_pc := AtCheck | InAccept | LoopEnded.
Inductive stop_pc := NotCalled | FlagSet | AfterShutdown | Joining | Returned.

Record Server := mkServer {
  socket : listener;
  stopping : bool;
  loop : loop_pc;
  stopper : stop_pc;
  handlers : list string;      (* the peers that were given a handler thread *)
  turned_away : list string;   (* those closed at once *)
}.

(** After [start]. *)
Definition started : Server := mkServer Listening false AtCheck NotCalled [] [].

Inductive server_action :=
| LoopCheck
| Accepted (peer : string)
| AcceptFails
| StopCalled
| ShutdownDone (ok : bool)     (* an [OSError] is swallowed *)
| CloseDone
| JoinReturns.

Definition server_step (a : server_action) (s : Server) : option Server :=
  match a, s.(loop), s.(stopper) with
  | LoopCheck, AtCheck, p =>
      Some (mkServer s.(socket) s.(stopping) (if s.(stopping) then LoopEnded else InAccept) p
              s.(handlers) s.(turned_away))
  | Accepted peer, InAccept, p =>
      match s.(socket) with
      | Listening =>
          Some (if is_loopback_host peer
                then mkServer s.(socket) s.(stopping) AtCheck p (s.(handlers) ++ [peer])%list s.(turned_away)
                else mkServer s.(socket) s.(stopping) AtCheck p s.(handlers) (s.(turned_away) ++ [peer])%list)
      | _ => None
      end
  | AcceptFails, InAccept, p => Some (mkServer s.(socket) s.(stopping) LoopEnded p s.(handlers) s.(turned_away))
  | StopCalled, l, NotCalled => Some (mkServer s.(socket) true l FlagSet s.(handlers) s.(turned_away))
  | ShutdownDone ok, l, FlagSet =>
      Some (mkServer (if ok then ShutDown else s.(socket)) s.(stopping) l AfterShutdown s.(handlers) s.(turned_away))
  | CloseDone, l, AfterShutdown =>
      Some (mkServer Closed s.(stopping) l Joining s.(handlers) s.(turned_away))
  | JoinReturns, l, Joining => Some (mkServer s.(socket) s.(stopping) l Returned s.(handlers) s.(turned_away))
  | _, _, _ => None
  end.

Inductive server_reachable : Server → Prop :=
| server_started : server_reachable started
| server_steps a s s' : server_reachable s → server_step a s = Some s' → server_reachable s'.

Fixpoint server_run (l : list server_action) (s : Server) : option Server :=
  match l with [] => Some s | a :: l => s' ← server_step a s; server_run l s' end.

Definition server_ok (s : Server) : Prop :=
  Forall (λ p, is_loopback_host p = true) s.(handlers)
  ∧ Forall (λ p, is_loopback_host p = false) s.(turned_away)
  ∧ (s.(stopping) = true ↔ s.(stopper) ≠ NotCalled)
  ∧ match s.(stopper) with
    | NotCalled | FlagSet => s.(socket) = Listening
    | AfterShutdown => True
    | Joining | Returned => s.(socket) = Closed
    end.

Lemma server_step_ok a s s' : server_step a s = Some s' → server_ok s → server_ok s'.
Proof.
  destruct s as [k st l p hs ts]. unfold server_ok, server_step. cbn.
  intros Hs (H1 & H2 & H3 & H4). destruct a, l, p; try discriminate Hs; cbn in *.
  all: repeat (case_match; try discriminate Hs); injection Hs as <-; cbn.
  all: split_and!; try done; try (apply Forall_app; split; [done | by constructor]).
  all: naive_solver.
Qed.

Lemma server_reachable_ok s : server_reachable s → server_ok s.
Proof.
  induction 1 as [| a s s' _ IH Hs]; [| by eapply server_step_ok].
  split_and!; [constructor | constructor | split; [done | by intros []] | done].
Qed.

Lemma server_run_reachable l : ∀ s s', server_run l s = Some s' → server_reachable s → server_reachable s'.
Proof.
  induction l as [| a l IH]; intros s s' Hr Hs; cbn in Hr; [by injection Hr as <- |].
  destruct (server_step a s) eqn:E; [| done]. eapply IH; [exact Hr |]. by eapply server_steps.
Qed.

Definition loop_action (a : server_action) : bool :=
  match a with LoopCheck | Accepted _ | AcceptFails => true | _ => false end.

(** In every interleaving of the accept loop and [stop], only loopback
    peers get a handler; once the socket was shut or closed none does any more;
    and then the loop is at most one step from its end. *)
Theorem server_stops (s : Server) :
  server_reachable s →
  Forall (λ p, is_loopback_host p = true) s.(handlers)
  ∧ (s.(socket) ≠ Listening → ∀ a s', server_step a s = Some s' →
       s'.(handlers) = s.(handlers) ∧ s'.(socket) ≠ Listening
       ∧ (loop_action a = true → s'.(loop) = LoopEnded))
  ∧ (s.(socket) ≠ Listening → s.(loop) ≠ LoopEnded →
       ∃ a s', loop_action a = true ∧ server_step a s = Some s').
Proof.
  intros Hr. destruct (server_reachable_ok s Hr) as (H1 & _ & H3 & H4).
  destruct s as [k st l p hs ts]. cbn in *. split_and!; [done | |].
  - intros Hk a s' Hs. assert (st = true) as -> by (apply H3; destruct p; naive_solver).
    unfold server_step in Hs. cbn in Hs.
    destruct a, l, p, k; try discriminate Hs; try done; try (destruct ok);
      injection Hs as <-; by split_and!.
  - intros Hk Hl. destruct l; [by exists LoopCheck; eexists | by exists AcceptFails; eexists | done].
Qed.

(** Two clients, one of them remote, then [stop]. *)
Lemma server_stops_witness :
  let s := default started (server_run
    [LoopCheck; Accepted "127.0.0.1"; LoopCheck; Accepted "10.0.0.9"; LoopCheck; StopCalled;
     ShutdownDone true; AcceptFails; CloseDone; JoinReturns] started) in
  s.(loop) = LoopEnded ∧ s.(turned_away) = ["10.0.0.9"] ∧ s.(handlers) = ["127.0.0.1"]
  ∧ Forall (λ p, is_loopback_host p = true) s.(handlers).
Proof.
  intros s. split; [vm_compute; reflexivity |]. split; [vm_compute; reflexivity |].
  split; [vm_compute; reflexivity |]. apply (server_stops s).
  eapply (server_run_reachable
    [LoopCheck; Accepted "127.0.0.1"; LoopCheck; Accepted "10.0.0.9"; LoopCheck; StopCalled;
     ShutdownDone true; AcceptFails; CloseDone; JoinReturns] started); [| constructor].
  vm_compute. reflexivity.
Defined.

(** A remote peer is [serve_client]'s early close. *)
Lemma turned_away_is_closed allowed g dialer cw uw peer recv :
  is_loopback_host peer = false → serve_client allowed g dialer cw uw peer recv = ([ClientClosed], None).
Proof. intros Hp. unfold serve_client. by rewrite Hp. Qed.
