(* ===== verification/Seconds.v ===== *)
(** Durations: the floats the program uses for seconds, as whole microseconds
    with the infinities and NaN.

    Comparisons, sums and Python's [max] and [min] are those of floats, except
    that the rounding of a finite result is not modelled. *)

From S2P Require Import Prelude.

Inductive secs := Secs (us : Z) | SInf (negative : bool) | SNan.

#[export] Instance secs_eq_dec : EqDecision secs.
Proof. solve_decision. Defined.

Definition SECOND : Z := 1000000.
Definition seconds (n : Z) : secs := Secs (n * SECOND).

(** [a < b] and [a <= b]; false when either is NaN. *)
Definition slt (a b : secs) : bool :=
  match a, b with
  | SNan, _ | _, SNan => false
  | SInf true, SInf true => false
  | SInf true, _ => true
  | _, SInf true => false
  | SInf false, _ => false
  | Secs _, SInf false => true
  | Secs x, Secs y => x <? y
  end.
Definition sle (a b : secs) : bool :=
  match a with
  | SNan => false
  | _ => slt a b || bool_decide (a = b)
  end.

Definition sneg (a : secs) : secs :=
  match a with Secs x => Secs (- x) | SInf n => SInf (negb n) | SNan => SNan end.
Definition sadd (a b : secs) : secs :=
  match a, b with
  | SNan, _ | _, SNan => SNan
  | SInf n, SInf m => if Bool.eqb n m then SInf n else SNan
  | SInf n, _ | _, SInf n => SInf n
  | Secs x, Secs y => Secs (x + y)
  end.
Definition ssub (a b : secs) : secs := sadd a (sneg b).
(** [a / 2.0], and [n * a] for [n] positive. *)
Definition shalf (a : secs) : secs := match a with Secs x => Secs (x / 2) | _ => a end.
Definition stimes (n : Z) (a : secs) : secs := match a with Secs x => Secs (n * x) | _ => a end.

(** [max(a, b)] and [min(a, b)]: the first one unless the second is better. *)
Definition smax (a b : secs) : secs := if slt a b then b else a.
Definition smin (a b : secs) : secs := if slt b a then b else a.

Definition finite (a : secs) : Prop := ∃ us, a = Secs us.

Lemma slt_Secs x y : slt (Secs x) (Secs y) = true ↔ x < y.
Proof. apply Z.ltb_lt. Qed.

Lemma sle_not_slt a b : slt a b = true → sle b a = false.
Proof.
  destruct a as [x | [] |], b as [y | [] |]; cbn; try done. intros H%Z.ltb_lt.
  rewrite (proj2 (Z.ltb_ge _ _)) by lia. cbn. apply bool_decide_eq_false. intros [= ->]. lia.
Qed.

(** A positive duration: a finite one, or forever. *)
Lemma slt_zero a : slt (Secs 0) a = true → a = SInf false ∨ ∃ us, a = Secs us ∧ 0 < us.
Proof. destruct a as [x | [] |]; cbn; try done; [intros H%Z.ltb_lt; right; eauto | by left]. Qed.

Lemma slt_smax_l a b z : slt z a = true → slt z (smax a b) = true.
Proof.
  unfold smax. destruct (slt a b) eqn:E; [| done].
  destruct z as [z | [] |], a as [x | [] |], b as [y | [] |]; cbn in *; try done.
  rewrite !Z.ltb_lt in *. lia.
Qed.
