(* ===== verification/Fetchers.v ===== *)
(** The fetcher tiers: the redirect loop of the [http] and [tls] adapters
    ([autolycos/adapters/http.py], [tls.py]), the static router
    ([autolycos/router.py]) and the deadline budgets of the browser tiers
    ([autolycos/tiers.py]).

    The HTTP libraries, [urljoin], the decoding of a body, [find_spec] and
    the install check of camoufox are arguments; the browser adapters have
    files of their own ([Browser], [Camoufox], [Uc]). *)

From S2P Require Import Prelude Domain Orchestrator Safety Egress Seconds.

(** * The redirect loop *)

Definition MAX_HTML_BYTES : Z := 5 * 1024 * 1024.
Definition MAX_REDIRECTS : nat := 5.
Definition REDIRECT_CODES : list Z := [301; 302; 303; 307; 308].

(** A streamed response; [is_redirect] is the library's own flag. *)
Record Response := {
  status_code : Z;
  is_redirect : bool;
  location : option string;
  encoding : option string;
  body : list (list ascii);
}.

(** [_read_capped]: the body, or an error as soon as it exceeds the cap. *)
Fixpoint read_chunks (total : Z) (chunks : list (list ascii)) : result (list ascii) :=
  match chunks with
  | [] => Ok []
  | [] :: rest => read_chunks total rest
  | chunk :: rest =>
      let total := total + Z.of_nat (length chunk) in
      if MAX_HTML_BYTES <? total then raise FetchError "response exceeds bytes cap"
      else let? text := read_chunks total rest in Ok (chunk ++ text)%list
  end.

Section Fetch.
Context {W : Type}.
(** The i-th name resolution of the fetch. *)
Variable getaddrinfo : nat → Resolver.
Variable allowed : string → bool.
Variable urljoin : string → string → string.
Variable decode : string → list ascii → result string.
(** [session.get] and [cffi.get]: the request goes to the address of a target,
    or, without one, to whatever the library resolves by itself. *)
Variable get : string → option ValidatedTarget → M W Response.

Definition read_capped (resp : Response) : result string :=
  let? bytes := read_chunks 0 resp.(body) in
  decode (match resp.(encoding) with
          | Some e => if bool_decide (e = "") then "utf-8" else e
          | None => "utf-8"
          end) bytes.

(** The requests made with their answers, and the rest of the world. *)
Record Hop := mkHop { hop_url : string; hop_pin : option ValidatedTarget; hop_answer : result Response }.
Record Net := mkNet { hops : list Hop; net_world : W }.

Definition do_get (url : string) (pin : option ValidatedTarget) : M Net Response :=
  λ n, let '(r, w) := get url pin n.(net_world) in
       (r, mkNet (n.(hops) ++ [mkHop url pin r]) w).

(** [for _ in range(MAX_REDIRECTS + 1)], with [left] turns to go. *)
Fixpoint fetch_loop (method_name : string) (redirects : Response → bool)
    (pinned : string → ValidatedTarget → option ValidatedTarget) (left : nat) (current : string) : M Net FetchResult :=
  match left with
  | O => mraise (Exn FetchError "too many redirects")
  | S left' =>
      let! n := mgets hops in
      let! target := mlift (validate_target (getaddrinfo (length n)) current allowed) in
      let! resp := do_get current (pinned current target) in
      if redirects resp then
        match resp.(location) with
        | Some l => if bool_decide (l = "")
                    then mraise (Exn FetchError "redirect without Location header")
                    else fetch_loop method_name redirects pinned left' (urljoin current l)
        | None => mraise (Exn FetchError "redirect without Location header")
        end
      else
        let! text := mlift (read_capped resp) in
        mret' {| html := text; http_status := resp.(status_code); method := method_name;
                 challenged := looks_challenged resp.(status_code) text |}
  end.

(** [resp.is_redirect or resp.status_code in (...)], and the status alone. *)
Definition http_redirects (r : Response) : bool :=
  r.(is_redirect) || bool_decide (r.(status_code) ∈ REDIRECT_CODES).
Definition tls_redirects (r : Response) : bool := bool_decide (r.(status_code) ∈ REDIRECT_CODES).

(** The url prefix the http tier mounts its pinned adapter on. *)
Definition mount_prefix (target : ValidatedTarget) : string :=
  target.(vt_scheme) +:+ "://" +:+ target.(vt_host).

(** The session of the http tier: the adapter mounted on the longest prefix of
    the url, compared without case, handles the request; only the mounted one
    is pinned. *)
Definition mounted_adapter (url : string) (target : ValidatedTarget) : option ValidatedTarget :=
  if bool_decide (lower (chars (mount_prefix target)) `prefix_of` lower (chars url)) then Some target else None.

(** The tls tier pins libcurl's resolver for the host of the url. *)
Definition pinned_resolver (_ : string) (target : ValidatedTarget) : option ValidatedTarget := Some target.

(** [HttpFetcher.fetch] and [TlsFetcher.fetch]. *)
Definition http_fetch (url : string) : M Net FetchResult :=
  fetch_loop "http" http_redirects mounted_adapter (S MAX_REDIRECTS) url.
Definition tls_fetch (url : string) : M Net FetchResult :=
  fetch_loop "tls" tls_redirects pinned_resolver (S MAX_REDIRECTS) url.

End Fetch.

(** The libcurl RESOLVE entry of the tls tier. *)
Definition resolve_entry (target : ValidatedTarget) : string :=
  let addr := if bool_decide (":"%char ∈ chars target.(vt_ip))
              then "[" +:+ target.(vt_ip) +:+ "]" else target.(vt_ip) in
  target.(vt_host) +:+ ":" +:+ pretty target.(vt_port) +:+ ":" +:+ addr.

(** * The router *)

(** [_TIER_MODULES]; [_FACTORIES] has the same keys. *)
Definition TIER_MODULES : list (string * option string) :=
  [("http", None); ("tls", Some "curl_cffi"); ("browser", Some "patchright");
   ("uc", Some "seleniumbase"); ("camoufox", Some "camoufox")].
Definition FACTORIES : list string := ["http"; "tls"; "browser"; "uc"; "camoufox"].
Definition known_tiers : list string := TIER_MODULES.*1.

(** What a factory is called with: a cached fetcher is told by its tier, its
    sub-resource domains, the tier's settings and the order it was built in. *)
Record FetcherInstance := {
  fi_tier : string; fi_subresources : gset string; fi_kwargs : list (string * string);
  fi_serial : nat;
}.

Section Router.
(** [importlib.util.find_spec(module) is not None]. *)
Variable find_spec : string → bool.
Variable camoufox_ready : list (string * string) → result bool.

Definition tier_available_with (readiness_kwargs : list (string * string)) (fetcher_name : string)
    : result bool :=
  match od_get fetcher_name TIER_MODULES with
  | None => Ok false
  | Some None => Ok true
  | Some (Some m) =>
      if negb (find_spec m) then Ok false
      else if bool_decide (fetcher_name = "camoufox") then camoufox_ready readiness_kwargs
      else Ok true
  end.

Definition tier_available (fetcher_name : string) : result bool :=
  tier_available_with [] fetcher_name.

(** The settings of [StaticRouter.__init__], absent ones [None]. *)
Record RouterSettings := {
  uc_settings : list (string * option string);
  browser_settings : list (string * option string);
  camoufox_settings : list (string * option string);
}.

Definition given (l : list (string * option string)) : list (string * string) :=
  omap (λ kv, v ← kv.2; Some (kv.1, v)) l.

Definition extra_kwargs (s : RouterSettings) (tier : string) : list (string * string) :=
  if bool_decide (tier = "uc") then given s.(uc_settings)
  else if bool_decide (tier = "browser") then given s.(browser_settings)
  else if bool_decide (tier = "camoufox") then given s.(camoufox_settings)
  else [].

(** The camoufox settings the install check is run with. *)
Definition readiness_kwargs (s : RouterSettings) : list (string * string) :=
  filter (λ kv, kv.1 ∈ ["executable_path"; "expected_version"]) (given s.(camoufox_settings)).

Definition router_tier_available (s : RouterSettings) (fetcher_name : string) : result bool :=
  tier_available_with (readiness_kwargs s) fetcher_name.

(** [StaticRouter.select]; the cache is keyed by the tier and the set of
    domains, and [serial] counts the fetchers built. *)
Record RouterState := { cache : gmap (string * gset string) FetcherInstance; serial : nat }.

Definition select (s : RouterSettings) (fetcher_name : string) (subresource_domains : list string)
    : M RouterState FetcherInstance :=
  λ st,
    if negb (bool_decide (fetcher_name ∈ FACTORIES))
    then (raise UnknownFetcherError "no fetcher adapter for tier", st)
    else
      let key := (fetcher_name, list_to_set subresource_domains : gset string) in
      match st.(cache) !! key with
      | Some f => (Ok f, st)
      | None =>
          let f := {| fi_tier := fetcher_name; fi_subresources := key.2;
                      fi_kwargs := extra_kwargs s fetcher_name; fi_serial := st.(serial) |} in
          (Ok f, {| cache := <[key := f]> st.(cache); serial := S st.(serial) |})
      end.

End Router.

(** * Deadline budgets *)

Record BudgetTerm := { term_name : string; term_seconds : secs; term_count : Z }.

Inductive BudgetWarning :=
| NavigationWarning (fetch_timeout floor : secs) (terms : list BudgetTerm)
| GateWarning (fetch_timeout acquire_timeout cleanup held : secs) (cleanup_terms : list BudgetTerm).

Definition total_seconds (terms : list BudgetTerm) : secs :=
  foldl (λ acc t, sadd acc (stimes t.(term_count) t.(term_seconds))) (Secs 0) terms.

(** [_check]. *)
Definition check_budget (fetch_timeout acquire_timeout : secs)
    (floor_terms cleanup_terms : list BudgetTerm) : list BudgetWarning :=
  let floor := total_seconds floor_terms in
  let cleanup := total_seconds cleanup_terms in
  let held := sadd fetch_timeout cleanup in
  ((if sle fetch_timeout floor then [NavigationWarning fetch_timeout floor floor_terms] else [])
   ++ (if sle acquire_timeout held
       then [GateWarning fetch_timeout acquire_timeout cleanup held cleanup_terms] else []))%list.

(** The budgets of the three browser tiers, with the constants of their
    adapters, and their [check]. *)
Record BrowserBudget := {
  br_launch_timeout : secs; br_nav_timeout_ms : Z; br_fetch_timeout : secs; br_max_abandoned : Z;
}.
Definition BROWSER : BrowserBudget :=
  {| br_launch_timeout := seconds 20; br_nav_timeout_ms := 30000; br_fetch_timeout := seconds 90;
     br_max_abandoned := 5 |}.
Definition term (name : string) (s : secs) (count : Z) : BudgetTerm :=
  {| term_name := name; term_seconds := s; term_count := count |}.
Definition browser_check (b : BrowserBudget) (fetch_timeout launch_timeout acquire_timeout : secs)
    : list BudgetWarning :=
  check_budget fetch_timeout acquire_timeout
    [term "launch_timeout_seconds" launch_timeout 1;
     term "nav_timeout_seconds" (Secs (b.(br_nav_timeout_ms) * 1000)) 1] [].

Record UcBudget := {
  uc_launch_timeout : secs; uc_orphan_sweep_delay : secs; uc_fetch_timeout : secs;
  uc_page_load_timeout : secs; uc_reconnect_time : secs; uc_render_wait : secs;
  uc_post_nav_kill_passes : Z; uc_kill_wait : secs;
}.
Definition UC : UcBudget :=
  {| uc_launch_timeout := seconds 30; uc_orphan_sweep_delay := seconds 5; uc_fetch_timeout := seconds 90;
     uc_page_load_timeout := seconds 45; uc_reconnect_time := seconds 6; uc_render_wait := seconds 3;
     uc_post_nav_kill_passes := 3; uc_kill_wait := seconds 5 |}.
Definition uc_check (b : UcBudget) (fetch_timeout orphan_sweep_delay acquire_timeout : secs)
    : list BudgetWarning :=
  check_budget fetch_timeout acquire_timeout
    [term "page_load_timeout_seconds" b.(uc_page_load_timeout) 1;
     term "reconnect_time" b.(uc_reconnect_time) 1; term "render_wait" b.(uc_render_wait) 1]
    [term "kill_wait_seconds" b.(uc_kill_wait) b.(uc_post_nav_kill_passes);
     term "orphan_sweep_delay_seconds" orphan_sweep_delay 1].

Record CamoufoxBudget := {
  cx_launch_timeout : secs; cx_nav_timeout : secs; cx_fetch_timeout : secs; cx_max_abandoned : Z;
  cx_kill_wait : secs; cx_late_sweep : secs;
}.
Definition CAMOUFOX : CamoufoxBudget :=
  {| cx_launch_timeout := seconds 20; cx_nav_timeout := seconds 45; cx_fetch_timeout := seconds 90;
     cx_max_abandoned := 5; cx_kill_wait := seconds 5; cx_late_sweep := seconds 5 |}.
Definition camoufox_check (b : CamoufoxBudget)
    (fetch_timeout launch_timeout nav_timeout acquire_timeout : secs) : list BudgetWarning :=
  check_budget fetch_timeout acquire_timeout
    [term "launch_timeout_seconds" launch_timeout 1; term "nav_timeout_seconds" nav_timeout 1]
    [term "kill_wait_seconds" b.(cx_kill_wait) 2; term "late_sweep_seconds" b.(cx_late_sweep) 1].

(** * Properties *)

Lemma read_chunks_spec total chunks :
  read_chunks total chunks =
    if MAX_HTML_BYTES <? total + Z.of_nat (length (mjoin chunks)) then
      (if bool_decide (mjoin chunks = []) then Ok [] else raise FetchError "response exceeds bytes cap")
    else Ok (mjoin chunks).
Proof.
  revert total. induction chunks as [| c chunks IH]; intros total; [by case_match |].
  destruct c as [| x c]; [exact (IH total) |].
  change (mjoin ((x :: c) :: chunks)) with ((x :: c) ++ mjoin chunks)%list.
  rewrite length_app, Nat2Z.inj_add, Z.add_assoc. cbn [read_chunks].
  set (total' := total + Z.of_nat (length (x :: c))). clearbody total'.
  rewrite (bool_decide_eq_false_2 ((x :: c) ++ mjoin chunks = [])) by done.
  rewrite IH. destruct (Z.ltb_spec MAX_HTML_BYTES total'),
    (Z.ltb_spec MAX_HTML_BYTES (total' + Z.of_nat (length (mjoin chunks)))); try lia; try done.
  case_bool_decide as Hn; [| done]. rewrite Hn in *. cbn in *. lia.
Qed.

Section Hops.
Context {W : Type} (getaddrinfo : nat → Resolver) (allowed : string → bool).
Context (urljoin : string → string → string) (decode : string → list ascii → result string).
Context (get : string → option ValidatedTarget → M W Response).

(** The answer to a request sends the fetch on to [next]. *)
Definition sends_to (redirects : Response → bool) (h : Hop) (next : string) : Prop :=
  ∃ resp l, hop_answer h = Ok resp ∧ redirects resp = true ∧ location resp = Some l ∧ l ≠ ""
    ∧ next = urljoin (hop_url h) l.

(** The requests of a fetch: the first is for the url asked for, each further one
    for where the answer before it points to; each went to a url that passed the
    whole guard at that hop, and is pinned to the target of that validation. *)
Record hops_ok (redirects : Response → bool) (pinned : string → ValidatedTarget → option ValidatedTarget)
    (start : string) (hs : list Hop) : Prop := {
  hops_start h : head hs = Some h → hop_url h = start;
  hops_linked i h h' : hs !! i = Some h → hs !! S i = Some h' → sends_to redirects h (hop_url h');
  hops_validated i h : hs !! i = Some h →
    ∃ t, validate_target (getaddrinfo i) (hop_url h) allowed = Ok t ∧ hop_pin h = pinned (hop_url h) t;
}.

(** The page is that of one answer. *)
Definition page_of (method : string) (resp : Response) (res : FetchResult) : Prop :=
  ∃ text, read_capped decode resp = Ok text
    ∧ res = {| html := text; http_status := resp.(status_code); method := method;
               challenged := looks_challenged resp.(status_code) text |}.

(** What a fetch by one tier guarantees. *)
Definition fetch_ok (method : string) (redirects : Response → bool)
    (pinned : string → ValidatedTarget → option ValidatedTarget) (url : string)
    (out : result FetchResult * Net (W:=W)) : Prop :=
  hops_ok redirects pinned url (hops out.2) ∧ (length (hops out.2) ≤ 6)%nat
  ∧ match out.1 with
    | Ok res => ∃ h resp, last (hops out.2) = Some h ∧ hop_answer h = Ok resp ∧ redirects resp = false
        ∧ page_of method resp res
    | Raise _ => True
    end.

Section Loop.
Variables (method : string) (redirects : Response → bool)
  (pinned : string → ValidatedTarget → option ValidatedTarget) (start : string).

(** The next request is for [url]. *)
Definition reaches (hs : list Hop) (url : string) : Prop :=
  match last hs with None => url = start | Some h => sends_to redirects h url end.

Lemma hops_snoc hs url t r :
  hops_ok redirects pinned start hs → reaches hs url → validate_target (getaddrinfo (length hs)) url allowed = Ok t →
  hops_ok redirects pinned start (hs ++ [mkHop url (pinned url t) r]).
Proof.
  intros [H1 H2 H3] Hr Ht. split.
  - intros h. destruct hs as [| h0 hs]; cbn; [intros [= <-]; exact Hr | apply H1].
  - intros i h h' Hi Hi'. apply lookup_app_Some in Hi' as [Hi' | [Hl Hi']].
    + rewrite lookup_app_l in Hi by (apply lookup_lt_Some in Hi'; lia). by eapply H2.
    + apply list_lookup_singleton_Some in Hi' as [Hi0 <-]. assert (length hs = S i) as Hn by lia.
      rewrite lookup_app_l in Hi by lia. unfold reaches in Hr. rewrite last_lookup, Hn in Hr. cbn in Hr.
      by rewrite Hi in Hr.
  - intros i h Hi. apply lookup_app_Some in Hi as [Hi | [Hl Hi]]; [by apply H3 |].
    apply list_lookup_singleton_Some in Hi as [Hi0 <-]. assert (i = length hs) as -> by lia. eauto.
Qed.

Lemma fetch_loop_hops left : ∀ url (n : Net (W:=W)),
  hops_ok redirects pinned start (hops n) → reaches (hops n) url →
  let '(r, n') := fetch_loop getaddrinfo allowed urljoin decode get method redirects pinned left url n in
  hops_ok redirects pinned start (hops n') ∧ (length (hops n') ≤ length (hops n) + left)%nat
  ∧ match r with
    | Ok res => ∃ h resp, last (hops n') = Some h ∧ hop_answer h = Ok resp ∧ redirects resp = false
        ∧ page_of method resp res
    | Raise _ => True
    end.
Proof.
  induction left as [| left IH]; intros url n Hn Hr; cbn [fetch_loop]; [split_and!; [done | lia | done] |].
  rewrite (mbind_ok _ _ n (hops n) n) by done.
  destruct (validate_target (getaddrinfo (length (hops n))) url allowed) as [t | e] eqn:Et.
  2: { rewrite (mbind_raise _ _ n e n) by done. split_and!; [done | lia | done]. }
  rewrite (mbind_ok _ _ n t n) by done. unfold mbind' at 1, do_get at 1.
  destruct (get url (pinned url t) (net_world n)) as [r w].
  set (n1 := mkNet (hops n ++ [mkHop url (pinned url t) r]) w).
  assert (Hn1 : hops_ok redirects pinned start (hops n1)) by (by apply hops_snoc).
  assert (Hlen : length (hops n1) = S (length (hops n))) by (cbn; rewrite length_app; cbn; lia).
  assert (Hlast : last (hops n1) = Some (mkHop url (pinned url t) r)) by (cbn; apply last_snoc).
  destruct r as [resp | e]; [| split_and!; [done | lia | done]].
  destruct (redirects resp) eqn:Er.
  - destruct (location resp) as [l |] eqn:El; [| split_and!; [done | cbn [mraise]; lia | done]].
    case_bool_decide as Hl; [split_and!; [done | cbn [mraise]; lia | done] |].
    assert (Hr1 : reaches (hops n1) (urljoin url l)) by (unfold reaches; rewrite Hlast; by exists resp, l).
    specialize (IH (urljoin url l) n1 Hn1 Hr1). destruct (fetch_loop _ _ _ _ _ _ _ _ _ _ _) as [r n'].
    destruct IH as (? & ? & ?). split_and!; [done | lia | done].
  - destruct (read_capped decode resp) as [text | e] eqn:Ex.
    + rewrite (mbind_ok _ _ n1 text n1) by done. cbn [mret']. split_and!; [done | lia |].
      exists (mkHop url (pinned url t) (Ok resp)), resp. split_and!; try done. by exists text.
    + rewrite (mbind_raise _ _ n1 e n1) by done. split_and!; [done | lia | done].
Qed.

Lemma fetch_loop_ok w :
  fetch_ok method redirects pinned start
    (fetch_loop getaddrinfo allowed urljoin decode get method redirects pinned (S MAX_REDIRECTS) start (mkNet [] w)).
Proof.
  assert (H0 : hops_ok redirects pinned start []) by (by split; intros; simplify_list_eq).
  pose proof (fetch_loop_hops (S MAX_REDIRECTS) start (mkNet [] w) H0 eq_refl) as H.
  destruct (fetch_loop _ _ _ _ _ _ _ _ _ _ _) as [r n]. exact H.
Qed.
End Loop.

End Hops.

(** ** The pin of the http tier *)

Lemma lower_app a b : lower (a ++ b) = (lower a ++ lower b)%list.
Proof. apply fmap_app. Qed.

Lemma lower_char_idem c : lower_char (lower_char c) = lower_char c.
Proof. destruct c as [[] [] [] [] [] [] [] []]; vm_compute; done. Qed.

Lemma lower_idem s : lower (lower s) = lower s.
Proof.
  unfold lower. rewrite <- list_fmap_compose. apply list_fmap_ext. intros _ c _.
  apply lower_char_idem.
Qed.

(** The target of a url without user information. *)
Lemma validate_target_authority scheme host port rest g allowed vt :
  (∃ c s, scheme = c :: s ∧ is_alpha c = true) → forallb scheme_char scheme = true →
  plain_netloc (host ++ port) →
  ("@"%char ∉ host ∧ ":"%char ∉ host ∧ "%"%char ∉ host) →
  (port = [] ∨ ∃ p, port = ":"%char :: p ∧ "@"%char ∉ p) →
  (rest = [] ∨ ∃ c r, rest = c :: r ∧ c ∈ ["/"; "?"; "#"]%char) →
  validate_target g (authority_url scheme [] host port rest) allowed = Ok vt →
  chars (vt_scheme vt) = lower scheme ∧ chars (vt_host vt) = lower host.
Proof.
  intros H1 H2 H3 H4 H5 H6. unfold validate_target, check_scheme_and_domain.
  destruct (rfc3986_safe _) eqn:Hs; cbn [negb]; [| done].
  rewrite urlsplit_authority by (done || by left). cbn [rbind].
  case_bool_decide; cbn [negb]; [| done].
  rewrite (hostname_authority [] host port) by (done || by left).
  case_bool_decide; [done |]. destruct (allowed _); cbn [negb rbind]; [| done].
  destruct (Safety.port _) as [p |]; cbn [rbind]; [| done].
  destruct (resolve_and_check _ _ _); cbn [rbind]; [| done].
  intros [= <-]. cbn. by rewrite !chars_of_chars.
Qed.

(** where the connection pin of the http tier applies.  The session uses
    the adapter mounted on a url prefix, compared without case; for every
    validated url without user information the prefix "scheme://host" of the
    target is a prefix of the url, so the request goes through the pinned
    adapter.  With user information before the host it is not, although the
    guard accepts the url: that request resolves the name again by itself. *)
Theorem pin_needs_no_userinfo (scheme host port rest : list ascii) g allowed vt :
  (∃ c s, scheme = c :: s ∧ is_alpha c = true) → forallb scheme_char scheme = true →
  plain_netloc (host ++ port) →
  ("@"%char ∉ host ∧ ":"%char ∉ host ∧ "%"%char ∉ host) →
  (port = [] ∨ ∃ p, port = ":"%char :: p ∧ "@"%char ∉ p) →
  (rest = [] ∨ ∃ c r, rest = c :: r ∧ c ∈ ["/"; "?"; "#"]%char) →
  validate_target g (authority_url scheme [] host port rest) allowed = Ok vt →
  mounted_adapter (authority_url scheme [] host port rest) vt = Some vt
  ∧ ∃ vt', validate_target demo_resolver "https://x@kabum.com.br/" (domain_allowed ["kabum.com.br"]) = Ok vt'
      ∧ mounted_adapter "https://x@kabum.com.br/" vt' = None.
Proof.
  intros H1 H2 H3 H4 H5 H6 Hv. split.
  - unfold mounted_adapter. rewrite bool_decide_eq_true_2; [done |].
    destruct (validate_target_authority scheme host port rest g allowed vt H1 H2 H3 H4 H5 H6 Hv) as [Es Eh].
    unfold mount_prefix, authority_url. rewrite !chars_app, Es, Eh, chars_of_chars. cbn [app].
    rewrite !lower_app, !lower_idem. exists (lower port ++ lower rest)%list.
    by rewrite <- !app_assoc.
  - eexists. split; vm_compute; reflexivity.
Qed.

Lemma pin_needs_no_userinfo_witness :
  ∃ vt, validate_target demo_resolver "https://KABUM.com.br/p" (domain_allowed ["kabum.com.br"]) = Ok vt
    ∧ mounted_adapter "https://KABUM.com.br/p" vt = Some vt.
Proof.
  eexists. split; [vm_compute; reflexivity |].
  apply (pin_needs_no_userinfo (chars "https") (chars "KABUM.com.br") [] (chars "/p") demo_resolver
    (domain_allowed ["kabum.com.br"])).
  - exists "h"%char, (chars "ttps"). split; reflexivity.
  - reflexivity.
  - apply (bool_decide_eq_true_1 _). vm_compute. reflexivity.
  - split_and!; apply (bool_decide_eq_false_1 _); vm_compute; reflexivity.
  - left. reflexivity.
  - right. exists "/"%char, (chars "p"). split; [reflexivity | left].
  - vm_compute. reflexivity.
Defined.

(** ** The router *)

Section RouterProofs.
Context (settings : RouterSettings).

(** Every cached fetcher was built for its key, and no two are the same. *)
Record cache_ok (st : RouterState) : Prop := {
  cache_built : ∀ t ds f, cache st !! (t, ds) = Some f →
    fi_tier f = t ∧ fi_subresources f = ds ∧ fi_kwargs f = extra_kwargs settings t
    ∧ (fi_serial f < serial st)%nat;
  cache_distinct : ∀ k1 k2 f1 f2, cache st !! k1 = Some f1 → cache st !! k2 = Some f2 →
    fi_serial f1 = fi_serial f2 → k1 = k2;
}.

(** the router.  The known tiers are exactly those [select] accepts; it
    builds each fetcher once per tier and set of sub-resource domains, with
    that tier's settings, answers the same one for the same key ever after
    (whatever the order or repetition of the domains), a different one for
    another key, and refuses an unknown tier with UnknownFetcherError without
    touching the cache. *)
Theorem router_select_spec tier ds (st : RouterState) :
  cache_ok st →
  let '(r, st') := select settings tier ds st in
  cache_ok st'
  ∧ match r with
    | Ok f => tier ∈ known_tiers ∧ fi_tier f = tier ∧ fi_subresources f = list_to_set ds
        ∧ fi_kwargs f = extra_kwargs settings tier
        ∧ (∀ ds', (list_to_set ds' : gset string) = list_to_set ds →
             select settings tier ds' st' = (Ok f, st'))
        ∧ (∀ k g, cache st' !! k = Some g → fi_serial g = fi_serial f → k = (tier, list_to_set ds))
    | Raise e => exn_class e = UnknownFetcherError ∧ tier ∉ known_tiers ∧ st' = st
    end.
Proof.
  intros [Hb Hd]. unfold select. change known_tiers with FACTORIES.
  case_bool_decide as Ht; cbn [negb]; [| by split; [split |]].
  set (key := (tier, list_to_set ds : gset string)).
  destruct (cache st !! key) as [f |] eqn:Ef.
  - split; [by split |]. destruct (Hb _ _ _ Ef) as (H1 & H2 & H3 & H4). split_and!; try done.
    + intros ds' ->. fold key. by rewrite Ef.
    + intros k g Hg Hs. by eapply Hd.
  - set (f := {| fi_tier := tier; fi_subresources := key.2;
                 fi_kwargs := extra_kwargs settings tier; fi_serial := serial st |}).
    assert (Hser : ∀ k g, cache st !! k = Some g → (fi_serial g < serial st)%nat)
      by (intros [t' d'] g Hg; by apply (Hb _ _ _ Hg)).
    split; [split |]; cbn [cache serial].
    + intros t' d' g [[[= <- <-] <-] | [Hne Hg]]%lookup_insert_Some; [split_and!; [done .. | cbn; lia] |].
      destruct (Hb _ _ _ Hg) as (? & ? & ? & ?). split_and!; [done .. | lia].
    + intros k1 k2 f1 f2 [[<- <-] | [_ H1]]%lookup_insert_Some [[<- <-] | [_ H2]]%lookup_insert_Some Hs;
        [done | | | by eapply Hd].
      * apply Hser in H2. cbn in Hs. lia.
      * apply Hser in H1. cbn in Hs. lia.
    + split_and!; try done.
      * intros ds' ->. fold key. by rewrite lookup_insert_eq.
      * intros k g [[<- _] | [_ Hg]]%lookup_insert_Some Hs; [done |].
        apply Hser in Hg. cbn in Hs. lia.
Qed.
End RouterProofs.

Definition no_settings : RouterSettings :=
  {| uc_settings := [("launch_timeout_seconds", Some "30"); ("fetch_timeout_seconds", None)];
     browser_settings := []; camoufox_settings := [] |}.

Lemma router_select_spec_witness :
  let '(r, st') := select no_settings "uc" ["a"; "b"; "a"] {| cache := ∅; serial := 0 |} in
  match r with
  | Ok f => fi_kwargs f = [("launch_timeout_seconds", "30")]
            ∧ select no_settings "uc" ["b"; "a"] st' = (Ok f, st')
  | Raise _ => False
  end.
Proof.
  assert (cache_ok no_settings {| cache := ∅; serial := 0 |}) as Hok.
  { split; intros *; cbn [cache]; rewrite lookup_empty; discriminate. }
  pose proof (router_select_spec no_settings "uc" ["a"; "b"; "a"] _ Hok) as H.
  destruct (select no_settings "uc" ["a"; "b"; "a"] {| cache := ∅; serial := 0 |}) as [r st'] eqn:E.
  destruct r as [f | e].
  - destruct H as (_ & _ & _ & _ & Hk & Hsame & _). split; [exact Hk |]. apply Hsame. vm_compute. reflexivity.
  - destruct H as (_ & _ & Ht & _). apply Ht. apply (bool_decide_eq_true_1 _). vm_compute. reflexivity.
Defined.

(** An unknown tier is never available, with or without settings. *)
Lemma tier_available_unknown find_spec ready kw tier :
  tier ∉ known_tiers → tier_available_with find_spec ready kw tier = Ok false.
Proof.
  intros Ht. unfold tier_available_with. destruct (od_get tier TIER_MODULES) eqn:E; [| done].
  apply od_get_Some in E. destruct Ht. by apply (list_elem_of_fmap_2 fst _ (tier, o)).
Qed.

(** ** Budgets *)

(** No warning for finite durations: the fetch deadline is above the timeouts
    it wraps, and the gate is freed before another caller gives up. *)
Lemma check_budget_ok fetch acquire floor cleanup f c :
  total_seconds floor = Secs f → total_seconds cleanup = Secs c →
  check_budget (Secs fetch) (Secs acquire) floor cleanup = [] ↔ f < fetch ∧ fetch + c < acquire.
Proof.
  intros Hf Hc. unfold check_budget. rewrite Hf, Hc. cbn [sadd].
  assert (∀ x y, sle (Secs x) (Secs y) = (x <=? y)) as Hle.
  { intros x y. cbn. destruct (Z.ltb_spec x y) as [H | H]; [symmetry; apply Z.leb_le; lia |]. cbn.
    apply eq_true_iff_eq. rewrite bool_decide_eq_true, Z.leb_le. split; [intros [= ->]; lia | intros; f_equal; lia]. }
  rewrite !Hle. destruct (Z.leb_spec fetch f), (Z.leb_spec acquire (fetch + c)); cbn; split; try done; lia.
Qed.

(** The default budgets are in order. *)
Example default_budgets_in_order :
  browser_check BROWSER (seconds 90) (seconds 20) (seconds 120) = []
  ∧ uc_check UC (seconds 90) (seconds 5) (seconds 120) = []
  ∧ camoufox_check CAMOUFOX (seconds 90) (seconds 20) (seconds 45) (seconds 120) = [].
Proof. vm_compute. split_and!; reflexivity. Qed.
