(* ===== verification/Floats.v ===== *)
(** Python floats as the price parsers use them: binary64 numbers, the
    correctly rounded value of a decimal literal, multiplication by an integer
    and [round].

    A finite float is [m * 2^e]; zeros are not distinguished by sign, which no
    operation below looks at. *)

From S2P Require Import Prelude.

(** * Round half to even *)

(** The integer nearest to [a / b], for a positive [b]; ties go to the even
    one. *)
Definition div_even (a b : Z) : Z :=
  let q := a / b in
  let r := a mod b in
  if 2 * r <? b then q
  else if b <? 2 * r then q + 1
  else if Z.even q then q else q + 1.

(** * Binary64 *)

Inductive pyfloat :=
| Nan
| Inf (negative : bool)
| Fin (m e : Z).

#[export] Instance pyfloat_eq_dec : EqDecision pyfloat.
Proof. solve_decision. Defined.

(** The float nearest to [n / d], for a non-negative [n] and a positive [d]:
    53 bits of mantissa, exponents down to -1074, overflow to infinity. *)
Definition exponent (n d : Z) : Z :=
  let k := Z.log2 n - Z.log2 d in
  (* 2^k <= n / d < 2^(k+1) *)
  let k := if n * 2 ^ Z.max 0 (- k) <? d * 2 ^ Z.max 0 k then k - 1 else k in
  Z.max (k - 52) (-1074).

Definition scaled (n d e : Z) : Z := div_even (n * 2 ^ Z.max 0 (- e)) (d * 2 ^ Z.max 0 e).

Definition float_of_ratio (n d : Z) : pyfloat :=
  if n =? 0 then Fin 0 0
  else
    let e := exponent n d in
    let m := scaled n d e in
    if 2 ^ 1024 <=? m * 2 ^ Z.max 0 e then Inf false else Fin m e.

(** [float(s)] for the decimal [n * 10^-k]. *)
Definition float_of_decimal (n : Z) (k : nat) : pyfloat := float_of_ratio n (10 ^ Z.of_nat k).

(** [x * c] for a positive [x] and an integer [0 < c < 2^53]. *)
Definition float_mul (x : pyfloat) (c : Z) : pyfloat :=
  match x with
  | Fin m e => float_of_ratio (m * c * 2 ^ Z.max 0 e) (2 ^ Z.max 0 (- e))
  | x => x
  end.

(** [round(x)]. *)
Definition float_round (x : pyfloat) : result Z :=
  match x with
  | Nan => raise ValueError "cannot convert float NaN to integer"
  | Inf _ => raise OverflowError "cannot convert float infinity to integer"
  | Fin m e => Ok (div_even (m * 2 ^ Z.max 0 e) (2 ^ Z.max 0 (- e)))
  end.

(** [math.isfinite(x)]: an integer is first converted to a float. *)
Definition isfinite_float (x : pyfloat) : bool := match x with Fin _ _ => true | _ => false end.
Definition isfinite_int (n : Z) : result bool :=
  if 2 ^ 1024 - 2 ^ 970 <=? Z.abs n then raise OverflowError "int too large to convert to float"
  else Ok true.

Definition float_pos (x : pyfloat) : bool :=
  match x with Nan => false | Inf n => negb n | Fin m _ => 0 <? m end.

Example third : float_of_ratio 1 3 = Fin 6004799503160661 (-54).
Proof. vm_compute. reflexivity. Qed.
Example tenth_thrice : float_mul (float_of_decimal 1 1) 3 = Fin 5404319552844596 (-54).
Proof. vm_compute. reflexivity. Qed.
Example beyond : float_of_decimal (10 ^ 309) 0 = Inf false.
Proof. vm_compute. reflexivity. Qed.
Example largest : float_of_ratio (2 ^ 1024 - 2 ^ 970 - 1) 1 = Fin (2 ^ 53 - 1) 971.
Proof. vm_compute. reflexivity. Qed.
Example even_tie : float_round (Fin 5 (-1)) = Ok 2.
Proof. vm_compute. reflexivity. Qed.

(** * Error bounds *)

Lemma div_even_error a b : 0 < b → 2 * Z.abs (div_even a b * b - a) <= b.
Proof.
  intros Hb. unfold div_even. pose proof (Z.div_mod a b ltac:(lia)) as E.
  pose proof (Z.mod_pos_bound a b Hb) as Hr. set (q := a / b) in *. set (r := a mod b) in *.
  assert (a = b * q + r) as Ha by lia. clear E. clearbody q r. subst a.
  destruct (Z.ltb_spec (2 * r) b); [replace (q * b - (b * q + r)) with (- r) by ring; lia |].
  destruct (Z.ltb_spec b (2 * r)); [| destruct (Z.even q)];
    (replace ((q + 1) * b - (b * q + r)) with (b - r) by ring || replace (q * b - (b * q + r)) with (- r) by ring); lia.
Qed.

(** An integer nearer than one half is the rounded one. *)
Lemma div_even_near a b c : 0 < b → 2 * Z.abs (c * b - a) < b → div_even a b = c.
Proof.
  intros Hb Hc. pose proof (div_even_error a b Hb) as He.
  assert (Z.abs (div_even a b * b - c * b) < b) as Hlt by lia.
  replace (div_even a b * b - c * b) with ((div_even a b - c) * b) in Hlt by ring.
  rewrite Z.abs_mul, (Z.abs_eq b) in Hlt by lia.
  assert (Z.abs (div_even a b - c) < 1) by nia. lia.
Qed.

(** The binary exponent of [n / d], before the subnormal cut-off. *)
Definition magnitude (n d : Z) : Z :=
  let k := Z.log2 n - Z.log2 d in
  if n * 2 ^ Z.max 0 (- k) <? d * 2 ^ Z.max 0 k then k - 1 else k.

Lemma exponent_magnitude n d : exponent n d = Z.max (magnitude n d - 52) (-1074).
Proof. done. Qed.

Lemma magnitude_upper n d K :
  0 < n → 0 < d → 0 <= K → n < d * 2 ^ (K + 1) → magnitude n d <= K.
Proof.
  intros Hn Hd HK Hlt. unfold magnitude.
  assert (Z.log2 n - Z.log2 d <= K + 1) as Hk.
  { pose proof (Z.log2_le_mono n (d * 2 ^ (K + 1)) ltac:(lia)) as Hm.
    rewrite Z.log2_mul_pow2 in Hm by lia. lia. }
  set (k := Z.log2 n - Z.log2 d) in *. clearbody k.
  destruct (Z.ltb_spec (n * 2 ^ Z.max 0 (- k)) (d * 2 ^ Z.max 0 k)); [lia |].
  destruct (Z.eq_dec k (K + 1)) as [-> | Hne]; [| lia].
  rewrite (Z.max_l 0 (- (K + 1))), (Z.max_r 0 (K + 1)) in * by lia. rewrite Z.pow_0_r in *. lia.
Qed.

(** [n / d < 2^(magnitude + 1)]. *)
Lemma magnitude_spec n d :
  0 < n → 0 < d →
  n * 2 ^ Z.max 0 (- magnitude n d) < 2 * (d * 2 ^ Z.max 0 (magnitude n d)).
Proof.
  intros Hn Hd. unfold magnitude. set (k := Z.log2 n - Z.log2 d).
  destruct (Z.ltb_spec (n * 2 ^ Z.max 0 (- k)) (d * 2 ^ Z.max 0 k)) as [Hlt | _].
  - destruct (Z.leb_spec k 0).
    + rewrite (Z.max_l 0 (k - 1)), (Z.max_r 0 (- (k - 1))) by lia.
      rewrite (Z.max_l 0 k), (Z.max_r 0 (- k)) in Hlt by lia.
      replace (- (k - 1)) with (Z.succ (- k)) by lia. rewrite Z.pow_succ_r by lia.
      rewrite Z.pow_0_r in *. lia.
    + rewrite (Z.max_r 0 (k - 1)), (Z.max_l 0 (- (k - 1))) by lia.
      rewrite (Z.max_r 0 k), (Z.max_l 0 (- k)) in Hlt by lia.
      replace k with (Z.succ (k - 1)) in Hlt by lia. rewrite Z.pow_succ_r in Hlt by lia.
      rewrite Z.pow_0_r in *. lia.
  - pose proof (Z.log2_spec n Hn) as [_ Hn2]. pose proof (Z.log2_spec d Hd) as [Hd2 _].
    pose proof (Z.log2_nonneg n). pose proof (Z.log2_nonneg d).
    rewrite Z.pow_succ_r in Hn2 by lia. subst k.
    destruct (Z.leb_spec (Z.log2 n) (Z.log2 d)) as [Hle | Hgt].
    + rewrite Z.max_r, Z.max_l, Z.pow_0_r by lia.
      replace (- (Z.log2 n - Z.log2 d)) with (Z.log2 d - Z.log2 n) by lia.
      assert (2 ^ Z.log2 n * 2 ^ (Z.log2 d - Z.log2 n) = 2 ^ Z.log2 d) as Hpow
        by (rewrite <- Z.pow_add_r by lia; f_equal; lia).
      assert (0 < 2 ^ (Z.log2 d - Z.log2 n)) by (apply Z.pow_pos_nonneg; lia). nia.
    + rewrite Z.max_l, Z.max_r, Z.pow_0_r by lia.
      assert (2 ^ Z.log2 d * 2 ^ (Z.log2 n - Z.log2 d) = 2 ^ Z.log2 n) as Hpow
        by (rewrite <- Z.pow_add_r by lia; f_equal; lia).
      assert (0 < 2 ^ (Z.log2 n - Z.log2 d)) by (apply Z.pow_pos_nonneg; lia). nia.
Qed.

(** Below [2^53] a float is within half a unit of its last place of the number
    it stands for. *)
Lemma float_of_ratio_error n d K :
  0 < n → 0 < d → 0 <= K <= 52 → n < d * 2 ^ (K + 1) →
  ∃ m e, float_of_ratio n d = Fin m e ∧ -1074 <= e <= K - 52 ∧ 2 * Z.abs (m * d - n * 2 ^ (- e)) <= d.
Proof.
  intros Hn Hd HK Hlt. pose proof (magnitude_upper n d K Hn Hd ltac:(lia) Hlt) as Hup.
  pose proof (magnitude_spec n d Hn Hd) as Hmag.
  unfold float_of_ratio. destruct (Z.eqb_spec n 0); [lia |].
  rewrite exponent_magnitude. set (k := magnitude n d) in *. set (e := Z.max (k - 52) (-1074)).
  assert (-1074 <= e <= K - 52) as He by lia.
  assert (scaled n d e = div_even (n * 2 ^ (- e)) d) as Hs.
  { unfold scaled. rewrite (Z.max_r 0 (- e)), (Z.max_l 0 e), Z.pow_0_r, Z.mul_1_r by lia. done. }
  rewrite Hs, (Z.max_l 0 e), Z.pow_0_r, Z.mul_1_r by lia.
  pose proof (div_even_error (n * 2 ^ (- e)) d Hd) as Herr.
  set (m := div_even (n * 2 ^ (- e)) d) in *.
  assert (n * 2 ^ (- e) < d * 2 ^ 53) as Hbound.
  { assert (0 < 2 ^ (- e)) by (apply Z.pow_pos_nonneg; lia).
    destruct (Z.leb_spec 0 k).
    - rewrite (Z.max_l 0 (- k)), (Z.max_r 0 k), Z.pow_0_r in Hmag by lia.
      assert (2 ^ 53 = 2 ^ k * 2 * 2 ^ (52 - k)) as ->.
      { rewrite <- Z.mul_assoc, <- (Z.pow_succ_r 2 (52 - k)), <- Z.pow_add_r by lia. f_equal. lia. }
      assert (e = k - 52) as -> by lia. replace (- (k - 52)) with (52 - k) by lia.
      assert (0 < 2 ^ (52 - k)) by (apply Z.pow_pos_nonneg; lia). nia.
    - rewrite (Z.max_r 0 (- k)), (Z.max_l 0 k), Z.pow_0_r in Hmag by lia.
      assert (2 ^ (- e) <= 2 ^ (- k) * 2 ^ 52) as Hle.
      { rewrite <- Z.pow_add_r by lia. apply Z.pow_le_mono_r; lia. }
      assert (0 < 2 ^ (- k)) by (apply Z.pow_pos_nonneg; lia).
      change (2 ^ 53) with (2 * 2 ^ 52). nia. }
  assert (m <= 2 ^ 53) as Hm by nia.
  destruct (Z.leb_spec (2 ^ 1024) m).
  { assert (2 ^ 53 < 2 ^ 1024) by (apply Z.pow_lt_mono_r; lia). lia. }
  exists m, e. split_and!; [done | lia | lia | exact Herr].
Qed.

Lemma float_of_ratio_cases n d :
  float_of_ratio n d = Inf false ∨ ∃ m e, float_of_ratio n d = Fin m e.
Proof. unfold float_of_ratio. destruct (n =? 0); [by eauto |]. destruct (_ <=? _); eauto. Qed.

(** * Decimal prices *)

(** The float of a price in whole cents, multiplied by 100 and rounded, is that
    number of cents: the two rounding errors together stay below one half. *)
Lemma cents_exact c :
  1 <= c <= 100000000 →
  ∃ m e, float_of_ratio c 100 = Fin m e ∧ 0 < m
    ∧ float_round (float_mul (Fin m e) 100) = Ok c
    ∧ isfinite_float (float_mul (Fin m e) 100) = true.
Proof.
  intros Hc.
  destruct (float_of_ratio_error c 100 19) as (m & e & Hf & He & Herr); [lia.. | |].
  { change (2 ^ (19 + 1)) with 1048576. lia. }
  exists m, e. split; [exact Hf |].
  assert (2 ^ 33 <= 2 ^ (- e)) as Hp by (apply Z.pow_le_mono_r; lia).
  change (2 ^ 33) with 8589934592 in Hp.
  assert (0 < m) as Hm by nia. split; [exact Hm |].
  unfold float_mul. rewrite (Z.max_l 0 e), Z.pow_0_r, Z.mul_1_r, (Z.max_r 0 (- e)) by lia.
  set (D := 2 ^ (- e)) in *. clearbody D.
  destruct (float_of_ratio_error (m * 100) D 26) as (m2 & e2 & Hf2 & He2 & Herr2); [lia.. | |].
  { change (2 ^ (26 + 1)) with 134217728. nia. }
  rewrite Hf2. split; [| done]. unfold float_round. f_equal.
  rewrite (Z.max_l 0 e2), Z.pow_0_r, Z.mul_1_r, (Z.max_r 0 (- e2)) by lia.
  assert (2 ^ 26 <= 2 ^ (- e2)) as Hp2 by (apply Z.pow_le_mono_r; lia).
  change (2 ^ 26) with 67108864 in Hp2. set (D2 := 2 ^ (- e2)) in *. clearbody D2.
  apply div_even_near; [lia |].
  (* |m2 - c*D2| * D <= |m2*D - 100m*D2| + D2 * |100m - c*D| *)
  assert (2 * Z.abs (m2 * D - c * D2 * D) <= D + D2 * 100) as Hsum by nia.
  replace (m2 * D - c * D2 * D) with ((m2 - c * D2) * D) in Hsum by ring.
  rewrite Z.abs_mul, (Z.abs_eq D) in Hsum by lia.
  replace (Z.abs (c * D2 - m2)) with (Z.abs (m2 - c * D2)) by lia.
  set (x := Z.abs (m2 - c * D2)) in *. clearbody x. clear - Hsum Hp Hp2.
  apply Z.nle_gt. intros Hx. assert (D2 * D <= 2 * (x * D)) by nia. nia.
Qed.
