(* ===== verification/Text.v ===== *)
(** The text operations of the page parsers: [str.find] with bounds, and the
    part of [re] their patterns use, as a backtracking matcher with Python's
    priorities (greedy and lazy repetition, groups, lookahead, word boundary).

    A document is a sequence of characters, one [ascii] each: the model covers
    the pages whose text stays in Latin-1.  [M] is what a pattern matches, and
    the matcher is proved sound and complete for it. *)

From S2P Require Import Prelude.

(** * [str.find] *)

Fixpoint find (sub s : list ascii) : option nat :=
  if bool_decide (sub `prefix_of` s) then Some 0%nat
  else match s with [] => None | _ :: s' => S <$> find sub s' end.

(** [s.find(sub, start, end)], and [s[start:end]]. *)
Definition slice (s : list ascii) (start stop : nat) : list ascii :=
  take (stop - start) (drop start s).
Definition find_in (sub s : list ascii) (start stop : nat) : option nat :=
  (λ i, (start + i)%nat) <$> find sub (slice s start stop).

Definition contains_text (s marker : list ascii) : bool :=
  match find marker s with Some _ => true | None => false end.

(** * Patterns *)

Definition pos : Type := option ascii * list ascii.   (* character before, text after *)
Notation captures := (gmap nat (list ascii)).

Inductive re :=
| Eps
| Chr (p : ascii → bool)
| Seq (a b : re)
| Alt (a b : re)
| Star (greedy : bool) (a : re)
| Group (n : nat) (a : re)
| Ahead (a : re)
| WordB
| AtEnd.

(** [\w] and [\s] on Latin-1 text. *)
Definition is_word (c : ascii) : bool :=
  let n := Z.of_N (N_of_ascii c) in
  ((48 <=? n) && (n <=? 57)) || ((65 <=? n) && (n <=? 90)) || ((97 <=? n) && (n <=? 122))
  || (n =? 95) || (n =? 170) || (n =? 178) || (n =? 179) || (n =? 181) || (n =? 185) || (n =? 186)
  || ((188 <=? n) && (n <=? 190)) || ((192 <=? n) && negb (n =? 215) && negb (n =? 247)).
Definition is_white (c : ascii) : bool :=
  let n := Z.of_N (N_of_ascii c) in
  (n =? 32) || ((9 <=? n) && (n <=? 13)) || ((28 <=? n) && (n <=? 31)) || (n =? 133) || (n =? 160).

Definition at_word (c : option ascii) : bool := match c with Some c => is_word c | None => false end.

Definition result_of : Type := pos * captures.

(** A repetition of [body], at most [n] times more; it stops when its body does
    not advance. *)
Fixpoint repeat_match
    (body : pos → captures → (pos → captures → option result_of) → option result_of)
    (greedy : bool) (k : pos → captures → option result_of) (n : nat) (p : pos) (c : captures)
    : option result_of :=
  match n with
  | O => k p c
  | S n' =>
      let again := body p c (λ p1 c1,
        if (length p1.2 <? length p.2)%nat then repeat_match body greedy k n' p1 c1 else None) in
      if greedy then match again with Some x => Some x | None => k p c end
      else match k p c with Some x => Some x | None => again end
  end.

(** The matcher: the first success in Python's order. *)
Fixpoint rmatch (r : re) (p : pos) (c : captures) (k : pos → captures → option result_of)
    {struct r} : option result_of :=
  match r with
  | Eps => k p c
  | Chr f => match p.2 with
             | x :: s => if f x then k (Some x, s) c else None
             | [] => None
             end
  | Seq a b => rmatch a p c (λ p1 c1, rmatch b p1 c1 k)
  | Alt a b => match rmatch a p c k with Some x => Some x | None => rmatch b p c k end
  | Star greedy a =>
      repeat_match (rmatch a) greedy k (length p.2) p c
  | Group n a =>
      rmatch a p c (λ p1 c1, k p1 (<[n := take (length p.2 - length p1.2) p.2]> c1))
  | Ahead a =>
      match rmatch a p c (λ p1 c1, Some (p1, c1)) with
      | Some (_, c1) => k p c1
      | None => None
      end
  | WordB => if xorb (at_word p.1) (at_word (head p.2)) then k p c else None
  | AtEnd => if bool_decide (p.2 = []) || bool_decide (p.2 = ["010"%char]) then k p c else None
  end.

Definition match_at (r : re) (p : pos) : option result_of := rmatch r p ∅ (λ p c, Some (p, c)).

(** [pattern.search]: what is skipped, where the match ends, its groups. *)
Fixpoint search_from (r : re) (before : option ascii) (s : list ascii)
    : option (list ascii * pos * captures) :=
  match match_at r (before, s) with
  | Some (p, c) => Some ([], p, c)
  | None =>
      match s with
      | [] => None
      | x :: s' => '(sk, p, c) ← search_from r (Some x) s'; Some (x :: sk, p, c)
      end
  end.

(** [pattern.search(s)] and [pattern.search(s, start, stop)], the groups. *)
Definition search (r : re) (s : list ascii) : option captures :=
  (λ x, x.2) <$> search_from r None s.
Definition search_in (r : re) (s : list ascii) (start stop : nat) : option captures :=
  (λ x, x.2) <$> search_from r (last (take start s)) (slice s start stop).

(** [finditer] and [sub], for patterns that match no empty text. *)
Fixpoint find_all (n : nat) (r : re) (before : option ascii) (s : list ascii) : list captures :=
  match n with
  | O => []
  | S n' => match search_from r before s with
            | Some (_, p, c) => c :: find_all n' r p.1 p.2
            | None => []
            end
  end.
Definition finditer (r : re) (s : list ascii) : list captures := find_all (S (length s)) r None s.

Fixpoint sub_all (n : nat) (r : re) (by_ : list ascii) (before : option ascii) (s : list ascii)
    : list ascii :=
  match n with
  | O => s
  | S n' => match search_from r before s with
            | Some (sk, p, _) => (sk ++ by_ ++ sub_all n' r by_ p.1 p.2)%list
            | None => s
            end
  end.
Definition re_sub (r : re) (by_ s : list ascii) : list ascii := sub_all (S (length s)) r by_ None s.

(** [pattern.fullmatch(s)] succeeds. *)
Definition fullmatch (r : re) (s : list ascii) : bool :=
  match rmatch r (None, s) ∅ (λ p c, if bool_decide (p.2 = []) then Some (p, c) else None) with
  | Some _ => true
  | None => false
  end.

(** [match.group(n)], of a group that took part in the match. *)
Definition group (n : nat) (c : captures) : list ascii := default [] (c !! n).

(** ** Notation of patterns *)

Definition ch (c : ascii) : re := Chr (λ x, bool_decide (x = c)).
Definition none_of (cs : list ascii) : re := Chr (λ x, negb (bool_decide (x ∈ cs))).
Definition one_of (cs : list ascii) : re := Chr (λ x, bool_decide (x ∈ cs)).
Definition any : re := Chr (λ _, true).
Definition range (a b : ascii) (x : ascii) : bool :=
  ((N_of_ascii a <=? N_of_ascii x) && (N_of_ascii x <=? N_of_ascii b))%N.
Definition digit : re := Chr (range "0" "9").
Definition white : re := Chr is_white.
Definition seq_of (rs : list re) : re := foldr Seq Eps rs.
Definition lit (s : string) : re := seq_of (ch <$> chars s).
Definition many (r : re) : re := Star true r.
Definition many1 (r : re) : re := Seq r (Star true r).
Definition lazy (r : re) : re := Star false r.
Definition opt (r : re) : re := Alt r Eps.
(** [r{n}] and [r{1,n}] style repetition: [n] mandatory, then up to [k] more. *)
Definition times (n : nat) (r : re) : re := seq_of (repeat r n).
Fixpoint at_most (k : nat) (r : re) : re :=
  match k with O => Eps | S k' => opt (Seq r (at_most k' r)) end.

(** * What a pattern matches *)

Inductive M : re → pos → captures → pos → captures → Prop :=
| M_eps p c : M Eps p c p c
| M_chr f b x s c : f x = true → M (Chr f) (b, x :: s) c (Some x, s) c
| M_seq a b p c p1 c1 p2 c2 : M a p c p1 c1 → M b p1 c1 p2 c2 → M (Seq a b) p c p2 c2
| M_alt_l a b p c p1 c1 : M a p c p1 c1 → M (Alt a b) p c p1 c1
| M_alt_r a b p c p1 c1 : M b p c p1 c1 → M (Alt a b) p c p1 c1
| M_star_nil g a p c : M (Star g a) p c p c
| M_star_cons g a p c p1 c1 p2 c2 :
    M a p c p1 c1 → (length p1.2 < length p.2)%nat → M (Star g a) p1 c1 p2 c2 →
    M (Star g a) p c p2 c2
| M_group n a p c p1 c1 :
    M a p c p1 c1 → M (Group n a) p c p1 (<[n := take (length p.2 - length p1.2) p.2]> c1)
| M_ahead a p c p1 c1 : M a p c p1 c1 → M (Ahead a) p c p c1
| M_wordb p c : xorb (at_word p.1) (at_word (head p.2)) = true → M WordB p c p c
| M_end p c : p.2 = [] ∨ p.2 = ["010"%char] → M AtEnd p c p c.

(** The matcher finds only matches. *)
Lemma rmatch_sound r p c k x :
  rmatch r p c k = Some x → ∃ p1 c1, M r p c p1 c1 ∧ k p1 c1 = Some x.
Proof.
  revert p c k x. induction r as [| f | a IHa b IHb | a IHa b IHb | g a IHa | n a IHa | a IHa | |];
    intros [bf s] c k x; cbn [rmatch].
  - intros H. by repeat econstructor.
  - cbn [snd]. destruct s as [| y s]; [done |]. destruct (f y) eqn:Ef; [| done].
    intros H. by repeat econstructor.
  - intros (p1 & c1 & H1 & (p2 & c2 & H2 & Hk)%IHb)%IHa. by repeat econstructor.
  - destruct (rmatch a _ _ _) as [y |] eqn:Ea.
    + intros [= ->]. apply IHa in Ea as (p1 & c1 & H1 & Hk). exists p1, c1. split; [by constructor | done].
    + intros (p1 & c1 & H1 & Hk)%IHb. exists p1, c1. split; [by apply M_alt_r | done].
  - cbn [snd]. set (n := length s). clearbody n. revert bf s c x.
    induction n as [| n IHn]; intros bf s c x.
    { intros H. by repeat econstructor. }
    cbn [repeat_match]. set (again := rmatch a (bf, s) c _).
    assert (∀ y, again = Some y →
       ∃ p1 c1, M (Star g a) (bf, s) c p1 c1 ∧ k p1 c1 = Some y) as Hagain.
    { intros y (p1 & c1 & H1 & Hk)%IHa. cbn [snd] in Hk.
      destruct (Nat.ltb_spec (length p1.2) (length s)) as [Hlt |]; [| done].
      destruct p1 as [b1 s1]. apply IHn in Hk as (p2 & c2 & H2 & Hk).
      exists p2, c2. split; [exact (M_star_cons g a _ _ _ _ _ _ H1 Hlt H2) | done]. }
    assert (k (bf, s) c = Some x → ∃ p1 c1, M (Star g a) (bf, s) c p1 c1 ∧ k p1 c1 = Some x) as Hstop.
    { intros H. by repeat econstructor. }
    clearbody again. destruct g.
    + destruct again as [y |]; [| exact Hstop]. intros [= ->]. by apply Hagain.
    + destruct (k (bf, s) c) as [y |] eqn:E; [exact Hstop |]. apply Hagain.
  - intros (p1 & c1 & H1 & Hk)%IHa. by repeat econstructor.
  - destruct (rmatch a _ _ _) as [[p1 c1] |] eqn:E; [| done]. intros Hk.
    apply IHa in E as (p2 & c2 & H2 & [= -> ->]). by repeat econstructor.
  - cbn [fst snd]. destruct (xorb _ _) eqn:E; [| done]. intros H. by repeat econstructor.
  - cbn [snd]. destruct (_ || _) eqn:E; [| done]. intros H. exists (bf, s), c. split; [| done].
    constructor. apply orb_true_iff in E as [?%bool_decide_eq_true | ?%bool_decide_eq_true]; auto.
Qed.

(** And whenever there is one whose continuation accepts, it finds one. *)
Lemma rmatch_complete_loop r p c p1 c1 :
  M r p c p1 c1 → ∀ c0 k, (∀ c', is_Some (k p1 c')) →
  is_Some (rmatch r p c0 k)
  ∧ ∀ g a, r = Star g a → ∀ n, (length p.2 ≤ n)%nat → is_Some (repeat_match (rmatch a) g k n p c0).
Proof.
  assert (∀ g a p c0 k n, (∀ c', is_Some (k p c')) → is_Some (repeat_match (rmatch a) g k n p c0)) as Hstop.
  { clear. intros g a p c0 k n Hk. destruct n; [apply Hk |]. cbn. destruct (Hk c0) as [x Hx].
    destruct g; [destruct (rmatch a _ _ _); [by eexists |] |]; rewrite Hx; by eexists. }
  induction 1 as [p c | f b x s c Hf | a b p c p1 c1 p2 c2 H1 IH1 H2 IH2 | a b p c p1 c1 H IH
                 | a b p c p1 c1 H IH | g a p c | g a p c p1 c1 p2 c2 H1 IH1 Hlt H2 IH2
                 | n a p c p1 c1 H IH | a p c p1 c1 H IH | p c Hw | p c He];
    intros c0 k Hk; cbn [rmatch].
  - by split; [apply Hk |].
  - cbn [snd]. rewrite Hf. by split; [apply Hk |].
  - split; [| done]. apply IH1. intros c'. by apply IH2.
  - split; [| done]. destruct (IH c0 k Hk) as [[x ->] _]. by eexists.
  - split; [| done]. destruct (rmatch a p c0 k); [by eexists | by apply IH].
  - split; [by apply Hstop |]. intros g' a' [= <- <-] n _. by apply Hstop.
  - assert (∀ n, (length p.2 ≤ n)%nat → is_Some (repeat_match (rmatch a) g k n p c0)) as Hloop.
    { intros [| n] Hn; [lia |]. cbn [repeat_match].
      assert (is_Some (rmatch a p c0 (λ p1 c1, if (length p1.2 <? length p.2)%nat
                 then repeat_match (rmatch a) g k n p1 c1 else None))) as [x Hx].
      { apply IH1. intros c'. destruct (Nat.ltb_spec (length p1.2) (length p.2)); [| lia].
        apply (proj2 (IH2 c' k Hk) g a eq_refl). lia. }
      rewrite Hx. destruct g; [by eexists |]. destruct (k p c0); by eexists. }
    split; [by apply Hloop |]. intros g' a' [= <- <-]. exact Hloop.
  - split; [| done]. by apply IH.
  - split; [| done]. destruct (proj1 (IH c0 (λ p1 c1, Some (p1, c1)) ltac:(by eexists))) as [[p2 c2] ->].
    apply Hk.
  - rewrite Hw. by split; [apply Hk |].
  - split; [| done].
    assert (bool_decide (p.2 = []) || bool_decide (p.2 = ["010"%char]) = true) as ->; [| apply Hk].
    apply orb_true_iff. rewrite !bool_decide_eq_true. done.
Qed.

Lemma rmatch_complete r p c p1 c1 c0 k :
  M r p c p1 c1 → (∀ c', is_Some (k p1 c')) → is_Some (rmatch r p c0 k).
Proof. intros H Hk. by apply (rmatch_complete_loop _ _ _ _ _ H c0 k Hk). Qed.

(** *** Searching *)

Lemma match_at_sound r p p1 c1 : match_at r p = Some (p1, c1) → M r p ∅ p1 c1.
Proof. intros (p2 & c2 & H & [= <- <-])%rmatch_sound. exact H. Qed.

Lemma match_at_complete r p c p1 c1 : M r p c p1 c1 → is_Some (match_at r p).
Proof. intros H. eapply rmatch_complete; [exact H |]. intros c'. by eexists. Qed.

(** What [search] finds: the text it skips, and a match of what follows; no
    match starts in the text it skips. *)
Lemma search_from_sound r bf s sk p c :
  search_from r bf s = Some (sk, p, c) →
  ∃ mid, s = (sk ++ mid)%list ∧ match_at r (match last sk with Some x => Some x | None => bf end, mid) = Some (p, c).
Proof.
  revert bf sk. induction s as [| x s IH]; intros bf sk; cbn.
  - destruct (match_at r (bf, [])) as [[p1 c1] |] eqn:E; [| done]. intros [= <- <- <-].
    by exists [].
  - destruct (match_at r (bf, x :: s)) as [[p1 c1] |] eqn:E.
    + intros [= <- <- <-]. by exists (x :: s).
    + destruct (search_from r (Some x) s) as [[[sk1 p1] c1] |] eqn:Es; [| done].
      intros [= <- <- <-]. apply IH in Es as (mid & -> & Hm). exists mid. split; [done |].
      rewrite last_cons. by destruct (last sk1).
Qed.

Lemma search_from_None r bf s sk mid :
  search_from r bf s = None → s = (sk ++ mid)%list →
  match_at r (match last sk with Some x => Some x | None => bf end, mid) = None.
Proof.
  revert bf sk. induction s as [| x s IH]; intros bf sk; cbn.
  - destruct (match_at r (bf, [])) as [[] |] eqn:E; [done |]. intros _ Hs.
    symmetry in Hs. apply app_eq_nil in Hs as [-> ->]. done.
  - destruct (match_at r (bf, x :: s)) as [[] |] eqn:E; [done |].
    destruct (search_from r (Some x) s) as [[[] ?] |] eqn:Es; [done |]. intros _ Hs.
    destruct sk as [| y sk]; [cbn in Hs; by subst mid |]. injection Hs as -> Hs.
    rewrite last_cons. specialize (IH (Some y) sk Es Hs). by destruct (last sk).
Qed.

(** A match somewhere is found, not later than there. *)
Lemma search_from_complete r bf s sk mid :
  s = (sk ++ mid)%list → is_Some (match_at r (match last sk with Some x => Some x | None => bf end, mid)) →
  ∃ sk' p' c', search_from r bf s = Some (sk', p', c').
Proof.
  intros Hs [x Hx]. destruct (search_from r bf s) as [[[sk' p'] c'] |] eqn:E; [by eauto |].
  by rewrite (search_from_None _ _ _ _ _ E Hs) in Hx.
Qed.

(** *** Texts and groups *)

(** The texts a pattern can match, whatever surrounds them. *)
Inductive lang : re → list ascii → Prop :=
| lang_eps : lang Eps []
| lang_chr f x : f x = true → lang (Chr f) [x]
| lang_seq a b u v : lang a u → lang b v → lang (Seq a b) (u ++ v)
| lang_alt_l a b u : lang a u → lang (Alt a b) u
| lang_alt_r a b u : lang b u → lang (Alt a b) u
| lang_star_nil g a : lang (Star g a) []
| lang_star_cons g a u v : lang a u → lang (Star g a) v → lang (Star g a) (u ++ v)
| lang_group n a u : lang a u → lang (Group n a) u
| lang_ahead a : lang (Ahead a) []
| lang_wordb : lang WordB []
| lang_end : lang AtEnd [].

Lemma M_lang r p c p1 c1 : M r p c p1 c1 → ∃ w, p.2 = (w ++ p1.2)%list ∧ lang r w.
Proof.
  induction 1 as [| f b x s c Hf | a b p c p1 c1 p2 c2 _ (u & Hu & Lu) _ (v & Hv & Lv)
                 | a b p c p1 c1 _ (u & Hu & Lu) | a b p c p1 c1 _ (u & Hu & Lu) |
                 | g a p c p1 c1 p2 c2 _ (u & Hu & Lu) _ _ (v & Hv & Lv)
                 | n a p c p1 c1 _ (u & Hu & Lu) | | |];
    try (exists []; split; [done | constructor]).
  - exists [x]. split; [done | by constructor].
  - exists (u ++ v)%list. rewrite Hu, Hv, app_assoc. split; [done | by constructor].
  - exists u. split; [done | by constructor].
  - exists u. split; [done | by apply lang_alt_r].
  - exists (u ++ v)%list. rewrite Hu, Hv, app_assoc. split; [done | by constructor].
  - exists u. split; [done | by constructor].
Qed.

Lemma fullmatch_lang r s : fullmatch r s = true → lang r s.
Proof.
  unfold fullmatch. destruct (rmatch _ _ _ _) as [x |] eqn:E; [| done]. intros _.
  apply rmatch_sound in E as (p & c & HM & Hk). case_bool_decide as Hp; [| done].
  apply M_lang in HM as (w & Hw & Lw). cbn in Hw. rewrite Hp, app_nil_r in Hw. by subst.
Qed.

(** The group [n] is not in the pattern. *)
Fixpoint no_group (n : nat) (r : re) : bool :=
  match r with
  | Seq a b | Alt a b => no_group n a && no_group n b
  | Star _ a | Ahead a => no_group n a
  | Group m a => negb (Nat.eqb m n) && no_group n a
  | _ => true
  end.

Lemma M_no_group n r p c p1 c1 : M r p c p1 c1 → no_group n r = true → c1 !! n = c !! n.
Proof.
  induction 1 as [| | a b p c p1 c1 p2 c2 H1 IH1 H2 IH2 | a b p c p1 c1 H IH | a b p c p1 c1 H IH |
                 | g a p c p1 c1 p2 c2 H1 IH1 Hl H2 IH2 | m a p c p1 c1 H IH | a p c p1 c1 H IH | |];
    cbn [no_group]; try done; intros Hn.
  - apply andb_true_iff in Hn as [Ha Hb]. by rewrite IH2, IH1.
  - apply andb_true_iff in Hn as [Ha Hb]. by apply IH.
  - apply andb_true_iff in Hn as [Ha Hb]. by apply IH.
  - by rewrite IH2, IH1.
  - apply andb_true_iff in Hn as [Hm Hn]. destruct (Nat.eqb_spec m n); [done |].
    rewrite lookup_insert_ne by done. by apply IH.
Qed.

(** What a group of a sequence holds. *)
Lemma M_seq_group l1 n a l2 p c p1 c1 :
  M (seq_of (l1 ++ Group n a :: l2)) p c p1 c1 → forallb (no_group n) l2 = true →
  lang a (group n c1).
Proof.
  revert p c. induction l1 as [| r l1 IH]; intros p c; cbn [app seq_of foldr];
    intros H Hn; inversion H as [| | ? ? ? ? p2 c2 ? ? H1 H2 | | | | | | | |]; subst; clear H;
    [| by eapply IH].
  inversion H1 as [| | | | | | | m b q d q1 c3 H3 | | |]; subst. clear H1.
  assert (no_group n (seq_of l2) = true) as Hl2.
  { clear H2. induction l2 as [| r l2 IH2]; [done |]. cbn in *. apply andb_true_iff in Hn as [-> Hn].
    by apply IH2. }
  unfold group. rewrite (M_no_group _ _ _ _ _ _ H2 Hl2), lookup_insert_eq. cbn.
  destruct (M_lang _ _ _ _ _ H3) as (w & Hw & Lw). rewrite Hw, length_app.
  replace (length w + length p2.2 - length p2.2)%nat with (length w) by lia.
  by rewrite take_app_length.
Qed.

Lemma search_from_M r bf s sk p c :
  search_from r bf s = Some (sk, p, c) →
  ∃ bf' mid, s = (sk ++ mid)%list ∧ M r (bf', mid) ∅ p c.
Proof.
  intros (mid & Hs & Hm)%search_from_sound. eexists _, mid. split; [exact Hs |].
  by apply match_at_sound.
Qed.

Lemma search_M r s c : search r s = Some c → ∃ sk bf mid p, s = (sk ++ mid)%list ∧ M r (bf, mid) ∅ p c.
Proof.
  unfold search. destruct (search_from r None s) as [[[sk p] c'] |] eqn:E; [| done].
  intros [= <-]. apply search_from_M in E as (bf & mid & ? & ?). by eauto 6.
Qed.

Lemma search_in_M r s i j c :
  search_in r s i j = Some c → ∃ sk bf mid p, slice s i j = (sk ++ mid)%list ∧ M r (bf, mid) ∅ p c.
Proof.
  unfold search_in. destruct (search_from r _ _) as [[[sk p] c'] |] eqn:E; [| done].
  intros [= <-]. apply search_from_M in E as (bf & mid & ? & ?). by eauto 6.
Qed.

Lemma find_all_M n r bf s c :
  c ∈ find_all n r bf s → ∃ pre bf' mid p, s = (pre ++ mid)%list ∧ M r (bf', mid) ∅ p c.
Proof.
  revert bf s. induction n as [| n IH]; intros bf s; cbn; [by intros ?%elem_of_nil |].
  destruct (search_from r bf s) as [[[sk p] c'] |] eqn:E; [| by intros ?%elem_of_nil].
  apply search_from_M in E as (bf' & mid & -> & HM). intros [-> | Hc]%elem_of_cons; [by eauto 6 |].
  apply IH in Hc as (pre & bf2 & mid2 & p2 & Hp & HM2).
  destruct (M_lang _ _ _ _ _ HM) as (w & Hw & _). cbn in Hw. subst mid. rewrite Hp.
  exists (sk ++ w ++ pre)%list, bf2, mid2, p2. split; [by rewrite <- !app_assoc | done].
Qed.

(** *** Shapes *)

Lemma lang_seq_of l w : lang (seq_of l) w → ∃ ws, w = concat ws ∧ Forall2 lang l ws.
Proof.
  revert w. induction l as [| r l IH]; intros w H; cbn in H.
  - inversion_clear H. by exists [].
  - inversion_clear H as [| | ? ? u v H1 H2 | | | | | | | |]. apply IH in H2 as (ws & -> & Hws).
    exists (u :: ws). split; [done | by constructor].
Qed.

Lemma lang_chr_inv f w : lang (Chr f) w → ∃ x, w = [x] ∧ f x = true.
Proof. intros H. inversion_clear H. by eauto. Qed.

Lemma lang_star_Forall g f w : lang (Star g (Chr f)) w → Forall (λ x, f x = true) w.
Proof.
  remember (Star g (Chr f)) as r eqn:E. induction 1; try done.
  injection E as -> ->. apply Forall_app. split; [| by apply IHlang2].
  apply lang_chr_inv in H as (x & -> & Hx). by repeat constructor.
Qed.

Lemma lang_lit s w : lang (lit s) w → w = chars s.
Proof.
  unfold lit. intros (ws & -> & Hws)%lang_seq_of. revert ws Hws.
  induction (chars s) as [| x l IH]; intros ws Hws; inversion_clear Hws as [| ? w ? ws' Hw Hws']; [done |].
  apply lang_chr_inv in Hw as (y & -> & Hy). apply bool_decide_eq_true in Hy as ->. cbn.
  by rewrite (IH _ Hws').
Qed.

Lemma lang_times n f w : lang (times n (Chr f)) w → length w = n ∧ Forall (λ x, f x = true) w.
Proof.
  unfold times. intros (ws & -> & Hws)%lang_seq_of. revert ws Hws.
  induction n as [| n IH]; intros ws Hws; inversion_clear Hws as [| ? w ? ws' Hw Hws']; [done |].
  apply lang_chr_inv in Hw as (y & -> & Hy). destruct (IH _ Hws') as [Hl Hf]. cbn. split; [lia |].
  by constructor.
Qed.

Lemma lang_at_most n f w : lang (at_most n (Chr f)) w → (length w ≤ n)%nat ∧ Forall (λ x, f x = true) w.
Proof.
  revert w. induction n as [| n IH]; intros w H; cbn in H.
  - inversion_clear H. split; [done | constructor].
  - inversion_clear H as [| | | ? ? ? H1 | ? ? ? H1 | | | | | |].
    + inversion_clear H1 as [| | ? ? u v H2 H3 | | | | | | | |].
      apply lang_chr_inv in H2 as (x & -> & Hx). apply IH in H3 as [Hl Hf]. split; [cbn; lia |].
      by constructor.
    + inversion_clear H1. split; [cbn; lia | constructor].
Qed.

(** Whatever a pattern is made of, a property of the characters it reads. *)
Lemma lang_star_all (P : ascii → Prop) g a w :
  (∀ u, lang a u → Forall P u) → lang (Star g a) w → Forall P w.
Proof.
  intros Ha. remember (Star g a) as r eqn:E. induction 1; try done.
  injection E as -> ->. apply Forall_app. split; [by apply Ha | by apply IHlang2].
Qed.

(** *** Texts that are matched *)

(** A pattern that looks only at the text it matches. *)
Fixpoint plain (r : re) : bool :=
  match r with
  | Eps | Chr _ => true
  | Seq a b | Alt a b => plain a && plain b
  | Star _ a | Group _ a => plain a
  | Ahead _ | WordB | AtEnd => false
  end.

(** Such a pattern matches its texts wherever they are. *)
Lemma lang_M r w :
  lang r w → plain r = true → ∀ bf rest c, ∃ bf' c', M r (bf, w ++ rest)%list c (bf', rest) c'.
Proof.
  induction 1 as [| f x Hf | a b u v Hu IHu Hv IHv | a b u Hu IHu | a b u Hu IHu | g a
                 | g a u v Hu IHu Hv IHv | n a u Hu IHu | | |]; cbn [plain]; intros Hp bf rest c;
    try apply andb_true_iff in Hp as [Hpa Hpb]; try done.
  - exists bf, c. constructor.
  - exists (Some x), c. by constructor.
  - rewrite <- app_assoc. destruct (IHu Hpa bf (v ++ rest)%list c) as (b1 & c1 & H1).
    destruct (IHv Hpb b1 rest c1) as (b2 & c2 & H2). exists b2, c2. by econstructor.
  - destruct (IHu Hpa bf rest c) as (b1 & c1 & H1). exists b1, c1. by constructor.
  - destruct (IHu Hpb bf rest c) as (b1 & c1 & H1). exists b1, c1. by apply M_alt_r.
  - exists bf, c. constructor.
  - destruct u as [| x u]; [by apply IHv |].
    rewrite <- app_assoc. destruct (IHu Hp bf (v ++ rest)%list c) as (b1 & c1 & H1).
    destruct (IHv Hp b1 rest c1) as (b2 & c2 & H2). exists b2, c2.
    eapply M_star_cons; [exact H1 | | exact H2]. cbn. rewrite !length_app. lia.
  - destruct (IHu Hp bf rest c) as (b1 & c1 & H1). exists b1. eexists. by constructor.
Qed.

Lemma search_complete r sk w rest :
  lang r w → plain r = true → is_Some (search r (sk ++ w ++ rest)%list).
Proof.
  intros Hw Hp. unfold search.
  destruct (lang_M r w Hw Hp (match last sk with Some x => Some x | None => None end) rest ∅)
    as (bf' & c' & HM).
  destruct (search_from_complete r None (sk ++ w ++ rest)%list sk (w ++ rest)%list eq_refl) as (? & ? & ? & ->);
    [by eapply match_at_complete | by eexists].
Qed.

Lemma lang_seq_intro l ws : Forall2 lang l ws → lang (seq_of l) (concat ws).
Proof. induction 1; cbn; by constructor. Qed.

Lemma lang_lit_intro s : lang (lit s) (chars s).
Proof.
  unfold lit. induction (chars s) as [| x l IH]; cbn; [constructor |].
  change (x :: l) with ([x] ++ l)%list. constructor; [constructor; by apply bool_decide_eq_true | done].
Qed.

Lemma lang_star_intro g f w : Forall (λ x, f x = true) w → lang (Star g (Chr f)) w.
Proof.
  induction 1 as [| x w Hx Hw IH]; [constructor |].
  change (x :: w) with ([x] ++ w)%list. by constructor; [constructor |].
Qed.

Lemma lang_star_concat g a ws : Forall (lang a) ws → lang (Star g a) (concat ws).
Proof. induction 1; cbn; by constructor. Qed.

Lemma lang_times_intro f w : Forall (λ x, f x = true) w → lang (times (length w) (Chr f)) w.
Proof.
  unfold times. induction 1 as [| x w Hx Hw IH]; [constructor |]. cbn.
  change (x :: w) with ([x] ++ w)%list. by constructor; [constructor |].
Qed.

Lemma lang_at_most_intro n f w :
  (length w ≤ n)%nat → Forall (λ x, f x = true) w → lang (at_most n (Chr f)) w.
Proof.
  revert w. induction n as [| n IH]; intros [| x w] Hl Hw; cbn in Hl; try lia; cbn.
  - constructor.
  - apply lang_alt_r. constructor.
  - apply lang_alt_l. apply Forall_cons in Hw as [Hx Hw].
    change (x :: w) with ([x] ++ w)%list. constructor; [by constructor |]. apply IH; [lia | done].
Qed.

(** A whole match is found whenever the text is in the language. *)
Lemma fullmatch_complete r w : lang r w → plain r = true → fullmatch r w = true.
Proof.
  intros Hw Hp. destruct (lang_M r w Hw Hp None [] ∅) as (bf' & c' & HM).
  rewrite app_nil_r in HM. unfold fullmatch.
  destruct (rmatch_complete _ _ _ _ _ ∅
    (λ p c, if bool_decide (p.2 = []) then Some (p, c) else None) HM) as [x ->]; [| done].
  intros c0. by eexists.
Qed.

(** [^r$] with [match]: the text is in the language, up to one last newline. *)
Lemma match_at_end r s :
  plain r = true →
  is_Some (match_at (Seq r AtEnd) (None, s))
  ↔ lang r s ∨ ∃ s', s = (s' ++ ["010"%char])%list ∧ lang r s'.
Proof.
  intros Hp. split.
  - intros [[p c] Hm]. apply match_at_sound in Hm. inversion Hm as [| | a b p0 c0 p1 c1 p2 c2 H1 H2| | | | | | | |]; subst.
    apply M_lang in H1 as (w & Hw & Lw). cbn in Hw. subst s.
    inversion H2 as [| | | | | | | | | | ? ? He]; subst. destruct He as [-> | ->].
    + left. by rewrite app_nil_r.
    + right. by exists w.
  - assert (∀ w rest, lang r w → rest = [] ∨ rest = ["010"%char] →
              is_Some (match_at (Seq r AtEnd) (None, w ++ rest)%list)) as Hgo.
    { intros w rest Hw Hrest. destruct (lang_M r w Hw Hp None rest ∅) as (bf' & c' & HM).
      eapply match_at_complete. econstructor; [exact HM |]. by constructor. }
    intros [Hs | (s' & -> & Hs)]; [| by apply Hgo; auto].
    rewrite <- (app_nil_r s). apply Hgo; auto.
Qed.

Lemma lang_seq_inv a b w : lang (Seq a b) w → ∃ u v, w = (u ++ v)%list ∧ lang a u ∧ lang b v.
Proof. inversion 1; subst; eauto. Qed.

Lemma lang_opt_inv a w : lang (opt a) w → w = [] ∨ lang a w.
Proof. unfold opt. inversion 1 as [| | | | ? ? ? H1 | | | | | |]; subst; [by right | left]. by inversion H1. Qed.
