(* ===== verification/Parsers.v ===== *)
(** The state-JSON parsers ([kerdoos/parsers]): price normalisation, the safe
    path traverser, the __NEXT_DATA__ extractor and the [statejson] and
    [magalu] adapters.

    [json.loads] and the tokenizer of [html.parser] are arguments: [loads] is
    any function of the script's text, and a document is the list of the
    callbacks the tokenizer makes, in order. *)

From S2P Require Import Prelude Domain Registry Orchestrator Safety Egress Floats.

(** * JSON values *)

Inductive json :=
| JNull
| JBool (b : bool)
| JInt (n : Z)
| JFloat (x : pyfloat)
| JStr (s : string)
| JList (l : list json)
| JObj (fields : list (string * json)).

(** * normalize.py *)

Definition MAX_PRICE_CENTS : Z := 100000000.

Definition in_price_bounds (cents : Z) : option Z :=
  if (cents <=? 0) || (MAX_PRICE_CENTS <? cents) then None else Some cents.

Definition to_cents (value : json) : result (option Z) :=
  match value with
  | JInt n =>
      let? finite := isfinite_int n in
      if negb finite then Ok None
      else if n <=? 0 then Ok None
      else Ok (in_price_bounds (n * 100))
  | JFloat x =>
      if negb (isfinite_float x) then Ok None
      else if negb (float_pos x) then Ok None
      else match float_round (float_mul x 100) with
           | Ok cents => Ok (in_price_bounds cents)
           | Raise e => if is_a e.(exn_class) OverflowError then Ok None else Raise e
           end
  | _ => Ok None
  end.

(** * pathtraverse.py *)

Definition path_error {A} : result A := raise PathResolutionError "path not resolved".

(** [int(s)] on dashes and digits. *)
Definition signed_int (s : list ascii) : result Z :=
  match s with
  | "-"%char :: s' => let? n := int_of s' in Ok (- n)
  | _ => int_of s
  end.

Fixpoint lstrip_dash (s : list ascii) : list ascii :=
  match s with "-"%char :: s' => lstrip_dash s' | _ => s end.

(** The loop over [rest]; [n] bounds the groups left. *)
Fixpoint parse_indices (n : nat) (rest : list ascii) : result (list Z) :=
  match rest, n with
  | [], _ => Ok []
  | "["%char :: after, S n' =>
      let '(inner, found, rest') := partition "]"%char after in
      if negb found then path_error
      else if bool_decide (inner = []) || bool_decide (lstrip_dash inner = [])
              || negb (forallb latin1_digit (lstrip_dash inner))
      then path_error
      else
        let? i := signed_int inner in
        let? idx := parse_indices n' rest' in
        Ok (i :: idx)
  | _, _ => path_error
  end.

Definition parse_token (token : list ascii) : result (list ascii * list Z) :=
  if bool_decide (token = []) then path_error
  else
    let '(name, found, after) := partition "["%char token in
    if found then
      let? idx := parse_indices (length token) ("["%char :: after) in
      Ok (name, idx)
    else Ok (token, []).

Definition get_key (name : list ascii) (node : json) : result json :=
  match node with
  | JObj fields => match od_get (of_chars name) fields with
                   | Some v => Ok v
                   | None => path_error
                   end
  | _ => path_error
  end.

Definition get_index (node : json) (i : Z) : result json :=
  match node with
  | JList l => if (i <? 0) || (Z.of_nat (length l) <=? i) then path_error
               else match l !! Z.to_nat i with Some v => Ok v | None => path_error end
  | _ => path_error
  end.

Fixpoint get_indices (node : json) (idx : list Z) : result json :=
  match idx with
  | [] => Ok node
  | i :: idx' => let? v := get_index node i in get_indices v idx'
  end.

Fixpoint walk (node : json) (tokens : list (list ascii)) : result json :=
  match tokens with
  | [] => Ok node
  | token :: rest =>
      let? (name, idx) := parse_token token in
      let? v := if bool_decide (name = []) then Ok node else get_key name node in
      let? v' := get_indices v idx in
      walk v' rest
  end.

Definition resolve_path (data : json) (path : string) : result json :=
  if bool_decide (path = "") then path_error else walk data (fields_of "."%char (chars path)).

(** * nextdata.py *)

Inductive html_event :=
| StartTag (tag : string) (attrs : list (string * option string))
| EndTag (tag : string)
| Data (text : string).

Record NextData := mkNextData { capture : bool; buf : list string; data : option string }.

Definition on_event (p : NextData) (e : html_event) : NextData :=
  match e with
  | StartTag tag attrs =>
      if bool_decide (tag = "script")
         && bool_decide (od_get "id" (reverse attrs) = Some (Some "__NEXT_DATA__"))
      then mkNextData true p.(buf) p.(data) else p
  | EndTag tag =>
      if bool_decide (tag = "script") && p.(capture)
      then mkNextData false p.(buf)
             (match p.(data) with None => Some (String.concat "" p.(buf)) | Some d => Some d end)
      else p
  | Data text => if p.(capture) then mkNextData true (p.(buf) ++ [text]) p.(data) else p
  end.

Definition extract_next_data (events : list html_event) : option string :=
  (foldl on_event (mkNextData false [] None) events).(data).

(** * The adapters *)

Definition CURRENCY : string := "BRL".

Definition map_availability (value : json) : Availability :=
  match value with
  | JBool true => IN_STOCK
  | JBool false => OUT_OF_STOCK
  | _ => UNKNOWN
  end.

Section Adapters.
Variable html_events : string → list html_event.
Variable loads : string → result json.

Definition regular (pix card : option Z) (a : Availability) : Extract :=
  {| price_pix_cents := pix; price_card_cents := card; currency := CURRENCY; availability := a;
     price_pix_member_cents := None; price_card_member_cents := None |}.

(** [except PathResolutionError: return default]. *)
Definition or_on_miss {A} (default : A) (r : result A) : result A :=
  match r with
  | Ok a => Ok a
  | Raise e => if is_a e.(exn_class) PathResolutionError then Ok default else Raise e
  end.

(** [json.loads] under [except caught: raise ParseError]. *)
Definition loads_or_parse_error (caught : list exc) (raw : string) : result json :=
  match loads raw with
  | Ok v => Ok v
  | Raise e => if existsb (is_a e.(exn_class)) caught then raise ParseError "invalid state JSON"
               else Raise e
  end.

Definition price_at (state : json) (path : option string) : result (option Z) :=
  match path with
  | None => Ok None
  | Some "" => Ok None
  | Some path => or_on_miss None (let? v := resolve_path state path in to_cents v)
  end.

Definition availability_at (state : json) (path : option string) : result Availability :=
  match path with
  | None => Ok UNKNOWN
  | Some "" => Ok UNKNOWN
  | Some path => or_on_miss UNKNOWN (let? v := resolve_path state path in Ok (map_availability v))
  end.

(** [StateJsonParser.extract]. *)
Definition statejson_extract (spec : ParserSpec) : Parser := λ html,
  match extract_next_data (html_events html) with
  | None => raise ParseError "no __NEXT_DATA__ state script found"
  | Some raw =>
      let? state := loads_or_parse_error [JSONDecodeError; RecursionError; ValueError; OverflowError] raw in
      let? pix := price_at state spec.(spec_pix) in
      let? card := price_at state spec.(spec_card) in
      if bool_decide (pix = None ∧ card = None)
      then raise ParseError "no price resolved at pix/card paths"
      else
        let? a := availability_at state spec.(spec_availability) in
        Ok (regular pix card a)
  end.

Definition PIX_PATH : string := "props.pageProps.data.item.offers[0].bestPrice.totalAmount".
Definition CARD_PATH : string := "props.pageProps.data.item.offers[0].price".
Definition AVAIL_PATH : string := "props.pageProps.data.item.available".

(** magalu's [_offer_price]: [None] on a miss and on anything but a number. *)
Definition offer_price (data : json) (path : string) : result (option Z) :=
  match resolve_path data path with
  | Ok (JInt n) => to_cents (JInt n)
  | Ok (JFloat x) => to_cents (JFloat x)
  | Ok _ => Ok None
  | Raise e => or_on_miss None (Raise e)
  end.

(** [MagaluParser.extract]. *)
Definition magalu_extract : Parser := λ html,
  match extract_next_data (html_events html) with
  | None => raise ParseError "no __NEXT_DATA__ (Magalu challenge or non-product page)"
  | Some raw =>
      let? data := loads_or_parse_error [JSONDecodeError; RecursionError; ValueError] raw in
      let? pix := offer_price data PIX_PATH in
      let? card := offer_price data CARD_PATH in
      if bool_decide (pix = None ∧ card = None)
      then raise ParseError "no Magalu offer price located (offers[0])"
      else
        let? a := availability_at data (Some AVAIL_PATH) in
        Ok (regular pix card a)
  end.
End Adapters.

(** * Prices *)

Lemma in_price_bounds_Some c c' : in_price_bounds c = Some c' → c' = c ∧ 1 <= c <= MAX_PRICE_CENTS.
Proof.
  unfold in_price_bounds. destruct (_ || _) eqn:E; [done |]. intros [= <-].
  apply orb_false_iff in E as [?%Z.leb_gt ?%Z.ltb_ge]. lia.
Qed.

Lemma in_price_bounds_ok c : 1 <= c <= MAX_PRICE_CENTS → in_price_bounds c = Some c.
Proof.
  intros H. unfold in_price_bounds. rewrite (proj2 (Z.leb_gt _ _)), (proj2 (Z.ltb_ge _ _)) by lia. done.
Qed.

(** The integers that [math.isfinite] cannot convert to a float. *)
Definition INT_OVERFLOW : Z := 2 ^ 1024 - 2 ^ 970.

Lemma isfinite_int_spec n :
  isfinite_int n = if INT_OVERFLOW <=? Z.abs n then raise OverflowError "int too large to convert to float"
                   else Ok true.
Proof. done. Qed.

#[global] Opaque isfinite_int.

Lemma INT_OVERFLOW_large : MAX_PRICE_CENTS < INT_OVERFLOW.
Proof. vm_compute. reflexivity. Qed.

Lemma to_cents_spec_bounds value cents : to_cents value = Ok (Some cents) → 1 <= cents <= MAX_PRICE_CENTS.
Proof.
  destruct value as [| b | n | x | s | l | l]; cbn [to_cents]; try done.
  - destruct (isfinite_int n) as [b | e]; [| done]. cbn [rbind]. destruct (negb b); [done |].
    destruct (n <=? 0); [done |]. intros [= Hc]. by apply in_price_bounds_Some in Hc as [-> Hb].
  - destruct (negb (isfinite_float x)); [done |]. destruct (negb (float_pos x)); [done |].
    destruct (float_round _) as [r | e]; [intros [= Hc]; by apply in_price_bounds_Some in Hc as [-> ?] |].
    by destruct (is_a _ _).
Qed.

(** A float never makes it raise. *)
Lemma to_cents_float x : ∃ o, to_cents (JFloat x) = Ok o.
Proof.
  destruct x as [| neg | m ex]; [by eexists | by eexists |]. cbn [to_cents isfinite_float negb].
  destruct (negb (float_pos _)); [by eexists |]. unfold float_mul.
  destruct (float_of_ratio_cases (m * 100 * 2 ^ Z.max 0 ex) (2 ^ Z.max 0 (- ex))) as [-> | (? & ? & ->)];
    by eexists.
Qed.

(** The float nearest to a price in whole cents is read as that price. *)
Lemma to_cents_decimal c : 1 <= c <= MAX_PRICE_CENTS → to_cents (JFloat (float_of_decimal c 2)) = Ok (Some c).
Proof.
  intros Hc. destruct (cents_exact c Hc) as (m & e & Hf & Hm & Hr & Hi). cbn [to_cents].
  unfold float_of_decimal. change (10 ^ Z.of_nat 2) with 100. rewrite Hf.
  cbn [isfinite_float negb float_pos]. rewrite (proj2 (Z.ltb_lt _ _) Hm). cbn [negb].
  by rewrite Hr, in_price_bounds_ok.
Qed.

(** Price normalisation.  A price is what [to_cents] answers for an integer
    number of reais, times 100, or for the float nearest to a price in whole
    cents: exactly that price, neither rounding error of the float shows.  It
    answers None for booleans, text, containers, null, NaN and the infinities,
    for anything not strictly positive and for anything above one million
    reais; it raises only on an integer that no float can hold, which is above
    that bound too. *)
Theorem to_cents_spec value :
  (∀ cents, to_cents value = Ok (Some cents) → 1 <= cents <= MAX_PRICE_CENTS)
  ∧ (∀ e, to_cents value = Raise e →
       exn_class e = OverflowError ∧ ∃ n, value = JInt n ∧ INT_OVERFLOW <= Z.abs n)
  ∧ match value with
    | JInt n => Z.abs n < INT_OVERFLOW →
        to_cents value = Ok (if (0 <? n) && (n * 100 <=? MAX_PRICE_CENTS) then Some (n * 100) else None)
    | JFloat x => ∀ cents, 1 <= cents <= MAX_PRICE_CENTS → x = float_of_decimal cents 2 →
        to_cents value = Ok (Some cents)
    | _ => to_cents value = Ok None
    end.
Proof.
  destruct value as [| b | n | x | s | l | l]; cbn [to_cents]; try (by split_and!); rewrite ?isfinite_int_spec.
  - split; [intros c Hc; apply (to_cents_spec_bounds (JInt n)); cbn [to_cents]; by rewrite isfinite_int_spec |].
    destruct (Z.leb_spec INT_OVERFLOW (Z.abs n)) as [Hbig | Hsmall]; cbn.
    { split; [| lia]. intros e [= <-]. split; [done |]. by exists n. }
    split.
    + intros e. by destruct (n <=? 0).
    + intros _. destruct (Z.leb_spec n 0), (Z.ltb_spec 0 n); try lia; cbn; [done |].
      unfold in_price_bounds. destruct (Z.leb_spec (n * 100) 0); [lia |]. cbn.
      by destruct (Z.ltb_spec MAX_PRICE_CENTS (n * 100)), (Z.leb_spec (n * 100) MAX_PRICE_CENTS); try lia.
  - split_and!.
    + intros c. exact (to_cents_spec_bounds (JFloat x) c).
    + intros e. destruct (to_cents_float x) as [o Ho]. cbn [to_cents] in Ho. by rewrite Ho.
    + intros c Hc ->. by apply to_cents_decimal.
Qed.

Example to_cents_huge : to_cents (JInt (10 ^ 309)) = raise OverflowError "int too large to convert to float".
Proof. vm_compute. reflexivity. Qed.

(** * Paths *)

(** A path as its author means it: per segment, a key (possibly empty when
    there is an index) and the digits of its indices. *)
Record segment := { seg_key : list ascii; seg_indices : list (list ascii) }.

Definition print_index (ds : list ascii) : list ascii := ("["%char :: ds ++ ["]"%char])%list.
Definition print_segment (s : segment) : list ascii :=
  (seg_key s ++ concat (print_index <$> seg_indices s))%list.
Definition print_path (p : list segment) : string :=
  of_chars (join_fields "."%char (print_segment <$> p)).

Definition digits_ok (ds : list ascii) : Prop :=
  ds ≠ [] ∧ Z.of_nat (length ds) <= 4300 ∧ is_Some (number 10 dec_digit ds).

Record segment_ok (s : segment) : Prop := {
  seg_key_free : "."%char ∉ seg_key s ∧ "["%char ∉ seg_key s;
  seg_nonempty : seg_key s ≠ [] ∨ seg_indices s ≠ [];
  seg_digits : Forall digits_ok (seg_indices s);
}.

(** What it means: object members and list elements, in order. *)
Definition index_of (ds : list ascii) : Z := default 0 (number 10 dec_digit ds).

Definition member (k : list ascii) (v : json) : option json :=
  match v with JObj fields => od_get (of_chars k) fields | _ => None end.
Definition element (v : json) (ds : list ascii) : option json :=
  match v with JList l => l !! Z.to_nat (index_of ds) | _ => None end.

Fixpoint lookup_path (v : json) (p : list segment) : option json :=
  match p with
  | [] => Some v
  | s :: p' =>
      v1 ← (if bool_decide (seg_key s = []) then Some v else member (seg_key s) v);
      v2 ← foldl (λ o ds, w ← o; element w ds) (Some v1) (seg_indices s);
      lookup_path v2 p'
  end.

Definition or_miss {A} (o : option A) : result A :=
  match o with Some a => Ok a | None => path_error end.

Lemma digit_not c d : is_digit c = true → is_digit d = false → c ≠ d.
Proof. congruence. Qed.

Lemma parse_indices_print l n :
  Forall digits_ok l → (length (concat (print_index <$> l)) ≤ n)%nat →
  parse_indices n (concat (print_index <$> l)) = Ok (index_of <$> l).
Proof.
  intros Hl. revert n. induction Hl as [| ds l (Hne & Hlen & k & Hk) Hl IH]; intros n Hn; [by destruct n |].
  rewrite fmap_cons in *. cbn [concat] in *.
  unfold print_index at 1 in Hn. unfold print_index at 1.
  rewrite <- app_comm_cons, <- app_assoc in *. cbn [app] in *.
  destruct n as [| n]; [cbn in Hn; lia |].
  pose proof (number_digits _ _ Hk) as Hd. rewrite Forall_forall in Hd.
  cbn [parse_indices]. rewrite partition_sep.
  2: { intros Hin. by specialize (Hd _ Hin). }
  cbn [negb].
  destruct ds as [| d ds]; [done |].
  assert (d ≠ "-"%char) as Hdash.
  { intros ->. by specialize (Hd _ ltac:(left)). }
  assert (lstrip_dash (d :: ds) = d :: ds) as ->.
  { by destruct d as [[] [] [] [] [] [] [] []]. }
  assert (signed_int (d :: ds) = int_of (d :: ds)) as ->.
  { by destruct d as [[] [] [] [] [] [] [] []]. }
  assert (forallb latin1_digit (d :: ds) = true) as ->.
  { apply forallb_forall. intros c Hc%list_elem_of_In. unfold latin1_digit. by rewrite (Hd c Hc). }
  rewrite bool_decide_eq_false_2 by done. cbn [orb negb]. unfold int_of. rewrite Hk.
  assert (4300 <? Z.of_nat (length (d :: ds)) = false) as -> by lia. cbn [rbind].
  rewrite IH by (cbn in Hn; rewrite length_app in Hn; cbn in Hn; lia). cbn [rbind].
  rewrite fmap_cons. unfold index_of at 2. by rewrite Hk.
Qed.

Lemma parse_token_print s :
  segment_ok s → parse_token (print_segment s) = Ok (seg_key s, index_of <$> seg_indices s).
Proof.
  intros [[_ Hb] Hne Hd]. unfold parse_token, print_segment.
  destruct (seg_indices s) as [| ds l] eqn:E.
  - cbn. rewrite app_nil_r. destruct Hne as [Hne |]; [| done].
    rewrite bool_decide_eq_false_2 by done. by rewrite partition_free.
  - assert (seg_key s ++ concat (print_index <$> ds :: l) ≠ [])%list as Hn0.
    { rewrite fmap_cons. cbn. intros [_ H]%app_eq_nil. done. }
    rewrite bool_decide_eq_false_2 by done.
    rewrite fmap_cons. cbn [concat]. unfold print_index at 1 2. rewrite <- app_comm_cons.
    rewrite partition_sep by done.
    replace ("["%char :: (ds ++ ["]"%char]) ++ concat (print_index <$> l))%list
      with (concat (print_index <$> ds :: l))%list by (rewrite fmap_cons; cbn; done).
    rewrite parse_indices_print; [done | by rewrite <- E in * | ].
    rewrite length_app. unfold print_index. cbn. lia.
Qed.

Lemma get_indices_lookup v l :
  Forall digits_ok l →
  get_indices v (index_of <$> l) = or_miss (foldl (λ o ds, w ← o; element w ds) (Some v) l).
Proof.
  assert (∀ l, foldl (λ o ds, w ← o; element w ds) None l = None) as Hnone.
  { intros l'. by induction l'. }
  intros Hl. revert v. induction Hl as [| ds l (_ & _ & k & Hk) Hl IH]; intros v; [done |].
  rewrite fmap_cons. cbn [get_indices foldl]. cbn [mbind option_bind].
  pose proof (number_nonneg _ _ Hk) as Hpos.
  unfold get_index, element at 2. unfold index_of. rewrite Hk. change (default 0 (Some k)) with k.
  destruct v as [| | | | | vs |]; cbn [rbind path_error raise]; rewrite ?Hnone; try done.
  destruct (Z.ltb_spec k 0); [lia |]. cbn [orb].
  destruct (Z.leb_spec (Z.of_nat (length vs)) k).
  - rewrite lookup_ge_None_2 by lia. by rewrite Hnone.
  - destruct (vs !! Z.to_nat k) as [v |] eqn:Ev; cbn [rbind raise path_error]; [apply IH |].
    apply lookup_ge_None in Ev. lia.
Qed.

Lemma walk_lookup v p :
  Forall segment_ok p → walk v (print_segment <$> p) = or_miss (lookup_path v p).
Proof.
  intros Hp. revert v. induction Hp as [| s p Hs Hp IH]; intros v; [done |].
  rewrite fmap_cons. cbn [walk lookup_path]. rewrite parse_token_print by done. cbn [rbind].
  destruct (decide (seg_key s = [])) as [E | E].
  - rewrite !bool_decide_eq_true_2 by done. cbn [rbind mbind option_bind].
    rewrite get_indices_lookup by apply Hs. destruct (foldl _ _ _); cbn; [apply IH | done].
  - rewrite !bool_decide_eq_false_2 by done. unfold get_key, member.
    destruct v as [| | | | | | fields]; try done.
    destruct (od_get (of_chars (seg_key s)) fields) as [w |]; cbn [or_miss rbind mbind option_bind]; [| done].
    rewrite get_indices_lookup by apply Hs. destruct (foldl _ _ _); cbn; [apply IH | done].
Qed.

Lemma print_segment_free s : segment_ok s → "."%char ∉ print_segment s.
Proof.
  intros [[Hk _] _ Hd] [Hin | Hin]%elem_of_app; [done |].
  induction Hd as [| ds l (_ & _ & k & Hn) Hd IH]; [by apply elem_of_nil in Hin |].
  rewrite fmap_cons in Hin. cbn [concat] in Hin. apply elem_of_app in Hin as [Hin | Hin]; [| by apply IH].
  unfold print_index in Hin. apply elem_of_cons in Hin as [? | Hin]; [done |].
  apply elem_of_app in Hin as [Hin | ?%list_elem_of_singleton]; [| done].
  apply number_digits in Hn. rewrite Forall_forall in Hn. by specialize (Hn _ Hin).
Qed.

Lemma print_segment_ne s : segment_ok s → print_segment s ≠ [].
Proof.
  intros [_ [Hn | Hn] _]; unfold print_segment; [by destruct (seg_key s) |].
  destruct (seg_indices s); [done |]. rewrite fmap_cons. cbn. by destruct (seg_key s).
Qed.

Lemma print_path_ne p : p ≠ [] → Forall segment_ok p → print_path p ≠ "".
Proof.
  intros Hne Hp E. apply (f_equal chars) in E. unfold print_path in E. rewrite chars_of_chars in E.
  destruct Hp as [| s p Hs Hp]; [done |]. rewrite fmap_cons in E.
  apply print_segment_ne in Hs. destruct (print_segment s); [done |]. by destruct p.
Qed.

Lemma resolve_path_walk data p :
  p ≠ [] → Forall segment_ok p → resolve_path data (print_path p) = walk data (print_segment <$> p).
Proof.
  intros Hne Hp. unfold resolve_path. rewrite bool_decide_eq_false_2 by (by apply print_path_ne).
  unfold print_path. rewrite chars_of_chars, fields_of_join; [done | by destruct p |].
  apply Forall_fmap. eapply Forall_impl; [exact Hp |]. apply print_segment_free.
Qed.

(** paths.  A path written from segments, each a key without dots or
    brackets and any number of decimal indices, is resolved to exactly the
    member or element those segments name, one after the other; when one does
    not exist or its container is of another type the answer is
    PathResolutionError, never another exception or another node. *)
Theorem resolve_path_print (data : json) (p : list segment) :
  p ≠ [] → Forall segment_ok p →
  resolve_path data (print_path p) = or_miss (lookup_path data p).
Proof. intros Hne Hp. rewrite resolve_path_walk by done. by apply walk_lookup. Qed.

Definition demo_path : list segment :=
  [{| seg_key := chars "offers"; seg_indices := [chars "1"] |};
   {| seg_key := chars "price"; seg_indices := [] |}].
Definition demo_data : json :=
  JObj [("offers", JList [JNull; JObj [("price", JInt 7558)]])].

Lemma resolve_path_print_witness :
  print_path demo_path = "offers[1].price" ∧ resolve_path demo_data "offers[1].price" = Ok (JInt 7558).
Proof.
  split; [vm_compute; reflexivity |].
  change "offers[1].price" with (print_path demo_path). rewrite (resolve_path_print demo_data demo_path).
  - vm_compute. reflexivity.
  - done.
  - repeat constructor; try (apply (bool_decide_eq_true_1 _); vm_compute; reflexivity);
      try (left; done); vm_compute; try done; by eexists.
Defined.

(** * The state script *)

Definition is_next_data (e : html_event) : bool :=
  match e with
  | StartTag tag attrs => bool_decide (tag = "script")
      && bool_decide (od_get "id" (reverse attrs) = Some (Some "__NEXT_DATA__"))
  | _ => false
  end.
Definition is_script_end (e : html_event) : bool :=
  match e with EndTag tag => bool_decide (tag = "script") | _ => false end.
Definition texts (es : list html_event) : list string :=
  omap (λ e, match e with Data t => Some t | _ => None end) es.

Lemma events_before es :
  forallb (λ e, negb (is_next_data e)) es = true →
  foldl on_event (mkNextData false [] None) es = mkNextData false [] None.
Proof.
  induction es as [| e es IH]; [done |]. cbn [forallb foldl]. intros [He Hes]%andb_true_iff.
  replace (on_event (mkNextData false [] None) e) with (mkNextData false [] None); [by apply IH |].
  destruct e as [tag attrs | tag | t]; cbn in *; [| by rewrite andb_false_r | done].
  by destruct (_ && _).
Qed.

Lemma events_inside es l :
  forallb (λ e, negb (is_script_end e)) es = true →
  foldl on_event (mkNextData true l None) es = mkNextData true (l ++ texts es) None.
Proof.
  revert l. induction es as [| e es IH]; intros l; [by rewrite app_nil_r |].
  cbn [forallb foldl]. intros [He Hes]%andb_true_iff. destruct e as [tag attrs | tag | t]; cbn in *.
  - destruct (_ && _); by apply IH.
  - case_bool_decide; [done |]. by apply IH.
  - rewrite IH by done. by rewrite <- app_assoc.
Qed.

Lemma events_after es l d : data (foldl on_event (mkNextData false l (Some d)) es) = Some d.
Proof.
  assert (∀ p, data p = Some d → data (foldl on_event p es) = Some d) as H; [| by apply H].
  induction es as [| e es IH]; intros p Hp; [done |]. apply IH.
  destruct e as [tag attrs | tag | t]; cbn; [| | by destruct (capture p)].
  - by destruct (_ && _).
  - destruct (_ && _); cbn; by rewrite Hp.
Qed.

(** The text of the first __NEXT_DATA__ script, whatever else the page has. *)
Lemma extract_next_data_first before start inside stop after :
  forallb (λ e, negb (is_next_data e)) before = true → is_next_data start = true →
  forallb (λ e, negb (is_script_end e)) inside = true → is_script_end stop = true →
  extract_next_data (before ++ start :: inside ++ stop :: after) = Some (String.concat "" (texts inside)).
Proof.
  intros Hb Hs Hi He. unfold extract_next_data. rewrite foldl_app, events_before by done.
  cbn [foldl]. assert (on_event (mkNextData false [] None) start = mkNextData true [] None) as ->.
  { destruct start as [tag attrs | |]; try done. cbn in *. by rewrite Hs. }
  rewrite foldl_app, events_inside by done. cbn [foldl].
  assert (on_event (mkNextData true ([] ++ texts inside) None) stop
          = mkNextData false ([] ++ texts inside) (Some (String.concat "" (texts inside)))) as ->.
  { destruct stop as [| tag |]; try done. cbn in *. by rewrite He. }
  apply events_after.
Qed.

(** * What a parser promises *)

Definition price_ok (o : option Z) : Prop := ∀ c, o = Some c → 1 <= c <= MAX_PRICE_CENTS.

(** A parser never invents: a page it accepts has a price, all its prices are
    between one cent and one million reais, in reais. *)
Record extract_ok (x : Extract) : Prop := {
  ok_price : has_price x = true;
  ok_pix : price_ok x.(price_pix_cents);
  ok_card : price_ok x.(price_card_cents);
  ok_pix_member : price_ok x.(price_pix_member_cents);
  ok_card_member : price_ok x.(price_card_member_cents);
  ok_currency : x.(currency) = CURRENCY;
}.

Class LawfulParser (parser : Parser) : Prop :=
  lawful : ∀ html x, parser html = Ok x → extract_ok x.

Lemma to_cents_bounds v o : to_cents v = Ok o → price_ok o.
Proof. intros H c ->. by apply (to_cents_spec_bounds v). Qed.

Lemma or_on_miss_Ok {A} (d : A) r a : or_on_miss d r = Ok a → a = d ∨ r = Ok a.
Proof. unfold or_on_miss. destruct r as [b | e]; [intros [= ->]; by right |]. case_match; [|done]. intros [= ->]. by left. Qed.

Lemma price_at_bounds state path o : price_at state path = Ok o → price_ok o.
Proof.
  unfold price_at. destruct path as [p |]; [| by intros [= <-]].
  destruct (decide (p = "")) as [-> | Hne]; [by intros [= <-] |].
  assert (∀ r : result (option Z), (match p with "" => Ok None | _ => r end) = r) as ->
    by (intros r; by destruct p).
  intros [-> | H]%or_on_miss_Ok; [done |].
  destruct (resolve_path state p) as [v | e]; [| done]. by apply to_cents_bounds in H.
Qed.

Lemma offer_price_bounds state path o : offer_price state path = Ok o → price_ok o.
Proof.
  unfold offer_price. destruct (resolve_path state path) as [[| b | n | x | s | l | l] | e];
    try (by intros [= <-]); try (by intros H%to_cents_bounds).
  intros [-> | H]%or_on_miss_Ok; [done | done].
Qed.

Lemma regular_ok pix card a :
  price_ok pix → price_ok card → ¬ (pix = None ∧ card = None) → extract_ok (regular pix card a).
Proof.
  intros Hp Hc Hn. split; try done. apply has_price_true. cbn.
  destruct pix; [left; by eexists |]. destruct card; [right; left; by eexists |]. by destruct Hn.
Qed.

#[export] Instance statejson_lawful events loads spec : LawfulParser (statejson_extract events loads spec).
Proof.
  intros html x. unfold statejson_extract. destruct (extract_next_data _) as [raw |]; [| done].
  destruct (loads_or_parse_error _ _ _) as [state | e]; [| done]. cbn [rbind].
  destruct (price_at state (spec_pix spec)) as [pix | e] eqn:Ep; [| done]. cbn [rbind].
  destruct (price_at state (spec_card spec)) as [card | e] eqn:Ec; [| done]. cbn [rbind].
  case_bool_decide as Hn; [done |].
  destruct (availability_at _ _) as [a | e]; [| done]. intros [= <-].
  apply regular_ok; [by eapply price_at_bounds | by eapply price_at_bounds | done].
Qed.

#[export] Instance magalu_lawful events loads : LawfulParser (magalu_extract events loads).
Proof.
  intros html x. unfold magalu_extract. destruct (extract_next_data _) as [raw |]; [| done].
  destruct (loads_or_parse_error _ _ _) as [state | e]; [| done]. cbn [rbind].
  destruct (offer_price state PIX_PATH) as [pix | e] eqn:Ep; [| done]. cbn [rbind].
  destruct (offer_price state CARD_PATH) as [card | e] eqn:Ec; [| done]. cbn [rbind].
  case_bool_decide as Hn; [done |].
  destruct (availability_at _ _) as [a | e]; [| done]. intros [= <-].
  apply regular_ok; [by eapply offer_price_bounds | by eapply offer_price_bounds | done].
Qed.

(** ** What [statejson] reads *)

(** The price at a path of the state, when no integer of it is too large for a
    float. *)
Definition price_of (state : json) (p : option (list segment)) : option Z :=
  p ← p; v ← lookup_path state p;
  match to_cents v with Ok o => o | Raise _ => None end.
Definition stock_of (state : json) (p : option (list segment)) : Availability :=
  match p ≫= lookup_path state with Some v => map_availability v | None => UNKNOWN end.

Definition floats_enough (state : json) (p : option (list segment)) : Prop :=
  ∀ q n, p = Some q → lookup_path state q = Some (JInt n) → Z.abs n < INT_OVERFLOW.
Definition path_ok (p : option (list segment)) : Prop :=
  ∀ q, p = Some q → q ≠ [] ∧ Forall segment_ok q.

Definition spec_of (kind : string) (pix card stock : option (list segment)) : ParserSpec :=
  {| spec_kind := kind; spec_pix := print_path <$> pix; spec_card := print_path <$> card;
     spec_availability := print_path <$> stock |}.

Lemma price_at_print state p :
  path_ok p → floats_enough state p → price_at state (print_path <$> p) = Ok (price_of state p).
Proof.
  intros Hp Hf. destruct p as [q |]; [| done]. destruct (Hp q eq_refl) as [Hne Hq].
  cbn [fmap option_fmap option_map price_at].
  pose proof (print_path_ne q Hne Hq) as Hs. unfold price_at.
  assert (∀ r : result (option Z), (match print_path q with "" => Ok None | _ => r end) = r) as ->
    by (intros r; by destruct (print_path q)).
  rewrite resolve_path_walk, walk_lookup by done. unfold price_of. cbn [mbind option_bind].
  destruct (lookup_path state q) as [v |] eqn:El; [| done]. cbn [or_miss rbind mbind option_bind].
  destruct (to_cents v) as [o | e] eqn:Ev; [done |].
  destruct v as [| b | n | x | s | l | l]; try done; cbn [to_cents] in Ev.
  - rewrite isfinite_int_spec, (proj2 (Z.leb_gt _ _)) in Ev by (by eapply Hf). cbn in Ev.
    by destruct (n <=? 0).
  - destruct (to_cents_float x) as [o Ho]. cbn [to_cents] in Ho. by rewrite Ho in Ev.
Qed.

Lemma availability_at_print state p :
  path_ok p → availability_at state (print_path <$> p) = Ok (stock_of state p).
Proof.
  intros Hp. destruct p as [q |]; [| done]. destruct (Hp q eq_refl) as [Hne Hq].
  cbn [fmap option_fmap option_map]. pose proof (print_path_ne q Hne Hq) as Hs. unfold availability_at.
  assert (∀ r : result Availability, (match print_path q with "" => Ok UNKNOWN | _ => r end) = r) as ->
    by (intros r; by destruct (print_path q)).
  rewrite resolve_path_walk, walk_lookup by done. unfold stock_of. cbn [mbind option_bind].
  by destruct (lookup_path state q).
Qed.

(** the [statejson] parser reads what its locators name.  On a page whose
    first __NEXT_DATA__ script holds a JSON text, and with locators that are
    well-formed paths, it answers the prices and the availability found at those
    paths of that JSON, a path that leads nowhere counting as absent, and
    refuses the page with ParseError exactly when neither price is there; a
    page without that script, or whose script is not JSON, is refused with
    ParseError too. *)
Theorem statejson_reads_state events loads html pix card stock kind :
  path_ok pix → path_ok card → path_ok stock →
  let out := statejson_extract events loads (spec_of kind pix card stock) html in
  match extract_next_data (events html) with
  | None => out = raise ParseError "no __NEXT_DATA__ state script found"
  | Some raw =>
      match loads raw with
      | Ok state =>
          floats_enough state pix → floats_enough state card →
          out = match price_of state pix, price_of state card with
                | None, None => raise ParseError "no price resolved at pix/card paths"
                | p, c => Ok (regular p c (stock_of state stock))
                end
      | Raise e => is_a e.(exn_class) ValueError = true ∨ is_a e.(exn_class) RecursionError = true →
          out = raise ParseError "invalid state JSON"
      end
  end.
Proof.
  intros Hp Hc Hs out. subst out. unfold statejson_extract.
  destruct (extract_next_data (events html)) as [raw |]; [| done]. unfold loads_or_parse_error.
  destruct (loads raw) as [state | e].
  - intros Hfp Hfc. cbn [rbind spec_of spec_pix spec_card spec_availability].
    rewrite !price_at_print, availability_at_print by done. cbn [rbind].
    destruct (price_of state pix), (price_of state card);
      first [rewrite bool_decide_eq_false_2 by naive_solver; done | by rewrite bool_decide_eq_true_2].
  - intros He. assert (existsb (is_a (exn_class e)) [JSONDecodeError; RecursionError; ValueError; OverflowError]
              = true) as ->; [| done].
    cbn. destruct He as [-> | ->]; by rewrite ?orb_true_r.
Qed.

(** A JSON number beyond every float, and a locator with two dashes, escape the
    parser as OverflowError and ValueError: [except PathResolutionError] does
    not catch them. *)
Example statejson_escapes :
  let page := λ _ : string, [StartTag "script" [("id", Some "__NEXT_DATA__")]; Data "{}"; EndTag "script"] in
  let spec := λ p, {| spec_kind := "statejson"; spec_pix := Some p; spec_card := None; spec_availability := None |} in
  statejson_extract page (λ _, Ok (JObj [("a", JInt (10 ^ 309))])) (spec "a") ""
  = raise OverflowError "int too large to convert to float"
  ∧ statejson_extract page (λ _, Ok (JObj [("a", JList [JInt 1])])) (spec "a[--5]") ""
    = raise ValueError "invalid literal for int() with base 10".
Proof. vm_compute. split; reflexivity. Qed.

Lemma statejson_reads_state_witness :
  let page := λ _ : string, [StartTag "script" [("id", Some "__NEXT_DATA__")]; Data "{}"; EndTag "script"] in
  statejson_extract page (λ _, Ok demo_data) (spec_of "statejson" (Some demo_path) None None) ""
  = Ok (regular (Some 755800) None UNKNOWN).
Proof.
  assert (Forall segment_ok demo_path) as Hd.
  { repeat constructor; try (apply (bool_decide_eq_true_1 _); vm_compute; reflexivity);
      try (left; done); vm_compute; try done; by eexists. }
  set (page := λ _ : string, [StartTag "script" [("id", Some "__NEXT_DATA__")]; Data "{}"; EndTag "script"]).
  assert (extract_next_data (page "") = Some "{}") as Hraw by reflexivity.
  pose proof (statejson_reads_state page (λ _, Ok demo_data) "" (Some demo_path) None None "statejson"
    ltac:(by intros q [= <-]) ltac:(done) ltac:(done)) as H.
  cbv zeta in H |- *. rewrite Hraw in H. cbv beta iota in H. rewrite H.
  - vm_compute. reflexivity.
  - intros q n [= <-] [= <-]. apply Z.ltb_lt. vm_compute. reflexivity.
  - done.
Defined.
