(* ===== verification/Pages.v ===== *)
(** The page scrapers ([kerdoos/parsers/adapters]): terabyte, pichau, amazon
    and mercadolivre, which read prices out of HTML with anchored windows and
    regular expressions, and the factory that builds a parser from its kind.

    The patterns are those of the source, written with the combinators of
    [Text].  Markers and documents are Latin-1 text. *)

From S2P Require Import Prelude Domain Registry Orchestrator Safety Egress Floats Text Parsers.

(** * Amounts *)

Definition quote : ascii := "034".
Definition backslash : ascii := "092".

(** [float(s)], of digits with at most one dot. *)
Definition float_of_text (s : list ascii) : result pyfloat :=
  let '(a, _, b) := partition "."%char s in
  match number 10 dec_digit (a ++ b)%list with
  | Some n => if bool_decide (a ++ b = [])%list then raise ValueError "could not convert string to float"
              else Ok (float_of_decimal n (length b))
  | None => raise ValueError "could not convert string to float"
  end.

(** [_brl_to_reais]: the thousands dots dropped, the comma a dot. *)
Definition brl_to_reais (amount : list ascii) : result pyfloat :=
  float_of_text ((λ c, if decide (c = ","%char) then "."%char else c)
                   <$> filter (λ c, c ≠ "."%char) amount).

Definition cents_of_brl (amount : list ascii) : result (option Z) :=
  let? x := brl_to_reais amount in to_cents (JFloat x).

(** [_PRICE_RE]: R$, white space, and one to three digits, groups of a dot and
    three digits, a comma and two digits. *)
Definition AMOUNT_RE : re :=
  seq_of [digit; at_most 2 digit; many (Seq (ch ".") (times 3 digit)); ch ","; times 2 digit].
Definition PRICE_RE : re := seq_of [lit "R$"; many white; Group 1 AMOUNT_RE].

Definition TAG_RE : re := seq_of [ch "<"; many1 (none_of [">"%char]); ch ">"].

Definition lower_text (s : list ascii) : list ascii := latin1_lower <$> s.

(** "indispon\xedvel" *)
Definition indisponivel : list ascii := (chars "indispon" ++ ["237"%char] ++ chars "vel")%list.

Definition has_marker (markers : list (list ascii)) (text : list ascii) : bool :=
  existsb (contains_text text) markers.

(** The attribute id with value [v], in quotes [q]. *)
Definition id_attr (q : ascii) (v : string) : list ascii := (chars "id=" ++ [q] ++ chars v ++ [q])%list.

(** [html.find(a)], else [html.find(b)]. *)
Definition find_first (a b html : list ascii) : option nat :=
  match find a html with Some i => Some i | None => find b html end.

(** * Terabyte *)

Module Terabyte.
Definition ID_VISTA : string := "valVista".
Definition ID_PARC : string := "valParc".

(** [_id_text_re]: the id attribute, the rest of the tag, and the text up to
    the next tag. *)
Definition id_text_re (id : string) : re :=
  seq_of [seq_of (ch <$> id_attr quote id); many (none_of [">"%char]); ch ">";
          Group 1 (many (none_of ["<"%char]))].
Definition COMMENT_RE : re := seq_of [lit "<!--"; lazy any; lit "-->"].

Definition OOS_MARKERS : list (list ascii) :=
  [chars "esgotado"; chars "indisponivel"; indisponivel; chars "produto indisponivel";
   chars "fora de estoque"; chars "sem estoque"; chars "avise-me"; chars "out of stock"].
Definition IN_STOCK_MARKER : list ascii := chars "no estoque".
Definition AVAIL_BEFORE : nat := 1200.
Definition AVAIL_AFTER : nat := 2500.

(** The loop of [_first_valid_id_price] over the occurrences of the id. *)
Fixpoint first_valid (matches : list captures) : result (option Z) :=
  match matches with
  | [] => Ok None
  | m :: rest =>
      match search PRICE_RE (group 1 m) with
      | None => first_valid rest
      | Some price =>
          let? cents := cents_of_brl (group 1 price) in
          match cents with Some c => Ok (Some c) | None => first_valid rest end
      end
  end.

Definition first_valid_id_price (html : list ascii) (id : string) : result (option Z) :=
  first_valid (finditer (id_text_re id) html).

Definition availability (html : list ascii) : Availability :=
  let region :=
    match find_first (id_attr quote ID_VISTA) (id_attr quote ID_PARC) html with
    | None => html
    | Some anchor => slice html (anchor - AVAIL_BEFORE) (anchor + AVAIL_AFTER)
    end in
  let text := lower_text (re_sub COMMENT_RE [" "%char] region) in
  if has_marker OOS_MARKERS text then OUT_OF_STOCK
  else if contains_text text IN_STOCK_MARKER then IN_STOCK
  else UNKNOWN.

Definition extract : Parser := λ html,
  let? pix := first_valid_id_price (chars html) ID_VISTA in
  let? card := first_valid_id_price (chars html) ID_PARC in
  if bool_decide (pix = None ∧ card = None)
  then raise ParseError "no Terabyte price located (#valVista/#valParc)"
  else Ok (regular pix card (availability (chars html))).
End Terabyte.

(** * Pichau *)

Module Pichau.
Definition FLIGHT_ANCHOR : list ascii := chars "pichau_prices".
Definition FLIGHT_WINDOW : nat := 600.
Definition STOCK_WINDOW : nat := 3500.

Definition escapes : re := many (one_of [backslash; quote]).

(** Digits, and optionally a dot and digits. *)
Definition NUMBER_RE : re := Seq (many1 digit) (opt (Seq (ch ".") (many1 digit))).

Definition flight_number_re (key : string) : re :=
  seq_of [lit key; escapes; many white; ch ":"; many white; Group 1 NUMBER_RE].

Definition STOCK_STATUS_RE : re :=
  seq_of [lit "stock_status"; escapes; many white; ch ":"; many white; escapes;
          Group 1 (many1 (Chr (λ c, range "A" "Z" c || bool_decide (c = "_"%char))))].

Definition scoped_flight_price (html : list ascii) (price_re : re) : result (option Z) :=
  match find FLIGHT_ANCHOR html with
  | None => Ok None
  | Some anchor =>
      match search_in price_re html anchor (anchor + FLIGHT_WINDOW) with
      | None => Ok None
      | Some m => let? x := float_of_text (group 1 m) in to_cents (JFloat x)
      end
  end.

Definition availability (html : list ascii) : Availability :=
  match find FLIGHT_ANCHOR html with
  | None => UNKNOWN
  | Some anchor =>
      match search_in STOCK_STATUS_RE html anchor (anchor + STOCK_WINDOW) with
      | None => UNKNOWN
      | Some m =>
          let status := of_chars (group 1 m) in
          if bool_decide (status = "IN_STOCK") then IN_STOCK
          else if bool_decide (status ∈ ["OUT_OF_STOCK"; "OUT_STOCK"]) then OUT_OF_STOCK
          else UNKNOWN
      end
  end.

Definition extract : Parser := λ html,
  let? pix := scoped_flight_price (chars html) (flight_number_re "avista") in
  let? card := scoped_flight_price (chars html) (flight_number_re "final_price") in
  if bool_decide (pix = None ∧ card = None)
  then raise ParseError "no Pichau price located (pichau_prices flight)"
  else Ok (regular pix card (availability (chars html))).
End Pichau.

(** * Amazon *)

Module Amazon.
Definition ROW_PIX_REGULAR : string := "apex_desktop_newAccordionRow".
Definition ROW_PIX_MEMBER : string := "apex_desktop_primeSavingsUpsellAccordionRow".
Definition ROW_CARD_REGULAR : string := "reinvent_price_desktop_newAccordionRow".
Definition ROW_CARD_MEMBER : string := "reinvent_price_desktop_primeSavingsUpsellAccordionRow".
Definition PIX_VALUE_CLASS : string := "apex-pricetopay-value".
Definition CARD_SPAN_ID : string := "best-offer-string-cc".
Definition AVAILABILITY_ID : string := "availability".
Definition ROW_TO_ANCHOR_WINDOW : nat := 8000.
Definition ANCHOR_TO_PRICE_WINDOW : nat := 2000.
Definition PIX_VALUE_WINDOW : nat := 500.
Definition AVAILABILITY_WINDOW : nat := 600.

Definition not_gt : re := many (none_of [">"%char]).

(** [_PIX_SPLIT_RE]: the whole part, an optional decimal span, the fraction. *)
Definition PIX_SPLIT_RE : re :=
  seq_of
    [lit "a-price-whole"; ch quote; not_gt; ch ">"; many white;
     Group 1 (many1 (Chr (λ c, range "0" "9" c || bool_decide (c = "."%char))));
     opt (seq_of [many white; lit "<span"; not_gt; lit "a-price-decimal"; not_gt; ch ">";
                  many (none_of ["<"%char]); lit "</span>"]);
     many white; lit "</span>"; many white; lit "<span"; not_gt; lit "a-price-fraction"; not_gt;
     ch ">"; many white; Group 2 (times 2 digit)].

Definition OOS_MARKERS : list (list ascii) :=
  [chars "indisponivel"; indisponivel; chars "fora de estoque"; chars "sem estoque";
   chars "esgotad"; chars "out of stock"; chars "currently unavailable"; chars "nao disponivel";
   ("n"%char :: "227"%char :: "o"%char :: " "%char :: "d"%char :: "i"%char :: "s"%char
    :: "p"%char :: "o"%char :: "n"%char :: "237"%char :: chars "vel")].
Definition IN_STOCK_MARKERS : list (list ascii) := [chars "em estoque"; chars "in stock"].

(** The sub-anchor, scoped under the row. *)
Definition anchor_in_row (html : list ascii) (row sub : string) : option nat :=
  row_pos ← find (chars row) html;
  find_in (chars sub) html row_pos (row_pos + ROW_TO_ANCHOR_WINDOW).

Definition scoped_price (html : list ascii) (row sub : string) : result (option Z) :=
  match anchor_in_row html row sub with
  | None => Ok None
  | Some sub_pos =>
      match search_in PRICE_RE html sub_pos (sub_pos + ANCHOR_TO_PRICE_WINDOW) with
      | None => Ok None
      | Some m => cents_of_brl (group 1 m)
      end
  end.

Definition scoped_pix_price (html : list ascii) (row : string) : result (option Z) :=
  match anchor_in_row html row PIX_VALUE_CLASS with
  | None => Ok None
  | Some sub_pos =>
      match search_in PIX_SPLIT_RE html sub_pos (sub_pos + PIX_VALUE_WINDOW) with
      | Some m => cents_of_brl (group 1 m ++ ","%char :: group 2 m)%list
      | None =>
          match search_in PRICE_RE html sub_pos (sub_pos + PIX_VALUE_WINDOW) with
          | None => Ok None
          | Some full => cents_of_brl (group 1 full)
          end
      end
  end.

Definition availability (html : list ascii) : Availability :=
  match find_first (id_attr quote AVAILABILITY_ID) (id_attr "'" AVAILABILITY_ID) html with
  | None => UNKNOWN
  | Some pos =>
      let text := lower_text (re_sub TAG_RE [" "%char] (slice html pos (pos + AVAILABILITY_WINDOW))) in
      if has_marker OOS_MARKERS text then OUT_OF_STOCK
      else if has_marker IN_STOCK_MARKERS text then IN_STOCK
      else UNKNOWN
  end.

Definition extract : Parser := λ text,
  let html := chars text in
  let? pix_regular := scoped_pix_price html ROW_PIX_REGULAR in
  let? card_regular := scoped_price html ROW_CARD_REGULAR CARD_SPAN_ID in
  let? pix_member := scoped_pix_price html ROW_PIX_MEMBER in
  let? card_member := scoped_price html ROW_CARD_MEMBER CARD_SPAN_ID in
  if bool_decide (pix_regular = None ∧ card_regular = None ∧ pix_member = None ∧ card_member = None)
  then raise ParseError "no Amazon price located (all four tiers absent)"
  else Ok {| price_pix_cents := pix_regular; price_card_cents := card_regular; currency := CURRENCY;
             Domain.availability := availability html;
             price_pix_member_cents := pix_member; price_card_member_cents := card_member |}.
End Amazon.

(** * MercadoLivre *)

Module MercadoLivre.
(** A lookahead for an attribute of the tag. *)
Definition attr_ahead (attribute : re) : re :=
  Ahead (seq_of [many (none_of [">"%char]); WordB; attribute]).
Definition rest_of_tag : re := Seq (many (none_of [">"%char])) (ch ">").

(** [_PRICE_META_RE]. *)
Definition PRICE_META_RE : re :=
  seq_of
    [lit "<meta"; WordB;
     attr_ahead (seq_of [lit "itemprop="; ch quote; lit "price"; ch quote]);
     attr_ahead (seq_of [lit "content="; ch quote; Group 1 Pichau.NUMBER_RE; ch quote]);
     rest_of_tag].

(** [_JSON_LD_BLOCK_RE]. *)
Definition JSON_LD_BLOCK_RE : re :=
  seq_of
    [lit "<script"; WordB;
     attr_ahead (seq_of [lit "type="; ch quote; lit "application/ld+json"; ch quote]);
     rest_of_tag; Group 1 (lazy any); lit "</script>"].

(** [_CANONICAL_HREF_RE] and [_CANONICAL_ID_RE]. *)
Definition CANONICAL_HREF_RE : re :=
  seq_of
    [lit "<link"; WordB;
     attr_ahead (seq_of [lit "rel="; ch quote; lit "canonical"; ch quote]);
     attr_ahead (seq_of [lit "href="; ch quote; Group 1 (many (none_of [quote])); ch quote]);
     rest_of_tag].
Definition CANONICAL_ID_RE : re := Seq (Group 1 (many1 (none_of ["/"%char]))) AtEnd.

Definition BLOCK_TO_META_WINDOW : nat := 4000.
Definition AVAILABILITY_WINDOW : nat := 2000.
Definition STOCK_ANCHORS : list string := ["buybox_available_quantity"; "ui-pdp-stock"].
Definition OOS_MARKERS : list (list ascii) :=
  [chars "sem estoque"; chars "fora de estoque"; chars "indisponivel"; indisponivel;
   chars "esgotad"; chars "produto pausado"; chars "anuncio pausado";
   (chars "an" ++ ["250"%char] ++ chars "ncio pausado")%list;
   chars "currently unavailable"; chars "out of stock"].

Section MercadoLivre.
Variable loads : string → result json.

Definition is_product (v : json) : bool :=
  match v with
  | JObj fields => match od_get "@type" fields with
                   | Some (JStr t) => bool_decide (t = "Product")
                   | _ => false
                   end
  | _ => false
  end.

(** [_json_ld_products]: a block whose JSON does not load is skipped. *)
Fixpoint products_of (blocks : list captures) : result (list (list (string * json))) :=
  match blocks with
  | [] => Ok []
  | m :: rest =>
      match loads (of_chars (group 1 m)) with
      | Ok v =>
          let? ps := products_of rest in
          Ok (match v with JObj fields => if is_product v then fields :: ps else ps | _ => ps end)
      | Raise e =>
          if existsb (is_a e.(exn_class)) [JSONDecodeError; RecursionError; ValueError; OverflowError]
          then products_of rest else Raise e
      end
  end.
Definition json_ld_products (html : list ascii) : result (list (list (string * json))) :=
  products_of (finditer JSON_LD_BLOCK_RE html).

Definition canonical_product_id (html : list ascii) : option string :=
  m ← search CANONICAL_HREF_RE html;
  i ← search CANONICAL_ID_RE (group 1 m);
  Some (of_chars (group 1 i)).

Definition text_member (key : string) (product : list (string * json)) : option string :=
  match od_get key product with
  | Some (JStr s) => if bool_decide (s = "") then None else Some s
  | _ => None
  end.
Definition product_sku (product : list (string * json)) : option string :=
  match text_member "sku" product with
  | Some s => Some s
  | None => text_member "productID" product
  end.

Definition select_product (products : list (list (string * json))) (canonical_id : option string)
    : option (list (string * json)) :=
  match products with
  | [p] => Some p
  | [] => None
  | _ =>
      match canonical_id with
      | None => None
      | Some id =>
          match filter (λ p, product_sku p = Some id) products with
          | [p] => Some p
          | _ => None
          end
      end
  end.

Definition as_object (v : json) : option (list (string * json)) :=
  match v with JObj fields => Some fields | _ => None end.

Definition offers_of (product : list (string * json)) : option (list (string * json)) :=
  match od_get "offers" product with
  | Some (JObj fields) => Some fields
  | Some (JList entries) =>
      let objects := omap as_object entries in
      match filter (λ o, is_Some (od_get "price" o)) objects with
      | o :: _ => Some o
      | [] => head objects
      end
  | _ => None
  end.

(** [value.rsplit("/", 1)[-1]]. *)
Definition tail_of (s : string) : string :=
  let '(last_r, _, _) := partition "/"%char (reverse (chars s)) in of_chars (reverse last_r).

Definition availability_from_schema_url (value : json) : Availability :=
  match value with
  | JStr s => if bool_decide (tail_of s = Availability_value IN_STOCK) then IN_STOCK
              else if bool_decide (tail_of s = Availability_value OUT_OF_STOCK) then OUT_OF_STOCK
              else UNKNOWN
  | _ => UNKNOWN
  end.

(** [offers.get(key)], where an absent or empty offer has none. *)
Definition offer_member (key : string) (offers : option (list (string * json))) : json :=
  default JNull (offers ≫= od_get key).

Definition both (price : Z) (a : Availability) : Extract := regular (Some price) (Some price) a.

(** [_extract_from_json_ld]; [None] sends the page to the meta fallback. *)
Definition extract_from_json_ld (html : list ascii) : result (option Extract) :=
  let? products := json_ld_products html in
  if bool_decide (products = []) then Ok None
  else
    let canonical_id := canonical_product_id html in
    match select_product products canonical_id with
    | None => raise ParseError "multiple MercadoLivre JSON-LD Product nodes, none matching"
    | Some product =>
        if match product_sku product, canonical_id with
           | Some sku, Some id => negb (bool_decide (sku = id))
           | _, _ => false
           end
        then raise ParseError "MercadoLivre JSON-LD Product sku/productID does not match"
        else
          let offers := offers_of product in
          let? price := to_cents (offer_member "price" offers) in
          match price with
          | None => raise ParseError "MercadoLivre JSON-LD Product has no usable offers.price"
          | Some price =>
              match offer_member "priceCurrency" offers with
              | JStr s =>
                  if bool_decide (s = CURRENCY)
                  then Ok (Some (both price
                         (availability_from_schema_url (offer_member "availability" offers))))
                  else raise ParseError "MercadoLivre JSON-LD Product offers.priceCurrency is not BRL"
              | _ => raise ParseError "MercadoLivre JSON-LD Product offers.priceCurrency is not BRL"
              end
          end
    end.

Definition scoped_meta_price (html : list ascii) : result (option Z) :=
  match find_first (id_attr quote "price") (id_attr "'" "price") html with
  | None => Ok None
  | Some block_pos =>
      match search_in PRICE_META_RE html block_pos (block_pos + BLOCK_TO_META_WINDOW) with
      | None => Ok None
      | Some m => let? x := float_of_text (group 1 m) in to_cents (JFloat x)
      end
  end.

(** The first of the stock anchors in the page. *)
Definition stock_anchor (html : list ascii) : option nat :=
  foldl (λ acc anchor,
    match find (chars anchor) html with
    | Some pos => Some (match acc with Some p => Nat.min p pos | None => pos end)
    | None => acc
    end) None STOCK_ANCHORS.

Definition availability (html : list ascii) : Availability :=
  match stock_anchor html with
  | None => UNKNOWN
  | Some pos =>
      let text := lower_text (re_sub TAG_RE [" "%char] (slice html pos (pos + AVAILABILITY_WINDOW))) in
      if has_marker OOS_MARKERS text then OUT_OF_STOCK else IN_STOCK
  end.

Definition extract : Parser := λ text,
  let html := chars text in
  let? from_json_ld := extract_from_json_ld html in
  match from_json_ld with
  | Some x => Ok x
  | None =>
      let? price := scoped_meta_price html in
      match price with
      | None => raise ParseError "no MercadoLivre price located"
      | Some price => Ok (both price (availability html))
      end
  end.
End MercadoLivre.
End MercadoLivre.

(** * The factory *)

Definition KIND_WHITELIST : list string :=
  ["jsonld"; "statejson"; "css"; "regex"; "amazon"; "mercadolivre"; "terabyte"; "pichau"; "magalu"].

Section Factory.
Variable html_events : string → list html_event.
Variable loads : string → result json.

Definition build_parser (spec : ParserSpec) : result Parser :=
  let kind := spec.(spec_kind) in
  if negb (bool_decide (kind ∈ KIND_WHITELIST)) then raise UnknownParserKindError "parser kind not in whitelist"
  else if bool_decide (kind = "statejson") then Ok (statejson_extract html_events loads spec)
  else if bool_decide (kind = "amazon") then Ok Amazon.extract
  else if bool_decide (kind = "mercadolivre") then Ok (MercadoLivre.extract loads)
  else if bool_decide (kind = "terabyte") then Ok Terabyte.extract
  else if bool_decide (kind = "pichau") then Ok Pichau.extract
  else if bool_decide (kind = "magalu") then Ok (magalu_extract html_events loads)
  else raise NotImplementedError "parser kind is whitelisted but not wired at the MVP".
End Factory.

(** * Amounts are floats *)

Lemma range_digit c : range "0" "9" c = is_digit c.
Proof. destruct c as [[] [] [] [] [] [] [] []]; vm_compute; reflexivity. Qed.

Lemma number_Some s : Forall (λ c, is_digit c = true) s → is_Some (number 10 dec_digit s).
Proof.
  unfold number. assert (is_Some (Some 0)) as H by (by eexists). revert H. generalize (Some 0).
  induction s as [| c s IH]; intros o Ho Hs; [done |]. apply Forall_cons in Hs as [Hc Hs].
  cbn [foldl]. apply IH; [| done]. destruct Ho as [a ->]. unfold dec_digit. rewrite Hc. by eexists.
Qed.

Lemma float_of_text_ok a b dot :
  Forall (λ c, is_digit c = true) (a ++ b) → (a ++ b)%list ≠ [] → (dot = [] ∧ b = [] ∨ dot = ["."%char]) →
  ∃ n, 0 <= n ∧ number 10 dec_digit (a ++ b) = Some n
    ∧ float_of_text (a ++ dot ++ b) = Ok (float_of_decimal n (length b)).
Proof.
  intros Hd Hne Hdot. destruct (number_Some _ Hd) as [n Hn]. exists n.
  split; [by eapply number_nonneg |]. split; [done |]. unfold float_of_text.
  assert ("."%char ∉ a) as Ha.
  { apply Forall_app in Hd as [Hd _]. rewrite Forall_forall in Hd. intros Hin. by specialize (Hd _ Hin). }
  destruct Hdot as [[-> ->] | ->].
  - cbn [app]. rewrite app_nil_r in *. rewrite partition_free by done. rewrite app_nil_r, Hn.
    by rewrite bool_decide_eq_false_2.
  - cbn [app]. rewrite partition_sep by done. rewrite Hn. by rewrite bool_decide_eq_false_2.
Qed.

Definition digit_or_dot (c : ascii) : Prop := is_digit c = true ∨ c = "."%char.

(** A Brazilian amount, its dots dropped, is a number with two decimals. *)
Lemma brl_to_reais_ok a b :
  Forall digit_or_dot a → Forall (λ c, is_digit c = true) b → b ≠ [] →
  let ds := (filter (λ c, c ≠ "."%char) a ++ b)%list in
  ∃ n, 0 <= n ∧ number 10 dec_digit ds = Some n
    ∧ brl_to_reais (a ++ ","%char :: b) = Ok (float_of_decimal n (length b)).
Proof.
  intros Ha Hb Hne ds. unfold brl_to_reais.
  set (f := λ c : ascii, if decide (c = ","%char) then "."%char else c).
  assert (∀ l, Forall (λ c, is_digit c = true) l → f <$> l = l) as Hf.
  { intros l Hl. rewrite <- (list_fmap_id l) at 2. apply list_fmap_ext. intros i c Hc.
    rewrite Forall_forall in Hl. unfold f. rewrite decide_False; [done |]. intros ->.
    by specialize (Hl _ (list_elem_of_lookup_2 _ _ _ Hc)). }
  assert (filter (λ c, c ≠ "."%char) b = b) as Hfb.
  { clear - Hb. induction Hb as [| c b Hc Hb IH]; [done |]. rewrite filter_cons_True, IH; [done |].
    by intros ->. }
  assert (Forall (λ c, is_digit c = true) (filter (λ c, c ≠ "."%char) a)) as Hfa.
  { apply Forall_forall. intros c [Hc Hin]%list_elem_of_filter. rewrite Forall_forall in Ha.
    by destruct (Ha c Hin). }
  rewrite filter_app, filter_cons_True, Hfb, fmap_app, fmap_cons, !Hf by done.
  change (f ","%char) with "."%char.
  apply (float_of_text_ok (filter (λ c, c ≠ "."%char) a) b ["."%char]); [by apply Forall_app | | by right].
  by intros [_ ?]%app_eq_nil.
Qed.

Lemma cents_of_brl_ok a b :
  Forall digit_or_dot a → Forall (λ c, is_digit c = true) b → b ≠ [] →
  ∃ o, cents_of_brl (a ++ ","%char :: b) = Ok o.
Proof.
  intros Ha Hb Hne. destruct (brl_to_reais_ok a b Ha Hb Hne) as (n & _ & _ & E).
  unfold cents_of_brl. rewrite E. apply to_cents_float.
Qed.

Lemma cents_of_brl_bounds s o : cents_of_brl s = Ok o → price_ok o.
Proof. unfold cents_of_brl. destruct (brl_to_reais s); [apply to_cents_bounds | done]. Qed.

(** ** What the patterns capture *)

Lemma digits_of f w : (∀ c, f c = true → is_digit c = true) → Forall (λ c, f c = true) w →
  Forall (λ c, is_digit c = true) w.
Proof. intros Hf Hw. eapply Forall_impl; [exact Hw | exact Hf]. Qed.

Ltac split_lang H :=
  apply lang_seq_of in H as (?ws & -> & H);
  repeat match type of H with
  | Forall2 _ (_ :: _) _ => let h := fresh "L" in apply Forall2_cons_inv_l in H as (?w & ?ws' & h & H & ->)
  | Forall2 _ [] _ => apply Forall2_nil_inv_l in H as ->
  end.

Lemma AMOUNT_shape w :
  lang AMOUNT_RE w →
  ∃ a b, w = (a ++ ","%char :: b)%list ∧ Forall digit_or_dot a ∧ length b = 2%nat
    ∧ Forall (λ c, is_digit c = true) b.
Proof.
  unfold AMOUNT_RE. intros H. split_lang H. cbn [concat]. rewrite app_nil_r.
  apply lang_chr_inv in L as (d & -> & Hd). apply lang_at_most in L0 as [_ Hm].
  apply lang_chr_inv in L2 as (comma & -> & ->%bool_decide_eq_true). apply lang_times in L3 as [Hl Ht].
  assert (Forall digit_or_dot w1) as Hg.
  { refine (lang_star_all _ _ _ _ _ L1). intros u Hu.
    inversion_clear Hu as [| | ? ? u1 u2 H1 H2 | | | | | | | |].
    apply lang_chr_inv in H1 as (p & -> & ->%bool_decide_eq_true). apply lang_times in H2 as [_ H2].
    constructor; [by right |]. eapply Forall_impl; [exact H2 |]. intros c Hc.
    left. by rewrite <- range_digit. }
  exists (d :: w0 ++ w1)%list, w3. split; [cbn; by rewrite <- !app_assoc |]. split; [| split; [done |]].
  - constructor; [left; by rewrite <- range_digit |]. apply Forall_app. split; [| done].
    eapply Forall_impl; [exact Hm |]. intros c Hc. left. by rewrite <- range_digit.
  - eapply Forall_impl; [exact Ht |]. intros c Hc. by rewrite <- range_digit.
Qed.

(** A part of a sequence, and what it captures at the end of the match. *)
Lemma M_part l1 r l2 n p c p1 c1 :
  M (seq_of (l1 ++ r :: l2)) p c p1 c1 → forallb (no_group n) l2 = true →
  ∃ q d q1 d1, M r q d q1 d1 ∧ group n d1 = group n c1.
Proof.
  revert p c. induction l1 as [| r' l1 IH]; intros p c; cbn [app seq_of foldr];
    intros H Hn; inversion H as [| | ? ? ? ? p2 c2 ? ? H1 H2 | | | | | | | |]; subst; clear H;
    [| by eapply IH].
  exists p, c, p2, c2. split; [done |]. unfold group. erewrite <- M_no_group; [done | exact H2 |].
  clear H2. induction l2 as [| r' l2 IH2]; [done |]. cbn in *. apply andb_true_iff in Hn as [-> Hn].
  by apply IH2.
Qed.

Lemma M_ahead_inv a p c p1 c1 : M (Ahead a) p c p1 c1 → ∃ p2, M a p c p2 c1.
Proof. intros H. inversion H; subst. by eexists. Qed.

Lemma PRICE_RE_cents p c p1 c1 :
  M PRICE_RE p c p1 c1 → ∃ o, cents_of_brl (group 1 c1) = Ok o ∧ price_ok o.
Proof.
  intros H. apply (M_seq_group [lit "R$"; many white] 1 AMOUNT_RE []) in H; [| done].
  apply AMOUNT_shape in H as (a & b & -> & Ha & Hl & Hb).
  destruct (cents_of_brl_ok a b Ha Hb) as [o Ho]; [by destruct b |].
  exists o. split; [done |]. by eapply cents_of_brl_bounds.
Qed.

Lemma lang_many1 f w : lang (many1 (Chr f)) w → w ≠ [] ∧ Forall (λ x, f x = true) w.
Proof.
  intros H. inversion_clear H as [| | ? ? u v H1 H2 | | | | | | | |].
  apply lang_chr_inv in H1 as (x & -> & Hx). split; [done |].
  constructor; [done |]. by eapply lang_star_Forall.
Qed.

Lemma all_digits w : Forall (λ x, range "0" "9" x = true) w → Forall (λ x, is_digit x = true) w.
Proof. intros H. eapply Forall_impl; [exact H |]. intros x Hx. by rewrite <- range_digit. Qed.

(** A number of a pattern is one [float] reads. *)
Lemma NUMBER_cents w :
  lang Pichau.NUMBER_RE w →
  ∃ o, (let? x := float_of_text w in to_cents (JFloat x)) = Ok o ∧ price_ok o.
Proof.
  intros H. inversion_clear H as [| | ? ? u v H1 H2 | | | | | | | |].
  apply lang_many1 in H1 as [Hu Hd%all_digits].
  assert (∃ x, float_of_text (u ++ v) = Ok x) as [x Hx].
  { inversion_clear H2 as [| | | ? ? ? H3 | ? ? ? H3 | | | | | |].
    - inversion_clear H3 as [| | ? ? dot b H4 H5 | | | | | | | |].
      apply lang_chr_inv in H4 as (d & -> & ->%bool_decide_eq_true).
      apply lang_many1 in H5 as [Hb Hd'%all_digits].
      destruct (float_of_text_ok u b ["."%char]) as (n & _ & _ & E);
        [by apply Forall_app | by intros [? _]%app_eq_nil | by right | eauto].
    - inversion_clear H3. destruct (float_of_text_ok u [] []) as (n & _ & _ & E);
        [by rewrite app_nil_r | by rewrite app_nil_r | by left | eauto]. }
  rewrite Hx. destruct (to_cents_float x) as [o Ho]. exists o. split; [done |]. by eapply to_cents_bounds.
Qed.

(** The two groups of the split price of Amazon make an amount. *)
Lemma PIX_SPLIT_cents p c p1 c1 :
  M Amazon.PIX_SPLIT_RE p c p1 c1 →
  ∃ o, cents_of_brl (group 1 c1 ++ ","%char :: group 2 c1) = Ok o ∧ price_ok o.
Proof.
  intros H. unfold Amazon.PIX_SPLIT_RE in H.
  match type of H with M (seq_of [?a;?b;?cc;?d;?e;Group 1 ?f;?g;?h;?i;?j;?k;?l;?m;?n;?q;?r;Group 2 ?s]) _ _ _ _ =>
    pose proof (M_seq_group [a;b;cc;d;e] 1 f [g;h;i;j;k;l;m;n;q;r;Group 2 s] _ _ _ _ H eq_refl) as H1;
    pose proof (M_seq_group [a;b;cc;d;e;Group 1 f;g;h;i;j;k;l;m;n;q;r] 2 s [] _ _ _ _ H eq_refl) as H2
  end.
  apply lang_many1 in H1 as [_ Hw]. apply lang_times in H2 as [Hl Hd%all_digits].
  destruct (cents_of_brl_ok (group 1 c1) (group 2 c1)) as [o Ho]; [| done | by destruct (group 2 c1) |].
  - eapply Forall_impl; [exact Hw |]. cbn. intros x [Hx | Hx%bool_decide_eq_true]%orb_true_iff;
      [left; by rewrite <- range_digit | by right].
  - exists o. split; [done |]. by eapply cents_of_brl_bounds.
Qed.

(** * The scrapers fail closed *)

(** A parse either gives an extract or is refused: ParseError, and nothing
    else, so that a page a site redesigned is an indeterminate verdict. *)
Definition answers_or_refuses (r : result Extract) : Prop :=
  (∃ x, r = Ok x ∧ extract_ok x) ∨ ∃ msg, r = raise ParseError msg.

Definition price_or_none (r : result (option Z)) : Prop := ∃ o, r = Ok o ∧ price_ok o.
#[local] Hint Unfold price_or_none : core.

Lemma none_ok : price_or_none (Ok None).
Proof. by exists None. Qed.
#[local] Hint Resolve none_ok : core.

Lemma regular_answers pix card a msg :
  price_ok pix → price_ok card →
  answers_or_refuses (if bool_decide (pix = None ∧ card = None) then raise ParseError msg
                      else Ok (regular pix card a)).
Proof.
  intros Hp Hc. case_bool_decide as Hn; [right; by eexists |]. left. eexists. split; [done |].
  by apply regular_ok.
Qed.

Lemma terabyte_first_valid html id : price_or_none (Terabyte.first_valid_id_price html id).
Proof.
  unfold Terabyte.first_valid_id_price. induction (finditer _ _) as [| m ms IH]; [done |].
  cbn [Terabyte.first_valid]. destruct (search PRICE_RE _) as [price |] eqn:Es; [| done].
  apply search_M in Es as (? & ? & ? & ? & _ & HM).
  destruct (PRICE_RE_cents _ _ _ _ HM) as ([cents |] & -> & Ho); [| done].
  cbn [rbind]. by exists (Some cents).
Qed.

Lemma terabyte_answers html : answers_or_refuses (Terabyte.extract html).
Proof.
  unfold Terabyte.extract.
  destruct (terabyte_first_valid (chars html) Terabyte.ID_VISTA) as (pix & -> & Hp).
  destruct (terabyte_first_valid (chars html) Terabyte.ID_PARC) as (card & -> & Hc).
  by apply regular_answers.
Qed.

Lemma pichau_scoped html key : price_or_none (Pichau.scoped_flight_price html (Pichau.flight_number_re key)).
Proof.
  unfold Pichau.scoped_flight_price. destruct (find _ _) as [anchor |]; [| done].
  destruct (search_in _ _ _ _) as [m |] eqn:Es; [| done].
  apply search_in_M in Es as (? & ? & ? & ? & _ & HM).
  apply NUMBER_cents.
  eapply (M_seq_group [lit key; Pichau.escapes; many white; ch ":"; many white] 1 _ []); [exact HM | done].
Qed.

Lemma pichau_answers html : answers_or_refuses (Pichau.extract html).
Proof.
  unfold Pichau.extract.
  destruct (pichau_scoped (chars html) "avista") as (pix & -> & Hp).
  destruct (pichau_scoped (chars html) "final_price") as (card & -> & Hc).
  by apply regular_answers.
Qed.

Lemma amazon_scoped html row sub : price_or_none (Amazon.scoped_price html row sub).
Proof.
  unfold Amazon.scoped_price. destruct (Amazon.anchor_in_row _ _ _) as [sub_pos |]; [| done].
  destruct (search_in _ _ _ _) as [m |] eqn:Es; [| done].
  apply search_in_M in Es as (? & ? & ? & ? & _ & HM). by eapply PRICE_RE_cents.
Qed.

Lemma amazon_scoped_pix html row : price_or_none (Amazon.scoped_pix_price html row).
Proof.
  unfold Amazon.scoped_pix_price. destruct (Amazon.anchor_in_row _ _ _) as [sub_pos |]; [| done].
  destruct (search_in Amazon.PIX_SPLIT_RE _ _ _) as [m |] eqn:Es.
  - apply search_in_M in Es as (? & ? & ? & ? & _ & HM). by eapply PIX_SPLIT_cents.
  - destruct (search_in PRICE_RE _ _ _) as [m |] eqn:Ef; [| done].
    apply search_in_M in Ef as (? & ? & ? & ? & _ & HM). by eapply PRICE_RE_cents.
Qed.

Lemma amazon_answers html : answers_or_refuses (Amazon.extract html).
Proof.
  unfold Amazon.extract.
  destruct (amazon_scoped_pix (chars html) Amazon.ROW_PIX_REGULAR) as (p & -> & Hp).
  destruct (amazon_scoped (chars html) Amazon.ROW_CARD_REGULAR Amazon.CARD_SPAN_ID) as (q & -> & Hq).
  destruct (amazon_scoped_pix (chars html) Amazon.ROW_PIX_MEMBER) as (r & -> & Hr).
  destruct (amazon_scoped (chars html) Amazon.ROW_CARD_MEMBER Amazon.CARD_SPAN_ID) as (s & -> & Hs).
  cbn [rbind]. case_bool_decide as Hn; [right; by eexists |]. left. eexists. split; [done |].
  split; try done. apply has_price_true. cbn. destruct p, q, r, s; try (by eauto 6).
  by destruct Hn.
Qed.

Definition float_overflow {A} : result A := raise OverflowError "int too large to convert to float".

Lemma to_cents_total v : price_or_none (to_cents v) ∨ to_cents v = float_overflow.
Proof.
  destruct v as [| b | n | x | s | l | l]; try (by left).
  - cbn [to_cents]. rewrite isfinite_int_spec. destruct (INT_OVERFLOW <=? _); [by right | left].
    cbn [rbind negb]. destruct (n <=? 0); [done |]. eexists. split; [done |].
    intros c Hc. by apply in_price_bounds_Some in Hc as [-> ?].
  - left. destruct (to_cents_float x) as [o Ho]. exists o. split; [done | by eapply to_cents_bounds].
Qed.

Lemma both_answers price a : price_ok (Some price) → answers_or_refuses (Ok (MercadoLivre.both price a)).
Proof.
  intros Hp. left. eexists. split; [done |]. apply regular_ok; [done | done |]. by intros [? _].
Qed.

(** [json.loads] raises ValueError (JSONDecodeError is one) or RecursionError. *)
Definition loads_raises_value_errors (loads : string → result json) : Prop :=
  ∀ raw e, loads raw = Raise e → is_a e.(exn_class) ValueError = true ∨ is_a e.(exn_class) RecursionError = true.

Section MercadoLivreLaws.
Context (loads : string → result json) (Hloads : loads_raises_value_errors loads).

Lemma products_of_total blocks : ∃ ps, MercadoLivre.products_of loads blocks = Ok ps.
Proof using Hloads.
  induction blocks as [| m blocks [ps IH]]; [by eexists |]. cbn [MercadoLivre.products_of].
  destruct (loads _) as [v | e] eqn:El.
  - rewrite IH. cbn [rbind]. by eexists.
  - assert (existsb (is_a (exn_class e)) [JSONDecodeError; RecursionError; ValueError; OverflowError] = true)
      as ->; [| by eexists].
    cbn. destruct (Hloads _ _ El) as [-> | ->]; by rewrite ?orb_true_r.
Qed.

Lemma json_ld_answers html :
  (∃ r, MercadoLivre.extract_from_json_ld loads html = Ok r ∧ ∀ x, r = Some x → extract_ok x)
  ∨ (∃ msg, MercadoLivre.extract_from_json_ld loads html = raise ParseError msg)
  ∨ MercadoLivre.extract_from_json_ld loads html = float_overflow.
Proof using Hloads.
  unfold MercadoLivre.extract_from_json_ld, MercadoLivre.json_ld_products.
  destruct (products_of_total (finditer MercadoLivre.JSON_LD_BLOCK_RE html)) as [ps ->]. cbn [rbind].
  case_bool_decide; [left; by eexists |]. cbv zeta.
  destruct (MercadoLivre.select_product _ _) as [p |]; [| right; left; by eexists].
  match goal with |- context [if ?b then _ else _] => destruct b end; [right; left; by eexists |].
  set (price := MercadoLivre.offer_member "price" _). destruct (to_cents_total price) as [(o & -> & Ho) | ->];
    [| by right; right].
  cbn [rbind]. destruct o as [c |]; [| right; left; by eexists].
  destruct (MercadoLivre.offer_member "priceCurrency" _); try (right; left; by eexists).
  case_bool_decide; [| right; left; by eexists].
  left. eexists. split; [done |]. intros x [= <-].
  destruct (both_answers c (MercadoLivre.availability_from_schema_url
    (MercadoLivre.offer_member "availability" (MercadoLivre.offers_of p))) Ho) as [(? & [= <-] & ?) | [? ?]]; done.
Qed.

Lemma meta_price html : price_or_none (MercadoLivre.scoped_meta_price html).
Proof.
  unfold MercadoLivre.scoped_meta_price. destruct (find_first _ _ _) as [block |]; [| done].
  destruct (search_in _ _ _ _) as [m |] eqn:Es; [| done].
  apply search_in_M in Es as (? & ? & ? & ? & _ & HM). apply NUMBER_cents.
  unfold MercadoLivre.PRICE_META_RE in HM.
  match type of HM with M (seq_of [?a; ?b; ?c; ?d; ?e]) _ _ _ _ =>
    destruct (M_part [a; b; c] d [e] 1 _ _ _ _ HM eq_refl) as (q & d0 & q1 & d1 & Hd & <-) end.
  apply M_ahead_inv in Hd as [p2 Ha].
  match type of Ha with M (seq_of [?a; ?b; ?c]) _ _ _ _ =>
    destruct (M_part [a; b] c [] 1 _ _ _ _ Ha eq_refl) as (q' & d0' & q1' & d1' & Hg & <-) end.
  match type of Hg with M (seq_of [?a; ?b; Group 1 ?c; ?d]) _ _ _ _ =>
    exact (M_seq_group [a; b] 1 c [d] _ _ _ _ Hg eq_refl) end.
Qed.

Lemma mercadolivre_answers html :
  answers_or_refuses (MercadoLivre.extract loads html) ∨ MercadoLivre.extract loads html = float_overflow.
Proof using Hloads.
  unfold MercadoLivre.extract. cbv zeta.
  destruct (json_ld_answers (chars html)) as [(r & -> & Hr) | [[msg ->] | ->]];
    [| left; right; by eexists | by right].
  left. cbn [rbind]. destruct r as [x |]; [left; eexists; split; [done | by apply Hr] |].
  destruct (meta_price (chars html)) as ([c |] & -> & Hc); cbn [rbind]; [by apply both_answers |].
  right. by eexists.
Qed.
End MercadoLivreLaws.

(** C20: the page scrapers fail closed.  Whatever the page, the terabyte, pichau
    and amazon parsers answer an extract with a price, all of whose prices are
    between one cent and one million reais, or raise ParseError: no page makes
    them raise anything else. *)
Theorem scrapers_fail_closed (html : string) :
  answers_or_refuses (Terabyte.extract html)
  ∧ answers_or_refuses (Pichau.extract html)
  ∧ answers_or_refuses (Amazon.extract html).
Proof. split_and!; [apply terabyte_answers | apply pichau_answers | apply amazon_answers]. Qed.

Lemma answers_lawful (P : Parser) : (∀ html, answers_or_refuses (P html)) → LawfulParser P.
Proof.
  intros H html x Hx. destruct (H html) as [(y & Hy & Hok) | [msg Hm]]; rewrite Hx in *; [| done].
  by injection Hy as ->.
Qed.

#[export] Instance terabyte_lawful : LawfulParser Terabyte.extract.
Proof. apply answers_lawful, terabyte_answers. Qed.
#[export] Instance pichau_lawful : LawfulParser Pichau.extract.
Proof. apply answers_lawful, pichau_answers. Qed.
#[export] Instance amazon_lawful : LawfulParser Amazon.extract.
Proof. apply answers_lawful, amazon_answers. Qed.
#[export] Instance mercadolivre_lawful loads (H : loads_raises_value_errors loads) :
  LawfulParser (MercadoLivre.extract loads).
Proof.
  intros html x Hx. destruct (mercadolivre_answers loads H html) as [[(y & Hy & Hok) | [msg Hm]] | Ho];
    rewrite Hx in *; [| done | done]. by injection Hy as ->.
Qed.

Definition WIRED_KINDS : list string := ["statejson"; "amazon"; "mercadolivre"; "terabyte"; "pichau"; "magalu"].
Definition UNWIRED_KINDS : list string := ["jsonld"; "css"; "regex"].

(** the parser factory.  Only a kind of the whitelist selects a parser: six
    kinds build one, and each of them accepts a page only with a price, within
    the price bounds, in reais; the other three kinds of the whitelist raise
    NotImplementedError, and every other kind UnknownParserKindError. *)
Theorem build_parser_spec events loads spec (Hloads : loads_raises_value_errors loads) :
  match build_parser events loads spec with
  | Ok P => spec.(spec_kind) ∈ WIRED_KINDS ∧ LawfulParser P
  | Raise e =>
      (spec.(spec_kind) ∈ UNWIRED_KINDS ∧ e.(exn_class) = NotImplementedError)
      ∨ (spec.(spec_kind) ∉ WIRED_KINDS ∧ spec.(spec_kind) ∉ UNWIRED_KINDS
         ∧ e.(exn_class) = UnknownParserKindError)
  end.
Proof.
  unfold build_parser. set (k := spec_kind spec).
  destruct (bool_decide (k ∈ KIND_WHITELIST)) eqn:Ew; cbn [negb].
  2: { apply bool_decide_eq_false in Ew. right. unfold KIND_WHITELIST, WIRED_KINDS, UNWIRED_KINDS in *.
       split_and!; [set_solver | set_solver | done]. }
  apply bool_decide_eq_true in Ew.
  destruct (bool_decide_reflect (k = "statejson")) as [-> | N1]; [split; [set_solver | apply _] |].
  destruct (bool_decide_reflect (k = "amazon")) as [-> | N2]; [split; [set_solver | apply _] |].
  destruct (bool_decide_reflect (k = "mercadolivre")) as [-> | N3];
    [split; [set_solver | by apply mercadolivre_lawful] |].
  destruct (bool_decide_reflect (k = "terabyte")) as [-> | N4]; [split; [set_solver | apply _] |].
  destruct (bool_decide_reflect (k = "pichau")) as [-> | N5]; [split; [set_solver | apply _] |].
  destruct (bool_decide_reflect (k = "magalu")) as [-> | N6]; [split; [set_solver | apply _] |].
  left. split; [| done]. unfold KIND_WHITELIST, UNWIRED_KINDS in *. set_solver.
Qed.

Lemma build_parser_spec_witness :
  match build_parser (λ _, []) (λ _, raise ValueError "json")
          {| spec_kind := "terabyte"; spec_pix := None; spec_card := None; spec_availability := None |} with
  | Ok P => LawfulParser P
  | Raise _ => False
  end.
Proof.
  exact (proj2 (build_parser_spec (λ _, []) (λ _, raise ValueError "json")
    {| spec_kind := "terabyte"; spec_pix := None; spec_card := None; spec_availability := None |}
    ltac:(by intros raw e [= <-]; left))).
Defined.

(** * What the scrapers read *)

Lemma lang_id_attr q v w : lang (seq_of (ch <$> id_attr q v)) w → w = id_attr q v.
Proof.
  intros (ws & -> & Hws)%lang_seq_of. revert ws Hws.
  induction (id_attr q v) as [| x l IH]; intros ws Hws;
    inversion_clear Hws as [| ? w ? ws' Hw Hws']; [done |].
  apply lang_chr_inv in Hw as (y & -> & ->%bool_decide_eq_true). cbn. by rewrite (IH _ Hws').
Qed.

(** [text] directly follows a start tag with id [id], and holds no tag. *)
Definition id_text_in (html : list ascii) (id : string) (text : list ascii) : Prop :=
  ∃ pre tag post,
    html = (pre ++ id_attr quote id ++ tag ++ ">"%char :: text ++ post)%list
    ∧ ">"%char ∉ tag ∧ "<"%char ∉ text.

(** The amount [amount] is in [text], after R$ and white space. *)
Definition price_in (text amount : list ascii) : Prop :=
  ∃ pre ws post, text = (pre ++ chars "R$" ++ ws ++ amount ++ post)%list ∧ Forall (λ c, is_white c = true) ws.

Lemma PRICE_RE_in text c1 : search PRICE_RE text = Some c1 → price_in text (group 1 c1).
Proof.
  intros (sk & bf & mid & p & -> & HM)%search_M. exists sk. unfold PRICE_RE in HM.
  inversion HM as [| | ? ? ? ? q d ? ? H1 HM1 | | | | | | | |]; subst; clear HM.
  inversion HM1 as [| | ? ? ? ? q2 d2 ? ? H2 HM2 | | | | | | | |]; subst; clear HM1.
  inversion HM2 as [| | ? ? ? ? q3 d3 ? ? H3 HM3 | | | | | | | |]; subst; clear HM2.
  inversion HM3; subst; clear HM3. inversion H3 as [| | | | | | | n b q4 d4 q5 d5 H4 | | |]; subst; clear H3.
  apply M_lang in H1 as (w1 & E1 & L1), H2 as (w2 & E2 & L2), H4 as (w3 & E3 & L3).
  cbn [snd] in E1. subst mid. rewrite E2, E3. apply lang_lit in L1 as ->.
  exists w2, p.2. unfold group. rewrite lookup_insert_eq. cbn [default from_option].
  rewrite length_app. replace (length w3 + length p.2 - length p.2)%nat with (length w3) by lia.
  rewrite take_app_length. split; [by rewrite <- ?app_assoc | by eapply lang_star_Forall].
Qed.

Lemma id_text_match id html c :
  c ∈ finditer (Terabyte.id_text_re id) html → id_text_in html id (group 1 c).
Proof.
  unfold finditer. intros (pre & bf & mid & p & -> & HM)%find_all_M.
  unfold Terabyte.id_text_re in HM.
  inversion HM as [| | ? ? ? ? q d ? ? H1 HM1 | | | | | | | |]; subst; clear HM.
  inversion HM1 as [| | ? ? ? ? q2 d2 ? ? H2 HM2 | | | | | | | |]; subst; clear HM1.
  inversion HM2 as [| | ? ? ? ? q3 d3 ? ? H3 HM3 | | | | | | | |]; subst; clear HM2.
  inversion HM3 as [| | ? ? ? ? q4 d4 ? ? H4 HM4 | | | | | | | |]; subst; clear HM3.
  inversion HM4; subst; clear HM4. inversion H4 as [| | | | | | | n b q5 d5 q6 d6 H5 | | |]; subst; clear H4.
  apply M_lang in H1 as (w1 & E1 & L1), H2 as (w2 & E2 & L2), H3 as (w3 & E3 & L3), H5 as (w4 & E4 & L4).
  cbn [snd] in E1. subst mid. rewrite E2, E3, E4. apply lang_id_attr in L1 as ->.
  apply lang_chr_inv in L3 as (gt & -> & ->%bool_decide_eq_true).
  apply lang_star_Forall in L2, L4. rewrite Forall_forall in L2, L4.
  exists pre, w2, p.2. unfold group. rewrite lookup_insert_eq. cbn [default from_option].
  rewrite length_app. replace (length w4 + length p.2 - length p.2)%nat with (length w4) by lia.
  rewrite take_app_length. split_and!; [done | |].
  - intros Hin. specialize (L2 _ Hin). cbn in L2. by rewrite bool_decide_eq_true_2 in L2 by set_solver.
  - intros Hin. specialize (L4 _ Hin). cbn in L4. by rewrite bool_decide_eq_true_2 in L4 by set_solver.
Qed.

(** [c] cents is the amount an element of id [id] holds in its own text. *)
Definition id_price (html : list ascii) (id : string) (c : Z) : Prop :=
  ∃ text amount, id_text_in html id text ∧ price_in text amount ∧ cents_of_brl amount = Ok (Some c).

Lemma first_valid_in ms c :
  Terabyte.first_valid ms = Ok (Some c) →
  ∃ m amount, m ∈ ms ∧ price_in (group 1 m) amount ∧ cents_of_brl amount = Ok (Some c).
Proof.
  induction ms as [| m ms IH]; [done |]. cbn [Terabyte.first_valid].
  assert (Terabyte.first_valid ms = Ok (Some c) →
    ∃ m' amount, m' ∈ m :: ms ∧ price_in (group 1 m') amount ∧ cents_of_brl amount = Ok (Some c)) as Hnext.
  { intros (m' & a & ? & ? & ?)%IH. exists m', a. by split_and!; [right | |]. }
  destruct (search PRICE_RE (group 1 m)) as [pr |] eqn:Es; [| exact Hnext].
  destruct (cents_of_brl (group 1 pr)) as [[c' |] | e] eqn:Ec; cbn [rbind]; [| exact Hnext | done].
  intros [= ->]. exists m, (group 1 pr). split_and!; [by left | by apply PRICE_RE_in | done].
Qed.

Lemma first_valid_id html id c :
  Terabyte.first_valid_id_price html id = Ok (Some c) → id_price html id c.
Proof.
  intros (m & amount & Hm & Hp & Hc)%first_valid_in. exists (group 1 m), amount.
  split_and!; [by apply id_text_match | done | done].
Qed.

(** Terabyte reads the prices of the product, and no other: the pix price
    is the amount in the own text of an element whose id is valVista, and the
    card price of one whose id is valParc -- text between that start tag and
    the next tag, so neither the installment beside an empty valParc nor the
    struck reference price around it is read. *)
Theorem terabyte_reads_ids (html : string) (x : Extract) :
  Terabyte.extract html = Ok x →
  (∀ c, x.(price_pix_cents) = Some c → id_price (chars html) Terabyte.ID_VISTA c)
  ∧ (∀ c, x.(price_card_cents) = Some c → id_price (chars html) Terabyte.ID_PARC c)
  ∧ x.(price_pix_member_cents) = None ∧ x.(price_card_member_cents) = None.
Proof.
  unfold Terabyte.extract. destruct (Terabyte.first_valid_id_price _ _) as [pix | e] eqn:Ep; [| done].
  cbn [rbind]. destruct (Terabyte.first_valid_id_price _ Terabyte.ID_PARC) as [card | e] eqn:Ec; [| done].
  cbn [rbind]. case_bool_decide; [done |]. intros [= <-]. cbn.
  split_and!; [| | done | done]; intros c ->; by apply first_valid_id.
Qed.

(** A page with a struck price, an empty valParc beside the installment, and
    the template 000,00. *)
Definition terabyte_page : string :=
  String.concat (String quote "")
    ["<span id="; "valParc"; " class="; "valParc"; "></span><span>R$ 73,44</span><p id="; "valVista";
     ">R$ 000,00</p><del>R$ 1.559,99</del><i title="; "no Estoque"; "></i><p id="; "valVista";
     ">R$ 1.749,09</p><!-- esgotado --><span id="; "valParc"; ">R$ 1.881,28</span>"].

Lemma terabyte_reads_ids_witness :
  ∃ x, Terabyte.extract terabyte_page = Ok x ∧ x.(price_pix_cents) = Some 174909
    ∧ id_price (chars terabyte_page) Terabyte.ID_VISTA 174909.
Proof.
  destruct (Terabyte.extract terabyte_page) as [x | e] eqn:E; vm_compute in E; [| done].
  pose proof (terabyte_reads_ids terabyte_page x ltac:(vm_compute; exact E)) as H.
  injection E as <-. eexists. split_and!; [done | done |]. by apply H.
Defined.

Example terabyte_page_reads :
  Terabyte.extract terabyte_page = Ok (regular (Some 174909) (Some 188128) IN_STOCK).
Proof. vm_compute. reflexivity. Qed.

(** * The product MercadoLivre prices *)

Notation product := (list (string * json)).

Lemma select_product_spec (ps : list product) (id : option string) p :
  MercadoLivre.select_product ps id = Some p →
  p ∈ ps ∧ (ps = [p] ∨ ∃ i, id = Some i ∧ filter (λ q, MercadoLivre.product_sku q = Some i) ps = [p]).
Proof.
  unfold MercadoLivre.select_product. destruct ps as [| p1 [| p2 ps]]; [done | intros [= <-]; split; [set_solver | by left] |].
  destruct id as [i |]; [| done].
  destruct (filter (λ q, MercadoLivre.product_sku q = Some i) (p1 :: p2 :: ps)) as [| q [| q' qs]] eqn:Ef; try done.
  intros [= <-]. split; [| right; by exists i].
  assert (q ∈ filter (λ p, MercadoLivre.product_sku p = Some i) (p1 :: p2 :: ps)) as Hq by (rewrite Ef; set_solver).
  by apply list_elem_of_filter in Hq as [_ ?].
Qed.

(** The product [p] of the page is the one the page is about: its only one, or
    the only one whose sku is the page's canonical id, and its sku is not
    another. *)
Definition product_of_page (html : list ascii) (ps : list product) (p : product) : Prop :=
  let canonical := MercadoLivre.canonical_product_id html in
  p ∈ ps
  ∧ (ps = [p] ∨ ∃ i, canonical = Some i ∧ filter (λ q, MercadoLivre.product_sku q = Some i) ps = [p])
  ∧ ∀ sku i, MercadoLivre.product_sku p = Some sku → canonical = Some i → sku = i.

(** *** Its markup *)

(** [a] starts at [i] in the text, and nowhere before. *)
Definition first_at (a s : list ascii) (i : nat) : Prop :=
  a `prefix_of` drop i s ∧ ∀ j, (j < i)%nat → ¬ a `prefix_of` drop j s.

Lemma find_first_at a s :
  match find a s with Some i => first_at a s i | None => ∀ j, ¬ a `prefix_of` drop j s end.
Proof.
  unfold first_at. induction s as [| x s IH]; cbn [find]; case_bool_decide as Hp.
  - split; [done | lia].
  - intros j. by rewrite drop_nil.
  - split; [done | lia].
  - destruct (find a s) as [i |]; cbn.
    + destruct IH as [H1 H2]. split; [done |]. intros [| j] Hj; [done |]. cbn. apply H2. lia.
    + intros [| j]; [done | apply IH].
Qed.

(** The one block of the page that holds the price: its first element with id
    price, in double quotes if there is one. *)
Definition price_block (html : list ascii) (i : nat) : Prop :=
  first_at (id_attr quote "price") html i
  ∨ (∀ j, ¬ id_attr quote "price" `prefix_of` drop j html) ∧ first_at (id_attr "'" "price") html i.

Lemma find_first_block html i :
  find_first (id_attr quote "price") (id_attr "'" "price") html = Some i → price_block html i.
Proof.
  unfold find_first. pose proof (find_first_at (id_attr quote "price") html) as H1.
  pose proof (find_first_at (id_attr "'" "price") html) as H2.
  destruct (find _ html) as [k |]; [intros [= <-]; by left |]. intros E. rewrite E in H2. by right.
Qed.

(** A start tag with the attribute, in double quotes. *)
Definition has_attr (tag : list ascii) (name : string) (v : list ascii) : Prop :=
  ∃ a b, tag = (a ++ chars name ++ ["="%char; quote] ++ v ++ quote :: b)%list.

(** [number] is the content of a meta tag of the text that is its price. *)
Definition price_meta (text number : list ascii) : Prop :=
  ∃ pre tag post, text = (pre ++ chars "<meta" ++ tag ++ ">"%char :: post)%list ∧ ">"%char ∉ tag
    ∧ has_attr tag "itemprop" (chars "price") ∧ has_attr tag "content" number.

Lemma M_cons r rs p c p2 c2 :
  M (seq_of (r :: rs)) p c p2 c2 → ∃ p1 c1, M r p c p1 c1 ∧ M (seq_of rs) p1 c1 p2 c2.
Proof. inversion 1; subst. eauto. Qed.

(** A text without the character is inside the part before it. *)
Lemma inside (x : ascii) (w u a b : list ascii) :
  (w ++ u = a ++ x :: b)%list → x ∉ w → ∃ v, a = (w ++ v)%list.
Proof.
  intros E Hx. apply app_eq_app in E as (k & [[-> E] | [-> E]]); [| by exists k].
  destruct k as [| y k]; [exists []; by rewrite !app_nil_r |]. injection E as <- _. set_solver.
Qed.

Lemma number_no_gt w : lang Pichau.NUMBER_RE w → ">"%char ∉ w.
Proof.
  assert (∀ v, Forall (λ x, range "0" "9" x = true) v → ">"%char ∉ v) as Hd.
  { intros v Hv Hin. rewrite Forall_forall in Hv. by specialize (Hv _ Hin). }
  intros H. apply lang_seq_inv in H as (u & v & -> & [_ Hu]%lang_many1 & Hv).
  apply not_elem_of_app. split; [auto |]. apply lang_opt_inv in Hv as [-> | Hv]; [set_solver |].
  apply lang_seq_inv in Hv as (d & n & -> & (y & -> & ->%bool_decide_eq_true)%lang_chr_inv & Hn).
  apply lang_many1 in Hn as [_ Hn]. specialize (Hd _ Hn). set_solver.
Qed.

Lemma M_ahead_cons a rs p c p2 c2 :
  M (seq_of (Ahead a :: rs)) p c p2 c2 → ∃ q c1, M a p c q c1 ∧ M (seq_of rs) p c1 p2 c2.
Proof. intros (q & c1 & Ha & Hr)%M_cons. inversion Ha; subst. eauto. Qed.

(** Where a lookahead for an attribute finds it. *)
Lemma attr_at attr bf s c q c1 :
  M (seq_of [many (none_of [">"%char]); WordB; attr]) (bf, s) c q c1 →
  ∃ a bf' s', s = (a ++ s')%list ∧ ">"%char ∉ a ∧ M attr (bf', s') c q c1.
Proof.
  intros (p1 & d1 & H1 & (p2 & d2 & H2 & (p3 & d3 & H3 & H4)%M_cons)%M_cons)%M_cons.
  pose proof (M_no_group 1 _ _ _ _ _ H1 eq_refl) as _. inversion H2; subst; clear H2. inversion H4; subst; clear H4.
  assert (d2 = c) as ->.
  { clear H3. revert H1. generalize (bf, s). intros p H1. remember (many (none_of [">"%char])) as r eqn:Er.
    induction H1; inversion Er; subst; [done |]. inversion H1_; subst. auto. }
  destruct (M_lang _ _ _ _ _ H1) as (a & Ha & La). cbn in Ha. destruct p2 as [bf' s'].
  exists a, bf', s'. split_and!; [done | | done]. apply lang_star_Forall in La. rewrite Forall_forall in La.
  intros Hin. specialize (La _ Hin). cbn in La. by rewrite bool_decide_eq_true_2 in La by set_solver.
Qed.

Lemma lang_ch x w : lang (ch x) w → w = [x].
Proof. by intros (y & -> & ->%bool_decide_eq_true)%lang_chr_inv. Qed.

Lemma has_attr_in (name : string) v a x tag post :
  (tag ++ ">"%char :: post = a ++ chars name ++ ["="%char; quote] ++ v ++ quote :: x)%list →
  ">"%char ∉ a → ">"%char ∉ chars name → ">"%char ∉ v → has_attr tag name v.
Proof.
  intros E Ha Hn Hv. destruct (inside ">" (a ++ chars name ++ ["="%char; quote] ++ v ++ [quote]) x tag post) as [b ->].
  - rewrite E. by rewrite <- !app_assoc.
  - rewrite !not_elem_of_app. split_and!; [done | done | | done |]; apply (bool_decide_eq_false_1 _); vm_compute; reflexivity.
  - exists a, b. by rewrite <- !app_assoc.
Qed.

Lemma PRICE_META_tag bf mid p c :
  M MercadoLivre.PRICE_META_RE (bf, mid) ∅ p c →
  ∃ tag post, mid = (chars "<meta" ++ tag ++ ">"%char :: post)%list ∧ ">"%char ∉ tag
    ∧ has_attr tag "itemprop" (chars "price") ∧ has_attr tag "content" (group 1 c).
Proof.
  intros ([b1 s1] & c1 & H1 & (p2 & c2 & H2 & H3)%M_cons)%M_cons.
  apply M_lang in H1 as (w1 & E1 & ->%lang_lit). cbn in E1. subst mid. inversion H2; subst; clear H2.
  apply M_ahead_cons in H3 as (q3 & c3 & HA & H3). apply M_ahead_cons in H3 as (q4 & c4 & HB & H3).
  apply M_cons in H3 as (p5 & c5 & H5 & H6). inversion H6; subst; clear H6.
  assert (c !! 1%nat = c4 !! 1%nat) as Hc by (apply (M_no_group 1 _ _ _ _ _ H5); done).
  destruct (M_lang _ _ _ _ _ H5) as (w5 & E5 & L5). cbn in E5.
  apply lang_seq_inv in L5 as (tag & gt & -> & Htag & ->%lang_ch). rewrite <- app_assoc in E5. cbn in E5. subst s1.
  exists tag, p.2. split; [done |]. split.
  { apply lang_star_Forall in Htag. rewrite Forall_forall in Htag. intros Hin. specialize (Htag _ Hin). cbn in Htag.
    by rewrite bool_decide_eq_true_2 in Htag by set_solver. }
  apply attr_at in HA as (a & ba & sa & Ea & Ha & HA), HB as (b & bb & sb & Eb & Hb & HB). split.
  - apply M_lang in HA as (w & Ew & Lw). cbn in Ew. subst sa.
    apply lang_seq_inv in Lw as (w1 & x1 & -> & ->%lang_lit & Lw).
    apply lang_seq_inv in Lw as (w2 & x2 & -> & ->%lang_ch & Lw).
    apply lang_seq_inv in Lw as (w3 & x3 & -> & ->%lang_lit & Lw).
    apply lang_seq_inv in Lw as (w4 & x4 & -> & ->%lang_ch & Lw). inversion Lw; subst x4.
    apply (has_attr_in "itemprop" (chars "price") a q3.2 tag p.2); [rewrite Ea; done | done | | ];
      apply (bool_decide_eq_false_1 _); vm_compute; reflexivity.
  - apply M_cons in HB as (p6 & c6 & H6 & HB). apply M_cons in HB as (p7 & c7 & H7 & HB).
    apply M_cons in HB as (p8 & c8 & H8 & HB). apply M_cons in HB as (p9 & c9 & H9 & HB).
    inversion HB; subst; clear HB.
    apply M_lang in H6 as (w6 & E6 & ->%lang_lit), H7 as (w7 & E7 & ->%lang_ch).
    assert (c4 !! 1%nat = c8 !! 1%nat) as Hc4 by (apply (M_no_group 1 _ _ _ _ _ H9); done).
    apply M_lang in H9 as (w9 & E9 & ->%lang_ch).
    inversion H8 as [| | | | | | | n r q d q' d' H10 | | |]; subst; clear H8.
    apply M_lang in H10 as (w8 & E8 & L8). cbn in E6. subst sb. rewrite E7, E8, E9 in Eb.
    unfold group. rewrite Hc, Hc4, lookup_insert_eq. cbn [default from_option].
    rewrite E8, length_app. replace (length w8 + length p8.2 - length p8.2)%nat with (length w8) by lia.
    rewrite take_app_length. apply (has_attr_in "content" w8 b q4.2 tag p.2); [exact Eb | done | | by apply number_no_gt].
    apply (bool_decide_eq_false_1 _). vm_compute. reflexivity.
Qed.

(** A price taken from the markup is the content of a price meta tag within the
    window of the price block. *)
Lemma scoped_meta_in html c :
  MercadoLivre.scoped_meta_price html = Ok (Some c) →
  ∃ i number, price_block html i
    ∧ price_meta (slice html i (i + MercadoLivre.BLOCK_TO_META_WINDOW)) number
    ∧ (let? x := float_of_text number in to_cents (JFloat x)) = Ok (Some c).
Proof.
  unfold MercadoLivre.scoped_meta_price. destruct (find_first _ _ _) as [i |] eqn:Ef; [| done].
  destruct (search_in _ _ _ _) as [m |] eqn:Es; [| done]. intros Hc. exists i, (group 1 m).
  split_and!; [by apply find_first_block | | exact Hc].
  apply search_in_M in Es as (sk & bf & mid & p & -> & HM).
  apply PRICE_META_tag in HM as (tag & post & -> & ? & ? & ?). by exists sk, tag, post.
Qed.

(** C19: mercadolivre never prices another listing.  On a page with JSON-LD
    products, an extract is the offer of the product the page is about: it is
    the only product, or the only one that carries the page's canonical id, its
    sku is not another, its offer is in reais, and both prices are that offer's
    price; if no product qualifies the page is refused rather than read from
    its markup.  On a page without, both prices are the amount of a price meta
    tag that starts and ends within the window after the page's first element
    with id price, so neither an installment nor a recommendation elsewhere.
    Otherwise the page is refused. *)
Theorem mercadolivre_canonical_product loads (html : string) :
  match MercadoLivre.extract loads html with
  | Ok x => ∃ ps, MercadoLivre.json_ld_products loads (chars html) = Ok ps ∧
      ((∃ p c, product_of_page (chars html) ps p
        ∧ MercadoLivre.offer_member "priceCurrency" (MercadoLivre.offers_of p) = JStr CURRENCY
        ∧ to_cents (MercadoLivre.offer_member "price" (MercadoLivre.offers_of p)) = Ok (Some c)
        ∧ x = MercadoLivre.both c (MercadoLivre.availability_from_schema_url
                (MercadoLivre.offer_member "availability" (MercadoLivre.offers_of p))))
       ∨ ps = [] ∧ ∃ i number c, price_block (chars html) i
        ∧ price_meta (slice (chars html) i (i + MercadoLivre.BLOCK_TO_META_WINDOW)) number
        ∧ (let? amount := float_of_text number in to_cents (JFloat amount)) = Ok (Some c)
        ∧ x = MercadoLivre.both c (MercadoLivre.availability (chars html)))
  | Raise e => e.(exn_class) = ParseError ∨ Raise e = @float_overflow Extract
      ∨ MercadoLivre.json_ld_products loads (chars html) = Raise e
  end.
Proof.
  unfold MercadoLivre.extract, MercadoLivre.extract_from_json_ld. cbv zeta.
  destruct (MercadoLivre.json_ld_products loads (chars html)) as [ps | e]; cbn [rbind]; [| auto].
  case_bool_decide as Hne; cbn [rbind].
  { destruct (meta_price (chars html)) as (o & Ho & _). rewrite Ho. cbn [rbind].
    destruct o as [c |]; [| by left]. apply scoped_meta_in in Ho as (i & n & ? & ? & ?).
    exists ps. split; [done |]. right. split; [done |]. by exists i, n, c. }
  destruct (MercadoLivre.select_product _ _) as [p |] eqn:Es; [| by left].
  apply select_product_spec in Es as [Hin Hsel].
  match goal with |- context [if ?b then _ else _] => destruct b eqn:Esku end; [by left |].
  destruct (to_cents_total (MercadoLivre.offer_member "price" (MercadoLivre.offers_of p)))
    as [(o & Ho & _) | Ho]; rewrite Ho; [| right; by left].
  cbn [rbind]. destruct o as [c |]; [| by left].
  destruct (MercadoLivre.offer_member "priceCurrency" _) as [| | | | cur | |] eqn:Ecur; try by left.
  case_bool_decide as Hcur; [| by left]. subst cur. cbn [rbind]. exists ps. split; [done |]. left. exists p, c.
  split_and!; [| done | done | done]. unfold product_of_page. split_and!; [done | done |].
  intros sku i H1 H2. rewrite H1, H2 in Esku. apply negb_false_iff, bool_decide_eq_true in Esku. done.
Qed.

Definition ml_page : string :=
  String.concat (String quote "")
    ["<link rel="; "canonical"; " href="; "https://x/p/MLB1"; "><script type="; "application/ld+json"; ">A</script>";
     "<script type="; "application/ld+json"; ">B</script>"].
Definition ml_loads (raw : string) : result json :=
  let offer sku n := JObj [("@type", JStr "Product"); ("sku", JStr sku);
    ("offers", JObj [("price", JInt n); ("priceCurrency", JStr "BRL"); ("availability", JStr "https://schema.org/InStock")])] in
  if bool_decide (raw = "A") then Ok (offer "MLB2" 10)
  else if bool_decide (raw = "B") then Ok (offer "MLB1" 99) else raise JSONDecodeError "Expecting value".

Definition result_or {A} (d : A) (r : result A) : A := match r with Ok x => x | Raise _ => d end.

Lemma mercadolivre_canonical_product_witness :
  ∃ x p c, MercadoLivre.extract ml_loads ml_page = Ok x ∧ MercadoLivre.product_sku p = Some "MLB1"
    ∧ x = MercadoLivre.both c IN_STOCK ∧ c = 9900.
Proof.
  set (ps := result_or [] (MercadoLivre.json_ld_products ml_loads (chars ml_page))).
  assert (MercadoLivre.json_ld_products ml_loads (chars ml_page) = Ok ps) as Hps by (vm_compute; reflexivity).
  assert (MercadoLivre.extract ml_loads ml_page = Ok (MercadoLivre.both 9900 IN_STOCK)) as Hx
    by (vm_compute; reflexivity).
  pose proof (mercadolivre_canonical_product ml_loads ml_page) as H. rewrite Hx in H.
  destruct H as (ps' & Hps' & H). rewrite Hps in Hps'. injection Hps' as <-.
  destruct H as [(p & c & (Hin & _ & Hsku) & _) | [E _]]; [| vm_compute in E; discriminate E].
  exists (MercadoLivre.both 9900 IN_STOCK), p, 9900. split_and!; [done | | done | done].
  destruct (MercadoLivre.product_sku p) as [sku |] eqn:Ep.
  - f_equal. apply (Hsku sku "MLB1" eq_refl). vm_compute. reflexivity.
  - vm_compute in Hin. repeat (apply elem_of_cons in Hin as [-> | Hin]; [vm_compute in Ep; done |]).
    by apply elem_of_nil in Hin.
Defined.

(** A page without JSON-LD: the price block is read, not the meta tag of a
    recommendation before it. *)
Example ml_markup_page :
  MercadoLivre.extract ml_loads
    (String.concat (String quote "")
       ["<meta itemprop="; "price"; " content="; "1"; "><div id="; "price"; "><meta content="; "9433.00";
        " itemprop="; "price"; "></div>"])
  = Ok (MercadoLivre.both 943300 UNKNOWN).
Proof. vm_compute. reflexivity. Qed.
