(* ===== verification/Digest.v ===== *)
(** The daily digest ([kerdoos/digest]): [render.py], [view.py] and
    [templates.py].

    Text is Latin-1, as in [Text]; timestamps are those of [DateTime].  The time
    zone database is an argument, [zone_info]; so is Jinja2's rendering of a
    template file, [render_file]. *)

From S2P Require Import Prelude Domain DateTime Registry Safety Egress Floats Text Parsers Pages.

Definition NEWLINE : ascii := "010".
Definition RETURN : ascii := "013".

(** * Numbers as text *)

(** [str(n)] of a natural number, and Python's separator of thousands. *)
Fixpoint dec (fuel : nat) (n : Z) : list ascii :=
  match fuel with
  | O => []
  | S fuel' => if n <? 10 then [DateTime.digit n] else (dec fuel' (n / 10) ++ [DateTime.digit (n mod 10)])%list
  end.
Definition decimal (n : Z) : list ascii := dec (S (Z.to_nat (Z.log2 n))) n.

Fixpoint commas (digits_r : list ascii) : list ascii :=
  match digits_r with
  | a :: ((b :: (c :: ((_ :: _) as rest))) as _) => a :: b :: c :: ","%char :: commas rest
  | _ => digits_r
  end.
(** [f"{n:,}"]. *)
Definition with_commas (n : Z) : list ascii :=
  let digits := reverse (commas (reverse (decimal (Z.abs n)))) in
  if n <? 0 then "-"%char :: digits else digits.

Definition replace_char (a b : ascii) (s : list ascii) : list ascii :=
  (λ c, if decide (c = a) then b else c) <$> s.

(** * render.py *)

Definition format_cents (cents : option Z) : string :=
  match cents with
  | None => "-"
  | Some cents =>
      let reais := cents / 100 in
      let cent := cents mod 100 in
      let grouped := replace_char "," "." (with_commas reais) in
      of_chars (chars "R$ " ++ grouped ++ ","%char :: pad 2 cent)
  end.

Definition MAX_ERROR_LEN : nat := 160.
Definition UNKNOWN_SOURCE_LABEL : string := "(removed source)".

Definition strip (s : list ascii) : list ascii := reverse (drop_while is_white (reverse (drop_while is_white s))).

(** The line ends, made spaces. *)
Definition flatten (s : list ascii) : list ascii :=
  strip (replace_char NEWLINE " " (replace_char RETURN " " s)).

Definition sanitize_error (error : string) : string :=
  let flat := flatten (chars error) in
  if (MAX_ERROR_LEN <? length flat)%nat
  then of_chars (take (MAX_ERROR_LEN - 3) flat ++ chars "...")
  else of_chars flat.

(** A zone: the wall clock of an instant and the zone's abbreviation. *)
Definition Zone : Type := Z → result (Z * string).
Definition utc : Zone := λ t, Ok (t, "UTC").

(** [strftime("%Y-%m-%d %H:%M %Z")], of years of four digits. *)
Definition stamp_of (wall : Z) (abbreviation : string) : string :=
  match fields wall with
  | y :: m :: d :: hh :: mm :: _ =>
      of_chars (pad 4 y ++ "-"%char :: pad 2 m ++ "-"%char :: pad 2 d ++ " "%char ::
                pad 2 hh ++ ":"%char :: pad 2 mm ++ " "%char :: chars abbreviation)
  | _ => abbreviation
  end.

Definition price_field (record : ScrapeRecord) (label : option string) : string :=
  let pix := format_cents record.(sr_price_pix_cents) in
  let card := format_cents record.(sr_price_card_cents) in
  let regular :=
    if bool_decide (record.(sr_price_pix_cents) = None ∧ record.(sr_price_card_cents) = None)
    then "no price" else "pix=" +:+ pix +:+ " card=" +:+ card in
  if bool_decide (record.(sr_price_pix_member_cents) = None ∧ record.(sr_price_card_member_cents) = None)
  then regular
  else
    let name := match label with Some l => if truthy l then l else "member" | None => "member" end in
    regular +:+ "  " +:+ name +:+ ": pix=" +:+ format_cents record.(sr_price_pix_member_cents)
      +:+ " card=" +:+ format_cents record.(sr_price_card_member_cents).

(** [f"{s:>13}"]. *)
Definition right13 (s : string) : string :=
  of_chars (repeat " "%char (13 - String.length s) ++ chars s).

Definition lines_of (lines : list string) : string :=
  of_chars (join_fields NEWLINE (chars <$> lines)).
Definition DASHES : string := of_chars (repeat "-"%char 60).

Section Render.
Variable zone_info : string → result Zone.

Definition zone_or_utc (tz_name : string) : result Zone :=
  match zone_info tz_name with
  | Ok tz => Ok tz
  | Raise e => if is_a e.(exn_class) (OtherException "ZoneInfoNotFoundError")
                  || is_a e.(exn_class) ValueError
               then Ok utc else Raise e
  end.

Definition scraped_at_label (record_ts generated_at tz_name : string) : result string :=
  let? tz := zone_or_utc tz_name in
  let? ts := parse_ts record_ts in
  let? (wall, abbreviation) := tz ts in
  let stamp := stamp_of wall abbreviation in
  let? now := parse_ts generated_at in
  let age_days := (now - ts) / US_PER_DAY in
  if age_days <? 0 then Ok ("scraped " +:+ stamp +:+ " (clock skew)")
  else if 1 <=? age_days
  then Ok ("scraped " +:+ stamp +:+ " (" +:+ of_chars (decimal age_days) +:+ "d ago)")
  else Ok ("scraped " +:+ stamp).

Section Lines.
Variables (generated_at : string) (tier2_labels source_labels : gmap string string).

(** One turn of the loop over the records: the line it appends. *)
Definition record_line (record : ScrapeRecord) : result string :=
  let detail := price_field record (tier2_labels !! record.(sr_source_id)) in
  let avail := Availability_value record.(sr_availability) in
  let? scraped_at := scraped_at_label record.(sr_ts) generated_at "UTC" in
  let name := default UNKNOWN_SOURCE_LABEL (source_labels !! record.(sr_source_id)) in
  let line := "[" +:+ right13 (ScrapeStatus_value record.(sr_status)) +:+ "] " +:+ name +:+ "  "
                +:+ detail +:+ "  availability=" +:+ avail +:+ "  " +:+ scraped_at in
  Ok (match record.(sr_error) with
      | Some error => if truthy error then line +:+ "  (" +:+ sanitize_error error +:+ ")" else line
      | None => line
      end).

Definition count (status : ScrapeStatus) (counts : ScrapeStatus → Z) : ScrapeStatus → Z :=
  λ s, if decide (s = status) then counts s + 1 else counts s.
Definition counts_of (records : list ScrapeRecord) : ScrapeStatus → Z :=
  foldl (λ counts r, count r.(sr_status) counts) (λ _, 0) records.

Definition summary_of (counts : ScrapeStatus → Z) : string :=
  let one s := ScrapeStatus_value s +:+ "=" +:+ of_chars (decimal (counts s)) in
  one OK +:+ "  " +:+ one INDETERMINATE +:+ "  " +:+ one UNAVAILABLE.

Definition header_of (records : list ScrapeRecord) : list string :=
  ["Kerdoos daily digest"; "generated_at: " +:+ generated_at;
   "sources: " +:+ of_chars (decimal (Z.of_nat (length records))); DASHES].

Definition render_digest (records : list ScrapeRecord) : result string :=
  let? lines := rmap record_line records in
  Ok (lines_of (header_of records ++ lines
                ++ [DASHES; "summary: " +:+ summary_of (counts_of records)])).
End Lines.

(** * view.py *)

Record DigestLineView := {
  source_label_text : string;
  status_label : string;
  price_line : string;
  availability_label : string;
  scraped_at : string;
  line_error : option string;
  href : option string;
}.

Record DigestView := {
  view_job_name : string;
  view_generated_at : string;
  view_lines : list DigestLineView;
}.

Definition safe_href (url : option string) (domain_policy : string → bool) : result (option string) :=
  match url with
  | None => Ok None
  | Some url =>
      if negb (truthy url) then Ok None
      else match check_scheme_and_domain url domain_policy with
           | Ok _ => Ok (Some url)
           | Raise e => if is_a e.(exn_class) SSRFError then Ok None else Raise e
           end
  end.

Section View.
Variables (job : DigestJob) (generated_at : string) (tier2_labels source_urls : gmap string string)
          (domain_policy : string → bool) (source_labels : gmap string string).

Definition line_view (record : ScrapeRecord) : result DigestLineView :=
  let error := match record.(sr_error) with
               | Some e => if truthy e then Some (sanitize_error e) else None
               | None => None
               end in
  let? at_ := scraped_at_label record.(sr_ts) generated_at job.(job_timezone) in
  let? link := safe_href (source_urls !! record.(sr_source_id)) domain_policy in
  Ok {| source_label_text := default UNKNOWN_SOURCE_LABEL (source_labels !! record.(sr_source_id));
        status_label := ScrapeStatus_value record.(sr_status);
        price_line := price_field record (tier2_labels !! record.(sr_source_id));
        availability_label := Availability_value record.(sr_availability);
        scraped_at := at_;
        line_error := error;
        href := link |}.

Definition build_digest_view (records : list ScrapeRecord) : result DigestView :=
  let? lines := rmap line_view records in
  Ok {| view_job_name := job.(job_name); view_generated_at := generated_at; view_lines := lines |}.
End View.
End Render.

(** * templates.py *)

Definition TEMPLATE_FILES : list (string * string) := [("default", "default.html")].

Definition render_digest_html (render_file : string → DigestView → result string)
    (template_id : string) (view : DigestView) : result string :=
  match od_get template_id TEMPLATE_FILES with
  | None => raise ValueError "unknown template_id"
  | Some filename => render_file filename view
  end.

(** * Lemmas *)

Lemma digit_is_digit n : 0 <= n < 10 → is_digit (DateTime.digit n) = true ∧ dec_digit (DateTime.digit n) = Some n.
Proof.
  intros Hn. assert (n ∈ seqZ 0 10) as Hin by (apply elem_of_seqZ; lia). revert n Hn Hin.
  assert (Forall (λ n, is_digit (DateTime.digit n) = true ∧ dec_digit (DateTime.digit n) = Some n) (seqZ 0 10))
    as Hall by (repeat constructor).
  rewrite Forall_forall in Hall. auto.
Qed.

Lemma number_snoc s c : number 10 dec_digit (s ++ [c]) = a ← number 10 dec_digit s; d ← dec_digit c; Some (a * 10 + d).
Proof. unfold number. by rewrite foldl_app. Qed.

(** A number is read back from its decimal text. *)
Lemma dec_number fuel n :
  (0 < fuel)%nat → 0 <= n < 2 ^ Z.of_nat fuel →
  Forall (λ c, is_digit c = true) (dec fuel n) ∧ number 10 dec_digit (dec fuel n) = Some n
  ∧ dec fuel n ≠ [].
Proof.
  revert n. induction fuel as [| fuel IH]; intros n Hf Hn; [lia |]. cbn [dec].
  destruct (Z.ltb_spec n 10) as [Hs | Hb].
  - destruct (digit_is_digit n ltac:(lia)) as [Hd Hv]. split_and!; [by repeat constructor | | done].
    unfold number. cbn [foldl mbind option_bind]. by rewrite Hv.
  - rewrite Nat2Z.inj_succ, Z.pow_succ_r in Hn by lia.
    assert (0 < n / 10) by (apply Z.div_str_pos; lia).
    assert (n / 10 < 2 ^ Z.of_nat fuel) by (apply Z.div_lt_upper_bound; lia).
    destruct fuel as [| fuel]; [cbn in *; lia |].
    destruct (IH (n / 10) ltac:(lia) ltac:(lia)) as (Hd & Hv & Hne).
    pose proof (Z.mod_pos_bound n 10 ltac:(lia)). destruct (digit_is_digit (n mod 10) ltac:(lia)) as [Hd1 Hv1].
    split_and!.
    + apply Forall_app. split; [done | by repeat constructor].
    + rewrite number_snoc, Hv. cbn [mbind option_bind]. rewrite Hv1. cbn [mbind option_bind]. f_equal.
      pose proof (Z.div_mod n 10). lia.
    + by intros [_ ?]%app_eq_nil.
Qed.

Lemma decimal_number n :
  0 <= n → Forall (λ c, is_digit c = true) (decimal n) ∧ number 10 dec_digit (decimal n) = Some n ∧ decimal n ≠ [].
Proof.
  intros Hn. apply dec_number; [lia |]. split; [done |].
  rewrite Nat2Z.inj_succ, Z2Nat.id by apply Z.log2_nonneg.
  destruct (Z.eq_dec n 0) as [-> | ?]; [done |]. by apply Z.log2_spec; lia.
Qed.

Notation digits := (Forall (λ c, is_digit c = true)).
Notation undot := (filter (λ c : ascii, c ≠ "."%char)).

Definition dot_group (g : list ascii) : Prop := ∃ t, g = "."%char :: t ∧ length t = 3%nat ∧ digits t.

Lemma undot_digits s : digits s → undot s = s.
Proof.
  induction 1 as [| c s Hc Hs IH]; [done |]. rewrite filter_cons_True, IH; [done |]. by intros ->.
Qed.

Lemma replace_digits s : digits s → replace_char "," "." s = s.
Proof.
  intros Hs. unfold replace_char. rewrite <- (list_fmap_id s) at 2. apply list_fmap_ext.
  intros i c Hc. rewrite Forall_forall in Hs. rewrite decide_False; [done |]. intros ->.
  by specialize (Hs _ (list_elem_of_lookup_2 _ _ _ Hc)).
Qed.

Lemma digits_reverse s : digits s → digits (reverse s).
Proof. intros H. by rewrite reverse_Permutation. Qed.

(** The thousands of a number, dotted: what an amount is made of. *)
Lemma grouped_shape s :
  digits s → s ≠ [] →
  ∃ hd gs, replace_char "," "." (reverse (commas s)) = (hd ++ concat gs)%list
    ∧ (1 ≤ length hd ≤ 3)%nat ∧ digits hd ∧ Forall dot_group gs
    ∧ undot (hd ++ concat gs) = reverse s.
Proof.
  remember (length s) as n eqn:Hn. revert s Hn. induction (lt_wf n) as [n _ IH]. intros s -> Hs Hne.
  assert (∀ t, s = t → commas t = t → (1 ≤ length t ≤ 3)%nat →
    ∃ hd gs, replace_char "," "." (reverse (commas s)) = (hd ++ concat gs)%list
      ∧ (1 ≤ length hd ≤ 3)%nat ∧ digits hd ∧ Forall dot_group gs
      ∧ undot (hd ++ concat gs) = reverse s) as Hsmall.
  { intros t <- -> Hl. exists (reverse s), []. cbn. pose proof (digits_reverse s Hs).
    rewrite app_nil_r, replace_digits, undot_digits, length_reverse by done. split_and!; try done; lia. }
  destruct s as [| a [| b [| c [| d s]]]]; [done | | | |]; try (eapply Hsmall; [done | done | cbn; lia]).
  clear Hsmall. change (commas (a :: b :: c :: d :: s)) with (a :: b :: c :: ","%char :: commas (d :: s)).
  apply Forall_cons in Hs as [Ha [Hb [Hc Hs]%Forall_cons]%Forall_cons].
  destruct (IH (length (d :: s)) ltac:(cbn; lia) (d :: s) eq_refl Hs ltac:(done)) as (hd & gs & E & Hl & Hd & Hg & Hf).
  set (w := ["."%char; c; b; a]).
  assert (dot_group w) as Hw by (exists [c; b; a]; split_and!; [done | done | by repeat constructor]).
  assert (reverse (a :: b :: c :: ","%char :: commas (d :: s))
          = reverse (commas (d :: s)) ++ [","%char; c; b; a])%list as ->
    by (rewrite !reverse_cons, <- !app_assoc; done).
  exists hd, (gs ++ [w])%list. rewrite concat_app. cbn [concat]. rewrite app_nil_r, app_assoc.
  assert (digits [c; b; a]) as Hcba by (by repeat constructor).
  split_and!; [| lia | lia | done | by apply Forall_app_2; [| constructor] |].
  - unfold replace_char in *. rewrite fmap_app, E, fmap_cons, decide_True by done. unfold w.
    pose proof (replace_digits [c; b; a] Hcba) as E3. unfold replace_char in E3. by rewrite E3.
  - rewrite filter_app, Hf. unfold w. rewrite filter_cons_False, undot_digits by (done || naive_solver).
    rewrite !reverse_cons, <- !app_assoc. done.
Qed.

Lemma pad2 n : pad 2 n = [DateTime.digit (n / 10 mod 10); DateTime.digit (n mod 10)].
Proof. done. Qed.

Lemma digits_pad2 n : 0 <= n < 100 → digits (pad 2 n).
Proof.
  intros Hn. rewrite pad2. pose proof (Z.mod_pos_bound (n / 10) 10 ltac:(lia)).
  pose proof (Z.mod_pos_bound n 10 ltac:(lia)).
  repeat constructor; apply digit_is_digit; lia.
Qed.

Lemma number_cents reais cent :
  0 <= reais → 0 <= cent < 100 →
  number 10 dec_digit (decimal reais ++ pad 2 cent) = Some (reais * 100 + cent).
Proof.
  intros Hr Hc. rewrite pad2. change [?a; ?b] with ([a] ++ [b])%list.
  destruct (decimal_number reais Hr) as (_ & Hn & _).
  pose proof (Z.mod_pos_bound (cent / 10) 10 ltac:(lia)). pose proof (Z.mod_pos_bound cent 10 ltac:(lia)).
  rewrite app_assoc, !number_snoc, Hn. cbn [mbind option_bind].
  rewrite (proj2 (digit_is_digit (cent / 10 mod 10) ltac:(lia))). cbn [mbind option_bind].
  rewrite (proj2 (digit_is_digit (cent mod 10) ltac:(lia))). cbn [mbind option_bind]. f_equal.
  rewrite (Z.mod_small (cent / 10) 10) by (split; [apply Z.div_pos; lia | apply Z.div_lt_upper_bound; lia]).
  pose proof (Z.div_mod cent 10). lia.
Qed.

Lemma in_range x : is_digit x = true → range "0" "9" x = true.
Proof. by rewrite range_digit. Qed.

Lemma amount_lang hd gs b :
  (1 ≤ length hd ≤ 3)%nat → digits hd → Forall dot_group gs → length b = 2%nat → digits b →
  lang AMOUNT_RE ((hd ++ concat gs) ++ ","%char :: b).
Proof.
  intros Hl Hhd Hgs Hb Hbd. destruct hd as [| x hd]; [cbn in Hl; lia |].
  apply Forall_cons in Hhd as [Hx Hhd].
  assert (((x :: hd) ++ concat gs) ++ ","%char :: b = concat [[x]; hd; concat gs; [","%char]; b])%list as ->
    by (cbn; by rewrite app_nil_r, <- app_assoc).
  apply lang_seq_intro. repeat first [apply Forall2_nil_2 | apply Forall2_cons_2].
  - constructor. by apply in_range.
  - apply lang_at_most_intro; [cbn in Hl; lia | eapply Forall_impl; [exact Hhd | exact in_range]].
  - apply lang_star_concat. eapply Forall_impl; [exact Hgs |]. intros g (t & -> & Ht & Htd).
    change ("."%char :: t) with (["."%char] ++ t)%list. constructor; [by constructor |].
    rewrite <- Ht. apply lang_times_intro. eapply Forall_impl; [exact Htd | exact in_range].
  - by constructor.
  - rewrite <- Hb. apply lang_times_intro. eapply Forall_impl; [exact Hbd | exact in_range].
Qed.

(** What [format_cents] prints: an amount the pages' pattern matches, and that
    reads back as the price. *)
Lemma format_cents_amount c :
  1 <= c <= MAX_PRICE_CENTS →
  ∃ a b, format_cents (Some c) = of_chars (chars "R$ " ++ a ++ ","%char :: b)
    ∧ lang AMOUNT_RE (a ++ ","%char :: b) ∧ Forall digit_or_dot a ∧ length b = 2%nat ∧ digits b
    ∧ (∃ x a', a = x :: a' ∧ is_digit x = true)
    ∧ cents_of_brl (a ++ ","%char :: b) = Ok (Some c).
Proof.
  intros Hc. assert (0 <= c / 100) as Hr by (apply Z.div_pos; lia).
  pose proof (Z.mod_pos_bound c 100 ltac:(lia)) as Hm.
  destruct (decimal_number (c / 100) Hr) as (Hd & _ & Hne).
  destruct (grouped_shape (reverse (decimal (c / 100)))) as (hd & gs & E & Hl & Hhd & Hgs & Hu);
    [by apply digits_reverse | by intros ?%(f_equal reverse); rewrite reverse_involutive in * |]. rewrite reverse_involutive in Hu.
  set (a := (hd ++ concat gs)%list) in *. set (b := pad 2 (c mod 100)).
  assert (Forall digit_or_dot a) as Ha.
  { apply Forall_app. split; [eapply Forall_impl; [exact Hhd | by left] |].
    clear - Hgs. induction Hgs as [| g gs (t & -> & _ & Ht) _ IH]; [done |]. cbn.
    constructor; [by right |]. apply Forall_app. split; [eapply Forall_impl; [exact Ht | by left] | done]. }
  assert (digits b) as Hb by (by apply digits_pad2).
  exists a, b. split_and!; [| | done | done | done | |].
  - unfold format_cents, with_commas. rewrite Z.abs_eq, (proj2 (Z.ltb_ge _ _)) by done.
    rewrite E. done.
  - by apply amount_lang.
  - destruct hd as [| x hd]; [cbn in Hl; lia |]. apply Forall_cons in Hhd as [Hx _]. by eexists x, _.
  - unfold cents_of_brl. destruct (brl_to_reais_ok a b Ha Hb ltac:(done)) as (n & _ & En & Ex).
    rewrite Hu in En. unfold b in En. rewrite number_cents in En by done. injection En as <-. rewrite Ex.
    cbn [rbind]. replace (c / 100 * 100 + c mod 100) with c by (pose proof (Z.div_mod c 100); lia).
    by apply to_cents_decimal.
Qed.

Lemma digit_not_white x : is_digit x = true → is_white x = false.
Proof. destruct x as [[] [] [] [] [] [] [] []]; vm_compute; congruence. Qed.

(** An amount of the text R$, a space, [a], a comma and two digits, followed by
    nothing, is that amount. *)
Lemma the_amount a b w :
  Forall digit_or_dot a → (∃ x a', a = x :: a' ∧ is_digit x = true) → length b = 2%nat → digits b →
  lang AMOUNT_RE w → price_in (chars "R$ " ++ a ++ ","%char :: b) w → w = (a ++ ","%char :: b)%list.
Proof.
  intros Ha (x & a' & -> & Hx) Hb Hbd (a1 & b1 & -> & Ha1 & Hb1 & _)%AMOUNT_shape (pre & ws & post & E & Hws).
  assert (∀ l, Forall digit_or_dot l → ","%char ∉ l) as Hno.
  { intros l Hl Hin. rewrite Forall_forall in Hl. by destruct (Hl _ Hin). }
  change (chars "R$ ") with ["R"; "$"; " "]%char in E. change (chars "R$") with ["R"; "$"]%char in E.
  assert (pre = []) as ->.
  { destruct pre as [| p pre]; [done | exfalso]. injection E as <- E.
    assert ("R"%char ∈ (pre ++ ["R"; "$"]%char ++ ws ++ (a1 ++ ","%char :: b1) ++ post)%list) as Hin by set_solver.
    cbn [app] in E, Hin. rewrite <- E in Hin. apply Forall_cons in Ha as [_ Ha].
    rewrite Forall_forall in Ha. rewrite Forall_forall in Hbd.
    do 2 (apply elem_of_cons in Hin as [Hin | Hin]; [done |]).
    apply elem_of_cons in Hin as [Hin | Hin]; [by rewrite <- Hin in Hx |].
    apply elem_of_app in Hin as [Hin | Hin]; [by destruct (Ha _ Hin) |].
    apply elem_of_cons in Hin as [Hin | Hin]; [done | by specialize (Hbd _ Hin)]. }
  injection E as E.
  destruct ws as [| c ws]; cbn [app] in E.
  { exfalso. destruct a1 as [| y a1]; injection E as E0 _; [done |]. subst y.
    apply Forall_cons in Ha1 as [[Hy | Hy] _]; done. }
  injection E as <- E. apply Forall_cons in Hws as [_ Hws].
  destruct ws as [| c ws].
  2: { exfalso. injection E as <- _. apply Forall_cons in Hws as [Hw _]. by rewrite digit_not_white in Hw. }
  rewrite <- app_assoc in E. cbn [app] in E. change (x :: a' ++ ","%char :: b) with ((x :: a') ++ ","%char :: b)%list in E.
  apply sep_split in E as [<- E]; [| by apply Hno | by apply Hno].
  assert (post = []) as ->; [| by rewrite E, app_nil_r].
  apply (f_equal length) in E. rewrite length_app in E. destruct post; [done | cbn in E; lia].
Qed.

Lemma search_PRICE_RE_in text m : search PRICE_RE text = Some m → price_in text (group 1 m) ∧ lang AMOUNT_RE (group 1 m).
Proof.
  intros H. split; [by apply PRICE_RE_in |]. apply search_M in H as (? & ? & ? & ? & _ & HM).
  by apply (M_seq_group [lit "R$"; many white] 1 AMOUNT_RE []) in HM.
Qed.

(** What the digest prints is the price that was read.  The text of a price
    is one the scrapers' own price pattern finds, and reading it back gives the
    same number of cents: grouping the thousands and printing two decimals
    neither loses nor moves a digit, up to one million reais. *)
Theorem printed_price_reads_back (c : Z) :
  1 <= c <= MAX_PRICE_CENTS →
  ∃ m, search PRICE_RE (chars (format_cents (Some c))) = Some m
    ∧ cents_of_brl (group 1 m) = Ok (Some c).
Proof.
  intros Hc. destruct (format_cents_amount c Hc) as (a & b & -> & Hlang & Ha & Hb & Hbd & Hx & Hread).
  rewrite chars_of_chars. set (amount := (a ++ ","%char :: b)%list) in *.
  assert (lang PRICE_RE (chars "R$ " ++ amount)) as Hp.
  { assert (chars "R$ " ++ amount = concat [chars "R$"; [" "%char]; amount])%list as ->
      by (cbn; by rewrite app_nil_r).
    apply lang_seq_intro. repeat first [apply Forall2_nil_2 | apply Forall2_cons_2].
    - apply lang_lit_intro.
    - apply lang_star_intro. by repeat constructor.
    - by constructor. }
  destruct (search_complete PRICE_RE [] _ [] Hp eq_refl) as [m Hm]. cbn [app] in Hm. rewrite app_nil_r in Hm.
  exists m. split; [done |]. apply search_PRICE_RE_in in Hm as [Hin Hl].
  by rewrite (the_amount a b (group 1 m)).
Qed.

Lemma printed_price_reads_back_witness :
  format_cents (Some 155999) = "R$ 1.559,99"
  ∧ ∃ m, search PRICE_RE (chars (format_cents (Some 155999))) = Some m
    ∧ cents_of_brl (group 1 m) = Ok (Some 155999).
Proof. split; [vm_compute; reflexivity |]. apply printed_price_reads_back. unfold MAX_PRICE_CENTS. lia. Defined.

(** * One line per record *)

Definition one_line (s : string) : Prop := NEWLINE ∉ chars s.

#[export] Instance one_line_dec s : Decision (one_line s).
Proof. unfold one_line. apply _. Defined.

(** A literal text is one line. *)
Ltac literal_line := match goal with |- ?P => refine (bool_decide_unpack P _) end; vm_compute; exact I.

Lemma one_line_app a b : one_line (a +:+ b) ↔ one_line a ∧ one_line b.
Proof. unfold one_line. rewrite chars_app, not_elem_of_app. done. Qed.

Lemma one_line_digits s : digits s → one_line (of_chars s).
Proof.
  unfold one_line. rewrite chars_of_chars. intros Hs Hin. rewrite Forall_forall in Hs.
  by specialize (Hs _ Hin).
Qed.

Lemma elem_of_drop_while p s c : c ∈ drop_while p s → c ∈ s.
Proof. induction s as [| x s IH]; cbn; [done |]. destruct (p x); [right; auto | done]. Qed.

Lemma elem_of_strip s c : c ∈ strip s → c ∈ s.
Proof. unfold strip. rewrite elem_of_reverse. intros H%elem_of_drop_while. rewrite elem_of_reverse in H. by apply elem_of_drop_while in H. Qed.

Lemma elem_of_replace a b s c : c ∈ replace_char a b s → (c ∈ s ∧ c ≠ a) ∨ c = b.
Proof.
  unfold replace_char. intros (x & -> & Hx)%list_elem_of_fmap. destruct (decide (x = a)); auto.
Qed.

(** Flattened text has no line end, and what it has comes from the text. *)
Lemma elem_of_flatten s c : c ∈ flatten s → (c ∈ s ∧ c ≠ NEWLINE ∧ c ≠ RETURN) ∨ c = " "%char.
Proof.
  intros H%elem_of_strip. apply elem_of_replace in H as [[H Hn] | ->]; [| by right].
  apply elem_of_replace in H as [[H Hr] | ->]; [by left | by right].
Qed.

Lemma sanitize_error_safe e c :
  c ∈ chars (sanitize_error e) → c ≠ NEWLINE ∧ c ≠ RETURN.
Proof.
  unfold sanitize_error. assert (∀ c, c ∈ flatten (chars e) → c ≠ NEWLINE ∧ c ≠ RETURN) as Hf.
  { intros x [(_ & ? & ?) | ->]%elem_of_flatten; done. }
  destruct (_ <? _)%nat; rewrite chars_of_chars; [| apply Hf].
  intros [H%elem_of_take | H]%elem_of_app; [| set_solver].
  destruct H as (i & H & _). apply Hf. by eapply list_elem_of_lookup_2.
Qed.

Lemma digits_pad w n : digits (pad w n).
Proof.
  revert n. induction w as [| w IH]; intros n; [constructor |]. cbn [pad]. apply Forall_app_2; [apply IH |].
  pose proof (Z.mod_pos_bound n 10 ltac:(lia)). repeat constructor. apply digit_is_digit. lia.
Qed.

Lemma elem_of_commas s c : c ∈ commas s → c ∈ s ∨ c = ","%char.
Proof.
  remember (length s) as n eqn:Hn. revert s Hn. induction (lt_wf n) as [n _ IH]. intros s ->.
  destruct s as [| x [| y [| z [| w s]]]]; try (by left).
  change (commas (x :: y :: z :: w :: s)) with (x :: y :: z :: ","%char :: commas (w :: s)).
  specialize (IH (length (w :: s)) ltac:(cbn; lia) (w :: s) eq_refl).
  intros H. repeat (apply elem_of_cons in H as [-> | H]; [set_solver |]). set_solver.
Qed.

Lemma one_line_decimal n : 0 <= n → one_line (of_chars (decimal n)).
Proof. intros Hn. by apply one_line_digits, decimal_number. Qed.

Lemma format_cents_one_line o : one_line (format_cents o).
Proof.
  destruct o as [c |]; [| unfold one_line; set_solver]. unfold format_cents, one_line. rewrite chars_of_chars.
  assert (∀ n, NEWLINE ∉ with_commas n) as Hw.
  { intros n. assert (NEWLINE ∉ reverse (commas (reverse (decimal (Z.abs n))))) as Hd.
    { rewrite elem_of_reverse. intros [H | H]%elem_of_commas; [| done]. rewrite elem_of_reverse in H.
      apply (one_line_decimal (Z.abs n) (Z.abs_nonneg n)). by rewrite chars_of_chars. }
    unfold with_commas. destruct (n <? 0); [by intros [? | ?]%elem_of_cons | done]. }
  rewrite !not_elem_of_app, not_elem_of_cons. split_and!; [set_solver | | done |].
  - intros [[H _] | ?]%elem_of_replace; [by apply Hw in H | done].
  - pose proof (one_line_digits _ (digits_pad 2 (c mod 100))) as H. unfold one_line in H.
    by rewrite chars_of_chars in H.
Qed.

Lemma price_field_one_line r label :
  (∀ l, label = Some l → one_line l) → one_line (price_field r label).
Proof.
  intros Hl. unfold price_field. assert (one_line "no price" ∧ one_line "pix=" ∧ one_line " card=" ∧ one_line "  " ∧ one_line ": pix=" ∧ one_line "member")
    as (? & ? & ? & ? & ? & ?) by (split_and!; literal_line).
  pose proof format_cents_one_line as Hf.
  assert (one_line (match label with Some l => if truthy l then l else "member" | None => "member" end)) as Hn
    by (destruct label as [l |]; [destruct (truthy l); auto | done]).
  repeat case_bool_decide; rewrite ?one_line_app; repeat split; auto.
Qed.

Lemma stamp_of_one_line w abbr : one_line abbr → one_line (stamp_of w abbr).
Proof.
  intros Ha. unfold stamp_of. destruct (DateTime.fields w) as [| y [| m [| d [| hh [| mm fs]]]]]; try done.
  unfold one_line. rewrite chars_of_chars.
  assert (∀ k n, NEWLINE ∉ pad k n) as Hp.
  { intros k n Hin. pose proof (digits_pad k n) as H. rewrite Forall_forall in H. by specialize (H _ Hin). }
  rewrite !not_elem_of_app, !not_elem_of_cons, !not_elem_of_app, !not_elem_of_cons, !not_elem_of_app,
    !not_elem_of_cons, !not_elem_of_app, !not_elem_of_cons, !not_elem_of_app, !not_elem_of_cons.
  split_and!; auto.
Qed.

(** The abbreviations of a zone are one word. *)
Definition zone_named (z : Zone) : Prop := ∀ t w abbr, z t = Ok (w, abbr) → one_line abbr.
Definition zones_named (zone_info : string → result Zone) : Prop :=
  ∀ name z, zone_info name = Ok z → zone_named z.

Section OneLine.
Context (zone_info : string → result Zone) (Hzones : zones_named zone_info).

Lemma scraped_at_one_line ts now tz label :
  scraped_at_label zone_info ts now tz = Ok label → one_line label.
Proof using Hzones.
  unfold scraped_at_label. destruct (zone_or_utc zone_info tz) as [z |] eqn:Ez; [| done]. cbn [rbind].
  assert (zone_named z) as Hz.
  { unfold zone_or_utc in Ez. destruct (zone_info tz) as [z' |] eqn:E; [injection Ez as <-; by eapply Hzones |].
    destruct (_ || _); [| done]. injection Ez as <-. intros t w a [= <- <-]. literal_line. }
  destruct (parse_ts ts) as [t |]; [| done]. cbn [rbind].
  destruct (z t) as [[w abbr] |] eqn:E; [| done]. cbn [rbind].
  destruct (parse_ts now) as [n |]; [| done]. cbn [rbind].
  pose proof (stamp_of_one_line w abbr (Hz _ _ _ E)) as Hs.
  assert (one_line "scraped " ∧ one_line " (clock skew)" ∧ one_line " (" ∧ one_line "d ago)") as (? & ? & ? & ?)
    by (split_and!; literal_line).
  destruct (_ <? 0); [| destruct (Z.leb_spec 1 ((n - t) / US_PER_DAY))]; intros [= <-];
    rewrite ?one_line_app; repeat split; auto. apply one_line_decimal. lia.
Qed.

Lemma record_line_one_line generated_at tier2 names r line :
  (∀ k l, tier2 !! k = Some l → one_line l) → (∀ k l, names !! k = Some l → one_line l) →
  record_line zone_info generated_at tier2 names r = Ok line → one_line line.
Proof using Hzones.
  intros Ht Hn. unfold record_line.
  destruct (scraped_at_label _ _ _ _) as [at_ |] eqn:Ea; [| done]. apply scraped_at_one_line in Ea.
  cbn [rbind]. cbv zeta.
  assert (one_line (default UNKNOWN_SOURCE_LABEL (names !! sr_source_id r))) as Hname.
  { destruct (names !! sr_source_id r) as [l |] eqn:E; [by eapply Hn | literal_line]. }
  pose proof (price_field_one_line r (tier2 !! sr_source_id r) (Ht (sr_source_id r))) as Hp.
  assert (one_line (right13 (ScrapeStatus_value (sr_status r)))) as Hs
    by (destruct (sr_status r); literal_line).
  assert (one_line (Availability_value (sr_availability r))) as Hv
    by (destruct (sr_availability r); literal_line).
  assert (one_line "[" ∧ one_line "] " ∧ one_line "  " ∧ one_line "  availability=" ∧ one_line "  (" ∧ one_line ")")
    as (? & ? & ? & ? & ? & ?) by (split_and!; literal_line).
  intros [= <-]. destruct (sr_error r) as [e |]; [destruct (truthy e) |];
    rewrite ?one_line_app; repeat split; auto.
  intros Hin. by apply sanitize_error_safe in Hin as [? _].
Qed.
End OneLine.

Lemma string_length_chars s : String.length s = length (chars s).
Proof. induction s as [| c s IH]; [done |]. cbn. by rewrite IH. Qed.

Lemma sanitize_error_length e : (String.length (sanitize_error e) ≤ MAX_ERROR_LEN)%nat.
Proof.
  rewrite string_length_chars. unfold sanitize_error.
  destruct (Nat.ltb_spec MAX_ERROR_LEN (length (flatten (chars e)))); rewrite chars_of_chars; [| done].
  rewrite length_app, length_take. change (length (chars "...")) with 3%nat. unfold MAX_ERROR_LEN in *. lia.
Qed.

Lemma counts_of_spec l s : counts_of l s = Z.of_nat (length (filter (λ r, r.(sr_status) = s) l)).
Proof.
  unfold counts_of. assert (∀ c : ScrapeStatus → Z,
    foldl (λ counts r, count r.(sr_status) counts) c l s
    = c s + Z.of_nat (length (filter (λ r, r.(sr_status) = s) l))) as ->; [| lia].
  induction l as [| r l IH]; intros c; cbn [foldl]; [cbn; lia |]. rewrite IH. unfold count.
  rewrite filter_cons. repeat case_decide; cbn [length]; try congruence; lia.
Qed.

(** one digest, one line per record.  When the labels are single lines, the
    digest's lines are its header of four, one line per record in order, and
    the summary of two: a scraped error text, whatever a page put in it, never
    adds a line, and is cut at 160 characters; the three counts of the summary
    are the numbers of records with each verdict, and add up to the records. *)
Theorem digest_lines zone_info generated_at tier2 names records out :
  zones_named zone_info → one_line generated_at →
  (∀ k l, tier2 !! k = Some l → one_line l) → (∀ k l, names !! k = Some l → one_line l) →
  render_digest zone_info generated_at tier2 names records = Ok out →
  ∃ lines,
    Forall2 (λ r line, record_line zone_info generated_at tier2 names r = Ok line) records lines
    ∧ fields_of NEWLINE (chars out)
      = chars <$> (header_of generated_at records ++ lines
                   ++ [DASHES; "summary: " +:+ summary_of (counts_of records)])%list
    ∧ counts_of records OK + counts_of records INDETERMINATE + counts_of records UNAVAILABLE
      = Z.of_nat (length records)
    ∧ ∀ e, (String.length (sanitize_error e) ≤ MAX_ERROR_LEN)%nat.
Proof.
  intros Hz Hg Ht Hn. unfold render_digest. destruct (rmap _ records) as [lines |] eqn:El; [| done].
  intros [= <-]. apply rmap_Forall2 in El. exists lines. split_and!; [done | | |].
  - unfold lines_of. rewrite chars_of_chars. apply fields_of_join; [done |].
    apply Forall_forall. intros f Hf. apply list_elem_of_fmap in Hf as (s & -> & Hs).
    apply elem_of_app in Hs as [Hs | [Hs | Hs]%elem_of_app].
    + unfold header_of in Hs. rewrite !elem_of_cons, elem_of_nil in Hs.
      destruct Hs as [-> | [-> | [-> | [-> | []]]]]; [literal_line | | | literal_line].
      * apply one_line_app. split; [literal_line | done].
      * apply one_line_app. split; [literal_line | apply one_line_decimal; lia].
    + apply list_elem_of_lookup in Hs as [i Hi]. destruct (Forall2_lookup_r _ _ _ _ _ El Hi) as (r & _ & Hr).
      exact (record_line_one_line zone_info Hz _ _ _ _ _ Ht Hn Hr).
    + rewrite !elem_of_cons, elem_of_nil in Hs. destruct Hs as [-> | [-> | []]]; [literal_line |].
      apply one_line_app. split; [literal_line |]. unfold summary_of. cbv zeta.
      rewrite !one_line_app, !counts_of_spec. repeat split; first [literal_line | apply one_line_decimal; lia].
  - rewrite !counts_of_spec. clear. induction records as [| r l IH]; [done |]. rewrite !filter_cons.
    destruct (sr_status r); repeat case_decide; cbn [length] in *; try done; lia.
  - apply sanitize_error_length.
Qed.

(** ** The HTML view *)

(** the links of a digest are on policy.  The view has one line per record,
    in order, with the record's verdict and the printed prices; a line links to
    a url only if it is the one registered for its source and its scheme and
    host pass the domain policy; and no error text has a line end. *)
Theorem digest_view_links zone_info job generated_at tier2 urls policy names records view :
  build_digest_view zone_info job generated_at tier2 urls policy names records = Ok view →
  Forall2 (λ r line,
      line.(status_label) = ScrapeStatus_value r.(sr_status)
      ∧ line.(price_line) = price_field r (tier2 !! r.(sr_source_id))
      ∧ (∀ url, line.(href) = Some url →
           urls !! r.(sr_source_id) = Some url ∧ is_ok (check_scheme_and_domain url policy) = true)
      ∧ (∀ e c, line.(line_error) = Some e → c ∈ chars e → c ≠ NEWLINE ∧ c ≠ RETURN))
    records view.(view_lines).
Proof.
  unfold build_digest_view. destruct (rmap _ records) as [lines |] eqn:El; [| done]. intros [= <-]. cbn.
  apply rmap_Forall2 in El. eapply Forall2_impl; [exact El |]. clear. intros r line. unfold line_view. cbv zeta.
  destruct (scraped_at_label _ _ _ _) as [at_ |]; [| done]. cbn [rbind].
  destruct (safe_href _ _) as [link |] eqn:Eh; [| done]. cbn [rbind]. intros [= <-]. cbn.
  split_and!; [done | done | |].
  - intros url ->. unfold safe_href in Eh. destruct (urls !! sr_source_id r) as [u |]; [| done].
    destruct (negb (truthy u)); [done |].
    destruct (check_scheme_and_domain u policy) as [sh | e] eqn:Ec; [| by destruct (is_a _ _)].
    injection Eh as ->. by rewrite Ec.
  - intros e c He Hc. destruct (sr_error r) as [e' |]; [| done]. destruct (truthy e'); [| done].
    injection He as <-. by apply sanitize_error_safe in Hc.
Qed.

Lemma template_ids_agree id :
  is_ok (validate_template_id id) = bool_decide (is_Some (od_get id TEMPLATE_FILES)).
Proof.
  unfold validate_template_id, VALID_TEMPLATE_IDS, TEMPLATE_FILES. cbn [od_get].
  destruct (decide (id = "default")) as [-> | Hne]; [done |].
  rewrite (bool_decide_eq_false_2 (id ∈ ["default"])) by set_solver.
  by rewrite bool_decide_eq_false_2.
Qed.

(** ** Examples *)

Module DigestDemo.
Definition zones (name : string) : result Zone :=
  if bool_decide (name = "UTC") then Ok utc else raise (OtherException "ZoneInfoNotFoundError") name.

Lemma zones_ok : zones_named zones.
Proof.
  intros name z. unfold zones. case_bool_decide; [| done]. intros [= <-] t w abbr [= <- <-]. literal_line.
Qed.

Definition bad : ScrapeRecord :=
  {| sr_source_id := "p@s#1"; sr_ts := "2026-03-07T12:00:00+00:00"; sr_status := INDETERMINATE;
     sr_price_pix_cents := Some 155999; sr_price_card_cents := None; sr_currency := Some "BRL";
     sr_availability := UNKNOWN; sr_method := None;
     sr_error := Some ("boom" +:+ String NEWLINE "[           ok] forged line");
     sr_price_pix_member_cents := None; sr_price_card_member_cents := Some 750; sr_raw_ref := None |}.

Definition now : string := "2026-03-08T12:34:56+00:00".
Definition names : gmap string string := {[ "p@s#1" := "Mouse -- shop" ]}.
Definition job : DigestJob :=
  {| job_id := "j"; job_owner_id := "o"; job_name := "daily"; job_frequency_kind := "daily";
     schedule_cron := "0 9 * * *"; job_timezone := "Nowhere/None"; job_template_id := "default";
     job_options := default_options; job_enabled := true; job_created_at := None; job_source_ids := [] |}.
End DigestDemo.

Example digest_of_one :
  render_digest DigestDemo.zones DigestDemo.now ∅ DigestDemo.names [DigestDemo.bad] =
  Ok (lines_of
    ["Kerdoos daily digest"; "generated_at: 2026-03-08T12:34:56+00:00"; "sources: 1"; DASHES;
     "[indeterminate] Mouse -- shop  pix=R$ 1.559,99 card=-  member: pix=- card=R$ 7,50  availability=UNKNOWN  scraped 2026-03-07 12:00 UTC (1d ago)  (boom [           ok] forged line)";
     DASHES; "summary: ok=0  indeterminate=1  unavailable=0"]).
Proof. vm_compute. reflexivity. Qed.

Lemma digest_lines_witness :
  ∃ out (lines : list string),
    render_digest DigestDemo.zones DigestDemo.now ∅ DigestDemo.names [DigestDemo.bad] = Ok out
    ∧ length lines = 1%nat ∧ length (fields_of NEWLINE (chars out)) = 7%nat.
Proof.
  destruct (render_digest DigestDemo.zones DigestDemo.now ∅ DigestDemo.names [DigestDemo.bad]) as [out |] eqn:E;
    [| vm_compute in E; discriminate].
  assert (∀ k l, DigestDemo.names !! k = Some l → one_line l) as Hn.
  { intros k l. unfold DigestDemo.names. intros [_ <-]%lookup_singleton_Some. literal_line. }
  destruct (digest_lines DigestDemo.zones DigestDemo.now ∅ DigestDemo.names [DigestDemo.bad] out
    DigestDemo.zones_ok ltac:(literal_line) ltac:(by intros k l ?%lookup_empty_Some) Hn E)
    as (lines & Hl & Hf & _ & _).
  exists out, lines. pose proof (Forall2_length _ _ _ Hl) as Hlen. split_and!; [done | by rewrite <- Hlen |].
  rewrite Hf, length_fmap, !length_app, <- Hlen. done.
Defined.

(** A url with an unclosed bracket raises a bare ValueError, which
    [except SSRFError] does not catch: the whole digest is lost, not the link. *)
Example bad_href_aborts_the_digest :
  build_digest_view DigestDemo.zones DigestDemo.job DigestDemo.now ∅ {[ "p@s#1" := "http://[" ]}
    (λ _, true) ∅ [DigestDemo.bad] = raise ValueError "Invalid IPv6 URL".
Proof. vm_compute. reflexivity. Qed.

Lemma digest_view_links_witness :
  ∃ view line,
    build_digest_view DigestDemo.zones DigestDemo.job DigestDemo.now ∅ {[ "p@s#1" := "https://shop.example/p" ]}
      (λ h, bool_decide (h = "shop.example")) DigestDemo.names [DigestDemo.bad] = Ok view
    ∧ view.(view_lines) = [line] ∧ line.(href) = Some "https://shop.example/p"
    ∧ line.(price_line) = "pix=R$ 1.559,99 card=-  member: pix=- card=R$ 7,50".
Proof.
  destruct (build_digest_view _ _ _ _ _ _ _ _) as [view |] eqn:E; [| vm_compute in E; discriminate].
  pose proof (digest_view_links _ _ _ _ _ _ _ _ _ E) as H. vm_compute in E. injection E as <-.
  eexists _, _. split_and!; [done | done | done |]. cbn [view_lines] in H.
  apply Forall2_cons_1 in H as [(_ & -> & _) _]. vm_compute. reflexivity.
Defined.
