(* ===== verification/Smtp.v ===== *)
(** Sending the digest ([kerdoos/digest]): [smtp_sender.py], [sender.py] and
    [factory.py].

    The relay, the clock and the standard library's SMTP client are the type
    class [Relay]: what each call answers after a given history of calls.  The
    sender's state is that history, so a theorem about what is sent, and when,
    is a theorem about the trace it leaves.  Durations are whole microseconds;
    the rounding of floats is not modelled. *)

From S2P Require Import Prelude Domain DateTime Registry Safety Egress Floats Text Parsers Pages Digest Seconds.

(** * Exceptions *)

(** What the two classifiers can tell apart: [ssl.SSLError], the classes of
    [smtplib] with the reply code or the refused recipients' codes, and every
    other exception. *)
Inductive failure :=
| SSLError
| SMTPConnectError (code : Z)
| SMTPServerDisconnected
| SMTPRecipientsRefused (codes : list Z)
| SMTPResponseException (code : Z)   (* or its other subclasses *)
| SMTPException                      (* SMTPNotSupportedError among them *)
| PyError (e : exn).

Definition is_SMTPException (f : failure) : bool :=
  match f with SSLError | PyError _ => false | _ => true end.
(** [isinstance(exc, OSError)]: SSLError and SMTPException are subclasses. *)
Definition is_OSError (f : failure) : bool :=
  match f with PyError e => is_a e.(exn_class) OSError | _ => true end.

Definition is_retryable_connect_failure (f : failure) : bool :=
  match f with
  | SSLError => false
  | SMTPConnectError _ | SMTPServerDisconnected => true
  | _ => if is_SMTPException f then false else is_OSError f
  end.

Definition is_4xx (code : Z) : bool := (400 <=? code) && (code <? 500).

Definition is_retryable_send_failure (f : failure) : bool :=
  match f with
  | SMTPRecipientsRefused codes => forallb is_4xx codes
  | SMTPConnectError code | SMTPResponseException code => is_4xx code
  | _ => false
  end.

(** * Settings, messages, traces *)

Record SmtpSettings := {
  smtp_host : string;
  smtp_port : Z;
  from_addr : string;
  username : option string;
  password : option string;
  use_tls : bool;
  timeout : Z;
  retry_attempts : Z;
  retry_backoff : secs;
  send_deadline : Z;
}.

Record EmailMessage := {
  subject : string;
  from_ : string;
  to_ : string;
  text_body : string;
  html_body : string;
}.

(** The calls, each with its answer.  [ESend]'s right answer is the dictionary
    of the recipients refused; [EQuit]'s left one is a reply code. *)
Inductive event :=
| EConnect (r : option failure)
| EStarttls (r : option failure)
| ELogin (user secret : string) (r : option failure)
| ESend (m : EmailMessage) (r : failure + list string)
| EQuit (r : Z + failure)
| ETime (t : Z)
| ESleep (d : secs).

Notation history := (list event).

Class Relay := {
  connect : history → string → Z → Z → option failure;
  starttls : history → option failure;
  login : history → string → string → option failure;
  send_message : history → EmailMessage → failure + list string;
  quit : history → Z + failure;
  monotonic : history → Z;
}.

(** How one transaction ends: [_RetryableSmtpFailure] carries the original. *)
Inductive outcome := Done | Retryable (f : failure) | Propagates (f : failure).

Definition unsafe_recipient : failure := PyError (Exn UnsafeRecipientError "unsafe recipient").

Definition classify (retryable : failure → bool) (f : failure) : outcome :=
  if retryable f then Retryable f else Propagates f.

Section Sender.
Context `{Relay}.

(** ** [_send_smtp_once] *)

(** The first [try]: STARTTLS, then the login. *)
Definition secure (smtp : SmtpSettings) (h : history) : option failure * history :=
  let '(r, h) := if smtp.(use_tls) then let r := starttls h in (r, h ++ [EStarttls r])%list
                 else (None, h) in
  match r with
  | Some f => (Some f, h)
  | None =>
      match smtp.(username), smtp.(password) with
      | Some u, Some p =>
          if truthy u && truthy p
          then let r := login h u p in (r, h ++ [ELogin u p r])%list
          else (None, h)
      | _, _ => (None, h)
      end
  end.

Definition in_session (smtp : SmtpSettings) (message : EmailMessage) (h : history) : outcome * history :=
  let '(r, h) := secure smtp h in
  match r with
  | Some f => (classify is_retryable_connect_failure f, h)
  | None =>
      let r := send_message h message in
      let h := (h ++ [ESend message r])%list in
      match r with
      | inl f => (classify is_retryable_send_failure f, h)
      | inr refused => (if bool_decide (refused = []) then Done else Propagates unsafe_recipient, h)
      end
  end.

(** [smtplib.SMTP.__exit__]: QUIT; a lost connection is ignored, any reply but
    221 raises, whatever the body did. *)
Definition exit_session (body : outcome) (h : history) : outcome * history :=
  let r := quit h in
  let h := (h ++ [EQuit r])%list in
  (match r with
   | inl code => if code =? 221 then body else Propagates (SMTPResponseException code)
   | inr SMTPServerDisconnected => body
   | inr f => Propagates f
   end, h).

Definition send_smtp_once (smtp : SmtpSettings) (message : EmailMessage) (h : history)
    : outcome * history :=
  let r := connect h smtp.(smtp_host) smtp.(smtp_port) smtp.(timeout) in
  let h := (h ++ [EConnect r])%list in
  match r with
  | Some f => (classify is_retryable_connect_failure f, h)
  | None => let '(body, h) := in_session smtp message h in exit_session body h
  end.

(** ** The retry loop of [send] *)

Definition MAX_OPS_PER_ATTEMPT : Z := 8.

(** [left] is [attempts_left] after the decrement, at most 0 being [O]. *)
Fixpoint attempts (smtp : SmtpSettings) (message : EmailMessage) (deadline budget : Z) (left : nat)
    (h : history) : (failure + bool) * history :=
  let '(r, h) := send_smtp_once smtp message h in
  match r with
  | Done => (inr true, h)
  | Propagates f => (inl f, h)
  | Retryable original =>
      match left with
      | O => (inl original, h)
      | S left' =>
          let t := monotonic h in
          let h := (h ++ [ETime t])%list in
          let remaining := deadline - t in
          if remaining <? budget then (inl original, h)
          else
            let backoff := smin smtp.(retry_backoff) (Secs (remaining - budget)) in
            let h := if slt (Secs 0) backoff then (h ++ [ESleep backoff])%list else h in
            let t' := monotonic h in
            let h := (h ++ [ETime t'])%list in
            if deadline - t' <? budget then (inl original, h)
            else attempts smtp message deadline budget left' h
      end
  end.

Definition send_with_retry (smtp : SmtpSettings) (message : EmailMessage) (h : history)
    : (failure + bool) * history :=
  let t := monotonic h in
  let deadline := t + smtp.(send_deadline) in
  let budget := smtp.(timeout) * MAX_OPS_PER_ATTEMPT in
  attempts smtp message deadline budget (Z.to_nat smtp.(retry_attempts)) (h ++ [ETime t])%list.
End Sender.

(** ** What is sent *)

Definition clean_header (value : string) : string := of_chars (flatten (chars value)).
Definition clean_header_block (body : string) : string :=
  of_chars (filter (λ c, c ≠ RETURN) (chars body)).

Definition alpha (c : ascii) : bool := range "A" "Z" c || range "a" "z" c.
Definition label_char (c : ascii) : bool := alpha c || range "0" "9" c || bool_decide (c = "-"%char).

(** [_VALID_DOMAIN_RE], between the anchors. *)
Definition VALID_DOMAIN_RE : re :=
  Seq (many1 (Seq (many1 (Chr label_char)) (ch ".")))
      (Alt (Seq (Chr alpha) (many (Chr label_char)))
           (Seq (lit "xn--") (many1 (Chr label_char)))).

(** [to_addr.rsplit("@", 1)[-1]]. *)
Definition domain_of (to_addr : string) : list ascii :=
  let '(last_r, _, _) := partition "@"%char (reverse (chars to_addr)) in reverse last_r.

Definition valid_domain (domain : list ascii) : bool := fullmatch VALID_DOMAIN_RE domain.

Section Send.
Context `{Relay}.
Variables (load : string → result Registry) (domain_policy : string → bool)
          (email_lookup : string → result (option string)) (smtp : SmtpSettings)
          (zone_info : string → result Zone) (render_file : string → DigestView → result string).

(** The urls by source id, the last one of a repeated id. *)
Definition source_urls_of (registry : Registry) : result (gmap string string) :=
  match iter_sources registry with
  | (items, None) => Ok (foldl (λ m pss, <[pss.1.2.(source_id) := pss.1.2.(source_url)]> m) ∅ items)
  | (_, Some e) => Raise e
  end.

(** The rendering part of [send]: from the registry to the message. *)
Definition build_message (job : DigestJob) (records : list ScrapeRecord) (generated_at : string)
    (tier2_labels : gmap string string) (to_addr : string) : result EmailMessage :=
  let? registry := load job.(job_owner_id) in
  let? source_urls := source_urls_of registry in
  let labels := source_labels registry in
  let? view := build_digest_view zone_info job generated_at tier2_labels source_urls domain_policy
                 labels records in
  let? html_body := render_digest_html render_file job.(job_template_id) view in
  let? body := render_digest zone_info generated_at tier2_labels labels records in
  Ok {| subject := clean_header ("Kerdoos digest: " +:+ job.(job_name));
        from_ := clean_header smtp.(from_addr);
        to_ := clean_header to_addr;
        text_body := clean_header_block body;
        html_body := html_body |}.

(** The refusals before any connection; [None] is the answer False. *)
Definition check_recipient (to_addr : option string) : result (option string) :=
  match to_addr with
  | None => Ok None
  | Some addr =>
      if negb (truthy addr) then Ok None
      else if bool_decide (","%char ∈ chars addr)
      then raise UnsafeRecipientError "expects exactly one recipient"
      else if negb (valid_domain (domain_of addr))
      then raise UnsafeRecipientError "refuses a non-domain-label recipient host"
      else Ok (Some addr)
  end.

(** [SmtpDigestSender.send]. *)
Definition send (job : DigestJob) (records : list ScrapeRecord) (generated_at : string)
    (tier2_labels : gmap string string) (h : history) : (failure + bool) * history :=
  match (let? to_addr := email_lookup job.(job_owner_id) in check_recipient to_addr) with
  | Raise e => (inl (PyError e), h)
  | Ok None => (inr false, h)
  | Ok (Some to_addr) =>
      match build_message job records generated_at tier2_labels to_addr with
      | Raise e => (inl (PyError e), h)
      | Ok message => send_with_retry smtp message h
      end
  end.

(** [LogDigestSender.send]: the text it logs. *)
Definition log_send (job : DigestJob) (records : list ScrapeRecord) (generated_at : string)
    (tier2_labels : gmap string string) : result (bool * string) :=
  let? registry := load job.(job_owner_id) in
  let? body := render_digest zone_info generated_at tier2_labels (source_labels registry) records in
  Ok (true, body).
End Send.

(** * factory.py *)

(** [0 < t < bound]; every comparison with NaN is false. *)
Definition strictly_between (t : secs) (bound : Z) : bool :=
  match t with Secs us => (0 <? us) && (us <? bound) | SInf _ | SNan => false end.

(** [_safe_smtp_timeout], in microseconds. *)
Definition safe_smtp_timeout (smtp_timeout : secs) (reaper_timeout : Z) : Z :=
  let reaper := reaper_timeout * SECOND in
  match smtp_timeout with
  | Secs us => if strictly_between smtp_timeout reaper then us else Z.max 100000 (reaper / 2)
  | _ => Z.max 100000 (reaper / 2)
  end.

Definition retry_budget_too_thin (smtp_timeout reaper_timeout : Z) : bool :=
  reaper_timeout * SECOND - smtp_timeout <? 9 * smtp_timeout.

(** The settings [build_sender] reads. *)
Record MailSettings := {
  m_host : option string;
  m_port : Z;
  m_from : option string;
  m_username : option string;
  m_password : option string;
  m_use_tls : bool;
  m_timeout : secs;
  m_retry_attempts : Z;
  m_retry_backoff : secs;
  m_reaper_timeout : Z;
}.

Inductive DigestSender := LogSender | SmtpSender (smtp : SmtpSettings).

Definition build_sender (settings : MailSettings) : DigestSender :=
  match settings.(m_host), settings.(m_from) with
  | Some host, Some from =>
      if negb (truthy host) then LogSender
      else if negb (truthy from) then LogSender
      else
        let timeout := safe_smtp_timeout settings.(m_timeout) settings.(m_reaper_timeout) in
        SmtpSender
          {| smtp_host := host; smtp_port := settings.(m_port); from_addr := from;
             username := settings.(m_username); password := settings.(m_password);
             use_tls := settings.(m_use_tls); timeout := timeout;
             retry_attempts := settings.(m_retry_attempts);
             retry_backoff := settings.(m_retry_backoff);
             send_deadline := Z.max 100000 (settings.(m_reaper_timeout) * SECOND - timeout) |}
  | _, _ => LogSender
  end.

(** * Traces *)

Definition is_connect (e : event) : bool := match e with EConnect _ => true | _ => false end.
Definition is_send (e : event) : bool := match e with ESend _ _ => true | _ => false end.
(** What must not cross the wire in the clear. *)
Definition is_sensitive (e : event) : bool :=
  match e with ELogin _ _ _ | ESend _ _ => true | _ => false end.

Definition connects (evs : list event) : nat := length (filter (λ e, is_connect e = true) evs).

(** The relay said that nothing was delivered: a 4xx reply. *)
Definition says_not_delivered (r : failure + list string) : Prop :=
  match r with
  | inl (SMTPRecipientsRefused codes) => Forall (λ c, 400 <= c < 500) codes
  | inl (SMTPConnectError c) | inl (SMTPResponseException c) => 400 <= c < 500
  | _ => False
  end.

Lemma is_4xx_spec c : is_4xx c = true ↔ 400 <= c < 500.
Proof. unfold is_4xx. rewrite andb_true_iff, Z.leb_le, Z.ltb_lt. done. Qed.

Lemma retryable_send_spec f : is_retryable_send_failure f = true ↔ says_not_delivered (inl f).
Proof.
  destruct f; cbn; try done; try apply is_4xx_spec.
  rewrite <- Is_true_true, forallb_True. cbn. split; intros Hf; (eapply Forall_impl; [exact Hf |]);
    intros c; by rewrite Is_true_true, is_4xx_spec.
Qed.

Lemma classify_cases p f o : classify p f = o → (o = Retryable f ∧ p f = true) ∨ (o = Propagates f ∧ p f = false).
Proof. unfold classify. destruct (p f); intros <-; auto. Qed.

(** What one transaction leaves in the trace. *)
Record session_ok (smtp : SmtpSettings) (message : EmailMessage) (evs : list event) (o : outcome) : Prop := {
  ses_connect : connects evs = 1%nat;
  ses_first : ∃ r rest, evs = EConnect r :: rest;
  ses_sends : ∀ m r, ESend m r ∈ evs → m = message;
  ses_one_send : (length (filter (λ e, is_send e = true) evs) ≤ 1)%nat;
  ses_final : ∀ m r f, ESend m r ∈ evs → o = Retryable f → says_not_delivered r;
  ses_tls : smtp.(use_tls) = true →
    ∀ pre e post, evs = (pre ++ e :: post)%list → is_sensitive e = true → EStarttls None ∈ pre;
  ses_done : o = Done → ESend message (inr []) ∈ evs;
}.

(** The traces of the first [try], of the exit, of one transaction. *)
Inductive secured (smtp : SmtpSettings) : list event → option failure → Prop :=
| sec_plain : smtp.(use_tls) = false → secured smtp [] None
| sec_plain_login u p r : smtp.(use_tls) = false → secured smtp [ELogin u p r] r
| sec_no_tls f : secured smtp [EStarttls (Some f)] (Some f)
| sec_tls : secured smtp [EStarttls None] None
| sec_tls_login u p r : secured smtp [EStarttls None; ELogin u p r] r.

Definition after_quit (body : outcome) (q : Z + failure) : outcome :=
  match q with
  | inl code => if code =? 221 then body else Propagates (SMTPResponseException code)
  | inr SMTPServerDisconnected => body
  | inr f => Propagates f
  end.

Definition after_send (r : failure + list string) : outcome :=
  match r with
  | inl f => classify is_retryable_send_failure f
  | inr refused => if bool_decide (refused = []) then Done else Propagates unsafe_recipient
  end.

Inductive session (smtp : SmtpSettings) (m : EmailMessage) : list event → outcome → Prop :=
| ses_refused f : session smtp m [EConnect (Some f)] (classify is_retryable_connect_failure f)
| ses_insecure evs f q :
    secured smtp evs (Some f) →
    session smtp m (EConnect None :: evs ++ [EQuit q])
      (after_quit (classify is_retryable_connect_failure f) q)
| ses_sent evs r q :
    secured smtp evs None →
    session smtp m (EConnect None :: evs ++ [ESend m r; EQuit q]) (after_quit (after_send r) q).

Lemma secure_secured `{Relay} smtp h r h' :
  secure smtp h = (r, h') → ∃ evs, h' = (h ++ evs)%list ∧ secured smtp evs r.
Proof.
  unfold secure. destruct (use_tls smtp) eqn:Eu.
  - destruct (starttls h) as [f |]; [intros [= <- <-]; eexists; split; [done | constructor] |].
    intros E. repeat case_match; injection E as <- <-; rewrite <- ?app_assoc;
      (eexists; split; [reflexivity | constructor]).
  - intros E. repeat case_match; injection E as <- <-;
      first [eexists; split; [reflexivity | by constructor]
            | exists []; rewrite app_nil_r; split; [done | by constructor]].
Qed.

(** [_send_smtp_once] leaves the trace of a transaction. *)
Lemma once_session `{Relay} smtp m h o h' :
  send_smtp_once smtp m h = (o, h') → ∃ evs, h' = (h ++ evs)%list ∧ session smtp m evs o.
Proof.
  unfold send_smtp_once. destruct (connect _ _ _ _) as [f |].
  { intros [= <- <-]. eexists. split; [done | constructor]. }
  unfold in_session. destruct (secure smtp _) as [r h1] eqn:Es.
  apply secure_secured in Es as (evs & -> & Hsec).
  destruct r as [f |]; unfold exit_session; cbv zeta; [| destruct (send_message _ _)];
    match goal with |- context [quit ?x] => generalize (quit x) end; intros q [= <- <-];
    eexists; (split; [by rewrite <- !app_assoc |]).
  - by apply ses_insecure.
  - by apply (ses_sent smtp m evs (inl _)).
  - by apply (ses_sent smtp m evs (inr _)).
Qed.

Lemma after_quit_Retryable body q f : after_quit body q = Retryable f → body = Retryable f.
Proof. unfold after_quit. destruct q as [c | g]; [destruct (c =? 221) | destruct g]; done. Qed.
Lemma after_quit_Done body q : after_quit body q = Done → body = Done.
Proof. unfold after_quit. destruct q as [c | g]; [destruct (c =? 221) | destruct g]; done. Qed.

Lemma after_send_Retryable r f : after_send r = Retryable f → says_not_delivered r.
Proof.
  destruct r as [g | refused]; cbn; [| by case_bool_decide].
  intros [[Hg Hr] | [Hg _]]%classify_cases; [| congruence]. by apply retryable_send_spec.
Qed.

Lemma classify_connect_not_Done f : classify is_retryable_connect_failure f ≠ Done.
Proof. unfold classify. by destruct (is_retryable_connect_failure f). Qed.

Lemma secured_sensitive smtp evs r pre e post tail :
  secured smtp evs r → smtp.(use_tls) = true →
  (evs ++ tail = pre ++ e :: post)%list → is_sensitive e = true →
  (r ≠ None → Forall (λ e, is_sensitive e = false) tail) → EStarttls None ∈ pre.
Proof.
  intros Hs Hu E He Ht. destruct Hs as [Hp | u p r Hp | f | | u p r]; try congruence; cbn [app] in E.
  - exfalso. destruct pre as [| x pre]; injection E as <- E; [done |].
    specialize (Ht ltac:(done)). rewrite E in Ht. apply Forall_app in Ht as [_ [Ht _]%Forall_cons]. congruence.
  - destruct pre as [| x pre]; injection E as <- E; [done | left].
  - destruct pre as [| x pre]; injection E as <- E; [done | left].
Qed.

Lemma secured_counts smtp evs r :
  secured smtp evs r →
  Forall (λ e, is_connect e = false ∧ is_send e = false) evs.
Proof. by destruct 1; repeat constructor. Qed.

Lemma filter_connect_none evs :
  Forall (λ e, is_connect e = false ∧ is_send e = false) evs →
  filter (λ e, is_connect e = true) evs = [] ∧ filter (λ e, is_send e = true) evs = [].
Proof.
  rewrite Forall_forall. intros Hf. split; apply filter_none; intros e He; destruct (Hf e He); congruence.
Qed.

Lemma session_facts smtp m evs o : session smtp m evs o → session_ok smtp m evs o.
Proof.
  intros [f | sec f q Hs | sec r q Hs].
  - split.
    + done.
    + by eexists _, _.
    + set_solver.
    + rewrite filter_cons_False by done. cbn. lia.
    + set_solver.
    + intros _ pre e post E. destruct pre as [| x [| y pre]]; injection E as <- ?; done.
    + intros Hd. by apply classify_connect_not_Done in Hd.
  - pose proof (secured_counts _ _ _ Hs) as Hc. destruct (filter_connect_none _ Hc) as [F1 F2].
    assert (∀ m' r', ESend m' r' ∉ EConnect None :: sec ++ [EQuit q]) as Hno.
    { intros m' r' [? | [Hin | Hin]%elem_of_app]%elem_of_cons; [done | | set_solver].
      rewrite Forall_forall in Hc. by destruct (Hc _ Hin). }
    split.
    + unfold connects. by rewrite filter_cons_True, filter_app, F1.
    + by eexists _, _.
    + intros m' r' Hin. by apply Hno in Hin.
    + rewrite filter_cons_False, filter_app, F2, filter_cons_False by done. cbn. lia.
    + intros m' r' f' Hin. by apply Hno in Hin.
    + intros Hu [| x pre] e post E He; injection E as <- E; [done |]. right.
      eapply (secured_sensitive _ _ _ pre e post _ Hs Hu E He). by repeat constructor.
    + intros Hd%after_quit_Done. by apply classify_connect_not_Done in Hd.
  - pose proof (secured_counts _ _ _ Hs) as Hc. destruct (filter_connect_none _ Hc) as [F1 F2].
    assert (∀ m' r', ESend m' r' ∈ EConnect None :: sec ++ [ESend m r; EQuit q] → m' = m ∧ r' = r) as Hsend.
    { intros m' r' [? | [Hin | Hin]%elem_of_app]%elem_of_cons; [done | | set_solver].
      rewrite Forall_forall in Hc. by destruct (Hc _ Hin). }
    split.
    + unfold connects. by rewrite filter_cons_True, filter_app, F1.
    + by eexists _, _.
    + intros m' r' Hin. by apply Hsend in Hin as [-> _].
    + rewrite filter_cons_False, filter_app, F2, filter_cons_True, filter_cons_False by done. cbn. lia.
    + intros m' r' f' [-> ->]%Hsend Hr%after_quit_Retryable. by eapply after_send_Retryable.
    + intros Hu [| x pre] e post E He; injection E as <- E; [done |]. right.
      eapply (secured_sensitive _ _ _ pre e post _ Hs Hu E He). done.
    + intros Hd%after_quit_Done. unfold after_send in Hd. destruct r as [g | refused].
      * unfold classify in Hd. by destruct (is_retryable_send_failure g).
      * case_bool_decide as Hr; [| done]. subst refused. set_solver.
Qed.

Definition is_wait (e : event) : bool := match e with ETime _ | ESleep _ => true | _ => false end.
Notation waiting := (Forall (λ e, is_wait e = true)).

(** The traces of the retry loop, with [left] further attempts allowed. *)
Inductive tries (smtp : SmtpSettings) (m : EmailMessage) (deadline budget : Z)
    : nat → list event → failure + bool → Prop :=
| tries_done left evs : session smtp m evs Done → tries smtp m deadline budget left evs (inr true)
| tries_raise left evs f :
    session smtp m evs (Propagates f) → tries smtp m deadline budget left evs (inl f)
| tries_late left evs f w :
    session smtp m evs (Retryable f) → waiting w →
    tries smtp m deadline budget left (evs ++ w) (inl f)
| tries_again left evs f w t rest r :
    session smtp m evs (Retryable f) → waiting w → t + budget <= deadline →
    tries smtp m deadline budget left rest r →
    tries smtp m deadline budget (S left) (evs ++ (w ++ [ETime t]) ++ rest) r.

Lemma attempts_tries `{Relay} smtp m deadline budget left h r h' :
  attempts smtp m deadline budget left h = (r, h') →
  ∃ evs, h' = (h ++ evs)%list ∧ tries smtp m deadline budget left evs r.
Proof.
  revert h. induction left as [| left IH]; intros h; cbn [attempts];
    destruct (send_smtp_once smtp m h) as [o h1] eqn:Eo; apply once_session in Eo as (evs & -> & Hs);
    destruct o as [| f | f]; try (intros [= <- <-]; exists evs; split; [done | by constructor]).
  - intros [= <- <-]. exists evs. split; [done |]. rewrite <- (app_nil_r evs) at 1.
    by eapply tries_late.
  - cbv zeta. set (t := monotonic (h ++ evs)).
    destruct (deadline - t <? budget).
    { intros [= <- <-]. exists (evs ++ [ETime t])%list. rewrite <- app_assoc. split; [done |].
      eapply tries_late; [done | by repeat constructor]. }
    set (b := smin _ _). set (w := (if slt (Secs 0) b then [ETime t; ESleep b] else [ETime t])).
    assert ((if slt (Secs 0) b then (((h ++ evs) ++ [ETime t]) ++ [ESleep b])%list else ((h ++ evs) ++ [ETime t])%list)
            = ((h ++ evs) ++ w)%list) as ->
      by (unfold w; destruct (slt (Secs 0) b); by rewrite <- ?app_assoc).
    assert (waiting w) as Hw by (unfold w; destruct (slt (Secs 0) b); by repeat constructor). clearbody w.
    set (t' := monotonic _). destruct (Z.ltb_spec (deadline - t') budget) as [Hlate | Hin].
    { intros [= <- <-]. exists (evs ++ w ++ [ETime t'])%list. rewrite <- !app_assoc. split; [done |].
      eapply tries_late; [done |]. apply Forall_app_2; [done | by repeat constructor]. }
    intros (rest & -> & Hrest)%IH. exists (evs ++ (w ++ [ETime t']) ++ rest)%list.
    rewrite <- !app_assoc. split; [done |]. rewrite (app_assoc w). eapply tries_again; [done | done | lia | done].
Qed.

Lemma connects_app a b : connects (a ++ b) = (connects a + connects b)%nat.
Proof. unfold connects. by rewrite filter_app, length_app. Qed.

Lemma connects_cons e l : connects (e :: l) = ((if is_connect e then 1 else 0) + connects l)%nat.
Proof. unfold connects. rewrite filter_cons. by destruct (is_connect e). Qed.

Lemma waiting_other w : waiting w → connects w = 0%nat ∧ ∀ e, e ∈ w → is_send e = false ∧ is_sensitive e = false ∧ is_connect e = false.
Proof.
  intros Hw. rewrite Forall_forall in Hw. split.
  - unfold connects. rewrite filter_none; [done |]. intros e He. specialize (Hw e He). by destruct e.
  - intros e He. specialize (Hw e He). by destruct e.
Qed.

Lemma tries_connects smtp m d b left evs r :
  tries smtp m d b left evs r → (connects evs ≤ S left)%nat.
Proof.
  induction 1 as [left evs Hs | left evs f Hs | left evs f w Hs Hw | left evs f w t rest r Hs Hw Ht Hr IH];
    pose proof (ses_connect _ _ _ _ (session_facts _ _ _ _ Hs)) as Hc; try lia.
  - rewrite connects_app, Hc, (proj1 (waiting_other w Hw)). lia.
  - rewrite !connects_app, Hc, (proj1 (waiting_other w Hw)). change (connects [ETime t]) with 0%nat. lia.
Qed.

(** Nothing is sent twice in one session, and it has one connection. *)
Lemma session_last_send smtp m evs o pre m' a post :
  session smtp m evs o → evs = (pre ++ ESend m' a :: post)%list →
  connects post = 0%nat ∧ ∀ m'' a', ESend m'' a' ∉ post.
Proof.
  intros F%session_facts ->. destruct F as [Hc (r & rest & E) _ H1 _ _ _]. split.
  - destruct pre as [| x pre]; [done |]. injection E as -> _.
    rewrite connects_app, !connects_cons in Hc. cbn [is_connect] in Hc. lia.
  - intros m'' a' Hin. rewrite filter_app, filter_cons_True, length_app in H1 by done. cbn [length] in H1.
    assert (ESend m'' a' ∈ filter (λ e, is_send e = true) post) as Hf by (by apply list_elem_of_filter).
    destruct (filter _ post); [by apply elem_of_nil in Hf | cbn in H1; lia].
Qed.

(** After a message that the relay did not refuse with a 4xx, nothing follows
    but the end of that session. *)
Lemma tries_last_send smtp m d b left evs r :
  tries smtp m d b left evs r →
  (∀ m' a, ESend m' a ∈ evs → m' = m)
  ∧ (∀ pre m' a post, evs = (pre ++ ESend m' a :: post)%list → ¬ says_not_delivered a →
       connects post = 0%nat ∧ ∀ m'' a', ESend m'' a' ∉ post)
  ∧ ∀ ok, r = inr ok → ok = true ∧ ESend m (inr []) ∈ evs.
Proof.
  induction 1 as [left evs Hs | left evs f Hs | left evs f w Hs Hw | left evs f w t rest r Hs Hw Ht Hr IH];
    pose proof (session_facts _ _ _ _ Hs) as F.
  - split_and!; [apply F | intros pre m' a post E _; by eapply session_last_send |].
    intros ok [= <-]. split; [done | by apply F].
  - split_and!; [apply F | intros pre m' a post E _; by eapply session_last_send | done].
  - split_and!; [| | done].
    + intros m' a [Hin | Hin]%elem_of_app; [by eapply F |]. by destruct (waiting_other w Hw) as [_ Hx]; destruct (Hx _ Hin).
    + intros pre m' a post [(p1 & E & ->) | (p2 & -> & E)]%app_split Ha.
      * destruct Ha. refine (ses_final _ _ _ _ F m' a f _ eq_refl). rewrite E. set_solver.
      * exfalso. assert (ESend m' a ∈ w) as Hin by (rewrite E; set_solver).
        by destruct (proj2 (waiting_other w Hw) _ Hin).
  - destruct IH as (I1 & I2 & I3). assert (∀ m' a, ESend m' a ∉ w ++ [ETime t]) as Hno.
    { intros m' a [Hin | Hin]%elem_of_app; [by destruct (proj2 (waiting_other w Hw) _ Hin) | set_solver]. }
    split_and!.
    + intros m' a [Hin | [Hin | Hin]%elem_of_app]%elem_of_app; [by eapply F | by apply Hno in Hin | by eapply I1].
    + intros pre m' a post [(p1 & E & ->) | (p2 & -> & E)]%app_split Ha.
      * destruct Ha. refine (ses_final _ _ _ _ F m' a f _ eq_refl). rewrite E. set_solver.
      * apply app_split in E as [(p1 & E & ->) | (p3 & -> & E)]; [| by eapply I2].
        exfalso. apply (Hno m' a). rewrite E. set_solver.
    + intros ok Hok. destruct (I3 ok Hok) as [-> Hin]. split; [done | set_solver].
Qed.

(** A credential or a message follows a STARTTLS that succeeded on its own
    connection. *)
Definition after_tls (pre : list event) : Prop :=
  ∃ pre1 pre2, pre = (pre1 ++ EConnect None :: pre2)%list ∧ connects pre2 = 0%nat ∧ EStarttls None ∈ pre2.

Lemma after_tls_app l pre : after_tls pre → after_tls (l ++ pre).
Proof. intros (p1 & p2 & -> & ? & ?). exists (l ++ p1)%list, p2. by rewrite <- app_assoc. Qed.

Lemma session_tls smtp m evs o pre e post :
  session smtp m evs o → smtp.(use_tls) = true → evs = (pre ++ e :: post)%list → is_sensitive e = true →
  after_tls pre.
Proof.
  intros Hs Hu E He. pose proof (session_facts _ _ _ _ Hs) as F.
  pose proof (ses_tls _ _ _ _ F Hu pre e post E He) as Htls. pose proof (ses_connect _ _ _ _ F) as Hc.
  destruct pre as [| x pre]; [by apply elem_of_nil in Htls |].
  assert (x = EConnect None) as ->.
  { destruct Hs as [f | sec f q Hs | sec r q Hs]; injection E as <- E; [| done | done].
    by destruct pre. }
  exists [], pre. split_and!; [done | |].
  - rewrite E in Hc. cbn [app] in Hc. rewrite connects_cons, connects_app in Hc. cbn in Hc. lia.
  - apply elem_of_cons in Htls as [? | ?]; [done | done].
Qed.

Lemma tries_tls smtp m d b left evs r :
  tries smtp m d b left evs r → smtp.(use_tls) = true →
  ∀ pre e post, evs = (pre ++ e :: post)%list → is_sensitive e = true → after_tls pre.
Proof.
  intros Hr Hu. induction Hr as [left evs Hs | left evs f Hs | left evs f w Hs Hw | left evs f w t rest r Hs Hw Ht Hr IH];
    intros pre e post E He; try by eapply session_tls.
  - apply app_split in E as [(p1 & E & ->) | (p2 & -> & E)]; [by eapply session_tls |].
    exfalso. assert (e ∈ w) as Hin by (rewrite E; set_solver).
    destruct (proj2 (waiting_other w Hw) _ Hin) as (_ & ? & _). congruence.
  - apply app_split in E as [(p1 & E & ->) | (p2 & -> & E)]; [by eapply session_tls |].
    apply app_split in E as [(p1 & E & ->) | (p3 & -> & E)]; [| by eapply after_tls_app, after_tls_app, IH].
    exfalso. assert (e ∈ w ++ [ETime t]) as [Hin | Hin]%elem_of_app by (rewrite E; set_solver).
    + destruct (proj2 (waiting_other w Hw) _ Hin) as (_ & ? & _). congruence.
    + apply list_elem_of_singleton in Hin as ->. done.
Qed.

Lemma session_first_connect smtp m evs o pre a post :
  session smtp m evs o → evs = (pre ++ EConnect a :: post)%list → pre = [].
Proof.
  intros F%session_facts ->. destruct F as [Hc (r & rest & E) _ _ _ _ _].
  destruct pre as [| x pre]; [done | exfalso]. injection E as -> _.
  rewrite connects_app, !connects_cons in Hc. cbn [is_connect] in Hc. lia.
Qed.

(** Every attempt but the first starts with its whole budget ahead of the
    deadline. *)
Lemma tries_budget smtp m d b left evs r :
  tries smtp m d b left evs r →
  ∀ pre a post, evs = (pre ++ EConnect a :: post)%list →
  pre = [] ∨ ∃ pre' t, pre = (pre' ++ [ETime t])%list ∧ t + b <= d.
Proof.
  induction 1 as [left evs Hs | left evs f Hs | left evs f w Hs Hw | left evs f w t rest r Hs Hw Ht Hr IH];
    intros pre a post E; try (left; by eapply session_first_connect).
  - apply app_split in E as [(p1 & E & ->) | (p2 & -> & E)]; [left; by eapply session_first_connect |].
    exfalso. assert (EConnect a ∈ w) as Hin by (rewrite E; set_solver).
    by destruct (proj2 (waiting_other w Hw) _ Hin) as (_ & _ & ?).
  - apply app_split in E as [(p1 & E & ->) | (p2 & -> & E)]; [left; by eapply session_first_connect |].
    apply app_split in E as [(p1 & E & ->) | (p3 & -> & E)].
    + exfalso. assert (EConnect a ∈ w ++ [ETime t]) as [Hin | Hin]%elem_of_app by (rewrite E; set_solver).
      * by destruct (proj2 (waiting_other w Hw) _ Hin) as (_ & _ & ?).
      * by apply list_elem_of_singleton in Hin.
    + right. destruct (IH _ _ _ E) as [-> | (p4 & t' & -> & Ht')].
      * exists (evs ++ w)%list, t. by rewrite app_nil_r, <- !app_assoc.
      * exists (evs ++ (w ++ [ETime t]) ++ p4)%list, t'. by rewrite <- !app_assoc.
Qed.

(** ** The recipient's domain *)

(** Two labels or more of letters, digits and dashes, the last one starting with
    a letter: not an address literal, bracketed or dotted. *)
Definition host_name (domain : list ascii) : Prop :=
  ∃ labels c rest,
    domain = join_fields "."%char (labels ++ [c :: rest]) ∧ labels ≠ []
    ∧ Forall (λ l, l ≠ [] ∧ Forall (λ x, label_char x = true) l) labels
    ∧ alpha c = true ∧ Forall (λ x, label_char x = true) rest.

Lemma lang_labels w :
  lang (many (Seq (many1 (Chr label_char)) (ch "."))) w →
  ∃ labels, w = concat ((λ l, l ++ ["."%char]) <$> labels)%list
    ∧ Forall (λ l, l ≠ [] ∧ Forall (λ x, label_char x = true) l) labels.
Proof.
  unfold many. remember (Star true _) as r eqn:Er. induction 1 as [| | | | | | g a u v Hu _ Hv IH | | | |]; try done.
  - exists []. split; [done | constructor].
  - injection Er as -> ->. destruct (IH eq_refl) as (labels & -> & Hl).
    inversion_clear Hu as [| | ? ? l dot H1 H2 | | | | | | | |].
    apply lang_many1 in H1. apply lang_chr_inv in H2 as (d & -> & ->%bool_decide_eq_true).
    exists (l :: labels). split; [done | by constructor].
Qed.

Lemma join_labels labels tld :
  join_fields "."%char (labels ++ [tld]) = (concat ((λ l, l ++ ["."%char]) <$> labels) ++ tld)%list.
Proof.
  induction labels as [| l labels IH]; [done |]. cbn [app]. rewrite join_fields_cons by (by destruct labels).
  rewrite IH. cbn. by rewrite <- !app_assoc.
Qed.

Lemma valid_domain_spec domain : valid_domain domain = true → host_name domain.
Proof.
  intros H%fullmatch_lang. unfold VALID_DOMAIN_RE in H.
  inversion_clear H as [| | ? ? u v H1 H2 | | | | | | | |].
  assert (∃ labels, u = concat ((λ l, l ++ ["."%char]) <$> labels)%list ∧ labels ≠ []
    ∧ Forall (λ l, l ≠ [] ∧ Forall (λ x, label_char x = true) l) labels) as (labels & -> & Hne & Hl).
  { inversion_clear H1 as [| | ? ? u1 u2 H3 H4 | | | | | | | |]. apply lang_labels in H4 as (labels & -> & Hl).
    inversion_clear H3 as [| | ? ? l dot H5 H6 | | | | | | | |].
    apply lang_many1 in H5. apply lang_chr_inv in H6 as (d & -> & ->%bool_decide_eq_true).
    exists (l :: labels). split_and!; [done | done | by constructor]. }
  assert (∃ c rest, v = c :: rest ∧ alpha c = true ∧ Forall (λ x, label_char x = true) rest) as (c & rest & -> & Hc & Hr).
  { inversion_clear H2 as [| | | ? ? ? H3 | ? ? ? H3 | | | | | |].
    - inversion_clear H3 as [| | ? ? x y H4 H5 | | | | | | | |]. apply lang_chr_inv in H4 as (c & -> & Hc).
      apply lang_star_Forall in H5. by exists c, y.
    - inversion_clear H3 as [| | ? ? x y H4 H5 | | | | | | | |]. apply lang_lit in H4 as ->.
      apply lang_many1 in H5 as [_ H5]. exists "x"%char, (["n"; "-"; "-"]%char ++ y)%list.
      split_and!; [done | done |]. by repeat constructor. }
  exists labels, c, rest. split_and!; [by rewrite join_labels | done | done | done | done].
Qed.

(** ** The whole send *)

Lemma clean_header_safe s c : c ∈ chars (clean_header s) → c ≠ NEWLINE ∧ c ≠ RETURN.
Proof. unfold clean_header. rewrite chars_of_chars. by intros [(_ & ? & ?) | ->]%elem_of_flatten. Qed.

Lemma check_recipient_ok addr a :
  check_recipient addr = Ok (Some a) →
  addr = Some a ∧ ","%char ∉ chars a ∧ host_name (domain_of a).
Proof.
  unfold check_recipient. destruct addr as [x |]; [| done]. destruct (negb (truthy x)); [done |].
  case_bool_decide as Hc; [done |]. destruct (valid_domain (domain_of x)) eqn:Ev; [| done].
  intros [= <-]. split_and!; [done | done | by apply valid_domain_spec].
Qed.

Section SendTheorems.
Context `{Relay}.
Context (load : string → result Registry) (domain_policy : string → bool)
        (email_lookup : string → result (option string)) (smtp : SmtpSettings)
        (zone_info : string → result Zone) (render_file : string → DigestView → result string).

Notation send := (send load domain_policy email_lookup smtp zone_info render_file).
Notation build_message := (build_message load domain_policy smtp zone_info render_file).

Lemma send_cases job records generated_at tier2 h r h' :
  send job records generated_at tier2 h = (r, h') →
  (h' = h ∧ r ≠ inr true)
  ∨ ∃ to_addr message t evs,
      email_lookup job.(job_owner_id) = Ok (Some to_addr)
      ∧ ","%char ∉ chars to_addr ∧ host_name (domain_of to_addr)
      ∧ build_message job records generated_at tier2 to_addr = Ok message
      ∧ h' = (h ++ ETime t :: evs)%list
      ∧ tries smtp message (t + smtp.(send_deadline)) (smtp.(timeout) * MAX_OPS_PER_ATTEMPT)
          (Z.to_nat smtp.(retry_attempts)) evs r.
Proof.
  unfold Smtp.send. destruct (email_lookup _) as [o | e]; cbn [rbind]; [| intros [= <- <-]; by left].
  destruct (check_recipient o) as [[a |] | e] eqn:Ec; [| intros [= <- <-]; by left ..].
  apply check_recipient_ok in Ec as (-> & Hcomma & Hhost).
  destruct (Smtp.build_message _ _ _ _ _ _ _ _ _ a) as [message | e] eqn:Em; [| intros [= <- <-]; by left].
  unfold send_with_retry. cbv zeta. set (t := monotonic h).
  intros (evs & -> & Ht)%attempts_tries. right. exists a, message, t, evs.
  split_and!; [done | done | done | done | by rewrite <- app_assoc | done].
Qed.

Lemma build_message_safe job records generated_at tier2 to_addr m c :
  build_message job records generated_at tier2 to_addr = Ok m →
  m.(to_) = clean_header to_addr
  ∧ (c ∈ chars m.(subject) ∨ c ∈ chars m.(from_) ∨ c ∈ chars m.(to_) → c ≠ NEWLINE ∧ c ≠ RETURN)
  ∧ (c ∈ chars m.(text_body) → c ≠ RETURN).
Proof.
  unfold Smtp.build_message. destruct (load _) as [reg |]; [| done]. cbn [rbind].
  destruct (source_urls_of reg) as [urls |]; [| done]. cbn [rbind].
  destruct (build_digest_view _ _ _ _ _ _ _ _) as [view |]; [| done]. cbn [rbind].
  destruct (render_digest_html _ _ _) as [html |]; [| done]. cbn [rbind].
  destruct (render_digest _ _ _ _ _) as [body |]; [| done]. cbn [rbind]. intros [= <-]. cbn.
  split_and!; [done | by intros [? | [? | ?]]; eapply clean_header_safe |].
  unfold clean_header_block. rewrite chars_of_chars. by intros [? _]%list_elem_of_filter.
Qed.

(** C29: no digest is sent twice.  Whatever the relay answers, a send makes at
    most one attempt more than the configured retries; once a message was
    handed to the relay and the answer is anything but an explicit 4xx refusal
    -- it was accepted, refused for good, or the connection was lost with the
    outcome unknown -- there is no further connection and no further message;
    and the send answers True only when the relay accepted the message for every
    recipient. *)
Theorem smtp_no_double_send job records generated_at tier2 h r h' :
  send job records generated_at tier2 h = (r, h') →
  ∃ evs, h' = (h ++ evs)%list
    ∧ (connects evs ≤ S (Z.to_nat smtp.(retry_attempts)))%nat
    ∧ (∀ pre m a post, evs = (pre ++ ESend m a :: post)%list → ¬ says_not_delivered a →
         connects post = 0%nat ∧ ∀ m' a', ESend m' a' ∉ post)
    ∧ (r = inr true → ∃ m, ESend m (inr []) ∈ evs).
Proof.
  intros [[-> Hr] | (to_addr & m & t & evs & _ & _ & _ & _ & -> & Ht)]%send_cases.
  - exists []. rewrite app_nil_r. split_and!; [done | cbn; lia | | done].
    intros pre m a post E. by destruct pre.
  - destruct (tries_last_send _ _ _ _ _ _ _ Ht) as (_ & Hlast & Hdone).
    exists (ETime t :: evs). split_and!; [done | | |].
    + rewrite connects_cons. cbn [is_connect]. by eapply tries_connects.
    + intros [| x pre] m' a post E; injection E as ? E; subst; [done |]. by eapply Hlast.
    + intros Hr. exists m. right. by destruct (Hdone true Hr).
Qed.

(** No attempt starts without its budget.  Every connection of a send but
    the first is made right after a reading of the clock that leaves, before
    the deadline fixed when the send started, at least eight times the socket
    timeout: the worst case of one attempt. *)
Theorem smtp_retries_within_budget job records generated_at tier2 h r h' :
  send job records generated_at tier2 h = (r, h') →
  ∃ evs, h' = (h ++ evs)%list
    ∧ ∀ pre a post, evs = (pre ++ EConnect a :: post)%list → (0 < connects pre)%nat →
      ∃ start now pre' pre'', pre = ETime start :: pre' ∧ pre = (pre'' ++ [ETime now])%list
        ∧ now + 8 * smtp.(timeout) <= start + smtp.(send_deadline).
Proof.
  intros [[-> _] | (to_addr & m & t & evs & _ & _ & _ & _ & -> & Ht)]%send_cases.
  - exists []. rewrite app_nil_r. split; [done |]. intros pre a post E. by destruct pre.
  - exists (ETime t :: evs). split; [done |]. intros [| x pre] a post E Hc; [done |].
    injection E as <- E. destruct (tries_budget _ _ _ _ _ _ _ Ht _ _ _ E) as [-> | (pre' & t' & -> & Hb)];
      [by vm_compute in Hc; lia |].
    exists t, t', (pre' ++ [ETime t'])%list, (ETime t :: pre'). split_and!; [done | done |].
    unfold MAX_OPS_PER_ATTEMPT in Hb. lia.
Qed.

(** C30: nothing secret in the clear.  With TLS on, a login or a message is only
    ever sent on a connection on which STARTTLS succeeded before: if the server
    refuses STARTTLS the attempt ends there, there is no plaintext fallback. *)
Theorem smtp_tls_before_secrets job records generated_at tier2 h r h' :
  smtp.(use_tls) = true → send job records generated_at tier2 h = (r, h') →
  ∃ evs, h' = (h ++ evs)%list
    ∧ ∀ pre e post, evs = (pre ++ e :: post)%list → is_sensitive e = true → after_tls pre.
Proof.
  intros Hu [[-> _] | (to_addr & m & t & evs & _ & _ & _ & _ & -> & Ht)]%send_cases.
  - exists []. rewrite app_nil_r. split; [done |]. intros pre e post E. by destruct pre.
  - exists (ETime t :: evs). split; [done |]. intros [| x pre] e post E He; injection E as <- E; [done |].
    apply (after_tls_app [ETime t]). by eapply tries_tls.
Qed.

(** What is sent, and to whom.  The only message of a send is the digest of
    the job, addressed to its owner's own address, whose host is a name of two
    labels or more and not an address literal; its subject, sender and
    recipient have no line end, so no header can be injected; for an owner
    without an address, or with one that is not safe, the relay is never
    contacted. *)
Theorem smtp_message_safe job records generated_at tier2 h r h' :
  send job records generated_at tier2 h = (r, h') →
  ∃ evs, h' = (h ++ evs)%list
    ∧ (∀ m a, ESend m a ∈ evs →
         ∃ to_addr, email_lookup job.(job_owner_id) = Ok (Some to_addr)
           ∧ ","%char ∉ chars to_addr ∧ host_name (domain_of to_addr)
           ∧ m.(to_) = clean_header to_addr
           ∧ (∀ c, c ∈ chars m.(subject) ∨ c ∈ chars m.(from_) ∨ c ∈ chars m.(to_) → c ≠ NEWLINE ∧ c ≠ RETURN)
           ∧ ∀ c, c ∈ chars m.(text_body) → c ≠ RETURN)
    ∧ ((∀ to_addr, email_lookup job.(job_owner_id) = Ok (Some to_addr) → ¬ host_name (domain_of to_addr)) →
         evs = [] ∧ r ≠ inr true).
Proof.
  intros [[-> Hr] | (to_addr & m & t & evs & Hl & Hc & Hh & Hm & -> & Ht)]%send_cases.
  - exists []. rewrite app_nil_r. split_and!; [done | | done]. intros m a Hin. by apply elem_of_nil in Hin.
  - exists (ETime t :: evs). split_and!; [done | | intros Hno; by destruct (Hno _ Hl)].
    intros m' a [? | Hin]%elem_of_cons; [done |].
    destruct (tries_last_send _ _ _ _ _ _ _ Ht) as (Hone & _ & _). rewrite (Hone _ _ Hin).
    exists to_addr. split_and!; [done | done | done | | |].
    + exact (proj1 (build_message_safe _ _ _ _ _ _ " "%char Hm)).
    + intros c. by eapply build_message_safe.
    + intros c. by eapply build_message_safe.
Qed.
End SendTheorems.

(** ** The factory *)

(** the timeouts the factory derives.  With a reaper window of at least one
    second, whatever the configured socket timeout (zero, negative, infinite or
    not a number included), the timeout in force and the send's own deadline
    are positive and strictly inside the reaper's window; and the warning about
    the retry budget is given exactly when, one timeout having been spent, the
    deadline no longer holds a whole attempt. *)
Theorem build_sender_timeouts settings smtp :
  build_sender settings = SmtpSender smtp → 1 <= settings.(m_reaper_timeout) →
  0 < smtp.(timeout) < settings.(m_reaper_timeout) * SECOND
  ∧ 0 < smtp.(send_deadline) < settings.(m_reaper_timeout) * SECOND
  ∧ (retry_budget_too_thin smtp.(timeout) settings.(m_reaper_timeout) = true ↔
       smtp.(send_deadline) - smtp.(timeout) < MAX_OPS_PER_ATTEMPT * smtp.(timeout)).
Proof.
  unfold build_sender. intros Hb Hr. destruct (m_host settings) as [host |]; [| done].
  destruct (m_from settings) as [from |]; [| done]. destruct (negb (truthy host)); [done |].
  destruct (negb (truthy from)); [done |]. injection Hb as <-. cbn [timeout send_deadline].
  set (R := m_reaper_timeout settings * SECOND). assert (1000000 <= R) as HR by (unfold R, SECOND; lia).
  assert (∀ t, t = Z.max 100000 (R / 2) → 0 < t < R) as Hclamp.
  { intros t ->. assert (R / 2 < R) by (apply Z.div_lt; lia). lia. }
  assert (0 < safe_smtp_timeout (m_timeout settings) (m_reaper_timeout settings) < R) as Ht.
  { unfold safe_smtp_timeout. fold R. destruct (m_timeout settings) as [us | |]; try by apply Hclamp.
    unfold strictly_between. destruct (Z.ltb_spec 0 us), (Z.ltb_spec us R); cbn; try by apply Hclamp. done. }
  set (t := safe_smtp_timeout _ _) in *. unfold retry_budget_too_thin, MAX_OPS_PER_ATTEMPT. fold R.
  rewrite Z.ltb_lt. lia.
Qed.

(** ** Examples *)

Module MailDemo.
(** A relay that greylists the first message; the clock ticks once per call. *)
#[export] Instance greylisting : Relay := {|
  connect h _ _ _ := None;
  starttls h := None;
  login h _ _ := None;
  send_message h _ := if (connects h <? 2)%nat then inl (SMTPResponseException 450) else inr [];
  quit h := inl 221;
  monotonic h := Z.of_nat (length h) * SECOND;
|}.

(** One that accepts the message and answers QUIT with 421. *)
Definition curt : Relay := {|
  connect h _ _ _ := None;
  starttls h := None;
  login h _ _ := None;
  send_message h _ := inr [];
  quit h := inl 421;
  monotonic h := 0;
|}.

Definition settings : MailSettings :=
  {| m_host := Some "relay.example"; m_port := 587; m_from := Some "kerdoos@example.com";
     m_username := Some "u"; m_password := Some "p"; m_use_tls := true; m_timeout := Secs (2 * SECOND);
     m_retry_attempts := 2; m_retry_backoff := seconds 1; m_reaper_timeout := 300 |}.
Definition smtp : SmtpSettings :=
  match build_sender settings with SmtpSender s => s | LogSender => {|
    smtp_host := ""; smtp_port := 0; from_addr := ""; username := None; password := None; use_tls := true;
    timeout := 0; retry_attempts := 0; retry_backoff := Secs 0; send_deadline := 0 |} end.
Definition load (_ : string) : result Registry := Ok {| sites := ∅; products := [] |}.
Definition lookup (owner : string) : result (option string) := Ok (Some "ana@shop.example").
Definition render (_ : string) (_ : DigestView) : result string := Ok "<p>digest</p>".

Definition sent (relay : Relay) : (failure + bool) * history :=
  @send relay load (λ _, true) lookup smtp DigestDemo.zones render DigestDemo.job [] DigestDemo.now ∅ [].
End MailDemo.

(** The first attempt is greylisted, the second one delivered. *)
Example greylisted_then_sent :
  (MailDemo.sent MailDemo.greylisting).1 = inr true
  ∧ connects (MailDemo.sent MailDemo.greylisting).2 = 2%nat.
Proof. vm_compute. split; reflexivity. Qed.

(** A message accepted by the relay, and a send that raises: leaving the [with]
    block raises on the reply to QUIT. *)
Example delivered_but_raised :
  (MailDemo.sent MailDemo.curt).1 = inl (SMTPResponseException 421)
  ∧ existsb (λ e, match e with ESend _ (inr []) => true | _ => false end) (MailDemo.sent MailDemo.curt).2 = true.
Proof. vm_compute. split; reflexivity. Qed.

Lemma smtp_no_double_send_witness :
  ∃ r h', MailDemo.sent MailDemo.greylisting = (r, h') ∧ r = inr true ∧ (connects h' ≤ 3)%nat
    ∧ ∃ m, ESend m (inr []) ∈ h'.
Proof.
  destruct (MailDemo.sent MailDemo.greylisting) as [r h'] eqn:E. exists r, h'.
  assert (r = inr true) as Hr by (replace r with (MailDemo.sent MailDemo.greylisting).1 by (by rewrite E); vm_compute; reflexivity).
  destruct (smtp_no_double_send _ _ _ _ _ _ _ _ _ _ _ _ _ E) as (evs & -> & Hc & _ & Hd).
  split_and!; [done | done | exact Hc | by apply Hd].
Defined.

Lemma smtp_retries_within_budget_witness :
  ∃ r h', MailDemo.sent MailDemo.greylisting = (r, h') ∧ connects h' = 2%nat
    ∧ ∀ pre a post, h' = (pre ++ EConnect a :: post)%list → (0 < connects pre)%nat →
        ∃ now pre', pre = (pre' ++ [ETime now])%list.
Proof.
  destruct (MailDemo.sent MailDemo.greylisting) as [r h'] eqn:E. exists r, h'.
  assert (connects h' = 2%nat) as Hr by (replace h' with (MailDemo.sent MailDemo.greylisting).2 by (by rewrite E); vm_compute; reflexivity).
  destruct (smtp_retries_within_budget _ _ _ _ _ _ _ _ _ _ _ _ _ E) as (evs & -> & Hb).
  split_and!; [done | done |]. intros pre a post Epre Hc.
  destruct (Hb pre a post Epre Hc) as (start & now & p1 & p2 & _ & -> & _). by eexists _, _.
Defined.

Lemma smtp_tls_before_secrets_witness :
  ∃ r h', MailDemo.sent MailDemo.greylisting = (r, h')
    ∧ ∀ pre e post, h' = (pre ++ e :: post)%list → is_sensitive e = true → after_tls pre.
Proof.
  destruct (MailDemo.sent MailDemo.greylisting) as [r h'] eqn:E. exists r, h'. split; [done |].
  destruct (smtp_tls_before_secrets _ _ _ MailDemo.smtp _ _ _ _ _ _ _ _ _ eq_refl E) as (evs & -> & Ht).
  exact Ht.
Defined.

Lemma smtp_message_safe_witness :
  ∃ r h', MailDemo.sent MailDemo.greylisting = (r, h')
    ∧ ∀ m a, ESend m a ∈ h' → m.(to_) = "ana@shop.example".
Proof.
  destruct (MailDemo.sent MailDemo.greylisting) as [r h'] eqn:E. exists r, h'. split; [done |].
  destruct (smtp_message_safe _ _ _ _ _ _ _ _ _ _ _ _ _ E) as (evs & -> & Hm & _).
  intros m a Hin. destruct (Hm m a Hin) as (addr & [= <-] & _ & _ & -> & _). vm_compute. reflexivity.
Defined.

Lemma build_sender_timeouts_witness :
  ∃ smtp, build_sender MailDemo.settings = SmtpSender smtp ∧ smtp.(timeout) = 2 * SECOND
    ∧ 0 < smtp.(send_deadline) < 300 * SECOND.
Proof.
  exists MailDemo.smtp. split; [reflexivity | split; [reflexivity |]].
  exact (proj1 (proj2 (build_sender_timeouts MailDemo.settings MailDemo.smtp eq_refl ltac:(vm_compute; discriminate)))).
Defined.
