(* ===== verification/Settings.v ===== *)
(** The settings ([kerdoos/config.py]): the environment, read with a default and
    a warning for every value that is not usable.

    The texts Python's [int] and [float] accept are arguments.  The state is
    what is logged, and the module's flags that keep a budget warning to one
    per process. *)

From S2P Require Import Prelude Domain Registry Safety Egress Text Digest Seconds Fetchers Smtp.

Definition MIN_SESSION_SECRET_LENGTH : nat := 32.
Definition DEFAULT_SMTP_PORT : Z := 587.
Definition DEFAULT_DIGEST_REAPER_TIMEOUT_SECONDS : Z := 300.
Definition DEFAULT_SMTP_TIMEOUT_SECONDS : Z := 30.
Definition DEFAULT_SMTP_RETRY_ATTEMPTS : Z := 2.
Definition DEFAULT_SMTP_RETRY_BACKOFF_SECONDS : Z := 2.
Definition MAX_SMTP_RETRY_ATTEMPTS : Z := 5.
Definition MIN_SMTP_RETRY_BACKOFF_SECONDS : Z := 1.
Definition DEFAULT_WORKERS : Z := 1.
Definition DEFAULT_BROWSER_MAX_CONCURRENT : Z := 1.
Definition DEFAULT_BROWSER_ACQUIRE_TIMEOUT_SECONDS : Z := 120.
Definition DEFAULT_RUN_QUEUE_MAX_RESTARTS : Z := 5.
Definition DEFAULT_RUN_QUEUE_BACKLOG_WARN_THRESHOLD : Z := 5.
Definition DEFAULT_LOGIN_RATE_LIMIT_WINDOW_SECONDS : Z := 900.
Definition DEFAULT_LOGIN_RATE_LIMIT_MAX_ATTEMPTS : Z := 5.
Definition DEFAULT_LOGIN_RATE_LIMIT_ROW_CAP : Z := 100000.
Definition DEFAULT_RUN_NOW_COOLDOWN_SECONDS : Z := 300.
Definition DEFAULT_MCP_MAX_SESSIONS : Z := 32.
Definition DEFAULT_MCP_SESSION_IDLE_TIMEOUT_SECONDS : Z := 300.

Record Settings := {
  session_secret : option string;
  config_db : string;
  state_db : string;
  cookie_secure : bool;
  workers : Z;
  digest_evaluator_enabled : bool;
  smtp_host_setting : option string;
  smtp_port_setting : Z;
  smtp_from : option string;
  smtp_username : option string;
  smtp_password : option string;
  smtp_use_tls : bool;
  smtp_timeout_seconds : secs;
  smtp_retry_attempts : Z;
  smtp_retry_backoff_seconds : secs;
  digest_reaper_timeout_seconds : Z;
  browser_max_concurrent : Z;
  browser_acquire_timeout_seconds : secs;
  run_queue_max_restarts : Z;
  run_queue_backlog_warn_threshold : Z;
  run_now_cooldown_seconds : secs;
  uc_launch_timeout_seconds : secs;
  browser_launch_timeout_seconds : secs;
  login_rate_limit_window_seconds : secs;
  login_rate_limit_max_attempts : Z;
  login_rate_limit_row_cap : Z;
  uc_orphan_sweep_delay_seconds : secs;
  browser_fetch_timeout_seconds : secs;
  browser_max_abandoned_fetches : Z;
  uc_fetch_timeout_seconds : secs;
  camoufox_launch_timeout_seconds : secs;
  camoufox_nav_timeout_seconds : secs;
  camoufox_fetch_timeout_seconds : secs;
  camoufox_max_abandoned_fetches : Z;
  mcp_enabled : bool;
  public_url : option string;
  mcp_allowed_hosts : list string;
  mcp_max_sessions : Z;
  mcp_session_idle_timeout_seconds : secs;
}.

Definition require_session_secret (s : Settings) : result string :=
  match s.(session_secret) with
  | None => raise RuntimeError "KERDOOS_SESSION_SECRET is not set"
  | Some secret =>
      if negb (truthy secret) then raise RuntimeError "KERDOOS_SESSION_SECRET is not set"
      else if (String.length secret <? MIN_SESSION_SECRET_LENGTH)%nat
      then raise RuntimeError "KERDOOS_SESSION_SECRET is too short"
      else Ok secret
  end.

(** * Warnings *)

Inductive latch :=
| browser_fetch_timeout_below_launch | browser_fetch_timeout_above_acquire
| uc_launch_timeout_at_or_above_acquire
| uc_fetch_timeout_below_navigation | uc_fetch_timeout_above_acquire
| camoufox_fetch_timeout_below_navigation | camoufox_fetch_timeout_above_acquire.

#[export] Instance latch_eq_dec : EqDecision latch.
Proof. solve_decision. Defined.

Inductive warning :=
| NotANumber (name raw : string)
| FailedValidation (name raw : string)
| BadWorkers (raw : string)
| ClampedSweepDelay (clamped : secs)
| Latched (l : latch).

#[export] Instance warning_eq_dec : EqDecision warning.
Proof. solve_decision. Defined.

(** What is logged, and the flags that are set. *)
Record Boot := { logged : list warning; fired : list latch }.

Definition warn (w : warning) : Prelude.M Boot unit :=
  mmodify (λ b, {| logged := b.(logged) ++ [w]; fired := b.(fired) |}).

Definition is_fired (l : latch) (b : Boot) : bool := bool_decide (l ∈ b.(fired)).

Definition warn_latched (l : latch) : Prelude.M Boot unit :=
  let! already := mgets (is_fired l) in
  if already then mret' tt
  else warn (Latched l) ;;;
       mmodify (λ b, {| logged := b.(logged); fired := l :: b.(fired) |}).

(** * Reading one variable *)

Section Env.
Variables (environ : string → option string) (to_int : string → result Z) (to_float : string → result secs).

Definition env_number {A} (name : string) (default : A) (cast : string → result A) (is_valid : A → bool)
    : Prelude.M Boot A :=
  match environ name with
  | None => mret' default
  | Some raw =>
      match cast raw with
      | Raise e =>
          if is_a e.(exn_class) ValueError
          then warn (NotANumber name raw) ;;; mret' default
          else mraise e
      | Ok value =>
          if is_valid value then mret' value
          else warn (FailedValidation name raw) ;;; mret' default
      end
  end.

Definition WORKERS_GRAMMAR : re := many1 digit.

(** [int(raw)], of ASCII digits. *)
Definition safe_workers (raw : string) : Prelude.M Boot Z :=
  if negb (fullmatch WORKERS_GRAMMAR (chars raw))
  then warn (BadWorkers raw) ;;; mret' DEFAULT_WORKERS
  else
    let! value := mlift (int_of (chars raw)) in
    if value <=? 0 then warn (BadWorkers raw) ;;; mret' DEFAULT_WORKERS
    else mret' value.

Definition safe_uc_orphan_sweep_delay (sweep_delay uc_launch_timeout acquire_timeout : secs)
    : Prelude.M Boot secs :=
  if slt (sadd uc_launch_timeout sweep_delay) acquire_timeout then mret' sweep_delay
  else
    let clamped := smax (Secs 100000) (shalf (ssub acquire_timeout uc_launch_timeout)) in
    if sle acquire_timeout uc_launch_timeout then mret' clamped
    else warn (ClampedSweepDelay clamped) ;;; mret' clamped.

Definition warn_uc_launch (launch_timeout acquire_timeout : secs) : Prelude.M Boot unit :=
  if sle acquire_timeout launch_timeout then warn_latched uc_launch_timeout_at_or_above_acquire
  else mret' tt.

(** [_warn_once_per_condition], with the two latches of a tier. *)
Definition warn_once_per_condition (navigation gate : latch) (warnings : list BudgetWarning) : Prelude.M Boot unit :=
  mfor (λ w, warn_latched (match w with NavigationWarning _ _ _ => navigation | GateWarning _ _ _ _ _ => gate end))
    warnings.

Definition positive (v : secs) : bool := slt (Secs 0) v.
Definition env_seconds (name : string) (default : secs) : Prelude.M Boot secs :=
  env_number name default to_float positive.
Definition env_int (name : string) (default : Z) (is_valid : Z → bool) : Prelude.M Boot Z :=
  env_number name default to_int is_valid.

(** [os.environ.get(name) or None], and [os.environ.get(name, default)],
    lowered. *)
Definition text (name : string) : option string :=
  match environ name with Some s => if truthy s then Some s else None | None => None end.
Definition lowered (name fallback : string) : string :=
  of_chars (lower (chars (default fallback (environ name)))).

Definition allowed_hosts (raw : string) : list string :=
  filter (λ h, h ≠ "") ((λ h, of_chars (strip h)) <$> fields_of ","%char (chars raw)).

Definition at_least (n : Z) (v : Z) : bool := n <=? v.
Definition between (a b : Z) (v : Z) : bool := (a <=? v) && (v <=? b).

Definition get_settings : Prelude.M Boot Settings :=
  let! uc_launch := env_seconds "KERDOOS_UC_LAUNCH_TIMEOUT_SECONDS" UC.(uc_launch_timeout) in
  let! browser_launch := env_seconds "KERDOOS_BROWSER_LAUNCH_TIMEOUT_SECONDS" BROWSER.(br_launch_timeout) in
  let! acquire := env_seconds "KERDOOS_BROWSER_ACQUIRE_TIMEOUT_SECONDS"
                    (seconds DEFAULT_BROWSER_ACQUIRE_TIMEOUT_SECONDS) in
  warn_uc_launch uc_launch acquire ;;;
  let! browser_fetch := env_seconds "KERDOOS_BROWSER_FETCH_TIMEOUT_SECONDS" BROWSER.(br_fetch_timeout) in
  let! browser_abandoned := env_int "KERDOOS_BROWSER_MAX_ABANDONED_FETCHES" BROWSER.(br_max_abandoned) (at_least 1) in
  warn_once_per_condition browser_fetch_timeout_below_launch browser_fetch_timeout_above_acquire
    (browser_check BROWSER browser_fetch browser_launch acquire) ;;;
  let! sweep_raw := env_seconds "KERDOOS_UC_ORPHAN_SWEEP_DELAY_SECONDS" UC.(uc_orphan_sweep_delay) in
  let! sweep := safe_uc_orphan_sweep_delay sweep_raw uc_launch acquire in
  let! uc_fetch := env_seconds "KERDOOS_UC_FETCH_TIMEOUT_SECONDS" UC.(uc_fetch_timeout) in
  warn_once_per_condition uc_fetch_timeout_below_navigation uc_fetch_timeout_above_acquire
    (uc_check UC uc_fetch sweep acquire) ;;;
  let! cx_launch := env_seconds "KERDOOS_CAMOUFOX_LAUNCH_TIMEOUT_SECONDS" CAMOUFOX.(cx_launch_timeout) in
  let! cx_nav := env_seconds "KERDOOS_CAMOUFOX_NAV_TIMEOUT_SECONDS" CAMOUFOX.(cx_nav_timeout) in
  let! cx_fetch := env_seconds "KERDOOS_CAMOUFOX_FETCH_TIMEOUT_SECONDS" CAMOUFOX.(cx_fetch_timeout) in
  warn_once_per_condition camoufox_fetch_timeout_below_navigation camoufox_fetch_timeout_above_acquire
    (camoufox_check CAMOUFOX cx_fetch cx_launch cx_nav acquire) ;;;
  let! n_workers := safe_workers (default "1" (environ "KERDOOS_WORKERS")) in
  let! port := env_int "KERDOOS_SMTP_PORT" DEFAULT_SMTP_PORT (between 1 65535) in
  let! timeout := env_number "KERDOOS_SMTP_TIMEOUT_SECONDS" (seconds DEFAULT_SMTP_TIMEOUT_SECONDS)
                    to_float (λ _, true) in
  let! retries := env_int "KERDOOS_SMTP_RETRY_ATTEMPTS" DEFAULT_SMTP_RETRY_ATTEMPTS
                    (between 0 MAX_SMTP_RETRY_ATTEMPTS) in
  let! backoff := env_number "KERDOOS_SMTP_RETRY_BACKOFF_SECONDS" (seconds DEFAULT_SMTP_RETRY_BACKOFF_SECONDS)
                    to_float (sle (seconds MIN_SMTP_RETRY_BACKOFF_SECONDS)) in
  let! reaper := env_int "KERDOOS_DIGEST_REAPER_TIMEOUT_SECONDS" DEFAULT_DIGEST_REAPER_TIMEOUT_SECONDS (at_least 1) in
  let! concurrent := env_int "KERDOOS_BROWSER_MAX_CONCURRENT" DEFAULT_BROWSER_MAX_CONCURRENT (at_least 1) in
  let! restarts := env_int "KERDOOS_RUN_QUEUE_MAX_RESTARTS" DEFAULT_RUN_QUEUE_MAX_RESTARTS (at_least 0) in
  let! backlog := env_int "KERDOOS_RUN_QUEUE_BACKLOG_WARN_THRESHOLD" DEFAULT_RUN_QUEUE_BACKLOG_WARN_THRESHOLD
                    (at_least 0) in
  let! cooldown := env_number "KERDOOS_RUN_NOW_COOLDOWN_SECONDS" (seconds DEFAULT_RUN_NOW_COOLDOWN_SECONDS)
                     to_float (sle (Secs 0)) in
  let! window := env_seconds "KERDOOS_LOGIN_RATE_LIMIT_WINDOW_SECONDS"
                   (seconds DEFAULT_LOGIN_RATE_LIMIT_WINDOW_SECONDS) in
  let! login_attempts := env_int "KERDOOS_LOGIN_RATE_LIMIT_MAX_ATTEMPTS" DEFAULT_LOGIN_RATE_LIMIT_MAX_ATTEMPTS
                           (at_least 0) in
  let! row_cap := env_int "KERDOOS_LOGIN_RATE_LIMIT_ROW_CAP" DEFAULT_LOGIN_RATE_LIMIT_ROW_CAP (at_least 1) in
  let! cx_abandoned := env_int "KERDOOS_CAMOUFOX_MAX_ABANDONED_FETCHES" CAMOUFOX.(cx_max_abandoned) (at_least 1) in
  let! sessions := env_int "KERDOOS_MCP_MAX_SESSIONS" DEFAULT_MCP_MAX_SESSIONS (at_least 1) in
  let! idle := env_number "KERDOOS_MCP_SESSION_IDLE_TIMEOUT_SECONDS"
                 (seconds DEFAULT_MCP_SESSION_IDLE_TIMEOUT_SECONDS) to_float
                 (λ v, positive v && slt v (SInf false)) in
  mret' {|
    session_secret := environ "KERDOOS_SESSION_SECRET";
    config_db := default "config.db" (environ "KERDOOS_CONFIG_DB");
    state_db := default "state.db" (environ "KERDOOS_STATE_DB");
    cookie_secure := negb (bool_decide (lowered "KERDOOS_COOKIE_SECURE" "true" = "false"));
    workers := n_workers;
    digest_evaluator_enabled := bool_decide (lowered "KERDOOS_DIGEST_EVALUATOR_ENABLED" "false" = "true");
    smtp_host_setting := text "KERDOOS_SMTP_HOST";
    smtp_port_setting := port;
    smtp_from := text "KERDOOS_SMTP_FROM";
    smtp_username := text "KERDOOS_SMTP_USERNAME";
    smtp_password := text "KERDOOS_SMTP_PASSWORD";
    smtp_use_tls := negb (bool_decide (lowered "KERDOOS_SMTP_USE_TLS" "true" = "false"));
    smtp_timeout_seconds := timeout;
    smtp_retry_attempts := retries;
    smtp_retry_backoff_seconds := backoff;
    digest_reaper_timeout_seconds := reaper;
    browser_max_concurrent := concurrent;
    browser_acquire_timeout_seconds := acquire;
    run_queue_max_restarts := restarts;
    run_queue_backlog_warn_threshold := backlog;
    run_now_cooldown_seconds := cooldown;
    uc_launch_timeout_seconds := uc_launch;
    browser_launch_timeout_seconds := browser_launch;
    login_rate_limit_window_seconds := window;
    login_rate_limit_max_attempts := login_attempts;
    login_rate_limit_row_cap := row_cap;
    uc_orphan_sweep_delay_seconds := sweep;
    browser_fetch_timeout_seconds := browser_fetch;
    browser_max_abandoned_fetches := browser_abandoned;
    uc_fetch_timeout_seconds := uc_fetch;
    camoufox_launch_timeout_seconds := cx_launch;
    camoufox_nav_timeout_seconds := cx_nav;
    camoufox_fetch_timeout_seconds := cx_fetch;
    camoufox_max_abandoned_fetches := cx_abandoned;
    mcp_enabled := bool_decide (lowered "KERDOOS_MCP_ENABLED" "false" = "true");
    public_url := text "KERDOOS_PUBLIC_URL";
    mcp_allowed_hosts := allowed_hosts (default "" (environ "KERDOOS_MCP_ALLOWED_HOSTS"));
    mcp_max_sessions := sessions;
    mcp_session_idle_timeout_seconds := idle;
  |}.
End Env.

(** What [build_sender] reads of the settings. *)
Definition mail_settings (s : Settings) : MailSettings :=
  {| m_host := s.(smtp_host_setting); m_port := s.(smtp_port_setting); m_from := s.(smtp_from);
     m_username := s.(smtp_username); m_password := s.(smtp_password); m_use_tls := s.(smtp_use_tls);
     m_timeout := s.(smtp_timeout_seconds); m_retry_attempts := s.(smtp_retry_attempts);
     m_retry_backoff := s.(smtp_retry_backoff_seconds);
     m_reaper_timeout := s.(digest_reaper_timeout_seconds) |}.

(** * Every setting is usable *)

(** [m] answers with a value of [P], or raises an exception of [bad]. *)
Definition gives_or {A} (bad : exn → Prop) (m : Prelude.M Boot A) (P : A → Prop) : Prop :=
  ∀ b, match (m b).1 with Ok v => P v | Raise e => bad e end.

Section Gives.
Context {bad : exn → Prop}.
Notation gives := (gives_or bad).

Lemma gives_ret {A} (v : A) (P : A → Prop) : P v → gives (mret' v) P.
Proof. by intros Hv b. Qed.

Lemma gives_bind {A B} (m : Prelude.M Boot A) (k : A → Prelude.M Boot B) (P : A → Prop) (Q : B → Prop) :
  gives m P → (∀ v, P v → gives (k v) Q) → gives (mbind' m k) Q.
Proof.
  intros Hm Hk b. specialize (Hm b). unfold mbind'.
  destruct (m b) as [[v | e] b']; [by apply Hk | exact Hm].
Qed.

Lemma gives_then {A} w (m : Prelude.M Boot A) P : gives m P → gives (warn w ;;; m) P.
Proof. intros Hm b. apply Hm. Qed.

Lemma gives_warn_latched l : gives (warn_latched l) (λ _, True).
Proof.
  intros b. unfold warn_latched, mgets, mbind'. by destruct (is_fired l b).
Qed.

Lemma gives_warn_all nav gate ws : gives (warn_once_per_condition nav gate ws) (λ _, True).
Proof.
  unfold warn_once_per_condition. induction ws as [| w ws IH]; [by apply gives_ret |].
  cbn [mfor]. eapply gives_bind; [apply gives_warn_latched |]. intros _ _. exact IH.
Qed.

Lemma gives_warn_uc a b : gives (warn_uc_launch a b) (λ _, True).
Proof. unfold warn_uc_launch. destruct (sle b a); [apply gives_warn_latched | by apply gives_ret]. Qed.

(** A cast that fails only with ValueError, as [int] and [float] do. *)
Definition value_errors {A} (cast : string → result A) : Prop :=
  ∀ raw e, cast raw = Raise e → is_a e.(exn_class) ValueError = true.

Lemma gives_env_number environ {A} name (d : A) cast valid :
  value_errors cast → valid d = true → gives (env_number environ name d cast valid) (λ v, valid v = true).
Proof.
  intros Hc Hd. unfold env_number. destruct (environ name) as [raw |]; [| by apply gives_ret].
  destruct (cast raw) as [v | e] eqn:E.
  - destruct (valid v) eqn:Ev; [by apply gives_ret | by apply gives_then, gives_ret].
  - rewrite (Hc _ _ E). by apply gives_then, gives_ret.
Qed.

Lemma gives_sweep sweep launch acquire :
  positive sweep = true →
  gives (safe_uc_orphan_sweep_delay sweep launch acquire) (λ v,
    positive v = true
    ∧ ∀ a l, acquire = Secs a → launch = Secs l → l + 100000 < a → slt (sadd launch v) acquire = true).
Proof.
  intros Hs. unfold safe_uc_orphan_sweep_delay.
  destruct (slt (sadd launch sweep) acquire) eqn:E; [by apply gives_ret |].
  set (c := smax _ _).
  assert (positive c = true ∧ ∀ a l, acquire = Secs a → launch = Secs l → l + 100000 < a →
            slt (sadd launch c) acquire = true) as Hc.
  { split; [by apply slt_smax_l |]. intros a l -> -> Hl. unfold c, ssub, smax. cbn [sadd sneg shalf slt].
    pose proof (Z.div_lt (a + - l) 2 ltac:(lia) ltac:(lia)).
    destruct (Z.ltb_spec 100000 ((a + - l) / 2)); cbn; apply Z.ltb_lt; lia. }
  destruct (sle acquire launch); [by apply gives_ret | by apply gives_then, gives_ret].
Qed.

Lemma gives_workers raw :
  (4300 < Z.of_nat (length (chars raw)) → fullmatch WORKERS_GRAMMAR (chars raw) = true →
     bad (Exn ValueError "Exceeds the limit")) →
  gives (safe_workers raw) (λ v, 1 <= v
    ∧ ¬ (4300 < Z.of_nat (length (chars raw)) ∧ fullmatch WORKERS_GRAMMAR (chars raw) = true)).
Proof.
  intros He. unfold safe_workers. destruct (fullmatch _ _) eqn:Em; cbn [negb].
  2: { apply gives_then, gives_ret. split; [unfold DEFAULT_WORKERS; lia | by intros []]. }
  pose proof Em as [_ Hd%Pages.all_digits]%fullmatch_lang%Pages.lang_many1.
  destruct (Pages.number_Some _ Hd) as [n Hn]. unfold int_of. rewrite Hn.
  destruct (Z.ltb_spec 4300 (Z.of_nat (length (chars raw)))); intros b; unfold mbind', mlift; [by apply He |].
  destruct (Z.leb_spec n 0); cbn; (split; [unfold DEFAULT_WORKERS in *; lia | lia]).
Qed.
End Gives.

(** What every settings value satisfies. *)
Record settings_ok (s : Settings) : Prop := {
  ok_workers : 1 <= s.(workers);
  ok_port : 1 <= s.(smtp_port_setting) <= 65535;
  ok_retries : 0 <= s.(smtp_retry_attempts) <= MAX_SMTP_RETRY_ATTEMPTS;
  ok_backoff : sle (seconds MIN_SMTP_RETRY_BACKOFF_SECONDS) s.(smtp_retry_backoff_seconds) = true;
  ok_reaper : 1 <= s.(digest_reaper_timeout_seconds);
  ok_concurrent : 1 <= s.(browser_max_concurrent);
  ok_counts : 0 <= s.(run_queue_max_restarts) ∧ 0 <= s.(run_queue_backlog_warn_threshold)
    ∧ 0 <= s.(login_rate_limit_max_attempts);
  ok_ceilings : 1 <= s.(login_rate_limit_row_cap) ∧ 1 <= s.(browser_max_abandoned_fetches)
    ∧ 1 <= s.(camoufox_max_abandoned_fetches) ∧ 1 <= s.(mcp_max_sessions);
  ok_cooldown : sle (Secs 0) s.(run_now_cooldown_seconds) = true;
  ok_timeouts : Forall (λ t, positive t = true)
    [s.(browser_acquire_timeout_seconds); s.(uc_launch_timeout_seconds); s.(browser_launch_timeout_seconds);
     s.(login_rate_limit_window_seconds); s.(uc_orphan_sweep_delay_seconds); s.(browser_fetch_timeout_seconds);
     s.(uc_fetch_timeout_seconds); s.(camoufox_launch_timeout_seconds); s.(camoufox_nav_timeout_seconds);
     s.(camoufox_fetch_timeout_seconds); s.(mcp_session_idle_timeout_seconds)];
  ok_idle : finite s.(mcp_session_idle_timeout_seconds);
  ok_hosts : "" ∉ s.(mcp_allowed_hosts);
  ok_sweep : ∀ a l, s.(browser_acquire_timeout_seconds) = Secs a → s.(uc_launch_timeout_seconds) = Secs l →
    l + 100000 < a → slt (sadd (Secs l) s.(uc_orphan_sweep_delay_seconds)) (Secs a) = true;
}.

Lemma idle_finite v : positive v && slt v (SInf false) = true → positive v = true ∧ finite v.
Proof.
  intros [Hp Hi]%andb_true_iff. split; [done |].
  destruct (slt_zero _ Hp) as [-> | (us & -> & _)]; [done | by exists us].
Qed.

Section Total.
Context (environ : string → option string) (to_int : string → result Z) (to_float : string → result secs).
Context (Hint : value_errors to_int) (Hfloat : value_errors to_float).

(** KERDOOS_WORKERS has the digits of a number, but more than [int] reads. *)
Definition too_many_digits : Prop :=
  ∃ raw, environ "KERDOOS_WORKERS" = Some raw
    ∧ 4300 < Z.of_nat (length (chars raw)) ∧ fullmatch WORKERS_GRAMMAR (chars raw) = true.

Notation gives := (gives_or (λ e, exn_class e = ValueError ∧ too_many_digits)).

Lemma gives_seconds name d : positive d = true → gives (env_seconds environ to_float name d) (λ v, positive v = true).
Proof using Hfloat. intros Hd. by apply gives_env_number. Qed.

Lemma gives_int name d valid : valid d = true → gives (env_int environ to_int name d valid) (λ v, valid v = true).
Proof using Hint. intros Hd. by apply gives_env_number. Qed.

Ltac next := eapply gives_bind;
  [first [apply gives_seconds; reflexivity | apply gives_int; reflexivity | apply gives_warn_uc
         | apply gives_warn_all | apply gives_env_number; [exact Hfloat | reflexivity]] |];
  let v := fresh "v" in let H := fresh "H" in intros v H; cbv beta in H.

Lemma get_settings_gives :
  gives (get_settings environ to_int to_float) (λ s, settings_ok s ∧ ¬ too_many_digits).
Proof using Hint Hfloat.
  unfold get_settings. do 8 next. eapply gives_bind; [by apply gives_sweep |]. intros sweep [Hsp Hsw].
  do 6 next.
  eapply gives_bind.
  { apply gives_workers. destruct (environ "KERDOOS_WORKERS") as [raw |] eqn:E.
    - intros Hl Hg. split; [done |]. by exists raw.
    - intros Hl _. by vm_compute in Hl. }
  intros n [Hn Hd]. do 15 next. apply gives_ret. split.
  2: { intros (raw & Eraw & Hlong & Hgram). rewrite Eraw in Hd. by apply Hd. }
  unfold at_least, between in *. rewrite ?andb_true_iff, ?Z.leb_le in *.
  match goal with Hi : positive ?x = true ∧ slt ?x (SInf false) = true |- _ =>
    apply andb_true_iff, idle_finite in Hi as [? ?] end.
  constructor; cbn [workers smtp_port_setting smtp_retry_attempts smtp_retry_backoff_seconds
    digest_reaper_timeout_seconds browser_max_concurrent run_queue_max_restarts
    run_queue_backlog_warn_threshold login_rate_limit_max_attempts login_rate_limit_row_cap
    browser_max_abandoned_fetches camoufox_max_abandoned_fetches mcp_max_sessions run_now_cooldown_seconds
    browser_acquire_timeout_seconds uc_launch_timeout_seconds browser_launch_timeout_seconds
    login_rate_limit_window_seconds uc_orphan_sweep_delay_seconds browser_fetch_timeout_seconds
    uc_fetch_timeout_seconds camoufox_launch_timeout_seconds camoufox_nav_timeout_seconds
    camoufox_fetch_timeout_seconds mcp_session_idle_timeout_seconds mcp_allowed_hosts];
    try done; try (split_and!; lia); try lia.
  - by repeat constructor.
  - unfold allowed_hosts. by intros [? _]%list_elem_of_filter.
  - intros a l -> ->. by apply Hsw.
Qed.
End Total.

(** C40: what reading the settings does under every environment.  Unless
    KERDOOS_WORKERS is a number of more than 4300 digits, it returns, and every
    setting is in range: positive timeouts, ceilings and counts, a mail port, at
    most five retries at least one second apart, a finite idle timeout, no empty
    host name, and a sweep delay that keeps a timed-out launch from holding the
    browser gate as long as its callers wait, whenever the two timeouts leave a
    tenth of a second.  Such a number, which Python's [int] refuses, is the only
    thing that makes it raise, and it does: a ValueError. *)
Theorem settings_always_usable environ to_int to_float b :
  value_errors to_int → value_errors to_float →
  match (get_settings environ to_int to_float b).1 with
  | Ok s => settings_ok s ∧ ¬ too_many_digits environ
  | Raise e => exn_class e = ValueError ∧ too_many_digits environ
  end.
Proof. intros Hi Hf. by apply get_settings_gives. Qed.

(** the mail settings fit together.  The sender built from the settings of
    any environment has a socket timeout and a send deadline that are positive
    and strictly inside the reaper's window, makes at most five retries, and
    waits at least one second before each. *)
Theorem mail_settings_ordered environ to_int to_float b s b' smtp :
  value_errors to_int → value_errors to_float →
  get_settings environ to_int to_float b = (Ok s, b') →
  build_sender (mail_settings s) = SmtpSender smtp →
  let reaper := s.(digest_reaper_timeout_seconds) * SECOND in
  0 < smtp.(timeout) < reaper ∧ 0 < smtp.(send_deadline) < reaper
  ∧ 0 <= smtp.(retry_attempts) <= 5 ∧ sle (seconds 1) smtp.(retry_backoff) = true.
Proof.
  intros Hi Hf E Hb reaper.
  pose proof (get_settings_gives environ to_int to_float Hi Hf b) as Hok. rewrite E in Hok.
  destruct Hok as [Hok _].
  destruct (build_sender_timeouts _ _ Hb (ok_reaper _ Hok)) as (Ht & Hd & _).
  unfold build_sender in Hb. destruct (m_host _); [| done]. destruct (m_from _); [| done].
  destruct (negb _); [done |]. destruct (negb _); [done |]. injection Hb as <-.
  cbn [retry_attempts retry_backoff mail_settings m_retry_attempts m_retry_backoff].
  split_and!; try apply Ht; try apply Hd; [apply (ok_retries _ Hok) .. | apply (ok_backoff _ Hok)].
Qed.

(** ** One warning per process *)

Definition latched_once (b : Boot) : Prop :=
  ∀ l, length (filter (λ w, w = Latched l) b.(logged)) = if is_fired l b then 1%nat else 0%nat.

Lemma pres_warn_other w : (∀ l, w ≠ Latched l) → pres latched_once (warn w).
Proof.
  intros Hw b Hb l. cbn. rewrite filter_app, filter_cons_False, length_app by (by apply Hw).
  specialize (Hb l). unfold is_fired in *. cbn in *. lia.
Qed.

Lemma pres_warn_latched l : pres latched_once (warn_latched l).
Proof.
  intros b Hb l'. unfold warn_latched, mgets, mbind'. destruct (is_fired l b) eqn:E; [exact (Hb l') |].
  cbn. rewrite filter_app, length_app. specialize (Hb l'). unfold is_fired in *. cbn [fired].
  apply bool_decide_eq_false in E. destruct (decide (l = l')) as [<- | Hl].
  - rewrite bool_decide_eq_false_2 in Hb by done. rewrite Hb, filter_cons_True by done.
    by rewrite bool_decide_eq_true_2 by (by left).
  - rewrite Hb, filter_cons_False by (by intros [= ->]). cbn. rewrite Nat.add_0_r.
    rewrite (bool_decide_ext (l' ∈ l :: fired b) (l' ∈ fired b)); [done |].
    rewrite elem_of_cons. naive_solver.
Qed.

Lemma pres_env_number environ {A} name (d : A) cast valid :
  pres latched_once (env_number environ name d cast valid).
Proof.
  unfold env_number. repeat case_match; try apply pres_ret; try apply pres_raise;
    (apply pres_bind; [by apply pres_warn_other | intros; apply pres_ret]).
Qed.

Lemma pres_warn_all nav gate ws : pres latched_once (warn_once_per_condition nav gate ws).
Proof. apply pres_for. intros w. apply pres_warn_latched. Qed.

Lemma pres_rest :
  (∀ a b, pres latched_once (warn_uc_launch a b))
  ∧ (∀ a b c, pres latched_once (safe_uc_orphan_sweep_delay a b c))
  ∧ (∀ raw, pres latched_once (safe_workers raw)).
Proof.
  split_and!; intros.
  - unfold warn_uc_launch. case_match; [apply pres_warn_latched | apply pres_ret].
  - unfold safe_uc_orphan_sweep_delay. repeat case_match; try apply pres_ret.
    apply pres_bind; [by apply pres_warn_other | intros; apply pres_ret].
  - unfold safe_workers. repeat case_match; apply pres_bind;
      try (by apply pres_warn_other); try apply pres_lift; intros; try apply pres_ret.
    case_match; [apply pres_bind; [by apply pres_warn_other | intros; apply pres_ret] | apply pres_ret].
Qed.

Lemma pres_get_settings environ to_int to_float : pres latched_once (get_settings environ to_int to_float).
Proof.
  destruct pres_rest as (H1 & H2 & H3). unfold get_settings, env_seconds, env_int.
  repeat (apply pres_bind; [first [apply pres_env_number | apply pres_warn_all | apply H1 | apply H2 | apply H3] | intros ?]).
  apply pres_ret.
Qed.

(** The settings read again and again, under changing environments. *)
Definition read_settings (environs : list (string → option string)) to_int to_float (b : Boot) : Boot :=
  foldl (λ b environ, (get_settings environ to_int to_float b).2) b environs.

(** a budget out of order is reported once.  However often the settings are
    read, and under whatever environments, each of the seven budget warnings is
    logged at most once in the life of the process. *)
Theorem budget_warned_once environs to_int to_float l :
  (length (filter (λ w, w = Latched l)
     (read_settings environs to_int to_float {| logged := []; fired := [] |}).(logged)) ≤ 1)%nat.
Proof.
  assert (∀ b, latched_once b → latched_once (read_settings environs to_int to_float b)) as Hall.
  { unfold read_settings. induction environs as [| e es IH]; intros b Hb; cbn [foldl]; [done |].
    apply IH. by apply pres_get_settings. }
  rewrite (Hall {| logged := []; fired := [] |}); [| by intros l']. by destruct (is_fired _ _); lia.
Qed.

(** ** Examples *)

Module SettingsDemo.
Definition to_int (s : string) : result Z := int_of (chars s).
Definition to_float (s : string) : result secs := let? n := to_int s in Ok (seconds n).

Lemma casts_ok : value_errors to_int ∧ value_errors to_float.
Proof.
  assert (value_errors to_int) as Hi.
  { intros raw e. unfold to_int, int_of. repeat case_match; by intros [= <-]. }
  split; [done |]. intros raw e. unfold to_float. destruct (to_int raw) eqn:E; [done |].
  intros [= <-]. by eapply Hi.
Qed.

Definition environ (name : string) : option string :=
  od_get name [("KERDOOS_WORKERS", "two"); ("KERDOOS_SMTP_HOST", "relay.example");
               ("KERDOOS_SMTP_FROM", "k@example.com"); ("KERDOOS_SMTP_RETRY_ATTEMPTS", "900");
               ("KERDOOS_SMTP_TIMEOUT_SECONDS", "0"); ("KERDOOS_BROWSER_FETCH_TIMEOUT_SECONDS", "130")].

Definition boot : Boot := {| logged := []; fired := [] |}.
End SettingsDemo.

(** Unset variables take their defaults, without a warning. *)
Example defaults_are_silent :
  (get_settings (λ _, None) SettingsDemo.to_int SettingsDemo.to_float SettingsDemo.boot).2 = SettingsDemo.boot.
Proof. vm_compute. reflexivity. Qed.

(** Bad values are reported and replaced. *)
Example bad_values_are_reported :
  (get_settings SettingsDemo.environ SettingsDemo.to_int SettingsDemo.to_float SettingsDemo.boot).2.(logged)
  = [Latched browser_fetch_timeout_above_acquire; BadWorkers "two";
     FailedValidation "KERDOOS_SMTP_RETRY_ATTEMPTS" "900"].
Proof. vm_compute. reflexivity. Qed.

(** Within a tenth of a second of the acquire timeout the clamped delay is not
    a safe one: 29.95 + 0.1 seconds is past 30. *)
Example clamped_delay_too_long :
  (safe_uc_orphan_sweep_delay (seconds 5) (Secs 29950000) (seconds 30) SettingsDemo.boot).1 = Ok (Secs 100000)
  ∧ slt (sadd (Secs 29950000) (Secs 100000)) (seconds 30) = false.
Proof. vm_compute. split; reflexivity. Qed.

(** More digits than [int] reads make reading the settings raise. *)
Example workers_of_5000_digits :
  (safe_workers (of_chars (repeat "1"%char 5000)) SettingsDemo.boot).1 = raise ValueError "Exceeds the limit".
Proof. vm_compute. reflexivity. Qed.

Lemma settings_always_usable_witness :
  let read environ := (get_settings environ SettingsDemo.to_int SettingsDemo.to_float SettingsDemo.boot).1 in
  (∃ s, read SettingsDemo.environ = Ok s ∧ settings_ok s ∧ s.(workers) = 1 ∧ s.(smtp_retry_attempts) = 2)
  ∧ let digits := of_chars (repeat "1"%char 5000) in
    ∃ e, read (λ name, if bool_decide (name = "KERDOOS_WORKERS") then Some digits else None) = Raise e
         ∧ exn_class e = ValueError.
Proof.
  intros read.
  pose proof (λ environ, settings_always_usable environ SettingsDemo.to_int SettingsDemo.to_float
    SettingsDemo.boot (proj1 SettingsDemo.casts_ok) (proj2 SettingsDemo.casts_ok)) as H.
  split.
  - specialize (H SettingsDemo.environ). fold (read SettingsDemo.environ) in H.
    destruct (read SettingsDemo.environ) as [s | e] eqn:E; [| vm_compute in E; discriminate].
    exists s. split_and!; [done | apply H | |]; vm_compute in E; by injection E as <-.
  - intros digits. set (environ := λ name : string, if bool_decide _ then _ else _). specialize (H environ). fold (read environ) in H.
    destruct (read environ) as [s | e] eqn:E; [exfalso | exists e; split; [done | apply H]].
    apply (proj2 H). exists digits. split_and!; by vm_compute.
Defined.

Lemma mail_settings_ordered_witness :
  ∃ s b' smtp,
    get_settings SettingsDemo.environ SettingsDemo.to_int SettingsDemo.to_float SettingsDemo.boot = (Ok s, b')
    ∧ build_sender (mail_settings s) = SmtpSender smtp ∧ 0 <= smtp.(retry_attempts) <= 5
    ∧ smtp.(timeout) = 150 * SECOND.
Proof.
  destruct (get_settings SettingsDemo.environ SettingsDemo.to_int SettingsDemo.to_float SettingsDemo.boot)
    as [[s | e] b'] eqn:E; [| vm_compute in E; discriminate].
  destruct (build_sender (mail_settings s)) as [| smtp] eqn:Es;
    [vm_compute in E; injection E as <- <-; vm_compute in Es; discriminate |].
  exists s, b', smtp. split; [done | split; [done | split]].
  - exact (proj1 (proj2 (proj2 (mail_settings_ordered _ _ _ _ _ _ _ (proj1 SettingsDemo.casts_ok)
      (proj2 SettingsDemo.casts_ok) E Es)))).
  - vm_compute in E. injection E as <- <-. vm_compute in Es. by injection Es as <-.
Defined.
