(* ===== verification/Notices.v ===== *)
(** The wording of the budget warnings ([kerdoos/config.py]): each a template
    with its arguments, as [logging] takes them. *)

From S2P Require Import Prelude Seconds Fetchers Settings.

(** An argument of a template. *)
Inductive arg := Duration (s : secs) | Number (n : Z).

Definition Message : Type := string * list arg.

(** [_terms(terms)[name]]: in a dictionary the last one wins. *)
Definition term_of (terms : list BudgetTerm) (name : string) : result BudgetTerm :=
  match list_find (λ t, t.(term_name) = name) (reverse terms) with
  | Some (_, t) => Ok t
  | None => raise KeyError name
  end.

Definition browser_budget_message (warning : BudgetWarning) : result Message :=
  match warning with
  | NavigationWarning fetch_timeout floor terms =>
      let? launch := term_of terms "launch_timeout_seconds" in
      let? nav := term_of terms "nav_timeout_seconds" in
      Ok ("KERDOOS_BROWSER_FETCH_TIMEOUT_SECONDS=%s is not above the "
          +:+ "browser tier's own launch (%.1fs) + navigation (%.1fs) budget "
          +:+ "(%.1fs) -- a fetch could be abandoned before the launch or "
          +:+ "navigation timeout it wraps ever gets a chance to fire.",
          [Duration fetch_timeout; Duration launch.(term_seconds); Duration nav.(term_seconds); Duration floor])
  | GateWarning fetch_timeout acquire_timeout _ _ _ =>
      Ok ("KERDOOS_BROWSER_FETCH_TIMEOUT_SECONDS=%s is not below "
          +:+ "KERDOOS_BROWSER_ACQUIRE_TIMEOUT_SECONDS=%s -- another caller "
          +:+ "waiting for the browser gate could time out its own wait "
          +:+ "before this fetch ever abandons its stuck launch and frees "
          +:+ "the gate.",
          [Duration fetch_timeout; Duration acquire_timeout])
  end.

Definition uc_budget_message (warning : BudgetWarning) : result Message :=
  match warning with
  | NavigationWarning fetch_timeout floor terms =>
      let? page_load := term_of terms "page_load_timeout_seconds" in
      let? reconnect := term_of terms "reconnect_time" in
      let? render := term_of terms "render_wait" in
      Ok ("KERDOOS_UC_FETCH_TIMEOUT_SECONDS=%s is not above the uc tier's "
          +:+ "own page-load (%.1fs) + reconnect (%.1fs) + render (%.1fs) "
          +:+ "budget (%.1fs) -- a fetch could be abandoned before the "
          +:+ "navigation timeout it wraps ever gets a chance to fire.",
          [Duration fetch_timeout; Duration page_load.(term_seconds); Duration reconnect.(term_seconds);
           Duration render.(term_seconds); Duration floor])
  | GateWarning fetch_timeout acquire_timeout cleanup held terms =>
      let? kill_wait := term_of terms "kill_wait_seconds" in
      let? sweep := term_of terms "orphan_sweep_delay_seconds" in
      Ok ("KERDOOS_UC_FETCH_TIMEOUT_SECONDS=%s plus the post-navigation "
          +:+ "cleanup it triggers (%.1fs: %d confirmed-death waits of %.1fs "
          +:+ "plus the late sweep's %ss ceiling) would hold the browser gate "
          +:+ "for %.1fs, at or past KERDOOS_BROWSER_ACQUIRE_TIMEOUT_SECONDS="
          +:+ "%s -- another caller waiting for that gate could time out its "
          +:+ "own wait before this one ever frees it.",
          [Duration fetch_timeout; Duration cleanup; Number kill_wait.(term_count);
           Duration kill_wait.(term_seconds); Duration sweep.(term_seconds); Duration held;
           Duration acquire_timeout])
  end.

Definition camoufox_budget_message (warning : BudgetWarning) : result Message :=
  match warning with
  | NavigationWarning fetch_timeout floor terms =>
      let? launch := term_of terms "launch_timeout_seconds" in
      let? nav := term_of terms "nav_timeout_seconds" in
      Ok ("KERDOOS_CAMOUFOX_FETCH_TIMEOUT_SECONDS=%s is not above the "
          +:+ "camoufox tier's launch (%.1fs) + navigation (%.1fs) budget "
          +:+ "(%.1fs) -- a fetch could be abandoned before the timeout it "
          +:+ "wraps ever gets a chance to fire.",
          [Duration fetch_timeout; Duration launch.(term_seconds); Duration nav.(term_seconds); Duration floor])
  | GateWarning fetch_timeout acquire_timeout cleanup held terms =>
      let? kill_wait := term_of terms "kill_wait_seconds" in
      let? sweep := term_of terms "late_sweep_seconds" in
      Ok ("KERDOOS_CAMOUFOX_FETCH_TIMEOUT_SECONDS=%s plus the cleanup it "
          +:+ "triggers (%.1fs: two confirmed-death waits of %.1fs plus the "
          +:+ "late sweep's %.1fs grace) would hold the browser gate for "
          +:+ "%.1fs, at or past KERDOOS_BROWSER_ACQUIRE_TIMEOUT_SECONDS=%s -- "
          +:+ "another caller waiting for that gate could time out its own "
          +:+ "wait before this one ever frees it.",
          [Duration fetch_timeout; Duration cleanup; Duration kill_wait.(term_seconds);
           Duration sweep.(term_seconds); Duration held; Duration acquire_timeout])
  end.

(** * What they say *)

(** The conversions of a template, one percent sign each. *)
Definition placeholders (template : string) : nat := length (filter (λ c, c = "%"%char) (chars template)).

Definition durations (args : list arg) : list secs :=
  omap (λ a, match a with Duration s => Some s | Number _ => None end) args.

(** A message can be written: one argument per conversion. *)
Definition writable (m : Message) : Prop := placeholders m.1 = length m.2.

(** Every warning the budget checks give can be written: no term is missing
    from it and the template takes as many arguments as it gets; and the sums
    it names are those of the figures beside them: the floor of a navigation
    warning, and the cleanup and the time a gate warning says the gate is
    held. *)
Theorem budget_warnings_written (b : BrowserBudget) (u : UcBudget) (c : CamoufoxBudget)
    (fetch launch nav sweep acquire : secs) :
  (∀ w, w ∈ browser_check b fetch launch acquire →
     ∃ m, browser_budget_message w = Ok m ∧ writable m
       ∧ (∀ f floor ts, w = NavigationWarning f floor ts →
            ∃ l n, durations m.2 = [fetch; l; n; floor] ∧ floor = sadd (sadd (Secs 0) (stimes 1 l)) (stimes 1 n)))
  ∧ (∀ w, w ∈ uc_check u fetch sweep acquire →
     ∃ m, uc_budget_message w = Ok m ∧ writable m
       ∧ (∀ f a cleanup held ts, w = GateWarning f a cleanup held ts →
            ∃ k wait s, m.2 = [Duration fetch; Duration cleanup; Number k; Duration wait; Duration s;
                               Duration held; Duration acquire]
              ∧ cleanup = sadd (sadd (Secs 0) (stimes k wait)) (stimes 1 s) ∧ held = sadd fetch cleanup))
  ∧ (∀ w, w ∈ camoufox_check c fetch launch nav acquire →
     ∃ m, camoufox_budget_message w = Ok m ∧ writable m
       ∧ (∀ f a cleanup held ts, w = GateWarning f a cleanup held ts →
            ∃ wait s, durations m.2 = [fetch; cleanup; wait; s; held; acquire]
              ∧ cleanup = sadd (sadd (Secs 0) (stimes 2 wait)) (stimes 1 s) ∧ held = sadd fetch cleanup)).
Proof.
  unfold browser_check, uc_check, camoufox_check, check_budget. split_and!.
  all: intros w Hw; apply elem_of_app in Hw as [Hw | Hw].
  all: match type of Hw with _ ∈ (if ?x then _ else _) => destruct x; [| by apply elem_of_nil in Hw] end.
  all: apply list_elem_of_singleton in Hw as ->; eexists; split; [reflexivity |]; split; [reflexivity |].
  all: intros; simplify_eq; do 3 (try eexists); eauto.
Qed.
