(* ===== verification/BrowserGate.v ===== *)
(** The browser gate ([autolycos/browser_gate.py]): the in-process semaphore
    and the cross-process lock files that bound how many browsers run.

    Any number of threads of any number of processes call [acquire] and leave
    the [with] block in any order.  A thread is between two system calls; one
    [event] is one system call of one thread (or the clock, or the death of a
    process), and [step] computes what it does to the system.  The semaphores
    belong to the processes, the [flock] table to the machine: an advisory lock
    belongs to the open file, so two threads of one process exclude each other
    too, and dies with it.  Time is in milliseconds. *)

From S2P Require Import Prelude.

(** * The gate object *)

Definition POLL_INTERVAL : Z := 50.

(** What [__init__] sets; [slot_paths] is [None] without a lock directory or
    without [fcntl]. *)
Record BrowserGate := {
  max_concurrent : Z;
  slot_paths : option (list string);
  acquire_timeout : option Z;
}.

(** [lock_path / f"browser-slot-{i}.lock"]. *)
Definition slot_path (dir : string) (i : nat) : string :=
  dir +:+ "/browser-slot-" +:+ pretty i +:+ ".lock".

Definition new_gate (has_fcntl : bool) (max : Z) (lock_dir : option string) (timeout : option Z)
    : result BrowserGate :=
  if max <? 1 then raise ValueError "max_concurrent must be >= 1"
  else Ok {| max_concurrent := max;
             slot_paths :=
               match lock_dir with
               | None => None
               | Some dir => if has_fcntl then Some (slot_path dir <$> seq 0 (Z.to_nat max)) else None
               end;
             acquire_timeout := timeout |}.

(** [default_browser_gate]: the gate, the module's singleton afterwards, and
    whether the warning is logged. *)
Definition default_browser_gate (singleton : option BrowserGate)
    : BrowserGate * option BrowserGate * bool :=
  match singleton with
  | Some g => (g, singleton, false)
  | None => let g := {| max_concurrent := 1; slot_paths := None; acquire_timeout := None |} in
            (g, Some g, true)
  end.

(** * The system *)

(** Where a thread is: outside of the gate (no entry), blocked in
    [semaphore.acquire], in [_acquire_slot] about to open the next path of the
    pass or asleep between two passes, or inside the [with] block. *)
Inductive Phase :=
| Waiting (until : option Z)
| Probing (deadline : option Z) (rest : list string)
| Sleeping (deadline : option Z) (wake : Z)
| Holding (slot : option string).

Record System := {
  now : Z;
  permits : nat → Z;             (* the semaphore of each process *)
  phase : gmap nat Phase;        (* by thread *)
  locks : gmap string nat;       (* the flock table: path, owning thread *)
}.

(** One system call.  [Open] and [Flock] carry the error the system answers
    with, if any; without one, [flock] answers from the lock table. *)
Inductive event :=
| Call (t : nat)
| SemAcquire (t : nat)
| SemTimeout (t : nat)
| OpenFails (t : nat) (e : exn)
| Flock (t : nat) (error : option exn)
| EndPass (t : nat)
| Wake (t : nat)
| Exit (t : nat)
| Tick (dt : Z)
| Killed (p : nat).

Section System.
(** The gate of each process and the process of each thread. *)
Variable gate_of : nat → BrowserGate.
Variable proc_of : nat → nat.

Definition gate (t : nat) : BrowserGate := gate_of (proc_of t).

Definition set_phase (t : nat) (ph : option Phase) (s : System) : System :=
  {| now := s.(now); permits := s.(permits);
     phase := match ph with Some ph => <[t := ph]> s.(phase) | None => delete t s.(phase) end;
     locks := s.(locks) |}.

Definition add_permit (p : nat) (n : Z) (s : System) : System :=
  {| now := s.(now); permits := λ q, if Nat.eqb q p then s.(permits) q + n else s.(permits) q;
     phase := s.(phase); locks := s.(locks) |}.

Definition set_locks (l : gmap string nat) (s : System) : System :=
  {| now := s.(now); permits := s.(permits); phase := s.(phase); locks := l |}.

Definition deadline_from (t : nat) (s : System) : option Z :=
  (λ d, s.(now) + d) <$> (gate t).(acquire_timeout).

Definition passed (deadline : option Z) (s : System) : bool :=
  match deadline with Some d => d <=? s.(now) | None => false end.

(** [self._semaphore.release()]: a [BoundedSemaphore] refuses to exceed its
    initial value. *)
Definition release_permit (t : nat) (s : System) : result System :=
  if (gate t).(max_concurrent) <=? s.(permits) (proc_of t)
  then raise ValueError "Semaphore released too many times"
  else Ok (add_permit (proc_of t) 1 s).

(** The [except BaseException] of [acquire]: give the permit back, re-raise. *)
Definition fail_slot (t : nat) (e : exn) (s : System) : System * option (nat * exn) :=
  match release_permit t (set_phase t None s) with
  | Ok s' => (s', Some (t, e))
  | Raise e' => (set_phase t None s, Some (t, e'))
  end.

Definition timeout_error : exn := Exn FetchError "browser gate: no slot freed".

(** The next state, and the exception a caller gets, if any; [None] when the
    event is not possible. *)
Definition step (e : event) (s : System) : option (System * option (nat * exn)) :=
  match e with
  | Call t =>
      match s.(phase) !! t with
      | None => Some (set_phase t (Some (Waiting (deadline_from t s))) s, None)
      | Some _ => None
      end
  | SemAcquire t =>
      match s.(phase) !! t with
      | Some (Waiting _) =>
          if s.(permits) (proc_of t) <=? 0 then None
          else
            let s1 := add_permit (proc_of t) (-1) s in
            Some (match (gate t).(slot_paths) with
                  | Some paths => set_phase t (Some (Probing (deadline_from t s) paths)) s1
                  | None => set_phase t (Some (Holding None)) s1
                  end, None)
      | _ => None
      end
  | SemTimeout t =>
      match s.(phase) !! t with
      | Some (Waiting until) =>
          if passed until s && (s.(permits) (proc_of t) <=? 0)
          then Some (set_phase t None s, Some (t, timeout_error)) else None
      | _ => None
      end
  | OpenFails t e =>
      match s.(phase) !! t with
      | Some (Probing _ (_ :: _)) => Some (fail_slot t e s)
      | _ => None
      end
  | Flock t error =>
      match s.(phase) !! t with
      | Some (Probing deadline (path :: rest)) =>
          match error with
          | Some e => Some (fail_slot t e s)
          | None =>
              match s.(locks) !! path with
              | Some _ => Some (set_phase t (Some (Probing deadline rest)) s, None)
              | None => Some (set_phase t (Some (Holding (Some path)))
                                (set_locks (<[path := t]> s.(locks)) s), None)
              end
          end
      | _ => None
      end
  | EndPass t =>
      match s.(phase) !! t with
      | Some (Probing deadline []) =>
          if passed deadline s then Some (fail_slot t timeout_error s)
          else Some (set_phase t (Some (Sleeping deadline (s.(now) + POLL_INTERVAL))) s, None)
      | _ => None
      end
  | Wake t =>
      match s.(phase) !! t with
      | Some (Sleeping deadline wake) =>
          if wake <=? s.(now)
          then Some (set_phase t (Some (Probing deadline (default [] (gate t).(slot_paths)))) s, None)
          else None
      | _ => None
      end
  | Exit t =>
      match s.(phase) !! t with
      | Some (Holding slot) =>
          let s1 := match slot with Some path => set_locks (delete path s.(locks)) s | None => s end in
          let s2 := set_phase t None s1 in
          Some (match release_permit t s2 with
                | Ok s3 => (s3, None)
                | Raise e => (s2, Some (t, e))
                end)
      | _ => None
      end
  | Tick dt =>
      if dt <? 0 then None
      else Some ({| now := s.(now) + dt; permits := s.(permits); phase := s.(phase);
                    locks := s.(locks) |}, None)
  | Killed p =>
      (* the kernel closes the files of the process; a new one starts afresh *)
      Some ({| now := s.(now);
               permits := λ q, if Nat.eqb q p then (gate_of p).(max_concurrent) else s.(permits) q;
               phase := filter (λ tp, proc_of tp.1 ≠ p) s.(phase);
               locks := filter (λ pt, proc_of pt.2 ≠ p) s.(locks) |}, None)
  end.

Definition start (t0 : Z) : System :=
  {| now := t0; permits := λ p, (gate_of p).(max_concurrent); phase := ∅; locks := ∅ |}.

Fixpoint run (es : list event) (s : System) : option System :=
  match es with
  | [] => Some s
  | e :: es => '(s', _) ← step e s; run es s'
  end.

Inductive reachable : System → Prop :=
| reach_start t0 : reachable (start t0)
| reach_step s e s' out : reachable s → step e s = Some (s', out) → reachable s'.

End System.

(** * Counting *)

Section GateProofs.
Context (gate_of : nat → BrowserGate) (proc_of : nat → nat).
Context (Hmax : ∀ p, 1 <= max_concurrent (gate_of p)).

Definition holds_permit (ph : Phase) : bool :=
  match ph with Waiting _ => false | _ => true end.

(** The threads of a process between [acquire] and the end of the block. *)
Definition uses (p : nat) (tp : nat * Phase) : Prop :=
  proc_of tp.1 = p ∧ holds_permit tp.2 = true.

Definition in_use (p : nat) (m : gmap nat Phase) : Z := Z.of_nat (size (filter (uses p) m)).

Definition weight (p t : nat) (ph : option Phase) : Z :=
  match ph with
  | Some ph => if bool_decide (uses p (t, ph)) then 1 else 0
  | None => 0
  end.

Lemma in_use_insert p t ph (m : gmap nat Phase) :
  in_use p (<[t := ph]> m) = in_use p (delete t m) + weight p t (Some ph).
Proof.
  unfold in_use, weight. rewrite <- insert_delete_eq, map_filter_insert. cbn.
  case_bool_decide as Hu; case_decide as Hd; try done.
  - rewrite map_size_insert_None; [lia |]. by rewrite map_lookup_filter, lookup_delete_eq.
  - rewrite delete_delete_eq. lia.
Qed.

Lemma in_use_split p t (m : gmap nat Phase) :
  in_use p m = in_use p (delete t m) + weight p t (m !! t).
Proof.
  destruct (m !! t) as [ph |] eqn:E.
  - rewrite <- in_use_insert. by rewrite insert_id.
  - cbn. rewrite delete_id by done. lia.
Qed.
Notation step := (step gate_of proc_of).
Notation gate t := (gate gate_of proc_of t).

(** ** The invariant *)

Definition well_placed (t : nat) (ph : Phase) : Prop :=
  match ph with
  | Waiting _ => True
  | Probing _ rest => rest ⊆ default [] (gate t).(slot_paths)
  | Sleeping _ _ => True
  | Holding None => (gate t).(slot_paths) = None
  | Holding (Some path) => path ∈ default [] (gate t).(slot_paths)
  end.

Record gate_ok (s : System) : Prop := {
  permits_pos : ∀ p, 0 <= permits s p;
  permits_ok : ∀ p, permits s p + in_use p (phase s) = max_concurrent (gate_of p);
  locks_ok : ∀ path t, locks s !! path = Some t ↔ phase s !! t = Some (Holding (Some path));
  places_ok : ∀ t ph, phase s !! t = Some ph → well_placed t ph;
}.

Lemma gate_ok_start t0 : gate_ok (start gate_of t0).
Proof.
  split; cbn.
  - intros p. specialize (Hmax p). lia.
  - intros p. unfold in_use. rewrite map_filter_empty, map_size_empty. lia.
  - intros path t. by rewrite !lookup_empty.
  - intros t ph. by rewrite lookup_empty.
Qed.

(** A thread changes its phase; its process's semaphore makes up for it, and
    the lock table follows. *)
Lemma gate_ok_move s s' t ph' :
  gate_ok s →
  phase s' = (match ph' with Some ph => <[t := ph]> (phase s) | None => delete t (phase s) end) →
  (∀ p, permits s' p + weight p t ph' = permits s p + weight p t (phase s !! t)) →
  (∀ p, 0 <= permits s' p) →
  (∀ path u, locks s' !! path = Some u ↔
     if Nat.eqb u t then ph' = Some (Holding (Some path)) else locks s !! path = Some u) →
  (∀ ph, ph' = Some ph → well_placed t ph) →
  gate_ok s'.
Proof.
  intros [Hpos Hp Hl Hw] Hph Hper Hpos' Hlock Hwell. split; [done | | |].
  - intros p. rewrite Hph. specialize (Hp p). rewrite (in_use_split p t) in Hp.
    specialize (Hper p). destruct ph' as [ph |]; [rewrite in_use_insert; lia |]. cbn in Hper. lia.
  - intros path u. rewrite Hlock, Hph. destruct (Nat.eqb_spec u t) as [-> | Hne].
    + destruct ph' as [ph |]; [rewrite lookup_insert_eq | rewrite lookup_delete_eq]; naive_solver.
    + rewrite Hl. destruct ph' as [ph |];
        [by rewrite lookup_insert_ne | by rewrite lookup_delete_ne].
  - intros u ph Hu. rewrite Hph in Hu. destruct (decide (u = t)) as [-> | Hne].
    + destruct ph' as [ph0 |]; [rewrite lookup_insert_eq in Hu | by rewrite lookup_delete_eq in Hu].
      apply Hwell. congruence.
    + apply Hw. destruct ph'; [by rewrite lookup_insert_ne in Hu | by rewrite lookup_delete_ne in Hu].
Qed.

(** The semaphore takes back what a holder of a permit returns: the
    [BoundedSemaphore] never refuses. *)
Lemma permits_below s t ph :
  gate_ok s → phase s !! t = Some ph → holds_permit ph = true →
  permits s (proc_of t) < max_concurrent (gate t).
Proof.
  intros Hs Ht Hh. pose proof (permits_ok _ Hs (proc_of t)) as Hp.
  rewrite (in_use_split _ t), Ht in Hp. cbn in Hp.
  rewrite (bool_decide_eq_true_2 (uses _ _)) in Hp by done. unfold BrowserGate.gate, in_use in *. lia.
Qed.

Lemma fail_slot_ok s t ph e :
  gate_ok s → phase s !! t = Some ph → holds_permit ph = true →
  fail_slot gate_of proc_of t e s = (add_permit (proc_of t) 1 (set_phase t None s), Some (t, e)).
Proof.
  intros Hs Ht Hh. pose proof (permits_below _ _ _ Hs Ht Hh) as Hlt.
  unfold fail_slot, release_permit. cbn [permits set_phase].
  by rewrite (proj2 (Z.leb_gt _ _)).
Qed.
Lemma weight_Some p t ph :
  weight p t (Some ph) = if Nat.eqb p (proc_of t) then (if holds_permit ph then 1 else 0) else 0.
Proof.
  unfold weight, uses. cbn. case_bool_decide as Hu.
  - destruct Hu as [<- ->]. by rewrite Nat.eqb_refl.
  - destruct (Nat.eqb_spec p (proc_of t)) as [-> |]; [| done].
    destruct (holds_permit ph); [| done]. by destruct Hu.
Qed.

Ltac permits_of Ht :=
  intros q; cbn [permits phase add_permit set_phase set_locks]; rewrite ?Ht, ?weight_Some;
  cbn [holds_permit weight]; destruct (Nat.eqb q _); lia.

Ltac locks_same Hs Ht :=
  let pa := fresh "path" in let v := fresh "u" in
  intros pa v; cbn [locks add_permit set_phase set_locks];
  match goal with |- context [Nat.eqb v ?x] => destruct (Nat.eqb_spec v x) as [-> |] end;
  [rewrite (locks_ok _ Hs), Ht; naive_solver | done].

Lemma fail_slot_keeps s t ph e s' out :
  gate_ok s → phase s !! t = Some ph → holds_permit ph = true → (∀ path, ph ≠ Holding (Some path)) →
  fail_slot gate_of proc_of t e s = (s', out) → gate_ok s' ∧ out = Some (t, e).
Proof.
  intros Hs Ht Hh Hno. rewrite (fail_slot_ok _ _ _ _ Hs Ht Hh). intros [= <- <-]. split; [| done].
  apply (gate_ok_move s _ t None); [done | done | | | | done].
  - intros q. cbn [permits add_permit set_phase]. rewrite Ht, weight_Some, Hh. cbn.
    destruct (Nat.eqb q _); lia.
  - intros q. pose proof (permits_pos _ Hs q). cbn. destruct (Nat.eqb q _); lia.
  - intros path u. cbn. destruct (Nat.eqb_spec u t) as [-> |]; [| done].
    rewrite (locks_ok _ Hs), Ht. naive_solver.
Qed.

Lemma call_keeps s t :
  gate_ok s → phase s !! t = None →
  gate_ok (set_phase t (Some (Waiting (deadline_from gate_of proc_of t s))) s).
Proof.
  intros Hs Ht. eapply (gate_ok_move s _ t (Some _)); [done | done | | | | by intros ? [= <-]].
  - permits_of Ht.
  - apply (permits_pos _ Hs).
  - locks_same Hs Ht.
Qed.

Lemma sem_acquire_keeps s t d :
  gate_ok s → phase s !! t = Some (Waiting d) → 0 < permits s (proc_of t) →
  let s1 := add_permit (proc_of t) (-1) s in
  gate_ok (match (gate t).(slot_paths) with
           | Some paths => set_phase t (Some (Probing (deadline_from gate_of proc_of t s) paths)) s1
           | None => set_phase t (Some (Holding None)) s1
           end).
Proof.
  intros Hs Ht Hpos s1. subst s1. destruct (slot_paths (gate t)) as [paths |] eqn:Eg;
    eapply (gate_ok_move s _ t (Some _)); try done.
  - permits_of Ht.
  - intros q. pose proof (permits_pos _ Hs q). cbn. destruct (Nat.eqb_spec q (proc_of t)); subst; lia.
  - locks_same Hs Ht.
  - intros ? [= <-]. cbn. by rewrite Eg.
  - permits_of Ht.
  - intros q. pose proof (permits_pos _ Hs q). cbn. destruct (Nat.eqb_spec q (proc_of t)); subst; lia.
  - locks_same Hs Ht.
  - by intros ? [= <-].
Qed.

Lemma flock_keeps s t d path rest :
  gate_ok s → phase s !! t = Some (Probing d (path :: rest)) → locks s !! path = None →
  gate_ok (set_phase t (Some (Holding (Some path))) (set_locks (<[path := t]> (locks s)) s)).
Proof.
  intros Hs Ht Hfree. eapply (gate_ok_move s _ t (Some _)); [done | done | | apply (permits_pos _ Hs) | |].
  - permits_of Ht.
  - intros path' u. cbn. destruct (Nat.eqb_spec u t) as [-> | Hne].
    + destruct (decide (path' = path)) as [-> | Hp]; [rewrite lookup_insert_eq; naive_solver |].
      rewrite lookup_insert_ne, (locks_ok _ Hs), Ht by done. naive_solver.
    + destruct (decide (path' = path)) as [-> | Hp].
      * rewrite lookup_insert_eq, Hfree. naive_solver.
      * by rewrite lookup_insert_ne.
  - intros ? [= <-]. pose proof (places_ok _ Hs _ _ Ht) as Hw. cbn in Hw |- *. apply Hw. left.
Qed.

Lemma exit_keeps s t slot :
  gate_ok s → phase s !! t = Some (Holding slot) →
  gate_ok (add_permit (proc_of t) 1 (set_phase t None
    (match slot with Some path => set_locks (delete path (locks s)) s | None => s end))).
Proof.
  intros Hs Ht. eapply (gate_ok_move s _ t None); [done | by destruct slot | | | | done].
  - destruct slot; permits_of Ht.
  - intros q. pose proof (permits_pos _ Hs q). destruct slot; cbn; destruct (Nat.eqb q _); lia.
  - intros path u. destruct slot as [path0 |]; cbn; destruct (Nat.eqb_spec u t) as [-> | Hne].
    + destruct (decide (path = path0)) as [-> |]; [by rewrite lookup_delete_eq |].
      rewrite lookup_delete_ne, (locks_ok _ Hs), Ht by done. naive_solver.
    + destruct (decide (path = path0)) as [-> |]; [| by rewrite lookup_delete_ne].
      rewrite lookup_delete_eq. split; [done |]. intros Hu.
      assert (locks s !! path0 = Some t) as H2 by (by apply (locks_ok _ Hs)). congruence.
    + rewrite (locks_ok _ Hs), Ht. naive_solver.
    + done.
Qed.

Lemma killed_keeps s p :
  gate_ok s →
  gate_ok {| now := now s;
             permits := λ q, if Nat.eqb q p then max_concurrent (gate_of p) else permits s q;
             phase := filter (λ tp, proc_of tp.1 ≠ p) (phase s);
             locks := filter (λ pt, proc_of pt.2 ≠ p) (locks s) |}.
Proof.
  intros Hs. split; cbn [permits phase locks].
  - intros q. pose proof (permits_pos _ Hs q). specialize (Hmax p). destruct (Nat.eqb q p); lia.
  - intros q. pose proof (permits_ok _ Hs q) as Hq. unfold in_use in *. rewrite map_filter_filter.
    destruct (Nat.eqb_spec q p) as [-> | Hne].
    + match goal with |- context [filter ?Q (phase s)] => assert (filter Q (phase s) = ∅) as -> end.
      { apply map_eq. intros t. rewrite lookup_empty. apply map_lookup_filter_None_2. right.
        intros ph _. unfold uses. cbn. tauto. }
      rewrite map_size_empty. lia.
    + match goal with |- context [filter ?Q (phase s)] =>
        assert (filter Q (phase s) = filter (uses q) (phase s)) as -> end; [| done].
      apply map_filter_ext. intros t ph _. unfold uses. cbn. naive_solver.
  - intros path t. rewrite !map_lookup_filter_Some, (locks_ok _ Hs). done.
  - intros t ph [Ht _]%map_lookup_filter_Some. by apply (places_ok _ Hs).
Qed.
Lemma step_keeps e s s' out : gate_ok s → step e s = Some (s', out) → gate_ok s'.
Proof.
  intros Hs. destruct e as [t | t | t | t e | t error | t | t | t | dt | p]; cbn [BrowserGate.step];
    try destruct (phase s !! t) as [[d | d [| path rest] | d w | slot] |] eqn:Ht; try done; intros H.
  - injection H as <- <-. by apply call_keeps.
  - destruct (Z.leb_spec (permits s (proc_of t)) 0); [done |]. injection H as <- <-.
    by apply (sem_acquire_keeps s t d).
  - destruct (_ && _); [| done]. injection H as <- <-.
    eapply (gate_ok_move s _ t None); [done | done | | apply (permits_pos _ Hs) | | done].
    + permits_of Ht.
    + locks_same Hs Ht.
  - injection H as H. by destruct (fail_slot_keeps _ _ _ _ _ _ Hs Ht eq_refl ltac:(done) H).
  - destruct error as [e |].
    { injection H as H. by destruct (fail_slot_keeps _ _ _ _ _ _ Hs Ht eq_refl ltac:(done) H). }
    destruct (locks s !! path) as [u |] eqn:El; injection H as <- <-;
      [| by apply (flock_keeps s t d path rest)].
    eapply (gate_ok_move s _ t (Some _)); [done | done | | apply (permits_pos _ Hs) | |].
    + permits_of Ht.
    + locks_same Hs Ht.
    + intros ? [= <-]. pose proof (places_ok _ Hs _ _ Ht) as Hw. cbn in Hw |- *. set_solver.
  - destruct (passed d s).
    { injection H as H. by destruct (fail_slot_keeps _ _ _ _ _ _ Hs Ht eq_refl ltac:(done) H). }
    injection H as <- <-.
    eapply (gate_ok_move s _ t (Some _)); [done | done | | apply (permits_pos _ Hs) | |
      by intros ? [= <-]].
    + permits_of Ht.
    + locks_same Hs Ht.
  - destruct (Z.leb w (now s)); [| done]. injection H as <- <-.
    eapply (gate_ok_move s _ t (Some _)); [done | done | | apply (permits_pos _ Hs) | |].
    + permits_of Ht.
    + locks_same Hs Ht.
    + intros ? [= <-]. cbn. set_solver.
  - pose proof (exit_keeps s t slot Hs Ht) as Hk. revert H. unfold release_permit.
    pose proof (permits_below _ _ _ Hs Ht eq_refl) as Hlt.
    destruct slot; cbn [permits set_phase set_locks]; rewrite (proj2 (Z.leb_gt _ _)) by done;
      intros [= <- <-]; exact Hk.
  - destruct (dt <? 0); [done |]. injection H as <- <-. by destruct Hs.
  - injection H as <- <-. by apply killed_keeps.
Qed.

Lemma reachable_ok s : reachable gate_of proc_of s → gate_ok s.
Proof. induction 1; [apply gate_ok_start | by eapply step_keeps]. Qed.
(** * The abstract gate *)

(** The threads inside the [with] block. *)
Definition inside (ph : Phase) : bool := match ph with Holding _ => true | _ => false end.
Definition insiders (s : System) : gset nat := dom (filter (λ tp, inside tp.2 = true) (phase s)).

(** Threads that exclude each other through the same lock files. *)
Definition sharers (paths : list string) (A : gset nat) : gset nat :=
  filter (λ t, slot_paths (gate t) = Some paths) A.
Definition same_process (p : nat) (A : gset nat) : gset nat := filter (λ t, proc_of t = p) A.

(** The specification: a set of threads, entered within the capacity of the
    process and of the machine, left at any time. *)
Inductive spec_step : gset nat → gset nat → Prop :=
| spec_stutter A : spec_step A A
| spec_enter A t :
    t ∉ A →
    Z.of_nat (size (same_process (proc_of t) A)) < max_concurrent (gate t) →
    (∀ paths, slot_paths (gate t) = Some paths → (size (sharers paths A) < length paths)%nat) →
    spec_step A ({[t]} ∪ A)
| spec_leave A t : t ∈ A → spec_step A (A ∖ {[t]})
| spec_killed A p : spec_step A (filter (λ t, proc_of t ≠ p) A).

Lemma elem_of_insiders s t : t ∈ insiders s ↔ ∃ slot, phase s !! t = Some (Holding slot).
Proof.
  unfold insiders. rewrite elem_of_dom. unfold is_Some.
  split; [intros (ph & [Ht Hi]%map_lookup_filter_Some) | intros [slot Ht]].
  - destruct ph; try done. by eexists.
  - exists (Holding slot). by apply map_lookup_filter_Some.
Qed.

(** A thread that is about to enter still has room in its process. *)
Lemma room_in_process s t ph :
  gate_ok s → phase s !! t = Some ph → inside ph = false →
  holds_permit ph = true ∨ 0 < permits s (proc_of t) →
  Z.of_nat (size (same_process (proc_of t) (insiders s))) < max_concurrent (gate t).
Proof.
  intros Hs Ht Hin Hroom. pose proof (permits_ok _ Hs (proc_of t)) as Hp.
  pose proof (permits_pos _ Hs (proc_of t)) as Hpos. unfold in_use in Hp.
  rewrite <- (size_dom (D:=gset nat)) in Hp.
  set (U := dom (filter (uses (proc_of t)) (phase s))) in *.
  set (B := same_process (proc_of t) (insiders s)).
  assert (B ⊆ U) as HBU.
  { intros u [Hpu [slot Hu]%elem_of_insiders]%elem_of_filter.
    apply elem_of_dom. exists (Holding slot). by apply map_lookup_filter_Some. }
  destruct Hroom as [Hh | Hroom].
  - assert (t ∉ B) as Hnt.
    { intros [_ [slot Ht']%elem_of_insiders]%elem_of_filter. rewrite Ht' in Ht. by injection Ht as <-. }
    assert (t ∈ U) as HtU.
    { apply elem_of_dom. exists ph. by apply map_lookup_filter_Some. }
    assert ({[t]} ∪ B ⊆ U) as Hsub%subseteq_size by set_solver.
    rewrite size_union, size_singleton in Hsub by set_solver. unfold BrowserGate.gate. lia.
  - apply subseteq_size in HBU. unfold BrowserGate.gate. lia.
Qed.

Definition slot_of (s : System) (t : nat) : string :=
  match phase s !! t with Some (Holding (Some path)) => path | _ => "" end.

(** Insiders that share lock files hold different ones. *)
Lemma sharers_bound s paths (free : string → Prop) `{∀ p, Decision (free p)} :
  gate_ok s → (∀ path, free path → locks s !! path = None) →
  (size (sharers paths (insiders s)) ≤ length (filter (λ p, ¬ free p) paths))%nat.
Proof.
  intros Hs Hfree. set (X := sharers paths (insiders s)).
  assert (∀ t, t ∈ X → ∃ path, phase s !! t = Some (Holding (Some path)) ∧ path ∈ paths
                 ∧ locks s !! path = Some t) as HX.
  { intros t [Hg [slot Ht]%elem_of_insiders]%elem_of_filter.
    pose proof (places_ok _ Hs _ _ Ht) as Hw. cbn in Hw. rewrite Hg in Hw.
    destruct slot as [path |]; [| done]. exists path. split_and!; [done.. |].
    by apply (locks_ok _ Hs). }
  assert (slot_of s <$> elements X ⊆+ filter (λ p, ¬ free p) paths) as Hsub.
  { apply NoDup_submseteq.
    - apply NoDup_fmap_2_strong; [| apply NoDup_elements].
      intros t u (p1 & Ht & _ & Hl1)%elem_of_elements%HX (p2 & Hu & _ & Hl2)%elem_of_elements%HX.
      unfold slot_of. rewrite Ht, Hu. intros ->. congruence.
    - intros path (t & -> & (p & Ht & Hp & Hl)%elem_of_elements%HX)%list_elem_of_fmap.
      unfold slot_of. rewrite Ht. apply list_elem_of_filter. split; [| done].
      intros Hf. apply Hfree in Hf. congruence. }
  apply submseteq_length in Hsub. by rewrite length_fmap in Hsub.
Qed.

(** * What the gate promises *)

(** The gate never leaks.  In every state the system can reach, whatever
    the interleaving, the failures of [open] and [flock] and the deaths of
    processes: a semaphore's value and the threads that hold one of its permits
    add up to [max_concurrent], a lock file is owned by exactly the thread that
    runs a browser under it, a process none of whose threads is in the gate has
    all its permits, and no caller ever gets the ValueError of a semaphore
    released too often: what it gets is the gate's timeout or the error of the
    system call. *)
Theorem gate_never_leaks s :
  reachable gate_of proc_of s →
  (∀ p, 0 <= permits s p ∧ permits s p + in_use p (phase s) = max_concurrent (gate_of p))
  ∧ (∀ path t, locks s !! path = Some t ↔ phase s !! t = Some (Holding (Some path)))
  ∧ (∀ p, (∀ t, proc_of t = p → phase s !! t = None) →
       permits s p = max_concurrent (gate_of p)
       ∧ ∀ path t, locks s !! path = Some t → proc_of t ≠ p)
  ∧ (∀ e s' t x, step e s = Some (s', Some (t, x)) →
       x = timeout_error ∨ e = OpenFails t x ∨ e = Flock t (Some x)).
Proof.
  intros Hs%reachable_ok. split_and!.
  - intros p. split; [apply (permits_pos _ Hs) | apply (permits_ok _ Hs)].
  - apply (locks_ok _ Hs).
  - intros p Hout. pose proof (permits_ok _ Hs p) as Hp. split.
    + replace (in_use p (phase s)) with 0 in Hp; [lia |]. unfold in_use.
      match goal with |- context [filter ?Q (phase s)] => assert (filter Q (phase s) = ∅) as -> end;
        [| by rewrite map_size_empty].
      apply map_eq. intros t. rewrite lookup_empty. apply map_lookup_filter_None_2. right.
      intros ph Ht [Hp' _]. cbn in Hp'. by rewrite Hout in Ht.
    + intros path t Hl Hp'. apply (locks_ok _ Hs) in Hl. by rewrite Hout in Hl.
  - intros e s' t x. destruct e as [u | u | u | u e | u error | u | u | u | dt | p];
      cbn [BrowserGate.step];
      try destruct (phase s !! u) as [[d | d [| path rest] | d w | slot] |] eqn:Hu; try done; intros H.
    + by destruct (_ <=? _).
    + destruct (_ && _); [| done]. injection H as <- <- <-. by left.
    + injection H as H. destruct (fail_slot_keeps _ _ _ _ _ _ Hs Hu eq_refl ltac:(done) H) as [_ [= -> ->]].
      by right; left.
    + destruct error as [e |]; [| by destruct (locks s !! path)]. injection H as H.
      destruct (fail_slot_keeps _ _ _ _ _ _ Hs Hu eq_refl ltac:(done) H) as [_ [= -> ->]].
      by right; right.
    + destruct (passed d s); [| done]. injection H as H.
      destruct (fail_slot_keeps _ _ _ _ _ _ Hs Hu eq_refl ltac:(done) H) as [_ [= -> ->]]. by left.
    + by destruct (_ <=? _).
    + unfold release_permit in H. pose proof (permits_below _ _ _ Hs Hu eq_refl) as Hlt.
      revert H. destruct slot; cbn [permits set_phase set_locks];
        rewrite (proj2 (Z.leb_gt _ _)) by done; done.
    + by destruct (_ <? _).
Qed.
Lemma insiders_move s s' t ph' :
  phase s' = (match ph' with Some ph => <[t := ph]> (phase s) | None => delete t (phase s) end) →
  insiders s' = match ph' with
                | Some (Holding _) => {[t]} ∪ insiders s
                | _ => insiders s ∖ {[t]}
                end.
Proof.
  intros Hph. apply set_eq. intros u. rewrite elem_of_insiders, Hph.
  destruct (decide (u = t)) as [-> | Hne].
  - destruct ph' as [ph |]; [rewrite lookup_insert_eq | rewrite lookup_delete_eq].
    + destruct ph; rewrite ?elem_of_difference, ?elem_of_union, ?elem_of_singleton; naive_solver.
    + rewrite elem_of_difference, elem_of_singleton. naive_solver.
  - assert ((match ph' with Some ph => <[t := ph]> (phase s) | None => delete t (phase s) end) !! u
            = phase s !! u) as ->.
    { destruct ph'; [by rewrite lookup_insert_ne | by rewrite lookup_delete_ne]. }
    rewrite <- elem_of_insiders. destruct ph' as [[] |]; set_solver.
Qed.

(** Leaving a phase outside of the block is no abstract step. *)
Lemma insiders_stutter s s' t ph ph' :
  phase s' = (match ph' with Some ph => <[t := ph]> (phase s) | None => delete t (phase s) end) →
  (phase s !! t = ph) → (match ph with Some ph => inside ph | None => false end) = false →
  (match ph' with Some ph => inside ph | None => false end) = false →
  spec_step (insiders s) (insiders s').
Proof.
  intros Hph Ht Hin Hin'. rewrite (insiders_move _ _ _ _ Hph).
  assert (t ∉ insiders s) as Hnt.
  { intros [slot Hs]%elem_of_insiders. rewrite Hs in Ht. by subst ph. }
  assert (insiders s ∖ {[t]} = insiders s) as -> by set_solver.
  destruct ph' as [[] |]; try apply spec_stutter. done.
Qed.

Lemma insiders_enter s s' t ph slot :
  gate_ok s → phase s !! t = Some ph → inside ph = false →
  holds_permit ph = true ∨ 0 < permits s (proc_of t) →
  phase s' = <[t := Holding slot]> (phase s) →
  (∀ paths, slot_paths (gate t) = Some paths →
     (size (sharers paths (insiders s)) < length paths)%nat) →
  spec_step (insiders s) (insiders s').
Proof.
  intros Hs Ht Hin Hh Hph Hroom. rewrite (insiders_move s s' t (Some (Holding slot))) by done.
  apply spec_enter; [| by eapply room_in_process | done].
  intros [sl Ht']%elem_of_insiders. rewrite Ht' in Ht. by injection Ht as <-.
Qed.

(** C21: the gate implements its specification.  Every system call is one step,
    or none, of an abstract machine that only counts the threads inside the
    block: a thread enters when its process has less than [max_concurrent]
    inside and, with a lock directory, when all the processes that share its
    lock files have together fewer inside than there are files; it leaves
    freely; a killed process leaves with all its threads. *)
Theorem gate_refines_spec s e s' out :
  reachable gate_of proc_of s → step e s = Some (s', out) → spec_step (insiders s) (insiders s').
Proof.
  intros Hs%reachable_ok. destruct e as [t | t | t | t e | t error | t | t | t | dt | p];
    cbn [BrowserGate.step];
    try destruct (phase s !! t) as [[d | d [| path rest] | d w | slot] |] eqn:Ht; try done; intros H.
  - injection H as <- _. by eapply (insiders_stutter _ _ t _ (Some _)).
  - destruct (Z.leb_spec (permits s (proc_of t)) 0); [done |]. injection H as <- _.
    destruct (slot_paths (gate t)) as [paths |] eqn:Eg.
    + by eapply (insiders_stutter _ _ t _ (Some _)).
    + eapply (insiders_enter s _ t _ None Hs Ht); [done | by right | done |].
      intros paths. by rewrite Eg.
  - destruct (_ && _); [| done]. injection H as <- _. by eapply (insiders_stutter _ _ t _ None).
  - rewrite (fail_slot_ok _ _ _ _ Hs Ht) in H by done. injection H as <- _.
    by eapply (insiders_stutter _ _ t _ None).
  - destruct error as [e |].
    { rewrite (fail_slot_ok _ _ _ _ Hs Ht) in H by done. injection H as <- _.
      by eapply (insiders_stutter _ _ t _ None). }
    destruct (locks s !! path) eqn:El; injection H as <- _.
    { by eapply (insiders_stutter _ _ t _ (Some _)). }
    eapply (insiders_enter s _ t _ (Some path) Hs Ht); [done | by left | done |].
    intros paths Eg. pose proof (places_ok _ Hs _ _ Ht) as Hw. cbn in Hw. rewrite Eg in Hw.
    eapply Nat.le_lt_trans; [apply (sharers_bound s paths (λ p, p = path)); [done | by intros ? ->] |].
    apply (length_filter_lt _ _ path); [| naive_solver]. apply Hw. left.
  - destruct (passed d s).
    + rewrite (fail_slot_ok _ _ _ _ Hs Ht) in H by done. injection H as <- _.
      by eapply (insiders_stutter _ _ t _ None).
    + injection H as <- _. by eapply (insiders_stutter _ _ t _ (Some _)).
  - destruct (_ <=? _); [| done]. injection H as <- _. by eapply (insiders_stutter _ _ t _ (Some _)).
  - pose proof (permits_below _ _ _ Hs Ht eq_refl) as Hlt. unfold release_permit in H.
    assert (insiders s' = insiders s ∖ {[t]}) as ->.
    { apply (insiders_move s s' t None). revert H.
      destruct slot; cbn [permits set_phase set_locks];
        rewrite (proj2 (Z.leb_gt _ _)) by done; by intros [= <- _]. }
    apply spec_leave, elem_of_insiders. by eexists.
  - destruct (dt <? 0); [done |]. injection H as <- _. apply spec_stutter.
  - injection H as <- _. match goal with |- spec_step _ ?A =>
      assert (A = filter (λ t, proc_of t ≠ p) (insiders s)) as -> end; [| apply spec_killed].
    apply set_eq. intros t. rewrite elem_of_filter, !elem_of_insiders. cbn [phase].
    setoid_rewrite map_lookup_filter_Some. naive_solver.
Qed.

(** how many browsers run.  However many processes share a lock directory
    and whatever happens, the threads inside the gate never exceed
    [max_concurrent] in one process, nor, over all the processes that share the
    lock files, the number of files. *)
Theorem gate_capacity s :
  reachable gate_of proc_of s →
  (∀ p, Z.of_nat (size (same_process p (insiders s))) <= max_concurrent (gate_of p))
  ∧ (∀ paths, (size (sharers paths (insiders s)) ≤ length paths)%nat).
Proof.
  intros Hs%reachable_ok. split.
  - intros p. pose proof (permits_ok _ Hs p) as Hp. pose proof (permits_pos _ Hs p) as Hpos.
    unfold in_use in Hp. rewrite <- (size_dom (D:=gset nat)) in Hp.
    assert (same_process p (insiders s) ⊆ dom (filter (uses p) (phase s))) as Hsub%subseteq_size.
    { intros u [Hpu [slot Hu]%elem_of_insiders]%elem_of_filter.
      apply elem_of_dom. exists (Holding slot). by apply map_lookup_filter_Some. }
    lia.
  - intros paths. pose proof (sharers_bound s paths (λ _, False) Hs ltac:(done)) as Hb.
    etransitivity; [exact Hb |]. apply length_filter.
Qed.
End GateProofs.

(** The gates of [__init__]: as many distinct lock files as browsers. *)
Lemma slot_path_inj dir i j : slot_path dir i = slot_path dir j → i = j.
Proof.
  unfold slot_path. intros H. apply (inj (String.append _)) in H.
  apply (inj (String.append _)) in H. apply (f_equal chars) in H. rewrite !chars_app in H.
  apply app_inv_tail, (f_equal of_chars) in H. rewrite !of_chars_chars in H. by apply (inj pretty) in H.
Qed.

Lemma new_gate_spec has_fcntl max dir timeout :
  match new_gate has_fcntl max dir timeout with
  | Ok g => 1 <= max ∧ max_concurrent g = max ∧ acquire_timeout g = timeout
      ∧ match slot_paths g with
        | Some paths => has_fcntl = true ∧ is_Some dir ∧ Z.of_nat (length paths) = max ∧ NoDup paths
        | None => has_fcntl = false ∨ dir = None
        end
  | Raise e => exn_class e = ValueError ∧ max < 1
  end.
Proof.
  unfold new_gate. destruct (Z.ltb_spec max 1); [done |]. cbn. split_and!; [lia | done | done |].
  destruct dir as [dir |]; [| by right]. destruct has_fcntl; [| by left].
  split_and!; [done | by eexists | |].
  - rewrite length_fmap, length_seq. lia.
  - apply NoDup_fmap_2; [| apply NoDup_seq]. intros i j. apply slot_path_inj.
Qed.

(** * A machine with two processes and one lock file *)

Module GateDemo.
Definition paths : list string := [slot_path "/run/kerdoos" 0].
Definition gate_of (p : nat) : BrowserGate :=
  {| max_concurrent := 1; slot_paths := Some paths; acquire_timeout := Some 1000 |}.
Definition proc_of (t : nat) : nat := if Nat.eqb t 0 then 0%nat else 1%nat.

(** Thread 0 runs a browser; thread 1, of the other process, waits for the
    lock file, and thread 2 for thread 1's permit. *)
Definition contended : list event :=
  [Call 0; SemAcquire 0; Flock 0 None; Call 1; SemAcquire 1; Flock 1 None; EndPass 1;
   Tick 1; Call 2; Tick 999; Wake 1; Flock 1 None; EndPass 1].
Definition stuck : list event :=
  [SemAcquire 2; Flock 2 None; EndPass 2; Tick 1000; Wake 2; Flock 2 None].

Definition after (es : list event) : System :=
  default (start gate_of 0) (run gate_of proc_of es (start gate_of 0)).

Lemma positive p : 1 <= max_concurrent (gate_of p).
Proof. done. Qed.

Lemma run_reachable es s s' :
  reachable gate_of proc_of s → run gate_of proc_of es s = Some s' → reachable gate_of proc_of s'.
Proof.
  revert s. induction es as [| e es IH]; intros s Hs; cbn; [by intros [= <-] |].
  destruct (step gate_of proc_of e s) as [[s1 out] |] eqn:E; [| done]. cbn.
  apply IH. by eapply reach_step.
Qed.

Lemma gate_after_reachable es : reachable gate_of proc_of (after es).
Proof.
  unfold after. destruct (run gate_of proc_of es _) as [s |] eqn:E; cbn; [| apply reach_start].
  eapply run_reachable; [apply reach_start | exact E].
Qed.
End GateDemo.

Lemma gate_never_leaks_witness :
  let s := GateDemo.after GateDemo.contended in
  locks s !! slot_path "/run/kerdoos" 0 = Some 0%nat
  ∧ phase s !! 0%nat = Some (Holding (Some (slot_path "/run/kerdoos" 0)))
  ∧ permits s 1%nat = 1.
Proof.
  pose proof (gate_never_leaks GateDemo.gate_of GateDemo.proc_of GateDemo.positive _
    (GateDemo.gate_after_reachable GateDemo.contended)) as (_ & Hl & _).
  assert (locks (GateDemo.after GateDemo.contended) !! slot_path "/run/kerdoos" 0 = Some 0%nat) as H0
    by (vm_compute; reflexivity).
  split_and!; [exact H0 | by apply Hl | vm_compute; reflexivity].
Defined.

Lemma gate_refines_spec_witness :
  insiders (GateDemo.after [Call 0; SemAcquire 0; Flock 0 None]) = {[0%nat]}
  ∧ spec_step GateDemo.gate_of GateDemo.proc_of (insiders (GateDemo.after [Call 0; SemAcquire 0]))
      (insiders (GateDemo.after [Call 0; SemAcquire 0; Flock 0 None])).
Proof.
  split; [vm_compute; reflexivity |].
  eapply (gate_refines_spec _ _ GateDemo.positive _ (Flock 0 None) _ None).
  - apply GateDemo.gate_after_reachable.
  - vm_compute. reflexivity.
Defined.

Lemma gate_capacity_witness :
  let s := GateDemo.after GateDemo.contended in
  insiders s = {[0%nat]}
  ∧ (size (sharers GateDemo.gate_of GateDemo.proc_of GateDemo.paths (insiders s)) ≤ 1)%nat.
Proof.
  split; [vm_compute; reflexivity |].
  apply (gate_capacity GateDemo.gate_of GateDemo.proc_of GateDemo.positive _
    (GateDemo.gate_after_reachable GateDemo.contended)).
Defined.

(** [acquire_timeout_seconds] bounds each of the two waits of [acquire], not
    the call: thread 2 calls at 1 ms with a timeout of one second, no call of
    it ever late, and is refused at 2000 ms. *)
Example acquire_waits_twice :
  match run GateDemo.gate_of GateDemo.proc_of (GateDemo.contended ++ GateDemo.stuck) (start GateDemo.gate_of 0) with
  | Some s => now s = 2000
      ∧ match step GateDemo.gate_of GateDemo.proc_of (EndPass 2) s with
        | Some (_, out) => out = Some (2%nat, timeout_error)
        | None => False
        end
  | None => False
  end.
Proof. vm_compute. split; reflexivity. Qed.
