(* ===== verification/Browser.v ===== *)
(** The browser tier ([autolycos/adapters/browser.py]): what its Chromium may
    reach, what document it returns and how it finds the processes of a fetch.
    The watchdog around it is in [Watchdog.v].

    Chromium and its driver library are the type class [Driver]: what each call
    answers after a given history of calls, as for the mail relay; the process
    table is the type class [ProcTable].  Text is Latin-1. *)

From S2P Require Import Prelude Domain Trace Safety Urls Egress Text.

Local Notation regex := Text.re.
Local Notation M := Prelude.M.

(** * What a fetch may reach *)

(** [_normalize_domains]; the frozen set is only iterated with [any]. *)
Definition normalize_domains (domains : list string) : gset string :=
  list_to_set ((λ d, of_chars (normalize_host d)) <$> filter (λ d, d ≠ "") domains).

Definition WEBRTC_IP_HANDLING_POLICY : string :=
  "--force-webrtc-ip-handling-policy=disable_non_proxied_udp".
Definition WEBRTC_IP_HANDLING_POLICY_NAMES : list string :=
  ["--webrtc-ip-handling-policy"; "--force-webrtc-ip-handling-policy"].
Definition BLOCK_POPUPS_ARG : string := "--block-new-web-contents".
(** Subtracts Chromium's own bypass rules, of which loopback is one. *)
Definition PROXY_BYPASS : string := "<-loopback>".

Definition is_webrtc_ip_handling_policy (arg : string) : bool :=
  let normalized := lower (chars arg) in
  existsb (λ name, bool_decide (normalized = chars name)
                   || bool_decide (chars (name +:+ "=") `prefix_of` normalized))
    WEBRTC_IP_HANDLING_POLICY_NAMES.

Definition browser_launch_args (args : list string) : list string :=
  (filter (λ a, is_webrtc_ip_handling_policy a = false) (strip_dangerous_browser_args args)
   ++ [WEBRTC_IP_HANDLING_POLICY; BLOCK_POPUPS_ARG])%list.

(** ** Host names *)

Definition label_edge (c : ascii) : bool :=
  range "a" "z" c || range "0" "9" c || bool_decide (c = "_"%char).
Definition label_inner (c : ascii) : bool := label_edge c || bool_decide (c = "-"%char).

(** [_HOSTNAME_LABEL_RE], without its anchors. *)
Definition LABEL_RE : regex :=
  Seq (Chr label_edge) (opt (Seq (at_most 61 (Chr label_inner)) (Chr label_edge))).

(** [_HOSTNAME_LABEL_RE.match(label)]: [$] also stands before a last newline. *)
Definition label_match (label : list ascii) : bool :=
  match match_at (Seq LABEL_RE AtEnd) (None, label) with Some _ => true | None => false end.

Definition is_hostname_shaped (host : list ascii) : bool :=
  negb (bool_decide (host = []) || (253 <? Z.of_nat (length host)))
  && forallb label_match (fields_of "."%char host).

Section Reach.
Variable domain_policy : string → bool.
Variable subresource_domains : gset string.

Definition subresource_allowed (host : list ascii) : bool :=
  existsb (λ d, bool_decide (host = chars d) || ends_with host ("."%char :: chars d))
    (elements subresource_domains).

Definition host_allowed (host : string) : bool :=
  let host := normalize_host host in
  is_hostname_shaped host
  && (domain_policy (of_chars host) || subresource_allowed host).

(** The route guard: whether the request goes on. *)
Definition guard (request_url : string) : result bool :=
  let? parts := urlsplit5 request_url in
  Ok (host_allowed (of_chars (default [] (hostname parts.(sr_netloc))))).
End Reach.

(** * The document *)

Definition MAX_HTML_BYTES : Z := 5 * 1024 * 1024.

Definition DEFAULT_PORT (scheme : list ascii) : option Z :=
  if bool_decide (scheme = chars "http") then Some 80
  else if bool_decide (scheme = chars "https") then Some 443 else None.

Definition effective_port (parts : SplitResult) : option Z :=
  match port parts.(sr_netloc) with
  | Raise _ => None
  | Ok (Some p) => Some p
  | Ok None => DEFAULT_PORT parts.(sr_scheme)
  end.

(** [(parts.hostname or "").rstrip(".")]. *)
Definition bare_host (parts : SplitResult) : list ascii :=
  rstrip_dot (default [] (hostname parts.(sr_netloc))).

(** One turn of the loop of [_check_final_document]. *)
Definition check_location (requested final : SplitResult) : result unit :=
  if has_userinfo final then raise FetchError "final document contains userinfo"
  else
    match DEFAULT_PORT final.(sr_scheme) with
    | None => raise FetchError "final document is not the requested host"
    | Some standard =>
        if negb (bool_decide (bare_host final = bare_host requested))
        then raise FetchError "final document is not the requested host"
        else if bool_decide (requested.(sr_scheme) = chars "https")
                && negb (bool_decide (final.(sr_scheme) = chars "https"))
        then raise FetchError "final document fell back from a requested https URL"
        else if bool_decide (effective_port final ∈ [effective_port requested; Some standard])
        then Ok tt
        else raise FetchError "final document is not on the requested port"
    end.

Definition check_final_document (final_url requested_url : string) (document_uri : option string)
    : result unit :=
  let? requested := urlsplit5 requested_url in
  let? final := urlsplit5 final_url in
  let? _ := check_location requested final in
  match document_uri with
  | None => Ok tt
  | Some uri =>
      let? document := urlsplit5 uri in
      let? _ := check_location requested document in
      let? a := urldefrag final_url in
      let? b := urldefrag uri in
      if bool_decide (a = b) then Ok tt
      else raise FetchError "final document URI does not match page URL"
  end.

(** What [json_value] hands back: a text, or the number that stands for a page
    over the cap. *)
Inductive JsValue := JsString (s : string) | JsNumber (n : Z).

(** [len(s.encode("utf-8", errors="ignore"))], of Latin-1 text. *)
Definition utf8_length (s : string) : Z :=
  foldr (λ c n, (if code c <? 128 then 1 else 2) + n) 0 (chars s).

(** [_read_document], from the answer of [wait_for_function]. *)
Definition read_document (answer : result JsValue) : result (string * string) :=
  match answer with
  | Raise e => if is_Exception e.(exn_class)
               then raise FetchError "rendered document read exceeded its budget" else Raise e
  | Ok (JsNumber _) => raise FetchError "rendered page exceeds characters cap"
  | Ok (JsString value) =>
      let '(document_uri, _, html) := partition "010"%char (chars value) in
      if MAX_HTML_BYTES <? utf8_length (of_chars html)
      then raise FetchError "rendered page exceeds bytes cap"
      else Ok (of_chars document_uri, of_chars html)
  end.

(** A response event of the page. *)
Record NavResponse := {
  nr_url : string;
  nr_status : Z;
  nr_navigation : bool;      (* request.is_navigation_request() *)
  nr_main_frame : bool;      (* frame.parent_frame is None *)
}.

(** [navigation_responses] after these events. *)
Definition navigation_responses (events : list NavResponse) : list (string * Z) :=
  (λ r, (r.(nr_url), r.(nr_status)))
    <$> filter (λ r, r.(nr_navigation) && r.(nr_main_frame) = true) events.

(** The status of the last response to the document's url. *)
Definition document_status (navs : list (string * Z)) (document_url : string) (status : Z) : Z :=
  match list_find (λ us, us.1 = document_url) (reverse navs) with
  | Some (_, us) => us.2
  | None => status
  end.

(** * One fetch on its thread *)

(** The arguments of [pw.chromium.launch]; the timeout in milliseconds. *)
Record LaunchOptions := {
  headless : bool;
  proxy_server : string;
  proxy_bypass : string;
  args : list string;
  timeout : Z;
}.

(** The calls, each with its answer. *)
Inductive call :=
| ProxyEnter (allowed : string → bool) (r : result string)          (* the proxy's url *)
| PlaywrightEnter (r : result unit)
| Launch (options : LaunchOptions) (r : result unit)
| NewContext (service_workers : string) (r : result unit)
| Route (pattern : string) (handler : string → result bool) (r : result unit)
| NewPage (r : result unit)
| Stealth (r : result unit)
| Goto (url : string) (r : result (option Z))
| ReadDocument (r : result JsValue)
| PageUrl (r : result string)
| CloseBrowser (r : result unit)
| PlaywrightExit (r : result unit)
| ProxyExit (r : result unit).

Notation history := (list call).

Class Driver := {
  proxy_enter : history → (string → bool) → result string;
  playwright_enter : history → result unit;
  launch : history → LaunchOptions → result unit;
  new_context : history → string → result unit;
  route : history → string → (string → result bool) → result unit;
  new_page : history → result unit;
  apply_stealth : history → result unit;
  goto : history → string → result (option Z);
  wait_for_function : history → result JsValue;
  responses : history → list NavResponse;    (* the events of the page so far *)
  page_url : history → result string;
  close_browser : history → result unit;
  playwright_exit : history → result unit;
  proxy_exit : history → result unit;
  is_launch_timeout : exn → bool;
}.

Section Run.
Context `{Driver}.
Variable domain_policy : string → bool.
Variable subresource_domains : gset string.
Variable launch_timeout : Z.    (* milliseconds *)
Variable marker : string.
Variable url : string.

Definition launch_options (proxy : string) : LaunchOptions :=
  {| headless := true; proxy_server := proxy; proxy_bypass := PROXY_BYPASS;
     args := browser_launch_args [marker]; timeout := launch_timeout |}.

(** The [try] around [launch]. *)
Definition do_launch (proxy : string) : M history unit :=
  mtry (perform (λ h, launch h (launch_options proxy)) (Launch (launch_options proxy)))
       (λ e, if is_launch_timeout e
             then mraise (Exn FetchError "browser launch exceeded timeout") else mraise e).

(** From [new_context] to the outcome. *)
Definition render : M history FetchResult :=
  let! _ := perform (λ h, new_context h "block") (NewContext "block") in
  let handler := guard domain_policy subresource_domains in
  let! _ := perform (λ h, route h "**/*" handler) (Route "**/*" handler) in
  let! _ := perform new_page NewPage in
  let! _ := perform apply_stealth Stealth in
  let! response := perform (λ h, goto h url) (Goto url) in
  match response with
  | None => mraise (Exn FetchError "no response from navigation")
  | Some response_status =>
      let! value := observe wait_for_function ReadDocument in
      let! (document_uri, html) := mlift (read_document value) in
      let! document_url := mlift (urldefrag document_uri) in
      let! events := mgets responses in
      let status := document_status (navigation_responses events) document_url response_status in
      let! final_url := perform page_url PageUrl in
      let! _ := mlift (check_final_document final_url url (Some document_uri)) in
      mret' {| html := html; http_status := status; method := "browser";
               challenged := looks_challenged status html |}
  end.

(** The two context managers and the [finally]. *)
Definition run_fetch : M history FetchResult :=
  let allowed := host_allowed domain_policy subresource_domains in
  let! proxy := perform (λ h, proxy_enter h allowed) (ProxyEnter allowed) in
  mfinally
    (let! _ := perform playwright_enter PlaywrightEnter in
     mfinally
       (let! _ := do_launch proxy in
        mfinally render (perform close_browser CloseBrowser))
       (perform playwright_exit PlaywrightExit))
    (perform proxy_exit ProxyExit).
End Run.

(** * Launch arguments and hosts *)

Lemma webrtc_policy_is_one : is_webrtc_ip_handling_policy WEBRTC_IP_HANDLING_POLICY = true.
Proof. reflexivity. Qed.

(** an argument of the caller reaches Chromium only if it is on no
    scrub list and is not a WebRTC policy, and after them come exactly one
    WebRTC policy, the one that forbids unproxied UDP, and the popup block. *)
Theorem browser_launch_args_spec (args : list string) :
  (∀ a, a ∈ browser_launch_args args ↔
     (a ∈ args ∧ is_webrtc_ip_handling_policy a = false
      ∧ ∀ bad, bad ∈ DANGEROUS_BROWSER_ARGS → ¬ chars bad `prefix_of` chars a)
     ∨ a = WEBRTC_IP_HANDLING_POLICY ∨ a = BLOCK_POPUPS_ARG)
  ∧ filter (λ a, is_webrtc_ip_handling_policy a = true) (browser_launch_args args)
    = [WEBRTC_IP_HANDLING_POLICY]
  ∧ last (browser_launch_args args) = Some BLOCK_POPUPS_ARG.
Proof.
  unfold browser_launch_args. split; [| split].
  - intros a. rewrite elem_of_app, list_elem_of_filter, strip_dangerous_browser_args_spec.
    rewrite elem_of_cons, list_elem_of_singleton. tauto.
  - rewrite filter_app, filter_none; [reflexivity |].
    intros a. rewrite list_elem_of_filter. intros [-> _]. done.
  - by rewrite last_app.
Qed.

(** A DNS label as the pattern spells it. *)
Definition dns_label (l : list ascii) : Prop :=
  Forall (λ c, label_inner c = true) l ∧ (1 ≤ length l ≤ 63)%nat
  ∧ (∃ c, head l = Some c ∧ label_edge c = true) ∧ (∃ c, last l = Some c ∧ label_edge c = true).

Lemma label_edge_inner c : label_edge c = true → label_inner c = true.
Proof. unfold label_inner. by intros ->. Qed.

Lemma lang_label l : lang LABEL_RE l ↔ dns_label l.
Proof.
  unfold LABEL_RE, dns_label. split.
  - intros (u & v & -> & Hu & Hv)%lang_seq_inv.
    apply lang_chr_inv in Hu as (x & -> & Hx).
    apply lang_opt_inv in Hv as [-> | (s & t & -> & Hs & Ht)%lang_seq_inv].
    + split_and!; cbn; [| lia | lia | by exists x | by exists x].
      by repeat constructor; apply label_edge_inner.
    + apply lang_at_most in Hs as [Hlen Hall]. apply lang_chr_inv in Ht as (y & -> & Hy).
      cbn [app]. split_and!.
      * apply Forall_cons. split; [by apply label_edge_inner |]. apply Forall_app.
        split; [done | by repeat constructor; apply label_edge_inner].
      * cbn. rewrite length_app. cbn. lia.
      * cbn. rewrite length_app. cbn. lia.
      * by exists x.
      * exists y. by rewrite app_comm_cons, last_snoc.
  - intros (Hall & Hlen & (c & Hc & Hec) & (d & Hd & Hed)).
    destruct l as [| c0 l]; [done |]. injection Hc as ->.
    change (c :: l) with ([c] ++ l)%list. constructor; [by constructor |].
    destruct (decide (l = [])) as [-> | Hne]; [apply lang_alt_r; constructor |].
    apply lang_alt_l. destruct (exists_last Hne) as (l' & y & ->).
    rewrite app_comm_cons, last_snoc in Hd. injection Hd as ->.
    constructor; [| by constructor]. apply Forall_cons in Hall as [_ [Hall _]%Forall_app].
    apply lang_at_most_intro; [| done]. cbn in Hlen. rewrite length_app in Hlen. cbn in Hlen. lia.
Qed.

Lemma label_match_spec l :
  label_match l = true ↔ dns_label l ∨ ∃ l', l = (l' ++ ["010"%char])%list ∧ dns_label l'.
Proof.
  unfold label_match. rewrite <- lang_label. setoid_rewrite <- lang_label.
  rewrite <- match_at_end by reflexivity. split.
  - destruct (match_at _ _); [by eexists | done].
  - by intros [? ->].
Qed.

(** a request or CONNECT host is let through exactly when, lower-cased
    and without trailing dots, it is a text of at most 253 characters whose
    labels are DNS labels, and the navigation policy allows it or its last
    labels are those of a declared sub-resource domain.  (A label may also end
    in a newline.) *)
Theorem host_allowed_spec (domain_policy : string → bool) (subs : gset string) (host : string) :
  let h := normalize_host host in
  host_allowed domain_policy subs host = true ↔
    h ≠ [] ∧ (length h ≤ 253)%nat
    ∧ (∀ l, l ∈ fields_of "."%char h →
         dns_label l ∨ ∃ l', l = (l' ++ ["010"%char])%list ∧ dns_label l')
    ∧ (domain_policy (of_chars h) = true
       ∨ ∃ d, d ∈ subs ∧ fields_of "."%char (chars d) `suffix_of` fields_of "."%char h).
Proof.
  intros h. unfold host_allowed, is_hostname_shaped. fold h.
  rewrite !andb_true_iff, orb_true_iff, negb_true_iff, orb_false_iff, bool_decide_eq_false,
    Z.ltb_ge, forallb_forall.
  setoid_rewrite <- list_elem_of_In. setoid_rewrite label_match_spec.
  assert (subresource_allowed subs h = true ↔
          ∃ d, d ∈ subs ∧ fields_of "."%char (chars d) `suffix_of` fields_of "."%char h) as ->.
  { unfold subresource_allowed, ends_with. rewrite existsb_exists.
    setoid_rewrite <- list_elem_of_In. setoid_rewrite elem_of_elements.
    setoid_rewrite orb_true_iff. setoid_rewrite bool_decide_eq_true.
    by setoid_rewrite label_suffix. }
  assert (Z.of_nat (length h) <= 253 ↔ (length h ≤ 253)%nat) as -> by lia. tauto.
Qed.

(** [$] lets a newline end a label. *)
Example newline_label_accepted :
  host_allowed (domain_allowed ["kabum.com.br"]) ∅
    (of_chars (chars "evil.com" ++ "010"%char :: chars ".kabum.com.br")) = true
  ∧ host_allowed (domain_allowed ["kabum.com.br"]) ∅
    (of_chars (chars "evil.com" ++ "009"%char :: chars ".kabum.com.br")) = false.
Proof. split; vm_compute; reflexivity. Qed.

(** * The final document *)

(** The final location is on the requested site: same host, no user
    information, no fall back from https, the requested port or the standard
    one of its scheme. *)
Definition same_site (requested final : SplitResult) : Prop :=
  "@"%char ∉ final.(sr_netloc)
  ∧ bare_host final = bare_host requested
  ∧ (requested.(sr_scheme) = chars "https" → final.(sr_scheme) = chars "https")
  ∧ ∃ standard, DEFAULT_PORT final.(sr_scheme) = Some standard
    ∧ (effective_port final = effective_port requested ∨ effective_port final = Some standard).

Lemma check_location_ok requested final :
  check_location requested final = Ok tt ↔ same_site requested final.
Proof.
  unfold check_location, same_site, has_userinfo.
  case_bool_decide as Hat; [split; [done | by intros [? _]] |].
  destruct (DEFAULT_PORT (sr_scheme final)) as [standard |] eqn:Ed.
  2: { split; [done |]. by intros (_ & _ & _ & ? & ? & _). }
  case_bool_decide as Hh; cbn [negb].
  2: { split; [done |]. by intros (_ & ? & _). }
  case_bool_decide as Hr; cbn [andb].
  1: case_bool_decide as Hf; cbn [negb andb].
  2: { split; [done |]. intros (_ & _ & ? & _). naive_solver. }
  all: case_bool_decide as Hp; rewrite !elem_of_cons in Hp;
    (split; [intros ?; split_and!; [done.. |]; exists standard; split; [done |]; set_solver |]).
  all: intros (_ & _ & _ & st & [= <-] & ?); try done; exfalso; apply Hp; naive_solver.
Qed.

(** a document is accepted exactly when the page's url and the
    document's own uri are both on the requested site and are the same
    document up to the fragment. *)
Theorem check_final_document_spec (final_url requested_url uri : string)
    (requested final document : SplitResult) :
  urlsplit5 requested_url = Ok requested → urlsplit5 final_url = Ok final →
  urlsplit5 uri = Ok document →
  check_final_document final_url requested_url (Some uri) = Ok tt ↔
    same_site requested final ∧ same_site requested document
    ∧ ∃ u, urldefrag final_url = Ok u ∧ urldefrag uri = Ok u.
Proof.
  intros Hr Hf Hd. unfold check_final_document. rewrite Hr, Hf. cbn [rbind].
  rewrite <- !check_location_ok.
  destruct (check_location requested final) as [[] | e]; cbn [rbind]; [| naive_solver].
  rewrite Hd. cbn [rbind].
  destruct (check_location requested document) as [[] | e]; cbn [rbind]; [| naive_solver].
  destruct (urldefrag final_url) as [a | e]; cbn [rbind]; [| naive_solver].
  destruct (urldefrag uri) as [b | e]; cbn [rbind]; [| naive_solver].
  case_bool_decide; naive_solver.
Qed.

Lemma check_final_document_spec_witness :
  urlsplit5 "https://kabum.com.br/p/1" = Ok (mkSplit (chars "https") (chars "kabum.com.br") (chars "/p/1") [] [])
  ∧ check_final_document "https://KABUM.com.br.:443/p/1#top" "https://kabum.com.br/p/1"
      (Some "https://KABUM.com.br.:443/p/1#buy") = Ok tt.
Proof.
  split; [reflexivity |].
  apply (check_final_document_spec _ _ _
    (mkSplit (chars "https") (chars "kabum.com.br") (chars "/p/1") [] [])
    (mkSplit (chars "https") (chars "KABUM.com.br.:443") (chars "/p/1") [] (chars "top"))
    (mkSplit (chars "https") (chars "KABUM.com.br.:443") (chars "/p/1") [] (chars "buy")));
    [reflexivity.. |].
  split; [| split]; [unfold same_site; split_and!.. |];
    [apply (bool_decide_eq_false_1 _) | | | exists 443
    | apply (bool_decide_eq_false_1 _) | | | exists 443 |].
  4, 8: split; [reflexivity | left].
  all: try (vm_compute; reflexivity).
  exists "https://KABUM.com.br.:443/p/1". split; vm_compute; reflexivity.
Defined.

(** * The cycle of one fetch *)

Section RunProofs.
Context `{Driver}.
Variable (domain_policy : string → bool) (subresource_domains : gset string).
Variable (launch_timeout : Z) (marker url : string).
Let allowed := host_allowed domain_policy subresource_domains.
Let handler := guard domain_policy subresource_domains.

(** The reads of a page on its way to the url. *)
Definition navigation (c : call) : Prop :=
  (∃ r, c = Goto url r) ∨ (∃ r, c = ReadDocument r) ∨ ∃ r, c = PageUrl r.

(** What a fetch does with an open browser: a context whose service workers are
    blocked, the guard on every request of it, a page with the stealth script,
    and only then the navigation. *)
Definition browsing : history → Prop :=
  steps [NewContext "block"; Route "**/*" handler; NewPage; Stealth] (Forall navigation).

Lemma render_calls : adds browsing (render domain_policy subresource_domains url).
Proof.
  unfold render, browsing. do 4 apply adds_step. cbn.
  apply adds_bind; [apply adds_perform; intros r; left; by exists r |].
  intros [status |]; [| by apply adds_nil].
  apply adds_bind; [apply adds_observe; intros r; right; left; by exists r | intros value].
  apply adds_bind; [by apply adds_nil | intros [document_uri doc_html]].
  apply adds_bind; [by apply adds_nil | intros document_url].
  apply adds_bind; [by apply adds_nil | intros events].
  apply adds_bind; [apply adds_perform; intros r; right; right; by exists r | intros final_url].
  apply adds_bind; [by apply adds_nil | intros _]. by apply adds_nil.
Qed.

(** C23: whatever the driver answers, a fetch starts a proxy that lets through
    the fetch's own hosts only, launches Chromium headless, with its scrubbed
    arguments, through that proxy and with Chromium's implicit bypass of it
    (loopback) withdrawn; in the browser, service workers are blocked and every
    request is guarded before the page navigates, to the url asked for; and the
    fetch then closes the browser, leaves the driver and stops the proxy, in
    this order. *)
Theorem run_fetch_closes_everything :
  adds (opened (ProxyEnter allowed) (λ proxy,
          opened PlaywrightEnter (λ _,
            opened (Launch {| headless := true; proxy_server := proxy;
                              proxy_bypass := "<-loopback>";
                              args := browser_launch_args [marker]; timeout := launch_timeout |})
              (λ _, browsing) CloseBrowser) PlaywrightExit) ProxyExit)
    (run_fetch domain_policy subresource_domains launch_timeout marker url).
Proof.
  apply adds_opened; [intros h; left; by eexists |]. intros proxy.
  apply adds_opened; [intros h; left; by eexists |]. intros _.
  apply adds_opened; [| intros _; apply render_calls].
  intros h. unfold do_launch, mtry, perform.
  destruct (launch h (launch_options _ _ proxy)) as [[] | e]; [left; by eexists |].
  destruct (is_Exception (exn_class e)); [| left; by eexists].
  destruct (is_launch_timeout e); [right; by eexists e, _ | left; by eexists].
Qed.

(** What a document returned by [render] went through. *)
Record vetted (h : history) (res : FetchResult) : Prop := {
  vet_goto : ∃ s, Goto url (Ok (Some s)) ∈ h;
  vet_document : ∃ value uri final_url found,
    ReadDocument (Ok (JsString value)) ∈ h
    ∧ PageUrl (Ok final_url) ∈ h
    ∧ partition "010"%char (chars value) = (chars uri, found, chars (html res))
    ∧ check_final_document final_url url (Some uri) = Ok tt;
  vet_size : utf8_length (html res) <= MAX_HTML_BYTES;
  vet_method : method res = "browser";
  vet_challenged : challenged res = looks_challenged (http_status res) (html res);
}.

Lemma read_document_ok answer uri text :
  read_document answer = Ok (uri, text) →
  ∃ value found, answer = Ok (JsString value)
    ∧ partition "010"%char (chars value) = (chars uri, found, chars text)
    ∧ utf8_length text <= MAX_HTML_BYTES.
Proof.
  destruct answer as [[value | n] | e]; cbn; [| done | by destruct (is_Exception _)].
  destruct (partition _ _) as [[u f] t] eqn:E. destruct (Z.ltb_spec MAX_HTML_BYTES (utf8_length (of_chars t)));
    [done |]. intros [= <- <-]. exists value, f. rewrite !chars_of_chars. by split_and!.
Qed.

Lemma render_vetted h res h' : render domain_policy subresource_domains url h = (Ok res, h') → vetted h' res.
Proof.
  intros Hr. unfold render in Hr.
  do 4 (apply mbind_inv in Hr as (? & ? & [_ ?]%perform_inv & Hr); subst).
  apply mbind_inv in Hr as (response & h5 & [_ ->]%perform_inv & Hr).
  destruct response as [status |]; [| done].
  apply mbind_inv in Hr as (answer & h6 & [= <- <-] & Hr).
  apply mbind_inv in Hr as ([uri text] & h7 & [= Hread <-] & Hr).
  apply mbind_inv in Hr as (document_url & h8 & [= _ <-] & Hr).
  apply mbind_inv in Hr as (events & h9 & [= _ <-] & Hr).
  apply mbind_inv in Hr as (final_url & h10 & [_ ->]%perform_inv & Hr).
  apply mbind_inv in Hr as ([] & h11 & [= Hcheck <-] & Hr). injection Hr as <- <-.
  apply read_document_ok in Hread as (value & found & Ha & Hp & Hs).
  split; cbn; [| | done..].
  - exists status. set_solver.
  - exists value, uri, final_url, found. rewrite Ha. split_and!; [set_solver.. | done | done].
Qed.

(** A page is returned only if the navigation to the requested url
    answered, the document read (of at most the byte cap) and the page itself
    are both on the requested site and name the same document, and the result
    is that document's text with the challenge flag computed from it. *)
Theorem run_fetch_result_vetted (h : history) (res : FetchResult) (h' : history) :
  run_fetch domain_policy subresource_domains launch_timeout marker url h = (Ok res, h') → vetted h' res.
Proof.
  intros Hr. unfold run_fetch in Hr.
  apply mbind_inv in Hr as (proxy & h1 & [_ ->]%perform_inv & Hr).
  apply mfinally_inv in Hr as (h2 & Hr & [_ ->]%perform_inv).
  apply mbind_inv in Hr as (? & h3 & [_ ->]%perform_inv & Hr).
  apply mfinally_inv in Hr as (h4 & Hr & [_ ->]%perform_inv).
  apply mbind_inv in Hr as (? & h5 & Hl & Hr).
  apply mfinally_inv in Hr as (h6 & Hr & [_ ->]%perform_inv).
  destruct (render_vetted _ _ _ Hr) as [[s Hs] (v & u & f & fd & H1 & H2 & H3 & H4) ? ? ?].
  split; [| | done..]; [exists s; set_solver |].
  exists v, u, f, fd. split_and!; [set_solver.. | done | done].
Qed.
End RunProofs.

(** A driver whose every call succeeds and whose page is [value] at [at_url]. *)
Definition tame_driver (value at_url : string) : Driver :=
  {| proxy_enter := λ _ _, Ok "http://127.0.0.1:3128";
     playwright_enter := λ _, Ok tt;
     launch := λ _ _, Ok tt;
     new_context := λ _ _, Ok tt;
     route := λ _ _ _, Ok tt;
     new_page := λ _, Ok tt;
     apply_stealth := λ _, Ok tt;
     goto := λ _ _, Ok (Some 200);
     wait_for_function := λ _, Ok (JsString value);
     responses := λ _, [{| nr_url := at_url; nr_status := 503; nr_navigation := true; nr_main_frame := true |}];
     page_url := λ _, Ok at_url;
     close_browser := λ _, Ok tt;
     playwright_exit := λ _, Ok tt;
     proxy_exit := λ _, Ok tt;
     is_launch_timeout := λ e, bool_decide (exn_class e = TimeoutError) |}.

Lemma run_fetch_result_vetted_witness :
  let D := tame_driver (of_chars (chars "https://kabum.com.br/p" ++ "010"%char :: chars "<html>"))
             "https://kabum.com.br/p" in
  let r := @run_fetch D (domain_allowed ["kabum.com.br"]) ∅ 20000 "--autolycos-launch-id=ab" "https://kabum.com.br/p" [] in
  r.1 = Ok {| html := "<html>"; http_status := 503; method := "browser"; challenged := true |}
  ∧ @vetted "https://kabum.com.br/p" r.2
      {| html := "<html>"; http_status := 503; method := "browser"; challenged := true |}.
Proof.
  intros D r. set (res := {| html := "<html>" |}).
  assert (Hr : r.1 = Ok res) by (vm_compute; reflexivity). split; [exact Hr |].
  apply (@run_fetch_result_vetted D (domain_allowed ["kabum.com.br"]) ∅ 20000
    "--autolycos-launch-id=ab" "https://kabum.com.br/p" []).
  rewrite <- Hr. apply surjective_pairing.
Defined.

(** * The processes of a fetch *)

(** A process is its pid; [None] is a [psutil.Error]. *)
Class ProcTable := {
  self_children : option (list Z);           (* of this process, recursively *)
  children : Z → option (list Z);
  parent : Z → option (option Z);
  cmdline : Z → option (list string);
}.

Section Processes.
Context `{ProcTable}.

Definition is_substring (sub s : string) : bool := contains_text (chars s) (chars sub).

Definition process_matches_launch (proc : Z) (marker : string) : bool :=
  match cmdline proc with
  | None => false
  | Some args => existsb (is_substring marker) args
  end.

(** [d[proc.pid] = proc]: a dictionary keeps the first place of a key. *)
Definition put (proc : Z) (d : list Z) : list Z :=
  if bool_decide (proc ∈ d) then d else (d ++ [proc])%list.

Definition driver_of (proc : Z) : option Z :=
  match parent proc with
  | Some (Some p) =>
      match cmdline p with
      | Some args => if bool_decide ("run-driver" ∈ args) then Some p else None
      | None => None
      end
  | _ => None
  end.

Definition add_drivers (roots : list Z) : list Z :=
  foldl (λ d r, match driver_of r with Some p => put p d | None => d end) [] roots.

Definition add_side (drivers d : list Z) (root : Z) : list Z :=
  let d := if bool_decide (root ∈ drivers) then d else put root d in
  match children root with
  | None => d
  | Some desc => foldl (λ d p, if bool_decide (p ∈ drivers) then d else put p d) d desc
  end.

Definition launch_tree_parts (marker : string) : list Z * list Z :=
  match self_children with
  | None => ([], [])
  | Some candidates =>
      let roots := filter (λ p, process_matches_launch p marker = true) candidates in
      let drivers := add_drivers roots in
      (foldl (add_side drivers) [] (roots ++ drivers)%list, drivers)
  end.

Definition launch_process_tree (marker : string) : list Z :=
  let '(chromium, driver) := launch_tree_parts marker in (chromium ++ driver)%list.

(** ** What it finds *)

Lemma elem_of_put x p d : x ∈ put p d ↔ x = p ∨ x ∈ d.
Proof. unfold put. case_bool_decide; set_solver. Qed.

Lemma NoDup_put p d : NoDup d → NoDup (put p d).
Proof.
  unfold put. case_bool_decide; [done |]. intros Hd. apply NoDup_app.
  split_and!; [done | set_solver | apply NoDup_singleton].
Qed.

(** A fold whose steps each add the members of [f x]. *)
Lemma elem_of_foldl_put {A} (step : list Z → A → list Z) (f : A → Z → Prop) l d x :
  (∀ d a x, x ∈ step d a ↔ f a x ∨ x ∈ d) →
  x ∈ foldl step d l ↔ (∃ a, a ∈ l ∧ f a x) ∨ x ∈ d.
Proof.
  intros Hs. revert d. induction l as [| a l IH]; intros d; cbn.
  - split; [by right | intros [(? & ?%elem_of_nil & _) | ?]; done].
  - rewrite IH, Hs. setoid_rewrite elem_of_cons. naive_solver.
Qed.

Lemma NoDup_foldl {A} (step : list Z → A → list Z) l d :
  (∀ d a, NoDup d → NoDup (step d a)) → NoDup d → NoDup (foldl step d l).
Proof. intros Hs. revert d. induction l as [| a l IH]; intros d Hd; cbn; auto. Qed.

Lemma elem_of_add_drivers roots x :
  x ∈ add_drivers roots ↔ ∃ r, r ∈ roots ∧ driver_of r = Some x.
Proof.
  unfold add_drivers. rewrite (elem_of_foldl_put _ (λ r x, driver_of r = Some x)).
  - set_solver.
  - intros d a y. destruct (driver_of a); [rewrite elem_of_put |]; naive_solver.
Qed.

Lemma elem_of_add_side drivers d root x :
  x ∈ add_side drivers d root ↔
  (x ∉ drivers ∧ (x = root ∨ x ∈ default [] (children root))) ∨ x ∈ d.
Proof.
  unfold add_side. set (d1 := if bool_decide _ then _ else _).
  assert (Hd1 : ∀ y, y ∈ d1 ↔ (y ∉ drivers ∧ y = root) ∨ y ∈ d).
  { intros y. subst d1. case_bool_decide; [| rewrite elem_of_put]; naive_solver. }
  destruct (children root) as [desc |]; cbn; [| rewrite Hd1; set_solver].
  rewrite (elem_of_foldl_put _ (λ p x, x ∉ drivers ∧ x = p)).
  - rewrite Hd1. naive_solver.
  - intros d' a y. case_bool_decide; [| rewrite elem_of_put]; naive_solver.
Qed.

(** the driver side is made only of parents of a marked process that
    carry the exact argument [run-driver]; the Chromium side is every marked
    process and every descendant of a marked process or of a driver, drivers
    excepted; no process is listed twice or on both sides. *)
Theorem launch_tree_parts_spec (marker : string) (candidates : list Z) :
  self_children = Some candidates →
  let marked p := p ∈ candidates ∧ process_matches_launch p marker = true in
  let '(chromium, driver) := launch_tree_parts marker in
  (∀ p, p ∈ driver ↔ ∃ r args, marked r ∧ parent r = Some (Some p)
                       ∧ cmdline p = Some args ∧ "run-driver" ∈ args)
  ∧ (∀ p, p ∈ chromium ↔
       p ∉ driver ∧ ∃ r, (marked r ∨ r ∈ driver) ∧ (p = r ∨ p ∈ default [] (children r)))
  ∧ NoDup chromium ∧ NoDup driver.
Proof.
  intros Hc marked. unfold launch_tree_parts. rewrite Hc.
  set (roots := filter _ _). set (drivers := add_drivers roots).
  assert (Hr : ∀ p, p ∈ roots ↔ marked p).
  { intros p. unfold roots, marked. rewrite list_elem_of_filter. tauto. }
  split_and!.
  - intros p. unfold drivers. rewrite elem_of_add_drivers. setoid_rewrite Hr. unfold driver_of.
    split.
    + intros (r & Hm & Hd). destruct (parent r) as [[q |] |] eqn:Ep; try done.
      destruct (cmdline q) as [args |] eqn:Eq; [| done]. case_bool_decide; [| done].
      injection Hd as ->. by exists r, args.
    + intros (r & args & Hm & Hp & Ha & Hin). exists r. split; [done |].
      rewrite Hp, Ha. by rewrite bool_decide_eq_true_2.
  - intros p. rewrite (elem_of_foldl_put _ _ _ _ _ (elem_of_add_side drivers)).
    setoid_rewrite elem_of_app. setoid_rewrite Hr. set_solver.
  - apply NoDup_foldl; [| constructor]. intros d a Hd. unfold add_side.
    assert (Hd1 : NoDup (if bool_decide (a ∈ drivers) then d else put a d))
      by (case_bool_decide; [done | by apply NoDup_put]).
    destruct (children a); [| done]. apply NoDup_foldl; [| done].
    clear Hd1. intros d' x Hd'. case_bool_decide; [done | by apply NoDup_put].
  - apply NoDup_foldl; [| constructor]. intros d a Hd. destruct (driver_of a); [by apply NoDup_put | done].
Qed.
End Processes.

(** ** Killing them *)

(** What is done to the processes and the thread of a stuck fetch. *)
Inductive os_call := KillAll (procs : list Z) | JoinFor (grace : Z).

Notation os_history := (list os_call).

(** The process table moves; [wait_procs] says who survives, or raises. *)
Class Os := {
  table : os_history → ProcTable;
  psutil_imports : bool;
  wait_procs : os_history → option (list Z);
  still_running : os_history → bool;       (* run_thread.is_alive() *)
}.

Section Release.
Context `{Os}.

Definition kill_and_wait (procs : list Z) (h : os_history) : bool * os_history :=
  match procs with
  | [] => (true, h)
  | _ =>
      let h := (h ++ [KillAll procs])%list in
      (match wait_procs h with None => false | Some alive => bool_decide (alive = []) end, h)
  end.

Definition kill_launch_processes (marker : string) (h : os_history) : bool * os_history :=
  if psutil_imports then kill_and_wait (@launch_process_tree (table h) marker) h else (false, h).

(** [_release_stuck_fetch]: whether the fetch is counted as abandoned. *)
Definition release_stuck_fetch (marker : string) (grace : Z) (h : os_history) : bool * os_history :=
  if psutil_imports then
    let '(chromium, driver) := @launch_tree_parts (table h) marker in
    let '(_, h) := kill_and_wait chromium h in
    let h := (h ++ [JoinFor grace])%list in
    if still_running h then let '(_, h) := kill_and_wait driver h in (true, h) else (false, h)
  else let '(dead, h) := kill_launch_processes marker h in (negb dead, h).

Lemma chromium_not_driver (T : ProcTable) marker p :
  p ∈ (launch_tree_parts marker).1 → p ∉ (launch_tree_parts marker).2.
Proof.
  unfold launch_tree_parts. destruct self_children as [candidates |]; [| set_solver]. cbn.
  rewrite (elem_of_foldl_put _ _ _ _ _ (elem_of_add_side _)). set_solver.
Qed.

(** The signals that killing these processes takes. *)
Definition kills (procs : list Z) : os_history :=
  match procs with [] => [] | _ => [KillAll procs] end.

Lemma kill_and_wait_trace procs h : (kill_and_wait procs h).2 = (h ++ kills procs)%list.
Proof. destruct procs; [by rewrite app_nil_r | done]. Qed.

(** a stuck fetch's Chromium side is killed first, which never holds a
    patchright driver; then its thread gets its grace, and only if it still
    runs then is the driver, identified before Chromium died, killed too and
    the fetch counted as abandoned. *)
Theorem driver_killed_after_grace (marker : string) (grace : Z) (h : os_history) :
  psutil_imports = true →
  let '(chromium, driver) := @launch_tree_parts (table h) marker in
  let waited := (h ++ kills chromium ++ [JoinFor grace])%list in
  (∀ p, p ∈ chromium → p ∉ driver)
  ∧ release_stuck_fetch marker grace h
    = if still_running waited then (true, waited ++ kills driver)%list else (false, waited).
Proof.
  intros Hp. unfold release_stuck_fetch. rewrite Hp.
  pose proof (chromium_not_driver (table h) marker) as Hdis.
  destruct (launch_tree_parts marker) as [chromium driver]. split; [exact Hdis |].
  pose proof (kill_and_wait_trace chromium h) as Hk. destruct (kill_and_wait chromium h) as [dead h1].
  cbn in Hk. subst h1. rewrite <- app_assoc.
  destruct (still_running _); [| done].
  pose proof (kill_and_wait_trace driver (h ++ kills chromium ++ [JoinFor grace])%list) as Hk.
  destruct (kill_and_wait driver _) as [dead' h2]. cbn in Hk. by subst h2.
Qed.
End Release.

(** A driver (2) with the marked Chromium (3), its renderer (4), and another
    fetch's Chromium (7). *)
Definition demo_table : ProcTable :=
  {| self_children := Some [2; 3; 4; 7];
     children := λ p, Some (if p =? 2 then [3; 4] else if p =? 3 then [4] else []);
     parent := λ p, Some (if p =? 3 then Some 2 else if p =? 4 then Some 3 else Some 1);
     cmdline := λ p, Some (if p =? 2 then ["node"; "run-driver"]
                           else if p =? 3 then ["chrome"; "--autolycos-launch-id=ab"]
                           else ["chrome"]) |}.

Lemma launch_tree_parts_spec_witness :
  @launch_tree_parts demo_table "launch-id=ab" = ([3; 4], [2])
  ∧ (∀ p, p ∈ [2] ↔ ∃ r args,
       (r ∈ [2; 3; 4; 7] ∧ @process_matches_launch demo_table r "launch-id=ab" = true)
       ∧ @parent demo_table r = Some (Some p) ∧ @cmdline demo_table p = Some args
       ∧ "run-driver" ∈ args).
Proof.
  split; [vm_compute; reflexivity |].
  exact (proj1 (@launch_tree_parts_spec demo_table "launch-id=ab" [2; 3; 4; 7] eq_refl)).
Defined.

Definition demo_os (stuck : bool) : Os :=
  {| table := λ _, demo_table; psutil_imports := true; wait_procs := λ _, Some [];
     still_running := λ _, stuck |}.

Lemma driver_killed_after_grace_witness :
  @release_stuck_fetch (demo_os true) "launch-id=ab" 5 []
    = (true, [KillAll [3; 4]; JoinFor 5; KillAll [2]])
  ∧ @release_stuck_fetch (demo_os false) "launch-id=ab" 5 []
    = (false, [KillAll [3; 4]; JoinFor 5]).
Proof.
  split.
  - exact (proj2 (@driver_killed_after_grace (demo_os true) "launch-id=ab" 5 [] eq_refl)).
  - exact (proj2 (@driver_killed_after_grace (demo_os false) "launch-id=ab" 5 [] eq_refl)).
Defined.
