(* ===== verification/Watchdog.v ===== *)
(** The watchdogs of the browser tiers: the fetch thread, its caller and the
    process-wide count of abandoned threads ([BrowserFetcher.fetch] of
    [autolycos/adapters/browser.py] and [CamoufoxFetcher.fetch] of
    [autolycos/adapters/camoufox.py]).

    Any number of fetches run at once; each is a caller and a thread, and one
    [event] is one indivisible action of one of them.  The clock, the page and
    the operating system are the booleans and outcomes the events carry. *)

From S2P Require Import Prelude Domain Browser.

(** * Counting *)

Section Count.
Context {A : Type}.

Definition bit (b : bool) : Z := if b then 1 else 0.

Fixpoint count_if (p : A → bool) (l : list A) : Z :=
  match l with [] => 0 | x :: l => bit (p x) + count_if p l end.

Lemma count_if_app p l k : count_if p (l ++ k) = count_if p l + count_if p k.
Proof. induction l as [| x l IH]; cbn; lia. Qed.

Lemma count_if_insert p l i x y :
  l !! i = Some x → count_if p (<[i := y]> l) = count_if p l - bit (p x) + bit (p y).
Proof.
  revert i. induction l as [| z l IH]; intros [| i] Hi; try done.
  - injection Hi as ->. cbn. lia.
  - cbn in Hi. change (<[S i := y]> (z :: l)) with (z :: <[i := y]> l). cbn [count_if].
    rewrite (IH _ Hi). lia.
Qed.

Lemma count_if_nonneg p l : 0 <= count_if p l.
Proof. induction l as [| x l IH]; cbn; [lia |]. unfold bit. destruct (p x); lia. Qed.

Lemma count_if_none p l : (∀ x, x ∈ l → p x = false) → count_if p l = 0.
Proof.
  induction l as [| x l IH]; intros H; [done |]. cbn. rewrite (H x) by left. cbn.
  rewrite IH; [done |]. intros y Hy. apply H. by right.
Qed.

Lemma count_if_le (p q : A → bool) l :
  (∀ x, x ∈ l → p x = true → q x = true) → count_if p l <= count_if q l.
Proof.
  induction l as [| x l IH]; intros H; [done |]. cbn.
  assert (count_if p l <= count_if q l) by (apply IH; intros y Hy; apply H; by right).
  unfold bit. destruct (p x) eqn:E; [rewrite (H x) by (done || left); lia |]. destruct (q x); lia.
Qed.

Lemma count_if_ext (p q : A → bool) l :
  (∀ x, x ∈ l → p x = q x) → count_if p l = count_if q l.
Proof.
  induction l as [| x l IH]; intros H; [done |]. cbn. rewrite (H x) by left.
  rewrite IH; [done |]. intros y Hy. apply H. by right.
Qed.
End Count.

(** How the work of a fetch thread ends. *)
Inductive outcome := Result (r : FetchResult) | Error (e : exn).

(** The end of [fetch]: the holder filled by the thread that won the claim. *)
Definition read_holder (holder : option outcome) : result FetchResult :=
  match holder with
  | Some (Error e) => Raise e
  | Some (Result r) => Ok r
  | None => raise KeyError "result"
  end.

(** * The system of fetches *)

(** A watchdog: what an action does to a fetch and to the process-wide count,
    the ceiling of the count, and the views of a fetch the laws are about: its
    invariant, whether the count stands for it, whether it is past the check
    of the ceiling and may still be counted, whether its caller is past that
    check. *)
Class Watchdog (F A : Type) := {
  wd_new : F;
  wd_act : A → Z → F → option (Z * F);
  wd_ceiling : Z;
  wd_ok : F → Prop;
  wd_stray : F → bool;
  wd_pending : F → bool;
  wd_in_flight : F → bool;
}.

Class LawfulWatchdog (F A : Type) `{Watchdog F A} := {
  law_new : wd_ok wd_new ∧ wd_stray wd_new = false ∧ wd_pending wd_new = false;
  law_ok a n f n' f' : wd_act a n f = Some (n', f') → wd_ok f → wd_ok f';
  law_stray a n f n' f' : wd_act a n f = Some (n', f') → wd_ok f →
    n' = n + bit (wd_stray f') - bit (wd_stray f);
  law_pending a n f n' f' : wd_act a n f = Some (n', f') → wd_ok f →
    bit (wd_pending f') <= bit (wd_pending f) - (n' - n)
    ∨ n < wd_ceiling ∧ n' = n ∧ wd_pending f = false ∧ wd_pending f' = true;
  law_in_flight f : wd_pending f = true → wd_in_flight f = true;
}.

Record System (F : Type) := mkSystem {
  count : Z;                (* _abandoned_fetch_thread_count *)
  fetches : list F;
}.
Arguments mkSystem {F}.
Arguments count {F}.
Arguments fetches {F}.

(** A new call of [fetch], or an action of the fetch at an index. *)
Inductive event (A : Type) := Call | Act (i : nat) (a : A).
Arguments Call {A}.
Arguments Act {A}.

Section System.
Context {F A : Type} `{Watchdog F A}.

Definition step (e : event A) (s : System F) : option (System F) :=
  match e with
  | Call => Some (mkSystem s.(count) (s.(fetches) ++ [wd_new]))
  | Act i a =>
      f ← s.(fetches) !! i; '(n, f') ← wd_act a s.(count) f;
      Some (mkSystem n (<[i := f']> s.(fetches)))
  end.

(** A run, with a test of every state on the way. *)
Fixpoint run_checked (p : System F → bool) (es : list (event A)) (s : System F)
    : option (System F) :=
  match es with
  | [] => Some s
  | e :: es => s' ← step e s; if p s' then run_checked p es s' else None
  end.
Definition run_events : list (event A) → System F → option (System F) := run_checked (λ _, true).

Definition initial : System F := mkSystem 0 [].

(** Reached through states that all satisfy [P]. *)
Inductive reachable (P : System F → Prop) : System F → Prop :=
| reach_initial : reachable P initial
| reach_step e s s' : reachable P s → step e s = Some s' → P s' → reachable P s'.

Lemma run_checked_reachable (p : System F → bool) (P : System F → Prop) es s s' :
  (∀ s, p s = true → P s) → run_checked p es s = Some s' → reachable P s → reachable P s'.
Proof.
  intros Hp. revert s. induction es as [| e es IH]; intros s Hr Hs; cbn in Hr; [by injection Hr as <- |].
  destruct (step e s) as [s1 |] eqn:E; [| done]. cbn in Hr.
  destruct (p s1) eqn:Ep; [| done]. apply (IH s1 Hr). eapply reach_step; eauto.
Qed.

Context `{!LawfulWatchdog F A}.

Definition system_ok (s : System F) : Prop :=
  (∀ f, f ∈ s.(fetches) → wd_ok f) ∧ s.(count) = count_if wd_stray s.(fetches).

Lemma step_system_ok e s s' : step e s = Some s' → system_ok s → system_ok s'.
Proof.
  intros Hs [Hall Hc]. destruct law_new as (Hn1 & Hn2 & _). destruct e as [| i a]; cbn in Hs.
  - injection Hs as <-. split; cbn.
    + intros f [Hf | ->%list_elem_of_singleton]%elem_of_app; [by apply Hall | done].
    + rewrite count_if_app, Hc. cbn. rewrite Hn2. cbn. lia.
  - destruct (fetches s !! i) as [f |] eqn:Ef; [| done]. cbn in Hs.
    destruct (wd_act a (count s) f) as [[n' f'] |] eqn:Ea; [| done]. injection Hs as <-.
    assert (Hok : wd_ok f) by (apply Hall; by eapply list_elem_of_lookup_2).
    split; cbn.
    + intros g [j Hj]%list_elem_of_lookup_1. destruct (decide (i = j)) as [<- | Hne].
      * rewrite list_lookup_insert_eq in Hj by (by eapply lookup_lt_Some). injection Hj as <-.
        by eapply law_ok.
      * rewrite list_lookup_insert_ne in Hj by done. apply Hall. by eapply list_elem_of_lookup_2.
    + rewrite (count_if_insert _ _ _ _ f') by exact Ef.
      apply law_stray in Ea as ->; [| done]. lia.
Qed.

Lemma reachable_system_ok P s : reachable P s → system_ok s.
Proof.
  induction 1 as [| e s s' Hr IH Hs HP]; [| by eapply step_system_ok].
  split; [by intros f ?%elem_of_nil | done].
Qed.

Lemma reachable_fetch_ok P s i f : reachable P s → s.(fetches) !! i = Some f → wd_ok f.
Proof. intros [Hall _]%reachable_system_ok Hf. apply Hall. by eapply list_elem_of_lookup_2. Qed.

(** With at most [k] callers in flight, the count exceeds the ceiling by less
    than [k]. *)
Lemma count_bounded k s :
  0 <= wd_ceiling → 1 <= k → reachable (λ s, count_if wd_in_flight s.(fetches) <= k) s →
  s.(count) <= wd_ceiling + k - 1.
Proof.
  intros Hmax Hk Hr.
  assert (s.(count) + count_if wd_pending s.(fetches) <= wd_ceiling + k - 1) as Hgoal;
    [| pose proof (count_if_nonneg wd_pending (fetches s)); lia].
  induction Hr as [| e s s' Hr IH Hs HP]; [cbn; lia |].
  apply reachable_system_ok in Hr as [Hall _]. destruct law_new as (_ & _ & Hn).
  destruct e as [| i a]; cbn in Hs.
  - injection Hs as <-. cbn in *. rewrite count_if_app. cbn. rewrite Hn. cbn. lia.
  - destruct (fetches s !! i) as [f |] eqn:Ef; [| done]. cbn in Hs.
    destruct (wd_act a (count s) f) as [[n' f'] |] eqn:Ea; [| done]. injection Hs as <-. cbn in *.
    apply law_pending in Ea as Hp; [| apply Hall; by eapply list_elem_of_lookup_2].
    assert (count_if wd_pending (<[i:=f']> (fetches s)) <= count_if wd_in_flight (<[i:=f']> (fetches s))).
    { apply count_if_le. intros x _. apply law_in_flight. }
    rewrite (count_if_insert wd_pending _ _ _ f') in * by exact Ef.
    destruct Hp as [Hp | (Hlt & -> & H1 & H2)]; [lia |]. rewrite H1, H2 in *. cbn in *. lia.
Qed.
End System.

(** * [BrowserFetcher.fetch] *)

Module Chromium.

Inductive cause := Crash | ReadBudget | Deadline.

(** Where the caller is: about to validate and check the ceiling, in
    [acquire], at the [while] test, before the test of each cause, about to
    claim, in [_release_stuck_fetch], about to count, about to raise, in the
    last [join]; [Gone] is the end of a fetch that raised for a cause. *)
Inductive main_pc :=
| Entry | AtGate | Loop | TestCrash | TestBudget | TestDeadline
| Claiming (c : cause) | Releasing (c : cause) | Counting (c : cause) | Leaving (c : cause)
| Joining | Done (r : result FetchResult) | Gone (c : cause).

(** Where the thread is: not started, in its cycle, about to claim, about to
    fill the holder, in the backstop kill, about to take the lock, returning,
    ended. *)
Inductive run_pc :=
| Idle | Work | Ready (o : outcome) | Hold (o : outcome) | Backstop | Settling | Returning | Dead.

Record Fetch := mkFetch {
  main : main_pc;
  run : run_pc;
  holder : option outcome;
  claimed : bool;
  finished : bool;          (* liveness *)
  counted : bool;
  reading : bool;           (* reading_document.is_set() *)
  crashed : bool;           (* renderer_crashed.is_set() *)
}.

Definition new_fetch : Fetch := mkFetch Entry Idle None false false false false false.

Definition set_main (m : main_pc) (f : Fetch) : Fetch :=
  mkFetch m f.(run) f.(holder) f.(claimed) f.(finished) f.(counted) f.(reading) f.(crashed).
Definition set_run (r : run_pc) (f : Fetch) : Fetch :=
  mkFetch f.(main) r f.(holder) f.(claimed) f.(finished) f.(counted) f.(reading) f.(crashed).
Definition set_claimed (f : Fetch) : Fetch :=
  mkFetch f.(main) f.(run) f.(holder) true f.(finished) f.(counted) f.(reading) f.(crashed).

Definition is_alive (f : Fetch) : bool := match f.(run) with Idle | Dead => false | _ => true end.

(** One action of the fetch at an index. *)
Inductive action :=
| Admit (valid : result unit)       (* validate_target, then the ceiling *)
| Enter (r : result unit)           (* the loads, the gate, the thread's start *)
| Turn (spent : bool)
| CheckCrash
| CheckBudget (late : bool)
| CheckDeadline
| MainClaim
| Release (kill_confirmed : bool)
| CountAbandoned
| Leave
| Join
| SetReading
| SetCrashed
| Finish (o : outcome)
| RunClaim
| Publish
| BackstopDone
| Settle
| Exit.

Definition cause_error (c : cause) : exn :=
  Exn FetchError (match c with
                  | Crash => "renderer crashed during document read"
                  | ReadBudget => "rendered document read exceeded its budget"
                  | Deadline => "browser fetch exceeded total timeout"
                  end).

(** [_count_abandoned]. *)
Definition count_abandoned (n : Z) (f : Fetch) : Z * Fetch :=
  if f.(finished) then (n, f)
  else (n + 1, mkFetch f.(main) f.(run) f.(holder) f.(claimed) f.(finished) true
                 f.(reading) f.(crashed)).

(** The [finally] of [_run]. *)
Definition settle (n : Z) (f : Fetch) : Z * Fetch :=
  (if f.(counted) then n - 1 else n,
   mkFetch f.(main) Returning f.(holder) f.(claimed) true f.(counted) f.(reading) f.(crashed)).

Section Machine.
Variable max_abandoned_fetches : Z.

(** The ceiling. *)
Definition refuse (abandoned_now : Z) : bool := max_abandoned_fetches <=? abandoned_now.

(** [import psutil] succeeds in this process. *)
Variable psutil : bool.

(** [_release_stuck_fetch]: whether it counts the fetch. *)
Definition release_counts (alive kill_confirmed : bool) : bool :=
  if psutil then alive else negb kill_confirmed.

(** What an action does to the fetch and to the count. *)
Definition act (a : action) (n : Z) (f : Fetch) : option (Z * Fetch) :=
  match a, f.(main) with
  | Admit (Raise e), Entry => Some (n, set_main (Done (Raise e)) f)
  | Admit (Ok _), Entry =>
      if refuse n
      then Some (n, set_main (Done (raise FetchError "browser tier refused")) f)
      else Some (n, set_main AtGate f)
  | Enter (Raise e), AtGate => Some (n, set_main (Done (Raise e)) f)
  | Enter (Ok _), AtGate => Some (n, set_main Loop (set_run Work f))
  | Turn spent, Loop =>
      Some (n, set_main (if is_alive f && negb spent then TestCrash else TestDeadline) f)
  | CheckCrash, TestCrash =>
      Some (n, set_main (if is_alive f && f.(reading) && f.(crashed) then Claiming Crash
                         else TestBudget) f)
  | CheckBudget late, TestBudget =>
      Some (n, set_main (if is_alive f && f.(reading) && late then Claiming ReadBudget else Loop) f)
  | CheckDeadline, TestDeadline =>
      Some (n, set_main (if is_alive f then Claiming Deadline else Joining) f)
  | MainClaim, Claiming c =>
      if f.(claimed)
      then Some (n, set_main (match c with
                              | Crash => TestBudget | ReadBudget => Loop | Deadline => Joining
                              end) f)
      else Some (n, set_main (Releasing c) (set_claimed f))
  | Release kill_confirmed, Releasing c =>
      Some (n, set_main (if release_counts (is_alive f) kill_confirmed then Counting c
                         else Leaving c) f)
  | CountAbandoned, Counting c =>
      let '(n', f') := count_abandoned n f in Some (n', set_main (Leaving c) f')
  | Leave, Leaving c => Some (n, set_main (Gone c) f)
  | Join, Joining =>
      match f.(run) with
      | Dead => Some (n, set_main (Done (read_holder f.(holder))) f)
      | _ => None
      end
  | SetReading, _ =>
      match f.(run) with
      | Work => Some (n, mkFetch f.(main) Work f.(holder) f.(claimed) f.(finished) f.(counted)
                           true f.(crashed))
      | _ => None
      end
  | SetCrashed, _ =>
      match f.(run) with
      | Work => Some (n, mkFetch f.(main) Work f.(holder) f.(claimed) f.(finished) f.(counted)
                           f.(reading) true)
      | _ => None
      end
  | Finish o, _ => match f.(run) with Work => Some (n, set_run (Ready o) f) | _ => None end
  | RunClaim, _ =>
      match f.(run) with
      | Ready o => if f.(claimed) then Some (n, set_run Backstop f)
                   else Some (n, set_run (Hold o) (set_claimed f))
      | _ => None
      end
  | Publish, _ =>
      match f.(run) with
      | Hold o => Some (n, mkFetch f.(main) Settling (Some o) f.(claimed) f.(finished) f.(counted)
                             f.(reading) f.(crashed))
      | _ => None
      end
  | BackstopDone, _ => match f.(run) with Backstop => Some (n, set_run Settling f) | _ => None end
  | Settle, _ =>
      match f.(run) with
      | Settling => Some (settle n f)
      | _ => None
      end
  | Exit, _ => match f.(run) with Returning => Some (n, set_run Dead f) | _ => None end
  | _, _ => None
  end.

End Machine.

Definition in_flight (f : Fetch) : bool :=
  match f.(main) with Entry | Done _ | Gone _ => false | _ => true end.

(** What [fetch] gave its caller. *)
Definition returned (f : Fetch) : option (result FetchResult) :=
  match f.(main) with
  | Done r => Some r
  | Gone c => Some (Raise (cause_error c))
  | _ => None
  end.

(** ** The invariant *)

Definition main_won (f : Fetch) : bool :=
  match f.(main) with Releasing _ | Counting _ | Leaving _ | Gone _ => true | _ => false end.
Definition released (f : Fetch) : bool :=
  match f.(main) with Leaving _ | Gone _ => true | _ => false end.
Definition holder_set (f : Fetch) : bool :=
  match f.(holder) with Some _ => true | None => false end.
Definition run_over (f : Fetch) : bool :=
  match f.(run) with Returning | Dead => true | _ => false end.

Definition fetch_ok (psutil : bool) (f : Fetch) : bool :=
  (match f.(main), f.(run) with
   | (Entry | AtGate | Done _), Idle | Done _, Dead => true
   | (Entry | AtGate | Done _), _ | _, Idle => false
   | _, _ => true
   end)
  && Bool.eqb (holder_set f) (match f.(run) with
                         | Settling | Returning | Dead => negb (main_won f)
                         | _ => false
                         end)
  && Bool.eqb f.(claimed) (main_won f || match f.(run) with
                                    | Hold _ | Settling | Returning | Dead => true
                                    | _ => false
                                    end)
  && (match f.(run) with Backstop => main_won f | Hold _ => negb (main_won f) | _ => true end)
  && Bool.eqb f.(finished) (run_over f)
  && implb f.(counted) (released f)
  && implb (psutil && released f) (f.(finished) || f.(counted)).

(** A thread that the count stands for. *)
Definition stray (f : Fetch) : bool := f.(counted) && negb f.(finished).

(** A thread whose caller has gone, or is about to, and that still runs. *)
Definition left_behind (f : Fetch) : bool := released f && negb f.(finished).

(** A caller past the ceiling that may still count its fetch. *)
Definition pending (f : Fetch) : bool := in_flight f && negb (released f).

(** What [Done] holds after the last [join]. *)
Definition answered (f : Fetch) : Prop :=
  ∀ r, f.(main) = Done r → f.(run) = Dead → r = read_holder f.(holder).

Definition watchdog (max_abandoned_fetches : Z) (psutil : bool) : Watchdog Fetch action := {|
  wd_new := new_fetch;
  wd_act := act max_abandoned_fetches psutil;
  wd_ceiling := max_abandoned_fetches;
  wd_ok := λ f, fetch_ok psutil f = true ∧ answered f;
  wd_stray := stray;
  wd_pending := pending;
  wd_in_flight := in_flight;
|}.

Section Proofs.
Variable max_abandoned_fetches : Z.
Variable psutil : bool.
Notation act := (act max_abandoned_fetches psutil).
Notation reachable := (@reachable Fetch action (watchdog max_abandoned_fetches psutil)).

Ltac explore f :=
  destruct f as [m r h c fi co re cr]; destruct m; try discriminate;
  destruct r; try discriminate; destruct h; try discriminate;
  destruct c, fi, co; cbn in *; try discriminate.

Lemma chromium_act_laws a n f n' f' :
  act a n f = Some (n', f') → fetch_ok psutil f = true →
  fetch_ok psutil f' = true
  ∧ n' = n + bit (stray f') - bit (stray f)
  ∧ (bit (pending f') <= bit (pending f) - (n' - n)
     ∨ n < max_abandoned_fetches ∧ n' = n ∧ pending f = false ∧ pending f' = true)
  ∧ (answered f → answered f').
Proof.
  destruct a as [[] | [] | [] | | late | | | k | | | | | | | | | | |]; cbn [Chromium.act]; intros Ha Hok.
  all: unfold release_counts, refuse, count_abandoned, settle in *; destruct psutil.
  all: explore f; break; simplify_eq/=; bool_prop.
  all: (split; [reflexivity |]); (split; [cbn; lia |]); split.
  all: try (intros Hf r' Hr Hd; simplify_eq/=; done).
  all: try (left; cbn; lia).
  all: right; cbn; split_and!; (done || lia).
Qed.

#[export] Instance lawful : @LawfulWatchdog Fetch action (watchdog max_abandoned_fetches psutil).
Proof.
  split; cbn.
  - by destruct psutil.
  - intros a n f n' f' Ha [Hok Hans]. destruct (chromium_act_laws _ _ _ _ _ Ha Hok) as (? & _ & _ & ?). auto.
  - intros a n f n' f' Ha [Hok _]. by destruct (chromium_act_laws _ _ _ _ _ Ha Hok) as (_ & ? & _).
  - intros a n f n' f' Ha [Hok _]. by destruct (chromium_act_laws _ _ _ _ _ Ha Hok) as (_ & _ & ? & _).
  - intros f. unfold pending. by intros [? _]%andb_prop.
Qed.

(** C22: the process-wide count is at all times the number of fetch threads
    that were counted and still run: it never goes negative, and when every
    counted thread has come back it is zero again.  When psutil can be
    imported, it is exactly the number of running threads whose caller has
    given up. *)
Theorem abandoned_count_exact (P : System Fetch → Prop) (s : System Fetch) :
  reachable P s →
  s.(count) = count_if stray s.(fetches) ∧ 0 <= s.(count)
  ∧ ((∀ f, f ∈ s.(fetches) → f.(finished) = true) → s.(count) = 0)
  ∧ (psutil = true → s.(count) = count_if left_behind s.(fetches)).
Proof.
  intros [Hall Hc]%reachable_system_ok. cbn in Hall, Hc. rewrite Hc. split_and!; [done | apply count_if_nonneg | |].
  - intros Hf. apply count_if_none. intros f Hin. unfold stray. rewrite (Hf f Hin).
    by rewrite andb_false_r.
  - intros Hp. apply count_if_ext. intros f Hin. destruct (Hall f Hin) as [Hok _].
    unfold fetch_ok in Hok. rewrite Hp in Hok. repeat (apply andb_prop in Hok as [Hok ?]).
    unfold stray, left_behind. destruct (counted f), (finished f), (released f); done.
Qed.

(** A fetch ends in one of three ways: before its thread starts; with
    what its own thread left in the holder, once that thread has ended; or
    with the error of the cause for which the caller claimed it, and then the
    holder stays empty.  The holder is never read empty. *)
Theorem fetch_outcome (P : System Fetch → Prop) (s : System Fetch) (i : nat) (f : Fetch)
    (r : result FetchResult) :
  reachable P s → s.(fetches) !! i = Some f → returned f = Some r →
  (f.(run) = Idle ∧ f.(main) = Done r)
  ∨ (f.(run) = Dead ∧ ∃ o, f.(holder) = Some o ∧ r = read_holder (Some o))
  ∨ (∃ c, f.(main) = Gone c ∧ r = Raise (cause_error c) ∧ f.(holder) = None).
Proof.
  intros Hreach Hf Hr. destruct (reachable_fetch_ok _ _ _ _ Hreach Hf) as [Hok Hans].
  unfold answered in Hans. unfold fetch_ok in Hok. repeat (apply andb_prop in Hok as [Hok ?]).
  unfold returned in Hr. unfold main_won, holder_set in *.
  destruct (main f) eqn:Em; try done; injection Hr as <-.
  - destruct (run f) eqn:Er; try done; [by left |]. right. left. split; [done |].
    rewrite (Hans _ eq_refl eq_refl). destruct (holder f) as [o |] eqn:Eh; [by exists o | done].
  - right. right. exists c. split_and!; [done.. |]. destruct (holder f); [| done].
    destruct (run f); done.
Qed.

(** with at most [k] callers past the check of the ceiling at a time, at
    most [k - 1] fetches more than the ceiling are ever abandoned at once; one
    caller at a time never exceeds it. *)
Theorem abandoned_bounded (k : Z) (s : System Fetch) :
  0 <= max_abandoned_fetches → 1 <= k →
  reachable (λ s, count_if in_flight s.(fetches) <= k) s →
  s.(count) <= max_abandoned_fetches + k - 1.
Proof.
  exact (@count_bounded Fetch action (watchdog max_abandoned_fetches psutil) lawful k s).
Qed.
End Proofs.

(** ** A fetch whose page hangs *)

(** The caller gives up at the read budget and abandons the thread. *)
#[local] Instance demo : Watchdog Fetch action := watchdog 1 true.
#[local] Instance demo_lawful : LawfulWatchdog Fetch action := lawful 1 true.

Definition abandon (i : nat) : list (event action) :=
  Act i <$> [Enter (Ok tt); SetReading; Turn false; CheckCrash; CheckBudget true; MainClaim;
             Release true; CountAbandoned; Leave].

(** The thread comes back by itself. *)
Definition come_back (i : nat) (o : outcome) : list (event action) :=
  Act i <$> [Finish o; RunClaim; BackstopDone; Settle; Exit].

Definition late_error : outcome := Error (Exn TimeoutError "page closed").

(** Two callers pass the check of a ceiling of one together. *)
Definition overshoot : list (event action) :=
  ([Call; Call; Act 0 (Admit (Ok tt)); Act 1 (Admit (Ok tt))] ++ abandon 0 ++ abandon 1)%list.

Lemma abandoned_count_exact_witness :
  ∃ s, run_events (overshoot ++ come_back 0 late_error)%list initial = Some s
    ∧ s.(count) = 1 ∧ s.(count) = count_if left_behind s.(fetches).
Proof.
  eexists. split; [vm_compute; reflexivity |]. split; [reflexivity |].
  apply (abandoned_count_exact 1 true (λ _, True)); [| reflexivity].
  apply (run_checked_reachable (λ _, true) _ (overshoot ++ come_back 0 late_error)%list initial);
    [done | vm_compute; reflexivity | constructor].
Defined.

Lemma fetch_outcome_witness :
  let s := default initial
             (run_events (overshoot ++ come_back 0 late_error)%list initial) in
  let r : result FetchResult := Raise (cause_error ReadBudget) in
  ∃ f, s.(fetches) !! 0%nat = Some f ∧ returned f = Some r
    ∧ ((f.(run) = Idle ∧ f.(main) = Done r)
       ∨ (f.(run) = Dead ∧ ∃ o, f.(holder) = Some o
            ∧ r = read_holder (Some o))
       ∨ (∃ c, f.(main) = Gone c ∧ r = Raise (cause_error c)
            ∧ f.(holder) = None)).
Proof.
  intros s r. eexists. split; [vm_compute; reflexivity |]. split; [reflexivity |].
  apply (fetch_outcome 1 true (λ _, True) s 0); [| vm_compute; reflexivity | reflexivity].
  apply (run_checked_reachable (λ _, true) _ (overshoot ++ come_back 0 late_error)%list initial);
    [done | vm_compute; reflexivity | constructor].
Defined.

(** The bound is reached: with a ceiling of one and two callers at a time,
    two threads are abandoned. *)
Lemma abandoned_bounded_witness :
  ∃ s, run_events overshoot initial = Some s ∧ s.(count) = 2 ∧ s.(count) <= 1 + 2 - 1.
Proof.
  eexists. split; [vm_compute; reflexivity |]. split; [reflexivity |].
  apply (abandoned_bounded 1 true 2); [lia | lia |].
  apply (run_checked_reachable (λ s, count_if in_flight s.(fetches) <=? 2) _ overshoot initial);
    [intros s; apply Z.leb_le | vm_compute; reflexivity | constructor].
Defined.
End Chromium.

(** * [CamoufoxFetcher.fetch] *)

Module Firefox.

(** The caller: about to validate and check the ceiling, in [acquire] (with
    the checks of the install before it), in the timed [join], about to claim,
    about to count, in [_kill_after_deadline], in the last [join]. *)
Inductive main_pc :=
| Entry | AtGate | Waiting | Claiming | Counting | Killing | Joining
| Done (r : result FetchResult) | Gone.

(** The thread: not started, in [_drive], about to take the lock, about to
    claim, about to fill the holder, in the backstop kill, returning, ended. *)
Inductive run_pc :=
| Idle | Work | Settling (o : outcome) | Ready (o : outcome) | Hold (o : outcome) | Backstop
| Returning | Dead.

(** The dictionary [state], the holder and the two program counters. *)
Record Fetch := mkFetch {
  main : main_pc;
  run : run_pc;
  holder : option outcome;
  claimed : bool;
  finished : bool;
  abandoned : bool;
}.

Definition new_fetch : Fetch := mkFetch Entry Idle None false false false.

Definition set_main (m : main_pc) (f : Fetch) : Fetch :=
  mkFetch m f.(run) f.(holder) f.(claimed) f.(finished) f.(abandoned).
Definition set_run (r : run_pc) (f : Fetch) : Fetch :=
  mkFetch f.(main) r f.(holder) f.(claimed) f.(finished) f.(abandoned).
Definition set_claimed (f : Fetch) : Fetch :=
  mkFetch f.(main) f.(run) f.(holder) true f.(finished) f.(abandoned).

Definition is_alive (f : Fetch) : bool := match f.(run) with Idle | Dead => false | _ => true end.

Inductive action :=
| Admit (valid : result unit)
| Enter (r : result unit)
| JoinReturns                        (* the thread ended, or the budget did *)
| MainClaim
| CountAbandoned
| KillDone
| Join
| Finish (o : outcome)
| Settle
| RunClaim
| Publish
| BackstopDone
| Exit.

Definition deadline_error : exn := Exn FetchError "camoufox fetch exceeded total timeout".

(** The deadline counts the thread that has not finished. *)
Definition count_abandoned (n : Z) (f : Fetch) : Z * Fetch :=
  if f.(finished) then (n, f)
  else (n + 1, mkFetch f.(main) f.(run) f.(holder) f.(claimed) f.(finished) true).

(** The thread gives back what the deadline counted, before it claims. *)
Definition settle (o : outcome) (n : Z) (f : Fetch) : Z * Fetch :=
  (if f.(abandoned) then n - 1 else n,
   mkFetch f.(main) (Ready o) f.(holder) f.(claimed) true f.(abandoned)).

Section Machine.
Variable max_abandoned_fetches : Z.

Definition refuse (abandoned_now : Z) : bool := max_abandoned_fetches <=? abandoned_now.

Definition act (a : action) (n : Z) (f : Fetch) : option (Z * Fetch) :=
  match a, f.(main) with
  | Admit (Raise e), Entry => Some (n, set_main (Done (Raise e)) f)
  | Admit (Ok _), Entry =>
      if refuse n
      then Some (n, set_main (Done (raise FetchError "camoufox tier refused")) f)
      else Some (n, set_main AtGate f)
  | Enter (Raise e), AtGate => Some (n, set_main (Done (Raise e)) f)
  | Enter (Ok _), AtGate => Some (n, set_main Waiting (set_run Work f))
  | JoinReturns, Waiting => Some (n, set_main (if is_alive f then Claiming else Joining) f)
  | MainClaim, Claiming =>
      if f.(claimed) then Some (n, set_main Joining f)
      else Some (n, set_main Counting (set_claimed f))
  | CountAbandoned, Counting =>
      let '(n', f') := count_abandoned n f in Some (n', set_main Killing f')
  | KillDone, Killing => Some (n, set_main Gone f)
  | Join, Joining =>
      match f.(run) with
      | Dead => Some (n, set_main (Done (read_holder f.(holder))) f)
      | _ => None
      end
  | Finish o, _ => match f.(run) with Work => Some (n, set_run (Settling o) f) | _ => None end
  | Settle, _ =>
      match f.(run) with
      | Settling o => Some (settle o n f)
      | _ => None
      end
  | RunClaim, _ =>
      match f.(run) with
      | Ready o => if f.(claimed) then Some (n, set_run Backstop f)
                   else Some (n, set_run (Hold o) (set_claimed f))
      | _ => None
      end
  | Publish, _ =>
      match f.(run) with
      | Hold o => Some (n, mkFetch f.(main) Returning (Some o) f.(claimed) f.(finished) f.(abandoned))
      | _ => None
      end
  | BackstopDone, _ => match f.(run) with Backstop => Some (n, set_run Returning f) | _ => None end
  | Exit, _ => match f.(run) with Returning => Some (n, set_run Dead f) | _ => None end
  | _, _ => None
  end.
End Machine.

Definition in_flight (f : Fetch) : bool :=
  match f.(main) with Entry | Done _ | Gone => false | _ => true end.

(** What [fetch] gave its caller. *)
Definition returned (f : Fetch) : option (result FetchResult) :=
  match f.(main) with
  | Done r => Some r
  | Gone => Some (Raise deadline_error)
  | _ => None
  end.

Definition main_won (f : Fetch) : bool :=
  match f.(main) with Counting | Killing | Gone => true | _ => false end.
(** The caller has given up and counted. *)
Definition given_up (f : Fetch) : bool := match f.(main) with Killing | Gone => true | _ => false end.
Definition holder_set (f : Fetch) : bool :=
  match f.(holder) with Some _ => true | None => false end.

Definition fetch_ok (f : Fetch) : bool :=
  (match f.(main), f.(run) with
   | (Entry | AtGate | Done _), Idle | Done _, Dead => true
   | (Entry | AtGate | Done _), _ | _, Idle => false
   | _, _ => true
   end)
  && Bool.eqb (holder_set f) (match f.(run) with
                              | Returning | Dead => negb (main_won f)
                              | _ => false
                              end)
  && Bool.eqb f.(claimed) (main_won f || match f.(run) with
                                         | Hold _ | Returning | Dead => true
                                         | _ => false
                                         end)
  && (match f.(run) with Backstop => main_won f | Hold _ => negb (main_won f) | _ => true end)
  && Bool.eqb f.(finished) (match f.(run) with
                            | Ready _ | Hold _ | Backstop | Returning | Dead => true
                            | _ => false
                            end)
  && implb f.(abandoned) (given_up f)
  && implb (given_up f) (f.(finished) || f.(abandoned)).

Definition stray (f : Fetch) : bool := f.(abandoned) && negb f.(finished).
Definition left_behind (f : Fetch) : bool := given_up f && negb f.(finished).
Definition pending (f : Fetch) : bool := in_flight f && negb (given_up f).

Definition answered (f : Fetch) : Prop :=
  ∀ r, f.(main) = Done r → f.(run) = Dead → r = read_holder f.(holder).

Definition watchdog (max_abandoned_fetches : Z) : Watchdog Fetch action := {|
  wd_new := new_fetch;
  wd_act := act max_abandoned_fetches;
  wd_ceiling := max_abandoned_fetches;
  wd_ok := λ f, fetch_ok f = true ∧ answered f;
  wd_stray := stray;
  wd_pending := pending;
  wd_in_flight := in_flight;
|}.

Section Proofs.
Variable max_abandoned_fetches : Z.
Notation act := (act max_abandoned_fetches).
Notation reachable := (@reachable Fetch action (watchdog max_abandoned_fetches)).

Ltac explore f :=
  destruct f as [m r h c fi ab]; destruct m; try discriminate;
  destruct r; try discriminate; destruct h; try discriminate;
  destruct c, fi, ab; cbn in *; try discriminate.

Lemma firefox_act_laws a n f n' f' :
  act a n f = Some (n', f') → fetch_ok f = true →
  fetch_ok f' = true
  ∧ n' = n + bit (stray f') - bit (stray f)
  ∧ (bit (pending f') <= bit (pending f) - (n' - n)
     ∨ n < max_abandoned_fetches ∧ n' = n ∧ pending f = false ∧ pending f' = true)
  ∧ (answered f → answered f').
Proof.
  destruct a as [[] | [] | | | | | | | | | | |]; cbn [Firefox.act]; intros Ha Hok.
  all: unfold refuse, count_abandoned, settle in *.
  all: explore f; break; simplify_eq/=; bool_prop.
  all: (split; [reflexivity |]); (split; [cbn; lia |]); split.
  all: try (intros Hf r' Hr Hd; simplify_eq/=; done).
  all: try (left; cbn; lia).
  all: right; cbn; split_and!; (done || lia).
Qed.

#[export] Instance lawful : @LawfulWatchdog Fetch action (watchdog max_abandoned_fetches).
Proof.
  split; cbn.
  - done.
  - intros a n f n' f' Ha [Hok Hans]. destruct (firefox_act_laws _ _ _ _ _ Ha Hok) as (? & _ & _ & ?). auto.
  - intros a n f n' f' Ha [Hok _]. by destruct (firefox_act_laws _ _ _ _ _ Ha Hok) as (_ & ? & _).
  - intros a n f n' f' Ha [Hok _]. by destruct (firefox_act_laws _ _ _ _ _ Ha Hok) as (_ & _ & ? & _).
  - intros f. unfold pending. by intros [? _]%andb_prop.
Qed.

(** the camoufox count is at all times exactly the number of threads
    that still work for a caller that has given up, whatever psutil can do: it
    never goes negative, and it is zero once they have all come back; and with
    at most [k] callers at a time it exceeds the ceiling by less than [k]. *)
Theorem camoufox_count_exact (k : Z) (s : System Fetch) :
  0 <= max_abandoned_fetches → 1 <= k →
  reachable (λ s, count_if in_flight s.(fetches) <= k) s →
  s.(count) = count_if left_behind s.(fetches)
  ∧ 0 <= s.(count) <= max_abandoned_fetches + k - 1
  ∧ ((∀ f, f ∈ s.(fetches) → f.(finished) = true) → s.(count) = 0).
Proof.
  intros Hm Hk Hr.
  pose proof (@count_bounded Fetch action (watchdog max_abandoned_fetches) lawful k s Hm Hk Hr) as Hb.
  apply reachable_system_ok in Hr as [Hall Hc]. cbn in Hall, Hc, Hb.
  assert (He : s.(count) = count_if left_behind s.(fetches)).
  { rewrite Hc. apply count_if_ext. intros f Hin. destruct (Hall f Hin) as [Hok _].
    unfold fetch_ok in Hok. repeat (apply andb_prop in Hok as [Hok ?]).
    unfold stray, left_behind. destruct (abandoned f), (finished f), (given_up f); done. }
  split_and!; [done | rewrite He; apply count_if_nonneg | done |].
  intros Hf. rewrite He. apply count_if_none. intros f Hin. unfold left_behind.
  by rewrite (Hf f Hin), andb_false_r.
Qed.

(** The claim is exclusive here too: the holder is never read empty. *)
Lemma camoufox_outcome (P : System Fetch → Prop) (s : System Fetch) (i : nat) (f : Fetch)
    (r : result FetchResult) :
  reachable P s → s.(fetches) !! i = Some f → returned f = Some r →
  (f.(run) = Idle ∧ f.(main) = Done r)
  ∨ (f.(run) = Dead ∧ ∃ o, f.(holder) = Some o ∧ r = read_holder (Some o))
  ∨ (f.(main) = Gone ∧ r = Raise deadline_error ∧ f.(holder) = None).
Proof.
  intros Hreach Hf Hr. destruct (reachable_fetch_ok _ _ _ _ Hreach Hf) as [Hok Hans].
  unfold answered in Hans. unfold fetch_ok in Hok. repeat (apply andb_prop in Hok as [Hok ?]).
  unfold returned in Hr. unfold main_won, holder_set in *.
  destruct (main f) eqn:Em; try done; injection Hr as <-.
  - destruct (run f) eqn:Er; try done; [by left |]. right. left. split; [done |].
    rewrite (Hans _ eq_refl eq_refl). destruct (holder f) as [o |] eqn:Eh; [by exists o | done].
  - right. right. split_and!; [done.. |]. destruct (holder f); [| done]. destruct (run f); done.
Qed.
End Proofs.

#[local] Instance demo : Watchdog Fetch action := watchdog 1.
#[local] Instance demo_lawful : LawfulWatchdog Fetch action := lawful 1.

(** The budget is spent, the caller gives up, and the thread comes back
    while its processes are being killed. *)
Definition timed_out : list (event action) :=
  (Call :: (Act 0 <$> [Admit (Ok tt); Enter (Ok tt); JoinReturns; MainClaim; CountAbandoned;
     Finish (Error (Exn FetchError "camoufox navigation timed out"))]))%list.

Lemma camoufox_count_exact_witness :
  let s := default initial (run_events timed_out initial) in
  let s' := default initial
              (run_events (timed_out ++ (Act 0 <$> [Settle; RunClaim; KillDone; BackstopDone; Exit]))%list
                 initial) in
  s.(count) = 1 ∧ 0 <= s.(count) <= 1 + 1 - 1 ∧ s'.(count) = 0.
Proof.
  intros s s'. split; [vm_compute; reflexivity |]. split.
  - apply (camoufox_count_exact 1 1); [lia | lia |].
    apply (run_checked_reachable (λ s, count_if in_flight s.(fetches) <=? 1) _ timed_out initial);
      [intros x; apply Z.leb_le | vm_compute; reflexivity | constructor].
  - vm_compute. reflexivity.
Defined.
End Firefox.
