(* ===== verification/Camoufox.v ===== *)
(** The camoufox tier ([autolycos/adapters/camoufox.py]): the preferences its
    Firefox is given, the checks of the install, the settling loop, the cycle
    of one fetch and its processes.  Its watchdog is in [Watchdog.v].

    Firefox and its driver library are the type class [FirefoxDriver], the
    installed package and the file system the type class [Install].  Text is
    Latin-1; times are whole microseconds. *)

From S2P Require Import Prelude Domain Trace Safety Urls Egress Text Browser.

Local Notation M := Prelude.M.

(** * Preferences *)

Inductive pref := PBool (b : bool) | PInt (n : Z) | PStr (s : string).

Definition FROZEN_FIREFOX_PREFS : list (string * pref) :=
  [("network.proxy.allow_hijacking_localhost", PBool true);
   ("network.proxy.no_proxies_on", PStr "");
   ("network.proxy.failover_direct", PBool false);
   ("network.proxy.allow_bypass", PBool false);
   ("network.trr.mode", PInt 5);
   ("network.dns.disablePrefetch", PBool true);
   ("network.dns.disablePrefetchFromHTTPS", PBool true);
   ("network.prefetch-next", PBool false);
   ("network.predictor.enabled", PBool false);
   ("network.predictor.enable-prefetch", PBool false);
   ("network.http.speculative-parallel-limit", PInt 0);
   ("browser.urlbar.speculativeConnect.enabled", PBool false);
   ("browser.places.speculativeConnect.enabled", PBool false);
   ("media.peerconnection.enabled", PBool false);
   ("network.http.http3.enable", PBool false);
   ("dom.serviceWorkers.enabled", PBool false);
   ("dom.push.enabled", PBool false);
   ("dom.push.connection.enabled", PBool false);
   ("network.captive-portal-service.enabled", PBool false);
   ("network.connectivity-service.enabled", PBool false);
   ("captivedetect.canonicalURL", PStr "");
   ("browser.safebrowsing.malware.enabled", PBool false);
   ("browser.safebrowsing.phishing.enabled", PBool false);
   ("browser.safebrowsing.blockedURIs.enabled", PBool false);
   ("browser.safebrowsing.downloads.enabled", PBool false);
   ("browser.safebrowsing.downloads.remote.enabled", PBool false);
   ("browser.safebrowsing.provider.google.updateURL", PStr "");
   ("browser.safebrowsing.provider.google.gethashURL", PStr "");
   ("browser.safebrowsing.provider.google4.updateURL", PStr "");
   ("browser.safebrowsing.provider.google4.gethashURL", PStr "");
   ("browser.safebrowsing.provider.mozilla.updateURL", PStr "");
   ("browser.safebrowsing.provider.mozilla.gethashURL", PStr "");
   ("app.update.auto", PBool false);
   ("app.update.checkInstallTime", PBool false);
   ("extensions.update.enabled", PBool false);
   ("extensions.update.autoUpdateDefault", PBool false);
   ("extensions.getAddons.cache.enabled", PBool false);
   ("extensions.systemAddon.update.enabled", PBool false);
   ("extensions.blocklist.enabled", PBool false);
   ("media.gmp-manager.url", PStr "");
   ("media.gmp-gmpopenh264.enabled", PBool false);
   ("media.gmp-widevinecdm.enabled", PBool false);
   ("browser.region.update.enabled", PBool false);
   ("browser.region.network.url", PStr "");
   ("toolkit.telemetry.enabled", PBool false);
   ("toolkit.telemetry.unified", PBool false);
   ("toolkit.telemetry.archive.enabled", PBool false);
   ("toolkit.telemetry.server", PStr "");
   ("toolkit.telemetry.newProfilePing.enabled", PBool false);
   ("toolkit.telemetry.shutdownPingSender.enabled", PBool false);
   ("toolkit.telemetry.firstShutdownPing.enabled", PBool false);
   ("toolkit.telemetry.updatePing.enabled", PBool false);
   ("toolkit.telemetry.bhrPing.enabled", PBool false);
   ("datareporting.healthreport.uploadEnabled", PBool false);
   ("datareporting.policy.dataSubmissionEnabled", PBool false);
   ("app.normandy.enabled", PBool false);
   ("app.normandy.api_url", PStr "");
   ("app.shield.optoutstudies.enabled", PBool false);
   ("breakpad.reportURL", PStr "");
   ("browser.tabs.crashReporting.sendReport", PBool false);
   ("browser.newtabpage.activity-stream.feeds.telemetry", PBool false);
   ("browser.newtabpage.activity-stream.telemetry", PBool false);
   ("geo.enabled", PBool false);
   ("geo.provider.network.url", PStr "");
   ("services.settings.server", PStr "");
   ("network.webtransport.enabled", PBool false);
   ("devtools.debugger.remote-enabled", PBool false);
   ("browser.safebrowsing.passwords.enabled", PBool false);
   ("app.update.enabled", PBool false);
   ("app.update.service.enabled", PBool false);
   ("media.gmp-manager.updateEnabled", PBool false);
   ("dom.push.serverURL", PStr "");
   ("security.OCSP.enabled", PInt 0);
   ("security.ssl.enable_ocsp_stapling", PBool true)].

(** [merged_firefox_prefs]: the dictionary, in its order. *)
Definition merged_firefox_prefs (caller_prefs : list (string * pref)) : list (string * pref) :=
  foldl (λ d kv, od_set kv.1 kv.2 d)
    (filter (λ kv, String.prefix "security.sandbox." kv.1 = false) caller_prefs) FROZEN_FIREFOX_PREFS.

(** * The install *)

Definition str_isdigit (s : list ascii) : bool :=
  negb (bool_decide (s = [])) && forallb latin1_digit s.

(** One component of a build: a number, or the first letter below all numbers. *)
Definition build_part (x : list ascii) : result Z :=
  if str_isdigit x then int_of x
  else match x with
       | c :: _ => Ok (code c - 1024)
       | [] => raise IndexError "string index out of range"
       end.

(** The number of times [c] occurs. *)
Definition count_char (c : ascii) (s : list ascii) : nat := length (filter (λ x, x = c) s).

(** [_build_key]; [[0] * n] is empty for a negative [n]. *)
Definition build_key (build : string) : result (list Z) :=
  let? parts := rmap build_part (fields_of "."%char (chars build)) in
  Ok (parts ++ replicate (5 - count_char "."%char (chars build)) 0)%list.

Definition semver (version : string) : result (list Z) :=
  let? parts := rmap (λ p, if str_isdigit p then int_of p else Ok 0)
                  (fields_of "."%char (chars version)) in
  Ok (parts ++ replicate (3 - length parts) 0)%list.

(** Order of tuples of integers. *)
Fixpoint tuple_lt (a b : list Z) : bool :=
  match a, b with
  | _, [] => false
  | [], _ :: _ => true
  | x :: a, y :: b => (x <? y) || ((x =? y) && tuple_lt a b)
  end.

(** The installed packages and the file system, as far as they are asked. *)
Class Install := {
  module_installed : string → bool;               (* find_spec(name) is not None *)
  executable : string → bool;                     (* isfile and access X_OK *)
  installed_version : string → result (string * string);
  (* CONSTRAINTS.MIN_VERSION, PLAYWRIGHT_BROWSER_FLOORS, playwright's version *)
  constraints : result (string * list (list Z * string) * string);
}.

Inductive NotReady := not_ready (problem : string).

Section Ready.
Context `{Install}.

(** The loop of [_package_browser_floor]. *)
Fixpoint raise_floor (playwright : list Z) (floors : list (list Z * string)) (floor : string)
    : result string :=
  match floors with
  | [] => Ok floor
  | (required, build) :: floors =>
      if tuple_lt playwright required then raise_floor playwright floors floor
      else
        let? kf := build_key floor in
        let? kb := build_key build in
        raise_floor playwright floors (if tuple_lt kf kb then build else floor)
  end.

Definition package_browser_floor : result string :=
  let? (min_floors, version) := constraints in
  let? playwright := semver version in
  raise_floor playwright min_floors.2 min_floors.1.

(** [except Exception]: [Some] problem. *)
Definition caught {A} (r : result A) (handled : exc → bool) (problem : string)
    : result (A + NotReady) :=
  match r with
  | Ok a => Ok (inl a)
  | Raise e => if handled e.(exn_class) then Ok (inr (not_ready problem)) else Raise e
  end.

Definition unreadable (c : exc) : bool :=
  is_a c OSError || is_a c ValueError || is_a c KeyError || is_a c TypeError.

(** [_ready_firefox_major]; [inr] is the exception [_NotReady]. *)
Definition ready_firefox_major (executable_path expected_version : string)
    : result (Z + NotReady) :=
  match list_find (λ m, module_installed m = false) ["camoufox"; "playwright"; "psutil"] with
  | Some (_, m) => Ok (inr (not_ready ("python module " +:+ m +:+ " is not installed")))
  | None =>
      if negb (executable executable_path)
      then Ok (inr (not_ready ("no executable Camoufox binary at " +:+ executable_path)))
      else
        let? found := caught (installed_version executable_path) unreadable
                        ("unreadable version.json beside " +:+ executable_path) in
        match found with
        | inr p => Ok (inr p)
        | inl (version, build) =>
            let installed := version +:+ "-" +:+ build in
            if negb (bool_decide (installed = expected_version))
            then Ok (inr (not_ready ("installed Camoufox build " +:+ installed
                                     +:+ " differs from the expected " +:+ expected_version)))
            else
              let '(major, _, _) := partition "."%char (chars version) in
              if negb (str_isdigit major)
              then Ok (inr (not_ready ("unparseable Firefox version " +:+ version)))
              else
                let? below := caught (let? floor := package_browser_floor in
                                      let? kb := build_key build in
                                      let? kf := build_key floor in
                                      Ok (tuple_lt kb kf)) is_Exception
                                "cannot determine the browser build floor" in
                match below with
                | inr p => Ok (inr p)
                | inl true => Ok (inr (not_ready "installed Camoufox build is below the floor"))
                | inl false => let? n := int_of major in Ok (inl n)
                end
        end
  end.

(** [camoufox_ready] with the set of reported problems: the answer, the
    problem it logs, if any, and the set afterwards. *)
Definition camoufox_ready (executable_path expected_version : string) (reported : list string)
    : result (bool * option string * list string) :=
  let? r := ready_firefox_major executable_path expected_version in
  match r with
  | inl _ => Ok (true, None, reported)
  | inr (not_ready problem) =>
      if bool_decide (problem ∈ reported) then Ok (false, None, reported)
      else Ok (false, Some problem, problem :: reported)
  end.
End Ready.

(** * What is launched *)

Definition EXCLUDED_DEFAULT_ADDONS : list string := ["UBO"].

Record LaunchKwargs := {
  kw_executable_path : string;
  kw_ff_version : Z;
  kw_exclude_addons : list string;
  kw_firefox_user_prefs : list (string * pref);
  kw_args : list string;
  kw_timeout : Z;
}.

(** From the readiness check to the keyword arguments; the names of the
    package's default addons are an argument. *)
Definition prepare `{Install} (executable_path expected_version : string)
    (upstream_addons : gset string) (marker : string) (launch_timeout : Z) : result LaunchKwargs :=
  let? ready := ready_firefox_major executable_path expected_version in
  match ready with
  | inr (not_ready problem) => raise FetchError ("camoufox tier unavailable: " +:+ problem)
  | inl firefox_major =>
      let unexcluded := upstream_addons ∖ list_to_set EXCLUDED_DEFAULT_ADDONS in
      if negb (bool_decide (unexcluded = ∅))
      then raise FetchError "camoufox declares default addon(s) that this adapter does not exclude"
      else Ok {| kw_executable_path := executable_path;
                 kw_ff_version := firefox_major;
                 kw_exclude_addons := filter (λ name, name ∈ upstream_addons) EXCLUDED_DEFAULT_ADDONS;
                 kw_firefox_user_prefs := merged_firefox_prefs [];
                 kw_args := [marker];
                 kw_timeout := launch_timeout |}
  end.

(** ** The guards, which are those of the browser tier *)

Section Guards.
Variable domain_policy : string → bool.
Variable subresource_domains : gset string.

Definition ff_host_allowed (host : string) : bool :=
  let host := normalize_host host in
  is_hostname_shaped host
  && (domain_policy (of_chars host)
      || existsb (λ d, bool_decide (host = chars d) || ends_with host ("."%char :: chars d))
           (elements subresource_domains)).
End Guards.

Definition ff_effective_port (parts : SplitResult) : option Z :=
  match port parts.(sr_netloc) with
  | Raise _ => None
  | Ok None => DEFAULT_PORT parts.(sr_scheme)
  | Ok p => p
  end.

(** One turn of the loop of [_check_final_document]. *)
Definition ff_check_location (requested final : SplitResult) : result unit :=
  if has_userinfo final then raise FetchError "final document contains userinfo"
  else
    match DEFAULT_PORT final.(sr_scheme) with
    | None => raise FetchError "final document is not the requested host"
    | Some standard =>
        if negb (bool_decide (bare_host final = bare_host requested))
        then raise FetchError "final document is not the requested host"
        else if bool_decide (requested.(sr_scheme) = chars "https")
                && negb (bool_decide (final.(sr_scheme) = chars "https"))
        then raise FetchError "final document fell back from a requested https URL"
        else if bool_decide (ff_effective_port final ∈ [ff_effective_port requested; Some standard])
        then Ok tt
        else raise FetchError "final document is not on the requested port"
    end.

Definition ff_check_final_document (final_url requested_url : string) (document_uri : option string)
    : result unit :=
  let? requested := urlsplit5 requested_url in
  let? final := urlsplit5 final_url in
  let? _ := ff_check_location requested final in
  match document_uri with
  | None => Ok tt
  | Some uri =>
      let? document := urlsplit5 uri in
      let? _ := ff_check_location requested document in
      let? a := urldefrag final_url in
      let? b := urldefrag uri in
      if bool_decide (a = b) then Ok tt
      else raise FetchError "final document URI does not match page URL"
  end.

(** The copies in the two adapters agree. *)
Lemma ff_guards_agree :
  (∀ policy subs host, ff_host_allowed policy subs host = host_allowed policy subs host)
  ∧ ∀ final_url requested_url uri,
      ff_check_final_document final_url requested_url uri
      = check_final_document final_url requested_url uri.
Proof.
  assert (Hp : ∀ p, ff_effective_port p = effective_port p).
  { intros p. unfold ff_effective_port, effective_port. by destruct (port _) as [[]|]. }
  assert (Hl : ∀ r f, ff_check_location r f = check_location r f).
  { intros r f. unfold ff_check_location, check_location. by rewrite !Hp. }
  split; [done |]. intros final_url requested_url uri.
  unfold ff_check_final_document, check_final_document.
  destruct (urlsplit5 requested_url) as [r |]; cbn [rbind]; [| done].
  destruct (urlsplit5 final_url) as [f |]; cbn [rbind]; [| done]. rewrite Hl.
  destruct (check_location r f); cbn [rbind]; [| done]. destruct uri as [uri |]; [| done].
  destruct (urlsplit5 uri) as [d |]; cbn [rbind]; [| done]. by rewrite Hl.
Qed.

(** * Preferences, proofs *)

Lemma od_get_app {V} k (a b : list (string * V)) :
  od_get k (a ++ b) = match od_get k a with Some v => Some v | None => od_get k b end.
Proof. induction a as [| [x v] a IH]; cbn; [done |]. by case_decide. Qed.

Lemma od_get_update {V} k (l d : list (string * V)) :
  NoDup l.*1 →
  od_get k (foldl (λ d kv, od_set kv.1 kv.2 d) d l)
  = match od_get k l with Some v => Some v | None => od_get k d end.
Proof.
  revert d. induction l as [| [x v] l IH]; intros d; cbn; [done |].
  intros [Hx Hl]%NoDup_cons. rewrite IH by done. rewrite od_get_set.
  destruct (decide (k = x)) as [-> | Hne].
  - rewrite (proj2 (od_get_None x l)) by done. by rewrite !decide_True.
  - by rewrite !decide_False.
Qed.

Lemma od_get_filter {V} (p : string → bool) k (l : list (string * V)) :
  od_get k (filter (λ kv, p kv.1 = false) l) = if p k then None else od_get k l.
Proof.
  induction l as [| [x v] l IH]; [by destruct (p k) |].
  destruct (p x) eqn:E.
  - rewrite filter_cons_False by (cbn; congruence). rewrite IH. cbn.
    destruct (p k) eqn:Ek; [done |]. rewrite decide_False by congruence. done.
  - rewrite filter_cons_True by done. cbn. rewrite IH.
    case_decide as Ex; [| done]. subst. by rewrite E.
Qed.

(** every frozen preference reaches Firefox with its frozen value whatever
    the caller asks, a caller's content-sandbox preference never does, and
    any other of the caller's preferences does unchanged. *)
Theorem merged_firefox_prefs_spec (caller_prefs : list (string * pref)) (k : string) :
  od_get k (merged_firefox_prefs caller_prefs)
  = match od_get k FROZEN_FIREFOX_PREFS with
    | Some v => Some v
    | None => if String.prefix "security.sandbox." k then None else od_get k caller_prefs
    end.
Proof.
  unfold merged_firefox_prefs. rewrite od_get_update.
  - by rewrite (od_get_filter (String.prefix "security.sandbox.")).
  - apply (bool_decide_eq_true_1 _). vm_compute. reflexivity.
Qed.

(** * Builds *)

Lemma tuple_lt_irrefl a : tuple_lt a a = false.
Proof. induction a as [| x a IH]; cbn; [done |]. rewrite IH, Z.ltb_irrefl. by rewrite andb_false_r. Qed.

Lemma tuple_le_trans a b c : tuple_lt b a = false → tuple_lt c b = false → tuple_lt c a = false.
Proof.
  revert b c. induction a as [| x a IH]; intros [| y b] [| z c]; cbn; try done.
  rewrite !orb_false_iff, !andb_false_iff, !Z.ltb_ge, !Z.eqb_neq.
  intros [H1 H2] [H3 H4]. split; [lia |].
  destruct (decide (z = x)) as [-> | ?]; [| by left]. right.
  destruct H2 as [? | H2]; [lia |]. destruct H4 as [? | H4]; [lia |]. by eapply IH.
Qed.

Lemma tuple_lt_le a b : tuple_lt a b = true → tuple_lt b a = false.
Proof.
  revert b. induction a as [| x a IH]; intros [| y b]; cbn; try done.
  rewrite orb_true_iff, andb_true_iff, orb_false_iff, andb_false_iff, Z.ltb_lt, Z.ltb_ge,
    Z.eqb_eq, Z.eqb_neq.
  intros [H | [-> H]]; [split; [lia | left; lia] |]. split; [lia | right; auto].
Qed.

Section ReadyProofs.
Context `{Install}.

(** [a] is at most [b], both of them builds. *)
Definition build_le (a b : string) : Prop :=
  ∃ ka kb, build_key a = Ok ka ∧ build_key b = Ok kb ∧ tuple_lt kb ka = false.

Lemma build_le_trans a b c : build_le a b → build_le b c → build_le a c.
Proof.
  intros (ka & kb & Ha & Hb & H1) (kb' & kc & Hb' & Hc & H2). rewrite Hb in Hb'. injection Hb' as <-.
  exists ka, kc. split_and!; [done.. |]. by eapply tuple_le_trans.
Qed.

Lemma raise_floor_spec playwright floors floor top :
  raise_floor playwright floors floor = Ok top →
  (top = floor ∨ ∃ required, (required, top) ∈ floors ∧ tuple_lt playwright required = false)
  ∧ (is_Some (list_find (λ rb, tuple_lt playwright rb.1 = false) floors) → build_le floor top)
  ∧ ∀ required build, (required, build) ∈ floors → tuple_lt playwright required = false →
      build_le build top.
Proof.
  revert floor. induction floors as [| [required build] floors IH]; intros floor; cbn [raise_floor].
  - intros [= <-]. split; [by left |]. split; [by intros [] |]. by intros ? ? ?%elem_of_nil.
  - destruct (tuple_lt playwright required) eqn:Er.
    + intros Hr. destruct (IH _ Hr) as (H1 & H2 & H3). split; [| split].
      * destruct H1 as [-> | (r & Hin & Hr')]; [by left |]. right. exists r. by split; [right |].
      * cbn. rewrite decide_False by (cbn; congruence). intros [[i x] Hx].
        apply H2. destruct (list_find _ floors) as [[] |]; [by eexists | done].
      * intros r b [[= -> ->] | Hin]%elem_of_cons Hr'; [congruence | by eapply H3].
    + destruct (build_key floor) as [kf |] eqn:Ef; [| done].
      destruct (build_key build) as [kb |] eqn:Eb; [| done]. cbn [rbind].
      set (m := if tuple_lt kf kb then build else floor). intros Hr.
      assert (Hself : build_le m m).
      { subst m. destruct (tuple_lt kf kb); eexists _, _; split_and!; eauto using tuple_lt_irrefl. }
      assert (Hmax : build_le floor m ∧ build_le build m).
      { subst m. destruct (tuple_lt kf kb) eqn:El.
        - split; [| done]. exists kf, kb. auto using tuple_lt_le.
        - split; [done |]. by exists kb, kf. }
      destruct (IH _ Hr) as (H1 & H2 & H3).
      assert (Hm : build_le m top).
      { destruct (list_find (λ rb, tuple_lt playwright rb.1 = false) floors) eqn:El; [by apply H2; eexists |].
        destruct H1 as [-> | (r & Hin & Hr')]; [done |].
        rewrite list_find_None in El. by rewrite Forall_forall in El; destruct (El _ Hin). }
      split; [| split].
      * destruct H1 as [-> | (r & Hin & Hr')]; [| right; exists r; by split; [right |]].
        subst m. destruct (tuple_lt kf kb); [| by left]. right. exists required. by split; [left |].
      * intros _. destruct Hmax. by eapply build_le_trans.
      * intros r b [[= -> ->] | Hin]%elem_of_cons Hr'; [| by eapply H3].
        destruct Hmax. by eapply build_le_trans.
Qed.

(** the floor the install is held to is the package's minimum or the
    build one of its constraints asks for, and no constraint that applies to
    the installed playwright asks for a higher one. *)
Lemma package_browser_floor_spec min_version floors version playwright top :
  constraints = Ok (min_version, floors, version) → semver version = Ok playwright →
  package_browser_floor = Ok top →
  (top = min_version ∨ ∃ required, (required, top) ∈ floors ∧ tuple_lt playwright required = false)
  ∧ (∀ required build, (required, build) ∈ floors → tuple_lt playwright required = false →
       build_le build top ∧ build_le min_version top).
Proof.
  intros Hc Hs. unfold package_browser_floor. rewrite Hc. cbn [rbind]. rewrite Hs. cbn [rbind fst snd].
  intros (H1 & H2 & H3)%raise_floor_spec. split; [done |].
  intros required build Hin Hr. split; [by eapply H3 |]. apply H2.
  destruct (list_find _ floors) eqn:El; [by eexists |].
  rewrite list_find_None, Forall_forall in El. by destruct (El _ Hin).
Qed.

Lemma caught_inl {A} (r : result A) handled problem a :
  caught r handled problem = Ok (inl a) ↔ r = Ok a.
Proof. unfold caught. destruct r as [x | e]; [| destruct (handled _)]; naive_solver. Qed.

(** the tier launches Firefox exactly when the three packages are
    installed, the binary is executable, the version beside it is the expected
    one and its build is not below the floor; the Firefox major version it
    passes is then the number before the first dot. *)
Theorem ready_firefox_major_spec (executable_path expected_version : string) (n : Z) :
  ready_firefox_major executable_path expected_version = Ok (inl n) ↔
    (∀ m, m ∈ ["camoufox"; "playwright"; "psutil"] → module_installed m = true)
    ∧ executable executable_path = true
    ∧ ∃ version build, installed_version executable_path = Ok (version, build)
      ∧ version +:+ "-" +:+ build = expected_version
      ∧ (let major := (partition "."%char (chars version)).1.1 in
         str_isdigit major = true ∧ int_of major = Ok n)
      ∧ ∃ floor, package_browser_floor = Ok floor ∧ build_le floor build.
Proof.
  unfold ready_firefox_major.
  destruct (list_find _ _) as [[i m] |] eqn:Em.
  { split; [done |]. intros [Hm _]. apply list_find_Some in Em as (Hi & Hf & _).
    rewrite Hm in Hf; [done |]. by eapply list_elem_of_lookup_2. }
  assert (Hm : ∀ m, m ∈ ["camoufox"; "playwright"; "psutil"] → module_installed m = true).
  { rewrite list_find_None, Forall_forall in Em. intros m Hin. by destruct (module_installed m) eqn:E;
      [| destruct (Em m Hin)]. }
  destruct (executable executable_path); cbn [negb]; [| split; [done | by intros (_ & ? & _)]].
  split.
  - intros Hr. split_and!; [exact Hm | done |].
    destruct (caught (installed_version _) _ _) as [[[version build] | p] | e] eqn:Ev; try done.
    apply caught_inl in Ev. cbn [rbind] in Hr. exists version, build.
    case_bool_decide as Hexp; [| done]. cbn [negb] in Hr.
    destruct (partition "."%char (chars version)) as [[major found] rest]. cbn [fst].
    destruct (str_isdigit major) eqn:Ed; [| done]. cbn [negb] in Hr.
    destruct (caught _ is_Exception _) as [[[|] | p] | e] eqn:Eb; try done. cbn [rbind] in Hr.
    apply caught_inl in Eb. destruct package_browser_floor as [floor |] eqn:Efl; [| done].
    cbn [rbind] in Eb. destruct (build_key build) as [kb |] eqn:Ekb; [| done].
    destruct (build_key floor) as [kf |] eqn:Ekf; [| done]. injection Eb as Hlt.
    destruct (int_of major) as [k |] eqn:Ei; [| done]. injection Hr as ->.
    split_and!; [done | done | done | done |]. exists floor. split; [done |]. by exists kf, kb.
  - intros (_ & _ & version & build & Hv & Hexp & Hmaj & floor & Hfl & kf & kb & Hkf & Hkb & Hlt).
    rewrite Hv. cbn [caught rbind]. rewrite (bool_decide_eq_true_2 _ Hexp). cbn [negb].
    destruct (partition "."%char (chars version)) as [[major found] rest]. cbn [fst] in Hmaj.
    destruct Hmaj as [Hd Hi]. rewrite Hd, Hfl. cbn [negb rbind]. rewrite Hkb, Hkf. cbn [rbind caught].
    by rewrite Hlt, Hi.
Qed.

(** nothing is left to download when Firefox is launched: the install
    passed every check, its version is the one passed, all the default addons
    of the package are excluded by name, and every frozen preference is set. *)
Theorem prepare_spec (executable_path expected_version marker : string)
    (upstream : gset string) (launch_timeout : Z) (kw : LaunchKwargs) :
  prepare executable_path expected_version upstream marker launch_timeout = Ok kw →
  ready_firefox_major executable_path expected_version = Ok (inl kw.(kw_ff_version))
  ∧ kw.(kw_executable_path) = executable_path
  ∧ (∀ name, name ∈ upstream ↔ name ∈ kw.(kw_exclude_addons))
  ∧ (∀ k v, od_get k FROZEN_FIREFOX_PREFS = Some v → od_get k kw.(kw_firefox_user_prefs) = Some v).
Proof.
  unfold prepare. destruct (ready_firefox_major _ _) as [[n | [p]] |]; cbn [rbind]; try done.
  case_bool_decide as Hu; cbn [negb]; [| done]. intros [= <-].
  cbn [kw_ff_version kw_executable_path kw_exclude_addons kw_firefox_user_prefs].
  split_and!; [done | done | |].
  - intros name. rewrite list_elem_of_filter. split; [| by intros []].
    intros Hin. split; [done |]. destruct (decide (name ∈ EXCLUDED_DEFAULT_ADDONS)) as [| Hne]; [done |].
    exfalso. apply (not_elem_of_empty (C:=gset string) name). rewrite <- Hu.
    apply elem_of_difference. split; [done |]. by rewrite elem_of_list_to_set.
  - intros k v Hk. unfold merged_firefox_prefs. rewrite od_get_update.
    + by rewrite Hk.
    + apply (bool_decide_eq_true_1 _). vm_compute. reflexivity.
Qed.

(** The checks of a process, in order: what each logs. *)
Fixpoint ready_calls (calls : list (string * string)) (reported : list string) : list string :=
  match calls with
  | [] => []
  | (path, version) :: calls =>
      match camoufox_ready path version reported with
      | Ok (_, Some problem, reported) => problem :: ready_calls calls reported
      | Ok (_, None, reported) => ready_calls calls reported
      | Raise _ => ready_calls calls reported
      end
  end.

(** however often readiness is asked, each reason for a refusal is
    logged once. *)
Lemma ready_logged_once (calls : list (string * string)) (reported : list string) :
  NoDup (ready_calls calls reported) ∧ ∀ p, p ∈ ready_calls calls reported → p ∉ reported.
Proof.
  revert reported. induction calls as [| [path version] calls IH]; intros reported; cbn.
  - split; [constructor | by intros ? ?%elem_of_nil].
  - unfold camoufox_ready.
    destruct (ready_firefox_major path version) as [[n | [problem]] | e]; cbn; [apply IH | | apply IH].
    case_bool_decide as Hin; [apply IH |]. destruct (IH (problem :: reported)) as [Hnd Hnew]. split.
    + apply NoDup_cons. split; [| done]. intros Hp. apply (Hnew _ Hp). left.
    + intros p [-> | Hp]%elem_of_cons; [done |]. intros Hr. apply (Hnew _ Hp). by right.
Qed.
End ReadyProofs.

(** * The processes of a launch *)

Section Processes.
Context `{ProcTable}.

Definition DRIVER_CMDLINE_TOKEN : string := "playwright".
Definition BROWSER_CMDLINE_TOKEN : string := "camoufox".

Definition cmdline_carries (proc : Z) (token : string) : bool :=
  match cmdline proc with
  | None => false
  | Some args => existsb (is_substring token) args
  end.

Definition firefox_tree_parts (marker : string) (pids_before : option (list Z))
    : list Z * list Z :=
  match self_children with
  | None => ([], [])
  | Some candidates =>
      let roots := filter (λ p, cmdline_carries p marker = true) candidates in
      let drivers := add_drivers roots in
      let roots :=
        match pids_before with
        | None => roots
        | Some before =>
            let known := (roots ++ drivers)%list in
            (roots ++ filter (λ p, p ∉ before ∧ p ∉ known
                                   ∧ (cmdline_carries p DRIVER_CMDLINE_TOKEN
                                      || cmdline_carries p BROWSER_CMDLINE_TOKEN) = true)
                        candidates)%list
        end in
      (foldl (add_side drivers) [] (roots ++ drivers)%list, drivers)
  end.

Definition firefox_process_tree (marker : string) (pids_before : option (list Z)) : list Z :=
  let '(firefox, driver) := firefox_tree_parts marker pids_before in (firefox ++ driver)%list.

(** a process is taken for this launch only if it carries the marker, is
    the patchright-style parent of one that does, was born after the snapshot
    (when there is one) with a driver's or a Camoufox's command line, or
    descends from one of these; the driver side is only ever such a parent. *)
Theorem firefox_tree_spec (marker : string) (before : option (list Z)) (candidates : list Z) :
  self_children = Some candidates →
  let marked p := p ∈ candidates ∧ cmdline_carries p marker = true in
  let novel p := p ∈ candidates ∧ (∃ pids, before = Some pids ∧ p ∉ pids)
    ∧ (cmdline_carries p DRIVER_CMDLINE_TOKEN = true
       ∨ cmdline_carries p BROWSER_CMDLINE_TOKEN = true) in
  let '(firefox, driver) := firefox_tree_parts marker before in
  (∀ p, p ∈ driver ↔ ∃ r, marked r ∧ driver_of r = Some p)
  ∧ (∀ p, p ∈ firefox ↔
       p ∉ driver ∧ ∃ r, (marked r ∨ novel r ∨ r ∈ driver)
                          ∧ (p = r ∨ p ∈ default [] (children r))).
Proof.
  intros Hc marked novel. unfold firefox_tree_parts. rewrite Hc.
  set (roots := filter (λ p, cmdline_carries p marker = true) candidates).
  set (drivers := add_drivers roots). set (roots' := match before with None => _ | Some _ => _ end).
  assert (Hr : ∀ p, p ∈ roots ↔ marked p).
  { intros p. unfold roots, marked. rewrite list_elem_of_filter. tauto. }
  assert (Hr' : ∀ p, p ∈ roots' ++ drivers ↔ marked p ∨ novel p ∨ p ∈ drivers).
  { intros p. unfold roots', novel. rewrite elem_of_app. destruct before as [pids |]; [| rewrite Hr; naive_solver].
    rewrite elem_of_app, Hr, list_elem_of_filter, elem_of_app, Hr, orb_true_iff. split; [naive_solver |].
    intros [Hm | [(Hin & (q & [= <-] & Hq) & Ht) | Hd]]; [tauto | | tauto].
    destruct (decide (p ∈ drivers)); [tauto |]. destruct (decide (p ∈ roots)) as [Hp%Hr | Hp]; [tauto |].
    rewrite Hr in Hp. tauto. }
  split.
  - intros p. unfold drivers. rewrite elem_of_add_drivers. by setoid_rewrite Hr.
  - intros p. rewrite (elem_of_foldl_put _ _ _ _ _ (elem_of_add_side drivers)).
    setoid_rewrite Hr'. set_solver.
Qed.
End Processes.

(** ** After the deadline *)

Section Kill.
Context `{Os}.
Variable late_sweep : Z.

Definition kill_launch (marker : string) (before : option (list Z)) (h : os_history)
    : bool * os_history :=
  if psutil_imports then kill_and_wait (@firefox_process_tree (table h) marker before) h
  else (false, h).

Definition kill_after_deadline (marker : string) (before : option (list Z)) (h : os_history)
    : os_history :=
  if psutil_imports then
    let '(firefox, driver) := @firefox_tree_parts (table h) marker before in
    let '(_, h) := kill_and_wait firefox h in
    let h := (h ++ [JoinFor late_sweep])%list in
    let second := foldl (λ d p, put p d) (foldl (λ d p, put p d) []
                    (@firefox_process_tree (table h) marker before)) driver in
    (kill_and_wait second h).2
  else h.

Lemma elem_of_puts (l d : list Z) x : x ∈ foldl (λ d p, put p d) d l ↔ x ∈ l ∨ x ∈ d.
Proof.
  rewrite (elem_of_foldl_put _ (λ p x, x = p)); [naive_solver |].
  intros d' a y. apply elem_of_put.
Qed.

(** past its deadline a fetch's Firefox side is killed first; after the
    thread's grace everything found then, and the driver found before, is
    killed, each process once. *)
Theorem kill_after_deadline_spec (marker : string) (before : option (list Z)) (h : os_history) :
  psutil_imports = true →
  let '(firefox, driver) := @firefox_tree_parts (table h) marker before in
  let waited := (h ++ kills firefox ++ [JoinFor late_sweep])%list in
  ∃ second, kill_after_deadline marker before h = (waited ++ kills second)%list
    ∧ NoDup second
    ∧ ∀ p, p ∈ second ↔
        p ∈ @firefox_process_tree (table waited) marker before ∨ p ∈ driver.
Proof.
  intros Hp. unfold kill_after_deadline. rewrite Hp.
  destruct (firefox_tree_parts marker before) as [firefox driver].
  pose proof (kill_and_wait_trace firefox h) as Hk. destruct (kill_and_wait firefox h) as [dead h1].
  cbn in Hk. subst h1. rewrite <- app_assoc, kill_and_wait_trace.
  set (waited := (h ++ kills firefox ++ [JoinFor late_sweep])%list).
  eexists. split; [reflexivity |]. split.
  - apply NoDup_foldl; [by intros; apply NoDup_put |].
    apply NoDup_foldl; [by intros; apply NoDup_put | constructor].
  - intros p. rewrite !elem_of_puts, elem_of_nil. tauto.
Qed.
End Kill.

(** * The cycle of one fetch *)

(** The calls, each with its answer; [FRead] carries its timeout. *)
Inductive call :=
| FTime (t : Z)
| FProxyEnter (r : result string)
| FLaunch (proxy : string) (r : result unit)
| FNewContext (r : result unit)
| FNewPage (r : result unit)
| FGoto (url : string) (r : result (option Z))
| FRead (timeout : Z) (r : result JsValue)
| FWait (r : result unit)
| FPageUrl (r : result string)
| FCloseContext (r : result unit)
| FExit (r : result unit)
| FProxyExit (r : result unit).

Class FirefoxDriver := {
  monotonic : list call → Z;
  ff_proxy_enter : list call → result string;
  ff_launch : list call → string → result unit;
  ff_new_context : list call → result unit;
  ff_new_page : list call → result unit;
  ff_goto : list call → string → result (option Z);
  ff_read : list call → Z → result JsValue;
  ff_wait : list call → result unit;            (* wait_for_timeout(_SETTLE_POLL_MS) *)
  ff_responses : list call → list NavResponse;
  ff_page_url : list call → result string;
  ff_close_context : list call → result unit;
  ff_exit : list call → result unit;
  ff_proxy_exit : list call → result unit;
  is_playwright_timeout : exn → bool;
  is_playwright_error : exn → bool;
}.

Definition SETTLE_POLL : Z := 250000.

Section Cycle.
Context `{FirefoxDriver}.
Variable nav_timeout : Z.
Variable url : string.

Definition time : M (list call) Z := λ h, let t := monotonic h in (Ok t, h ++ [FTime t])%list.

(** [_read_document]. *)
Definition ff_read_document (deadline : Z) : M (list call) (string * string) :=
  let! now := time in
  let timeout := Z.max (deadline - now) 1000 in
  let! value := perform (λ h, ff_read h timeout) (FRead timeout) in
  match value with
  | JsNumber _ => mraise (Exn FetchError "rendered page exceeds characters cap")
  | JsString value =>
      let '(document_uri, _, html) := partition "010"%char (chars value) in
      mret' (of_chars document_uri, of_chars html)
  end.

(** The test of the loop of [_settled_content], short-circuits included. *)
Definition should_poll (status : Z) (document : string * string) (first_uri : string) (deadline : Z)
    : M (list call) bool :=
  if negb ((status =? 200) && looks_challenged status document.2) then mret' false
  else
    let! uri := mlift (urldefrag document.1) in
    if negb (bool_decide (uri = first_uri)) then mret' false
    else let! now := time in mret' (SETTLE_POLL <=? deadline - now).

(** The loop, at most [fuel] turns of it; [None] when they do not suffice. *)
Fixpoint settle_loop (fuel : nat) (status : Z) (first_uri : string) (deadline : Z)
    (document : string * string) : M (list call) (option (string * string)) :=
  let! again := should_poll status document first_uri deadline in
  if again : bool then
    match fuel with
    | O => mret' None
    | S fuel =>
        let! _ := perform ff_wait FWait in
        let! document := mtry (ff_read_document deadline)
          (λ e, if is_a e.(exn_class) FetchError then mraise e else mret' document) in
        settle_loop fuel status first_uri deadline document
    end
  else mret' (Some document).

Definition settled_content (fuel : nat) (status deadline : Z)
    : M (list call) (option (string * string)) :=
  let! document := mtry (ff_read_document deadline)
    (λ e, if is_playwright_timeout e
          then mraise (Exn FetchError "rendered page could not be read within the navigation budget")
          else mraise e) in
  let! first_uri := mlift (urldefrag document.1) in
  settle_loop fuel status first_uri deadline document.

(** [_render]; the context is closed on every path. *)
Definition ff_page (fuel : nat) : M (list call) (option FetchResult) :=
  let! _ := perform ff_new_page FNewPage in
  let! start := time in
  let nav_deadline := start + nav_timeout in
  let! response := perform (λ h, ff_goto h url) (FGoto url) in
  match response with
  | None => mraise (Exn FetchError "no response from navigation")
  | Some response_status =>
      let! settled := settled_content fuel response_status nav_deadline in
      match settled with
      | None => mret' None
      | Some (document_uri, html) =>
          let! document_url := mlift (urldefrag document_uri) in
          let! events := mgets ff_responses in
          let status := document_status (navigation_responses events) document_url response_status in
          let! final_url := perform ff_page_url FPageUrl in
          let! _ := mlift (ff_check_final_document final_url url (Some document_uri)) in
          if MAX_HTML_BYTES <? utf8_length html
          then mraise (Exn FetchError "rendered page exceeds bytes cap")
          else mret' (Some {| html := html; http_status := status; method := "camoufox";
                              challenged := looks_challenged status html |})
      end
  end.

Definition ff_render (fuel : nat) : M (list call) (option FetchResult) :=
  let! _ := perform ff_new_context FNewContext in
  mfinally (ff_page fuel) (perform ff_close_context FCloseContext).

(** Whether the browser has been entered. *)
Definition launched (h : list call) : bool :=
  existsb (λ c, match c with FLaunch _ (Ok _) => true | _ => false end) h.

(** What [_drive] raises for an exception it catches. *)
Definition drive_error (h : list call) (e : exn) : exn :=
  if is_playwright_timeout e
  then Exn FetchError (if launched h then "camoufox navigation timed out" else "camoufox launch timed out")
  else if is_playwright_error e then Exn FetchError "camoufox browser error" else e.

Definition drive (fuel : nat) : M (list call) (option FetchResult) :=
  mtry
    (let! proxy := perform ff_proxy_enter FProxyEnter in
     mfinally
       (let! _ := perform (λ h, ff_launch h proxy) (FLaunch proxy) in
        mfinally (ff_render fuel) (perform ff_exit FExit))
       (perform ff_proxy_exit FProxyExit))
    (λ e h, (Raise (drive_error h e), h)).
End Cycle.

(** ** Its calls *)

Section CycleProofs.
Context `{FirefoxDriver}.
Variable nav_timeout : Z.
Variable url : string.

Definition doc_call (c : call) : bool :=
  match c with
  | FTime _ | FNewPage _ | FGoto _ _ | FRead _ _ | FWait _ | FPageUrl _ => true
  | _ => false
  end.
Notation quiet := (adds (Forall (λ c, doc_call c = true))).

Lemma time_calls : quiet time.
Proof. intros h. eexists. split; [reflexivity |]. by repeat constructor. Qed.

Lemma read_calls deadline : quiet (ff_read_document deadline).
Proof.
  unfold ff_read_document. apply adds_bind; [apply time_calls | intros now].
  apply adds_bind; [by apply adds_perform | intros [value |]; [| by apply adds_nil]].
  destruct (partition _ _) as [[? ?] ?]. by apply adds_nil.
Qed.

Lemma should_poll_calls status document first_uri deadline :
  quiet (should_poll status document first_uri deadline).
Proof.
  unfold should_poll. destruct (negb _); [by apply adds_nil |].
  apply adds_bind; [by apply adds_nil | intros uri]. destruct (negb _); [by apply adds_nil |].
  apply adds_bind; [apply time_calls | intros now; by apply adds_nil].
Qed.

Lemma settle_loop_calls fuel status first_uri deadline document :
  quiet (settle_loop fuel status first_uri deadline document).
Proof.
  revert document. induction fuel as [| fuel IH]; intros document; cbn [settle_loop];
    (apply adds_bind; [apply should_poll_calls | intros []; [| by apply adds_nil]]);
    [by apply adds_nil |].
  apply adds_bind; [by apply adds_perform | intros _]. apply adds_bind; [| done].
  apply adds_try; [apply read_calls |]. intros e h. by destruct (is_a _ _).
Qed.

Lemma ff_page_calls fuel : quiet (ff_page nav_timeout url fuel).
Proof.
  unfold ff_page. apply adds_bind; [by apply adds_perform | intros _].
  apply adds_bind; [apply time_calls | intros start].
  apply adds_bind; [by apply adds_perform | intros [status |]; [| by apply adds_nil]].
  apply adds_bind.
  { apply adds_bind; [apply adds_try; [apply read_calls |] |].
    - intros e h. by destruct (is_playwright_timeout e).
    - intros document. apply adds_bind; [by apply adds_nil | intros; apply settle_loop_calls]. }
  intros [[document_uri text] |]; [| by apply adds_nil].
  apply adds_bind; [by apply adds_nil | intros document_url].
  apply adds_bind; [by apply adds_nil | intros events].
  apply adds_bind; [by apply adds_perform | intros final_url].
  apply adds_bind; [by apply adds_nil | intros _]. by destruct (_ <? _); apply adds_nil.
Qed.

(** whatever the driver answers, a fetch enters Firefox only through the
    url of its own proxy, talks to a page only inside a context, closes the
    context, leaves Firefox and stops the proxy, in this order. *)
Theorem drive_closes_everything (fuel : nat) :
  adds (opened FProxyEnter (λ proxy,
          opened (FLaunch proxy) (λ _,
            opened FNewContext (λ _, Forall (λ c, doc_call c = true)) FCloseContext) FExit)
          FProxyExit)
    (drive nav_timeout url fuel).
Proof.
  apply adds_try; [| done].
  apply adds_opened; [intros h; left; by eexists |]. intros proxy.
  apply adds_opened; [intros h; left; by eexists |]. intros _.
  apply adds_opened; [intros h; left; by eexists |]. intros _. apply ff_page_calls.
Qed.

(** ** The settling loop ends *)

(** The clock never goes back, and a wait lasts its interval. *)
Class LawfulClock := {
  clock_mono h t : monotonic h <= monotonic (h ++ t)%list;
  clock_wait h t : monotonic h + SETTLE_POLL <= monotonic (h ++ FWait (Ok tt) :: t)%list;
}.

Lemma should_poll_true status document first_uri deadline h h' :
  should_poll status document first_uri deadline h = (Ok true, h') →
  status = 200 ∧ looks_challenged status document.2 = true
  ∧ urldefrag document.1 = Ok first_uri ∧ SETTLE_POLL <= deadline - monotonic h.
Proof.
  unfold should_poll. destruct (_ && _) eqn:E; cbn [negb]; [| done].
  apply andb_true_iff in E as [Hs Hc]. intros (uri & h1 & [= Hu <-] & Hr)%mbind_inv.
  case_bool_decide as Huri; cbn [negb] in Hr; [| done]. subst.
  cbn in Hr. injection Hr as Ht _. split_and!; [lia | done | done | lia].
Qed.

(** A page that goes on showing the challenge is polled only while an
    interval of the navigation budget is left: with one turn per interval of
    it, the loop always ends with a document or an exception. *)
Lemma settle_terminates `{!LawfulClock} (fuel : nat) (status deadline : Z)
    (first_uri : string) (document : string * string) (h h' : list call) :
  deadline - monotonic h < (Z.of_nat fuel + 1) * SETTLE_POLL →
  settle_loop fuel status first_uri deadline document h ≠ (Ok None, h').
Proof.
  revert document h. induction fuel as [| fuel IH]; intros document h Hf Hr;
    cbn [settle_loop] in Hr; apply mbind_inv in Hr as ([] & h1 & Hp & Hr); try done.
  - apply should_poll_true in Hp as (_ & _ & _ & Ht). lia.
  - destruct (should_poll_calls status document first_uri deadline h) as (t1 & Ht1 & _).
    rewrite Hp in Ht1. cbn in Ht1. subst h1.
    apply mbind_inv in Hr as ([] & h2 & [_ ->]%perform_inv & Hr).
    apply mbind_inv in Hr as (document' & h3 & Hread & Hr).
    apply (IH document' h3); [| exact Hr].
    assert (∃ t3, h3 = (((h ++ t1) ++ [FWait (Ok tt)]) ++ t3)%list) as [t3 ->].
    { assert (quiet (mtry (ff_read_document deadline)
         (λ e, if is_a e.(exn_class) FetchError then mraise e else mret' document))) as Hq.
      { apply adds_try; [apply read_calls |]. intros e h0. by destruct (is_a _ _). }
      destruct (Hq ((h ++ t1) ++ [FWait (Ok tt)])%list) as (t3 & Ht3 & _).
      rewrite Hread in Ht3. by exists t3. }
    pose proof (clock_mono h t1). pose proof (clock_wait (h ++ t1)%list t3) as Hw.
    rewrite <- (app_assoc (h ++ t1)%list). cbn [app]. lia.
Qed.

(** The clock does not go back while a program runs. *)
Lemma quiet_clock `{!LawfulClock} {A} (m : M (list call) A) h r h' :
  quiet m → m h = (r, h') → monotonic h <= monotonic h'.
Proof. intros Hq Hm. destruct (Hq h) as (t & Ht & _). rewrite Hm in Ht. cbn in Ht. subst h'. apply clock_mono. Qed.

(** C24: a fetch ends whatever its page does: when waiting lasts its interval,
    as many turns of the settling loop as intervals fit in the navigation
    budget always suffice, and the fetch gives a result or an exception. *)
Theorem drive_terminates `{!LawfulClock} (fuel : nat) (h h' : list call) :
  nav_timeout < (Z.of_nat fuel + 1) * SETTLE_POLL →
  drive nav_timeout url fuel h ≠ (Ok None, h').
Proof.
  intros Hf Hr. unfold drive, mtry in Hr. destruct (mbind' _ _ h) as [[a | e0] h0] eqn:E.
  2: { by destruct (is_Exception _). }
  injection Hr as -> ->. apply mbind_inv in E as (proxy & h1 & _ & Hr).
  apply mfinally_inv in Hr as (h2 & Hr & _). apply mbind_inv in Hr as (? & h3 & _ & Hr).
  apply mfinally_inv in Hr as (h4 & Hr & _). apply mbind_inv in Hr as (? & h5 & _ & Hr).
  apply mfinally_inv in Hr as (h6 & Hr & _).
  apply mbind_inv in Hr as (? & h7 & _ & Hr). apply mbind_inv in Hr as (start & h8 & [= <- <-] & Hr).
  apply mbind_inv in Hr as (response & h9 & [_ ->]%perform_inv & Hr).
  destruct response as [status |]; [| done].
  apply mbind_inv in Hr as (settled & h10 & Hset & Hr). destruct settled as [[uri text] |].
  { apply mbind_inv in Hr as (? & ? & _ & Hr). apply mbind_inv in Hr as (? & ? & _ & Hr).
    apply mbind_inv in Hr as (? & ? & _ & Hr). apply mbind_inv in Hr as (? & ? & _ & Hr).
    by destruct (_ <? _). }
  apply mbind_inv in Hset as (first & h11 & Hread & Hset).
  apply mbind_inv in Hset as (first_uri & h12 & [= _ <-] & Hset).
  apply quiet_clock in Hread.
  2: { apply adds_try; [apply read_calls |]. intros e h0. by destruct (is_playwright_timeout e). }
  eapply settle_terminates; [| exact Hset].
  pose proof (clock_mono h7 ([FTime (monotonic h7)] ++ [FGoto url (Ok (Some status))])%list) as Hc.
  rewrite app_assoc in Hc. lia.
Qed.
End CycleProofs.

(** ** What it returns *)

Section CycleResults.
Context `{FirefoxDriver}.
Variable nav_timeout : Z.
Variable url : string.

(** What [drive] raises is never an exception of the driver library. *)
Lemma drive_raises fuel h e h' :
  drive nav_timeout url fuel h = (Raise e, h') → is_Exception (exn_class e) = true →
  exn_class e = FetchError ∨ is_playwright_timeout e = false ∧ is_playwright_error e = false.
Proof.
  unfold drive, mtry. destruct (mbind' _ _ h) as [[a | e0] h0]; [done |].
  destruct (is_Exception (exn_class e0)) eqn:E.
  - intros [= <- _] _. unfold drive_error. destruct (is_playwright_timeout e0) eqn:Et; [by left |].
    destruct (is_playwright_error e0) eqn:Ee; [by left | by right].
  - intros [= <- _]. congruence.
Qed.

(** A document that was read: its uri and its text come from one answer. *)
Definition was_read (document : string * string) (h : list call) : Prop :=
  ∃ timeout value found, FRead timeout (Ok (JsString value)) ∈ h
    ∧ partition "010"%char (chars value) = (chars document.1, found, chars document.2).

Lemma was_read_app document h t : was_read document h → was_read document (h ++ t).
Proof. intros (t0 & v & f & Hin & Hp). exists t0, v, f. split; [set_solver | done]. Qed.

Lemma read_was_read deadline h document h' :
  ff_read_document deadline h = (Ok document, h') → was_read document h'.
Proof.
  intros (now & h1 & [= <- <-] & (value & h2 & [_ ->]%perform_inv & Hr)%mbind_inv)%mbind_inv.
  destruct value as [value |]; [| done].
  destruct (partition _ _) as [[u f] t] eqn:Ep. injection Hr as <- <-.
  exists (Z.max (deadline - monotonic h) 1000), value, f. cbn. rewrite !chars_of_chars.
  split; [set_solver | exact Ep].
Qed.

(** The document kept by the loop was read, and it is final: not the
    challenge any more, another one than the first, or out of budget. *)
Lemma settle_loop_result fuel status first_uri deadline document h final h' :
  settle_loop fuel status first_uri deadline document h = (Ok (Some final), h') →
  was_read document h →
  was_read final h'
  ∧ (status ≠ 200 ∨ looks_challenged status final.2 = false
     ∨ urldefrag final.1 ≠ Ok first_uri ∨ ∃ now, FTime now ∈ h' ∧ deadline - now < SETTLE_POLL).
Proof.
  revert document h. induction fuel as [| fuel IH]; intros document h Hr Hd;
    cbn [settle_loop] in Hr; apply mbind_inv in Hr as (again & h1 & Hp & Hr).
  all: destruct (should_poll_calls status document first_uri deadline h) as (t1 & Ht1 & _).
  all: rewrite Hp in Ht1; cbn in Ht1; subst h1.
  all: assert (Hstop : again = false → was_read document (h ++ t1)
     ∧ (status ≠ 200 ∨ looks_challenged status document.2 = false
        ∨ urldefrag document.1 ≠ Ok first_uri
        ∨ ∃ now, FTime now ∈ (h ++ t1)%list ∧ deadline - now < SETTLE_POLL)).
  1, 3: intros ->; split; [by apply was_read_app |]; unfold should_poll in Hp;
    destruct (_ && _) eqn:E; cbn [negb] in Hp;
    [| apply andb_false_iff in E as [? | ?]; [left; lia | by right; left]];
    apply mbind_inv in Hp as (uri & h2 & [= Hu <-] & Hp);
    case_bool_decide as Huri; cbn [negb] in Hp; [| right; right; left; congruence];
    right; right; right; cbn in Hp; injection Hp as Hlt Happ; exists (monotonic h);
    rewrite <- Happ; split; [set_solver | lia].
  - destruct again; [done |]. injection Hr as <- <-. by apply Hstop.
  - destruct again; [| injection Hr as <- <-; by apply Hstop].
    apply mbind_inv in Hr as ([] & h2 & [_ ->]%perform_inv & Hr).
    apply mbind_inv in Hr as (document' & h3 & Hread & Hr). apply (IH _ _ Hr).
    unfold mtry in Hread.
    destruct (ff_read_document deadline ((h ++ t1) ++ [FWait (Ok tt)])%list) as [[d | e] h4] eqn:Er.
    + injection Hread as <- <-. by eapply read_was_read.
    + destruct (read_calls deadline ((h ++ t1) ++ [FWait (Ok tt)])%list) as (t4 & Ht4 & _).
      rewrite Er in Ht4. cbn in Ht4. subst h4. destruct (is_Exception _); [| done].
      destruct (is_a _ _); [done |]. injection Hread as <- <-. by do 3 apply was_read_app.
Qed.

(** What a page returned by a fetch went through. *)
Record ff_vetted (h : list call) (res : FetchResult) : Prop := {
  ffv_goto : ∃ s, FGoto url (Ok (Some s)) ∈ h;
  ffv_document : ∃ uri final_url, was_read (uri, html res) h
    ∧ FPageUrl (Ok final_url) ∈ h
    ∧ check_final_document final_url url (Some uri) = Ok tt;
  ffv_size : utf8_length (html res) <= MAX_HTML_BYTES;
  ffv_method : method res = "camoufox";
  ffv_challenged : challenged res = looks_challenged (http_status res) (html res);
}.

Lemma ff_vetted_app h t res : ff_vetted h res → ff_vetted (h ++ t) res.
Proof.
  intros [[s Hs] (u & f & H1 & H2 & H3) ? ? ?]. split; [| | done..].
  - exists s. set_solver.
  - exists u, f. split_and!; [by apply was_read_app | set_solver | done].
Qed.

Lemma ff_page_vetted fuel h res h' :
  ff_page nav_timeout url fuel h = (Ok (Some res), h') → ff_vetted h' res.
Proof.
  intros ([] & h1 & [_ ->]%perform_inv & Hr)%mbind_inv.
  apply mbind_inv in Hr as (start & h2 & [= _ <-] & Hr).
  apply mbind_inv in Hr as (response & h3 & [_ ->]%perform_inv & Hr).
  destruct response as [status |]; [| done].
  apply mbind_inv in Hr as (settled & h4 & Hset & Hr). destruct settled as [[uri text] |]; [| done].
  unfold settled_content in Hset. apply mbind_inv in Hset as (first & h5 & Hread & Hset).
  apply mbind_inv in Hset as (first_uri & h6 & [= _ <-] & Hset).
  assert (was_read first h5 ∧ ∃ t, h5 = ((((h ++ [FNewPage (Ok tt)])
     ++ [FTime (monotonic (h ++ [FNewPage (Ok tt)])%list)]) ++ [FGoto url (Ok (Some status))]) ++ t)%list)
    as [Hfirst [t5 ->]].
  { unfold mtry in Hread. destruct (ff_read_document _ _) as [[d | e] s] eqn:Er.
    - injection Hread as <- <-. split; [by eapply read_was_read |].
      edestruct read_calls as (t & Ht & _). rewrite Er in Ht. by exists t.
    - destruct (is_Exception _); [| done]. by destruct (is_playwright_timeout _). }
  edestruct settle_loop_calls as (t4 & Ht4 & _). rewrite Hset in Ht4. cbn in Ht4. subst h4.
  apply settle_loop_result in Hset as [Hfinal _]; [| done].
  apply mbind_inv in Hr as (document_url & h7 & [= _ <-] & Hr).
  apply mbind_inv in Hr as (events & h8 & [= _ <-] & Hr).
  apply mbind_inv in Hr as (final_url & h9 & [_ ->]%perform_inv & Hr).
  apply mbind_inv in Hr as ([] & h10 & [= Hcheck <-] & Hr).
  destruct (Z.ltb_spec MAX_HTML_BYTES (utf8_length text)); [done |]. injection Hr as <- <-.
  rewrite (proj2 ff_guards_agree) in Hcheck. split; cbn; [| | done..].
  - exists status. set_solver.
  - exists uri, final_url. split_and!; [by apply was_read_app | set_solver | done].
Qed.

(** a page is returned only if the navigation to the requested url
    answered and the last document read, of at most the byte cap, is on the
    requested site and is the page's own; the driver library's exceptions
    never escape: a time out or an error of it is a FetchError. *)
Theorem drive_result_vetted (fuel : nat) (h h' : list call) (r : result (option FetchResult)) :
  drive nav_timeout url fuel h = (r, h') →
  match r with
  | Ok (Some res) => ff_vetted h' res
  | Ok None => True
  | Raise e => is_Exception (exn_class e) = true →
      exn_class e = FetchError ∨ is_playwright_timeout e = false ∧ is_playwright_error e = false
  end.
Proof.
  intros Hr. destruct r as [[res |] | e]; [| done | by apply (drive_raises _ _ _ _ Hr)].
  unfold drive, mtry in Hr. destruct (mbind' _ _ h) as [[a | e0] h0] eqn:E.
  2: { by destruct (is_Exception _). }
  injection Hr as -> ->. apply mbind_inv in E as (proxy & h1 & [_ ->]%perform_inv & Hr).
  apply mfinally_inv in Hr as (h2 & Hr & [_ ->]%perform_inv).
  apply mbind_inv in Hr as (? & h3 & [_ ->]%perform_inv & Hr).
  apply mfinally_inv in Hr as (h4 & Hr & [_ ->]%perform_inv).
  apply mbind_inv in Hr as (? & h5 & [_ ->]%perform_inv & Hr).
  apply mfinally_inv in Hr as (h6 & Hr & [_ ->]%perform_inv).
  do 3 apply ff_vetted_app. by eapply ff_page_vetted.
Qed.
End CycleResults.

(** * A page behind an interstitial *)

Fixpoint count_waits (h : list call) : Z :=
  match h with
  | [] => 0
  | FWait (Ok _) :: h => 1 + count_waits h
  | _ :: h => count_waits h
  end.

Lemma count_waits_app h t : count_waits (h ++ t) = count_waits h + count_waits t.
Proof. induction h as [| [] h IH]; cbn; try exact IH; [done |]. destruct r; lia. Qed.

Lemma count_waits_nonneg h : 0 <= count_waits h.
Proof. induction h as [| [] h IH]; cbn; try lia. destruct r; lia. Qed.

(** Time passes only in waits; the first read gives [first], later ones
    [later]. *)
Definition demo_driver (first later at_url : string) : FirefoxDriver := {|
  monotonic := λ h, SETTLE_POLL * count_waits h;
  ff_proxy_enter := λ _, Ok "http://127.0.0.1:3128";
  ff_launch := λ _ _, Ok tt;
  ff_new_context := λ _, Ok tt;
  ff_new_page := λ _, Ok tt;
  ff_goto := λ _ _, Ok (Some 200);
  ff_read := λ h _, Ok (JsString (if count_waits h =? 0 then first else later));
  ff_wait := λ _, Ok tt;
  ff_responses := λ _, [];
  ff_page_url := λ _, Ok at_url;
  ff_close_context := λ _, Ok tt;
  ff_exit := λ _, Ok tt;
  ff_proxy_exit := λ _, Ok tt;
  is_playwright_timeout := λ e, bool_decide (exn_class e = TimeoutError);
  is_playwright_error := λ e, bool_decide (exn_class e = OtherException "Error");
|}.

#[local] Instance demo_clock first later at_url : @LawfulClock (demo_driver first later at_url).
Proof.
  split; intros h t; cbn; unfold SETTLE_POLL; rewrite count_waits_app; cbn;
    pose proof (count_waits_nonneg t); lia.
Qed.

Definition kabum : string := "https://kabum.com.br/p".
Definition shown (text : string) : string := of_chars (chars kabum ++ "010"%char :: chars text).

Lemma drive_terminates_witness :
  @drive (demo_driver (shown "just a moment") (shown "just a moment") kabum) 400000 kabum 1 []
  ≠ (Ok None, []).
Proof.
  apply (@drive_terminates _ 400000 kabum (demo_clock (shown "just a moment") (shown "just a moment") kabum)).
  unfold SETTLE_POLL. lia.
Defined.

Lemma drive_result_vetted_witness :
  let D := demo_driver (shown "just a moment") (shown "<html>") kabum in
  let page := {| html := "<html>"; http_status := 200; method := "camoufox"; challenged := true |} in
  let r := @drive D 400000 kabum 1 [] in
  r.1 = Ok (Some page) ∧ @ff_vetted kabum r.2 page.
Proof.
  intros D page r. split; [vm_compute; reflexivity |].
  apply (@drive_result_vetted D 400000 kabum 1 [] r.2 (Ok (Some page))).
  vm_compute. reflexivity.
Defined.

(** A playwright driver and a Camoufox born after the snapshot of pid 9. *)
Definition novel_table : ProcTable :=
  {| self_children := Some [2; 3; 9];
     children := λ p, Some [];
     parent := λ p, Some (Some 1);
     cmdline := λ p, Some (if p =? 3 then ["/opt/camoufox/camoufox-bin"] else ["playwright"; "run-driver"]) |}.

Lemma firefox_tree_spec_witness :
  @firefox_tree_parts novel_table "launch-id=ab" (Some [9]) = ([2; 3], [])
  ∧ ∀ p, p ∈ [] ↔ ∃ r, (r ∈ [2; 3; 9] ∧ @cmdline_carries novel_table r "launch-id=ab" = true)
                        ∧ @driver_of novel_table r = Some p.
Proof.
  split; [vm_compute; reflexivity |].
  exact (proj1 (@firefox_tree_spec novel_table "launch-id=ab" (Some [9]) [2; 3; 9] eq_refl)).
Defined.

Lemma kill_after_deadline_spec_witness :
  let O := {| table := λ _, novel_table; psutil_imports := true; wait_procs := λ _, Some [];
              still_running := λ _, true |} in
  @kill_after_deadline O 5 "launch-id=ab" (Some [9]) []
    = [KillAll [2; 3]; JoinFor 5; KillAll [2; 3]]
  ∧ ∃ second, @kill_after_deadline O 5 "launch-id=ab" (Some [9]) []
      = ([KillAll [2; 3]; JoinFor 5] ++ kills second)%list ∧ NoDup second
      ∧ ∀ p, p ∈ second ↔ p ∈ @firefox_process_tree novel_table "launch-id=ab" (Some [9]) ∨ p ∈ [].
Proof.
  intros O. split; [vm_compute; reflexivity |].
  exact (@kill_after_deadline_spec O 5 "launch-id=ab" (Some [9]) [] eq_refl).
Defined.

(** Builds are compared by number: beta.30 is over a floor of beta.9. *)
Definition demo_install (build : string) : Install :=
  {| module_installed := λ _, true; executable := λ _, true;
     installed_version := λ _, Ok ("152.0.4", build);
     constraints := Ok ("beta.2", [([1; 50], "beta.9"); ([1; 99], "beta.90")], "1.58.0") |}.

Example floors :
  @package_browser_floor (demo_install "beta.30") = Ok "beta.9"
  ∧ @ready_firefox_major (demo_install "beta.30") "/opt/camoufox/camoufox-bin" "152.0.4-beta.30"
    = Ok (inl 152)
  ∧ @ready_firefox_major (demo_install "beta.8") "/opt/camoufox/camoufox-bin" "152.0.4-beta.8"
    = Ok (inr (not_ready "installed Camoufox build is below the floor")).
Proof. split_and!; vm_compute; reflexivity. Qed.

Lemma prepare_spec_witness :
  let I := demo_install "beta.30" in
  ∃ kw, @prepare I "/opt/camoufox/camoufox-bin" "152.0.4-beta.30" {["UBO"]} "--id=1" 20 = Ok kw
    ∧ kw_ff_version kw = 152 ∧ (∀ name, name ∈ ({["UBO"]} : gset string) ↔ name ∈ kw_exclude_addons kw).
Proof.
  intros I. eexists. split; [vm_compute; reflexivity |]. split; [reflexivity |].
  apply (@prepare_spec I "/opt/camoufox/camoufox-bin" "152.0.4-beta.30" "--id=1" {["UBO"]} 20).
  vm_compute. reflexivity.
Defined.
