(* ===== verification/Uc.v ===== *)
(** The uc tier ([autolycos/adapters/uc.py]): what its Chrome is given, the
    processes of a launch, and the two deadlines, on the launch and on what
    follows it, as step relations.  SeleniumBase, the process table and the
    file system are arguments.  Text is Latin-1. *)

From S2P Require Import Prelude Domain Safety Urls Egress Text Browser Watchdog.

Local Notation M := Prelude.M.

(** * Arguments *)

(** Sorted and without duplicates. *)
Definition uc_normalize_domains (domains : list string) : list string :=
  sort_by str_leb (elements (normalize_domains domains)).

Definition uc_is_webrtc_ip_handling_policy (arg : string) : bool :=
  let normalized := lower (chars arg) in
  existsb (λ name, bool_decide (normalized = chars name)
                   || bool_decide (chars (name +:+ "=") `prefix_of` normalized))
    WEBRTC_IP_HANDLING_POLICY_NAMES.

Definition uc_chromium_args (args : list string) : list string :=
  (filter (λ a, uc_is_webrtc_ip_handling_policy a = false) args ++ [WEBRTC_IP_HANDLING_POLICY])%list.

(** The rules of [_host_resolver_rules], before they are joined. *)
Definition resolver_rules (target : ValidatedTarget) (subresource_domains : list string)
    : list string :=
  let addr := if bool_decide (":"%char ∈ chars target.(vt_ip))
              then "[" +:+ target.(vt_ip) +:+ "]" else target.(vt_ip) in
  (["MAP " +:+ target.(vt_host) +:+ " " +:+ addr; "MAP * ~NOTFOUND"]
   ++ ((λ d, "EXCLUDE " +:+ d) <$> uc_normalize_domains subresource_domains))%list.

(** [", ".join(rules)]. *)
Fixpoint join_comma (rules : list string) : string :=
  match rules with
  | [] => ""
  | [r] => r
  | r :: rules => r +:+ ", " +:+ join_comma rules
  end.

Definition host_resolver_rules (target : ValidatedTarget) (subresource_domains : list string)
    : string := join_comma (resolver_rules target subresource_domains).

(** ** [urllib.parse.quote] *)

Definition JS_SAFE_URL_CHARS : list ascii := chars ":/?#[]@!$&()*+,;=%".

(** Letters, digits and [_.-~]. *)
Definition always_safe (c : ascii) : bool :=
  is_alpha c || is_digit c || bool_decide (c ∈ chars "_.-~").

Definition hex_char (n : Z) : ascii :=
  ascii_of_N (Z.to_N (if n <? 10 then 48 + n else 55 + n)).

(** The UTF-8 bytes of a Latin-1 character. *)
Definition utf8 (c : ascii) : list Z :=
  if code c <? 128 then [code c] else [192 + code c / 64; 128 + code c mod 64].

Definition quote_char (safe : list ascii) (c : ascii) : list ascii :=
  if always_safe c || bool_decide (c ∈ safe) then [c]
  else concat ((λ b, ["%"%char; hex_char (b / 16); hex_char (b mod 16)]) <$> utf8 c).

(** [quote(string, safe=safe)], [safe] being ASCII. *)
Definition quote (safe : list ascii) (s : string) : string :=
  of_chars (concat (quote_char safe <$> chars s)).

(** ** The browser binary *)

Definition CHROMIUM_DIR_RE : Text.re := Seq (lit "chromium-") (Group 1 (many1 Text.digit)).

(** [match.group(1)] of a full match: what follows the prefix. *)
Definition revision_of (name : string) : option (list ascii) :=
  if fullmatch CHROMIUM_DIR_RE (chars name) then Some (drop 9 (chars name)) else None.

(** The loop over the entries of the cache directory. *)
Fixpoint best_chromium (base : string) (isfile : string → bool) (entries : list string)
    (best : option (Z * string)) : result (option (Z * string)) :=
  match entries with
  | [] => Ok best
  | name :: entries =>
      match revision_of name with
      | None => best_chromium base isfile entries best
      | Some digits =>
          let candidate := base +:+ "/" +:+ name +:+ "/chrome-linux64/chrome" in
          if negb (isfile candidate) then best_chromium base isfile entries best
          else
            let? revision := int_of digits in
            let better := match best with Some (r, _) => r <? revision | None => true end in
            best_chromium base isfile entries (if better then Some (revision, candidate) else best)
      end
  end.

Definition find_patchright_chromium (base : string) (isfile : string → bool)
    (listdir : result (list string)) : result (option string) :=
  match listdir with
  | Raise e => if is_a e.(exn_class) OSError then Ok None else Raise e
  | Ok entries => let? best := best_chromium base isfile entries None in Ok (snd <$> best)
  end.

(** ** The status *)

Definition STATUS_FALLBACK : Z := 200.

(** [_read_status]: [getter] is [driver.get_http_status], if there is one; an
    empty answer is [None]. *)
Definition read_status (getter : option (result (option Z))) : result Z :=
  match getter with
  | None => Ok STATUS_FALLBACK
  | Some (Raise e) => if is_Exception e.(exn_class) then Ok STATUS_FALLBACK else Raise e
  | Some (Ok None) => Ok STATUS_FALLBACK
  | Some (Ok (Some status)) => Ok (if status =? 0 then STATUS_FALLBACK else status)
  end.

(** What [_run] reads from the driver once the page is open. *)
Definition uc_result (html : string) (getter : option (result (option Z)))
    (current_url : option string) : result FetchResult :=
  if MAX_HTML_BYTES <? utf8_length html
  then raise FetchError "rendered page exceeds bytes cap"
  else
    let? status := read_status getter in
    Ok {| html := html; http_status := status; method := "uc";
          challenged := looks_challenged status html
                        || looks_like_chrome_error_page current_url html |}.

(** * The url handed to SeleniumBase *)

Lemma elem_of_concat {A} (x : A) (l : list (list A)) : x ∈ concat l ↔ ∃ k, k ∈ l ∧ x ∈ k.
Proof.
  induction l as [| k l IH]; cbn; [set_solver |]. rewrite elem_of_app, IH. set_solver.
Qed.

(** What may stand in a quoted url. *)
Definition js_char (c : ascii) : bool := always_safe c || bool_decide (c ∈ JS_SAFE_URL_CHARS).

Lemma code_range c : 0 <= code c < 256.
Proof. unfold code. pose proof (N_ascii_bounded c). lia. Qed.

Lemma hex_char_safe n : 0 <= n < 16 → always_safe (hex_char n) = true.
Proof.
  intros H. assert (n ∈ [0;1;2;3;4;5;6;7;8;9;10;11;12;13;14;15]) as Hn.
  { apply list_elem_of_In. cbn. lia. }
  clear H. revert n Hn. apply Forall_forall. repeat constructor.
Qed.

Lemma utf8_bytes c b : b ∈ utf8 c → 0 <= b < 256.
Proof.
  pose proof (code_range c). pose proof (Z.mod_pos_bound (code c) 64 ltac:(lia)).
  unfold utf8. destruct (Z.ltb_spec (code c) 128).
  - intros ->%list_elem_of_singleton. lia.
  - intros [-> | ->%list_elem_of_singleton]%elem_of_cons; [| lia].
    assert (code c / 64 < 4) by (apply Z.div_lt_upper_bound; lia).
    assert (0 <= code c / 64) by (apply Z.div_pos; lia). lia.
Qed.

Lemma quote_char_js c x : x ∈ quote_char JS_SAFE_URL_CHARS c → js_char x = true.
Proof.
  unfold quote_char. destruct (always_safe c || _) eqn:E.
  - by intros ->%list_elem_of_singleton.
  - intros (l & Hl & Hx)%elem_of_concat. apply list_elem_of_fmap in Hl as (b & -> & Hb).
    apply utf8_bytes in Hb. unfold js_char.
    assert (0 <= b / 16 < 16) by (split; [apply Z.div_pos | apply Z.div_lt_upper_bound]; lia).
    pose proof (Z.mod_pos_bound b 16 ltac:(lia)).
    apply elem_of_cons in Hx as [-> | Hx]; [by vm_compute |].
    apply elem_of_cons in Hx as [-> | ->%list_elem_of_singleton]; by rewrite hex_char_safe by lia.
Qed.

Lemma quote_id s :
  forallb js_char (chars s) = true → quote JS_SAFE_URL_CHARS s = s.
Proof.
  intros H. unfold quote. rewrite <- (of_chars_chars s) at 2. f_equal.
  induction (chars s) as [| c l IH]; [done |]. cbn in H. apply andb_prop in H as [Hc Hl].
  cbn. rewrite IH by done. unfold quote_char. unfold js_char in Hc. by rewrite Hc.
Qed.

(** A character that ends or escapes a JavaScript string literal, quotes of
    both kinds, or that is not printable ASCII. *)
Definition js_breaking (c : ascii) : bool :=
  (code c <=? 32) || (127 <=? code c)
  || bool_decide (c ∈ ["034"; "039"; "092"; "096"; "<"; ">"]%char).

Lemma js_char_plain c : js_char c = true → js_breaking c = false.
Proof. destruct c as [[] [] [] [] [] [] [] []]; vm_compute; congruence. Qed.

(** The url interpolated into SeleniumBase's script holds no character
    that could end a string literal or escape in it, whatever the url; and a
    url that passed the guard is only changed at its single quotes. *)
Theorem quoted_url_js_safe (url : string) :
  (∀ c, c ∈ chars (quote JS_SAFE_URL_CHARS url) → js_breaking c = false)
  ∧ quote JS_SAFE_URL_CHARS (quote JS_SAFE_URL_CHARS url) = quote JS_SAFE_URL_CHARS url
  ∧ (rfc3986_safe url = true →
     quote JS_SAFE_URL_CHARS url
     = of_chars (concat ((λ c, if bool_decide (c = "'"%char) then chars "%27" else [c]) <$> chars url))).
Proof.
  assert (Hq : ∀ c, c ∈ chars (quote JS_SAFE_URL_CHARS url) → js_char c = true).
  { intros c. unfold quote. rewrite chars_of_chars. intros (l & Hl & Hc)%elem_of_concat.
    apply list_elem_of_fmap in Hl as (x & -> & _). by eapply quote_char_js. }
  split; [| split].
  - intros c Hc. apply js_char_plain. by apply Hq.
  - apply quote_id. apply forallb_forall. intros c Hc%list_elem_of_In. by apply Hq.
  - unfold rfc3986_safe. rewrite forallb_forall. intros Hs. unfold quote. f_equal. f_equal.
    apply list_fmap_ext. intros i c Hc. assert (Hin : rfc3986_char c = true).
    { apply Hs, list_elem_of_In. by eapply list_elem_of_lookup_2. }
    clear - Hin. destruct c as [[] [] [] [] [] [] [] []]; vm_compute in Hin; try done; reflexivity.
Qed.

(** * The resolver rules *)

Lemma elem_of_uc_domains d domains :
  d ∈ uc_normalize_domains domains ↔
  ∃ raw, raw ∈ domains ∧ raw ≠ "" ∧ d = of_chars (normalize_host raw).
Proof.
  unfold uc_normalize_domains. rewrite elem_of_sort_by, elem_of_elements.
  unfold normalize_domains. rewrite elem_of_list_to_set, list_elem_of_fmap.
  setoid_rewrite list_elem_of_filter. naive_solver.
Qed.

(** the first rule pins the navigation host to the validated address, the
    second blocks every name, and after them come, each once and in order,
    the declared sub-resource domains: the navigation host is excluded from
    the blocking exactly when it is declared among them. *)
Theorem resolver_rules_spec (target : ValidatedTarget) (subs : list string) :
  resolver_rules target subs !! 0%nat
    = Some ("MAP " +:+ target.(vt_host) +:+ " "
            +:+ (if bool_decide (":"%char ∈ chars target.(vt_ip))
                 then "[" +:+ target.(vt_ip) +:+ "]" else target.(vt_ip)))
  ∧ resolver_rules target subs !! 1%nat = Some "MAP * ~NOTFOUND"
  ∧ (∀ d, "EXCLUDE " +:+ d ∈ drop 2 (resolver_rules target subs) ↔
          ∃ raw, raw ∈ subs ∧ raw ≠ "" ∧ d = of_chars (normalize_host raw))
  ∧ NoDup (drop 2 (resolver_rules target subs)).
Proof.
  split; [done |]. split; [done |]. unfold resolver_rules.
  rewrite (drop_app_length' [_; _]) by done. split.
  - intros d. rewrite <- elem_of_uc_domains, list_elem_of_fmap. split.
    + intros (d' & Hd & Hin). assert (d = d') as -> by (by apply (inj (String.append "EXCLUDE "))). done.
    + intros Hin. by exists d.
  - apply NoDup_fmap_2; [intros a b Hab; by apply (inj (String.append "EXCLUDE ")) |].
    unfold uc_normalize_domains. rewrite sort_by_perm. apply NoDup_elements.
Qed.

(** A site that declares its own host as a sub-resource loses the pin. *)
Example declared_nav_host_excluded :
  host_resolver_rules {| vt_url := "https://kabum.com.br/"; vt_scheme := "https";
      vt_host := "kabum.com.br"; vt_port := 443; vt_ip := "8.8.8.8" |} ["KABUM.com.br."]
  = "MAP kabum.com.br 8.8.8.8, MAP * ~NOTFOUND, EXCLUDE kabum.com.br".
Proof. vm_compute. reflexivity. Qed.

(** * The browser binary *)

Section Chromium.
Variables (base : string) (isfile : string → bool).

Definition candidate_of (name : string) : string := base +:+ "/" +:+ name +:+ "/chrome-linux64/chrome".

(** An entry that is considered, with its revision. *)
Definition considered (name : string) (revision : Z) : Prop :=
  ∃ digits, revision_of name = Some digits ∧ int_of digits = Ok revision
    ∧ isfile (candidate_of name) = true.

(** What the loop finds from [best] on: a largest revision among the
    considered entries and [best]. *)
Definition best_of (entries : list string) (best found : option (Z * string)) : Prop :=
  match found with
  | None => best = None ∧ ∀ name revision, name ∈ entries → ¬ considered name revision
  | Some (r, path) =>
      (best = Some (r, path) ∨ ∃ name, name ∈ entries ∧ considered name r ∧ path = candidate_of name)
      ∧ (∀ r0 p0, best = Some (r0, p0) → r0 <= r)
      ∧ ∀ name revision, name ∈ entries → considered name revision → revision <= r
  end.

Lemma best_of_skip name entries best found :
  (∀ revision, ¬ considered name revision) →
  best_of entries best found → best_of (name :: entries) best found.
Proof.
  intros Hno. destruct found as [[r p] |].
  - intros (H1 & H2 & H3). split; [| split; [exact H2 |]].
    + destruct H1 as [? | (n & ? & ?)]; [by left |]. right. exists n. by split; [right |].
    + intros n v [-> | Hn]%elem_of_cons Hc; [by destruct (Hno v) | by eapply H3].
  - intros [H1 H2]. split; [exact H1 |].
    intros n v [-> | Hn]%elem_of_cons Hc; [by destruct (Hno v) | by eapply H2].
Qed.

Lemma best_of_take name revision entries best found :
  (∀ v, considered name v ↔ v = revision) →
  best_of entries (if match best with Some (r, _) => r <? revision | None => true end
                   then Some (revision, candidate_of name) else best) found →
  best_of (name :: entries) best found.
Proof.
  intros Hc. set (better := match best with Some (r, _) => r <? revision | None => true end).
  destruct found as [[r p] |]; cbn.
  - intros (H1 & H2 & H3).
    assert (revision <= r ∧ ∀ r0 p0, best = Some (r0, p0) → r0 <= r) as [Hge Hbest].
    { subst better. destruct best as [[r0 p0] |].
      - destruct (Z.ltb_spec r0 revision); specialize (H2 _ _ eq_refl);
          (split; [lia | intros ? ? [= <- <-]; lia]).
      - split; [by eapply H2 | done]. }
    split; [| split; [exact Hbest |]].
    + destruct H1 as [H1 | (n & ? & ?)]; [| right; exists n; by split; [right |]].
      destruct better; [| by left]. injection H1 as <- <-. right. exists name.
      split; [by left |]. split; [by apply Hc | done].
    + intros n v [-> | Hn]%elem_of_cons Hv; [| by eapply H3]. by apply Hc in Hv as ->.
  - intros [H1 _]. subst better. destruct best as [[r0 p0] |]; [| done].
    by destruct (r0 <? revision).
Qed.

Lemma best_chromium_best entries best found :
  best_chromium base isfile entries best = Ok found → best_of entries best found.
Proof.
  revert best. induction entries as [| name entries IH]; intros best; cbn [best_chromium].
  { intros [= <-]. destruct best as [[r p] |]; cbn.
    - split; [by left |]. split; [intros r0 p0 [= -> ->]; lia |]. by intros ? ? ?%elem_of_nil.
    - split; [done |]. by intros ? ? ?%elem_of_nil. }
  destruct (revision_of name) as [digits |] eqn:Er.
  2: { intros Hb. apply best_of_skip; [| by apply IH]. intros v (d & ? & _). congruence. }
  destruct (isfile _) eqn:Ef; cbn [negb].
  2: { intros Hb. apply best_of_skip; [| by apply IH]. intros v (d & _ & _ & Hf).
       unfold candidate_of in Hf. congruence. }
  destruct (int_of digits) as [revision |] eqn:Ei; [| done]. cbn [rbind].
  intros Hb. apply (best_of_take name revision); [| by apply IH]. intros v. split.
  - intros (d & Hd & Hv & _). rewrite Er in Hd. injection Hd as <-. congruence.
  - intros ->. by exists digits.
Qed.

(** the binary handed to SeleniumBase's shell is never built from another
    directory name than chromium- and digits: it is the one of the largest
    revision among those that are files, and none is found only when there is
    none. *)
Theorem find_patchright_chromium_spec (entries : list string) (found : option string) :
  find_patchright_chromium base isfile (Ok entries) = Ok found →
  match found with
  | None => ∀ name revision, name ∈ entries → ¬ considered name revision
  | Some path => ∃ name revision, name ∈ entries ∧ considered name revision
      ∧ path = candidate_of name ∧ (∃ digits, chars name = (chars "chromium-" ++ digits)%list
          ∧ digits ≠ [] ∧ Forall (λ c, range "0" "9" c = true) digits)
      ∧ ∀ other r, other ∈ entries → considered other r → r <= revision
  end.
Proof.
  unfold find_patchright_chromium.
  destruct (best_chromium base isfile entries None) as [best |] eqn:E; [| done].
  apply best_chromium_best in E. intros [= <-]. destruct best as [[r p] |]; cbn in E |- *.
  - destruct E as ([| (name & Hin & Hc & ->)] & _ & Hmax); [done |].
    exists name, r. split_and!; [done.. | | exact Hmax].
    destruct Hc as (d & Hd & _). unfold revision_of in Hd.
    destruct (fullmatch _ _) eqn:Ef; [| done]. apply fullmatch_lang in Ef.
    apply lang_seq_inv in Ef as (u & v & Huv & ->%lang_lit & Hv). exists v. split; [done |].
    inversion Hv as [| | | | | | | n a w Hw | | |]; subst. unfold many1 in Hw.
    apply lang_seq_inv in Hw as (x & y & -> & (c & -> & Hc')%lang_chr_inv & Hy%lang_star_Forall).
    split; [done |]. by apply Forall_cons.
  - by destruct E.
Qed.
End Chromium.

Lemma find_patchright_chromium_spec_witness :
  find_patchright_chromium "/c" (λ p, negb (bool_decide (p = "/c/chromium-9999/chrome-linux64/chrome")))
    (Ok ["chromium-1181"; "chromium-9999"; "chromium-99"; "chromium-5;reboot"; "ffmpeg-1011"])
  = Ok (Some "/c/chromium-1181/chrome-linux64/chrome")
  ∧ ∃ name revision, name ∈ ["chromium-1181"; "chromium-9999"; "chromium-99"; "chromium-5;reboot"; "ffmpeg-1011"]
      ∧ "/c/chromium-1181/chrome-linux64/chrome" = candidate_of "/c" name
      ∧ considered "/c" (λ p, negb (bool_decide (p = "/c/chromium-9999/chrome-linux64/chrome"))) name revision.
Proof.
  assert (H : find_patchright_chromium "/c" (λ p, negb (bool_decide (p = "/c/chromium-9999/chrome-linux64/chrome")))
    (Ok ["chromium-1181"; "chromium-9999"; "chromium-99"; "chromium-5;reboot"; "ffmpeg-1011"])
    = Ok (Some "/c/chromium-1181/chrome-linux64/chrome")) by (vm_compute; reflexivity).
  split; [exact H |]. apply find_patchright_chromium_spec in H as (name & r & Hin & Hc & Hp & _).
  exists name, r. split; [exact Hin |]. split; [exact Hp | exact Hc].
Defined.

(** * Processes *)

Definition LAUNCH_PARENT_NAMES : list string := ["chromedriver"; "uc_driver"].

(** The process table with names and birth times; [None] is a [psutil.Error]. *)
Class UcTable := {
  uc_table :: ProcTable;
  proc_name : Z → option string;
  create_time : Z → option Z;
}.

Section Processes.
Context `{UcTable}.

Definition names_a_driver (proc : Z) : bool :=
  match proc_name proc with
  | Some n => bool_decide (of_chars (lower (chars n)) ∈ LAUNCH_PARENT_NAMES)
  | None => false
  end.

Definition driver_parent (proc : Z) : list Z :=
  match parent proc with
  | Some (Some p) => if names_a_driver p then [p] else []
  | _ => []
  end.

Definition uc_launch_process_tree (marker : string) (pids_before : option (list Z)) : list Z :=
  match self_children with
  | None => []
  | Some candidates =>
      let marked := filter (λ p, process_matches_launch p marker = true) candidates in
      let roots := (marked ++ concat (driver_parent <$> marked))%list in
      let roots :=
        match pids_before with
        | None => roots
        | Some before =>
            (roots ++ filter (λ p, p ∉ roots ∧ p ∉ before ∧ names_a_driver p = true) candidates)%list
        end in
      foldl (λ d root, foldl (λ d p, put p d) (put root d) (default [] (children root))) [] roots
  end.

Notation identity := (Z * Z)%type.

Definition capture_identities (procs : list Z) : list identity :=
  omap (λ p, (λ t, (p, t)) <$> create_time p) procs.

(** [_kill_identities]: the processes that are signalled. *)
Definition kill_identities (identities : list identity) : list Z :=
  omap (λ '(pid, created),
    match create_time pid with
    | Some t => if bool_decide (t = created) then Some pid else None
    | None => None
    end) identities.

(** [_kill_service_process], from the pid of [driver.service.process], if it
    can be read. *)
Definition kill_service_process (service_pid : option Z) : list Z :=
  match service_pid with
  | Some pid => if names_a_driver pid then kill_identities (capture_identities [pid]) else []
  | None => []
  end.
End Processes.

(** a process is signalled only if it is the one that was captured: a pid
    recycled since then is spared, and what is captured at once is killed. *)
Lemma kill_identities_spec (T : UcTable) (identities : list (Z * Z)) (pid : Z) :
  pid ∈ kill_identities identities ↔
  ∃ created, (pid, created) ∈ identities ∧ create_time pid = Some created.
Proof.
  unfold kill_identities. rewrite list_elem_of_omap. split.
  - intros ([p t] & Hin & Hk). destruct (create_time p) as [t' |] eqn:E; [| done].
    case_bool_decide; [| done]. injection Hk as ->. subst. eauto.
  - intros (t & Hin & Ht). exists (pid, t). split; [done |]. by rewrite Ht, bool_decide_eq_true_2.
Qed.

(** the processes taken for a launch are the marked ones, their
    chromedriver parents, the drivers born since the snapshot when there is
    one, and the descendants of all these; each once. *)
Theorem uc_tree_spec (T : UcTable) (marker : string) (before : option (list Z))
    (candidates : list Z) :
  self_children = Some candidates →
  let marked p := p ∈ candidates ∧ process_matches_launch p marker = true in
  let root p := marked p
    ∨ (∃ r, marked r ∧ parent r = Some (Some p) ∧ names_a_driver p = true)
    ∨ (∃ pids, before = Some pids ∧ p ∈ candidates ∧ p ∉ pids ∧ names_a_driver p = true) in
  (∀ p, p ∈ uc_launch_process_tree marker before ↔
        ∃ r, root r ∧ (p = r ∨ p ∈ default [] (children r)))
  ∧ NoDup (uc_launch_process_tree marker before).
Proof.
  intros Hc marked root. unfold uc_launch_process_tree. rewrite Hc.
  set (ms := filter _ candidates). set (roots := (ms ++ _)%list).
  set (roots' := match before with None => _ | Some _ => _ end).
  assert (Hm : ∀ p, p ∈ ms ↔ marked p).
  { intros p. unfold ms, marked. rewrite list_elem_of_filter. tauto. }
  assert (Hr : ∀ p, p ∈ roots ↔
    marked p ∨ ∃ r, marked r ∧ parent r = Some (Some p) ∧ names_a_driver p = true).
  { intros p. unfold roots. rewrite elem_of_app, Hm, elem_of_concat. apply or_iff_compat_l. split.
    - intros (l & Hl & Hp). apply list_elem_of_fmap in Hl as (r & -> & Hr%Hm). exists r.
      split; [done |]. unfold driver_parent in Hp. destruct (parent r) as [[q |] |]; try done.
      all: try (by apply elem_of_nil in Hp).
      destruct (names_a_driver q) eqn:E; [| by apply elem_of_nil in Hp].
      by apply list_elem_of_singleton in Hp as ->.
    - intros (r & Hr & Hp & Hn). exists (driver_parent r). split.
      + apply list_elem_of_fmap. exists r. by split; [| apply Hm].
      + unfold driver_parent. rewrite Hp, Hn. by left. }
  assert (Hr' : ∀ p, p ∈ roots' ↔ root p).
  { intros p. unfold roots', root. destruct before as [pids |]; [| rewrite Hr; naive_solver].
    rewrite elem_of_app, list_elem_of_filter. destruct (decide (p ∈ roots)) as [Hp | Hp].
    - rewrite Hr in Hp. rewrite Hr. tauto.
    - rewrite Hr in *. naive_solver. }
  split.
  - intros p. rewrite (elem_of_foldl_put _ (λ r x, x = r ∨ x ∈ default [] (children r))).
    + setoid_rewrite Hr'. rewrite elem_of_nil. naive_solver.
    + intros d r x. rewrite (elem_of_foldl_put _ (λ p x, x = p)).
      * rewrite elem_of_put. naive_solver.
      * intros d' a y. apply elem_of_put.
  - apply NoDup_foldl; [| constructor]. intros d r Hd.
    apply NoDup_foldl; [by intros; apply NoDup_put | by apply NoDup_put].
Qed.

(** * The deadline on the launch *)

Module Launch.

(** Where [_launch_with_deadline] is: in the timed [join], about to claim,
    killing, in the second sweep, in the last [join]; what it gave. *)
Inductive main_pc :=
| Waiting | Claiming | Killing | Sweeping | Joining
| Returned (r : result Z) | TimedOut.

(** Where [_construct] is: in [driver_cls(...)], about to claim, about to
    fill the holder, in [driver.quit()], in the cleanup, ended. *)
Inductive run_pc :=
| Constructing | Built (r : result Z) | Publishing (r : result Z)
| Quitting (d : Z) | Cleaning | Dead.

(** A driver is its handle; [outcome] is what [driver_cls] gave, [quits] the
    drivers that were quit. *)
Record State := mkState {
  main : main_pc;
  run : run_pc;
  holder : option (result Z);
  claimed : bool;
  sweep_done : bool;
  outcome : option (result Z);
  quits : list Z;
}.

Definition initial : State := mkState Waiting Constructing None false false None [].

Inductive action :=
| ConstructReturns (r : result Z)
| RunClaim
| Publish
| QuitReturns
| CleanupDone
| JoinReturns
| MainClaim
| KillDone
| SweepDone
| LastJoin.

Section Machine.
(** [self._gate.max_concurrent == 1]. *)
Variable single_flight : bool.

Definition set_main (m : main_pc) (s : State) : State :=
  mkState m s.(run) s.(holder) s.(claimed) s.(sweep_done) s.(outcome) s.(quits).
Definition set_run (r : run_pc) (s : State) : State :=
  mkState s.(main) r s.(holder) s.(claimed) s.(sweep_done) s.(outcome) s.(quits).
Definition claim (s : State) : State :=
  mkState s.(main) s.(run) s.(holder) true s.(sweep_done) s.(outcome) s.(quits).
Definition sweep_set (s : State) : State :=
  mkState s.(main) s.(run) s.(holder) s.(claimed) true s.(outcome) s.(quits).

Definition is_alive (s : State) : bool := match s.(run) with Dead => false | _ => true end.

(** The end of the method: the holder. *)
Definition read_holder (h : option (result Z)) : result Z :=
  match h with Some r => r | None => raise KeyError "driver" end.

Definition step (a : action) (s : State) : option State :=
  match a, s.(main), s.(run) with
  | ConstructReturns r, _, Constructing =>
      Some (mkState s.(main) (Built r) s.(holder) s.(claimed) s.(sweep_done) (Some r) s.(quits))
  | RunClaim, _, Built r =>
      Some (if s.(claimed)
            then set_run (match r with Ok d => Quitting d | Raise _ => Cleaning end) s
            else set_run (Publishing r) (claim s))
  | Publish, _, Publishing r =>
      Some (mkState s.(main) Dead (Some r) s.(claimed) s.(sweep_done) s.(outcome) s.(quits))
  | QuitReturns, _, Quitting d =>
      Some (mkState s.(main) Cleaning s.(holder) s.(claimed) s.(sweep_done) s.(outcome)
              (s.(quits) ++ [d]))
  | CleanupDone, _, Cleaning => Some (set_run Dead s)
  | JoinReturns, Waiting, _ =>
      Some (if is_alive s then set_main Claiming s else set_main Joining (sweep_set s))
  | MainClaim, Claiming, _ =>
      Some (if s.(claimed) then set_main Joining (sweep_set s) else set_main Killing (claim s))
  | KillDone, Killing, _ =>
      Some (if single_flight then set_main Sweeping s else set_main TimedOut (sweep_set s))
  | SweepDone, Sweeping, _ => Some (set_main TimedOut (sweep_set s))
  | LastJoin, Joining, Dead => Some (set_main (Returned (read_holder s.(holder))) s)
  | _, _, _ => None
  end.

Inductive reachable : State → Prop :=
| reach_initial : reachable initial
| reach_step a s s' : reachable s → step a s = Some s' → reachable s'.

Fixpoint run_steps (l : list action) (s : State) : option State :=
  match l with [] => Some s | a :: l => s' ← step a s; run_steps l s' end.

Lemma launch_steps_reachable l s s' : run_steps l s = Some s' → reachable s → reachable s'.
Proof.
  revert s. induction l as [| a l IH]; intros s Hr Hs; cbn in Hr; [by injection Hr as <- |].
  destruct (step a s) eqn:E; [| done]. eapply IH; [exact Hr |]. by eapply reach_step.
Qed.

(** ** Its invariant *)

Definition main_won (s : State) : bool :=
  match s.(main) with Killing | Sweeping | TimedOut => true | _ => false end.

(** What the drivers quit, the holder and the claim are at each place. *)
Definition state_ok (s : State) : Prop :=
  match s.(run) with
  | Constructing => s.(outcome) = None ∧ s.(holder) = None ∧ s.(quits) = [] ∧ s.(claimed) = main_won s
      ∧ match s.(main) with Joining | Returned _ => False | _ => True end
  | Built r => s.(outcome) = Some r ∧ s.(holder) = None ∧ s.(quits) = [] ∧ s.(claimed) = main_won s
      ∧ match s.(main) with Joining | Returned _ => False | _ => True end
  | Publishing r => s.(outcome) = Some r ∧ s.(holder) = None ∧ s.(quits) = [] ∧ s.(claimed) = true
      ∧ main_won s = false ∧ match s.(main) with Returned _ => False | _ => True end
  | Quitting d => s.(outcome) = Some (Ok d) ∧ s.(holder) = None ∧ s.(quits) = []
      ∧ s.(claimed) = true ∧ main_won s = true
  | Cleaning => s.(holder) = None ∧ s.(claimed) = true ∧ main_won s = true
      ∧ match s.(outcome) with
        | Some (Ok d) => s.(quits) = [d]
        | Some (Raise _) => s.(quits) = []
        | None => False
        end
  | Dead => s.(claimed) = true
      ∧ if main_won s then s.(holder) = None
          ∧ match s.(outcome) with
            | Some (Ok d) => s.(quits) = [d]
            | Some (Raise _) => s.(quits) = []
            | None => False
            end
        else s.(quits) = [] ∧ (∃ r, s.(outcome) = Some r ∧ s.(holder) = Some r
               ∧ match s.(main) with Returned r' => r' = r | _ => True end)
  end.

Lemma launch_step_ok a s s' : step a s = Some s' → state_ok s → state_ok s'.
Proof.
  destruct s as [m r h c sd o q]. unfold state_ok.
  destruct a, m, r; cbn; intros Ha; try discriminate Ha; break; simplify_eq/=;
    intros Hok; destruct_and?; simplify_eq/=; split_and?; try done; eauto.
  all: try (destruct Hok as (? & ? & ? & ? & ?)).
  all: naive_solver.
Qed.

(** C25: a launched Chrome is never leaked nor handed out twice: once the
    construction thread has ended, either the caller gets what it built, and
    no driver is quit, or the caller has timed out, and the driver it built,
    if any, has been quit exactly once. *)
Theorem launch_resolved_once (s : State) :
  reachable s → s.(run) = Dead →
  ∃ r, s.(outcome) = Some r
    ∧ ((main_won s = false ∧ s.(quits) = [] ∧ s.(holder) = Some r
        ∧ ∀ r', s.(main) = Returned r' → r' = r)
       ∨ (main_won s = true ∧ s.(holder) = None
          ∧ s.(quits) = match r with Ok d => [d] | Raise _ => [] end)).
Proof.
  intros Hr Hd. assert (Hok : state_ok s).
  { induction Hr as [| a s0 s1 Hr IH Hs]; [done |]. clear Hd.
    assert (state_ok s0); [| by eapply launch_step_ok].
    clear - Hr. induction Hr as [| a s0 s1 Hr IH Hs]; [done | by eapply launch_step_ok]. }
  unfold state_ok in Hok. rewrite Hd in Hok. destruct Hok as [_ Hok].
  destruct (main_won s).
  - destruct Hok as [Hh Ho]. destruct (outcome s) as [r |]; [| done]. exists r. split; [done |].
    right. by destruct r.
  - destruct Hok as (Hq & r & Ho & Hh & Hm). exists r. split; [done |]. left.
    split_and!; [done.. |]. intros r' E. by rewrite E in Hm.
Qed.
End Machine.

(** Chrome comes up after the deadline: its driver is quit. *)
Lemma launch_resolved_once_witness :
  let s := default initial (run_steps true
    [JoinReturns; MainClaim; ConstructReturns (Ok 7); RunClaim; KillDone; QuitReturns; SweepDone;
     CleanupDone] initial) in
  s.(main) = TimedOut ∧ ∃ r, s.(outcome) = Some r
    ∧ ((main_won s = false ∧ s.(quits) = [] ∧ s.(holder) = Some r
        ∧ ∀ r', s.(main) = Returned r' → r' = r)
       ∨ (main_won s = true ∧ s.(holder) = None
          ∧ s.(quits) = match r with Ok d => [d] | Raise _ => [] end)).
Proof.
  intros s. split; [reflexivity |]. apply (launch_resolved_once true); [| reflexivity].
  eapply launch_steps_reachable; [| constructor].
  instantiate (1 := [JoinReturns; MainClaim; ConstructReturns (Ok 7); RunClaim; KillDone; QuitReturns;
     SweepDone; CleanupDone]). reflexivity.
Defined.
End Launch.

(** * The deadline on what follows *)

Module PostLaunch.

(** Where [_run_after_launch_with_deadline] is: about to start the worker, in
    the timed [join], killing after the deadline (with [teardown_only] as read
    then) or after an exception of [start] or [join], about to read the
    holder; how it ended. *)
Inductive main_pc :=
| Starting | Waiting | Killing (teardown_only : bool) | KillingFor (e : exn) | Reading
| Ended (r : result FetchResult) | TimedOut | Failed (e : exn).

(** Where [_run] is: not started, before its outcome, about to set [done],
    in [driver.quit()], ended. *)
Inductive run_pc := Idle | Navigating | Recorded | Quitting | Dead.

Record State := mkState {
  main : main_pc;
  run : run_pc;
  holder : option outcome;
  done : bool;
  killed : bool;         (* the kill passes have run *)
}.

Definition initial : State := mkState Starting Idle None false false.

Inductive action :=
| Start | Interrupted (e : exn) | Record_ (o : outcome) | SetDone | QuitReturns
| JoinReturns | KillDone | ReadHolder.

Definition step (a : action) (s : State) : option State :=
  match a, s.(main), s.(run) with
  | Start, Starting, Idle => Some (mkState Waiting Navigating s.(holder) s.(done) s.(killed))
  | Interrupted e, (Starting | Waiting), r =>
      Some (mkState (KillingFor e) r s.(holder) s.(done) s.(killed))
  | Record_ o, m, Navigating => Some (mkState m Recorded (Some o) s.(done) s.(killed))
  | SetDone, m, Recorded => Some (mkState m Quitting s.(holder) true s.(killed))
  | QuitReturns, m, Quitting => Some (mkState m Dead s.(holder) s.(done) s.(killed))
  | JoinReturns, Waiting, Dead => Some (mkState Reading Dead s.(holder) s.(done) s.(killed))
  | JoinReturns, Waiting, r => Some (mkState (Killing s.(done)) r s.(holder) s.(done) s.(killed))
  | KillDone, Killing teardown_only, r =>
      Some (mkState (if teardown_only then Reading else TimedOut) r s.(holder) s.(done) true)
  | KillDone, KillingFor e, r => Some (mkState (Failed e) r s.(holder) s.(done) true)
  | ReadHolder, Reading, r =>
      Some (mkState (Ended (read_holder s.(holder))) r s.(holder) s.(done) s.(killed))
  | _, _, _ => None
  end.

Inductive reachable : State → Prop :=
| reach_initial : reachable initial
| reach_step a s s' : reachable s → step a s = Some s' → reachable s'.

Fixpoint run_steps (l : list action) (s : State) : option State :=
  match l with [] => Some s | a :: l => s' ← step a s; run_steps l s' end.

Lemma post_steps_reachable l s s' : run_steps l s = Some s' → reachable s → reachable s'.
Proof.
  revert s. induction l as [| a l IH]; intros s Hr Hs; cbn in Hr; [by injection Hr as <- |].
  destruct (step a s) eqn:E; [| done]. eapply IH; [exact Hr |]. by eapply reach_step.
Qed.

Definition holder_set (s : State) : bool := match s.(holder) with Some _ => true | None => false end.

Definition state_ok (s : State) : Prop :=
  holder_set s = (match s.(run) with Idle | Navigating => false | _ => true end)
  ∧ s.(done) = (match s.(run) with Quitting | Dead => true | _ => false end)
  ∧ match s.(main) with
    | Starting => s.(run) = Idle
    | Waiting => s.(run) ≠ Idle
    | Killing t => t = true → s.(done) = true
    | KillingFor _ => True
    | Reading => s.(done) = true ∧ (s.(run) = Dead ∨ s.(killed) = true)
    | Ended r => (∃ o, s.(holder) = Some o ∧ r = read_holder (Some o))
                 ∧ (s.(run) = Dead ∨ s.(killed) = true)
    | TimedOut | Failed _ => s.(killed) = true
    end.

Lemma post_step_ok a s s' : step a s = Some s' → state_ok s → state_ok s'.
Proof.
  destruct s as [m r [o |] d k]; unfold state_ok, holder_set.
  all: destruct a, m, r; cbn; intros Ha; try discriminate Ha; break; simplify_eq/=;
    intros (H1 & H2 & H3); try discriminate H1; break; naive_solver.
Qed.

(** When the method ends, the worker has ended or the kill passes have
    run; and if it hands out an outcome, it is the one the worker recorded:
    the holder is never read empty, even when the freeze hits the teardown. *)
Theorem post_launch_outcome (s : State) :
  reachable s →
  (∀ r, s.(main) = Ended r →
     (∃ o, s.(holder) = Some o ∧ r = read_holder (Some o)) ∧ (s.(run) = Dead ∨ s.(killed) = true))
  ∧ ((s.(main) = TimedOut ∨ ∃ e, s.(main) = Failed e) → s.(killed) = true).
Proof.
  intros Hr. assert (Hok : state_ok s).
  { induction Hr as [| a s0 s1 Hr IH Hs]; [done | by eapply post_step_ok]. }
  destruct Hok as (_ & _ & Hm). split.
  - intros r E. by rewrite E in Hm.
  - intros [E | [e E]]; by rewrite E in Hm.
Qed.

(** The page is read, then Chrome freezes in [quit]: the page stands. *)
Lemma post_launch_outcome_witness :
  let o := Error (Exn FetchError "rendered page exceeds bytes cap") in
  let s := default initial (run_steps
    [Start; Record_ o; SetDone; JoinReturns; KillDone; ReadHolder] initial) in
  s.(main) = Ended (read_holder (Some o)) ∧ (s.(run) = Dead ∨ s.(killed) = true).
Proof.
  intros o s. split; [reflexivity |].
  eapply (proj1 (post_launch_outcome s (post_steps_reachable
    [Start; Record_ o; SetDone; JoinReturns; KillDone; ReadHolder] initial s eq_refl reach_initial))).
  reflexivity.
Defined.
End PostLaunch.

(** * [UcFetcher.fetch], up to the gate *)

Record DriverKwargs := {
  uk_chromium_arg : list string;
  uk_binary_location : option string;
}.

(** The keyword arguments and the url to open; [user_data_dir] is added by the
    caller's temporary profile. *)
Definition uc_prepare (getaddrinfo : Resolver) (url : string) (allowed : string → bool)
    (subresource_domains : list string) (binary_location : result (option string))
    : result (DriverKwargs * string) :=
  let? target := validate_target getaddrinfo url allowed in
  let rule := host_resolver_rules target subresource_domains in
  let safe_url := quote JS_SAFE_URL_CHARS url in
  let? binary := binary_location in
  Ok ({| uk_chromium_arg := uc_chromium_args ["--host-resolver-rules=" +:+ rule];
         uk_binary_location := binary |}, safe_url).

(** The launch adds its marker. *)
Definition with_marker (kwargs : DriverKwargs) (marker : string) : DriverKwargs :=
  {| uk_chromium_arg := (kwargs.(uk_chromium_arg) ++ [marker])%list;
     uk_binary_location := kwargs.(uk_binary_location) |}.

Lemma resolver_rules_not_webrtc rule :
  uc_is_webrtc_ip_handling_policy ("--host-resolver-rules=" +:+ rule) = false.
Proof.
  unfold uc_is_webrtc_ip_handling_policy. cbn [existsb WEBRTC_IP_HANDLING_POLICY_NAMES].
  rewrite chars_app. unfold lower. rewrite fmap_app.
  rewrite !bool_decide_eq_false_2; [done | ..]; intros [k Hk] || intros Hk; by vm_compute in Hk.
Qed.

(** Chrome is launched only for a target the guard accepted, with the rules
    made for the address it validated, the WebRTC policy, and the quoted url. *)
Lemma uc_prepare_spec getaddrinfo url allowed subs binary kwargs safe_url :
  uc_prepare getaddrinfo url allowed subs binary = Ok (kwargs, safe_url) →
  ∃ target, validate_target getaddrinfo url allowed = Ok target
    ∧ kwargs.(uk_chromium_arg)
      = ["--host-resolver-rules=" +:+ host_resolver_rules target subs; WEBRTC_IP_HANDLING_POLICY]
    ∧ safe_url = quote JS_SAFE_URL_CHARS url.
Proof.
  unfold uc_prepare. destruct (validate_target _ _ _) as [target |]; [| done]. cbn [rbind].
  destruct binary as [b |]; [| done]. intros [= <- <-]. exists target. split_and!; [done | | done].
  unfold uc_chromium_args. cbn [uk_chromium_arg].
  rewrite filter_cons_True by apply resolver_rules_not_webrtc. by rewrite filter_nil.
Qed.
