(* ===== verification/UcSweep.v ===== *)
(** The uc tier's cleanup and its [fetch] ([autolycos/adapters/uc.py]): the
    kill passes after a blown deadline, call by call on a process table that
    moves between the calls, and the bracket of profile, gate, launch and
    navigation around one fetch.  The process table, SeleniumBase and the file
    system are arguments. *)

From S2P Require Import Prelude Trace Domain Safety Urls Egress Text Seconds Fetchers Browser Watchdog BrowserGate Uc.

Local Notation M := Prelude.M.

(** * The calls of a cleanup *)

(** What the passes do to the outside, in order. *)
Inductive uc_call :=
| Signal (pid : Z)            (* [proc.kill()] *)
| Reap (pid : Z)              (* [os.waitpid(pid, WNOHANG)] *)
| WaitDead (killed : list Z)  (* [psutil.wait_procs] *)
| SleepFor (delay : Z)
| JoinWorker (delay : Z)
| GateReleased.               (* the end of [with self._gate.acquire()] *)

#[export] Instance uc_call_eq_dec : EqDecision uc_call.
Proof. solve_decision. Defined.

Notation uc_history := (list uc_call).
Notation identity := (Z * Z)%type.

(** The process table after the calls made so far, whether [proc.kill()]
    returns, the pid of [driver.service.process] as read then, and whether
    psutil can be imported. *)
Class UcOs := {
  table_at : uc_history → UcTable;
  kill_returns : uc_history → Z → bool;
  service_pid : uc_history → option Z;
  psutil_installed : bool;
}.

(** The private attributes [_launch_with_deadline] leaves on a driver. *)
Record UcDriver := {
  launch_marker : option string;
  pids_before : option (list Z);
  launch_siblings : list identity;
}.

Section Cleanup.
Context `{UcOs}.
(** [self._gate.max_concurrent] and [self._orphan_sweep_delay_seconds]. *)
Variables (max_concurrent : Z) (orphan_sweep_delay : Z).

Definition do_call (c : uc_call) : M uc_history unit := mmodify (λ h, h ++ [c])%list.

(** [import psutil], inside each function. *)
Definition import_psutil : M uc_history unit :=
  if psutil_installed then mret' tt
  else mraise (Exn (OtherException "ModuleNotFoundError") "No module named 'psutil'").

(** A fresh [psutil.Process(pid)] still has this birth time. *)
Definition same_process (h : uc_history) (i : identity) : bool :=
  match @create_time (table_at h) i.1 with
  | Some t => bool_decide (t = i.2)
  | None => false
  end.

Fixpoint kill_loop (identities : list identity) (killed : list Z) : M uc_history (list Z) :=
  match identities with
  | [] => mret' killed
  | i :: identities =>
      let! h := mget in
      if same_process h i then
        do_call (Signal i.1);;;
        do_call (Reap i.1);;;
        kill_loop identities (if kill_returns h i.1 then killed ++ [i.1] else killed)%list
      else kill_loop identities killed
  end.

Definition kill_captured (identities : list identity) : M uc_history unit :=
  import_psutil;;;
  let! killed := kill_loop identities [] in
  match killed with [] => mret' tt | _ => do_call (WaitDead killed) end.

(** A [psutil.Process] keeps the birth time it was built with: the tree and
    its capture read one table. *)
Definition captured_tree (marker : string) (before : option (list Z)) : M uc_history (list identity) :=
  import_psutil;;;
  mgets (λ h, @capture_identities (table_at h) (@uc_launch_process_tree (table_at h) marker before)).

Definition uc_kill_launch_processes (marker : string) (before : option (list Z)) : M uc_history unit :=
  let! identities := captured_tree marker before in kill_captured identities.

Definition kill_service : M uc_history unit :=
  let! h := mget in
  match service_pid h with
  | None => mret' tt
  | Some pid =>
      import_psutil;;;
      if @names_a_driver (table_at h) pid then kill_captured (@capture_identities (table_at h) [pid])
      else mret' tt
  end.

(** [worker] tells whether the caller passed its thread. *)
Definition late_sweep (driver : UcDriver) (worker : bool) : M uc_history unit :=
  match driver.(pids_before), driver.(launch_marker) with
  | Some before, Some marker =>
      if max_concurrent =? 1 then
        do_call (if worker then JoinWorker orphan_sweep_delay else SleepFor orphan_sweep_delay);;;
        uc_kill_launch_processes marker (Some before)
      else mret' tt
  | _, _ => mret' tt
  end.

Definition kill_after_fetch_timeout (driver : UcDriver) (worker : bool) : M uc_history unit :=
  (match driver.(launch_marker) with
   | Some marker => uc_kill_launch_processes marker None
   | None => mret' tt
   end);;;
  kill_captured driver.(launch_siblings);;;
  kill_service;;;
  late_sweep driver worker.

(** ** Around the launch *)

Definition snapshot_descendant_pids : M uc_history (list Z) :=
  import_psutil;;; mgets (λ h, default [] (@self_children (@uc_table (table_at h)))).

Definition single_flight : bool := max_concurrent =? 1.

(** The deadline branch of [_launch_with_deadline]: the frozen siblings. *)
Definition launch_deadline_cleanup (marker : string) (before : list Z) : M uc_history (list identity) :=
  let sibling_pids := if single_flight then Some before else None in
  uc_kill_launch_processes marker sibling_pids;;;
  if single_flight then
    do_call (SleepFor orphan_sweep_delay);;;
    let! frozen := captured_tree marker sibling_pids in
    kill_captured frozen;;;
    mret' frozen
  else mret' [].

(** What the construction thread does after its wait for the sweep, with the
    frozen siblings as they are then. *)
Definition cleanup_after_losing_the_claim (marker : string) (frozen : list identity) : M uc_history unit :=
  uc_kill_launch_processes marker None;;; kill_captured frozen.

(** The attributes of a driver that is handed out; what fails in the capture
    leaves the siblings unset. *)
Definition tag_driver (marker : string) (before : list Z) : M uc_history UcDriver :=
  let sibling_pids := if single_flight then Some before else None in
  let tagged siblings :=
    {| launch_marker := Some marker; pids_before := sibling_pids; launch_siblings := siblings |} in
  mtry (let! siblings := captured_tree marker sibling_pids in mret' (tagged siblings))
       (λ _, mret' (tagged [])).
End Cleanup.

(** The cleanup does not survive a missing psutil, and then no driver is ever
    launched: the snapshot that comes before raises the same. *)
Lemma psutil_needed `{UcOs} (marker : string) (before : option (list Z)) (h : uc_history) :
  psutil_installed = false →
  let missing := Exn (OtherException "ModuleNotFoundError") "No module named 'psutil'" in
  snapshot_descendant_pids h = (Raise missing, h)
  ∧ uc_kill_launch_processes marker before h = (Raise missing, h).
Proof.
  intros Hi. unfold snapshot_descendant_pids, uc_kill_launch_processes, captured_tree, import_psutil.
  by rewrite Hi.
Qed.

(** * Whose processes are signalled *)

(** What the code relies on to tell the processes of one launch, [own], from
    the others: the launch id is a fresh uuid, a process forks only its own,
    the driver above a marked Chrome is the launch's, and a pid with the same
    birth time is the same process. *)
Class Attribution `{UcOs} (marker : string) (own : uc_history → Z → Prop) : Prop := {
  marker_own h p : @process_matches_launch (@uc_table (table_at h)) p marker = true → own h p;
  children_own h r l p : own h r → @children (@uc_table (table_at h)) r = Some l → p ∈ l → own h p;
  driver_own h p q : own h p → @parent (@uc_table (table_at h)) p = Some (Some q) →
    @names_a_driver (table_at h) q = true → own h q;
  identity_own h h' p t : h `prefix_of` h' → @create_time (table_at h) p = Some t →
    @create_time (table_at h') p = Some t → own h p → own h' p;
}.

(** This launch still holds the browser gate. *)
Definition gate_held (h : uc_history) : Prop := GateReleased ∉ h.

(** While the launch holds the gate alone, a driver that was not there before
    it is its own, and so is a driver at its service's pid.  Once the gate was
    released nothing is known: the next launch may have drivers of its own. *)
Class SingleFlight `{UcOs} (before : list Z) (own : uc_history → Z → Prop) : Prop := {
  new_driver_own h l p : gate_held h →
    @self_children (@uc_table (table_at h)) = Some l → p ∈ l → p ∉ before →
    @names_a_driver (table_at h) p = true → own h p;
}.

Class ServiceOwn `{UcOs} (own : uc_history → Z → Prop) : Prop := {
  service_driver_own h p : gate_held h →
    service_pid h = Some p → @names_a_driver (table_at h) p = true → own h p;
}.

(** What a cleanup leaves: more calls, and the gate where it was. *)
Definition later (h h' : uc_history) : Prop := h `prefix_of` h' ∧ (gate_held h → gate_held h').

#[export] Instance later_preorder : PreOrder later.
Proof.
  split; [by intros h; split |]. intros h1 h2 h3 [P1 G1] [P2 G2]. split; [by etrans | auto].
Qed.

Section Safety.
Context `{UcOs} (marker : string) (own : uc_history → Z → Prop) `{!Attribution marker own}.

(** Every signal went to a process that was the launch's when it was sent. *)
Definition signals_own (h : uc_history) : Prop :=
  ∀ i p, h !! i = Some (Signal p) → own (take i h) p.

(** A captured process is the launch's wherever it is still the same. *)
Definition owned (identities : list identity) (h : uc_history) : Prop :=
  ∀ p t h', (p, t) ∈ identities → h `prefix_of` h' → @create_time (table_at h') p = Some t → own h' p.

(** From [h] on, [m] sends signals only to the launch's own, and what it
    returns, and the calls made by then, satisfy [Q]. *)
Definition safe {A} (m : M uc_history A) (Q : A → uc_history → Prop) (h : uc_history) : Prop :=
  signals_own h →
  signals_own (m h).2 ∧ later h (m h).2
  ∧ match (m h).1 with Ok a => Q a (m h).2 | Raise _ => True end.

Lemma safe_ret {A} (a : A) (Q : A → uc_history → Prop) h : Q a h → safe (mret' a) Q h.
Proof. by intros HQ Hs. Qed.

Lemma safe_get (Q : uc_history → uc_history → Prop) h : Q h h → safe mget Q h.
Proof. by intros HQ Hs. Qed.

Lemma safe_bind {A B} (m : M uc_history A) (k : A → M uc_history B) Q h :
  safe m (λ a, safe (k a) Q) h → safe (mbind' m k) Q h.
Proof.
  intros Hm Hs. destruct (Hm Hs) as (Hs1 & Hp1 & HQ). unfold mbind'.
  destruct (m h) as [[a | e] h1]; cbn in *; [| done].
  destruct (HQ Hs1) as (Hs2 & Hp2 & HR). split; [done |]. split; [by etrans | done].
Qed.

(** What later calls do not change is kept along. *)
Lemma safe_mono {A} (m : M uc_history A) (Q R : A → uc_history → Prop) h :
  safe m Q h → (∀ a h', later h h' → Q a h' → R a h') → safe m R h.
Proof.
  intros Hm HQ Hs. destruct (Hm Hs) as (Hs1 & Hp1 & H1). split_and!; [done.. |].
  destruct (m h) as [[a | e] h1]; [by apply HQ | done].
Qed.

Lemma safe_then {A B} (m : M uc_history A) (k : A → M uc_history B) Q h :
  safe m (λ _ _, True) h → (∀ a h', later h h' → safe (k a) Q h') → safe (mbind' m k) Q h.
Proof. intros Hm Hk. apply safe_bind. eapply safe_mono; [exact Hm |]. eauto. Qed.

Lemma safe_call c (Q : unit → uc_history → Prop) h :
  c ≠ GateReleased → (∀ p, c = Signal p → own h p) → Q tt (h ++ [c])%list → safe (do_call c) Q h.
Proof.
  intros Hg Hc HQ Hs. cbn. split_and!; [| split; [by eexists | unfold gate_held; set_solver] | done].
  intros i p Hi. apply lookup_app_Some in Hi as [Hi | [Hle Hi]].
  - rewrite take_app_le by (apply lookup_lt_Some in Hi; lia). by apply Hs.
  - apply list_lookup_singleton_Some in Hi as [Hz ->]. rewrite take_app_length' by lia. by apply Hc.
Qed.

Lemma safe_import (Q : unit → uc_history → Prop) h : Q tt h → safe import_psutil Q h.
Proof. intros HQ Hs. unfold import_psutil. by destruct psutil_installed. Qed.

Lemma safe_signals {A} (m : M uc_history A) Q h : safe m Q h → signals_own h → signals_own (m h).2.
Proof. intros Hm Hs. by destruct (Hm Hs). Qed.

Lemma owned_later identities h h' : h `prefix_of` h' → owned identities h → owned identities h'.
Proof. intros Hp Ho p t h'' Hin Hp'. apply Ho; [done | by etrans]. Qed.

(** ** The passes *)

Lemma safe_kill_loop identities : ∀ killed h,
  owned identities h → safe (kill_loop identities killed) (λ _ _, True) h.
Proof.
  induction identities as [| [p t] ids IH]; intros killed h Ho; cbn [kill_loop]; [by apply safe_ret |].
  assert (Htl : owned ids h). { intros p' t' h' Hin. apply Ho. by right. }
  apply safe_bind, safe_get. unfold same_process. cbn [fst snd].
  destruct (@create_time (table_at h) p) as [t' |] eqn:Et; [case_bool_decide; [subst t' |] |].
  2, 3: by apply IH.
  apply safe_bind, safe_call; [done | |].
  { intros q [= <-]. apply (Ho p t h); [by left | done | done]. }
  apply safe_bind, safe_call; [done.. |]. apply IH. eapply owned_later; [| exact Htl].
  rewrite <- app_assoc. by eexists.
Qed.

Lemma safe_kill_captured identities h :
  owned identities h → safe (kill_captured identities) (λ _ _, True) h.
Proof.
  intros Ho. apply safe_bind, safe_import. apply safe_then; [by apply safe_kill_loop |].
  intros [| p ps] h' _; [by apply safe_ret | by apply safe_call].
Qed.

Lemma owned_capture h procs :
  (∀ p, p ∈ procs → own h p) → owned (@capture_identities (table_at h) procs) h.
Proof.
  intros Hp p t h' Hin Hpre Ht. unfold capture_identities in Hin.
  apply list_elem_of_omap in Hin as (q & Hq & Hc).
  destruct (create_time q) as [tq |] eqn:Eq; [| done]. injection Hc as -> ->.
  eapply identity_own; eauto.
Qed.

Lemma tree_own h before p :
  match before with Some b => SingleFlight b own ∧ gate_held h | None => True end →
  p ∈ @uc_launch_process_tree (table_at h) marker before → own h p.
Proof.
  intros Hsf Hp. destruct (@self_children (@uc_table (table_at h))) as [candidates |] eqn:Ec.
  2: { unfold uc_launch_process_tree in Hp. rewrite Ec in Hp. by apply elem_of_nil in Hp. }
  destruct (uc_tree_spec (table_at h) marker before candidates Ec) as [Htree _].
  destruct (proj1 (Htree p) Hp) as (r & Hr & Hpr). clear Hp.
  assert (own h r) as Hor.
  { destruct Hr as [[_ Hm] | [(q & [_ Hm] & Hq & Hn) | (b & -> & Hin & Hb & Hn)]].
    - by eapply marker_own.
    - eapply driver_own; [by eapply marker_own | done | done].
    - destruct Hsf as [? ?]. by eapply new_driver_own. }
  destruct Hpr as [-> | Hpr]; [done |].
  destruct (@children (@uc_table (table_at h)) r) as [l |] eqn:El; [| by apply elem_of_nil in Hpr].
  by eapply children_own.
Qed.

Lemma safe_captured_tree before h :
  match before with Some b => SingleFlight b own ∧ gate_held h | None => True end →
  safe (captured_tree marker before) owned h.
Proof.
  intros Hsf. apply safe_bind, safe_import. intros Hs. cbn. split_and!; [done.. |].
  apply owned_capture. intros p. by apply tree_own.
Qed.

Lemma safe_kill_launch before h :
  match before with Some b => SingleFlight b own ∧ gate_held h | None => True end →
  safe (uc_kill_launch_processes marker before) (λ _ _, True) h.
Proof.
  intros Hsf. apply safe_bind. eapply safe_mono; [by apply safe_captured_tree |].
  intros ids h' _ Ho. by apply safe_kill_captured.
Qed.

Lemma safe_kill_service `{!ServiceOwn own} h : gate_held h → safe kill_service (λ _ _, True) h.
Proof.
  intros Hg. apply safe_bind, safe_get. destruct (service_pid h) as [pid |] eqn:E; [| by apply safe_ret].
  apply safe_bind, safe_import. destruct (names_a_driver pid) eqn:En; [| by apply safe_ret].
  apply safe_kill_captured, owned_capture. intros p ->%list_elem_of_singleton.
  by apply service_driver_own.
Qed.

(** ** The histories of a launch *)

Variables (max_concurrent delay : Z) (before : list Z).
Hypothesis alone : max_concurrent = 1 → SingleFlight before own.

Lemma scans_under_the_gate h :
  gate_held h →
  match (if single_flight max_concurrent then Some before else None) with
  | Some b => SingleFlight b own ∧ gate_held h | None => True end.
Proof. intros Hg. unfold single_flight. destruct (Z.eqb_spec max_concurrent 1); [split; [by apply alone | done] | done]. Qed.

Lemma safe_deadline h :
  gate_held h → safe (launch_deadline_cleanup max_concurrent delay marker before) owned h.
Proof.
  intros Hg. unfold launch_deadline_cleanup.
  apply safe_then; [by apply safe_kill_launch, scans_under_the_gate |]. intros _ h' [_ Hg'].
  destruct (single_flight max_concurrent) eqn:Es; [| by apply safe_ret; intros ? ? ? ?%elem_of_nil].
  apply safe_bind, safe_call; [done.. |]. apply safe_bind.
  assert (Hk : gate_held (h' ++ [SleepFor delay])%list).
  { specialize (Hg' Hg). unfold gate_held in *. set_solver. }
  pose proof (scans_under_the_gate _ Hk) as Hsf. rewrite Es in Hsf.
  eapply safe_mono; [by apply (safe_captured_tree (Some before)) |].
  intros ids h1 _ Ho. apply safe_bind. eapply safe_mono; [by apply safe_kill_captured |].
  intros _ h2 [Hp _] _. apply safe_ret. by eapply owned_later.
Qed.

(** The construction thread comes back at any time, the gate released or not. *)
Lemma safe_losing ids h : owned ids h → safe (cleanup_after_losing_the_claim marker ids) (λ _ _, True) h.
Proof.
  intros Ho. apply safe_then; [by apply (safe_kill_launch None) |]. intros _ h' [Hp _].
  apply safe_kill_captured. by eapply owned_later.
Qed.

Lemma safe_fetch_timeout `{!ServiceOwn own} driver worker h :
  gate_held h →
  (∀ m, driver.(launch_marker) = Some m → m = marker) →
  (∀ b, driver.(pids_before) = Some b → SingleFlight b own) →
  owned driver.(launch_siblings) h →
  safe (kill_after_fetch_timeout max_concurrent delay driver worker) (λ _ _, True) h.
Proof.
  intros Hg Hm Hb Ho. apply safe_then.
  { destruct (launch_marker driver) as [m |]; [| by apply safe_ret].
    rewrite (Hm m eq_refl). by apply (safe_kill_launch None). }
  intros _ h1 [Hp1 Hg1]. apply safe_then; [apply safe_kill_captured; by eapply owned_later |].
  intros _ h2 [_ Hg2]. apply safe_then; [by apply safe_kill_service; auto |].
  intros _ h3 [_ Hg3]. unfold late_sweep.
  destruct (pids_before driver) as [b |] eqn:Eb; [| by apply safe_ret].
  destruct (launch_marker driver) as [m |] eqn:Em; [| by apply safe_ret].
  rewrite (Hm m eq_refl). destruct (_ =? 1); [| by apply safe_ret].
  apply safe_bind, safe_call; [by destruct worker.. |]. apply (safe_kill_launch (Some b)).
  split; [by apply Hb |]. assert (gate_held h3) as Hh by auto. revert Hh. unfold gate_held.
  destruct worker; set_solver.
Qed.

(** The driver that is handed out, and what holds of its attributes. *)
Lemma tag_driver_spec h :
  gate_held h → ∃ driver, tag_driver max_concurrent marker before h = (Ok driver, h)
    ∧ launch_marker driver = Some marker
    ∧ pids_before driver = (if single_flight max_concurrent then Some before else None)
    ∧ owned (launch_siblings driver) h.
Proof.
  intros Hg. unfold tag_driver, mtry, captured_tree, import_psutil, mbind'.
  destruct psutil_installed; cbn; (eexists; split_and!; [done..|]); cbn.
  - apply owned_capture. intros p. by apply tree_own, scans_under_the_gate.
  - by intros ? ? ? ?%elem_of_nil.
Qed.
End Safety.

(** C26: the two histories of one launch: it is abandoned at the deadline, and
    its construction thread, should it come back at any later time, cleans up
    from what was frozen; or its driver is handed out, and the fetch that uses
    it is abandoned at any later time at which it still holds the gate.  Every
    signal sent goes to a process of this launch, whatever its pid has become in
    between.  That a new driver is the launch's is known only while it holds the
    gate: when the construction thread comes back the gate may be with another
    launch, which has drivers of its own. *)
Theorem uc_cleanup_spares_others `{UcOs} (max_concurrent delay : Z) (marker : string)
    (own : uc_history → Z → Prop) (before : list Z) (h : uc_history) :
  Attribution marker own → ServiceOwn own →
  (max_concurrent = 1 → SingleFlight before own) →
  signals_own own h → gate_held h →
  (let deadline := launch_deadline_cleanup max_concurrent delay marker before h in
   signals_own own deadline.2
   ∧ ∀ h2 ids, deadline.2 `prefix_of` h2 → signals_own own h2 → deadline.1 = Ok ids →
       signals_own own (cleanup_after_losing_the_claim marker ids h2).2)
  ∧ (∃ driver, tag_driver max_concurrent marker before h = (Ok driver, h)
     ∧ ∀ h2 worker, h `prefix_of` h2 → signals_own own h2 → gate_held h2 →
         signals_own own (kill_after_fetch_timeout max_concurrent delay driver worker h2).2).
Proof.
  intros Hat Hsv Hsf Hs Hg. split.
  - destruct (safe_deadline marker own max_concurrent delay before Hsf h Hg Hs) as (Hs1 & _ & Ho).
    split; [exact Hs1 |]. intros h2 ids Hp Hs2 Er. rewrite Er in Ho. eapply safe_signals; [| exact Hs2].
    apply (safe_losing marker own). by eapply owned_later.
  - destruct (tag_driver_spec marker own max_concurrent before Hsf h Hg) as (driver & Hd & Hm & Hb & Ho).
    exists driver. split; [exact Hd |]. intros h2 worker Hp Hs2 Hg2. eapply safe_signals; [| exact Hs2].
    apply (safe_fetch_timeout marker own _ _ _ _ _ _ _ Hg2); [congruence | | by eapply owned_later].
    intros b. rewrite Hb. unfold single_flight. destruct (Z.eqb_spec max_concurrent 1); [| done].
    intros [= <-]. by apply Hsf.
Qed.

(** * What is left after the late sweep *)

(** One lifetime per birth: a process that is gone does not come back with the
    birth time it had. *)
Class Lifetimes `{UcOs} : Prop :=
  one_lifetime h h' h'' p t : h `prefix_of` h' → h' `prefix_of` h'' →
    @create_time (table_at h) p = Some t → @create_time (table_at h'') p = Some t →
    @create_time (table_at h') p = Some t.

(** A SIGKILL and the wait after it end a process: what [psutil] reports as
    killed is seen to die within the wait, and what it cannot kill is dead.  A
    process in an uninterruptible kernel wait breaks this. *)
Class Mortal `{UcOs} : Prop := {
  kill_reported h p t : @create_time (table_at h) p = Some t → kill_returns h p = false →
    @create_time (table_at (h ++ [Signal p; Reap p])%list) p ≠ Some t;
  death_confirmed h killed p t : Signal p ∈ h → p ∈ killed → @create_time (table_at h) p = Some t →
    @create_time (table_at (h ++ [WaitDead killed])%list) p ≠ Some t;
}.

Section LateSweep.
Context `{UcOs} `{!Lifetimes}.
Hypothesis installed : psutil_installed = true.

(** Alive from [h] to [h'] at each point in between. *)
Definition alive_until (p t : Z) (h h' : uc_history) : Prop :=
  ∀ h0, h `prefix_of` h0 → h0 `prefix_of` h' → @create_time (table_at h0) p = Some t.

Lemma alive_until_sub p t h1 h2 h3 h4 :
  h1 `prefix_of` h2 → h3 `prefix_of` h4 → alive_until p t h1 h4 → alive_until p t h2 h3.
Proof. intros Hp Hp' Ha h0 H1 H2. apply Ha; by etrans. Qed.

(** After [h] this very process was sent a SIGKILL, after the calls [hs]. *)
Definition struck (p t : Z) (h hs h' : uc_history) : Prop :=
  h `prefix_of` hs ∧ (hs ++ [Signal p; Reap p])%list `prefix_of` h' ∧ @create_time (table_at hs) p = Some t.

(** It survived: it was struck and, unless the kill itself failed, its death was
    waited for. *)
Definition survived (p t : Z) (h h' : uc_history) : Prop :=
  ∃ hs, struck p t h hs h'
    ∧ (kill_returns hs p = true → ∃ hw killed, (hs ++ [Signal p; Reap p])%list `prefix_of` hw
         ∧ p ∈ killed ∧ (hw ++ [WaitDead killed])%list `prefix_of` h').

Lemma kill_loop_run identities : ∀ killed h,
  ∃ all h', kill_loop identities killed h = (Ok all, h') ∧ h `prefix_of` h'
    ∧ (∀ p, p ∈ killed → p ∈ all)
    ∧ ∀ p t, (p, t) ∈ identities → alive_until p t h h' →
        ∃ hs, struck p t h hs h' ∧ (kill_returns hs p = true → p ∈ all).
Proof.
  induction identities as [| [p t] ids IH]; intros killed h; cbn [kill_loop].
  { exists killed, h. split_and!; [done.. |]. by intros p t ?%elem_of_nil. }
  unfold mget, mbind' at 1. destruct (same_process h (p, t)) eqn:Es.
  - cbn [mbind' do_call mmodify fst]. unfold mbind', do_call, mmodify. rewrite <- app_assoc. cbn [app].
    edestruct IH as (all & h' & -> & Hp & Hk & Hids).
    exists all, h'. assert (h `prefix_of` h') by (etrans; [by eexists | exact Hp]).
    split_and!; [done.. | |].
    { intros q Hq. apply Hk. destruct (kill_returns h p); [apply elem_of_app; by left | done]. }
    intros q u [[= -> ->] | Hin]%elem_of_cons Ha.
    + exists h. split; [split_and!; [done | exact Hp | by apply Ha] |].
      intros Ek. apply Hk. rewrite Ek. set_solver.
    + destruct (Hids q u Hin) as (hs & (Hb & ? & ?) & Hr).
      { refine (alive_until_sub q u _ _ _ _ _ _ Ha); [by eexists | done]. }
      exists hs. split; [split_and!; [| done..] | exact Hr]. etrans; [by eexists | exact Hb].
  - destruct (IH killed h) as (all & h' & E & Hp & Hk & Hids). exists all, h'.
    split_and!; [done.. |]. intros q u [[= -> ->] | Hin]%elem_of_cons Ha; [| by apply (Hids q u)].
    exfalso. unfold same_process in Es. cbn in Es. rewrite (Ha h) in Es by done.
    by rewrite bool_decide_eq_true_2 in Es.
Qed.

Lemma kill_captured_run identities h :
  ∃ h', kill_captured identities h = (Ok tt, h') ∧ h `prefix_of` h'
    ∧ ∀ p t, (p, t) ∈ identities → alive_until p t h h' → survived p t h h'.
Proof.
  unfold kill_captured, import_psutil. rewrite installed. cbn.
  destruct (kill_loop_run identities [] h) as (all & h1 & E & Hp & _ & Hids).
  rewrite (mbind_ok _ _ _ _ _ E). destruct all as [| q all].
  - exists h1. split_and!; [done.. |]. intros p t Hin Ha.
    destruct (Hids p t Hin Ha) as (hs & Hst & Hr). exists hs. split; [done |]. by intros ?%Hr%elem_of_nil.
  - eexists. split; [done |]. cbn. assert (h1 `prefix_of` h1 ++ [WaitDead (q :: all)]) by (by eexists).
    split; [by etrans |]. intros p t Hin Ha.
    destruct (Hids p t Hin) as (hs & (? & ? & ?) & Hr); [by eapply alive_until_sub |].
    exists hs. split; [split_and!; [done | by etrans | done] |]. intros Hk. exists h1, (q :: all). auto.
Qed.

Lemma kill_launch_run marker before h :
  ∃ h', uc_kill_launch_processes marker before h = (Ok tt, h') ∧ h `prefix_of` h'
    ∧ ∀ p t, p ∈ @uc_launch_process_tree (table_at h) marker before → alive_until p t h h' → survived p t h h'.
Proof.
  unfold uc_kill_launch_processes, captured_tree, import_psutil. rewrite installed. cbn.
  set (ids := capture_identities _). destruct (kill_captured_run ids h) as (h' & E & Hp & Hids).
  exists h'. split_and!; [done.. |]. intros p t Hin Ha. apply (Hids p t); [| done].
  apply list_elem_of_omap. exists p. split; [done |]. by rewrite (Ha h).
Qed.

(** Nothing survives where SIGKILL and the wait do their work. *)
Lemma none_survives `{!Mortal} p t h h' : @create_time (table_at h') p = Some t → ¬ survived p t h h'.
Proof.
  intros Ha (hs & (_ & Hs & Hb) & Hw). destruct (kill_returns hs p) eqn:Ek.
  - destruct (Hw eq_refl) as (hw & killed & Hp & Hk & Hp'). apply (death_confirmed hw killed p t); [| done | |].
    + destruct Hp as [l ->]. set_solver.
    + apply (one_lifetime hs hw h'); [| | done..].
      * etrans; [by eexists | exact Hp].
      * etrans; [by eexists | exact Hp'].
    + apply (one_lifetime hs _ h'); [| done..]. etrans; [by eexists | etrans; [exact Hp | by eexists]].
  - apply (kill_reported hs p t Hb Ek). apply (one_lifetime hs _ h'); [by eexists | done..].
Qed.

(** What the passes before the sweep do does not stop it. *)
Lemma before_sweep_run driver h :
  ∃ h1, h `prefix_of` h1 ∧ ∀ max_concurrent delay worker,
    kill_after_fetch_timeout max_concurrent delay driver worker h
    = late_sweep max_concurrent delay driver worker h1.
Proof.
  unfold kill_after_fetch_timeout.
  assert (∃ h1, (match launch_marker driver with
    | Some marker => uc_kill_launch_processes marker None | None => mret' tt end) h = (Ok tt, h1)
    ∧ h `prefix_of` h1) as (h1 & E1 & Hp1).
  { destruct (launch_marker driver) as [m |]; [| by exists h].
    destruct (kill_launch_run m None h) as (h1 & ? & ? & _). eauto. }
  destruct (kill_captured_run (launch_siblings driver) h1) as (h2 & E2 & Hp2 & _).
  assert (∃ h3, kill_service h2 = (Ok tt, h3) ∧ h2 `prefix_of` h3) as (h3 & E3 & Hp3).
  { unfold kill_service, mget. cbn. destruct (service_pid h2) as [pid |]; [| by eexists].
    unfold import_psutil. rewrite installed. cbn. destruct (names_a_driver pid); [| by eexists].
    destruct (kill_captured_run (@capture_identities (table_at h2) [pid]) h2) as (h3 & ? & ? & _). eauto. }
  exists h3. split; [by do 2 (etrans; [eassumption |]) |]. intros mc d w.
  by rewrite (mbind_ok _ _ _ _ _ E1), (mbind_ok _ _ _ _ _ E2), (mbind_ok _ _ _ _ _ E3).
Qed.
End LateSweep.

(** The process is the launch's Chrome or a driver that was not there before
    it, as the process table names them, or descends from one. *)
Definition rooted `{UcTable} (marker : string) (before : list Z) (p : Z) : Prop :=
  ∃ candidates r, self_children = Some candidates ∧ r ∈ candidates
    ∧ (process_matches_launch r marker = true ∨ r ∉ before ∧ names_a_driver r = true)
    ∧ (p = r ∨ p ∈ default [] (children r)).

Lemma rooted_tree (T : UcTable) marker before p :
  rooted marker before p → p ∈ uc_launch_process_tree marker (Some before).
Proof.
  intros (candidates & r & Hc & Hr & Hroot & Hp).
  destruct (uc_tree_spec T marker (Some before) candidates Hc) as [Htree _]. apply Htree. exists r.
  split; [| exact Hp]. destruct Hroot as [Hm | [Hb Hn]]; [by left |]. right. right. eauto.
Qed.

(** C27: with one browser at a time and psutil there, the cleanup of an
    abandoned fetch returns; and when its worker ended within the sweep's delay,
    so that nothing of the launch is born after it, and every process of the
    launch alive then is its Chrome, a driver born since the baseline or a
    descendant of one, the only live processes of the launch are those that
    survived a SIGKILL of the last pass and the wait after it.  Where SIGKILL
    and that wait end a process, none is left. *)
Theorem late_sweep_leaves_none `{UcOs} (delay : Z) (marker : string) (before : list Z)
    (own : uc_history → Z → Prop) (siblings : list identity) (h : uc_history) :
  Lifetimes → psutil_installed = true →
  (∀ h p t, own (h ++ [JoinWorker delay])%list p →
     @create_time (table_at (h ++ [JoinWorker delay])%list) p = Some t →
     @rooted (table_at (h ++ [JoinWorker delay])%list) marker before p) →
  (* once the worker was joined, none is born *)
  (∀ h h' p t, (h ++ [JoinWorker delay])%list `prefix_of` h' → own h' p →
     @create_time (table_at h') p = Some t →
     own (h ++ [JoinWorker delay])%list p
     ∧ @create_time (table_at (h ++ [JoinWorker delay])%list) p = Some t) →
  let driver := {| launch_marker := Some marker; pids_before := Some before;
                   launch_siblings := siblings |} in
  ∃ h1 h', kill_after_fetch_timeout 1 delay driver true h = (Ok tt, h') ∧ h `prefix_of` h1
    ∧ (h1 ++ [JoinWorker delay])%list `prefix_of` h'
    ∧ (∀ p t, own h' p → @create_time (table_at h') p = Some t →
         survived p t (h1 ++ [JoinWorker delay])%list h')
    ∧ (Mortal → ∀ p, own h' p → @create_time (table_at h') p = None).
Proof.
  intros HM Hi Hcov Hborn driver. destruct (before_sweep_run Hi driver h) as (h1 & Hp1 & E).
  set (hj := (h1 ++ [JoinWorker delay])%list) in *.
  destruct (kill_launch_run Hi marker (Some before) hj) as (h' & Ek & Hp & Hsurv).
  assert (∀ p t, own h' p → @create_time (table_at h') p = Some t → survived p t hj h') as Hs.
  { intros p t Ho Et. destruct (Hborn h1 h' p t Hp Ho Et) as [Hoj Hj].
    apply (Hsurv p t); [by eapply rooted_tree, Hcov |]. intros h0 H1 H2. by apply (one_lifetime hj h0 h'). }
  exists h1, h'. split_and!; [| exact Hp1 | exact Hp | exact Hs |].
  - rewrite E. unfold late_sweep. cbn. exact Ek.
  - intros HMo p Ho. destruct (create_time p) as [t |] eqn:Et; [exfalso | done].
    by apply (none_survives Hi p t hj h' Et), Hs.
Qed.

(** ** A frozen Chrome whose driver is started again *)

Module SweepDemo.

Definition marker : string := "--autolycos-launch-id=ab".
Definition mine : list Z := [10; 11; 12; 20].
Definition before : list Z := [90; 91].

(** The launch's driver (10), its Chrome (11), a renderer (12) that dies with
    Chrome; 90 and 91 were there before; the worker starts driver 20 while it
    is being joined, and once the gate is released the next launch has driver
    30. *)
Definition alive (h : uc_history) (p : Z) : bool :=
  bool_decide (Signal p ∉ h)
  && (if p =? 20 then existsb (λ c, match c with JoinWorker _ => true | _ => false end) h
      else if p =? 30 then bool_decide (GateReleased ∈ h)
      else if p =? 12 then bool_decide (Signal 11 ∉ h) else bool_decide (p ∈ [10; 11; 90; 91])).

Definition name_of (p : Z) : string :=
  if bool_decide (p ∈ [10; 20; 30; 91]) then "uc_driver" else "chrome".

Definition table (h : uc_history) : UcTable := {|
  uc_table := {|
    self_children := Some (filter (λ p, alive h p = true) [10; 11; 12; 20; 30; 90; 91]);
    children := λ p, if alive h p then Some (if p =? 11 then filter (λ q, alive h q = true) [12] else [])
                     else None;
    parent := λ p, if alive h p then Some (if p =? 12 then Some 11 else Some 1) else None;
    cmdline := λ p, if alive h p then Some (if p =? 11 then ["chrome"; marker] else ["chrome"]) else None |};
  proc_name := λ p, if alive h p then Some (name_of p) else None;
  create_time := λ p, if alive h p then Some (1000 + p) else None |}.

#[export] Instance os : UcOs := {|
  table_at := table; kill_returns := λ _ _, true; service_pid := λ _, Some 20;
  psutil_installed := true |}.

Definition own (h : uc_history) (p : Z) : Prop := p ∈ mine.

Lemma birth h p t : @create_time (table h) p = Some t ↔ alive h p = true ∧ t = 1000 + p.
Proof. cbn. destruct (alive h p); naive_solver. Qed.

Lemma alive_known h p : alive h p = true → p ∈ [10; 11; 12; 20; 30; 90; 91].
Proof.
  unfold alive. rewrite andb_true_iff. intros [_ Ha].
  destruct (Z.eqb_spec p 20); [set_solver |]. destruct (Z.eqb_spec p 30); [set_solver |].
  destruct (Z.eqb_spec p 12); [set_solver |].
  apply bool_decide_eq_true in Ha. set_solver.
Qed.

Lemma driver_named h p : @names_a_driver (table h) p = true → alive h p = true ∧ p ∈ [10; 20; 30; 91].
Proof.
  unfold names_a_driver. cbn. destruct (alive h p); [| done]. unfold name_of.
  destruct (decide (p ∈ [10; 20; 30; 91])) as [Hp | Hp]; [by intros _ |].
  rewrite (bool_decide_eq_false_2 (p ∈ [10; 20; 30; 91])) by done. intros Hn. by vm_compute in Hn.
Qed.

#[export] Instance attribution : Attribution marker own.
Proof.
  split.
  - intros h p. unfold process_matches_launch, own. cbn. destruct (alive h p); [| done].
    destruct (Z.eqb_spec p 11) as [-> |]; [set_solver |]. intros Hm. by vm_compute in Hm.
  - intros h r l p _. unfold own. cbn. destruct (alive h r); [| done].
    destruct (r =? 11); intros [= <-]; [| by intros ?%elem_of_nil].
    destruct (decide _); set_solver.
  - intros h p q _. cbn. destruct (alive h p); [| done]. intros Hq Hn. apply driver_named in Hn as [_ Hn].
    exfalso. destruct (p =? 12); injection Hq as <-; set_solver.
  - by unfold own.
Qed.

#[export] Instance alone : SingleFlight before own.
Proof.
  split. intros h l p Hg _ _ Hb Hn. apply driver_named in Hn as [Ha Hn]. unfold own, mine, before in *.
  assert (p ≠ 30); [| set_solver]. intros ->. unfold alive in Ha. apply andb_prop in Ha as [_ Ha].
  cbn in Ha. by apply bool_decide_eq_true in Ha.
Qed.

#[export] Instance service : ServiceOwn own.
Proof. split. intros h p _ [= <-] _. unfold own, mine. set_solver. Qed.

Lemma existsb_prefix {A} (f : A → bool) l l' : l `prefix_of` l' → existsb f l = true → existsb f l' = true.
Proof. intros [k ->] E. by rewrite existsb_app, E. Qed.

Lemma alive_between h h' h'' p :
  h `prefix_of` h' → h' `prefix_of` h'' → alive h p = true → alive h'' p = true → alive h' p = true.
Proof.
  intros Hp [k ->]. unfold alive. rewrite !andb_true_iff, !bool_decide_eq_true.
  intros [_ Ha] [Hs Hb]. split; [set_solver |].
  destruct (p =? 20); [by eapply existsb_prefix |].
  destruct (p =? 30); [rewrite bool_decide_eq_true in Ha |- *; destruct Hp as [l ->]; set_solver |].
  destruct (p =? 12); [| done]. rewrite bool_decide_eq_true in Hb |- *. set_solver.
Qed.

#[export] Instance lifetimes : Lifetimes.
Proof.
  intros h h' h'' p t Hp Hp' [H1 ->]%birth [H2 _]%birth. apply birth.
  split; [by eapply alive_between | done].
Qed.

#[export] Instance mortal : Mortal.
Proof.
  split.
  - done.
  - intros h killed p t Hs _ [Ha _]%birth. unfold alive in Ha.
    by rewrite bool_decide_eq_false_2 in Ha by (by intros []).
Qed.

Lemma covered h p t : own h p → @create_time (table_at h) p = Some t → @rooted (table_at h) marker before p.
Proof.
  intros Ho [Ha _]%birth. exists (filter (λ p, alive h p = true) [10; 11; 12; 20; 30; 90; 91]).
  assert (Hin : ∀ q, alive h q = true → q ∈ filter (λ p, alive h p = true) [10; 11; 12; 20; 30; 90; 91]).
  { intros q Hq. apply list_elem_of_filter. split; [done | by apply (alive_known h)]. }
  assert (Hd : p ∈ [10; 20] → @names_a_driver (table h) p = true ∧ p ∉ before).
  { intros Hp. unfold names_a_driver. cbn. rewrite Ha. unfold name_of, before.
    rewrite bool_decide_eq_true_2 by set_solver. split; [by vm_compute | set_solver]. }
  assert (Hm : alive h 11 = true → @process_matches_launch (@uc_table (table_at h)) 11 marker = true).
  { intros H11. unfold process_matches_launch. cbn. rewrite H11. by vm_compute. }
  unfold own, mine in Ho. rewrite !elem_of_cons in Ho.
  destruct Ho as [-> | [-> | [-> | [-> | []%elem_of_nil]]]].
  1, 4: eexists; split_and!; [done | by apply Hin | right; destruct Hd; [set_solver | done] | by left].
  - exists 11. split_and!; auto.
  - assert (alive h 11 = true) as H11.
    { unfold alive in Ha |- *. cbn in Ha |- *. by apply andb_prop in Ha as [_ ->]. }
    exists 11. split_and!; auto. right. cbn. rewrite H11. cbn. destruct (decide _); [set_solver | done].
Qed.

Lemma born_before h h' p t : (h ++ [JoinWorker 5])%list `prefix_of` h' → own h' p →
  @create_time (table h') p = Some t →
  own (h ++ [JoinWorker 5])%list p ∧ @create_time (table (h ++ [JoinWorker 5])%list) p = Some t.
Proof.
  intros [k ->] Ho [Ha ->]%birth. split; [exact Ho |]. apply birth. split; [| done].
  unfold alive in Ha |- *. rewrite existsb_app. cbn [existsb orb]. rewrite orb_true_r.
  apply andb_prop in Ha as [Hs Hb]. apply bool_decide_eq_true in Hs.
  rewrite bool_decide_eq_true_2 by set_solver. cbn.
  destruct (p =? 20); [done |]. destruct (Z.eqb_spec p 30); [subst p; unfold own, mine in Ho; set_solver |].
  destruct (p =? 12); [| done].
  apply bool_decide_eq_true in Hb. apply bool_decide_eq_true_2. set_solver.
Qed.
End SweepDemo.

Import SweepDemo.

(** Five processes are signalled: the marked Chrome with its renderer, the
    frozen driver, and the driver that came up while the worker was joined. *)
Lemma late_sweep_leaves_none_witness :
  let driver := {| launch_marker := Some marker; pids_before := Some before;
                   launch_siblings := [(10, 1010)] |} in
  (kill_after_fetch_timeout 1 5 driver true []).2
    = [Signal 11; Reap 11; WaitDead [11]; Signal 10; Reap 10; WaitDead [10]; JoinWorker 5;
       Signal 20; Reap 20; WaitDead [20]]
  ∧ ∃ h', kill_after_fetch_timeout 1 5 driver true [] = (Ok tt, h')
      ∧ ∀ p, own h' p → @create_time (table_at h') p = None.
Proof.
  intros driver. split; [vm_compute; reflexivity |].
  destruct (late_sweep_leaves_none 5 marker before own [(10, 1010)] [] lifetimes eq_refl
    (λ h, covered (h ++ [JoinWorker 5])) born_before) as (h1 & h' & E & _ & _ & _ & Hn).
  exists h'. split; [exact E | exact (Hn mortal)].
Defined.

(** Abandoned at its deadline, the launch gives the gate away; when its thread
    comes back, the driver 30 of the next launch is spared. *)
Lemma uc_cleanup_spares_others_witness :
  let deadline := launch_deadline_cleanup 1 5 marker before [] in
  let handed_on := (deadline.2 ++ [GateReleased])%list in
  deadline = (Ok [], [Signal 11; Reap 11; Signal 10; Reap 10; WaitDead [11; 10]; SleepFor 5])
  ∧ @names_a_driver (table_at handed_on) 30 = true
  ∧ signals_own own (cleanup_after_losing_the_claim marker [] handed_on).2.
Proof.
  intros deadline handed_on. split; [vm_compute; reflexivity |]. split; [vm_compute; reflexivity |].
  destruct (uc_cleanup_spares_others 1 5 marker own before [] attribution service (λ _, alone)
    (λ i p Hi, match eq_stepl Hi (lookup_nil i) with end) (not_elem_of_nil _)) as [[H1 H2] _].
  apply H2; [by eexists | | reflexivity]. intros i p Hi. apply lookup_app_Some in Hi as [Hi | [_ Hi]].
  - specialize (H1 i p Hi). exact H1.
  - apply list_lookup_singleton_Some in Hi as [_ Hi]. discriminate Hi.
Defined.

(** What the source warns of, on the same table: a scan by the baseline of pids,
    after the gate was handed on, kills the driver of the next launch. *)
Lemma rescan_after_handover_hits_another :
  let handed_on := ((launch_deadline_cleanup 1 5 marker before []).2 ++ [GateReleased])%list in
  ¬ signals_own own (uc_kill_launch_processes marker (Some before) handed_on).2.
Proof.
  intros handed_on Hs. assert (Hi : (uc_kill_launch_processes marker (Some before) handed_on).2 !! 7%nat = Some (Signal 30))
    by (vm_compute; reflexivity).
  specialize (Hs _ _ Hi). clear Hi. unfold own, mine in Hs. clear handed_on.
  rewrite !elem_of_cons, elem_of_nil in Hs. lia.
Qed.

(** * How long a cleanup holds the gate *)

Definition KILL_WAIT_SECONDS : Z := 5 * SECOND.

(** The longest a call can take, in microseconds. *)
Definition lasts (c : uc_call) : Z :=
  match c with
  | WaitDead _ => KILL_WAIT_SECONDS
  | SleepFor d | JoinWorker d => d
  | Signal _ | Reap _ | GateReleased => 0
  end.

Definition held (calls : uc_history) : Z := foldr (λ c n, lasts c + n) 0 calls.

Lemma held_app l l' : held (l ++ l') = held l + held l'.
Proof. unfold held. induction l as [| c l IH]; cbn; [done |]. rewrite IH. lia. Qed.

(** [m] takes at most [n]. *)
Notation takes n := (adds (λ t, held t <= n)).

Lemma takes_bind {A B} a b (m : M uc_history A) (k : A → M uc_history B) :
  0 <= b → takes a m → (∀ x, takes b (k x)) → takes (a + b) (mbind' m k).
Proof.
  intros Hb Hm Hk h. destruct (Hm h) as (t & Ht & Ha). unfold mbind'.
  destruct (m h) as [[x | e] h1]; cbn in Ht; subst h1.
  - destruct (Hk x (h ++ t)%list) as (t' & Ht' & Hb'). exists (t ++ t')%list.
    rewrite Ht', app_assoc, held_app. split; [done | lia].
  - exists t. split; [done | lia].
Qed.

Lemma takes_weaken {A} a b (m : M uc_history A) : a <= b → takes a m → takes b m.
Proof. intros Hab. apply adds_weaken. lia. Qed.

Lemma takes_call c : takes (lasts c) (do_call c).
Proof. intros h. exists [c]. split; [done |]. cbn. lia. Qed.

Lemma takes_nothing {A} (m : M uc_history A) : (∀ h, (m h).2 = h) → takes 0 m.
Proof. intros Hm h. exists []. by rewrite app_nil_r. Qed.

Section Held.
Context `{UcOs}.

Lemma takes_import : takes 0 import_psutil.
Proof. apply takes_nothing. intros h. unfold import_psutil. by destruct psutil_installed. Qed.

Lemma takes_kill_loop identities : ∀ killed, takes 0 (kill_loop identities killed).
Proof.
  induction identities as [| i ids IH]; intros killed; cbn [kill_loop]; [by apply takes_nothing |].
  apply (takes_bind 0 0); [lia | by apply takes_nothing |]. intros h.
  destruct (same_process h i); [| apply IH].
  apply (takes_bind 0 0); [lia | apply takes_call |]. intros _.
  apply (takes_bind 0 0); [lia | apply takes_call |]. intros _. apply IH.
Qed.

Lemma takes_kill_captured identities : takes KILL_WAIT_SECONDS (kill_captured identities).
Proof.
  apply (takes_bind 0 KILL_WAIT_SECONDS); [done | apply takes_import |]. intros _.
  apply (takes_bind 0 KILL_WAIT_SECONDS); [done | apply takes_kill_loop |]. intros [| p ps].
  - eapply takes_weaken; [| by apply takes_nothing]. done.
  - apply (takes_call (WaitDead _)).
Qed.

Lemma takes_captured_tree marker before : takes 0 (captured_tree marker before).
Proof.
  apply (takes_bind 0 0); [lia | apply takes_import |]. intros _. by apply takes_nothing.
Qed.

Lemma takes_kill_launch marker before : takes KILL_WAIT_SECONDS (uc_kill_launch_processes marker before).
Proof.
  apply (takes_bind 0 KILL_WAIT_SECONDS); [done | apply takes_captured_tree |].
  intros ids. apply takes_kill_captured.
Qed.

Lemma takes_kill_service : takes KILL_WAIT_SECONDS kill_service.
Proof.
  apply (takes_bind 0 KILL_WAIT_SECONDS); [done | by apply takes_nothing |]. intros h.
  destruct (service_pid h) as [pid |]; [| eapply takes_weaken; [| by apply takes_nothing]; done].
  apply (takes_bind 0 KILL_WAIT_SECONDS); [done | apply takes_import |]. intros _.
  destruct (names_a_driver pid); [apply takes_kill_captured |].
  eapply takes_weaken; [| by apply takes_nothing]. done.
Qed.

Variables (max_concurrent delay : Z).
Hypothesis delay_positive : 0 <= delay.

Lemma takes_late_sweep driver worker :
  takes (delay + KILL_WAIT_SECONDS) (late_sweep max_concurrent delay driver worker).
Proof.
  assert (takes (delay + KILL_WAIT_SECONDS) (mret' tt)).
  { eapply takes_weaken; [| by apply takes_nothing]. unfold KILL_WAIT_SECONDS, SECOND. lia. }
  unfold late_sweep. destruct (pids_before driver) as [b |]; [| done].
  destruct (launch_marker driver) as [m |]; [| done]. destruct (_ =? 1); [| done].
  apply takes_bind; [done | | intros _; apply takes_kill_launch].
  destruct worker; [apply (takes_call (JoinWorker _)) | apply (takes_call (SleepFor _))].
Qed.
End Held.

(** C28: past its deadline a fetch holds the gate for at most four waits for
    confirmed deaths and the sweep's delay, the wait of the last pass coming
    after the whole delay; and past its own deadline a launch for two waits and
    the delay. *)
Theorem cleanup_held `{UcOs} (max_concurrent delay : Z) (marker : string) (before : list Z)
    (driver : UcDriver) (worker : bool) :
  0 <= delay →
  takes (4 * KILL_WAIT_SECONDS + delay) (kill_after_fetch_timeout max_concurrent delay driver worker)
  ∧ takes (2 * KILL_WAIT_SECONDS + delay) (launch_deadline_cleanup max_concurrent delay marker before).
Proof.
  intros Hd. assert (Hk : 0 <= KILL_WAIT_SECONDS) by done. split.
  - apply (takes_weaken (KILL_WAIT_SECONDS + (KILL_WAIT_SECONDS
      + (KILL_WAIT_SECONDS + (delay + KILL_WAIT_SECONDS))))); [lia |].
    apply takes_bind; [lia | |].
    { destruct (launch_marker driver); [apply takes_kill_launch |].
      eapply takes_weaken; [| by apply takes_nothing]. done. }
    intros _. apply takes_bind; [lia | apply takes_kill_captured |].
    intros _. apply takes_bind; [lia | apply takes_kill_service |].
    intros _. by apply takes_late_sweep.
  - apply (takes_weaken (KILL_WAIT_SECONDS + (delay + (0 + (KILL_WAIT_SECONDS + 0))))); [lia |].
    apply takes_bind; [lia | apply takes_kill_launch |]. intros _.
    destruct (single_flight max_concurrent).
    + apply takes_bind; [lia | apply (takes_call (SleepFor _)) |]. intros _.
      apply takes_bind; [lia | apply takes_captured_tree |]. intros frozen.
      apply takes_bind; [lia | apply takes_kill_captured |]. intros _. by apply takes_nothing.
    + eapply takes_weaken; [| by apply takes_nothing]. lia.
Qed.

Lemma cleanup_held_witness :
  ∃ calls, (kill_after_fetch_timeout 1 5 {| launch_marker := Some marker; pids_before := Some before;
              launch_siblings := [(10, 1010)] |} true []).2 = ([] ++ calls)%list
    ∧ held calls <= 4 * KILL_WAIT_SECONDS + 5.
Proof. exact (proj1 (cleanup_held 1 5 marker before _ true ltac:(lia)) []). Defined.

(** Another driver of the launch (20) runs from the start and a third one (30)
    comes up during the join: every pass finds a process. *)
Definition slow_os : UcOs :=
  let born h p := (p =? 30) && negb (existsb (λ c, match c with JoinWorker _ => true | _ => false end) h) in
  let there h p := bool_decide (p ∈ [10; 11; 20; 30]) && bool_decide (Signal p ∉ h) && negb (born h p) in
  {| table_at := λ h,
       {| uc_table := {| self_children := Some (filter (λ p, there h p = true) [10; 11; 20; 30]);
                         children := λ _, Some []; parent := λ _, Some (Some 1);
                         cmdline := λ p, Some (if p =? 11 then ["chrome"; marker] else ["uc_driver"]) |};
          proc_name := λ p, Some (if p =? 11 then "chrome" else "uc_driver");
          create_time := λ p, if there h p then Some p else None |};
     kill_returns := λ _ _, true; service_pid := λ _, Some 20; psutil_installed := true |}.

(** The bound is reached, and the budget of the tier counts one wait less: with
    a delay of 5 s and the fetch deadline at its default of 90 s, an acquire
    timeout of 112 s gives no warning, and a frozen fetch holds the gate for
    115 s. *)
Lemma budget_misses_a_wait :
  let driver := {| launch_marker := Some marker; pids_before := Some []; launch_siblings := [(10, 10)] |} in
  uc_check UC (seconds 90) (seconds 5) (seconds 112) = []
  ∧ 90 * SECOND + held (@kill_after_fetch_timeout slow_os 1 (5 * SECOND) driver true []).2 = 115 * SECOND.
Proof. split; vm_compute; reflexivity. Qed.

(** * [UcFetcher.fetch] *)

(** What one fetch does to the outside. *)
Inductive fetch_event :=
| TempDir (dir : string)
| MakeDir (path : string)
| WriteJson (path : string) (value : list (string * (string + bool)))
| GateEntered
| LaunchCalled (kwargs : DriverKwargs) (user_data_dir : string)
| NavigateCalled (driver : Z) (safe_url : string)
| GateLeft
| TempDirRemoved (dir : string).

(** The object under the key [webrtc] of the [Preferences] file. *)
Definition WEBRTC_PREFERENCES : list (string * (string + bool)) :=
  [("ip_handling_policy", inl "disable_non_proxied_udp");
   ("multiple_routes_enabled", inr false); ("nonproxied_udp_enabled", inr false)].

(** [driver.current_url], if it can be read. *)
Definition current_url (attribute : result (option string)) : result (option string) :=
  match attribute with
  | Ok url => Ok url
  | Raise e => if is_Exception e.(exn_class) then Ok None else Raise e
  end.

(** The resolver, the optional library, the file system, the gate, and the
    two timed parts of [Uc.Launch] and [Uc.PostLaunch]. *)
Class UcHost := {
  uc_getaddrinfo : Resolver;
  seleniumbase_installed : bool;
  cache_dir : string;
  isfile : string → bool;
  listdir : result (list string);
  mkdtemp : result string;
  mkdir : string → result unit;
  write_json : string → result unit;
  gate_acquire : result unit;
  launch_with_deadline : DriverKwargs → string → result Z;
  run_after_launch : Z → string → result FetchResult;
}.

Section Fetch.
Context `{UcHost}.
Local Notation F := (M (list fetch_event)).

Definition emit (e : fetch_event) : F unit := mmodify (λ l, l ++ [e])%list.

Definition webrtc_user_data_dir {A} (body : string → F A) : F A :=
  let! directory := mlift mkdtemp in
  emit (TempDir directory);;;
  mfinally
    (let profile := directory +:+ "/Default" in
     emit (MakeDir profile);;; mlift (mkdir profile);;;
     let preferences := profile +:+ "/Preferences" in
     emit (WriteJson preferences WEBRTC_PREFERENCES);;; mlift (write_json preferences);;;
     body directory)
    (emit (TempDirRemoved directory)).

Definition with_gate {A} (body : F A) : F A :=
  mlift gate_acquire;;; emit GateEntered;;; mfinally body (emit GateLeft).

Definition load_seleniumbase : result unit :=
  if seleniumbase_installed then Ok tt
  else raise (OtherException "ModuleNotFoundError") "No module named 'seleniumbase'".

Definition uc_fetch (allowed : string → bool) (subresource_domains : list string) (url : string)
    : F FetchResult :=
  let! prepared := mlift (uc_prepare uc_getaddrinfo url allowed subresource_domains
    (let? _ := load_seleniumbase in find_patchright_chromium cache_dir isfile listdir)) in
  let '(kwargs, safe_url) := prepared in
  webrtc_user_data_dir (λ user_data_dir,
    with_gate
      (emit (LaunchCalled kwargs user_data_dir);;;
       let! driver := mlift (launch_with_deadline kwargs user_data_dir) in
       emit (NavigateCalled driver safe_url);;;
       mlift (run_after_launch driver safe_url))).
End Fetch.

(** What a fetch has done when it ends, with a result or an error: nothing, or
    a profile directory made and removed; Chrome is launched only inside the
    gate, with the policy file written before, and the gate is left. *)
Definition fetch_shape (kwargs : DriverKwargs) (safe_url : string) (events : list fetch_event) : Prop :=
  ∃ dir, let setup := [MakeDir (dir +:+ "/Default");
                       WriteJson ((dir +:+ "/Default") +:+ "/Preferences") WEBRTC_PREFERENCES] in
    (∃ k, events = TempDir dir :: take k setup ++ [TempDirRemoved dir])%list
    ∨ ∃ navigated, (navigated = [] ∨ ∃ driver, navigated = [NavigateCalled driver safe_url])
        ∧ events = TempDir dir :: setup ++ [GateEntered; LaunchCalled kwargs dir] ++ navigated
                   ++ [GateLeft; TempDirRemoved dir].

(** A uc fetch ends in one of the shapes above; nothing happens unless the
    guard accepted the url, and Chrome then gets the resolver rules of the
    validated target, the WebRTC policy and the quoted url; a result comes
    from a whole bracket. *)
Theorem uc_fetch_bracketed `{UcHost} (allowed : string → bool) (subs : list string) (url : string) :
  let '(r, events) := uc_fetch allowed subs url [] in
  (events = [] ∧ is_ok r = false)
  ∨ ∃ target kwargs, validate_target uc_getaddrinfo url allowed = Ok target
      ∧ kwargs.(uk_chromium_arg)
        = ["--host-resolver-rules=" +:+ host_resolver_rules target subs; WEBRTC_IP_HANDLING_POLICY]
      ∧ fetch_shape kwargs (quote JS_SAFE_URL_CHARS url) events
      ∧ ∀ res, r = Ok res → ∃ dir driver,
          launch_with_deadline kwargs dir = Ok driver
          ∧ run_after_launch driver (quote JS_SAFE_URL_CHARS url) = Ok res
          ∧ NavigateCalled driver (quote JS_SAFE_URL_CHARS url) ∈ events.
Proof.
  unfold uc_fetch, mbind' at 1, mlift at 1.
  destruct (uc_prepare _ _ _ _ _) as [[kwargs safe_url] | e] eqn:Ep; [| by left].
  apply uc_prepare_spec in Ep as (target & Ht & Hk & ->).
  unfold webrtc_user_data_dir, with_gate, mfinally, emit, mbind', mlift, mmodify.
  destruct mkdtemp as [dir | e]; cbn; [| by left].
  destruct (mkdir _); cbn; [destruct (write_json _); cbn; [destruct gate_acquire; cbn;
    [destruct (launch_with_deadline kwargs dir) as [driver |] eqn:El; cbn;
     [destruct (run_after_launch driver _) eqn:Er; cbn |] |] |] |].
  all: right; exists target, kwargs; split_and!; [done.. | | try (by intros res [=])].
  2: { intros res [= <-]. exists dir, driver. split_and!; [done.. |]. rewrite !elem_of_cons. tauto. }
  all: exists dir; try (left; by exists 1%nat); try (left; by exists 2%nat); right.
  1-2: exists [NavigateCalled driver (quote JS_SAFE_URL_CHARS url)]; split; [eauto | done].
  exists []. split; [by left | done].
Qed.
