(* ===== verification/Session.v ===== *)
(** The transport of a session in the browser: the signed cookie
    ([interfaces/web/security.py]) and the CSRF token bound to it
    ([interfaces/web/csrf.py]).

    HMAC-SHA256 is a parameter, the hexadecimal digest of a key and a message;
    the code relies on its being hexadecimal text.  The accessors of a request
    (its cookies, headers and form) are the fields of [Request]. *)

From S2P Require Import Prelude Safety.

(** * The keyed hash *)

(** [hmac.new(key, message, sha256).hexdigest()], on the UTF-8 of both. *)
Class Hmac := hexdigest : string → string → string.

Definition hex_lower (c : ascii) : bool :=
  is_digit c || ((97 <=? code c) && (code c <=? 102)).

Class LawfulHmac `{Hmac} := hexdigest_hex : ∀ key message,
  hexdigest key message ≠ "" ∧ forallb hex_lower (chars (hexdigest key message)) = true.

(** * Requests *)

Inductive FormValue := FText (s : string) | FUpload.

Record Request := {
  method : string;
  session_cookie : option string;
  csrf_header : option string;
  form_token : option FormValue;
  accept : string;
}.

Inductive http_exception := HTTPException (status_code : Z) (detail : string).

(** * security.py *)

Definition COOKIE_NAME : string := "kerdoos_session".
Definition DOT : ascii := "."%char.

(** [s.rpartition(c)]. *)
Definition rpartition (c : ascii) (s : list ascii) : list ascii * bool * list ascii :=
  let '(after, found, before) := partition c (reverse s) in
  if found : bool then (reverse before, true, reverse after) else ([], false, s).

(** The keyword arguments of [set_cookie] and [delete_cookie]. *)
Record CookieKwargs := {
  ck_key : string;
  ck_value : option string;
  ck_max_age : option Z;
  ck_httponly : bool;
  ck_samesite : string;
  ck_secure : bool;
  ck_path : string;
}.

Record SessionCookie := { cookie_key : string; cookie_secure : bool }.

Section Cookie.
Context `{Hmac}.

Definition new_session_cookie (secret : string) (secure : bool) : result SessionCookie :=
  if bool_decide (secret = "") then raise ValueError "session cookie secret must not be empty"
  else Ok {| cookie_key := secret; cookie_secure := secure |}.

Definition sign (cookie : SessionCookie) (session_id : string) : string :=
  hexdigest cookie.(cookie_key) session_id.

Definition issue (cookie : SessionCookie) (session_id : string) : string :=
  session_id +:+ "." +:+ sign cookie session_id.

Definition read (cookie : SessionCookie) (cookie_value : option string) : option string :=
  match cookie_value with
  | None => None
  | Some value =>
      if bool_decide (value = "") || negb (bool_decide (DOT ∈ chars value)) then None
      else
        let '(session_id, _, signature) := rpartition DOT (chars value) in
        if bool_decide (session_id = []) || bool_decide (signature = []) then None
        else
          let expected := sign cookie (of_chars session_id) in
          if bool_decide (expected = of_chars signature) then Some (of_chars session_id) else None
  end.

Definition set_kwargs (cookie : SessionCookie) (cookie_value : string) (max_age : Z) : CookieKwargs :=
  {| ck_key := COOKIE_NAME; ck_value := Some cookie_value; ck_max_age := Some max_age;
     ck_httponly := true; ck_samesite := "lax"; ck_secure := cookie.(cookie_secure); ck_path := "/" |}.

Definition clear_kwargs (cookie : SessionCookie) : CookieKwargs :=
  {| ck_key := COOKIE_NAME; ck_value := None; ck_max_age := None;
     ck_httponly := true; ck_samesite := "lax"; ck_secure := cookie.(cookie_secure); ck_path := "/" |}.

(** * csrf.py *)

Definition SAFE_METHODS : list string := ["GET"; "HEAD"; "OPTIONS"; "TRACE"].

Definition issue_csrf (secret session_id : string) : string :=
  hexdigest secret ("csrf:" +:+ session_id).

Definition session_id_from_request (request : Request) (cookie : SessionCookie) : option string :=
  read cookie request.(session_cookie).

Definition csrf_token_for (request : Request) (cookie : SessionCookie) (secret : string) : string :=
  match session_id_from_request request cookie with
  | None => ""
  | Some session_id => issue_csrf secret session_id
  end.

(** The token the request carries: the header, or the field of the form. *)
Definition submitted (request : Request) : option string :=
  match request.(csrf_header) with
  | Some token =>
      if bool_decide (token = "")
      then match request.(form_token) with Some (FText raw) => Some raw | _ => None end
      else Some token
  | None => match request.(form_token) with Some (FText raw) => Some raw | _ => None end
  end.

(** [None] lets the request through. *)
Definition verify_csrf (request : Request) (cookie : SessionCookie) (secret : string)
    : option http_exception :=
  if bool_decide (request.(method) ∈ SAFE_METHODS) then None
  else match session_id_from_request request cookie with
       | None => Some (HTTPException 403 "missing session")
       | Some session_id =>
           let expected := issue_csrf secret session_id in
           match submitted request with
           | None => Some (HTTPException 403 "invalid csrf token")
           | Some token =>
               if bool_decide (token = "") || negb (bool_decide (expected = token))
               then Some (HTTPException 403 "invalid csrf token") else None
           end
       end.
End Cookie.

(** * Lemmas *)

Lemma rpartition_app c (a b : list ascii) :
  c ∉ b → rpartition c (a ++ c :: b) = (a, true, b).
Proof.
  intros Hb. unfold rpartition. rewrite reverse_app, reverse_cons, <- app_assoc. cbn [app].
  rewrite partition_sep by (by rewrite elem_of_reverse). by rewrite !reverse_involutive.
Qed.

Lemma rpartition_found c (s : list ascii) :
  c ∈ s → ∃ a b, s = (a ++ c :: b)%list ∧ c ∉ b.
Proof.
  induction s as [| x s IH] using rev_ind; [by intros ?%elem_of_nil |].
  rewrite elem_of_app, list_elem_of_singleton. intros Hc.
  destruct (decide (x = c)) as [-> | Hne].
  - exists s, []. split; [done | apply not_elem_of_nil].
  - destruct Hc as [Hc | ->]; [| done]. destruct (IH Hc) as (a & b & -> & Hb).
    exists a, (b ++ [x])%list. rewrite <- app_assoc. split; [done |].
    rewrite elem_of_app, list_elem_of_singleton. by intros [| ->].
Qed.

Section Laws.
Context `{LawfulHmac}.

Lemma hexdigest_ne key message : hexdigest key message ≠ "".
Proof. apply hexdigest_hex. Qed.

Lemma hexdigest_no_dot key message : DOT ∉ chars (hexdigest key message).
Proof.
  destruct (hexdigest_hex key message) as [_ Hhex]. rewrite forallb_forall in Hhex.
  intros Hd%list_elem_of_In%Hhex. done.
Qed.

Lemma chars_ne (s : string) : s ≠ "" → chars s ≠ [].
Proof. by destruct s. Qed.

Lemma read_issued cookie sid : sid ≠ "" → read cookie (Some (issue cookie sid)) = Some sid.
Proof.
  intros Hsid. pose proof (hexdigest_ne (cookie_key cookie) sid) as Hne.
  unfold read. assert (chars (issue cookie sid) = (chars sid ++ DOT :: chars (sign cookie sid))%list) as E.
  { unfold issue. by rewrite !chars_app. }
  rewrite (bool_decide_eq_false_2 (issue cookie sid = "")), (bool_decide_eq_true_2 (DOT ∈ _)).
  2: { rewrite E. set_solver. }
  2: { intros E0. rewrite E0 in E. by destruct (chars sid). }
  cbn [negb orb]. rewrite E, rpartition_app by apply hexdigest_no_dot.
  rewrite !bool_decide_eq_false_2 by (by apply chars_ne).
  cbn [orb]. rewrite !of_chars_chars. by rewrite bool_decide_eq_true_2.
Qed.

(** The only value that is read as a session id is the one issued for it:
    whoever sends it knows the hash of that id under the secret key. *)
Lemma read_only_issued cookie value sid :
  read cookie (Some value) = Some sid → sid ≠ "" ∧ value = issue cookie sid.
Proof.
  unfold read. destruct (bool_decide (value = "") || _) eqn:E; [done |].
  apply orb_false_iff in E as [_ E]. apply negb_false_iff, bool_decide_eq_true in E.
  destruct (rpartition_found _ _ E) as (a & b & Eab & Hb). rewrite Eab, rpartition_app by done.
  destruct (bool_decide (a = []) || bool_decide (b = [])) eqn:E'; [done |].
  apply orb_false_iff in E' as [Ea Eb]. bool_prop. case_bool_decide as Es; [| done].
  intros [= <-]. split.
  - intros Ha. apply Ea. by rewrite <- (chars_of_chars a), Ha.
  - unfold issue. rewrite Es. apply chars_inj.
    by rewrite !chars_app, !chars_of_chars.
Qed.
End Laws.

(** * Properties *)

Section Properties.
Context `{LawfulHmac}.

(** C8: the cookie round trip.  A value is read as a session id exactly when
    it is the one issued for that id, which is not empty: whatever else the
    client sends, of any length and with any number of dots, is no session. *)
Theorem session_cookie_roundtrip (cookie : SessionCookie) (value session_id : string) :
  read cookie (Some value) = Some session_id ↔ session_id ≠ "" ∧ value = issue cookie session_id.
Proof.
  split; [apply read_only_issued |]. intros [Hsid ->]. by apply read_issued.
Qed.

(** The token a request must carry to act for the session of its cookie. *)
Definition carries_token (request : Request) (cookie : SessionCookie) (secret : string) : Prop :=
  ∃ session_id, session_id ≠ "" ∧ session_cookie request = Some (issue cookie session_id)
    ∧ submitted request = Some (issue_csrf secret session_id).

Lemma read_request request cookie sid :
  session_id_from_request request cookie = Some sid ↔
  sid ≠ "" ∧ session_cookie request = Some (issue cookie sid).
Proof.
  unfold session_id_from_request. destruct (session_cookie request) as [v |].
  - split; [intros Hr%read_only_issued; naive_solver |]. intros [Hsid [= ->]]. by apply read_issued.
  - split; [done | naive_solver].
Qed.

Lemma verify_csrf_pass request cookie secret :
  verify_csrf request cookie secret = None ↔
  method request ∈ SAFE_METHODS ∨ carries_token request cookie secret.
Proof.
  unfold verify_csrf. case_bool_decide as Hm; [tauto |]. split.
  - destruct (session_id_from_request request cookie) as [sid |] eqn:Es; [| done].
    apply read_request in Es as [Hsid Hv]. destruct (submitted request) as [t |] eqn:Et; [| done].
    destruct (bool_decide (t = "") || _) eqn:E; [done |]. intros _. right. exists sid.
    apply orb_false_iff in E as [_ E]. apply negb_false_iff, bool_decide_eq_true in E. by subst.
  - intros [| (sid & Hsid & Hv & Ht)]; [done |].
    rewrite (proj2 (read_request request cookie sid)), Ht by done.
    rewrite (bool_decide_eq_false_2 (_ = "")) by apply hexdigest_ne.
    by rewrite bool_decide_eq_true_2.
Qed.

(** the CSRF guard.  A request passes exactly when its method is safe or
    it carries, in the header or else in the form, the token of the very
    session its cookie was issued for; every other request, whatever bytes it
    sends, is a 403. *)
Theorem csrf_guard_spec (request : Request) (cookie : SessionCookie) (secret : string) :
  (verify_csrf request cookie secret = None ↔
     method request ∈ SAFE_METHODS ∨ carries_token request cookie secret)
  ∧ (∀ e, verify_csrf request cookie secret = Some e → ∃ detail, e = HTTPException 403 detail)
  ∧ (∀ sid, session_cookie request = Some (issue cookie sid) → sid ≠ "" →
       submitted request = Some (csrf_token_for request cookie secret) →
       verify_csrf request cookie secret = None).
Proof.
  split_and!; [apply verify_csrf_pass | |].
  - unfold verify_csrf. intros e. repeat case_match; intros [= <-]; eauto.
  - intros sid Hv Hsid Ht. apply verify_csrf_pass. right. exists sid. split_and!; [done .. |].
    unfold csrf_token_for in Ht. by rewrite (proj2 (read_request request cookie sid)) in Ht.
Qed.

(** The two uses of the key are not separated: the CSRF token of a session,
    which is written in the pages, is the signature of a cookie for the
    session id "csrf:" followed by that session. *)
Theorem csrf_token_signs_a_cookie (cookie : SessionCookie) (session_id : string) :
  read cookie (Some ("csrf:" +:+ session_id +:+ "." +:+ issue_csrf (cookie_key cookie) session_id))
  = Some ("csrf:" +:+ session_id).
Proof. apply (read_issued cookie ("csrf:" +:+ session_id)). done. Qed.
End Properties.

(** * A concrete key *)

Module SessionDemo.
Definition nibble (n : Z) : ascii := ascii_of_N (Z.to_N (if n <? 10 then 48 + n else 87 + n)).
(** A stand-in for HMAC: the text itself in hexadecimal. *)
#[export] Instance toy : Hmac := λ key message,
  of_chars ("0"%char :: (chars (key +:+ message) ≫= λ c, [nibble (code c / 16); nibble (code c mod 16)])).

Lemma nibble_hex n : 0 <= n < 16 → hex_lower (nibble n) = true.
Proof.
  intros Hn. assert (n ∈ seqZ 0 16) as Hin by (apply elem_of_seqZ; lia). revert n Hn Hin.
  assert (Forall (λ n, hex_lower (nibble n) = true) (seqZ 0 16)) as Hall by (repeat constructor).
  rewrite Forall_forall in Hall. auto.
Qed.

#[export] Instance toy_lawful : LawfulHmac.
Proof.
  intros key message. unfold hexdigest, toy. split; [done |].
  rewrite chars_of_chars. cbn [forallb]. rewrite andb_true_iff. split; [done |].
  apply forallb_forall. intros c (a & Hc & _)%list_elem_of_In%list_elem_of_bind.
  pose proof (N_ascii_bounded a) as Hb.
  rewrite !elem_of_cons in Hc. destruct Hc as [-> | [-> | Hc]]; [| | by apply elem_of_nil in Hc].
  - apply nibble_hex. unfold code. split; [apply Z.div_pos; lia | apply Z.div_lt_upper_bound; lia].
  - apply nibble_hex. apply Z.mod_pos_bound. lia.
Qed.

Definition cookie : SessionCookie := {| cookie_key := "k"; cookie_secure := true |}.
Definition post (value token : option string) : Request :=
  {| method := "POST"; session_cookie := value; csrf_header := token; form_token := None;
     accept := "*/*" |}.

Example tampered :
  (read cookie (Some "ab.06b6162"), read cookie (Some "ac.06b6162"), read cookie (Some "nodot"))
  = (Some "ab", None, None).
Proof. vm_compute. reflexivity. Qed.

Example posts :
  (verify_csrf (post (Some "ab.06b6162") (Some (issue_csrf "k" "ab"))) cookie "k",
   verify_csrf (post (Some "ab.06b6162") None) cookie "k",
   verify_csrf (post None (Some "x")) cookie "k")
  = (None, Some (HTTPException 403 "invalid csrf token"), Some (HTTPException 403 "missing session")).
Proof. vm_compute. reflexivity. Qed.
End SessionDemo.

Import SessionDemo.

Lemma session_cookie_roundtrip_witness :
  read cookie (Some (issue cookie "ab")) = Some "ab"
  ∧ read cookie (Some "ac.06b6162") ≠ Some "ac".
Proof.
  split.
  - apply (session_cookie_roundtrip cookie). split; [discriminate | reflexivity].
  - intros [_ E]%session_cookie_roundtrip. vm_compute in E. discriminate E.
Defined.

Lemma csrf_guard_spec_witness :
  let good := post (Some "ab.06b6162") (Some (issue_csrf "k" "ab")) in
  let bare := post (Some "ab.06b6162") None in
  verify_csrf good cookie "k" = None
  ∧ verify_csrf bare cookie "k" ≠ None.
Proof.
  destruct (csrf_guard_spec
    (post (Some "ab.06b6162") (Some (issue_csrf "k" "ab")))
    cookie "k") as [Hg _].
  destruct (csrf_guard_spec (post (Some "ab.06b6162") None)
    cookie "k") as [Hb _].
  split.
  - apply Hg. right. exists "ab". split_and!; [discriminate | reflexivity | reflexivity].
  - intros [Hs | (sid & _ & _ & Ht)]%Hb; [vm_compute in Hs; set_solver | discriminate Ht].
Defined.
