(* ===== verification/Filters.v ===== *)
(** The presentation filters of the web pages ([interfaces/web/templates.py]).

    [py_int] is Python's [int] of a Latin-1 text.  The tiers are those of the
    router. *)

From S2P Require Import Prelude Domain DateTime Registry Safety Egress Text Fetchers Digest.

(** The French labels are written in UTF-8 here and are Latin-1 in the model. *)
Fixpoint latin1 (s : string) : string :=
  match s with
  | String "195" (String c s') => String (ascii_of_N (N_of_ascii c + 64)) (latin1 s')
  | String c s' => String c (latin1 s')
  | EmptyString => EmptyString
  end.

(** * int *)

(** The digits of an [int] literal: underscores only between two digits. *)
Fixpoint digits_of (s : list ascii) : option (list ascii) :=
  match s with
  | [] => None
  | c :: s' =>
      if is_digit c then
        match s' with
        | [] => Some [c]
        | d :: s'' =>
            if decide (d = "_"%char) then cons c <$> digits_of s'' else cons c <$> digits_of s'
        end
      else None
  end.

(** [int(s)]. *)
Definition py_int (s : string) : result Z :=
  let body := strip (chars s) in
  let '(sign, body) :=
    match body with
    | "-"%char :: rest => (-1, rest)
    | "+"%char :: rest => (1, rest)
    | _ => (1, body)
    end in
  match digits_of body with
  | None => raise ValueError "invalid literal for int() with base 10"
  | Some digits =>
      if 4300 <? Z.of_nat (length digits) then raise ValueError "Exceeds the limit"
      else match number 10 dec_digit digits with
           | Some n => Ok (sign * n)
           | None => raise ValueError "invalid literal for int() with base 10"
           end
  end.

(** * Tiers *)

Definition TIER_COST_ORDER : list string := ["http"; "tls"; "browser"; "uc"; "camoufox"].

Fixpoint index_of (name : string) (l : list string) : nat :=
  match l with
  | [] => 0
  | x :: l' => if decide (x = name) then 0 else S (index_of name l')
  end.

(** [rank.get(name, len(rank))]. *)
Definition rank (name : string) : nat := index_of name TIER_COST_ORDER.

Definition tier_leb (a b : string) : bool :=
  (rank a <? rank b)%nat || ((rank a =? rank b)%nat && str_leb a b).

Definition ordered_tiers : list string := sort_by tier_leb known_tiers.
Definition TIER_LADDER : list string := ordered_tiers.

Definition tier_level (method : option string) : Z :=
  match method with
  | None => 0
  | Some m =>
      if bool_decide (m = "") then 0
      else
        let key := of_chars (latin1_lower <$> strip (chars m)) in
        if bool_decide (key ∈ TIER_LADDER) then Z.of_nat (index_of key TIER_LADDER) + 1 else 0
  end.

(** * Labels *)

Definition format_brl (cents : option Z) : string :=
  match cents with
  | None => "--"
  | Some cents =>
      let sign := if cents <? 0 then "-" else "" in
      let reais := Z.abs cents / 100 in
      let centavos := Z.abs cents mod 100 in
      let grouped := replace_char "," "." (with_commas reais) in
      sign +:+ "R$ " +:+ of_chars (grouped ++ ","%char :: pad 2 centavos)
  end.

(** [{...}.get(value, default)]. *)
Definition label_of (table : list (string * string)) (fallback value : string) : string :=
  default fallback (od_get value table).

(** A status comes as the enumeration or as its text; both give the text. *)
Definition status_class (value : string) : string :=
  label_of [("ok", "ok"); ("indeterminate", "indet"); ("unavailable", "unavail")] "indet" value.

Definition status_text (value : string) : string :=
  label_of [("ok", "OK"); ("indeterminate", "Indetermine"); ("unavailable", "Indisponible")]
    "Indetermine" value.

Definition availability_text (value : string) : string :=
  label_of [("InStock", "En stock"); ("OutOfStock", "Rupture"); ("UNKNOWN", "Inconnu")] "Inconnu" value.

(** [f"{n:02d}"]. *)
Definition two_digits (n : Z) : string :=
  of_chars (if n <? 0 then "-"%char :: decimal (Z.abs n)
            else if n <? 10 then "0"%char :: decimal n else decimal n).

(** [except ValueError: pass] around the two [return]s; what follows it. *)
Definition schedule_label (job : DigestJob) : string :=
  let fields := split job.(schedule_cron) in
  let rest := if bool_decide (job.(job_frequency_kind) = "cron")
              then "Cron : " +:+ job.(schedule_cron) else job.(schedule_cron) in
  let five := bool_decide (length fields = 5%nat) in
  let field i := py_int (default "" (fields !! i)) in
  if bool_decide (job.(job_frequency_kind) = "hourly") && five then
    match field 0%nat with
    | Ok minute => "Chaque heure a :" +:+ two_digits minute
    | Raise _ => rest
    end
  else if bool_decide (job.(job_frequency_kind) = "daily") && five then
    match field 1%nat, field 0%nat with
    | Ok hour, Ok minute => "Chaque jour a " +:+ two_digits hour +:+ ":" +:+ two_digits minute
    | _, _ => rest
    end
  else rest.

Definition frequency_label (frequency_kind : string) : string :=
  label_of [("hourly", "Horaire"); ("daily", "Quotidien"); ("cron", "Cron")] frequency_kind frequency_kind.

Definition template_label (template_id : string) : string :=
  label_of [("default", "Standard")] template_id template_id.

(** * The last send of a job *)

Definition JOB_RUN_STATUS_CLASS : list (string * string) :=
  [("sent", "sent"); ("error", "error"); ("skipped_no_email", "attention")].
Definition JOB_RUN_STATUS_LABEL : list (string * string) :=
  [("sent", latin1 "Envoyé"); ("error", "Erreur"); ("skipped_no_email", "Ajoutez un e-mail");
   ("queued", "En file"); ("running", "En cours")].
Definition JOB_RUN_ERROR_REFUSED : list string :=
  ["SMTPRecipientsRefused"; "SMTPSenderRefused"; "SMTPDataError"].
Definition JOB_RUN_ERROR_TRANSIENT : list string :=
  ["TimeoutError"; "OSError"; "SMTPConnectError"; "SMTPServerDisconnected"; "reaped"].
Definition JOB_RUN_ERROR_CONFIG : list string :=
  ["SMTPAuthenticationError"; "SMTPNotSupportedError"].

Definition job_run_status_class (summary : option JobRunSummary) : string :=
  match summary with
  | None => "pending"
  | Some s => label_of JOB_RUN_STATUS_CLASS "pending" s.(jrs_latest).(jr_status)
  end.

Definition job_run_status_label (summary : option JobRunSummary) : string :=
  match summary with
  | None => latin1 "Jamais envoyé"
  | Some s => label_of JOB_RUN_STATUS_LABEL "Statut inconnu" s.(jrs_latest).(jr_status)
  end.

(** [error.split(":", 1)[0]]. *)
Definition error_prefix (error : string) : string :=
  of_chars (partition ":"%char (chars error)).1.1.

Definition UNSAFE_RECIPIENT_LABEL : string :=
  latin1 "Adresse e-mail invalide, mettez-la à jour dans votre profil".
Definition REFUSED_LABEL : string := latin1 "Adresse refusée par le serveur de messagerie".
Definition TRANSIENT_LABEL : string :=
  latin1 "Échec d'envoi temporaire, nouvel essai à la prochaine fenêtre".
Definition CONFIG_LABEL : string :=
  latin1 "Problème de configuration du serveur d'envoi, contactez l'administrateur".
Definition OTHER_LABEL : string := "Erreur d'envoi".

Definition prefix_label (prefix : string) : string :=
  if bool_decide (prefix = "_UnsafeRecipientError") then UNSAFE_RECIPIENT_LABEL
  else if bool_decide (prefix ∈ JOB_RUN_ERROR_REFUSED) then REFUSED_LABEL
  else if bool_decide (prefix ∈ JOB_RUN_ERROR_TRANSIENT) then TRANSIENT_LABEL
  else if bool_decide (prefix ∈ JOB_RUN_ERROR_CONFIG) || String.prefix "SSL" prefix then CONFIG_LABEL
  else OTHER_LABEL.

Definition job_run_error_label (summary : option JobRunSummary) : string :=
  match summary with
  | None => OTHER_LABEL
  | Some s =>
      if truthy_opt s.(jrs_latest).(jr_error)
      then prefix_label (error_prefix (default "" s.(jrs_latest).(jr_error)))
      else OTHER_LABEL
  end.

(** * Properties *)

Example the_ladder : TIER_LADDER = TIER_COST_ORDER.
Proof. vm_compute. reflexivity. Qed.

(** What is tested on every number below a bound holds below it. *)
Lemma below (P : Z → Prop) `{∀ n, Decision (P n)} (k n : Z) :
  forallb (λ n, bool_decide (P n)) (seqZ 0 k) = true → 0 <= n < k → P n.
Proof.
  rewrite forallb_forall. intros Hall Hn.
  by apply (bool_decide_eq_true_1 (P n)), Hall, list_elem_of_In, elem_of_seqZ.
Qed.

(** [int] reads back the small numbers the schedules print. *)
Lemma py_int_pretty n : 0 <= n <= 59 → py_int (pretty n) = Ok n.
Proof.
  intros Hn. apply (below (λ n, py_int (pretty n) = Ok n) 60); [vm_compute; reflexivity | lia].
Qed.

Lemma split_hourly n : 0 <= n <= 59 → split (pretty n +:+ " * * * *") = [pretty n; "*"; "*"; "*"; "*"].
Proof.
  intros Hn. apply (below (λ n, split (pretty n +:+ " * * * *") = [pretty n; "*"; "*"; "*"; "*"]) 60);
    [vm_compute; reflexivity | lia].
Qed.

Lemma split_daily m h : 0 <= m <= 59 → 0 <= h <= 23 →
  split (pretty m +:+ " " +:+ pretty h +:+ " * * *") = [pretty m; pretty h; "*"; "*"; "*"].
Proof.
  intros Hm Hh.
  assert (Forall (λ h, split (pretty m +:+ " " +:+ pretty h +:+ " * * *")
                       = [pretty m; pretty h; "*"; "*"; "*"]) (seqZ 0 24)) as Hall.
  { apply (below (λ m, Forall (λ h, split (pretty m +:+ " " +:+ pretty h +:+ " * * *")
                       = [pretty m; pretty h; "*"; "*"; "*"]) (seqZ 0 24)) 60); [| lia].
    vm_compute. reflexivity. }
  rewrite Forall_forall in Hall. apply Hall, elem_of_seqZ. lia.
Qed.

(** The stored text of an accepted schedule, field by field. *)
Lemma normalize_schedule_fields kind minute hour expr cron :
  normalize_schedule kind minute hour expr = Ok cron →
  (kind = "hourly" ∧ 0 <= minute <= 59 ∧ split cron = [pretty minute; "*"; "*"; "*"; "*"])
  ∨ (kind = "daily" ∧ 0 <= minute <= 59 ∧ 0 <= hour <= 23
     ∧ split cron = [pretty minute; pretty hour; "*"; "*"; "*"])
  ∨ (kind = "cron" ∧ expr = Some cron ∧ cron ≠ "" ∧ length (split cron) = 5%nat).
Proof.
  unfold normalize_schedule.
  case_bool_decide as Hh; [| case_bool_decide as Hd; [| case_bool_decide as Hc; [| done]]].
  - destruct ((0 <=? minute) && (minute <=? 59)) eqn:E; [| done]. intros [= <-].
    left. split_and!; [done | lia | lia |]. apply split_hourly. lia.
  - destruct ((0 <=? minute) && (minute <=? 59)) eqn:E; [| done]. cbn [negb].
    destruct ((0 <=? hour) && (hour <=? 23)) eqn:E'; [| done]. intros [= <-].
    right. left. split_and!; [done | lia .. |]. apply split_daily; lia.
  - destruct expr as [e |]; [| done]. cbn [truthy_opt default]. unfold truthy.
    case_bool_decide; [done |]. cbn [negb]. case_bool_decide; [| done]. intros [= <-].
    right. right. by split_and!.
Qed.

(** A price of the pages is printed as in the digest, with its sign first. *)
Lemma format_brl_cents (cents : Z) :
  format_brl (Some cents) = (if cents <? 0 then "-" else "") +:+ format_cents (Some (Z.abs cents)).
Proof.
  unfold format_brl, format_cents. by f_equal.
Qed.

Lemma partition_prefix (c : ascii) (a b : list ascii) :
  c ∉ a → (partition c (a ++ c :: b)).1.1 = a.
Proof. intros Ha. by rewrite partition_sep. Qed.

(** what a tenant reads of a failed send is one of five fixed texts, and
    of an error recorded as the name of its class and its message, cut at any
    length, it depends on the name alone: no word of the relay's answer, of
    its host name or of the operator's account reaches the page. *)
Theorem job_run_error_label_generic (run : JobRun) (sent_at : option string) :
  let label := job_run_error_label (Some {| jrs_latest := run; jrs_last_sent_at := sent_at |}) in
  label ∈ [UNSAFE_RECIPIENT_LABEL; REFUSED_LABEL; TRANSIENT_LABEL; CONFIG_LABEL; OTHER_LABEL]
  ∧ (∀ (name message : string) (cut : nat),
       name ≠ "" → ":"%char ∉ chars name → (length (chars name) < cut)%nat →
       jr_error run = Some (of_chars (take cut (chars (name +:+ ": " +:+ message)))) →
       label = prefix_label name).
Proof.
  cbv zeta. split.
  - unfold job_run_error_label, prefix_label. repeat case_match; set_solver.
  - intros name message cut Hne Hc Hcut He. unfold job_run_error_label. cbn [jrs_latest].
    rewrite He. cbn [truthy_opt default from_option id].
    assert (take cut (chars (name +:+ ": " +:+ message))
            = (chars name ++ ":"%char :: take (cut - S (length (chars name))) (chars (" " +:+ message)))%list) as ->.
    { rewrite !chars_app. cbn [chars app]. rewrite take_app_ge by lia. f_equal.
      destruct (cut - length (chars name))%nat as [| k] eqn:E; [lia |].
      by replace (cut - S (length (chars name)))%nat with k by lia. }
    unfold error_prefix. rewrite chars_of_chars, partition_prefix, of_chars_chars by done.
    unfold truthy. rewrite bool_decide_eq_false_2; [done |].
    intros E. apply (f_equal chars) in E. rewrite chars_of_chars in E.
    by destruct (chars name).
Qed.

(** the label of a schedule made by the interface.  An hourly or daily
    job shows the minute and the hour it was given, two digits each. *)
Theorem schedule_label_shows (job : DigestJob) (kind : string) (minute hour : Z) (expr : option string) :
  job_frequency_kind job = kind →
  normalize_schedule kind minute hour expr = Ok (schedule_cron job) →
  schedule_label job
  = if bool_decide (kind = "hourly") then "Chaque heure a :" +:+ two_digits minute
    else if bool_decide (kind = "daily")
         then "Chaque jour a " +:+ two_digits hour +:+ ":" +:+ two_digits minute
    else "Cron : " +:+ schedule_cron job.
Proof.
  intros <- Hn. unfold schedule_label.
  destruct (normalize_schedule_fields _ _ _ _ _ Hn)
    as [(Hk & Hm & ->) | [(Hk & Hm & Hh & ->) | (Hk & _ & _ & _)]]; rewrite Hk; cbn [length lookup list_lookup default].
  - rewrite !bool_decide_eq_true_2 by done. cbn [andb id]. by rewrite py_int_pretty.
  - rewrite (bool_decide_eq_false_2 ("daily" = "hourly")), !bool_decide_eq_true_2 by done.
    cbn [andb id]. by rewrite !py_int_pretty by lia.
  - by rewrite (bool_decide_eq_false_2 ("cron" = "hourly")), (bool_decide_eq_false_2 ("cron" = "daily")),
      (bool_decide_eq_true_2 ("cron" = "cron")).
Qed.
