(* ===== verification/Web.v ===== *)
(** The web interface: the handlers of the pages ([interfaces/web/routers/]),
    the dependencies that guard them ([interfaces/web/deps.py]) and the
    rendering of errors ([interfaces/web/app.py]).

    FastAPI's routing is the type [endpoint]: a route with its parameters,
    already read from the path or the form.  A response carries the values a
    page is rendered from, not its HTML.  The service state of the requests is
    one [Web]: the two databases, the work queue and the world of the scrapers.
    What a request reads of the clocks and of the random source is its [Env]. *)

From S2P Require Import Text Prelude RunQueue Domain Orchestrator StateStore DateTime Registry ConfigStore Safety Digest Services Auth Session Filters.

(** * The state, and the services on it *)

(** The arguments [create_app] wires its services with. *)
Record Deployment := {
  d_sha256 : string → string;
  d_url_digest : string → string;
  d_ph_verify : string → string → result unit;
  d_dummy_hash : string;
  d_session_ttl : Z;
  d_token_ttl : Z;
  d_window : Z;
  d_max_attempts : Z;
  d_row_cap : Z;
  d_timezones : list string;
  d_domain_policy : ConfigDb → string → bool;
  d_zone_info : string → result Zone;
  d_render_file : string → DigestView → result string;
  d_to_float : string → result flt;
  d_queue : RunQueue.Config;
  d_cookie : SessionCookie;
  d_csrf_secret : string;
}.

(** The readings of one request: the wall clock when its session is checked
    and at its next two uses, the monotonic clock, and its fresh secrets. *)
Record Env := {
  gate_now : Z;
  now : Z;
  later : Z;
  monotonic : Z;
  fresh_secret : string;
  fresh_id : string;
}.

Record Web (W S : Type) := mkWeb {
  web_db : AuthDb;
  web_argon2 : Z;
  web_state : S;
  web_world : W;
  web_queue : RunQueue.RunQueue;
}.
Arguments mkWeb {W S}.
Arguments web_db {W S}.
Arguments web_argon2 {W S}.
Arguments web_state {W S}.
Arguments web_world {W S}.
Arguments web_queue {W S}.

Section State.
Context {W S : Type}.

Definition app_of (w : Web W S) : App W S := mkApp (cfg w.(web_db)) w.(web_state) w.(web_world).
Definition with_app (a : App W S) (w : Web W S) : Web W S :=
  mkWeb (set_cfg (config a) w.(web_db)) w.(web_argon2) (Services.state a) (world a) w.(web_queue).

Definition on_app {A} (m : M (App W S) A) : M (Web W S) A :=
  λ w, let '(r, a) := m (app_of w) in (r, with_app a w).

Definition on_auth {A} (m : M Auth A) : M (Web W S) A :=
  λ w, let '(r, a) := m (mkAuth w.(web_db) w.(web_argon2)) in
       (r, mkWeb (auth_db a) (argon2_calls a) w.(web_state) w.(web_world) w.(web_queue)).

Definition on_queue {A} (f : RunQueue.RunQueue → A * RunQueue.RunQueue) : M (Web W S) A :=
  λ w, let '(r, q) := f w.(web_queue) in
       (Ok r, mkWeb w.(web_db) w.(web_argon2) w.(web_state) w.(web_world) q).

(** [try: m except (classes): h]. *)
Definition mcatch {A} (classes : list exc) (m h : M (Web W S) A) : M (Web W S) A :=
  mtry m (λ e, if existsb (is_a e.(exn_class)) classes then h else mraise e).
End State.

(** * Responses *)

Record BaseCtx := {
  base_principal : Principal;
  base_csrf : string;
  base_active : string;
  base_next_cut : string;
}.

Record DashboardRow := {
  row_record : ScrapeRecord;
  row_product_name : string;
  row_site : string;
  row_url : option string;
}.

Record Briefing := { b_ok : Z; b_indeterminate : Z; b_unavailable : Z; b_to_watch : Z }.

(** A row of the source picker. *)
Record PickerRow := {
  pick_source_id : string;
  pick_product_name : string;
  pick_site : string;
  pick_url : string;
}.

Inductive Body :=
| Empty
| Json (fields : list (string * string))
| LoginPage (error : bool) (identifier : string)
| ErrorPage (name : string)
| DashboardPage (base : BaseCtx) (rows : list DashboardRow) (briefing : Briefing)
    (run_status : option RunStatus) (cooldown_remaining backlog_warning_depth : option Z)
| HistoryPage (base : BaseCtx) (records : list ScrapeRecord) (source_id product_name site : string)
| ProductsPage (base : BaseCtx) (registry : Registry) (form_error : option string)
| ProfilePage (base : BaseCtx) (tokens : list TokenInfo) (email : option string)
    (new_token : option IssuedToken) (email_error : option string) (email_saved : bool)
| NotificationsPage (base : BaseCtx) (jobs : list (DigestJob * option JobRunSummary))
    (sources : list PickerRow) (source_by_id : gmap string PickerRow)
    (timezones template_ids : list string) (form_error : option string)
| PreviewPage (base : BaseCtx) (job : DigestJob) (preview_html : string)
| AdminPage (base : BaseCtx) (sites : gmap string SiteConfig) (form_error site_saved : option string).

Record Response := {
  r_status : Z;
  r_body : Body;
  r_location : option string;
  r_hx_redirect : option string;
  r_retry_after : option string;
  r_cookie : option CookieKwargs;
}.

(** What a handler ends with; any other exception escapes it. *)
Inductive outcome := Responds (r : Response) | Fails (e : http_exception).

Definition respond (status : Z) (body : Body) : Response :=
  {| r_status := status; r_body := body; r_location := None; r_hx_redirect := None;
     r_retry_after := None; r_cookie := None |}.

(** [RedirectResponse(url, 303)]. *)
Definition redirect (url : string) : Response :=
  {| r_status := 303; r_body := Empty; r_location := Some url; r_hx_redirect := None;
     r_retry_after := None; r_cookie := None |}.

(** [Response(204, headers={"HX-Redirect": url})]. *)
Definition hx_redirect (url : string) : Response :=
  {| r_status := 204; r_body := Empty; r_location := None; r_hx_redirect := Some url;
     r_retry_after := None; r_cookie := None |}.

Definition with_cookie (c : CookieKwargs) (r : Response) : Response :=
  {| r_status := r.(r_status); r_body := r.(r_body); r_location := r.(r_location);
     r_hx_redirect := r.(r_hx_redirect); r_retry_after := r.(r_retry_after); r_cookie := Some c |}.

Definition with_retry_after (s : string) (r : Response) : Response :=
  {| r_status := r.(r_status); r_body := r.(r_body); r_location := r.(r_location);
     r_hx_redirect := r.(r_hx_redirect); r_retry_after := Some s; r_cookie := r.(r_cookie) |}.

Definition not_found : outcome := Fails (HTTPException 404 "not found").

(** * Handlers *)

(** [s.strip() or None]. *)
Definition strip_text (s : string) : string := of_chars (strip (chars s)).
Definition strip_or_none (s : string) : option string :=
  let t := strip_text s in if truthy t then Some t else None.

(** [product.name or product.id]. *)
Definition display_name (p : Product) : string :=
  if truthy_opt p.(prod_name) then default "" p.(prod_name) else p.(prod_id).

Definition NEXT_CUT : string := "06:00".
Definition base_ctx (principal : Principal) (csrf active : string) : BaseCtx :=
  {| base_principal := principal; base_csrf := csrf; base_active := active; base_next_cut := NEXT_CUT |}.

Definition session_ttl_seconds (D : Deployment) : Z := Z.quot D.(d_session_ttl) US_PER_SECOND.
(** [str(int(retry_after) + 1)]. *)
Definition retry_after_text (retry_after : Z) : string := pretty (Z.quot retry_after US_PER_SECOND + 1).

(** ** Joins of the pages *)

(** [index[source.source_id] = (product, source)]. *)
Definition source_index (registry : Registry) : gmap string (Product * ProductSource) :=
  foldl (λ m ps, <[ps.2.(source_id) := ps]> m) ∅ (product_sources registry).

Definition dashboard_row (index : gmap string (Product * ProductSource)) (rec : ScrapeRecord) : DashboardRow :=
  match index !! rec.(sr_source_id) with
  | Some (product, source) =>
      {| row_record := rec; row_product_name := display_name product;
         row_site := source.(source_site); row_url := Some source.(source_url) |}
  | None =>
      {| row_record := rec; row_product_name := latin1 "Source retirée";
         row_site := "--"; row_url := None |}
  end.

Definition status_counts (records : list ScrapeRecord) : gmap string Z :=
  foldl (λ m rec, let v := ScrapeStatus_value rec.(sr_status) in <[v := default 0 (m !! v) + 1]> m)
    {[ "ok" := 0; "indeterminate" := 0; "unavailable" := 0 ]} records.

Definition briefing_of (records : list ScrapeRecord) : Briefing :=
  let counts := status_counts records in
  let get k := default 0 (counts !! k) in
  {| b_ok := get "ok"; b_indeterminate := get "indeterminate"; b_unavailable := get "unavailable";
     b_to_watch := get "indeterminate" + get "unavailable" |}.

(** The product name and the site of a source: the last one with its id. *)
Definition find_source (registry : Registry) (source_id_ : string) : option (string * string) :=
  foldl (λ found ps, if bool_decide (ps.2.(source_id) = source_id_)
                     then Some (display_name ps.1, ps.2.(source_site)) else found)
    None (product_sources registry).

Definition owner_sources (registry : Registry) : list PickerRow :=
  (λ ps, {| pick_source_id := ps.2.(source_id); pick_product_name := display_name ps.1;
            pick_site := ps.2.(source_site); pick_url := ps.2.(source_url) |})
    <$> product_sources registry.

(** ** Digest jobs *)

Definition TIMEZONES : list string :=
  ["America/Sao_Paulo"; "America/Manaus"; "America/Fortaleza"; "UTC"; "Europe/Paris"; "Europe/Lisbon"].

(** The minute, the hour and the expression a stored schedule was made from. *)
Definition cadence_of (job : DigestJob) : result (Z * Z * option string) :=
  let fields := split job.(schedule_cron) in
  let field i := py_int (default "" (fields !! i)) in
  if bool_decide (job.(job_frequency_kind) = "hourly") && bool_decide (1 <= length fields)%nat then
    let? minute := field 0%nat in Ok (minute, 0, None)
  else if bool_decide (job.(job_frequency_kind) = "daily") && bool_decide (2 <= length fields)%nat then
    let? minute := field 0%nat in let? hour := field 1%nat in Ok (minute, hour, None)
  else if bool_decide (job.(job_frequency_kind) = "cron") then Ok (0, 0, Some job.(schedule_cron))
  else Ok (0, 0, None).

Definition spec_from_job (job : DigestJob) (enabled : bool) : result DigestJobSpec :=
  let? (minute, hour, cron_expr) := cadence_of job in
  Ok {| spec_job_name := job.(job_name); frequency_kind := job.(job_frequency_kind);
        minute := minute; hour := hour; cron_expr := cron_expr;
        timezone := job.(job_timezone); template_id := job.(job_template_id);
        options := dump_job_options job.(job_options); Services.enabled := enabled;
        source_ids := [] |}.

(** The fields of the notification form. *)
Record NotificationForm := {
  f_name : string;
  f_frequency_kind : string;
  f_minute : Z;
  f_hour : Z;
  f_cron_expr : string;
  f_timezone : string;
  f_template_id : string;
  f_show_pix : option string;
  f_show_card : option string;
  f_threshold : string;
  f_source_ids : list string;
}.

(** The options of the form; a threshold that is no number is refused. *)
Definition form_options (to_float : string → result flt) (f : NotificationForm)
    : result (list (string * pyval)) :=
  let base := [("show_pix", VBool (bool_decide (f.(f_show_pix) ≠ None)));
               ("show_card", VBool (bool_decide (f.(f_show_card) ≠ None)))] in
  let threshold := strip_text f.(f_threshold) in
  if truthy threshold then
    let? x := to_float threshold in Ok (base ++ [("variation_threshold_pct", VFloat x)])%list
  else Ok base.

Definition spec_of_form (f : NotificationForm) (options : list (string * pyval)) : DigestJobSpec :=
  {| spec_job_name := strip_text f.(f_name); frequency_kind := strip_text f.(f_frequency_kind);
     minute := f.(f_minute); hour := f.(f_hour); cron_expr := strip_or_none f.(f_cron_expr);
     timezone := strip_text f.(f_timezone); template_id := strip_text f.(f_template_id);
     options := options; Services.enabled := true;
     source_ids := filter (λ s, s ≠ "") f.(f_source_ids) |}.

(** ** The preview of a digest *)

(** The four dictionaries of the preview, for the sources of a job. *)
Definition url_by_id (registry : Registry) : gmap string string :=
  foldl (λ m ps, <[ps.2.(source_id) := ps.2.(source_url)]> m) ∅ (product_sources registry).
Definition site_by_id (registry : Registry) : gmap string string :=
  foldl (λ m ps, <[ps.2.(source_id) := ps.2.(source_site)]> m) ∅ (product_sources registry).

Definition preview_urls (registry : Registry) (ids : list string) : gmap string string :=
  foldl (λ m sid, match url_by_id registry !! sid with Some u => <[sid := u]> m | None => m end) ∅ ids.

Definition preview_labels (registry : Registry) (ids : list string) : gmap string string :=
  foldl (λ m sid,
    match sites registry !! default "" (site_by_id registry !! sid) with
    | Some site => if truthy_opt site.(tier2_label)
                   then <[sid := default "" site.(tier2_label)]> m else m
    | None => m
    end) ∅ ids.

Definition preview_records (ids : list string) (records : list ScrapeRecord) : list ScrapeRecord :=
  let latest : gmap string ScrapeRecord := foldl (λ m r, <[r.(sr_source_id) := r]> m) ∅ records in
  omap (λ sid, latest !! sid) ids.

(** [datetime.now(utc).isoformat(timespec="seconds")]. *)
Definition isoformat_seconds (t : Z) : string := isoformat (t - t mod US_PER_SECOND).

Section Handlers.
Context {W S : Type} `{AppPorts W} `{StateStore S} `{Hmac}.
Variable D : Deployment.

Abbreviation handler := (M (Web W S) outcome).
Definition responds (r : Response) : handler := mret' (Responds r).

(** ** deps.py *)

(** The principal of a request, or the 401. *)
Definition verify_session (request : Request) (env : Env) : M (Web W S) (http_exception + Principal) :=
  let! principal :=
    match read D.(d_cookie) request.(session_cookie) with
    | Some session_id => on_auth (Auth.verify_session D.(d_sha256) session_id env.(gate_now))
    | None => mret' None
    end in
  mret' (match principal with
         | Some p => inr p
         | None => inl (HTTPException 401 "invalid or expired session")
         end).

(** [Authorization: Bearer <token>]; [header] is [""] when it is absent. *)
Definition verify_bearer (header : string) (env : Env) : M (Web W S) (http_exception + Principal) :=
  let '(scheme, _, token) := partition " "%char (chars header) in
  let! principal :=
    if bool_decide (lower scheme = chars "bearer") && negb (bool_decide (token = []))
    then on_auth (Auth.verify_bearer D.(d_sha256) (of_chars token) env.(gate_now))
    else mret' None in
  mret' (match principal with
         | Some p => inr p
         | None => inl (HTTPException 401 "invalid or expired token")
         end).

Definition require_admin (principal : Principal) : option http_exception :=
  if bool_decide (principal.(role) = "admin") then None
  else Some (HTTPException 403 "admin role required").

(** ** routers/public.py *)

Definition check_login (identifier password : string) (env : Env)
    : M (Web W S) (option Principal * option Z) :=
  on_auth (check_and_authenticate D.(d_ph_verify) D.(d_dummy_hash) D.(d_window)
             D.(d_max_attempts) D.(d_row_cap) identifier password env.(now)).

(** A new session, and the cookie that carries it. *)
Definition open_session (principal : Principal) (env : Env) : M (Web W S) CookieKwargs :=
  let! session_id := on_auth (Auth.create_session D.(d_sha256) D.(d_session_ttl) principal
                                env.(fresh_secret) env.(later)) in
  mret' (set_kwargs D.(d_cookie) (issue D.(d_cookie) session_id) (session_ttl_seconds D)).

Definition close_session (request : Request) (env : Env) : M (Web W S) unit :=
  match read D.(d_cookie) request.(session_cookie) with
  | None => mret' tt
  | Some session_id =>
      let! principal := on_auth (Auth.verify_session D.(d_sha256) session_id env.(now)) in
      match principal with
      | Some p => on_auth (revoke_session D.(d_sha256) p session_id)
      | None => mret' tt
      end
  end.

Definition login (identifier password : string) (env : Env) : handler :=
  let! (principal, retry_after) := check_login identifier password env in
  match retry_after with
  | Some d => responds (with_retry_after (retry_after_text d)
                (respond 429 (Json [("detail", "too many login attempts")])))
  | None =>
      match principal with
      | None => mret' (Fails (HTTPException 401 "invalid credentials"))
      | Some p => let! c := open_session p env in
                  responds (with_cookie c (respond 200 (Json [("status", "ok")])))
      end
  end.

Definition logout (request : Request) (env : Env) : handler :=
  let! _ := close_session request env in
  responds (with_cookie (clear_kwargs D.(d_cookie)) (respond 200 (Json [("status", "ok")]))).

Definition login_form : handler := responds (respond 200 (LoginPage false "")).

Definition login_submit (identifier password : string) (env : Env) : handler :=
  let! (principal, retry_after) := check_login identifier password env in
  match retry_after with
  | Some d => responds (with_retry_after (retry_after_text d) (respond 429 (LoginPage true identifier)))
  | None =>
      match principal with
      | None => responds (respond 401 (LoginPage true identifier))
      | Some p => let! c := open_session p env in responds (with_cookie c (redirect "/"))
      end
  end.

Definition logout_submit (request : Request) (env : Env) : handler :=
  let! _ := close_session request env in
  responds (with_cookie (clear_kwargs D.(d_cookie)) (redirect "/login")).

(** ** routers/web.py: dashboard and history *)

(** The depth of the queue, for the administrator and when it is a concern. *)
Definition backlog_depth (principal : Principal) : M (Web W S) (option Z) :=
  mgets (λ w, if bool_decide (principal.(role) = "admin") && backlog_warning_active D.(d_queue) w.(web_queue)
              then Some (queued_count w.(web_queue)) else None).

Definition dashboard (principal : Principal) (csrf : string) (env : Env) : handler :=
  let owner := principal.(owner_id) in
  let! records := on_app (list_state owner) in
  let! registry := on_app (list_config owner) in
  let! run_status := mgets (λ w, status_for owner w.(web_queue)) in
  let! cooldown := mgets (λ w, cooldown_remaining_seconds D.(d_queue) owner env.(monotonic) w.(web_queue)) in
  let! depth := backlog_depth principal in
  let index := source_index registry in
  responds (respond 200
    (DashboardPage (base_ctx principal csrf "dashboard")
       (dashboard_row index <$> records) (briefing_of records) run_status cooldown depth)).

Definition web_run_now (principal : Principal) (env : Env) : handler :=
  let! _ := on_queue (enqueue D.(d_queue) principal.(owner_id) env.(monotonic)) in
  responds (redirect "/").

Definition web_history (principal : Principal) (csrf source_id_ : string) : handler :=
  let owner := principal.(owner_id) in
  let! registry := on_app (list_config owner) in
  match find_source registry source_id_ with
  | None => mret' not_found
  | Some (product_name, site) =>
      let! records := on_app (get_history owner source_id_ 50) in
      responds (respond 200
        (HistoryPage (base_ctx principal csrf "products") records source_id_ product_name site))
  end.

(** ** Products and sources *)

Definition render_products (principal : Principal) (csrf : string) (form_error : option string)
    (status : Z) : handler :=
  let! registry := on_app (list_config principal.(owner_id)) in
  responds (respond status (ProductsPage (base_ctx principal csrf "products") registry form_error)).

Definition web_products (principal : Principal) (csrf : string) : handler :=
  render_products principal csrf None 200.

(** [try: svc.(...) except (ValueError, KeyError): return ...]. *)
Definition accepted {A} (classes : list exc) (m : M (App W S) A) : M (Web W S) bool :=
  mcatch classes (let! _ := on_app m in mret' true) (mret' false).

Definition web_add_product (principal : Principal) (csrf product_key name : string) : handler :=
  let! ok := accepted [ValueError; KeyError]
    (add_product principal.(owner_id)
       {| spec_key := strip_text product_key; spec_name := strip_or_none name |}) in
  if ok : bool then responds (redirect "/products")
  else render_products principal csrf (Some (latin1 "Clé produit invalide.")) 400.

Definition web_add_source (principal : Principal) (csrf product_key site url : string) : handler :=
  let! ok := accepted [ValueError; KeyError]
    (add_source D.(d_url_digest) D.(d_domain_policy) principal.(owner_id)
       (strip_text product_key) (strip_text site) (strip_text url)) in
  if ok : bool then responds (redirect "/products")
  else render_products principal csrf
         (Some (latin1 "Source refusée : site inconnu ou URL non autorisée.")) 400.

Definition web_remove_product (principal : Principal) (product_key : string) : handler :=
  let! ok := accepted [KeyError] (remove_product principal.(owner_id) product_key) in
  if ok : bool then responds (hx_redirect "/products") else mret' not_found.

Definition web_remove_source (principal : Principal) (source_id_ : string) : handler :=
  let! _ := on_app (remove_source principal.(owner_id) source_id_) in
  responds (hx_redirect "/products").

(** ** Profile *)

Definition profile (principal : Principal) (csrf : string) (env : Env) : handler :=
  let! tokens := on_auth (list_tokens principal env.(now)) in
  let! email := on_auth (get_email principal) in
  responds (respond 200 (ProfilePage (base_ctx principal csrf "profile") tokens email None None false)).

Definition web_create_token (principal : Principal) (csrf : string) (env : Env) : handler :=
  let! issued := on_auth (Auth.create_token D.(d_sha256) D.(d_token_ttl) principal
                            env.(fresh_secret) env.(fresh_id) env.(now)) in
  let! tokens := on_auth (list_tokens principal env.(later)) in
  let! email := on_auth (get_email principal) in
  responds (respond 200
    (ProfilePage (base_ctx principal csrf "profile") tokens email (Some issued) None false)).

Definition web_revoke_token (principal : Principal) (token_id : string) : handler :=
  let! _ := on_auth (Auth.revoke_token principal token_id) in
  responds (hx_redirect "/profile").

Definition revoke_all_tokens (principal : Principal) : handler :=
  let! _ := on_auth (revoke_all principal principal.(owner_id)) in
  responds (with_cookie (clear_kwargs D.(d_cookie)) (redirect "/login")).

(** The two [except] clauses: the message of the page, if any. *)
Definition try_set_email (principal : Principal) (value : option string) : M (Web W S) (option string) :=
  mcatch [ValueError]
    (mcatch [EmailAlreadyTakenError] (let! _ := on_auth (set_email principal value) in mret' None)
       (mret' (Some "Email indisponible.")))
    (mret' (Some "Email invalide.")).

Definition web_set_email (principal : Principal) (csrf email : string) (env : Env) : handler :=
  let value := strip_or_none email in
  let! error := try_set_email principal value in
  let! tokens := on_auth (list_tokens principal env.(now)) in
  responds (respond 200 (ProfilePage (base_ctx principal csrf "profile") tokens value None
                           error (bool_decide (error = None)))).

(** ** Notifications *)

Definition render_notifications (principal : Principal) (csrf : string) (form_error : option string)
    (status : Z) : handler :=
  let! registry := on_app (list_config principal.(owner_id)) in
  let sources := owner_sources registry in
  let! jobs := on_app (list_jobs_with_status principal.(owner_id)) in
  responds (respond status
    (NotificationsPage (base_ctx principal csrf "notifications") jobs sources
       (foldl (λ m s, <[s.(pick_source_id) := s]> m) ∅ sources) TIMEZONES
       (sort_by str_leb VALID_TEMPLATE_IDS) form_error)).

Definition notifications (principal : Principal) (csrf : string) : handler :=
  render_notifications principal csrf None 200.

Definition create_notification (principal : Principal) (csrf : string) (f : NotificationForm) : handler :=
  let! options := mcatch [ValueError] (let! o := mlift (form_options D.(d_to_float) f) in mret' (Some o))
                    (mret' None) in
  match options with
  | None => render_notifications principal csrf (Some "Seuil de variation invalide.") 400
  | Some options =>
      let! ok := accepted [ValueError; KeyError]
        (create_job D.(d_timezones) principal (spec_of_form f options)) in
      if ok : bool then responds (redirect "/notifications")
      else render_notifications principal csrf
             (Some (latin1 "Notification refusée : cadence, fuseau, template ou options invalides.")) 400
  end.

Definition toggle_notification (principal : Principal) (job_id_ : string) : handler :=
  let! ok := accepted [KeyError]
    (let! job := get_job principal.(owner_id) job_id_ in
     let! spec := mlift (spec_from_job job (negb job.(job_enabled))) in
     update_job D.(d_timezones) principal.(owner_id) job_id_ spec) in
  if ok : bool then responds (redirect "/notifications") else mret' not_found.

Definition remove_notification (principal : Principal) (job_id_ : string) : handler :=
  let! ok := accepted [KeyError] (delete_job principal.(owner_id) job_id_) in
  if ok : bool then responds (hx_redirect "/notifications") else mret' not_found.

Definition add_notification_source (principal : Principal) (job_id_ source_id_ : string) : handler :=
  let! ok := accepted [KeyError]
    (add_job_source principal.(owner_id) job_id_ (strip_text source_id_)) in
  if ok : bool then responds (redirect "/notifications") else mret' not_found.

Definition remove_notification_source (principal : Principal) (job_id_ source_id_ : string) : handler :=
  let! _ := on_app (remove_job_source principal.(owner_id) job_id_ source_id_) in
  responds (hx_redirect "/notifications").

Definition find_owned_job (owner job_id_ : string) : M (Web W S) (option DigestJob) :=
  mcatch [KeyError] (let! job := on_app (get_job owner job_id_) in mret' (Some job)) (mret' None).

Definition preview_notification (principal : Principal) (csrf job_id_ : string) (env : Env) : handler :=
  let owner := principal.(owner_id) in
  let! found := find_owned_job owner job_id_ in
  match found with
  | None => mret' not_found
  | Some job =>
      let! registry := on_app (list_config owner) in
      let! records := on_app (list_state owner) in
      let! policy := mgets (λ w, D.(d_domain_policy) (cfg w.(web_db))) in
      let ids := job.(job_source_ids) in
      let! view := mlift (build_digest_view D.(d_zone_info) job (isoformat_seconds env.(now))
        (preview_labels registry ids) (preview_urls registry ids) policy
        (source_labels registry) (preview_records ids records)) in
      let! html := mlift (render_digest_html D.(d_render_file) job.(job_template_id) view) in
      responds (respond 200 (PreviewPage (base_ctx principal csrf "notifications") job html))
  end.
End Handlers.

(** * Routes *)

(** The fields of the form of the site catalogue. *)
Record SiteForm := {
  sf_name : string;
  sf_fetcher : string;
  sf_domain : string;
  sf_parser_kind : string;
  sf_parser_pix : string;
  sf_parser_card : string;
  sf_parser_availability : string;
  sf_tier2_label : string;
}.

Definition site_of_form (f : SiteForm) : SiteConfig :=
  {| site_name := strip_text f.(sf_name); site_fetcher := strip_text f.(sf_fetcher);
     site_parser := {| spec_kind := strip_text f.(sf_parser_kind);
                       spec_pix := strip_or_none f.(sf_parser_pix);
                       spec_card := strip_or_none f.(sf_parser_card);
                       spec_availability := strip_or_none f.(sf_parser_availability) |};
     site_domain := strip_text f.(sf_domain); tier2_label := strip_or_none f.(sf_tier2_label);
     subresource_domains := [] |}.

Inductive endpoint :=
| Health | Login (identifier password : string) | Logout
| LoginForm | LoginSubmit (identifier password : string) | LogoutSubmit
| Me
| Whoami | AdminHome | AddSite (form : SiteForm)
| Dashboard | RunNow | History (source_id : string)
| Products | AddProduct (product_key name : string) | AddSource (product_key site url : string)
| RemoveProduct (product_key : string) | RemoveSource (source_id : string)
| Profile | CreateToken | RevokeToken (token_id : string) | RevokeAllTokens | SetEmail (email : string)
| Notifications | CreateNotification (form : NotificationForm)
| ToggleNotification (job_id : string) | RemoveNotification (job_id : string)
| AddNotificationSource (job_id source_id : string)
| RemoveNotificationSource (job_id source_id : string)
| PreviewNotification (job_id : string).

Inductive router := PublicRouter | ProtectedRouter | AdminRouter | TenantRouter.

#[export] Instance router_eq_dec : EqDecision router.
Proof. solve_decision. Defined.

Definition router_of (e : endpoint) : router :=
  match e with
  | Health | Login _ _ | Logout | LoginForm | LoginSubmit _ _ | LogoutSubmit => PublicRouter
  | Me => ProtectedRouter
  | Whoami | AdminHome | AddSite _ => AdminRouter
  | _ => TenantRouter
  end.

(** The decorators. *)
Definition endpoint_method (e : endpoint) : string :=
  match e with
  | Login _ _ | Logout | LoginSubmit _ _ | LogoutSubmit | AddSite _ | RunNow | AddProduct _ _
  | AddSource _ _ _ | CreateToken | RevokeAllTokens | SetEmail _ | CreateNotification _
  | ToggleNotification _ | AddNotificationSource _ _ => "POST"
  | RemoveProduct _ | RemoveSource _ | RevokeToken _ | RemoveNotification _
  | RemoveNotificationSource _ _ => "DELETE"
  | _ => "GET"
  end.

Section Routes.
Context {W S : Type} `{AppPorts W} `{StateStore S} `{Hmac}.
Variable D : Deployment.

Abbreviation handler := (M (Web W S) outcome).

(** ** routers/admin.py and routers/protected.py *)

Definition render_admin (principal : Principal) (csrf : string) (form_error site_saved : option string)
    (status : Z) : handler :=
  let! registry := on_app (list_config principal.(owner_id)) in
  responds (respond status (AdminPage (base_ctx principal csrf "admin") (sites registry) form_error site_saved)).

(** The two [except] clauses: the message and the status of the page. *)
Definition try_add_site (principal : Principal) (spec : SiteConfig) : M (Web W S) (option (string * Z)) :=
  mtry (let! _ := on_app (add_site principal spec) in mret' None)
    (λ e, mret' (Some (if is_a e.(exn_class) PermissionError
                       then (latin1 "Action réservée aux administrateurs.", 403)
                       else (latin1 "Site refusé : nom déjà pris ou configuration invalide.", 400)))).

Definition web_add_site (principal : Principal) (csrf : string) (form : SiteForm) : handler :=
  let spec := site_of_form form in
  let! refused := try_add_site principal spec in
  match refused with
  | Some (message, status) => render_admin principal csrf (Some message) None status
  | None => render_admin principal csrf None (Some spec.(site_name)) 200
  end.

Definition role_body (principal : Principal) : handler :=
  responds (respond 200 (Json [("role", principal.(role))])).

(** What a route does once its router has let the request through. *)
Definition handle (e : endpoint) (principal : Principal) (csrf : string) (env : Env) : handler :=
  match e with
  | Me | Whoami => role_body principal
  | AdminHome => render_admin principal csrf None None 200
  | AddSite f => web_add_site principal csrf f
  | Dashboard => dashboard D principal csrf env
  | RunNow => web_run_now D principal env
  | History s => web_history principal csrf s
  | Products => web_products principal csrf
  | AddProduct k n => web_add_product principal csrf k n
  | AddSource k s u => web_add_source D principal csrf k s u
  | RemoveProduct k => web_remove_product principal k
  | RemoveSource s => web_remove_source principal s
  | Profile => profile principal csrf env
  | CreateToken => web_create_token D principal csrf env
  | RevokeToken t => web_revoke_token principal t
  | RevokeAllTokens => revoke_all_tokens D principal
  | SetEmail m => web_set_email principal csrf m env
  | Notifications => notifications principal csrf
  | CreateNotification f => create_notification D principal csrf f
  | ToggleNotification j => toggle_notification D principal j
  | RemoveNotification j => remove_notification principal j
  | AddNotificationSource j s => add_notification_source principal j s
  | RemoveNotificationSource j s => remove_notification_source principal j s
  | PreviewNotification j => preview_notification D principal csrf j env
  | _ => mret' not_found
  end.

Definition handle_public (e : endpoint) (request : Request) (env : Env) : handler :=
  match e with
  | Health => responds (respond 200 (Json [("status", "ok")]))
  | Login i p => login D i p env
  | Logout => logout D request env
  | LoginForm => login_form
  | LoginSubmit i p => login_submit D i p env
  | LogoutSubmit => logout_submit D request env
  | _ => mret' not_found
  end.

(** The dependencies of a router, in the order it lists them. *)
Definition gate (r : router) (request : Request) (principal : Principal) : option http_exception :=
  let csrf := verify_csrf request D.(d_cookie) D.(d_csrf_secret) in
  match r with
  | PublicRouter | ProtectedRouter => None
  | AdminRouter => match require_admin principal with Some e => Some e | None => csrf end
  | TenantRouter => csrf
  end.

Definition serve (e : endpoint) (request : Request) (env : Env) : handler :=
  if negb (bool_decide (request.(method) = endpoint_method e))
  then mret' (Fails (HTTPException 405 "Method Not Allowed"))
  else if bool_decide (router_of e = PublicRouter) then handle_public e request env
  else
    let! session := verify_session D request env in
    match session with
    | inl error => mret' (Fails error)
    | inr principal =>
        match gate (router_of e) request principal with
        | Some error => mret' (Fails error)
        | None => handle e principal
                    (csrf_token_for request D.(d_cookie) D.(d_csrf_secret)) env
        end
    end.

(** ** app.py *)

Definition wants_html (request : Request) : bool := contains_text (chars request.(accept)) (chars "text/html").

(** [_auth_error_handler]. *)
Definition error_response (request : Request) (e : http_exception) : Response :=
  let '(HTTPException status detail) := e in
  if bool_decide (status ∈ [401; 403]) && wants_html request
  then respond status (ErrorPage (if bool_decide (status = 401) then "errors/401.html" else "errors/403.html"))
  else respond status (Json [("detail", detail)]).

(** A request through the application; [Raise] is a 500. *)
Definition answer (e : endpoint) (request : Request) (env : Env) : M (Web W S) Response :=
  let! o := serve e request env in
  mret' (match o with Responds r => r | Fails error => error_response request error end).
End Routes.

(** A deployment with two accounts, and a browser. *)
Module WebDemo.
Import SessionDemo.

Definition deployment : Deployment := {|
  d_sha256 := AuthDemo.sha; d_url_digest := ServiceDemo.digest; d_ph_verify := AuthDemo.argon;
  d_dummy_hash := "dummy"; d_session_ttl := AuthDemo.ttl; d_token_ttl := AuthDemo.ttl;
  d_window := 900 * US_PER_SECOND; d_max_attempts := 5; d_row_cap := 10000;
  d_timezones := TIMEZONES; d_domain_policy := catalogue_domain_allowed;
  d_zone_info := λ _, raise KeyError "no zone"; d_render_file := λ _ _, Ok "<html>";
  d_to_float := λ _, raise ValueError "could not convert string to float";
  d_queue := {| max_consumer_restarts := 3; cooldown_seconds := 60; backlog_warn_threshold := 10 |};
  d_cookie := cookie; d_csrf_secret := "k" |}.

Definition env : Env :=
  {| gate_now := AuthDemo.t0 + US_PER_SECOND; now := AuthDemo.t0; later := AuthDemo.t0;
     monotonic := 0; fresh_secret := "sid"; fresh_id := "t1" |}.

Definition bia_row : OwnerRow :=
  {| o_id := "2"; o_name := "bia"; o_email := Some "bia@x.br"; o_role := "admin"; o_state := "active";
     o_password_hash := None; o_created_at := None |}.

(** ["1"] follows one product; the other owner, when there is one, follows one
    too. *)
Definition web_of (others : list OwnerRow) (setup : list cmd) : Web nat StateDb :=
  {| web_db := {| cfg := run ([ConfigStore.AddSite ConfigDemo.kabum; ConfigStore.AddProduct "1" ConfigDemo.gpu;
                               ConfigStore.AddSource "1" ConfigDemo.src] ++ setup)
                             (set_owners (AuthDemo.ana_row :: others) empty_config_db);
                  sessions := []; tokens := []; attempts := [] |};
     web_argon2 := 0; web_state := empty_state_db; web_world := 0%nat; web_queue := RunQueue.init |}.

Definition alone : Web nat StateDb := web_of [] [].
Definition shared : Web nat StateDb :=
  web_of [bia_row] [ConfigStore.AddProduct "2" {| prod_id := "secret"; prod_name := None; prod_sources := [] |}].

Definition ana : Principal := AuthDemo.ana.

Definition request (m : string) (value token : option string) : Request :=
  {| method := m; session_cookie := value; csrf_header := token; form_token := None; accept := "text/html" |}.

Definition login_request : Request := request "POST" None None.
(** After [ana] logged in. *)
Definition logged_in : Web nat StateDb :=
  snd (serve deployment (LoginSubmit "ana" "s3cret") login_request env shared).
Definition ana_cookie : option string := Some (issue cookie "sid").
Definition ana_token : option string := Some (issue_csrf "k" "sid").

Definition status_of (r : result outcome * Web nat StateDb) : option Z :=
  match fst r with
  | Ok (Responds r) => Some (r_status r)
  | Ok (Fails (HTTPException s _)) => Some s
  | Raise _ => None
  end.

(** Login, a page, a write without and with the token, and another's product. *)
Example statuses :
  (status_of (serve deployment (LoginSubmit "ana" "s3cret") login_request env shared),
   status_of (serve deployment (LoginSubmit "ana" "wrong") login_request env shared),
   status_of (serve deployment Products (request "GET" ana_cookie None) env logged_in),
   status_of (serve deployment Products (request "GET" None None) env logged_in),
   status_of (serve deployment (RemoveProduct "gpu") (request "DELETE" ana_cookie None) env logged_in),
   status_of (serve deployment (RemoveProduct "gpu") (request "DELETE" ana_cookie ana_token) env logged_in),
   status_of (serve deployment (RemoveProduct "secret") (request "DELETE" ana_cookie ana_token) env logged_in),
   status_of (serve deployment AdminHome (request "GET" ana_cookie None) env logged_in))
  = (Some 303, Some 401, Some 200, Some 401, Some 403, Some 204, Some 404, Some 403).
Proof. vm_compute. reflexivity. Qed.

Lemma web_of_wf others setup : Forall cmd_ok setup → wf (cfg (web_db (web_of others setup))).
Proof.
  intros Hs. cbn [web_of web_db cfg]. apply wf_run.
  - split; cbn; try constructor; set_solver.
  - apply Forall_app. split; [by repeat constructor | done].
Qed.

Lemma shared_wf : wf (cfg (web_db shared)).
Proof. apply web_of_wf. by repeat constructor. Qed.
Lemma alone_wf : wf (cfg (web_db alone)).
Proof. by apply web_of_wf. Qed.
End WebDemo.
