(* ===== verification/WebGate.v ===== *)
(** Who is let through to the handlers of [Web]: the routers, the session and
    the CSRF token, and the life of a login seen from the browser. *)

From S2P Require Import Text Prelude RunQueue Domain Orchestrator StateStore DateTime Registry ConfigStore Safety Digest Services Auth Session Filters Web.

Section Gate.
Context {W S : Type} `{AppPorts W} `{StateStore S} `{LawfulHmac}.
Variable D : Deployment.

Abbreviation web := (Web W S).

(** The principal a session id stands for. *)
Definition session_principal (w : web) (session_id : string) (t : Z) : option Principal :=
  principal_of <$> AuthStore.resolve_session (D.(d_sha256) session_id) (isoformat t) (web_db w).

(** What it takes to act as [p] on a guarded route: the right method, a cookie
    issued for a live session of [p], the role of the router, and, on an
    unsafe method, the token of that same session. *)
Record authorised (e : endpoint) (request : Request) (env : Env) (w : web) (p : Principal) : Prop := {
  au_method : method request = endpoint_method e;
  au_session : ∃ sid, sid ≠ "" ∧ session_cookie request = Some (issue D.(d_cookie) sid)
                      ∧ session_principal w sid env.(gate_now) = Some p;
  au_admin : router_of e = AdminRouter → role p = "admin";
  au_token : endpoint_method e ∉ SAFE_METHODS → router_of e ≠ ProtectedRouter →
             carries_token request D.(d_cookie) D.(d_csrf_secret);
}.

Lemma verify_session_spec request env (w : web) :
  verify_session D request env w =
  (Ok (match session_id_from_request request D.(d_cookie) ≫= λ sid, session_principal w sid env.(gate_now) with
       | Some p => inr p
       | None => inl (HTTPException 401 "invalid or expired session")
       end), w).
Proof.
  unfold verify_session, session_id_from_request. destruct (read _ _) as [sid |]; [| by destruct w].
  unfold on_auth, mbind', Auth.verify_session, mgets, mret', session_principal. cbn.
  destruct w as [db n st wd q]. cbn. by destruct (_ <$> _).
Qed.

Lemma session_of_request request env (w : web) p :
  (session_id_from_request request D.(d_cookie) ≫= λ sid, session_principal w sid env.(gate_now)) = Some p ↔
  ∃ sid, sid ≠ "" ∧ session_cookie request = Some (issue D.(d_cookie) sid)
         ∧ session_principal w sid env.(gate_now) = Some p.
Proof.
  rewrite bind_Some. setoid_rewrite read_request. naive_solver.
Qed.

Lemma gate_spec r request p :
  gate D r request p = None ↔
  (r = AdminRouter → role p = "admin")
  ∧ (r ∈ [AdminRouter; TenantRouter] →
       method request ∈ SAFE_METHODS ∨ carries_token request D.(d_cookie) D.(d_csrf_secret)).
Proof.
  destruct r; cbn [gate].
  1, 2: split; [intros _; split; [done | set_solver] | done].
  - unfold require_admin. case_bool_decide.
    + rewrite verify_csrf_pass. set_solver.
    + split; [done | naive_solver].
  - rewrite verify_csrf_pass. split; [| set_solver]. intros Hc. by split.
Qed.

Lemma gate_error r request p error :
  gate D r request p = Some error → ∃ detail, error = HTTPException 403 detail.
Proof.
  assert (∀ e, verify_csrf request (d_cookie D) (d_csrf_secret D) = Some e → ∃ detail, e = HTTPException 403 detail) as Hc
    by (unfold verify_csrf; intros e; repeat case_match; intros [= <-]; eauto).
  destruct r; cbn [gate]; [done | done | | apply Hc].
  unfold require_admin. case_bool_decide; [apply Hc | intros [= <-]; eauto].
Qed.

Lemma authorised_unique e request env (w : web) p q :
  authorised e request env w p → authorised e request env w q → p = q.
Proof.
  intros [_ Hp _ _] [_ Hq _ _]. apply session_of_request in Hp, Hq. congruence.
Qed.

(** C6: the guarded routes.  Every route but the public ones runs its handler
    exactly for the principal that is authorised, with the CSRF token of its
    session; any other request is a 401, a 403 or a 405 and changes nothing at
    all, neither the databases nor the queue. *)
Theorem guarded_routes (e : endpoint) (request : Request) (env : Env) (w : web) :
  router_of e ≠ PublicRouter →
  (∀ p, authorised e request env w p →
     serve D e request env w
     = handle D e p (csrf_token_for request D.(d_cookie) D.(d_csrf_secret)) env w)
  ∧ ((∀ p, ¬ authorised e request env w p) →
     ∃ status detail, status ∈ [401; 403; 405]
       ∧ serve D e request env w = (Ok (Fails (HTTPException status detail)), w)).
Proof.
  intros Hr. unfold serve.
  destruct (decide (method request = endpoint_method e)) as [Hm | Hm].
  2: { rewrite (bool_decide_eq_false_2 _ Hm). split; [by intros p [] | intros _].
       exists 405, "Method Not Allowed". split; [set_solver | done]. }
  rewrite (bool_decide_eq_true_2 _ Hm), (bool_decide_eq_false_2 _ Hr). cbn [negb].
  unfold mbind'. rewrite verify_session_spec.
  destruct (_ ≫= _) as [p |] eqn:Es.
  - assert (authorised e request env w p ↔ gate D (router_of e) request p = None) as Hg.
    { apply session_of_request in Es. rewrite gate_spec, Hm. split.
      - intros [_ _ Ha Ht]. split; [done |]. intros Hin.
        destruct (decide (endpoint_method e ∈ SAFE_METHODS)); [by left | right].
        apply Ht; [done |]. intros Ep. rewrite Ep in Hin. set_solver.
      - intros [Ha Ht]. split; try done. intros Hs Hp.
        destruct Ht as [|]; [| done | done].
        destruct (router_of e); try done; rewrite !elem_of_cons; tauto. }
    split.
    + intros q Hq. assert (q = p) as ->.
      { destruct Hq as [_ (sid & Hs & Hc & Hq) _ _].
        rewrite (proj2 (session_of_request request env w q)) in Es by eauto. congruence. }
      cbn. by rewrite (proj1 Hg Hq).
    + intros Hno. destruct (gate D (router_of e) request p) as [error |] eqn:Eg.
      * destruct (gate_error _ _ _ _ Eg) as [detail ->]. exists 403, detail. split; [set_solver |]. reflexivity.
      * destruct (Hno p). by apply Hg.
  - split.
    + intros p [_ Hp _ _]. apply session_of_request in Hp. congruence.
    + intros _. exists 401, "invalid or expired session". split; [set_solver | done].
Qed.

(** ** A login, seen from the browser *)

(** The routes that log in, with the identifier and the password. *)
Definition login_route (e : endpoint) : option (string * string) :=
  match e with Login i p | LoginSubmit i p => Some (i, p) | _ => None end.

(** The session id of the cookie a response sets, if it sets one. *)
Definition cookie_set (r : Response) (value : string) : Prop :=
  ∃ c, r_cookie r = Some c ∧ ck_value c = Some value
       ∧ ck_httponly c = true ∧ ck_secure c = cookie_secure D.(d_cookie)
       ∧ ck_max_age c = Some (session_ttl_seconds D).

Lemma on_auth_run {A} (m : M Auth A) (w : web) :
  on_auth m w =
  let '(r, a) := m (mkAuth (web_db w) (web_argon2 w)) in
  (r, mkWeb (auth_db a) (argon2_calls a) (web_state w) (web_world w) (web_queue w)).
Proof. done. Qed.

(** A login that is let through, as one step. *)
Lemma login_steps e i pw request env (w w' : web) r :
  login_route e = Some (i, pw) → method request = endpoint_method e →
  serve D e request env w = (Ok (Responds r), w') →
  ∃ answer w1, check_login D i pw env w = (Ok answer, w1)
    ∧ match answer with
      | (Some p, None) => ∃ c, open_session D p env w1 = (Ok c, w') ∧ r_cookie r = Some c
      | _ => w' = w1 ∧ r_cookie r = None
      end.
Proof.
  intros He Hm. unfold serve. rewrite (bool_decide_eq_true_2 _ Hm). cbn [negb].
  destruct e; try done; injection He as <- <-; cbn [router_of handle_public];
    rewrite (bool_decide_eq_true_2 (PublicRouter = PublicRouter)) by done;
    unfold login, login_submit, mbind'.
  all: destruct (check_login _ _ _ _ _) as [[[op d] | x] w1]; [| done].
  all: intros Hr; exists (op, d), w1; (split; [done |]); revert Hr.
  all: destruct d as [d |], op as [p |]; try (intros [= <- <-]; done); try done.
  all: destruct (open_session D p env w1) as [[c | x] w2]; [| done]; intros [= <- <-]; by exists c.
Qed.

Lemma open_session_resolves p env (w w' : web) c :
  open_session D p env w = (Ok c, w') →
  ck_value c = Some (issue D.(d_cookie) (fresh_secret env))
  ∧ ck_httponly c = true ∧ ck_secure c = cookie_secure D.(d_cookie)
  ∧ ck_max_age c = Some (session_ttl_seconds D)
  ∧ ∀ t, timely D.(d_session_ttl) (later env) t →
      session_principal w' (fresh_secret env) t
      = if bool_decide (t < later env + D.(d_session_ttl))
        then active_principal (owner_id p) (web_db w) else None.
Proof.
  unfold open_session, on_auth, mbind'.
  destruct (Auth.create_session _ _ _ _ _ _) as [[sid | x] a] eqn:Ec; [| done]. intros [= <- <-].
  assert (sid = fresh_secret env) as ->.
  { revert Ec. unfold Auth.create_session, mbind'. by destruct (Auth.on_db _ _) as [[] ?]; intros [= <- _]. }
  split_and!; try done. intros t Ht. unfold session_principal. cbn [web_db].
  rewrite (created_session_resolves _ _ p (fresh_secret env) (later env) t _ _ Ec Ht).
  unfold active_principal. by case_bool_decide.
Qed.

(** Checking a login touches the counters of attempts only. *)
Lemma check_login_sessions i pw env (w w1 : web) x :
  check_login D i pw env w = (x, w1) →
  sessions (web_db w1) = sessions (web_db w) ∧ cfg (web_db w1) = cfg (web_db w).
Proof.
  set (same := λ a : Auth, sessions (auth_db a) = sessions (web_db w) ∧ cfg (auth_db a) = cfg (web_db w)).
  assert (∀ h password, pres same (verify D.(d_ph_verify) h password)) as Hv
    by (intros h password a Ha; exact Ha).
  assert (∀ password, pres same (dummy_verify D.(d_ph_verify) D.(d_dummy_hash) password)) as Hd
    by (intros password; apply pres_bind; [apply Hv | auto with kerdoos]).
  assert (pres same (check_and_authenticate D.(d_ph_verify) D.(d_dummy_hash) D.(d_window)
            D.(d_max_attempts) D.(d_row_cap) i pw env.(now))) as Hp.
  { unfold check_and_authenticate. apply pres_bind.
    { intros a Ha. unfold Auth.on_db, AuthStore.reserve_login_attempt, AuthStore.reserve_write.
      by repeat case_match; simplify_eq/=. }
    intros [d |]; [apply pres_ret |]. apply pres_bind.
    { unfold authenticate. apply pres_bind; [by intros a Ha | intros db].
      repeat case_match; auto with kerdoos. }
    intros op. apply pres_bind; [| auto with kerdoos]. destruct op; [| apply pres_ret].
    intros a Ha. unfold Auth.on_db, mmodify, AuthStore.record_login_success. by case_match. }
  unfold check_login, on_auth. specialize (Hp (mkAuth (web_db w) (web_argon2 w)) (conj eq_refl eq_refl)).
  destruct (check_and_authenticate _ _ _ _ _ _ _ _ _) as [y a]. intros [= <- <-]. exact Hp.
Qed.

(** C7: the life of a login in the browser.  A login sets a cookie only when
    the password check let it through, and then every request that sends the
    cookie back, until the session expires, is the owner's who logged in
    (while that owner is active) and nobody's afterwards; a login that is
    refused or limited sets no cookie and opens no session.  The cookie is
    hidden from scripts and lives as long as the session. *)
Theorem login_cookie_session (e : endpoint) (i pw : string) (request : Request) (env : Env)
    (w w' : web) (r : Response) :
  login_route e = Some (i, pw) → method request = endpoint_method e → fresh_secret env ≠ "" →
  serve D e request env w = (Ok (Responds r), w') →
  match r_cookie r with
  | None => sessions (web_db w') = sessions (web_db w)
  | Some c =>
      ck_httponly c = true ∧ ck_secure c = cookie_secure D.(d_cookie)
      ∧ ck_max_age c = Some (session_ttl_seconds D)
      ∧ ∃ p, (∃ w1, check_login D i pw env w = (Ok (Some p, None), w1))
        ∧ ∀ request' env', session_cookie request' = ck_value c →
            timely D.(d_session_ttl) (later env) (gate_now env') →
            fst (verify_session D request' env' w')
            = Ok (match (if bool_decide (gate_now env' < later env + D.(d_session_ttl))
                         then active_principal (owner_id p) (web_db w) else None) with
                  | Some q => inr q
                  | None => inl (HTTPException 401 "invalid or expired session")
                  end)
  end.
Proof.
  intros He Hm Hs Hr. destruct (login_steps _ _ _ _ _ _ _ _ He Hm Hr) as ([op d] & w1 & Hc & Hrest).
  destruct (check_login_sessions _ _ _ _ _ _ Hc) as [Hse Hcfg].
  destruct op as [p |], d as [d |]; try (destruct Hrest as [-> ->]; done).
  destruct Hrest as (c & Ho & ->).
  destruct (open_session_resolves _ _ _ _ _ Ho) as (Hv & Hh & Hsec & Hage & Hlive).
  split_and!; try done. exists p. split; [by exists w1 |].
  intros request' env' Hcookie Ht. rewrite verify_session_spec. cbn [fst].
  rewrite (proj2 (read_request request' D.(d_cookie) (fresh_secret env))) by (by rewrite Hcookie).
  cbn [mbind option_bind]. rewrite (Hlive _ Ht).
  unfold active_principal, AuthStore.active_owner, auth_owners. by rewrite Hcfg.
Qed.

(** The two logout routes. *)
Definition logout_route (e : endpoint) : bool :=
  match e with Logout | LogoutSubmit => true | _ => false end.

(** logging out.  Whatever cookie comes with it, a logout succeeds and
    clears the cookie; if the cookie carried a live session, that session is
    nobody's from then on, at any time, and the others are as they were; if it
    did not, nothing at all changes. *)
Theorem logout_ends_session (e : endpoint) (request : Request) (env : Env) (w : web) :
  logout_route e = true → method request = endpoint_method e →
  ∃ r w', serve D e request env w = (Ok (Responds r), w')
    ∧ r_cookie r = Some (clear_kwargs D.(d_cookie))
    ∧ match session_id_from_request request D.(d_cookie) ≫= λ sid,
              (λ p, (sid, p)) <$> session_principal w sid env.(now) with
      | None => w' = w
      | Some (sid, _) =>
          (∀ t, session_principal w' sid t = None)
          ∧ (∀ other t, D.(d_sha256) other ≠ D.(d_sha256) sid →
               session_principal w' other t = session_principal w other t)
      end.
Proof.
  intros He Hm.
  assert (∃ r, r_cookie r = Some (clear_kwargs (d_cookie D))
            ∧ serve D e request env w = mbind' (close_session D request env) (λ _, mret' (Responds r)) w) as (r & Hck & ->).
  { unfold serve. rewrite (bool_decide_eq_true_2 _ Hm). cbn [negb].
    by destruct e; try done; eexists; (split; [| reflexivity]). }
  unfold close_session, session_id_from_request.
  destruct (read (d_cookie D) (session_cookie request)) as [sid |] eqn:Es; cbn [mbind option_bind].
  2: { by exists r, w. }
  unfold mbind', on_auth, Auth.verify_session, mgets. cbn [auth_db].
  change (principal_of <$> AuthStore.resolve_session (d_sha256 D sid) (isoformat (now env)) (web_db w))
    with (session_principal w sid (now env)).
  destruct (session_principal w sid (now env)) as [p |] eqn:Ep; cbn [fmap option_fmap option_map].
  2: { exists r, w. split_and!; [by destruct w | done | done]. }
  exists r. eexists. split; [done |]. split; [done |]. split.
  - intros t. unfold session_principal. cbn. by rewrite deleted_session_resolves.
  - intros other t Hne.
    exact (f_equal (fmap principal_of) (deleted_session_other _ _ (isoformat t) (web_db w) Hne)).
Qed.
End Gate.

(** * Instances *)

Import SessionDemo.

Lemma guarded_routes_witness :
  authorised WebDemo.deployment (RemoveProduct "gpu")
    (WebDemo.request "DELETE" WebDemo.ana_cookie WebDemo.ana_token) WebDemo.env WebDemo.logged_in WebDemo.ana
  ∧ serve WebDemo.deployment (RemoveProduct "gpu")
      (WebDemo.request "DELETE" WebDemo.ana_cookie WebDemo.ana_token) WebDemo.env WebDemo.logged_in
    = web_remove_product WebDemo.ana "gpu" WebDemo.logged_in.
Proof.
  assert (authorised WebDemo.deployment (RemoveProduct "gpu")
    (WebDemo.request "DELETE" WebDemo.ana_cookie WebDemo.ana_token) WebDemo.env WebDemo.logged_in WebDemo.ana) as Ha.
  { split; [reflexivity | | discriminate |].
    - exists "sid". split_and!; [discriminate | reflexivity | vm_compute; reflexivity].
    - intros _ _. exists "sid". vm_compute. naive_solver. }
  split; [exact Ha |].
  destruct (guarded_routes WebDemo.deployment (RemoveProduct "gpu")
    (WebDemo.request "DELETE" WebDemo.ana_cookie WebDemo.ana_token) WebDemo.env WebDemo.logged_in) as [Hs _];
    [discriminate |].
  exact (Hs WebDemo.ana Ha).
Defined.

Lemma login_cookie_session_witness :
  fst (verify_session WebDemo.deployment (WebDemo.request "GET" WebDemo.ana_cookie None)
         WebDemo.env WebDemo.logged_in) = Ok (inr WebDemo.ana).
Proof.
  destruct (serve WebDemo.deployment (LoginSubmit "ana" "s3cret") WebDemo.login_request WebDemo.env WebDemo.shared)
    as [[[r | e] | e] w] eqn:Hr; try (vm_compute in Hr; discriminate Hr).
  assert (w = WebDemo.logged_in) as -> by (exact (eq_sym (f_equal snd Hr))).
  pose proof (login_cookie_session WebDemo.deployment (LoginSubmit "ana" "s3cret") "ana" "s3cret"
    WebDemo.login_request WebDemo.env WebDemo.shared WebDemo.logged_in r eq_refl eq_refl) as Hl.
  specialize (Hl ltac:(discriminate) Hr).
  assert (r_cookie r = Some (set_kwargs cookie (issue cookie "sid") 1209600)) as Hc
    by (vm_compute in Hr; injection Hr as <-; vm_compute; reflexivity).
  rewrite Hc in Hl. destruct Hl as (_ & _ & _ & p & (w1 & Hp) & Hlive).
  assert (p = WebDemo.ana) as -> by (vm_compute in Hp; injection Hp as <-; reflexivity).
  rewrite (Hlive (WebDemo.request "GET" WebDemo.ana_cookie None) WebDemo.env);
    [vm_compute; reflexivity | vm_compute; reflexivity |].
  clear. vm_compute. split_and!; (reflexivity || (intros E; discriminate E)).
Defined.

Lemma logout_ends_session_witness :
  ∃ r w', serve WebDemo.deployment Logout (WebDemo.request "POST" WebDemo.ana_cookie None) WebDemo.env WebDemo.logged_in
    = (Ok (Responds r), w')
    ∧ ∀ t, session_principal WebDemo.deployment w' "sid" t = None.
Proof.
  destruct (logout_ends_session WebDemo.deployment Logout (WebDemo.request "POST" WebDemo.ana_cookie None)
    WebDemo.env WebDemo.logged_in) as (r & w' & Hr & _ & Hs); [reflexivity | reflexivity |].
  exists r, w'. split; [exact Hr |].
  assert (∃ p, session_id_from_request (WebDemo.request "POST" WebDemo.ana_cookie None) (d_cookie WebDemo.deployment)
            ≫= (λ sid, (λ p, (sid, p)) <$> session_principal WebDemo.deployment WebDemo.logged_in sid (now WebDemo.env))
          = Some ("sid", p)) as [p Hp] by (exists WebDemo.ana; vm_compute; reflexivity).
  rewrite Hp in Hs. apply Hs.
Defined.
