(* ===== verification/WebIsolation.v ===== *)
(** What one owner's requests can see and touch.

    A handler of [Web] is made of service calls and of computations on what
    they answer, so it respects every relation between two states that its
    calls respect: [handle_twice] is that fact, once for all the routes.  With
    different relations it says that reading changes nothing, that nobody
    touches another owner's rows, and that nobody's answers depend on them. *)

From S2P Require Import Text Prelude RunQueue Domain Orchestrator StateStore DateTime Registry ConfigStore Safety Tenancy Digest Services Auth Session Filters Web.

(** * Lifting *)

Lemma twice_ext {S A} (R : S → S → Prop) (m m' : M S A) :
  (∀ s, m s = m' s) → twice R m' → twice R m.
Proof. intros E Hm s1 s2 Hs. rewrite !E. by apply Hm. Qed.

(** Keeping [J] is a fact about two equal states. *)
Definition both {S} (J : S → Prop) (s1 s2 : S) : Prop := s1 = s2 ∧ J s1.

Lemma twice_both {S A} (J : S → Prop) (m : M S A) : twice (both J) m ↔ pres J m.
Proof.
  split.
  - intros Hm s Hs. by destruct (Hm s s (conj eq_refl Hs)) as [_ [_ HJ]].
  - intros Hm s _ [<- Hs]. split; [done |]. split; [done | by apply Hm].
Qed.

Section Lifting.
Context {W S : Type}.

Lemma on_app_bind {A B} (m : M (App W S) A) (k : A → M (App W S) B) (w : Web W S) :
  on_app (mbind' m k) w = mbind' (on_app m) (λ a, on_app (k a)) w.
Proof.
  unfold on_app, mbind'. destruct w as [db n st wd q]. cbn. destruct (m _) as [[x | e] a]; [| done].
  destruct a as [c st' wd']. cbn. destruct (k x _) as [r a']. by destruct db, a'.
Qed.

Lemma on_app_lift {A} (r : result A) (w : Web W S) : on_app (mlift r) w = mlift r w.
Proof. destruct w as [[] ? ? ? ?]. done. Qed.
End Lifting.

(** * The handlers *)

Section Respect.
Context {W S : Type} `{AppPorts W} `{StateStore S} `{Hmac}.
Variable D : Deployment.
Variable R : Web W S → Web W S → Prop.
Variables (p : Principal) (env : Env).

Notation o := (owner_id p).

(** The calls that read. *)
Record reads : Prop := {
  rd_state : twice R (on_app (list_state o));
  rd_config : twice R (on_app (list_config o));
  rd_history : ∀ s, twice R (on_app (get_history o s 50));
  rd_jobs : twice R (on_app (list_jobs_with_status o));
  rd_job : ∀ j, twice R (on_app (get_job o j));
  rd_tokens : ∀ t, twice R (on_auth (list_tokens p t));
  rd_email : twice R (on_auth (get_email p));
  rd_status : twice R (mgets (λ w, status_for o (web_queue w)));
  rd_cooldown : twice R (mgets (λ w, cooldown_remaining_seconds D.(d_queue) o env.(monotonic) (web_queue w)));
  rd_policy : twice R (mgets (λ w, D.(d_domain_policy) (cfg (web_db w))));
}.

(** The calls a route writes with. *)
Definition writes (e : endpoint) : Prop :=
  match e with
  | Dashboard => twice R (backlog_depth D p)
  | AddSite f => twice R (on_app (add_site p (site_of_form f)))
  | RunNow => twice R (on_queue (enqueue D.(d_queue) o env.(monotonic)))
  | AddProduct k n =>
      twice R (on_app (add_product o {| spec_key := strip_text k; spec_name := strip_or_none n |}))
  | AddSource k s u =>
      twice R (on_app (add_source D.(d_url_digest) D.(d_domain_policy) o
                         (strip_text k) (strip_text s) (strip_text u)))
  | RemoveProduct k => twice R (on_app (remove_product o k))
  | RemoveSource s => twice R (on_app (remove_source o s))
  | CreateToken => twice R (on_auth (Auth.create_token D.(d_sha256) D.(d_token_ttl) p
                                       env.(fresh_secret) env.(fresh_id) env.(now)))
  | RevokeToken t => twice R (on_auth (Auth.revoke_token p t))
  | RevokeAllTokens => twice R (on_auth (revoke_all p o))
  | SetEmail m => twice R (on_auth (set_email p (strip_or_none m)))
  | CreateNotification f =>
      ∀ options, twice R (on_app (create_job D.(d_timezones) p (spec_of_form f options)))
  | ToggleNotification j => ∀ spec, twice R (on_app (update_job D.(d_timezones) o j spec))
  | RemoveNotification j => twice R (on_app (delete_job o j))
  | AddNotificationSource j s => twice R (on_app (add_job_source o j (strip_text s)))
  | RemoveNotificationSource j s => twice R (on_app (remove_job_source o j s))
  | _ => True
  end.

Context (Hr : reads).

Lemma twice_mcatch {A} classes (m h : M (Web W S) A) :
  twice R m → twice R h → twice R (mcatch classes m h).
Proof. intros Hm Hh. apply twice_try; [done |]. intros e. case_match; auto with kerdoos. Qed.

Lemma twice_accepted {A} classes (m : M (App W S) A) :
  twice R (on_app m) → twice R (accepted classes m).
Proof. intros Hm. apply twice_mcatch; auto with kerdoos. Qed.

Lemma twice_responds r : twice R (responds r).
Proof. apply twice_ret. Qed.

Hint Resolve rd_state rd_config rd_history rd_jobs rd_job rd_tokens rd_email rd_status rd_cooldown
  rd_policy twice_mcatch twice_accepted twice_responds : kerdoos.

(** One bind after another. *)
Ltac two_runs :=
  repeat match goal with
  | |- twice _ (mbind' _ _) => apply twice_bind; [| intros ?]
  | |- twice _ (match ?x with _ => _ end) => destruct x
  end; auto with kerdoos.

Lemma render_products_twice csrf err st : twice R (render_products p csrf err st).
Proof. unfold render_products. two_runs. Qed.

Lemma render_notifications_twice csrf err st : twice R (render_notifications p csrf err st).
Proof. unfold render_notifications. two_runs. Qed.

Lemma render_admin_twice csrf err saved st : twice R (render_admin p csrf err saved st).
Proof. unfold render_admin. two_runs. Qed.

Hint Resolve render_products_twice render_notifications_twice render_admin_twice : kerdoos.

Lemma toggle_twice j : writes (ToggleNotification j) → twice R (toggle_notification D p j).
Proof.
  intros Hw. unfold toggle_notification. apply twice_bind; [| intros []; auto with kerdoos].
  apply twice_accepted. eapply twice_ext; [intros w; apply on_app_bind |].
  apply twice_bind; [auto with kerdoos | intros job].
  eapply twice_ext; [intros w; apply on_app_bind |].
  apply twice_bind; [| apply Hw]. eapply twice_ext; [intros w; apply on_app_lift |]. apply twice_lift.
Qed.

Lemma handle_twice e csrf : writes e → twice R (handle D e p csrf env).
Proof.
  intros Hw. destruct e; cbn [handle writes] in *; auto using toggle_twice with kerdoos.
  all: unfold role_body, web_add_site, try_add_site, dashboard, web_run_now, web_history, web_products,
    web_add_product, web_add_source, web_remove_product, web_remove_source, profile, web_create_token,
    web_revoke_token, revoke_all_tokens, web_set_email, try_set_email, notifications, create_notification,
    remove_notification, add_notification_source, remove_notification_source, preview_notification,
    find_owned_job, not_found; two_runs.
  all: try (apply twice_try; [| auto with kerdoos]; two_runs).
  all: apply twice_mcatch; two_runs; apply twice_mcatch; two_runs.
Qed.
End Respect.

(** * Reading *)

Section Reading.
Context {W S : Type} `{AppPorts W} `{StateStore S} `{Hmac}.
Variable D : Deployment.

(** A call to the services keeps what it keeps of the two databases. *)
Lemma pres_on_app {A} (J : AuthDb → Z → RunQueue.RunQueue → Prop) (m : M (App W S) A) :
  (∀ db n q, J db n q → pres (λ a, J (set_cfg (config a) db) n q) m) →
  pres (λ w, J (web_db w) (web_argon2 w) (web_queue w)) (on_app m).
Proof.
  intros Hm [db n st wd q] HJ. cbn in HJ.
  specialize (Hm db n q HJ (mkApp (cfg db) st wd)). unfold on_app. cbn.
  assert (set_cfg (cfg db) db = db) as E by (by destruct db).
  cbn in Hm. rewrite E in Hm. specialize (Hm HJ). destruct (m _) as [r a]. exact Hm.
Qed.

Lemma pres_on_auth {A} (J : AuthDb → Z → RunQueue.RunQueue → Prop) (m : M Auth A) :
  (∀ q, pres (λ a, J (auth_db a) (argon2_calls a) q) m) →
  pres (λ w : Web W S, J (web_db w) (web_argon2 w) (web_queue w)) (on_auth m).
Proof.
  intros Hm [db n st wd q] HJ. specialize (Hm q (mkAuth db n) HJ). unfold on_auth. cbn.
  by destruct (m _).
Qed.

(** The reads of the services write neither database. *)
Lemma reads_keep (J : AuthDb → Z → RunQueue.RunQueue → Prop) p env :
  reads D (both (λ w : Web W S, J (web_db w) (web_argon2 w) (web_queue w))) p env.
Proof.
  assert (∀ db n q, J db n q → ∀ o, pres (λ a : App W S, J (set_cfg (config a) db) n q)
            (list_jobs_with_status o)) as Hjobs.
  { intros db n q HJ o. apply pres_bind.
    - intros a Ha. unfold on_config, Config.list_jobs, op. by destruct (Config.jobs_of_rows _ _).
    - intros jobs. apply pres_bind; [| auto with kerdoos]. intros a Ha. unfold on_state. by destruct (latest_job_runs _ _). }
  split; intros; apply twice_both; try (by intros w Hw).
  - apply pres_on_app. intros db n q _ a Ha. unfold list_state, on_state. by destruct (latest_all _ _).
  - apply pres_on_app. by intros db n q _ a Ha.
  - apply pres_on_app. intros db n q _ a Ha. unfold get_history, on_state. by destruct (history _ _ _ _).
  - apply pres_on_app. eauto.
  - apply pres_on_app. intros db n q _ a Ha. unfold get_job, on_config, Config.get_job, op.
    destruct (Config.find_job _ _ _); [| done]. by destruct (row_to_job _ _).
Qed.

(** The safe methods are safe.  A GET, whoever sends it and whatever it
    names, leaves both databases, the count of password checks and the work
    queue as they were: the CSRF guard, which lets it pass, guards nothing it
    could change. *)
Theorem get_changes_nothing (e : endpoint) (request : Request) (env : Env) (w : Web W S) :
  endpoint_method e = "GET" →
  let w' := snd (serve D e request env w) in
  web_db w' = web_db w ∧ web_argon2 w' = web_argon2 w ∧ web_queue w' = web_queue w.
Proof.
  intros He. cbv zeta.
  set (J := λ (db : AuthDb) (n : Z) (q : RunQueue.RunQueue), db = web_db w ∧ n = web_argon2 w ∧ q = web_queue w).
  assert (∀ p csrf, pres (λ w : Web W S, J (web_db w) (web_argon2 w) (web_queue w)) (handle D e p csrf env)) as Hh.
  { intros p csrf. apply twice_both, handle_twice; [apply reads_keep |].
    destruct e; try done. apply twice_both. by intros w' Hw'. }
  assert (pres (λ w : Web W S, J (web_db w) (web_argon2 w) (web_queue w)) (serve D e request env)) as Hs;
    [| by apply Hs].
  unfold serve. case_match; [apply pres_ret |]. case_match.
  { destruct e; try done; apply pres_ret. }
  apply pres_bind.
  { unfold verify_session. apply pres_bind; [| auto with kerdoos]. destruct (read _ _); [| apply pres_ret].
    apply pres_on_auth. by intros q a Ha. }
  intros [error | p]; [apply pres_ret |]. case_match; [apply pres_ret | apply Hh].
Qed.
End Reading.

(** * Writing *)

(** What the databases and the queue hold for one owner. *)
Record holdings := {
  h_tenant : list ProductRow * list SourceRow * list JobRow * list LinkRow;
  h_account : list OwnerRow;
  h_sessions : list SessionRow;
  h_tokens : list TokenRow;
  h_run : option RunStatus;
  h_ran_at : option Z;
}.

Definition holdings_of {W S} (o : string) (w : Web W S) : holdings := {|
  h_tenant := tenant o (cfg (web_db w));
  h_account := filter (λ r, o_id r = o) (auth_owners (web_db w));
  h_sessions := filter (λ s, se_owner s = o) (sessions (web_db w));
  h_tokens := filter (λ t, tk_owner t = o) (tokens (web_db w));
  h_run := status (web_queue w) !! o;
  h_ran_at := done_monotonic (web_queue w) !! o;
|}.

Section Isolation.
Context {W S : Type} `{AppPorts W} `{StateStore S} `{Hmac}.
Variable D : Deployment.
Context (p : Principal) (env : Env) (o : string) (Ho : o ≠ owner_id p).
Context (hold : holdings) (catalogue : list SiteRow).

(** The configuration of the others: their rows, and the catalogue unless [p]
    administers it. *)
Definition config_kept (c : ConfigDb) : Prop :=
  wf c ∧ tenant o c = h_tenant hold ∧ filter (λ r, o_id r = o) (owners c) = h_account hold
  ∧ (is_admin p = false → site_rows c = catalogue).

Definition others_kept (db : AuthDb) (n : Z) (q : RunQueue.RunQueue) : Prop :=
  config_kept (cfg db)
  ∧ filter (λ s, se_owner s = o) (sessions db) = h_sessions hold
  ∧ filter (λ t, tk_owner t = o) (tokens db) = h_tokens hold
  ∧ status q !! o = h_run hold ∧ done_monotonic q !! o = h_ran_at hold.

Notation kept := (λ w : Web W S, others_kept (web_db w) (web_argon2 w) (web_queue w)).

Definition own_or_admin (c : cmd) : Prop :=
  cmd_owner c = Some (owner_id p) ∨ (is_admin p = true ∧ ∃ s, c = ConfigStore.AddSite s).

Lemma config_kept_exec c db : own_or_admin c → cmd_ok c → config_kept db → config_kept (exec c db).
Proof.
  intros Hc Hok (Hw & Ht & Hacc & Hs). split_and!.
  - by apply wf_exec.
  - rewrite <- Ht. apply tenant_exec; [done |].
    destruct Hc as [-> | [_ [s ->]]]; [intros [= E]; by apply Ho | done].
  - by rewrite owners_exec.
  - intros Ha. rewrite <- (Hs Ha). apply site_rows_exec. intros s ->.
    destruct Hc as [Hc | [Hc _]]; [done | congruence].
Qed.

Lemma kept_on_app {A} (m : M (App W S) A) :
  pres (λ a, config_kept (config a)) m → pres kept (on_app m).
Proof.
  intros Hm. apply (pres_on_app others_kept). intros db n q (_ & Hrest) a (Hc & _). split; [by apply Hm | done].
Qed.

Lemma kept_call {A} (m : M (App W S) A) (c : call) :
  (∀ a, snd (m a) = exec_call D.(d_url_digest) D.(d_timezones) D.(d_domain_policy) c a) →
  call_owner c = Some (owner_id p) ∨ call_owner c = None →
  (by_admin c = true → is_admin p = true) →
  pres kept (on_app m).
Proof.
  intros Hm Hc Hadm. apply kept_on_app. intros a Ha. rewrite Hm.
  apply (keep_call _ _ _ config_kept own_or_admin config_kept_exec); [| done].
  intros c' [(o' & Ho' & Hc') | [Hb [s ->]]]; [left | right; eauto].
  destruct Hc; congruence.
Qed.

Lemma kept_on_auth {A} (m : M Auth A) :
  (∀ q, pres (λ a, others_kept (auth_db a) (argon2_calls a) q) m) → pres kept (on_auth m).
Proof. apply (pres_on_auth others_kept). Qed.

(** A write of the service on rows of [p] only. *)
Lemma kept_auth_rows {A} (m : M AuthDb A) :
  (∀ db, config_kept (cfg db) → let db' := snd (m db) in
     config_kept (cfg db')
     ∧ filter (λ s, se_owner s = o) (sessions db') = filter (λ s, se_owner s = o) (sessions db)
     ∧ filter (λ t, tk_owner t = o) (tokens db') = filter (λ t, tk_owner t = o) (tokens db)) →
  ∀ q, pres (λ a, others_kept (auth_db a) (argon2_calls a) q) (Auth.on_db m).
Proof.
  intros Hm q [db n] (Hc & Hs & Ht & Hq). unfold Auth.on_db. cbn in *. specialize (Hm db Hc). cbv zeta in Hm.
  destruct (m db) as [r db']. cbn in *. destruct Hm as (Hc' & Hs' & Ht'). unfold others_kept. by rewrite Hs', Ht'.
Qed.

Lemma kept_revoke_token t : pres kept (on_auth (Auth.revoke_token p t)).
Proof.
  apply kept_on_auth, kept_auth_rows. intros db Hc. split_and!; [done .. |].
  apply filter_update_other. intros x _ [Hx _]%bool_decide_eq_true. cbn. split; congruence.
Qed.

Lemma kept_revoke_all : pres kept (on_auth (revoke_all p (owner_id p))).
Proof.
  apply kept_on_auth. intros q. unfold revoke_all. rewrite bool_decide_eq_true_2 by done. cbn [negb andb].
  apply pres_bind; [| intros _]; apply kept_auth_rows; intros db Hc; split_and!; try done.
  - apply filter_filter_other. intros x _ Hx. congruence.
  - apply filter_update_other. intros x _ Hx%bool_decide_eq_true. cbn. split; congruence.
Qed.

Lemma kept_create_token : pres kept (on_auth (Auth.create_token D.(d_sha256) D.(d_token_ttl) p
                                       env.(fresh_secret) env.(fresh_id) env.(now))).
Proof.
  apply kept_on_auth. intros q. unfold Auth.create_token. apply pres_bind; [| auto with kerdoos].
  apply kept_auth_rows. intros db Hc. unfold AuthStore.create_token. case_bool_decide; [done |].
  split_and!; [done .. |]. apply filter_snoc_other. cbn. congruence.
Qed.

Lemma kept_set_email m : pres kept (on_auth (set_email p m)).
Proof.
  apply kept_on_auth. intros q. unfold set_email. case_match; [apply pres_raise |].
  apply kept_auth_rows. intros db (Hw & Ht & Hacc & Hs). unfold AuthStore.set_email.
  case_bool_decide; [done |]. cbn [snd]. split_and!; [| done ..]. split_and!; try done.
  - destruct Hw. by split.
  - rewrite <- Hacc. cbn. apply filter_update_other.
    intros x _ Hx%bool_decide_eq_true. cbn. split; congruence.
Qed.

Lemma kept_enqueue : pres kept (on_queue (enqueue D.(d_queue) (owner_id p) env.(monotonic))).
Proof.
  intros [db n st wd q] (Hc & Hse & Htk & Hs & Hd). unfold on_queue. cbn in *.
  assert (status (snd (enqueue (d_queue D) (owner_id p) (monotonic env) q)) !! o = status q !! o
          ∧ done_monotonic (snd (enqueue (d_queue D) (owner_id p) (monotonic env) q)) !! o = done_monotonic q !! o) as [E1 E2].
  { unfold enqueue. repeat case_match; cbn; try done.
    - by rewrite lookup_insert_ne by congruence.
    - pose proof (check_fields (d_queue D) (with_status (<[owner_id p:=mkRunStatus QUEUED None None]> (status
        (with_owners ({[owner_id p]} ∪ queued_or_running q) q))) (with_owners ({[owner_id p]} ∪ queued_or_running q) q)))
        as (_ & _ & Es & Ed & _).
      cbn in Es, Ed |- *. rewrite Es, Ed. by rewrite lookup_insert_ne by congruence. }
  destruct (enqueue _ _ _ _) as [r q']. cbn in *. unfold others_kept. cbn. by rewrite E1, E2.
Qed.

Lemma kept_writes e : (∀ f, e = AddSite f → is_admin p = true) → writes D (both kept) p env e.
Proof.
  intros Hadm. destruct e; cbn [writes]; try done; intros; apply twice_both.
  - eapply (kept_call _ (CAddSite p (site_of_form form))); [done | by right | intros _; by apply (Hadm form)].
  - by intros w Hw.
  - apply kept_enqueue.
  - eapply (kept_call _ (CAddProduct _ _)); [done | by left | done].
  - eapply (kept_call _ (CAddSource _ _ _ _)); [done | by left | done].
  - eapply (kept_call _ (CRemoveProduct _ _)); [done | by left | done].
  - eapply (kept_call _ (CRemoveSource _ _)); [done | by left | done].
  - apply kept_create_token.
  - apply kept_revoke_token.
  - apply kept_revoke_all.
  - apply kept_set_email.
  - eapply (kept_call _ (CCreateJob _ _)); [done | by left | done].
  - eapply (kept_call _ (CUpdateJob _ _ _)); [done | by left | done].
  - eapply (kept_call _ (CDeleteJob _ _)); [done | by left | done].
  - eapply (kept_call _ (CAddJobSource _ _ _)); [done | by left | done].
  - eapply (kept_call _ (CRemoveJobSource _ _ _)); [done | by left | done].
Qed.

Lemma kept_handle e csrf : (∀ f, e = AddSite f → is_admin p = true) → pres kept (handle D e p csrf env).
Proof. intros Hadm. apply twice_both, handle_twice; [apply reads_keep | by apply kept_writes]. Qed.
End Isolation.

Section IsolationTheorem.
Context {W S : Type} `{AppPorts W} `{StateStore S} `{Hmac}.
Variable D : Deployment.

(** C4: a request acts for its own principal.  Whatever route a principal is
    let through to, with whatever identifiers, everything held for any other
    owner (its products, sources, jobs and links, its account, its sessions
    and tokens, and its place in the work queue) stays as it was; the
    catalogue of sites changes only for an administrator; and the
    configuration stays well formed. *)
Theorem web_isolation (e : endpoint) (p : Principal) (csrf : string) (env : Env) (o : string) (w : Web W S) :
  wf (cfg (web_db w)) → o ≠ owner_id p → (∀ f, e = AddSite f → is_admin p = true) →
  let w' := snd (handle D e p csrf env w) in
  holdings_of o w' = holdings_of o w ∧ wf (cfg (web_db w'))
  ∧ (is_admin p = false → site_rows (cfg (web_db w')) = site_rows (cfg (web_db w))).
Proof.
  intros Hw Ho Hadm. cbv zeta.
  destruct (kept_handle D p env o Ho (holdings_of o w) (site_rows (cfg (web_db w))) e csrf Hadm w)
    as ((Hw' & Ht & Hacc & Hsites) & Hs & Htk & Hq & Hd); [by split_and! |].
  split_and!; [| done | done]. unfold holdings_of in *. cbn in *. unfold auth_owners.
  by rewrite Ht, Hacc, Hs, Htk, Hq, Hd.
Qed.
End IsolationTheorem.

(** * Instances *)

Import SessionDemo.

Lemma get_changes_nothing_witness :
  endpoint_method Products = "GET"
  ∧ web_db (snd (serve WebDemo.deployment Products (WebDemo.request "GET" WebDemo.ana_cookie None)
                   WebDemo.env WebDemo.logged_in)) = web_db WebDemo.logged_in.
Proof.
  split; [reflexivity |].
  apply (get_changes_nothing WebDemo.deployment Products (WebDemo.request "GET" WebDemo.ana_cookie None)
    WebDemo.env WebDemo.logged_in eq_refl).
Defined.

Lemma web_isolation_witness :
  let w' := snd (handle WebDemo.deployment (RemoveProduct "gpu") WebDemo.ana "t" WebDemo.env WebDemo.shared) in
  holdings_of "2" w' = holdings_of "2" WebDemo.shared
  ∧ holdings_of "1" w' ≠ holdings_of "1" WebDemo.shared.
Proof.
  split.
  - apply (web_isolation WebDemo.deployment (RemoveProduct "gpu") WebDemo.ana "t" WebDemo.env "2" WebDemo.shared).
    + exact WebDemo.shared_wf.
    + discriminate.
    + discriminate.
  - intros E. apply (f_equal h_tenant) in E. vm_compute in E. discriminate E.
Defined.
