(* ===== verification/WebOracle.v ===== *)
(** No oracle across tenants: what a tenant's requests answer is a function of
    what the deployment holds for that tenant, of the catalogue and of the
    request.  [same_view o] relates two deployments that hold the same for the
    owner [o] and may differ in everything else; [handle_twice] then compares
    the two runs of a route. *)

From S2P Require Import Text Prelude RunQueue Domain Orchestrator StateStore DateTime Registry ConfigStore Safety Tenancy Digest Services Auth Session Filters Web WebIsolation.

(** * Two deployments, seen by one owner *)

Section Views.
Context {W : Type} `{AppPorts W} `{Hmac}.
Variable D : Deployment.
Context (o : string).

Abbreviation web := (Web W StateDb).

(** The configuration: the tenant's rows, the catalogue, the account. *)
Definition same_config (c1 c2 : ConfigDb) : Prop :=
  same_tenant o c1 c2
  ∧ filter (λ r, o_id r = o) (owners c1) = filter (λ r, o_id r = o) (owners c2).

(** The history and the job runs. *)
Definition same_state (s1 s2 : StateDb) : Prop :=
  filter (λ r, c_owner_id r = o) (scrapes s1) = filter (λ r, c_owner_id r = o) (scrapes s2)
  ∧ filter (λ r, jr_owner_id r = o) (job_runs s1) = filter (λ r, jr_owner_id r = o) (job_runs s2).

Definition same_app (a1 a2 : App W StateDb) : Prop :=
  same_config (config a1) (config a2) ∧ same_state (Services.state a1) (Services.state a2)
  ∧ world a1 = world a2.

(** The work queue: whether it is dead, and the place of the owner in it. *)
Record same_place (q1 q2 : RunQueue.RunQueue) : Prop := {
  sp_dead : dead q1 = dead q2;
  sp_reason : dead_reason q1 = dead_reason q2;
  sp_queued : o ∈ queued_or_running q1 ↔ o ∈ queued_or_running q2;
  sp_status : status q1 !! o = status q2 !! o;
  sp_done : done_monotonic q1 !! o = done_monotonic q2 !! o;
}.

Record same_view (w1 w2 : web) : Prop := {
  sv_app : same_app (app_of w1) (app_of w2);
  sv_tokens : filter (λ t, tk_owner t = o) (tokens (web_db w1))
              = filter (λ t, tk_owner t = o) (tokens (web_db w2));
  sv_place : same_place (web_queue w1) (web_queue w2);
}.

(** ** Lifting to the whole state *)

Lemma twice_on_app {A} (m : M (App W StateDb) A) : twice same_app m → twice same_view (on_app m).
Proof.
  intros Hm w1 w2 [Ha Ht Hq]. destruct (Hm _ _ Ha) as [Hr Ha']. unfold on_app.
  destruct (m (app_of w1)) as [r1 [c1 s1 x1]], (m (app_of w2)) as [r2 [c2 s2 x2]]. cbn in *.
  split; [done | by split].
Qed.

Lemma twice_config {A} (m : M ConfigDb A) :
  twice (same_tenant o) m → (∀ db, owners (snd (m db)) = owners db) → twice same_app (on_config m).
Proof.
  intros Hm Hown [c1 s1 x1] [c2 s2 x2] ([Hc Ho] & Hs & Hx). cbn in *. subst x2.
  destruct (Hm _ _ Hc) as [Hr Hc']. pose proof (Hown c1) as E1. pose proof (Hown c2) as E2.
  unfold on_config. cbn. destruct (m c1) as [r1 d1], (m c2) as [r2 d2]. cbn in *.
  split; [done |]. split; [| done]. cbn. split; [done | by rewrite E1, E2].
Qed.

Lemma twice_command {A} (m : M ConfigDb A) (c : cmd) :
  twice (same_tenant o) m → (∀ db, snd (m db) = exec c db) → twice same_app (on_config m).
Proof. intros Hm Hc. apply twice_config; [done |]. intros db. by rewrite Hc, owners_exec. Qed.

Lemma twice_state {A} (f : StateDb → result A) :
  (∀ s1 s2, same_state s1 s2 → f s1 = f s2) →
  twice same_app (on_state (λ s, (f s, s))).
Proof. intros Hf [c1 s1 x1] [c2 s2 x2] (Hc & Hs & Hx). cbn in *. by rewrite (Hf _ _ Hs). Qed.

(** ** The reads of the services *)

Lemma twice_list_state : twice same_app (list_state o).
Proof.
  apply (twice_state (λ s, rmap row_to_record (Sqlite.latest_rows o s))).
  intros s1 s2 [Es _]. unfold Sqlite.latest_rows. by rewrite Es.
Qed.

Lemma twice_get_history s n : twice same_app (get_history o s n).
Proof.
  apply (twice_state (λ db, rmap row_to_record (sql_limit n (Sqlite.history_rows o s db)))).
  intros s1 s2 [Es _]. unfold Sqlite.history_rows.
  rewrite (filter_own c_owner_id _ o (scrapes s1)), (filter_own c_owner_id _ o (scrapes s2)), Es by tauto.
  done.
Qed.

Lemma twice_latest_job_runs : twice same_app (on_state (latest_job_runs o)).
Proof.
  apply (twice_state (λ db, Ok _)). intros s1 s2 [_ Er]. rewrite Er.
  assert (∀ j, Sqlite.summary_of o j (job_runs s1) = Sqlite.summary_of o j (job_runs s2)) as Hj.
  { intros j. unfold Sqlite.summary_of.
    by rewrite (filter_own jr_owner_id _ o (job_runs s1)), (filter_own jr_owner_id _ o (job_runs s2)), Er
      by tauto. }
  do 2 f_equal. induction (remove_dups _) as [| j l IH]; [done |]. cbn. by rewrite Hj, IH.
Qed.

Lemma twice_list_config : twice same_app (list_config o).
Proof. apply twice_config; [auto with kerdoos | done]. Qed.

Lemma owners_op_read {A} (f : ConfigDb → result A) db : owners (snd (op (λ db, (f db, db)) db)) = owners db.
Proof. unfold op. by destruct (f db). Qed.

Lemma twice_jobs : twice same_app (list_jobs_with_status o).
Proof.
  apply twice_bind; [apply twice_config; [auto with kerdoos | apply owners_op_read] |]. intros jobs.
  apply twice_bind; [apply twice_latest_job_runs | auto with kerdoos].
Qed.

Lemma twice_job j : twice same_app (get_job o j).
Proof.
  apply twice_config; [auto with kerdoos |]. intros db. unfold Config.get_job, op.
  destruct (Config.find_job _ _ _); [| done]. by destruct (row_to_job _ _).
Qed.

(** ** The writes of the services *)

Context (Hpolicy : D.(d_domain_policy) = catalogue_domain_allowed).

Lemma same_policy a1 a2 : same_app a1 a2 → D.(d_domain_policy) (config a1) = D.(d_domain_policy) (config a2).
Proof.
  intros ([[_ _ _ Es] _] & _). rewrite Hpolicy.
  unfold catalogue_domain_allowed, Config.site_domains. by rewrite Es.
Qed.

Lemma twice_add_product' spec : twice same_app (add_product o spec).
Proof.
  unfold add_product. destruct (truthy o); cbn [negb]; [| auto with kerdoos].
  apply twice_bind; [auto with kerdoos | intros _]. apply twice_bind; [| auto with kerdoos].
  eapply (twice_command _ (ConfigStore.AddProduct o _)); [auto with kerdoos | done].
Qed.

Lemma twice_add_source' k s u : twice same_app (add_source D.(d_url_digest) D.(d_domain_policy) o k s u).
Proof.
  unfold add_source. destruct (truthy o); cbn [negb]; [| auto with kerdoos].
  apply twice_bind; [auto with kerdoos | intros _]. apply twice_bind; [apply twice_list_config | intros r].
  destruct (_ !! s); [| auto with kerdoos]. apply twice_bind; [auto with kerdoos | intros available].
  destruct available; cbn [negb]; [| auto with kerdoos].
  apply (twice_gets_via same_app config D.(d_domain_policy)
    (λ policy, let! _ := mlift (validate_source_url u policy) in
               let! id := mlift (make_source_id D.(d_url_digest) k s u) in
               let source := {| source_id := id; product_id := k; source_site := s; source_url := u |} in
               let! _ := on_config (Config.add_source o source) in mret' source));
    [apply same_policy | intros policy].
  do 2 (apply twice_bind; [auto with kerdoos | intros ?]). apply twice_bind; [| auto with kerdoos].
  eapply (twice_command _ (ConfigStore.AddSource o _)); [auto with kerdoos | done].
Qed.

Lemma twice_update_job' j spec : twice same_app (update_job D.(d_timezones) o j spec).
Proof.
  unfold update_job. destruct (truthy o); cbn [negb]; [| auto with kerdoos].
  destruct (check_spec _ spec) as [[cron opts] |] eqn:E; [| intros a1 a2 Ha; by split].
  apply check_spec_options in E.
  intros a1 a2 Ha. unfold mlift, mbind'. revert a1 a2 Ha.
  eapply (twice_command _ (ConfigStore.UpdateJob o j _)); [by apply twice_update_job | done].
Qed.

Lemma twice_add_site' p spec : twice same_app (add_site p spec).
Proof.
  unfold add_site. destruct (is_admin p); cbn [negb]; [| auto with kerdoos].
  destruct (unknown_fetcher_tier_error spec); [auto with kerdoos |].
  apply twice_bind; [| auto with kerdoos].
  eapply (twice_command _ (ConfigStore.AddSite spec)); [apply twice_add_site | done].
Qed.

Lemma place_checked q1 q2 :
  same_place q1 q2 → same_place (check_backlog_warning D.(d_queue) q1) (check_backlog_warning D.(d_queue) q2).
Proof.
  intros [Ed Er Eq Es Em].
  destruct (check_fields (d_queue D) q1) as (_ & Ea1 & Ea2 & Ea3 & Ea4 & Ea5 & _).
  destruct (check_fields (d_queue D) q2) as (_ & Eb1 & Eb2 & Eb3 & Eb4 & Eb5 & _).
  by split; rewrite ?Ea1, ?Ea2, ?Ea3, ?Ea4, ?Ea5, ?Eb1, ?Eb2, ?Eb3, ?Eb4, ?Eb5.
Qed.

Lemma place_enqueued l1 l2 q1 q2 : same_place q1 q2 → same_place (with_queue l1 q1) (with_queue l2 q2).
Proof. by intros []. Qed.

Lemma place_queued st q1 q2 :
  same_place q1 q2 →
  let in_set q := with_owners ({[o]} ∪ queued_or_running q) q in
  same_place (with_status (<[o := st]> (status (in_set q1))) (in_set q1))
             (with_status (<[o := st]> (status (in_set q2))) (in_set q2)).
Proof. intros []. split; cbn; [done | done | set_solver | by rewrite !lookup_insert_eq | done]. Qed.

Lemma place_dead q1 q2 :
  same_place q1 q2 →
  same_place (with_status (<[o := mkRunStatus ERROR None (dead_reason q1)]> (status q1)) q1)
             (with_status (<[o := mkRunStatus ERROR None (dead_reason q2)]> (status q2)) q2).
Proof. intros [? Er ???]. split; cbn; [done .. | | done]. by rewrite !lookup_insert_eq, Er. Qed.

Lemma twice_enqueue now : twice same_view (on_queue (enqueue D.(d_queue) o now)).
Proof.
  intros [db1 n1 s1 x1 q1] [db2 n2 s2 x2 q2] [Ha Ht Hq]. cbn in Hq.
  assert (fst (enqueue (d_queue D) o now q1) = fst (enqueue (d_queue D) o now q2)
          ∧ same_place (snd (enqueue (d_queue D) o now q1)) (snd (enqueue (d_queue D) o now q2))) as [E Hq'].
  { assert (cooldown_remaining_seconds (d_queue D) o now q1 = cooldown_remaining_seconds (d_queue D) o now q2) as Ec
      by (unfold cooldown_remaining_seconds; by rewrite (sp_status _ _ Hq), (sp_done _ _ Hq)).
    unfold enqueue. rewrite Ec, (sp_dead _ _ Hq). destruct (dead q2); [by split; [| apply place_dead] |].
    case_match; [by split |]. rewrite (bool_decide_ext _ _ (sp_queued _ _ Hq)).
    case_bool_decide; [by split |]. split; [done |].
    by apply place_enqueued, place_checked, (place_queued (mkRunStatus QUEUED None None)). }
  unfold on_queue. cbn. destruct (enqueue _ _ _ q1) as [r1 q1'], (enqueue _ _ _ q2) as [r2 q2'].
  cbn in *. subst r2. split; [done | by split].
Qed.

(** ** The account *)

(** A call on the tokens of the owner. *)
Lemma twice_on_auth {A} (f : AuthDb → A) (g : AuthDb → AuthDb) (m : M Auth A) :
  (∀ a, m a = (Ok (f (auth_db a)), mkAuth (g (auth_db a)) (argon2_calls a))) →
  (∀ db, cfg (g db) = cfg db) →
  (∀ db1 db2, filter (λ t, tk_owner t = o) (tokens db1) = filter (λ t, tk_owner t = o) (tokens db2) →
     same_config (cfg db1) (cfg db2) →
     f db1 = f db2 ∧ filter (λ t, tk_owner t = o) (tokens (g db1)) = filter (λ t, tk_owner t = o) (tokens (g db2))) →
  twice same_view (on_auth m).
Proof.
  intros Hm Hc Hfg [db1 n1 s1 x1 q1] [db2 n2 s2 x2 q2] [Ha Ht Hq]. cbn in *.
  destruct (Hfg db1 db2 Ht (proj1 Ha)) as [E1 E2].
  unfold on_auth. rewrite !Hm. cbn. rewrite E1. split; [done |]. split; cbn; [| done | done].
  unfold app_of in *. cbn in *. by rewrite !Hc.
Qed.

Lemma twice_list_tokens p t : owner_id p = o → twice same_view (on_auth (list_tokens p t)).
Proof.
  intros Hp. apply (twice_on_auth (AuthStore.list_tokens o (isoformat t)) id); [| done |].
  - intros []. unfold list_tokens. by rewrite Hp.
  - intros db1 db2 E _. split; [| done]. unfold AuthStore.list_tokens.
    by rewrite (filter_own tk_owner _ o (tokens db1)), (filter_own tk_owner _ o (tokens db2)), E by tauto.
Qed.

Lemma twice_get_email p : owner_id p = o → twice same_view (on_auth (get_email p)).
Proof.
  intros Hp. apply (twice_on_auth (AuthStore.get_email o) id); [| done |].
  - intros []. unfold get_email. by rewrite Hp.
  - intros db1 db2 E [_ Eo]. split; [| done]. unfold AuthStore.get_email, auth_owners. by rewrite Eo.
Qed.

Lemma twice_revoke_token p t : owner_id p = o → twice same_view (on_auth (Auth.revoke_token p t)).
Proof.
  intros Hp. apply (twice_on_auth (λ _, tt) (AuthStore.revoke_token o t)); [| done |].
  - intros []. unfold Auth.revoke_token. by rewrite Hp.
  - intros db1 db2 E _. split; [done |]. cbn.
    assert (∀ x, tk_owner (if bool_decide (tk_owner x = o ∧ tk_id x = t) then AuthStore.disable x else x) = tk_owner x) as Hd
      by (intros x; by case_bool_decide).
    by rewrite !(filter_fmap_own tk_owner _ o _ Hd), E.
Qed.

Lemma twice_revoke_all p : owner_id p = o → twice same_view (on_auth (revoke_all p o)).
Proof.
  intros Hp.
  apply (twice_on_auth (λ _, tt) (λ db, AuthStore.revoke_owner_tokens o (AuthStore.delete_owner_sessions o db)));
    [| done |].
  - intros []. unfold revoke_all. by rewrite Hp, (bool_decide_eq_true_2 (o = o)).
  - intros db1 db2 E _. split; [done |]. cbn.
    assert (∀ x, tk_owner (if bool_decide (tk_owner x = o) then AuthStore.disable x else x) = tk_owner x) as Hd
      by (intros x; by case_bool_decide).
    by rewrite !(filter_fmap_own tk_owner _ o _ Hd), E.
Qed.

(** ** The routes *)

Lemma view_reads p env : owner_id p = o → reads D same_view p env.
Proof.
  intros Hp. split; rewrite ?Hp; intros.
  - apply twice_on_app, twice_list_state.
  - apply twice_on_app, twice_list_config.
  - apply twice_on_app, twice_get_history.
  - apply twice_on_app, twice_jobs.
  - apply twice_on_app, twice_job.
  - by apply twice_list_tokens.
  - by apply twice_get_email.
  - apply twice_gets. intros w1 w2 [_ _ Hq]. unfold status_for. apply Hq.
  - apply twice_gets. intros w1 w2 [_ _ Hq]. unfold cooldown_remaining_seconds.
    by rewrite (sp_status _ _ Hq), (sp_done _ _ Hq).
  - apply twice_gets. intros w1 w2 [Ha _ _]. exact (same_policy _ _ Ha).
Qed.

(** ** What belongs to everybody *)

(** A request may ask the deployment one thing about all of its tenants: whether
    the hash or the identifier it drew for a new token or job is taken, whether
    somebody else uses an e-mail address, and, from an administrator's
    dashboard, how deep the queue is. *)
Inductive Shared := Taken (b : bool) | Depth (d : option Z) | Nothing.

Definition queue_depth (w : web) : option Z :=
  if backlog_warning_active D.(d_queue) w.(web_queue) then Some (queued_count w.(web_queue)) else None.

Definition asks (e : endpoint) (p : Principal) (env : Env) (w : web) : Shared :=
  match e with
  | CreateToken =>
      Taken (bool_decide (D.(d_sha256) env.(fresh_secret) ∈ tk_hash <$> tokens w.(web_db)))
  | CreateNotification _ =>
      match fst (uuid4 w.(web_world)) with
      | Ok id => Taken (bool_decide (id ∈ j_id <$> job_rows (cfg w.(web_db))))
      | Raise _ => Nothing
      end
  | SetEmail m =>
      Taken (bool_decide (AuthStore.email_conflict (owner_id p) (strip_or_none m)
                            (auth_owners w.(web_db))))
  | Dashboard => if is_admin p then Depth (queue_depth w) else Nothing
  | _ => Nothing
  end.

Lemma view_writes p env e :
  owner_id p = o →
  match e with CreateToken | CreateNotification _ | SetEmail _ | Dashboard => False | _ => True end →
  writes D same_view p env e.
Proof.
  intros Hp. destruct e; cbn [writes]; try done; intros _; rewrite ?Hp; intros;
    try apply twice_on_app.
  - apply twice_add_site'.
  - apply twice_enqueue.
  - apply twice_add_product'.
  - apply twice_add_source'.
  - eapply (twice_command _ (ConfigStore.RemoveProduct o _)); [auto with kerdoos | done].
  - eapply (twice_command _ (ConfigStore.RemoveSource o _)); [auto with kerdoos | done].
  - by apply twice_revoke_token.
  - by apply twice_revoke_all.
  - apply twice_update_job'.
  - eapply (twice_command _ (ConfigStore.DeleteJob o _)); [auto with kerdoos | done].
  - eapply (twice_command _ (ConfigStore.AddJobSource o _ _)); [auto with kerdoos | done].
  - eapply (twice_command _ (ConfigStore.RemoveJobSource o _ _)); [auto with kerdoos | done].
Qed.

(** *** The dashboard *)

(** Related, and with the same backlog to show. *)
Definition same_depth (w1 w2 : web) : Prop := same_view w1 w2 ∧ queue_depth w1 = queue_depth w2.

Lemma twice_same_depth {A} (m : M web A) :
  twice same_view m → (∀ w, web_queue (snd (m w)) = web_queue w) → twice same_depth m.
Proof.
  intros Hm Hq w1 w2 [Hv Hd]. destruct (Hm _ _ Hv) as [Hr Hv']. split; [done |]. split; [done |].
  unfold queue_depth in *. by rewrite !Hq.
Qed.

Lemma dashboard_twice p csrf env : owner_id p = o → twice same_depth (dashboard D p csrf env).
Proof.
  intros Hp. change (twice same_depth (handle D Dashboard p csrf env)).
  pose proof (view_reads p env Hp) as [].
  apply handle_twice; [| cbn [writes]; apply twice_gets; intros w1 w2 [_ Hd];
    unfold queue_depth in Hd; case_bool_decide; cbn [andb]; [exact Hd | done]].
  split; intros; apply twice_same_depth; auto; intros [db n st x q];
    unfold on_app, on_auth; repeat case_match; done.
Qed.

(** *** Writes that take an identifier *)

Lemma alike_on_app {A} (m : M (App W StateDb) A) w1 w2 :
  same_view w1 w2 → alike same_app m (app_of w1) (app_of w2) → alike same_view (on_app m) w1 w2.
Proof.
  intros [Ha Ht Hq] [Hr Ha']. unfold alike, on_app.
  destruct (m (app_of w1)) as [r1 [c1 s1 x1]], (m (app_of w2)) as [r2 [c2 s2 x2]]. cbn in *.
  split; [done | by split].
Qed.

Lemma create_token_alike p env w1 w2 :
  owner_id p = o → same_view w1 w2 → asks CreateToken p env w1 = asks CreateToken p env w2 →
  alike same_view (on_auth (Auth.create_token D.(d_sha256) D.(d_token_ttl) p
                     env.(fresh_secret) env.(fresh_id) env.(now))) w1 w2.
Proof.
  destruct w1 as [db1 n1 s1 x1 q1], w2 as [db2 n2 s2 x2 q2]. intros Hp [Ha Ht Hq] [= Hh]. cbn in *.
  unfold alike, on_auth, Auth.create_token, on_db, AuthStore.create_token, mbind'. cbn. rewrite Hh, Hp.
  clear Hh. destruct (bool_decide _); cbn; (split; [done |]); split; cbn; try done.
  by rewrite !filter_app, Ht.
Qed.

Lemma set_email_alike p m env w1 w2 :
  owner_id p = o → same_view w1 w2 → asks (SetEmail m) p env w1 = asks (SetEmail m) p env w2 →
  alike same_view (on_auth (Auth.set_email p (strip_or_none m))) w1 w2.
Proof.
  destruct w1 as [db1 n1 s1 x1 q1], w2 as [db2 n2 s2 x2 q2]. intros Hp [Ha Ht Hq] [= He]. cbn in *.
  unfold alike, on_auth, Auth.set_email.
  destruct (match strip_or_none m with Some x => negb (email_ok x) | None => false end);
    cbn; [split; [done | by split] |].
  unfold on_db, AuthStore.set_email. cbn. rewrite He, Hp.
  clear He. destruct (bool_decide _); cbn; (split; [done |]); split; cbn; try done.
  destruct Ha as ([[Hw1 Hw2 HT HS] Ho] & Hs & Hx). split; [| done]. cbn in *. split.
  - split; [by destruct Hw1 | by destruct Hw2 | exact HT | exact HS].
  - cbn. unfold auth_owners. rewrite !(filter_fmap_own o_id); [by rewrite Ho | |];
      intros r; by case_bool_decide.
Qed.

Lemma create_job_alike' p f options env w1 w2 :
  owner_id p = o → same_view w1 w2 →
  asks (CreateNotification f) p env w1 = asks (CreateNotification f) p env w2 →
  alike same_view (on_app (create_job D.(d_timezones) p (spec_of_form f options))) w1 w2.
Proof.
  intros Hp Hv Hask. apply alike_on_app; [done |]. destruct Hv as [Ha _ _].
  destruct w1 as [[c1 ? ? ?] n1 s1 x1 q1], w2 as [[c2 ? ? ?] n2 s2 x2 q2].
  cbn in *. pose proof Ha as ([Hc Ho] & Hs & Hx). cbn in *. subst x2.
  unfold create_job, app_of. cbn. destruct (truthy (owner_id p)); cbn [negb]; [| by split].
  destruct (check_spec _ _) as [[cron opts] | e] eqn:E; [| by split].
  apply check_spec_options in E. unfold alike, mbind', mlift, on_world. cbn.
  destruct (uuid4 x1) as [[id | e] x']; [| by split]. cbn in *. injection Hask as Hid.
  destruct (clock x') as [[at_ | e] x'']; [| by split]. cbn.
  set (j := job_of_spec id _ _ _ _ _). unfold on_config. cbn. rewrite Hp.
  assert (job_id j ∈ j_id <$> job_rows c1 ↔ job_id j ∈ j_id <$> job_rows c2) as Hid'
    by (revert Hid; repeat case_bool_decide; naive_solver).
  destruct (create_job_alike o j (source_ids (spec_of_form f options)) c1 c2 E Hid' Hc) as [Hr Hc'].
  pose proof (owners_exec (ConfigStore.CreateJob o j (source_ids (spec_of_form f options))) c1) as O1.
  pose proof (owners_exec (ConfigStore.CreateJob o j (source_ids (spec_of_form f options))) c2) as O2.
  cbn [exec] in *. destruct (Config.create_job o j _ c1) as [r1 d1], (Config.create_job o j _ c2) as [r2 d2].
  cbn in *. split; [done |]. split; [| done]. cbn. split; [done | by rewrite O1, O2].
Qed.
End Views.

Section Oracle.
Context {W : Type} `{AppPorts W} `{Hmac}.
Variable D : Deployment.

(** C5: no oracle across tenants.  Take two deployments that hold the same for
    the owner of a request (its products, sources, jobs, links, tokens,
    account, history, job runs, its place in the queue), the same catalogue of
    sites and the same world outside, that decide what a domain is by that
    catalogue, and differ in anything else: other tenants, other sessions, other
    runs.  Every request but four answers the same in both, errors and
    redirects included, and leaves them the same for that owner: no identifier
    a tenant sends tells it whether another tenant holds it.  The four depend on
    one more thing each, and on it alone: a new token and a new job on whether
    the hash, the id drawn for them is taken, a new e-mail address on whether
    another account uses it, an administrator's dashboard on the depth of the
    shared queue. *)
Theorem no_tenant_oracle (e : endpoint) (p : Principal) (csrf : string) (env : Env) (w1 w2 : Web W StateDb) :
  D.(d_domain_policy) = catalogue_domain_allowed →
  same_view (owner_id p) w1 w2 →
  asks D e p env w1 = asks D e p env w2 →
  fst (handle D e p csrf env w1) = fst (handle D e p csrf env w2)
  ∧ same_view (owner_id p) (snd (handle D e p csrf env w1)) (snd (handle D e p csrf env w2)).
Proof.
  intros Hpol Hv Hask. change (alike (same_view (owner_id p)) (handle D e p csrf env) w1 w2).
  assert (reads D (same_view (W:=W) (owner_id p)) p env) as Hr by by apply view_reads.
  destruct e; try (apply (handle_twice D _ p env Hr); [by apply view_writes | exact Hv]); cbn [handle].
  - destruct (is_admin p) eqn:Eadm; cbn [asks] in Hask; rewrite ?Eadm in Hask.
    + injection Hask as Hd.
      destruct (dashboard_twice D (owner_id p) Hpol p csrf env eq_refl w1 w2 (conj Hv Hd)) as [? [? _]].
      by split.
    + apply (handle_twice D _ p env Hr Dashboard); [| exact Hv]. cbn [writes].
      apply twice_gets. intros ? ? _. unfold is_admin in Eadm. by rewrite Eadm.
  - apply alike_bind; [by apply create_token_alike | intros issued].
    apply twice_bind; [apply Hr | intros ts]. apply twice_bind; [apply Hr | intros em]. apply twice_ret.
  - apply alike_bind; [| intros err; apply twice_bind; [apply Hr | intros ts; apply twice_ret]].
    unfold try_set_email, mcatch.
    apply alike_try; [apply alike_try; [apply alike_bind; [by eapply set_email_alike | intros; apply twice_ret] |] |].
    all: intros; case_match; auto with kerdoos.
  - rename select NotificationForm into form. unfold create_notification.
    assert (∃ r, (∀ w : Web W StateDb, mcatch [ValueError] (let! o := mlift (form_options D.(d_to_float) form) in mret' (Some o))
                     (mret' None) w = (r, w))) as [r Ho].
    { unfold mcatch, mtry, mbind', mlift. destruct (form_options _ form) as [o | x]; [by eexists |].
      destruct (is_Exception _); [| by eexists]. destruct (existsb _ _); by eexists. }
    unfold alike. destruct r as [[options |] | x].
    2: { rewrite !(mbind_ok _ _ _ _ _ (Ho _)). eapply render_notifications_twice; [exact Hr | exact Hv]. }
    2: { unfold mbind' in *. rewrite !Ho. by split. }
    rewrite !(mbind_ok _ _ _ _ _ (Ho _)). apply alike_bind.
    + unfold accepted, mcatch. apply alike_try; [apply alike_bind |].
      * by eapply create_job_alike'.
      * intros; apply twice_ret.
      * intros; case_match; auto with kerdoos.
    + intros []; [apply twice_ret | eapply render_notifications_twice; exact Hr].
Qed.
End Oracle.

(** * Instance *)

Import SessionDemo.

(** The other owner of [shared] has a product ["secret"]; in [alone] there is no
    other owner. *)
Lemma no_tenant_oracle_witness :
  fst (handle WebDemo.deployment (RemoveProduct "secret") WebDemo.ana "t" WebDemo.env WebDemo.shared)
  = fst (handle WebDemo.deployment (RemoveProduct "secret") WebDemo.ana "t" WebDemo.env WebDemo.alone)
  ∧ web_db WebDemo.shared ≠ web_db WebDemo.alone.
Proof.
  split.
  - apply (no_tenant_oracle WebDemo.deployment (RemoveProduct "secret") WebDemo.ana "t" WebDemo.env);
      [reflexivity | | reflexivity].
    split; [| reflexivity | by split].
    split; [| by repeat split]. split; [| reflexivity].
    split; [exact WebDemo.shared_wf | exact WebDemo.alone_wf | reflexivity | reflexivity].
  - intros E. apply (f_equal (λ db, product_rows (cfg db))) in E. vm_compute in E. discriminate E.
Defined.

(** The address of the other owner is refused, where it is free when that owner
    is not there. *)
Example an_email_address_is_asked_of_all :
  (asks WebDemo.deployment (SetEmail "bia@x.br") WebDemo.ana WebDemo.env WebDemo.shared,
   asks WebDemo.deployment (SetEmail "bia@x.br") WebDemo.ana WebDemo.env WebDemo.alone,
   asks WebDemo.deployment (SetEmail "eva@x.br") WebDemo.ana WebDemo.env WebDemo.shared)
  = (Taken true, Taken false, Taken false).
Proof. vm_compute. reflexivity. Qed.
