(* ===== verification/WebPages.v ===== *)
(** What the pages of one owner show and do: the counts of the dashboard, and
    the switch of a notification, which rebuilds the whole job from the stored
    row to flip one field of it. *)

From S2P Require Import Text Prelude RunQueue Domain Orchestrator StateStore DateTime Registry ConfigStore Safety Digest Services Auth Session Filters Web.

(** * The switch of a notification *)

(** A stored job the interface wrote: a schedule [normalize_schedule] made, a
    zone, a template and options it accepts, in the form they are dumped in. *)
Record well_made (zones : list string) (r : JobRow) : Prop := {
  wm_schedule : ∃ minute hour expr, normalize_schedule (j_kind r) minute hour expr = Ok (j_cron r);
  wm_zone : j_timezone r ∈ zones;
  wm_template : j_template r ∈ VALID_TEMPLATE_IDS;
  wm_options : ∃ opts, valid_options opts = true ∧ j_options r = dump_job_options opts;
  wm_enabled : j_enabled r = 0 ∨ j_enabled r = 1;
}.

Lemma check_spec_Ok zones spec cron opts :
  check_spec zones spec = Ok (cron, opts) ↔
  normalize_schedule spec.(frequency_kind) spec.(minute) spec.(hour) spec.(cron_expr) = Ok cron
  ∧ spec.(timezone) ∈ zones ∧ spec.(template_id) ∈ VALID_TEMPLATE_IDS
  ∧ parse_job_options spec.(options) = Ok opts.
Proof.
  unfold check_spec, validate_timezone, validate_template_id.
  destruct (normalize_schedule _ _ _ _); cbn [rbind]; [| naive_solver].
  case_bool_decide; cbn [rbind]; [| naive_solver]. case_bool_decide; cbn [rbind]; [| naive_solver].
  destruct (parse_job_options _); cbn [rbind]; naive_solver.
Qed.

(** The rows of [create_job] and [update_job] are well made. *)
Lemma created_row_well_made zones owner id spec cron opts at_ :
  check_spec zones spec = Ok (cron, opts) →
  well_made zones (job_to_row owner (job_of_spec id owner spec cron opts at_)).
Proof.
  intros Hc. apply check_spec_Ok in Hc as (Hn & Hz & Ht & Ho).
  split; cbn; [eauto | done | done | | destruct (Services.enabled spec); auto].
  exists opts. split; [by eapply parse_job_options_valid | done].
Qed.

(** The cadence read back from a stored schedule makes it again. *)
Lemma cadence_roundtrip (job : DigestJob) minute hour expr :
  normalize_schedule (job_frequency_kind job) minute hour expr = Ok (schedule_cron job) →
  ∃ m h e, cadence_of job = Ok (m, h, e)
    ∧ normalize_schedule (job_frequency_kind job) m h e = Ok (schedule_cron job).
Proof.
  intros Hn. pose proof (normalize_schedule_fields _ _ _ _ _ Hn) as Hf. unfold cadence_of.
  destruct Hf as [(Hk & Hm & Hs) | [(Hk & Hm & Hh & Hs) | (Hk & -> & Hne & Hs)]].
  - rewrite Hs, Hk. cbn [bool_decide]. exists minute, 0, None. cbn. rewrite py_int_pretty by lia. split; [done |].
    rewrite <- Hn, Hk. by unfold normalize_schedule.
  - rewrite Hs, Hk. exists minute, hour, None. cbn. rewrite !py_int_pretty by lia. split; [done |].
    rewrite <- Hn, Hk. by unfold normalize_schedule.
  - rewrite Hk. exists 0, 0, (Some (schedule_cron job)). split; [done |].
    rewrite <- Hn, Hk. by unfold normalize_schedule.
Qed.

Definition set_enabled (b : bool) (r : JobRow) : JobRow :=
  {| j_id := r.(j_id); j_owner := r.(j_owner); j_name := r.(j_name); j_kind := r.(j_kind);
     j_cron := r.(j_cron); j_timezone := r.(j_timezone); j_template := r.(j_template);
     j_options := r.(j_options); j_enabled := if b then 1 else 0; j_created_at := r.(j_created_at) |}.

(** A stored job, rebuilt as a spec, is accepted again and writes its row back
    but for the flag. *)
Lemma spec_from_row zones r ids b :
  well_made zones r →
  ∃ job spec opts, row_to_job r ids = Ok job ∧ job_enabled job = negb (j_enabled r =? 0)
    ∧ spec_from_job job b = Ok spec ∧ check_spec zones spec = Ok (j_cron r, opts)
    ∧ spec_job_name spec = j_name r
    ∧ ∀ id owner, Config.updated_row (job_of_spec id owner spec (j_cron r) opts None) r = set_enabled b r.
Proof.
  intros [(minute & hour & expr & Hn) Hz Ht (opts & Hv & Ho) _].
  pose proof (dump_options_parse opts Hv) as Hp.
  assert (row_to_job r ids = Ok
    {| job_id := j_id r; job_owner_id := j_owner r; job_name := j_name r; job_frequency_kind := j_kind r;
       schedule_cron := j_cron r; job_timezone := j_timezone r; job_template_id := j_template r;
       job_options := opts; job_enabled := negb (j_enabled r =? 0); job_created_at := j_created_at r;
       job_source_ids := ids |}) as Hr by (unfold row_to_job; by rewrite Ho, Hp).
  match type of Hr with _ = Ok ?j => set (job := j) in * end.
  destruct (cadence_roundtrip job minute hour expr Hn) as (m & h & e & Hc & Hn').
  eexists job, _, opts. split; [done |]. split; [done |]. split; [unfold spec_from_job; by rewrite Hc |].
  split; [apply check_spec_Ok; by split_and! |]. split; [done |].
  intros id owner. unfold Config.updated_row, set_enabled. cbn. by rewrite Ho.
Qed.

Section Toggle.
Context {W S : Type} `{AppPorts W} `{StateStore S} `{Hmac}.
Variable D : Deployment.

(** The store update behind the switch, when the row is there. *)
Lemma update_one_job o i j (db : ConfigDb) r :
  wf db → Config.find_job o i db = Some r → job_name j = j_name r →
  ∃ job, Config.update_job o i j db =
    (Ok job, set_jobs ((λ r', if bool_decide (j_id r' = i) then Config.updated_row j r' else r') <$> job_rows db) db).
Proof.
  intros Hw Hf Hname. apply find_job_Some in Hf as (Hr & Ho & Hi).
  assert (∀ r', r' ∈ job_rows db → (j_owner r' = o ∧ j_id r' = i ↔ r' = r)) as Hone.
  { intros r' Hr'. split; [| by intros ->]. intros [_ Hi'].
    eapply (NoDup_fmap_inj_in j_id); [apply Hw | done .. | congruence]. }
  unfold Config.update_job, op. rewrite bool_decide_eq_true_2 by (apply Exists_exists; eauto).
  rewrite bool_decide_eq_false_2.
  - eexists. cbv beta iota zeta. do 2 f_equal. apply list_fmap_ext. intros k r' Hk%list_elem_of_lookup_2.
    rewrite (bool_decide_ext _ (j_id r' = i)); [done |].
    rewrite Hone by done. split; [by intros -> |]. intros Hi'.
    eapply (NoDup_fmap_inj_in j_id); [apply Hw | done .. | congruence].
  - intros (r' & Hr' & Hne & [= Ho' Hn'])%Exists_exists. apply Hne. apply Hone; [done |].
    eapply (NoDup_fmap_inj_in Config.job_name_of); [apply Hw | done .. |]. unfold Config.job_name_of. congruence.
Qed.

(** The switch of a notification.  The handler rebuilds the job from its
    stored row (reading the minute and the hour back out of the cron
    expression) and updates it; for every row the interface wrote, the rebuilt
    job passes the checks again and the update flips the [enabled] flag of
    that row and changes nothing else, in no row and in no other state, and the
    browser is sent back to the list. *)
Theorem toggle_flips_enabled (p : Principal) (j : string) (w : Web W S) (r : JobRow) :
  wf (cfg (web_db w)) → owner_id p ≠ "" →
  Config.find_job (owner_id p) j (cfg (web_db w)) = Some r → well_made D.(d_timezones) r →
  let rows := (λ r', if bool_decide (j_id r' = j) then set_enabled (j_enabled r =? 0) r' else r')
                <$> job_rows (cfg (web_db w)) in
  toggle_notification D p j w
  = (Ok (Responds (redirect "/notifications")),
     with_app (mkApp (set_jobs rows (cfg (web_db w))) (web_state w) (web_world w)) w).
Proof.
  intros Hw Hne Hf Hm. cbv zeta. pose proof (find_job_Some _ _ _ _ Hf) as (Hr & Ho & Hi).
  destruct (spec_from_row (d_timezones D) r (Config.load_job_sources (owner_id p) j (cfg (web_db w)))
    (negb (negb (j_enabled r =? 0))) Hm) as (job & spec & opts & Hj & He & Hs & Hc & Hn & Hup).
  destruct (update_one_job (owner_id p) j
    (job_of_spec j (owner_id p) spec (j_cron r) opts None) _ r Hw Hf Hn) as (job' & Hu).
  assert (negb (truthy (owner_id p)) = false) as Htr by (unfold truthy; by rewrite bool_decide_eq_false_2).
  unfold toggle_notification, accepted, mcatch, mtry, mbind', get_job, update_job, on_config, Config.get_job, op, on_app.
  cbn [config app_of]. rewrite Hf, Hj. cbv beta iota. rewrite He, Hs. unfold mlift. cbv beta iota.
  rewrite Htr, Hc. unfold mbind'. cbv beta iota. cbn [config]. rewrite Hu. cbn. do 3 f_equal.
  assert (∀ r', r' ∈ job_rows (cfg (web_db w)) → j_id r' = j →
    Config.updated_row (job_of_spec j (owner_id p) spec (j_cron r) opts None) r' = set_enabled (j_enabled r =? 0) r')
    as Heq.
  { intros r' Hr' Hi'. assert (r' = r) as -> by (eapply (NoDup_fmap_inj_in j_id); [apply Hw | done .. | congruence]).
    by rewrite Hup, negb_involutive. }
  f_equal. apply list_fmap_ext. intros k r' Hk%list_elem_of_lookup_2. case_bool_decide; auto.
Qed.

(** A job whose time zone the host's tz database no longer has cannot be
    switched, not even off: the check of the rebuilt job raises a [ValueError]
    that the handler, which expects [KeyError] only, lets escape. *)
Theorem toggle_lost_zone_escapes (p : Principal) (j : string) (w : Web W S) (r : JobRow) (zones : list string) :
  owner_id p ≠ "" → Config.find_job (owner_id p) j (cfg (web_db w)) = Some r →
  well_made zones r → j_timezone r ∉ D.(d_timezones) →
  ∃ e, exn_class e = ValueError ∧ fst (toggle_notification D p j w) = Raise e.
Proof.
  intros Hne Hf Hm Hz.
  destruct (spec_from_row zones r (Config.load_job_sources (owner_id p) j (cfg (web_db w)))
    (negb (negb (j_enabled r =? 0))) Hm) as (job & spec & opts & Hj & He & Hs & Hc & _ & Hup).
  assert (timezone spec = j_timezone r) as Et by (exact (f_equal j_timezone (Hup "" ""))).
  apply check_spec_Ok in Hc as (Hn & _).
  assert (check_spec (d_timezones D) spec = raise ValueError "unknown IANA timezone") as Hc'.
  { unfold check_spec, validate_timezone. rewrite Hn, Et. cbn [rbind]. by rewrite bool_decide_eq_false_2. }
  assert (negb (truthy (owner_id p)) = false) as Htr by (unfold truthy; by rewrite bool_decide_eq_false_2).
  exists (Exn ValueError "unknown IANA timezone"). split; [done |].
  unfold toggle_notification, accepted, mcatch, mtry, mbind', get_job, update_job, on_config, Config.get_job, op, on_app.
  cbn [config app_of]. rewrite Hf, Hj. cbv beta iota. rewrite He, Hs. unfold mlift. cbv beta iota.
  rewrite Htr, Hc'. by unfold mbind'.
Qed.
End Toggle.

(** * The dashboard *)

(** How many records have a status. *)
Definition count_status (s : ScrapeStatus) (records : list ScrapeRecord) : Z :=
  Z.of_nat (length (filter (λ r, sr_status r = s) records)).

Lemma ScrapeStatus_value_inj s t : ScrapeStatus_value s = ScrapeStatus_value t → s = t.
Proof. by destruct s, t. Qed.

Lemma status_counts_lookup s records :
  default 0 (status_counts records !! ScrapeStatus_value s) = count_status s records.
Proof.
  assert (∀ m : gmap string Z,
    default 0 (foldl (λ m rec, let v := ScrapeStatus_value (sr_status rec) in <[v := default 0 (m !! v) + 1]> m) m records
               !! ScrapeStatus_value s)
    = default 0 (m !! ScrapeStatus_value s) + count_status s records) as Hm.
  { unfold count_status. induction records as [| r l IH]; intros m; [cbn; lia |].
    cbn [foldl]. rewrite IH, filter_cons. case_decide as Hs.
    - subst s. rewrite lookup_insert_eq. cbn. lia.
    - rewrite lookup_insert_ne by (intros E; apply Hs; by apply ScrapeStatus_value_inj). lia. }
  unfold status_counts. rewrite Hm. by destruct s.
Qed.

Lemma count_all (records : list ScrapeRecord) :
  count_status OK records + count_status INDETERMINATE records + count_status UNAVAILABLE records
  = Z.of_nat (length records).
Proof.
  unfold count_status. induction records as [| r l IH]; [done |]. rewrite !filter_cons.
  destruct (sr_status r); repeat case_decide; try done; cbn [length]; lia.
Qed.

Lemma source_index_lookup registry sid :
  match source_index registry !! sid with
  | Some ps => ps ∈ product_sources registry ∧ source_id ps.2 = sid
  | None => ∀ ps, ps ∈ product_sources registry → source_id ps.2 ≠ sid
  end.
Proof.
  unfold source_index. induction (product_sources registry) as [| ps l IH] using rev_ind.
  { cbn. rewrite lookup_empty. by intros ps Hps%elem_of_nil. }
  rewrite foldl_snoc. destruct (decide (source_id ps.2 = sid)) as [<- | Hne].
  - rewrite lookup_insert_eq. split; [set_solver | done].
  - rewrite lookup_insert_ne by done. destruct (foldl _ _ _ !! sid) as [ps' |]; [set_solver |].
    intros ps' [Hps' | ->%list_elem_of_singleton]%elem_of_app; auto.
Qed.

Section Dashboard.
Context {W S : Type} `{AppPorts W} `{StateStore S} `{Hmac}.
Variable D : Deployment.

(** The dashboard shows every record once.  When it answers, it answers a
    page with one row per record of the state store, in its order; a row gives
    a product, site and url exactly when the record's source is one the owner
    follows, and then they are that source's; and the three counters of the
    briefing count the records by their status, so that those to watch and
    those that are fine add up to all of them. *)
Theorem dashboard_shows_every_record (p : Principal) (csrf : string) (env : Env) (w w' : Web W S) (r : Response) :
  dashboard D p csrf env w = (Ok (Responds r), w') →
  ∃ records registry base rows b st cd depth,
    fst (on_app (list_state (owner_id p)) w) = Ok records
    ∧ fst (on_app (list_config (owner_id p)) (snd (on_app (list_state (owner_id p)) w))) = Ok registry
    ∧ r = respond 200 (DashboardPage base rows b st cd depth)
    ∧ row_record <$> rows = records
    ∧ Forall (λ row,
        match row_url row with
        | Some u => ∃ pr so, (pr, so) ∈ product_sources registry ∧ source_id so = sr_source_id (row_record row)
                    ∧ row_product_name row = display_name pr ∧ row_site row = source_site so ∧ u = source_url so
        | None => ∀ ps, ps ∈ product_sources registry → source_id ps.2 ≠ sr_source_id (row_record row)
        end) rows
    ∧ b_ok b = count_status OK records
    ∧ b_indeterminate b = count_status INDETERMINATE records
    ∧ b_unavailable b = count_status UNAVAILABLE records
    ∧ b_ok b + b_to_watch b = Z.of_nat (length records)
    ∧ (depth ≠ None → is_admin p = true).
Proof.
  unfold dashboard, mbind'.
  destruct (on_app (list_state (owner_id p)) w) as [[records | e] w1]; [| done]. cbn [fst snd].
  destruct (on_app (list_config (owner_id p)) w1) as [[registry | e] w2]; [| done].
  unfold mgets, backlog_depth, mgets.
  intros [= <- <-]. eexists records, registry, _, _, _, _, _, _.
  split; [done |]. split; [done |]. split; [done |].
  split. { rewrite <- list_fmap_compose. rewrite <- (list_fmap_id records) at 2. apply list_fmap_ext.
           intros i x _. cbn. unfold dashboard_row. by destruct (_ !! _) as [[] |]. }
  split.
  { apply Forall_fmap, Forall_true. intros rec. cbn. unfold dashboard_row.
    pose proof (source_index_lookup registry (sr_source_id rec)) as Hl.
    destruct (source_index registry !! _) as [[pr so] |]; cbn; [| exact Hl]. destruct Hl. by exists pr, so. }
  pose proof (status_counts_lookup OK records) as E1. pose proof (status_counts_lookup INDETERMINATE records) as E2.
  pose proof (status_counts_lookup UNAVAILABLE records) as E3. cbn in E1, E2, E3. cbn.
  rewrite E1, E2, E3. pose proof (count_all records). split_and!; try done; [lia |].
  intros Hd. unfold is_admin. by destruct (bool_decide (role p = "admin")).
Qed.
End Dashboard.

(** * Instances *)

Import SessionDemo.

Module PagesDemo.
(** The account ["1"] with a daily notification made through the form. *)
Definition spec : DigestJobSpec :=
  {| spec_job_name := "daily"; frequency_kind := "daily"; minute := 30; hour := 6; cron_expr := None;
     timezone := "UTC"; template_id := "default"; options := []; Services.enabled := true; source_ids := [] |}.
Definition with_job : Web nat StateDb :=
  snd (on_app (create_job TIMEZONES WebDemo.ana spec) WebDemo.alone).
Definition row : JobRow :=
  job_to_row "1" (job_of_spec "0" "1" spec "30 6 * * *" default_options (Some "2026-01-01T00:00:00+00:00")).
End PagesDemo.

Lemma toggle_flips_enabled_witness :
  toggle_notification WebDemo.deployment WebDemo.ana "0" PagesDemo.with_job
  = (Ok (Responds (redirect "/notifications")),
     with_app (mkApp (set_jobs [set_enabled false PagesDemo.row] (cfg (web_db PagesDemo.with_job)))
                 (web_state PagesDemo.with_job) (web_world PagesDemo.with_job)) PagesDemo.with_job).
Proof.
  apply (toggle_flips_enabled WebDemo.deployment WebDemo.ana "0" PagesDemo.with_job PagesDemo.row).
  - exact (wf_exec (ConfigStore.CreateJob "1"
      (job_of_spec "0" "1" PagesDemo.spec "30 6 * * *" default_options (Some "2026-01-01T00:00:00+00:00")) [])
      (cfg (web_db WebDemo.alone)) eq_refl WebDemo.alone_wf).
  - discriminate.
  - vm_compute. reflexivity.
  - split; [exists 30, 6, None; reflexivity | vm_compute; set_solver | vm_compute; set_solver | | by right].
    exists default_options. split; reflexivity.
Defined.

Lemma toggle_lost_zone_escapes_witness :
  ∃ e, exn_class e = ValueError
    ∧ fst (toggle_notification
             {| d_sha256 := AuthDemo.sha; d_url_digest := ServiceDemo.digest; d_ph_verify := AuthDemo.argon;
                d_dummy_hash := "dummy"; d_session_ttl := AuthDemo.ttl; d_token_ttl := AuthDemo.ttl;
                d_window := 0; d_max_attempts := 0; d_row_cap := 0; d_timezones := [];
                d_domain_policy := catalogue_domain_allowed; d_zone_info := λ _, raise KeyError "";
                d_render_file := λ _ _, Ok ""; d_to_float := λ _, raise ValueError "";
                d_queue := d_queue WebDemo.deployment; d_cookie := cookie; d_csrf_secret := "k" |}
             WebDemo.ana "0" PagesDemo.with_job) = Raise e.
Proof.
  apply (toggle_lost_zone_escapes _ WebDemo.ana "0" PagesDemo.with_job PagesDemo.row TIMEZONES).
  - discriminate.
  - vm_compute. reflexivity.
  - split; [exists 30, 6, None; reflexivity | vm_compute; set_solver | vm_compute; set_solver | | by right].
    exists default_options. split; reflexivity.
  - set_solver.
Defined.

Lemma dashboard_shows_every_record_witness :
  ∃ base rows b st cd depth r,
    fst (dashboard WebDemo.deployment WebDemo.ana "t" WebDemo.env WebDemo.alone) = Ok (Responds r)
    ∧ r = respond 200 (DashboardPage base rows b st cd depth) ∧ rows = [].
Proof.
  destruct (dashboard WebDemo.deployment WebDemo.ana "t" WebDemo.env WebDemo.alone)
    as [[[r | e] | e] w'] eqn:Hr; try (vm_compute in Hr; discriminate Hr).
  destruct (dashboard_shows_every_record WebDemo.deployment WebDemo.ana "t" WebDemo.env WebDemo.alone w' r Hr)
    as (records & registry & base & rows & b & st & cd & depth & Hl & _ & Hp & Hrows & _).
  exists base, rows, b, st, cd, depth, r. split; [reflexivity |]. split; [exact Hp |].
  vm_compute in Hl. injection Hl as <-. by destruct rows.
Defined.
