(* ===== verification/Yaml.v ===== *)
(** The configuration files: [sites.yaml] and [products.yaml], read by
    [registry/yaml_store.py] and written back by the export command of
    [interfaces/cli/main.py].

    PyYAML is the class [Yaml]: what [safe_load] makes of a text and what
    [safe_dump] writes.  A document is a value of type [yaml]; a mapping is the
    list of its items in order, with distinct keys, as the loader builds it. *)

From S2P Require Import Prelude Domain Registry Services.

(** * Values *)

(** [YOther] is a scalar of another type (a float, a date), by its [str]. *)
Inductive yaml :=
| YNull
| YBool (b : bool)
| YInt (n : Z)
| YStr (s : string)
| YOther (text : string)
| YList (l : list yaml)
| YDict (items : list (yaml * yaml)).

Class Yaml (T : Type) := {
  safe_load : T → result yaml;
  safe_dump : yaml → T;
  (** [repr] of a list or a mapping. *)
  yaml_repr : yaml → string;
}.

(** What is loaded is what was dumped. *)
Class LawfulYaml (T : Type) `{Yaml T} := load_dump : ∀ v, safe_load (safe_dump v) = Ok v.

Definition falsy (v : yaml) : bool :=
  match v with
  | YNull | YBool false | YInt 0 | YList [] | YDict [] => true
  | YStr s => negb (truthy s)
  | YOther t => bool_decide (t ∈ ["0.0"; "-0.0"])
  | _ => false
  end.

Definition is_key (k : string) (v : yaml) : bool :=
  match v with YStr s => bool_decide (s = k) | _ => false end.

(** [d.get(k)] on the items of a mapping. *)
Fixpoint item (k : string) (d : list (yaml * yaml)) : option yaml :=
  match d with
  | [] => None
  | (k', v) :: d => if is_key k k' then Some v else item k d
  end.

(** The fields of a site as the file gives them: the code takes the name and
    the parser fields without converting them. *)
Record RawSite := {
  raw_name : yaml;
  raw_fetcher : string;
  raw_domain : string;
  raw_kind : yaml;
  raw_pix : yaml;
  raw_card : yaml;
  raw_availability : yaml;
  raw_tier2_label : option string;
  raw_subresource_domains : list string;
}.

Section Parsing.
Context {T : Type} `{Yaml T}.

(** [str(v)]. *)
Definition py_str (v : yaml) : string :=
  match v with
  | YNull => "None"
  | YBool true => "True"
  | YBool false => "False"
  | YInt n => pretty n
  | YStr s | YOther s => s
  | YList _ | YDict _ => yaml_repr v
  end.

(** [_require]. *)
Definition require (mapping : yaml) (key ctx : string) : result yaml :=
  match mapping with
  | YDict d =>
      match item key d with
      | Some v => Ok v
      | None => raise ConfigError ("missing '" +:+ key +:+ "' in " +:+ ctx)
      end
  | _ => raise ConfigError ("missing '" +:+ key +:+ "' in " +:+ ctx)
  end.

(** [body.get(key)], once [body] passed [_require]. *)
Definition get_item (key : string) (body : yaml) : yaml :=
  match body with YDict d => default YNull (item key d) | _ => YNull end.

Definition all_strings (l : list yaml) : option (list string) :=
  mapM (λ v, match v with YStr s => Some s | _ => None end) l.

(** [_parse_subresource_domains]. *)
Definition parse_subresource_domains (body : yaml) : result (list string) :=
  match get_item "subresource_domains" body with
  | YNull => Ok []
  | YList l =>
      match all_strings l with
      | Some ds => Ok (filter (λ d, d ≠ "") ds)
      | None => raise ConfigError "subresource_domains must be a list of strings"
      end
  | _ => raise ConfigError "subresource_domains must be a list of strings"
  end.

Definition load_yaml (file : T) : result yaml := safe_load file.

(** [_load_yaml(...) or {}]. *)
Definition load_doc (file : T) : result yaml :=
  let? doc := load_yaml file in Ok (if falsy doc then YDict [] else doc).

(** One item of [raw_sites]. *)
Definition parse_site (name body : yaml) : result RawSite :=
  let ctx := "site " +:+ py_str name in
  let? fetcher := require body "fetcher" ctx in
  let? domain := require body "domain" ctx in
  let? parser_raw := require body "parser" ctx in
  let? kind := require parser_raw "kind" (ctx +:+ " parser") in
  let tier2_label := get_item "tier2_label" body in
  let? subs := parse_subresource_domains body in
  Ok {| raw_name := name; raw_fetcher := py_str fetcher; raw_domain := py_str domain;
        raw_kind := kind; raw_pix := get_item "pix" parser_raw;
        raw_card := get_item "card" parser_raw;
        raw_availability := get_item "availability" parser_raw;
        raw_tier2_label := match tier2_label with YNull => None | v => Some (py_str v) end;
        raw_subresource_domains := subs |}.

Definition parse_sites_yaml (file : T) : result (list RawSite) :=
  let? doc := load_doc file in
  let? raw_sites := require doc "sites" "sites.yaml" in
  match raw_sites with
  | YDict items => rmap (λ kv, parse_site kv.1 kv.2) items
  | _ => raise ConfigError "'sites' must be a mapping"
  end.

(** [site not in known_sites]. *)
Definition known_site (site : string) (known : list RawSite) : bool :=
  existsb (λ s, is_key site (raw_name s)) known.

(** One source of a product, with the triples seen before it. *)
Definition parse_source (known : list RawSite) (pid : string) (seen : list (string * string * string))
    (src : yaml) : result (string * string) :=
  let ctx := "product " +:+ pid +:+ " source" in
  let? site_v := require src "site" ctx in
  let? url_v := require src "url" ctx in
  let site := py_str site_v in
  let url := py_str url_v in
  if negb (known_site site known) then raise ConfigError ("product " +:+ pid +:+ " references unknown site")
  else if bool_decide ((pid, site, url) ∈ seen) then raise ConfigError "duplicate source"
  else Ok (site, url).

Fixpoint parse_sources (known : list RawSite) (pid : string) (seen : list (string * string * string))
    (srcs : list yaml) : result (list (string * string) * list (string * string * string)) :=
  match srcs with
  | [] => Ok ([], seen)
  | src :: rest =>
      let? (site, url) := parse_source known pid seen src in
      let? (l, seen') := parse_sources known pid ((pid, site, url) :: seen) rest in
      Ok ((site, url) :: l, seen')
  end.

Fixpoint parse_products (known : list RawSite) (seen : list (string * string * string))
    (entries : list yaml) : result ProductBatch :=
  match entries with
  | [] => Ok []
  | entry :: rest =>
      let? id_v := require entry "id" "product entry" in
      let pid := py_str id_v in
      let? raw_sources := require entry "sources" ("product " +:+ pid) in
      match raw_sources with
      | YList (src :: srcs) =>
          let? (sources, seen') := parse_sources known pid seen (src :: srcs) in
          let? products := parse_products known seen' rest in
          Ok ((pid, sources) :: products)
      | _ => raise ConfigError ("product " +:+ pid +:+ " needs a non-empty sources list")
      end
  end.

Definition parse_products_yaml (file : T) (known_sites : list RawSite) : result ProductBatch :=
  let? doc := load_doc file in
  let? raw_products := require doc "products" "products.yaml" in
  match raw_products with
  | YList entries => parse_products known_sites [] entries
  | _ => raise ConfigError "'products' must be a list"
  end.

(** * Export *)

Definition yaml_opt (s : option string) : yaml := match s with Some s => YStr s | None => YNull end.

(** [_site_to_yaml]. *)
Definition site_to_yaml (site : SiteConfig) : yaml :=
  YDict ([(YStr "fetcher", YStr (site_fetcher site)); (YStr "domain", YStr (site_domain site))]
    ++ (if truthy_opt (tier2_label site) then [(YStr "tier2_label", yaml_opt (tier2_label site))] else [])
    ++ (if bool_decide (subresource_domains site = []) then []
        else [(YStr "subresource_domains", YList (YStr <$> subresource_domains site))])
    ++ [(YStr "parser", YDict [(YStr "kind", YStr (spec_kind (site_parser site)));
                               (YStr "pix", yaml_opt (spec_pix (site_parser site)));
                               (YStr "card", yaml_opt (spec_card (site_parser site)));
                               (YStr "availability", yaml_opt (spec_availability (site_parser site)))])]).

(** [registry.sites.items()]: the store loads the sites in name order. *)
Definition sites_in_order (registry : Registry) : list (string * SiteConfig) :=
  sort_by (λ a b, str_leb a.1 b.1) (map_to_list (sites registry)).

Definition sites_doc (registry : Registry) : yaml :=
  YDict [(YStr "sites", YDict ((λ ns, (YStr ns.1, site_to_yaml ns.2)) <$> sites_in_order registry))].

Definition product_to_yaml (p : Product) : yaml :=
  YDict [(YStr "id", YStr (prod_id p));
         (YStr "sources", YList ((λ s, YDict [(YStr "site", YStr (source_site s));
                                              (YStr "url", YStr (source_url s))]) <$> prod_sources p))].

Definition products_doc (registry : Registry) : yaml :=
  YDict [(YStr "products", YList (product_to_yaml <$> products registry))].
End Parsing.

(** The sites of a file whose names and parser fields are texts, in the types of
    the services; [None] for a file with a number or a list there. *)
Definition text_of (v : yaml) : option string := match v with YStr s => Some s | _ => None end.
Definition opt_text_of (v : yaml) : option (option string) :=
  match v with YNull => Some None | YStr s => Some (Some s) | _ => None end.

Definition site_of_raw (r : RawSite) : option (string * SiteConfig) :=
  name ← text_of (raw_name r);
  kind ← text_of (raw_kind r);
  pix ← opt_text_of (raw_pix r);
  card ← opt_text_of (raw_card r);
  availability ← opt_text_of (raw_availability r);
  Some (name, {| site_name := name; site_fetcher := raw_fetcher r;
                 site_parser := {| spec_kind := kind; spec_pix := pix; spec_card := card;
                                   spec_availability := availability |};
                 site_domain := raw_domain r; tier2_label := raw_tier2_label r;
                 subresource_domains := raw_subresource_domains r |}).

Definition sites_of_raw (l : list RawSite) : option SiteBatch := mapM site_of_raw l.

(** * Properties *)

(** What survives an export: an empty label and empty hosts are dropped. *)
Definition exported_site (n : string) (s : SiteConfig) : SiteConfig :=
  {| site_name := n; site_fetcher := site_fetcher s; site_parser := site_parser s;
     site_domain := site_domain s;
     tier2_label := if truthy_opt (tier2_label s) then tier2_label s else None;
     subresource_domains := filter (λ d, d ≠ "") (subresource_domains s) |}.

Definition raw_of (n : string) (s : SiteConfig) : RawSite :=
  {| raw_name := YStr n; raw_fetcher := site_fetcher s; raw_domain := site_domain s;
     raw_kind := YStr (spec_kind (site_parser s)); raw_pix := yaml_opt (spec_pix (site_parser s));
     raw_card := yaml_opt (spec_card (site_parser s));
     raw_availability := yaml_opt (spec_availability (site_parser s));
     raw_tier2_label := if truthy_opt (tier2_label s) then tier2_label s else None;
     raw_subresource_domains := filter (λ d, d ≠ "") (subresource_domains s) |}.

Lemma all_strings_fmap l : all_strings (YStr <$> l) = Some l.
Proof. unfold all_strings. induction l as [| s l IH]; [done |]. cbn in *. by rewrite IH. Qed.

Lemma opt_text_yaml o : opt_text_of (yaml_opt o) = Some o.
Proof. by destruct o. Qed.

Lemma rmap_fmap_Ok {A B C} (f : B → result C) (g : A → B) (h : A → C) (l : list A) :
  (∀ a, a ∈ l → f (g a) = Ok (h a)) → rmap f (g <$> l) = Ok (h <$> l).
Proof.
  induction l as [| a l IH]; intros Hf; [done |]. rewrite fmap_cons. cbn [rmap].
  rewrite Hf by left. cbn [rbind]. rewrite IH; [done |]. intros b Hb. apply Hf. by right.
Qed.

Lemma site_of_raw_of n s : site_of_raw (raw_of n s) = Some (n, exported_site n s).
Proof.
  unfold site_of_raw. cbn. rewrite !opt_text_yaml. cbn. unfold exported_site. by destruct s as [?? [] ???].
Qed.

Section Roundtrip.
Context {T : Type} `{LawfulYaml T}.

Lemma load_dumped d : falsy d = false → load_doc (safe_dump d) = Ok d.
Proof. intros Hd. unfold load_doc, load_yaml. rewrite load_dump. cbn. by rewrite Hd. Qed.

(** Look the constant keys up. *)
Ltac look_up :=
  repeat (match goal with
          | |- context [bool_decide (?a = ?b :> string)] =>
              first [rewrite (bool_decide_eq_true_2 (a = b)) by reflexivity
                    | rewrite (bool_decide_eq_false_2 (a = b)) by discriminate]
          end; cbn [item is_key rbind default]).

Lemma parse_exported_site n s : parse_site (YStr n) (site_to_yaml s) = Ok (raw_of n s).
Proof.
  destruct s as [nm fe [k p c a] d t subs].
  assert (∀ opt, site_to_yaml {| site_name := nm; site_fetcher := fe;
      site_parser := {| spec_kind := k; spec_pix := p; spec_card := c; spec_availability := a |};
      site_domain := d; tier2_label := t; subresource_domains := subs |} = YDict opt →
    item "fetcher" opt = Some (YStr fe) ∧ item "domain" opt = Some (YStr d)
    ∧ item "parser" opt = Some (YDict [(YStr "kind", YStr k); (YStr "pix", yaml_opt p); (YStr "card", yaml_opt c);
                                       (YStr "availability", yaml_opt a)])
    ∧ item "tier2_label" opt = (if truthy_opt t then Some (yaml_opt t) else None)
    ∧ item "subresource_domains" opt = (if bool_decide (subs = []) then None else Some (YList (YStr <$> subs)))) as Hi.
  { intros opt [= <-]. cbn [site_fetcher site_domain site_parser spec_kind spec_pix spec_card spec_availability
      Registry.tier2_label Registry.subresource_domains].
    destruct (truthy_opt t), (bool_decide (subs = [])); cbn [app item is_key]; look_up; by split_and!. }
  match goal with |- context [parse_site _ ?y] => assert (∃ opt, y = YDict opt) as [opt Eo] by (by eexists) end.
  rewrite Eo. destruct (Hi opt Eo) as (Ef & Ed & Ep & Et & Es).
  unfold parse_site, parse_subresource_domains, require, get_item, raw_of.
  rewrite Ef, Ed, Ep, Et, Es. cbn [rbind item is_key]. look_up.
  destruct (truthy_opt t) eqn:E, subs as [| d' subs]; cbn; rewrite ?all_strings_fmap; cbn; rewrite ?E;
    by destruct t.
Qed.

Lemma parse_exported_sites registry :
  parse_sites_yaml (safe_dump (sites_doc registry)) = Ok ((λ ns, raw_of ns.1 ns.2) <$> sites_in_order registry).
Proof.
  unfold parse_sites_yaml. rewrite load_dumped by done. cbn.
  apply rmap_fmap_Ok. intros [n s] _. apply parse_exported_site.
Qed.

(** The (product, site, url) triples of a registry, in file order. *)
Definition triples_of (p : Product) : list (string * string * string) :=
  (λ s, (prod_id p, source_site s, source_url s)) <$> prod_sources p.

Definition batch_of (p : Product) : string * list (string * string) :=
  (prod_id p, (λ s, (source_site s, source_url s)) <$> prod_sources p).

Lemma parse_exported_sources known pid seen (l : list ProductSource) :
  (∀ s, s ∈ l → known_site (source_site s) known = true) →
  NoDup ((λ s, (pid, source_site s, source_url s)) <$> l) →
  (∀ s, s ∈ l → (pid, source_site s, source_url s) ∉ seen) →
  parse_sources known pid seen
    ((λ s, YDict [(YStr "site", YStr (source_site s)); (YStr "url", YStr (source_url s))]) <$> l)
  = Ok ((λ s, (source_site s, source_url s)) <$> l,
        (reverse ((λ s, (pid, source_site s, source_url s)) <$> l) ++ seen)%list).
Proof.
  revert seen. induction l as [| s l IH]; intros seen Hk Hn Hs; [done |].
  rewrite !fmap_cons. rewrite fmap_cons in Hn. apply NoDup_cons in Hn as [Hx Hn].
  cbn [parse_sources]. unfold parse_source, require. cbn [item is_key]. look_up. cbn [py_str].
  rewrite Hk by left. cbn [negb]. rewrite bool_decide_eq_false_2 by (apply Hs; left). cbn [rbind].
  rewrite IH; [| | done |].
  - cbn [rbind]. by rewrite reverse_cons, <- app_assoc.
  - intros s' Hs'. apply Hk. by right.
  - intros s' Hs' [E | Hin]%elem_of_cons; [| by apply (Hs s'); [right |]].
    apply Hx. rewrite <- E. by apply (list_elem_of_fmap_2 (λ s, (pid, source_site s, source_url s))).
Qed.

Lemma require_id p ctx : require (product_to_yaml p) "id" ctx = Ok (YStr (prod_id p)).
Proof. unfold require, product_to_yaml. cbn [item is_key]. by look_up. Qed.

Lemma require_sources p ctx :
  require (product_to_yaml p) "sources" ctx
  = Ok (YList ((λ s, YDict [(YStr "site", YStr (source_site s)); (YStr "url", YStr (source_url s))])
                 <$> prod_sources p)).
Proof. unfold require, product_to_yaml. cbn [item is_key]. by look_up. Qed.

(** One product after another, until one has no source. *)
Lemma parse_exported_products known seen (ps : list Product) :
  (∀ p s, p ∈ ps → s ∈ prod_sources p → known_site (source_site s) known = true) →
  NoDup (ps ≫= triples_of) → (∀ p t, p ∈ ps → t ∈ triples_of p → t ∉ seen) →
  match parse_products known seen (product_to_yaml <$> ps) with
  | Ok l => (∀ p, p ∈ ps → prod_sources p ≠ []) ∧ l = batch_of <$> ps
  | Raise e => exn_class e = ConfigError ∧ ∃ p, p ∈ ps ∧ prod_sources p = []
  end.
Proof.
  revert seen. induction ps as [| p ps IH]; intros seen Hk Hn Hs; [split; [by intros p Hp%elem_of_nil | done] |].
  rewrite fmap_cons. rewrite bind_cons in Hn. apply NoDup_app in Hn as (Hn1 & Hdis & Hn2).
  cbn [parse_products]. rewrite require_id. cbn [rbind py_str]. rewrite require_sources. cbn [rbind].
  pose proof (parse_exported_sources known (prod_id p) seen (prod_sources p)) as Hps.
  destruct (prod_sources p) as [| s0 l0] eqn:Ep.
  { cbn [fmap list_fmap rbind]. split; [done |]. exists p. split; [apply elem_of_cons; by left | done]. }
  rewrite fmap_cons. cbn [rbind]. rewrite !fmap_cons in Hps.
  unfold triples_of in Hn1, Hdis. rewrite Ep, fmap_cons in Hn1, Hdis.
  rewrite Hps; clear Hps; [| intros s Hin; apply (Hk p); [by left | by rewrite Ep] | done |].
  2: { intros s Hin. apply (Hs p); [by left |]. unfold triples_of. rewrite Ep.
       by apply (list_elem_of_fmap_2 (λ s, (prod_id p, source_site s, source_url s))). }
  cbn [rbind]. set (mine := (prod_id p, source_site s0, source_url s0) :: _) in *.
  specialize (IH (reverse mine ++ seen)%list).
  destruct (parse_products known _ (product_to_yaml <$> ps)) as [l | e]; cbn [rbind].
  - destruct IH as [Hne ->]; [by intros q s Hq; apply (Hk q); right | done | |].
    + intros q t Hq Ht. rewrite elem_of_app, elem_of_reverse. intros [Ht' | Ht']; [| by apply (Hs q t); [right | |]].
      apply (Hdis t Ht'). apply list_elem_of_bind. eauto.
    + split; [| rewrite (fmap_cons batch_of); f_equal; unfold batch_of; by rewrite Ep]. intros q [-> | Hq]%elem_of_cons; [by rewrite Ep | by apply Hne].
  - destruct IH as (He & q & Hq & Hq'); [by intros q s Hq; apply (Hk q); right | done | |].
    + intros q t Hq Ht. rewrite elem_of_app, elem_of_reverse. intros [Ht' | Ht']; [| by apply (Hs q t); [right | |]].
      apply (Hdis t Ht'). apply list_elem_of_bind. eauto.
    + split; [done |]. exists q. split; [by right | done].
Qed.
End Roundtrip.
