(* ===== verification/Boot.v ===== *)
(** Starting up: the check of the fetcher tiers ([interfaces/boot_checks.py]),
    the router every composition root builds ([interfaces/routing.py]) and the
    check of the trusted proxies ([interfaces/web/forwarded_allow_ips.py]). *)

From S2P Require Import Text Prelude Domain Orchestrator StateStore Registry ConfigStore Safety Digest Services Seconds Fetchers Settings.

(** * interfaces/boot_checks.py *)

(** What the check logs. *)
Inductive TierReport :=
| AllRunnable
| Unrunnable (tiers : list string)
| CheckFailed.

(** [router.tier_available] for each referenced tier. *)
Definition missing_tiers (available : string → result bool) (tiers : list string) : result (list string) :=
  let? flags := rmap (λ t, let? b := available t in Ok (if b : bool then [] else [t])) tiers in
  Ok (sort_by str_leb (mjoin flags)).

Definition log_unavailable_fetcher_tiers (available : string → result bool) (db : ConfigDb) : TierReport :=
  match missing_tiers available (Config.list_referenced_fetcher_tiers db) with
  | Raise _ => CheckFailed
  | Ok [] => AllRunnable
  | Ok missing => Unrunnable missing
  end.

(** * interfaces/routing.py *)

(** [build_static_router]: each setting under the keyword its tier takes;
    [show] writes a number of seconds. *)
Definition build_static_router (show : secs → string) (s : Settings) : RouterSettings := {|
  uc_settings :=
    [("launch_timeout_seconds", Some (show s.(uc_launch_timeout_seconds)));
     ("orphan_sweep_delay_seconds", Some (show s.(uc_orphan_sweep_delay_seconds)));
     ("fetch_timeout_seconds", Some (show s.(uc_fetch_timeout_seconds)))];
  browser_settings :=
    [("launch_timeout_seconds", Some (show s.(browser_launch_timeout_seconds)));
     ("fetch_timeout_seconds", Some (show s.(browser_fetch_timeout_seconds)));
     ("max_abandoned_fetches", Some (pretty s.(browser_max_abandoned_fetches)))];
  camoufox_settings :=
    [("launch_timeout_seconds", Some (show s.(camoufox_launch_timeout_seconds)));
     ("nav_timeout_seconds", Some (show s.(camoufox_nav_timeout_seconds)));
     ("fetch_timeout_seconds", Some (show s.(camoufox_fetch_timeout_seconds)));
     ("max_abandoned_fetches", Some (pretty s.(camoufox_max_abandoned_fetches)))];
|}.

(** * interfaces/web/forwarded_allow_ips.py *)

(** ** [ipaddress.ip_network] *)

Definition netmask (width prefixlen : Z) : Z := 2 ^ width - 2 ^ (width - prefixlen).

(** [_prefix_from_prefix_string]. *)
Definition prefix_of_string (width : Z) (s : list ascii) : option Z :=
  if bool_decide (s = []) then None
  else p ← number 10 dec_digit s; if p <=? width then Some p else None.

Fixpoint trailing_zeros (k : nat) (n : Z) : Z :=
  match k with
  | O => 0
  | S k => if Z.odd n then 0 else 1 + trailing_zeros k (Z.shiftr n 1)
  end.

(** [IPv4Network._prefix_from_ip_int]. *)
Definition prefix_of_int (n : Z) : option Z :=
  let zeros := trailing_zeros 32 n in
  let prefixlen := 32 - zeros in
  if Z.shiftr n zeros =? Z.shiftl 1 prefixlen - 1 then Some prefixlen else None.

(** A prefix length, a netmask or a host mask. *)
Definition make_netmask4 (s : list ascii) : option Z :=
  match prefix_of_string 32 s with
  | Some p => Some p
  | None =>
      n ← parse_v4 s;
      match prefix_of_int n with
      | Some p => Some p
      | None => prefix_of_int (Z.lxor n (2 ^ 32 - 1))
      end
  end.

(** [IPv6Address(addr)]: not IPv4, scope id included. *)
Definition address6 (s : list ascii) : option Z :=
  match ip_address (of_chars s) with Ok (V6 n) => Some n | _ => None end.

(** The network, with no host bit set. *)
Definition strict_network (width : Z) (n prefixlen : Z) : option (Z * Z) :=
  if Z.land n (netmask width prefixlen) =? n then Some (n, prefixlen) else None.

(** [ipaddress.ip_network(element)], of an element with a slash. *)
Definition ip_network (element : list ascii) : option (ip * Z) :=
  match fields_of "/"%char element with
  | [addr; mask] =>
      match parse_v4 addr, make_netmask4 mask with
      | Some n, Some p => net ← strict_network 32 n p; Some (V4 net.1, net.2)
      | _, _ =>
          n ← address6 addr;
          p ← prefix_of_string 128 mask;
          net ← strict_network 128 n p; Some (V6 net.1, net.2)
      end
  | _ => None
  end.

(** ** The check *)

Definition MIN_PREFIXLEN : Z := 8.

(** The elements uvicorn reads: split on commas, stripped. *)
Definition elements (value : string) : list (list ascii) := strip <$> fields_of ","%char (chars value).

Definition offends (element : list ascii) : bool :=
  if bool_decide (element = chars "*") then true
  else if negb (bool_decide ("/"%char ∈ element)) then false
  else match ip_network element with
       | None => false
       | Some (_, prefixlen) => prefixlen <? MIN_PREFIXLEN
       end.

(** The first element that offends. *)
Definition offending_element (value : string) : option (list ascii) :=
  head (filter (λ e, offends e = true) (elements value)).

(** [main]: the exit code, for a value of the variable ([""] when unset). *)
Definition forwarded_allow_ips_main (value : string) : Z :=
  match offending_element value with None => 0 | Some _ => 64 end.

Example refused_spellings :
  (λ v, of_chars <$> offending_element v) <$>
    ["*"; "10.0.0.1,*"; "0.0.0.0/0"; "0.0.0.0/00"; "0.0.0.0/0.0.0.0"; "0.0.0.0/1,128.0.0.0/1"; "::/0";
     "10.0.0.0/8"; "127.0.0.1"; "10.0.0.0/0.255.255.255"; "10.0.0.1/8"; " fd00::/8 , 192.168.0.0/16"; ""]
  = [Some "*"; Some "*"; Some "0.0.0.0/0"; Some "0.0.0.0/00"; Some "0.0.0.0/0.0.0.0"; Some "0.0.0.0/1";
     Some "::/0"; None; None; None; None; None; None].
Proof. vm_compute. reflexivity. Qed.

(** * Properties *)

Lemma decimal_nonneg s n : number 10 dec_digit s = Some n → 0 <= n.
Proof.
  unfold number. assert (∀ acc : option Z, (∀ a, acc = Some a → 0 <= a) →
    ∀ n, foldl (λ acc c, a ← acc; d ← dec_digit c; Some (a * 10 + d)) acc s = Some n → 0 <= n) as Hall.
  { induction s as [| c s IH]; cbn; [auto |]. intros acc Hacc. apply IH. intros a Ha.
    destruct acc as [a' |]; [| done]. unfold dec_digit, is_digit in Ha. cbn in Ha.
    destruct ((48 <=? code c) && (code c <=? 57)) eqn:E; [| done]. injection Ha as <-.
    specialize (Hacc a' eq_refl). lia. }
  apply Hall. intros a [= <-]. lia.
Qed.

Lemma prefix_of_string_bound w s p : prefix_of_string w s = Some p → 0 <= p <= w.
Proof.
  unfold prefix_of_string. case_bool_decide; [done |]. destruct (number 10 dec_digit s) as [n |] eqn:E; [| done].
  cbn. apply decimal_nonneg in E. destruct (n <=? w) eqn:Ew; [| done]. intros [= <-]. lia.
Qed.

Lemma trailing_zeros_bound k n : 0 <= trailing_zeros k n <= Z.of_nat k.
Proof.
  revert n. induction k as [| k IH]; intros n; cbn [trailing_zeros]; [lia |].
  destruct (Z.odd n); [lia |]. specialize (IH (Z.shiftr n 1)). lia.
Qed.

Lemma prefix_of_int_bound n p : prefix_of_int n = Some p → 0 <= p <= 32.
Proof.
  unfold prefix_of_int. generalize (trailing_zeros_bound 32 n). generalize (trailing_zeros 32 n). intros z Hz.
  cbv zeta. destruct (_ =? _); [| done]. intros [= <-]. lia.
Qed.

Lemma make_netmask4_bound s p : make_netmask4 s = Some p → 0 <= p <= 32.
Proof.
  unfold make_netmask4. destruct (prefix_of_string 32 s) eqn:E; [intros [= <-]; by eapply prefix_of_string_bound |].
  destruct (parse_v4 s) as [n |]; [| done]. cbn.
  destruct (prefix_of_int n) eqn:E1; [intros [= <-]; by eapply prefix_of_int_bound | apply prefix_of_int_bound].
Qed.

(** No host bit is set: the address is a multiple of the size of the network. *)
Lemma strict_network_base w n p r :
  0 <= p <= w → strict_network w n p = Some r → r = (n, p) ∧ n mod 2 ^ (w - p) = 0.
Proof.
  unfold strict_network, netmask. intros Hp. case_match eqn:E; [| done]. intros [= <-]. split; [done |].
  apply Z.eqb_eq in E. rewrite <- Z.land_ones by lia. rewrite <- E, <- Z.land_assoc, (Z.land_ones _ (w - p)) by lia.
  assert ((2 ^ w - 2 ^ (w - p)) mod 2 ^ (w - p) = 0) as ->; [| apply Z.land_0_r].
  replace (2 ^ w) with (2 ^ p * 2 ^ (w - p)) by (rewrite <- Z.pow_add_r by lia; f_equal; lia).
  rewrite <- Z.mul_pred_l. apply Z.mod_mul. pose proof (Z.pow_pos_nonneg 2 (w - p)). lia.
Qed.

Lemma in_net_interval w x n p :
  0 <= p <= w → n mod 2 ^ (w - p) = 0 → in_net w x (n, p) = true ↔ n <= x < n + 2 ^ (w - p).
Proof.
  intros Hp Hn. unfold in_net. cbn [fst snd]. rewrite !Z.shiftr_div_pow2 by lia. rewrite Z.eqb_eq.
  pose proof (Z.pow_pos_nonneg 2 (w - p) ltac:(lia) ltac:(lia)) as Hk.
  pose proof (Z.div_mod n (2 ^ (w - p)) ltac:(lia)) as En. rewrite Hn in En.
  set (k := 2 ^ (w - p)) in *. split.
  - intros E. pose proof (Z.div_mod x k ltac:(lia)). pose proof (Z.mod_pos_bound x k ltac:(lia)). nia.
  - intros Hx. symmetry. apply (Z.div_unique x k (n / k) (x - n)); lia.
Qed.

Definition width_of (a : ip) : Z := match a with V4 _ => 32 | V6 _ => 128 end.
Definition value_of (a : ip) : Z := match a with V4 n | V6 n => n end.

Lemma ip_network_spec e a p :
  ip_network e = Some (a, p) → 0 <= p <= width_of a ∧ value_of a mod 2 ^ (width_of a - p) = 0.
Proof.
  unfold ip_network. destruct (fields_of _ e) as [| addr [| mask [|]]]; try done.
  assert ((n ← address6 addr; p ← prefix_of_string 128 mask;
                net ← strict_network 128 n p; Some (V6 net.1, net.2)) = Some (a, p) →
    0 <= p <= width_of a ∧ value_of a mod 2 ^ (width_of a - p) = 0) as H6.
  { destruct (address6 addr) as [n |]; [| done]. cbn.
    destruct (prefix_of_string 128 mask) as [q |] eqn:Eq; [| done]. cbn. apply prefix_of_string_bound in Eq.
    destruct (strict_network 128 n q) as [r |] eqn:Er; [| done]. intros [= <- <-].
    destruct (strict_network_base _ _ _ _ Eq Er) as [-> Hm]. by split. }
  destruct (parse_v4 addr) as [n |]; [| exact H6]. destruct (make_netmask4 mask) as [q |] eqn:Eq; [| exact H6].
  cbn. apply make_netmask4_bound in Eq. destruct (strict_network 32 n q) as [r |] eqn:Er; [| done].
  intros [= <- <-]. destruct (strict_network_base _ _ _ _ Eq Er) as [-> Hm]. by split.
Qed.

(** The trusted proxies.  The check lets uvicorn start only if no element of
    the value, read as uvicorn reads it, trusts more than a proxy: none is the
    star, and each one that is a network, in whatever spelling (a length, a
    netmask, a host mask, leading zeros), covers exactly the addresses of an
    interval of at most one 256th of its address space.  Otherwise it exits with
    64, naming such an element. *)
Theorem trusted_networks_are_narrow (value : string) :
  (forwarded_allow_ips_main value = 0 →
     ∀ e, e ∈ elements value → e ≠ chars "*"
       ∧ ∀ a p, "/"%char ∈ e → ip_network e = Some (a, p) →
           MIN_PREFIXLEN <= p ∧ 2 ^ (width_of a - p) * 256 <= 2 ^ width_of a
           ∧ ∀ x, in_net (width_of a) x (value_of a, p) = true
                  ↔ value_of a <= x < value_of a + 2 ^ (width_of a - p))
  ∧ (forwarded_allow_ips_main value ≠ 0 →
       forwarded_allow_ips_main value = 64
       ∧ ∃ e, offending_element value = Some e ∧ e ∈ elements value
         ∧ (e = chars "*" ∨ ∃ a p, ip_network e = Some (a, p) ∧ p < MIN_PREFIXLEN)).
Proof.
  unfold forwarded_allow_ips_main, offending_element. split.
  - destruct (head _) eqn:Eh; [done |]. intros _ e He.
    assert (offends e = false) as Ho.
    { destruct (offends e) eqn:E; [| done]. assert (e ∈ filter (λ e, offends e = true) (elements value)) as Hin
        by (by apply list_elem_of_filter). destruct (filter _ _); [by apply elem_of_nil in Hin | done]. }
    unfold offends in Ho. case_bool_decide as Es; [done |]. split; [done |]. intros a p Hslash Hn.
    rewrite (bool_decide_eq_true_2 _ Hslash), Hn in Ho. cbn [negb] in Ho.
    destruct (ip_network_spec e a p Hn) as [Hp Hm]. apply Z.ltb_ge in Ho. split; [done |].
    split; [| intros x; by apply in_net_interval].
    change 256 with (2 ^ 8). rewrite <- Z.pow_add_r by (unfold MIN_PREFIXLEN in Ho; lia).
    apply Z.pow_le_mono_r; unfold MIN_PREFIXLEN in Ho; lia.
  - destruct (head _) as [e |] eqn:Eh; [| done]. intros _. split; [done |]. exists e. split; [done |].
    assert (e ∈ filter (λ e, offends e = true) (elements value)) as [Ho He]%list_elem_of_filter
      by (by apply head_Some_elem_of). split; [done |].
    unfold offends in Ho. case_bool_decide as Es; [by left |]. right.
    case_bool_decide; [| done]. cbn [negb] in Ho. destruct (ip_network e) as [[a p] |]; [| done].
    exists a, p. split; [done |]. by apply Z.ltb_lt.
Qed.

Lemma missing_tiers_spec available tiers :
  match missing_tiers available tiers with
  | Ok l => ∀ t, t ∈ l ↔ t ∈ tiers ∧ available t = Ok false
  | Raise e => ∃ t, t ∈ tiers ∧ available t = Raise e
  end
  ∧ (∀ l, missing_tiers available tiers = Ok l → ∀ t, t ∈ tiers → is_ok (available t) = true).
Proof.
  unfold missing_tiers.
  assert (match rmap (λ t, let? b := available t in Ok (if b : bool then [] else [t])) tiers with
    | Ok ls => (∀ t, t ∈ mjoin ls ↔ t ∈ tiers ∧ available t = Ok false)
               ∧ ∀ t, t ∈ tiers → is_ok (available t) = true
    | Raise e => ∃ t, t ∈ tiers ∧ available t = Raise e
    end) as Hr.
  { induction tiers as [| t ts IH]; cbn [rmap].
    { split; [intros t; cbn; rewrite !elem_of_nil; tauto | by intros t Ht%elem_of_nil]. }
    destruct (available t) as [b | e] eqn:Et; cbn [rbind]; [| exists t; split; [by left | done]].
    destruct (rmap _ ts) as [ls | e]; cbn [rbind].
    - destruct IH as [Hin Hok]. split.
      + intros t'. cbn [mjoin list_join]. rewrite elem_of_app, Hin, elem_of_cons. destruct b.
        * rewrite elem_of_nil. split; [tauto |]. intros [[-> | Ht'] Hf]; [congruence | tauto].
        * rewrite list_elem_of_singleton. split; [intros [-> | [Ht' Hf]]; tauto | intros [[-> | Ht'] Hf]; tauto].
      + intros t' [-> | Ht']%elem_of_cons; [by rewrite Et | by apply Hok].
    - destruct IH as (t' & Ht' & He). exists t'. split; [by right | done]. }
  destruct (rmap _ tiers) as [ls | e]; cbn [rbind].
  - destruct Hr as [Hin Hok]. split; [intros t; by rewrite elem_of_sort_by, Hin |]. intros _ _. exact Hok.
  - by split.
Qed.

Lemma referenced_tiers db t :
  t ∈ Config.list_referenced_fetcher_tiers db ↔
  ∃ sr tr, sr ∈ source_rows db ∧ tr ∈ site_rows db ∧ t_name tr = s_site sr ∧ t_fetcher tr = t.
Proof.
  unfold Config.list_referenced_fetcher_tiers. rewrite elem_of_remove_dups, list_elem_of_bind.
  setoid_rewrite list_elem_of_fmap. setoid_rewrite list_elem_of_filter. naive_solver.
Qed.

Section Report.
Context {W S : Type} `{AppPorts W} `{StateStore S}.

(** The tier report tells what the runs will do.  It never raises; when it
    names tiers, they are exactly those of a configured source that this
    deployment cannot run, and a run skips a source of such a tier without
    fetching or recording anything;
    when it is silent, every tier of a configured source is available. *)
Theorem tier_report_predicts_runs (db : ConfigDb) :
  match log_unavailable_fetcher_tiers Services.tier_available db with
  | AllRunnable => ∀ t, t ∈ Config.list_referenced_fetcher_tiers db → Services.tier_available t = Ok true
  | Unrunnable l =>
      l ≠ [] ∧ (∀ t, t ∈ l ↔ t ∈ Config.list_referenced_fetcher_tiers db ∧ Services.tier_available t = Ok false)
      ∧ ∀ owner now src site (a : App W S), site_fetcher site ∈ l →
          run_source owner now src site a = (Ok None, a)
  | CheckFailed => ∃ t e, t ∈ Config.list_referenced_fetcher_tiers db ∧ Services.tier_available t = Raise e
  end.
Proof.
  unfold log_unavailable_fetcher_tiers.
  destruct (missing_tiers_spec Services.tier_available (Config.list_referenced_fetcher_tiers db)) as [Hm Hok].
  destruct (missing_tiers _ _) as [[| t l] | e].
  - intros t Ht. specialize (Hok [] eq_refl t Ht). destruct (Services.tier_available t) as [[|] | e] eqn:E; try done.
    exfalso. by apply (elem_of_nil t), Hm.
  - split; [done |]. split; [exact Hm |]. intros owner now src site a Hs. apply Hm in Hs as [_ Hs].
    unfold run_source. by rewrite Hs.
  - destruct Hm as (t & Ht & He). by exists t, e.
Qed.
End Report.

Lemma trusted_networks_are_narrow_witness :
  forwarded_allow_ips_main "10.0.0.0/8, 127.0.0.1" = 0
  ∧ (∀ x, in_net 32 x (v4 10 0 0 0, 8) = true ↔ v4 10 0 0 0 <= x < v4 11 0 0 0)
  ∧ forwarded_allow_ips_main "0.0.0.0/00" = 64.
Proof.
  split; [vm_compute; reflexivity |].
  destruct (trusted_networks_are_narrow "10.0.0.0/8, 127.0.0.1") as [Hok _].
  destruct (trusted_networks_are_narrow "0.0.0.0/00") as [_ Hbad].
  split.
  - destruct (Hok eq_refl (chars "10.0.0.0/8")) as [_ Hn].
    + vm_compute. left.
    + destruct (Hn (V4 (v4 10 0 0 0)) 8) as (_ & _ & Hx);
        [by apply (bool_decide_eq_true_1 ("/"%char ∈ chars "10.0.0.0/8")) | vm_compute; reflexivity | exact Hx].
  - apply Hbad. vm_compute. discriminate.
Defined.
