(* ===== verification/Factories.v ===== *)
(** Building a tier's adapter: the factories of [autolycos/router.py], the
    constructors of [autolycos/adapters/], the pinned connection pool of the
    http tier.  Settings are texts, as in [Fetchers.RouterSettings]. *)

From S2P Require Import Prelude Domain Registry Safety Urls Seconds Fetchers Egress Orchestrator StateStore ConfigStore Digest Services Settings Boot.

(** * Keyword arguments *)

(** How Python binds keyword arguments to the keyword parameters of a
    function, with their defaults. *)
Definition bind_kwargs (params kwargs : list (string * string)) : result (list (string * string)) :=
  if forallb (λ kv, bool_decide (kv.1 ∈ params.*1)) kwargs
  then Ok ((λ '(name, fallback), (name, default fallback (od_get name kwargs))) <$> params)
  else raise TypeError "got an unexpected keyword argument".

(** * The adapters *)

Record Adapter := {
  ad_method : string;
  ad_subresources : list string;   (* as the constructor keeps them *)
  ad_gated : bool;                 (* takes the shared browser gate *)
  ad_params : list (string * string);
}.

Definition UC_PARAMS : list (string * string) :=
  [("launch_timeout_seconds", "30.0"); ("orphan_sweep_delay_seconds", "5.0"); ("fetch_timeout_seconds", "90.0")].
Definition BROWSER_PARAMS : list (string * string) :=
  [("launch_timeout_seconds", "20.0"); ("fetch_timeout_seconds", "90.0"); ("max_abandoned_fetches", "5")].
Definition CAMOUFOX_PARAMS : list (string * string) :=
  [("launch_timeout_seconds", "20.0"); ("nav_timeout_seconds", "45.0"); ("fetch_timeout_seconds", "90.0");
   ("max_abandoned_fetches", "5"); ("executable_path", "/opt/camoufox/camoufox-bin");
   ("expected_version", "152.0.4-beta.30"); ("late_sweep_seconds", "5.0")].

(** [d.lower().rstrip(".") for d in domains if d], into a set. *)
Definition normalized (domains : list string) : list string :=
  remove_dups ((λ d, of_chars (normalize_host d)) <$> filter (λ d, d ≠ "") domains).

Definition UcFetcher (subresource_domains : list string) (kwargs : list (string * string)) : result Adapter :=
  let? params := bind_kwargs UC_PARAMS kwargs in
  Ok {| ad_method := "uc"; ad_subresources := subresource_domains; ad_gated := true; ad_params := params |}.

Definition BrowserFetcher (subresource_domains : list string) (kwargs : list (string * string)) : result Adapter :=
  let? params := bind_kwargs BROWSER_PARAMS kwargs in
  Ok {| ad_method := "browser"; ad_subresources := normalized subresource_domains; ad_gated := true;
        ad_params := params |}.

Definition CamoufoxFetcher (subresource_domains : list string) (kwargs : list (string * string)) : result Adapter :=
  let? params := bind_kwargs CAMOUFOX_PARAMS kwargs in
  Ok {| ad_method := "camoufox"; ad_subresources := normalized subresource_domains; ad_gated := true;
        ad_params := params |}.

(** * The factories *)

Section Factories.
(** [hasattr(HTTPAdapter, "build_connection_pool_key_attributes")]: the
    installed requests can pin. *)
Variable can_pin : bool.

Definition HttpFetcher : result Adapter :=
  if can_pin then Ok {| ad_method := "http"; ad_subresources := []; ad_gated := false; ad_params := [] |}
  else raise RuntimeError "requests is too old for the SSRF IP pin".

Definition TlsFetcher : result Adapter :=
  Ok {| ad_method := "tls"; ad_subresources := []; ad_gated := false; ad_params := [] |}.

Definition make_http (kwargs : list (string * string)) : result Adapter :=
  let? _ := bind_kwargs [] kwargs in HttpFetcher.
Definition make_tls (kwargs : list (string * string)) : result Adapter :=
  let? _ := bind_kwargs [] kwargs in TlsFetcher.

(** A parameter of the factory that is [None] is left out of the call. *)
Definition make_browser (subresource_domains : list string) (kwargs : list (string * string)) : result Adapter :=
  let accepted := ["launch_timeout_seconds"; "fetch_timeout_seconds"; "max_abandoned_fetches"] in
  let? _ := bind_kwargs ((λ n, (n, "")) <$> accepted) kwargs in
  BrowserFetcher subresource_domains (omap (λ n, v ← od_get n kwargs; Some (n, v)) accepted).
Definition make_uc (subresource_domains : list string) (kwargs : list (string * string)) : result Adapter :=
  let accepted := ["launch_timeout_seconds"; "orphan_sweep_delay_seconds"; "fetch_timeout_seconds"] in
  let? _ := bind_kwargs ((λ n, (n, "")) <$> accepted) kwargs in
  UcFetcher subresource_domains (omap (λ n, v ← od_get n kwargs; Some (n, v)) accepted).
Definition make_camoufox (subresource_domains : list string) (kwargs : list (string * string)) : result Adapter :=
  CamoufoxFetcher subresource_domains kwargs.

(** [_FACTORIES[tier](...)]. *)
Definition make (tier : string) (subresource_domains : list string) (kwargs : list (string * string))
    : result Adapter :=
  if bool_decide (tier = "http") then make_http kwargs
  else if bool_decide (tier = "tls") then make_tls kwargs
  else if bool_decide (tier = "browser") then make_browser subresource_domains kwargs
  else if bool_decide (tier = "uc") then make_uc subresource_domains kwargs
  else if bool_decide (tier = "camoufox") then make_camoufox subresource_domains kwargs
  else raise KeyError tier.

(** ** What reaches a tier *)

(** With the settings of the application every known tier is built, an
    outdated requests apart; each setting of a tier arrives under its name, the
    other parameters keep their defaults, and the browser tiers, no other, take
    the shared gate. *)
Theorem settings_reach_the_tiers (show : secs → string) (s : Settings.Settings) (tier : string) (subs : list string) :
  tier ∈ known_tiers → can_pin = true →
  let kwargs := extra_kwargs (build_static_router show s) tier in
  ∃ adapter, make tier subs kwargs = Ok adapter
    ∧ ad_method adapter = tier
    ∧ (∀ name value, (name, value) ∈ kwargs → (name, value) ∈ ad_params adapter)
    ∧ (ad_gated adapter = true ↔ tier ∈ ["browser"; "uc"; "camoufox"])
    ∧ NoDup (ad_params adapter).*1.
Proof.
  intros Ht Hp kwargs. subst kwargs.
  assert (Hcases : tier = "http" ∨ tier = "tls" ∨ tier = "browser" ∨ tier = "uc" ∨ tier = "camoufox").
  { cbn in Ht. set_solver. }
  destruct Hcases as [-> | [-> | [-> | [-> | ->]]]]; [unfold make, make_http, HttpFetcher; rewrite Hp | ..].
  all: (eexists; split; [reflexivity |]); split_and!; cbn.
  all: try done; try set_solver.
  all: apply (bool_decide_eq_true_1 _); reflexivity.
Qed.
End Factories.

Example browser_factory :
  ∃ adapter, make true "browser" ["CDN.kabum.com.br."; ""] (extra_kwargs no_settings "browser") = Ok adapter
    ∧ ad_subresources adapter = ["cdn.kabum.com.br"] ∧ ad_params adapter = BROWSER_PARAMS.
Proof. eexists. split; [vm_compute; reflexivity |]. by split. Qed.

(** * The pinned pool *)

(** What urllib3 keys a pool by, as far as the adapter sets it: where the
    connection goes, the name sent in the handshake and the name the
    certificate must carry; [super().build_connection_pool_key_attributes]
    gives those of the request. *)
Record PoolKey := {
  pool_scheme : string;
  pool_host : string;
  pool_port : option Z;
  server_hostname : option string;
  assert_hostname : option string;
}.

Definition build_connection_pool_key_attributes (hostname ip : string) (key : PoolKey) : PoolKey := {|
  pool_scheme := key.(pool_scheme); pool_host := ip; pool_port := key.(pool_port);
  server_hostname := Some hostname; assert_hostname := Some hostname |}.

(** The pool of one hop: [_PinnedHTTPAdapter(target.host, target.ip)]. *)
Definition pinned_pool (target : ValidatedTarget) (key : PoolKey) : PoolKey :=
  build_connection_pool_key_attributes target.(vt_host) target.(vt_ip) key.
