(* ===== verification/Mcp.v ===== *)
(** The MCP interface ([interfaces/mcp/]): who a call acts for, the public URL
    and the Host allowlist derived from it, and the server mounted under
    [/mcp].

    The MCP SDK is outside the repository: its middleware hands the token of a
    request to [verify_token] and keeps the answer as the request's access
    token; its server constructor is the parameter [new_server]. *)

From S2P Require Import Text Prelude RunQueue Domain Orchestrator StateStore DateTime Registry ConfigStore Safety Urls Digest Services Auth Seconds Settings Uc Session Filters Web.

(** * auth.py *)

Record AccessToken := {
  ac_token : string;
  client_id : string;
  subject : option string;
  scopes : list string;
}.

Section McpAuth.
Variable sha256 : string → string.

(** [KerdoosTokenVerifier.verify_token]. *)
Definition verify_token (token : string) (now : Z) : M Auth (option AccessToken) :=
  let! principal := Auth.verify_bearer sha256 token now in
  mret' (match principal with
         | None => None
         | Some p => Some {| ac_token := token; client_id := p.(owner_id);
                             subject := Some p.(owner_id); scopes := [p.(role)] |}
         end).
End McpAuth.

(** [current_principal], for the access token of the request. *)
Definition current_principal (access : option AccessToken) : result Principal :=
  let refused := raise PermissionError "no authenticated principal for this MCP request" in
  match access with
  | None => refused
  | Some a =>
      match a.(subject), a.(scopes) with
      | Some s, [r] => if truthy s then Ok {| owner_id := s; role := r |} else refused
      | _, _ => refused
      end
  end.

(** * tools.py *)

Definition whoami (access : option AccessToken) : result (list (string * string)) :=
  let? p := current_principal access in Ok [("role", p.(role))].

(** * server.py *)

Definition MOUNT_PATH : string := "/mcp".

Record Scope := { scope_type : string; scope_path : string; scope_raw_path : string }.

(** [ExactMountPathMiddleware.__call__]: the scope the application gets. *)
Definition exact_mount_path (scope : Scope) : Scope :=
  if bool_decide (scope.(scope_type) = "http") && bool_decide (scope.(scope_path) = MOUNT_PATH)
  then {| scope_type := scope.(scope_type); scope_path := MOUNT_PATH +:+ "/";
          scope_raw_path := MOUNT_PATH +:+ "/" |}
  else scope.

Definition rstrip_slash (s : string) : string :=
  of_chars (reverse (drop_while (λ c, bool_decide (c = "/"%char)) (reverse (chars s)))).

Definition PATH_SAFE : list ascii := chars "/-._~".

(** The parsed URL, its port read; [None] after a [ValueError]. *)
Definition split_public_url (raw : string) : result (option SplitResult) :=
  match (let? parts := urlsplit5 raw in let? _ := port parts.(sr_netloc) in Ok parts) with
  | Ok parts => Ok (Some parts)
  | Raise e => if is_a e.(exn_class) ValueError then Ok None else Raise e
  end.

Definition acceptable (parts : SplitResult) : bool :=
  bool_decide (parts.(sr_scheme) ∈ [chars "http"; chars "https"])
  && bool_decide (is_Some (hostname parts.(sr_netloc)))
  && negb (has_userinfo parts)
  && bool_decide (parts.(sr_query) = []) && bool_decide (parts.(sr_fragment) = []).

Definition public_url_of (s : Settings) : result string :=
  match s.(public_url) with
  | None => raise RuntimeError "KERDOOS_MCP_ENABLED=true but KERDOOS_PUBLIC_URL is not set"
  | Some raw =>
      if negb (truthy raw)
      then raise RuntimeError "KERDOOS_MCP_ENABLED=true but KERDOOS_PUBLIC_URL is not set"
      else
        let? parts := split_public_url raw in
        match parts with
        | Some p =>
            if negb (acceptable p)
            then raise RuntimeError "KERDOOS_PUBLIC_URL must be an http(s) URL with a host"
            else if negb (bool_decide (of_chars p.(sr_path) = quote PATH_SAFE (of_chars p.(sr_path))))
            then raise RuntimeError "KERDOOS_PUBLIC_URL has a path with characters outside the unreserved set"
            else Ok (rstrip_slash raw)
        | None => raise RuntimeError "KERDOOS_PUBLIC_URL must be an http(s) URL with a host"
        end
  end.

(** [list(dict.fromkeys(l))]. *)
Definition dedup (l : list string) : list string :=
  foldl (λ acc x, if bool_decide (x ∈ acc) then acc else acc ++ [x])%list [] l.

(** The host and port of the public URL, as a Host header writes them. *)
Definition derived_hosts (public_url : string) : result (list string) :=
  let? parts := urlsplit5 public_url in
  match hostname parts.(sr_netloc) with
  | None => raise TypeError "argument of type 'NoneType' is not iterable"
  | Some h =>
      let host := if bool_decide (":"%char ∈ h) then "[" +:+ of_chars h +:+ "]" else of_chars h in
      let? p := port parts.(sr_netloc) in
      let p := match p with
               | Some n => if n =? 0 then default_port (of_chars parts.(sr_scheme)) else n
               | None => default_port (of_chars parts.(sr_scheme))
               end in
      Ok [host; host +:+ ":" +:+ pretty p]
  end.

Definition allowed_hosts_of (s : Settings) (public_url : string) : result (list string) :=
  if existsb (λ extra, bool_decide ("*"%char ∈ chars extra)) s.(mcp_allowed_hosts)
  then raise RuntimeError "KERDOOS_MCP_ALLOWED_HOSTS: wildcards are refused"
  else let? derived := derived_hosts public_url in Ok (dedup (derived ++ s.(mcp_allowed_hosts))).

(** The process-wide root logger. *)
Record RootLogger := { handlers : list string; level : Z }.

(** What the server is built with. *)
Record McpMount := {
  issuer_url : string;
  resource_server_url : string;
  validate_token_resource : bool;
  transport_allowed_hosts : list string;
  max_sessions : Z;
  session_idle_timeout : secs;
  redirect_slashes : bool;
}.

Section Server.
(** [MCPServer(...)], which calls [logging.basicConfig]. *)
Variable new_server : M RootLogger unit.

Definition restore (before : RootLogger) : M RootLogger unit := λ _, (Ok tt, before).

Definition build_mcp_server (s : Settings) : M RootLogger McpMount :=
  let! public_url := mlift (public_url_of s) in
  let! allowed_hosts := mlift (allowed_hosts_of s public_url) in
  let! root := mget in
  let! _ := mfinally new_server (restore root) in
  mret' {| issuer_url := public_url; resource_server_url := public_url +:+ MOUNT_PATH;
           validate_token_resource := false; transport_allowed_hosts := allowed_hosts;
           max_sessions := s.(mcp_max_sessions);
           session_idle_timeout := s.(mcp_session_idle_timeout_seconds);
           redirect_slashes := false |}.
End Server.

(** * Properties *)

Section Identity.
Context {W S : Type} `{AppPorts W} `{StateStore S} `{Hmac}.
Variable D : Deployment.

Lemma bearer_header token env (w : Web W S) :
  token ≠ "" →
  fst (Web.verify_bearer D ("Bearer " +:+ token) env w)
  = Ok (match principal_of <$> AuthStore.resolve_token (D.(d_sha256) token) (isoformat env.(gate_now)) (web_db w) with
        | Some p => inr p
        | None => inl (HTTPException 401 "invalid or expired token")
        end).
Proof.
  intros Ht. unfold Web.verify_bearer. rewrite chars_app.
  change (chars "Bearer ") with (chars "Bearer" ++ [" "%char])%list. rewrite <- app_assoc. cbn [app].
  rewrite partition_sep by (by apply (bool_decide_eq_true_1 (" "%char ∉ chars "Bearer"))).
  rewrite (bool_decide_eq_true_2 (lower (chars "Bearer") = chars "bearer")) by reflexivity.
  rewrite (bool_decide_eq_false_2 (chars token = [])) by (by destruct token).
  cbn [negb andb]. rewrite of_chars_chars. unfold on_auth, Auth.verify_bearer, mgets, mbind'. cbn.
  by destruct (_ <$> _).
Qed.

(** C12: one identity on both surfaces.  For the same token at the same instant,
    an MCP tool acts for exactly the principal that the web interface's bearer
    guard would let through, and where the guard answers 401 the tool is refused
    with [PermissionError]: no call runs with a missing or partial identity, and
    the check changes nothing. *)
Theorem mcp_principal_is_web_principal (token : string) (env : Env) (w : Web W S) :
  token ≠ "" → (∀ r, r ∈ auth_owners (web_db w) → o_id r ≠ "") →
  ∃ access,
    verify_token D.(d_sha256) token env.(gate_now) (mkAuth (web_db w) (web_argon2 w))
    = (Ok access, mkAuth (web_db w) (web_argon2 w))
    ∧ match fst (Web.verify_bearer D ("Bearer " +:+ token) env w) with
      | Ok (inr p) => current_principal access = Ok p ∧ whoami access = Ok [("role", role p)]
      | Ok (inl (HTTPException status _)) =>
          status = 401 ∧ ∃ e, exn_class e = PermissionError
            ∧ current_principal access = Raise e ∧ whoami access = Raise e
      | Raise _ => False
      end.
Proof.
  intros Ht Hids. rewrite bearer_header by done.
  unfold verify_token, Auth.verify_bearer, mgets, mbind'. cbn [auth_db].
  destruct (AuthStore.resolve_token _ _ _) as [i |] eqn:Er; cbn [fmap option_fmap option_map].
  - eexists. split; [done |]. cbn. unfold AuthStore.resolve_token in Er.
    apply head_omap_Some in Er as (t & _ & Ht'). case_match; [| done].
    apply active_owner_row in Ht' as (r & Hr & _ & _ & Hid & _).
    assert (truthy (ri_owner_id i) = true) as E
      by (unfold truthy; rewrite bool_decide_eq_false_2; [done | rewrite Hid; by apply Hids]).
    unfold whoami. cbn. by rewrite E.
  - exists None. split; [done |]. split; [done |].
    by exists (Exn PermissionError "no authenticated principal for this MCP request").
Qed.
End Identity.

(** ** The public URL and the allowlist *)

Lemma split_public_url_Some raw p :
  split_public_url raw = Ok (Some p) → urlsplit5 raw = Ok p ∧ is_ok (port (sr_netloc p)) = true.
Proof.
  unfold split_public_url. destruct (urlsplit5 raw) as [q | e]; cbn [rbind].
  - destruct (port (sr_netloc q)) eqn:E; cbn [rbind]; [intros [= <-]; by rewrite E | by case_match].
  - by case_match.
Qed.

Lemma split_public_url_ok raw e : split_public_url raw ≠ Raise e.
Proof.
  unfold split_public_url. intros He.
  destruct (let? parts := urlsplit5 raw in let? _ := port (sr_netloc parts) in Ok parts) as [p | e'] eqn:E; [done |].
  assert (exn_class e' = ValueError) as Hc; [| by rewrite Hc in He].
  destruct (urlsplit5 raw) as [p | e5] eqn:E5; cbn [rbind] in E.
  - destruct (port (sr_netloc p)) as [| e1] eqn:Ep; [done |]. injection E as <-.
    unfold port in Ep. repeat case_match; try done; by injection Ep as <-.
  - injection E as <-. apply (urlsplit_raises raw). by rewrite urlsplit5_urlsplit, E5.
Qed.

(** The public URL.  It is used only if it is an http(s) URL with a host, no
    credentials, no query or fragment and a path of unreserved characters, and
    then without its trailing slashes; anything else stops the start-up with
    [RuntimeError]. *)
Theorem public_url_checked (s : Settings) :
  match public_url_of s with
  | Ok u => ∃ raw p h, public_url s = Some raw ∧ u = rstrip_slash raw ∧ urlsplit5 raw = Ok p
      ∧ sr_scheme p ∈ [chars "http"; chars "https"] ∧ hostname (sr_netloc p) = Some h
      ∧ "@"%char ∉ sr_netloc p ∧ sr_query p = [] ∧ sr_fragment p = []
      ∧ is_ok (port (sr_netloc p)) = true
  | Raise e => exn_class e = RuntimeError
  end.
Proof.
  unfold public_url_of. destruct (public_url s) as [raw |]; [| done].
  destruct (truthy raw); cbn [negb]; [| done].
  destruct (split_public_url raw) as [[p |] | e] eqn:Es; cbn [rbind]; [| done |].
  2: { exfalso. by apply (split_public_url_ok raw e). }
  destruct (split_public_url_Some raw p Es) as [Eu Hp].
  destruct (acceptable p) eqn:Ea; cbn [negb]; [| done]. unfold acceptable, has_userinfo in Ea.
  rewrite !andb_true_iff, !bool_decide_eq_true, negb_true_iff, bool_decide_eq_false in Ea.
  case_bool_decide; cbn [negb]; [| done].
  destruct Ea as ((((Hs & [h Hh]) & Hat) & Hq) & Hf). exists raw, p, h. by split_and!.
Qed.

Lemma dedup_spec l : NoDup (dedup l) ∧ ∀ x, x ∈ dedup l ↔ x ∈ l.
Proof.
  unfold dedup. induction l as [| x l [Hn Hin]] using rev_ind; [split; [constructor | done] |].
  rewrite foldl_snoc. case_bool_decide as Hx.
  - split; [done |]. intros y. rewrite Hin, elem_of_app, list_elem_of_singleton.
    split; [tauto |]. intros [| ->]; [done | by apply Hin].
  - split.
    + apply NoDup_app. split_and!; [done | | apply NoDup_singleton].
      intros y Hy ->%list_elem_of_singleton. done.
    + intros y. by rewrite !elem_of_app, Hin, list_elem_of_singleton.
Qed.

(** The Host allowlist.  With a wildcard among the configured extras the
    server does not start; otherwise the list names, without repetition, the
    host of the public URL (in brackets when it is an IPv6 address) alone and
    with its port, the default port of the scheme when none is written, and the
    configured extras, and nothing else, so no entry is a wildcard. *)
Theorem host_allowlist_exact (s : Settings) (url : string) (p : SplitResult) (h : list ascii) (n : option Z) :
  urlsplit5 url = Ok p → hostname (sr_netloc p) = Some h → port (sr_netloc p) = Ok n →
  match allowed_hosts_of s url with
  | Raise e => exn_class e = RuntimeError ∧ ∃ extra, extra ∈ mcp_allowed_hosts s ∧ "*"%char ∈ chars extra
  | Ok l =>
      let host := if bool_decide (":"%char ∈ h) then "[" +:+ of_chars h +:+ "]" else of_chars h in
      let number := match n with Some n => if n =? 0 then default_port (of_chars (sr_scheme p)) else n
                                | None => default_port (of_chars (sr_scheme p)) end in
      NoDup l
      ∧ (∀ x, x ∈ l ↔ x = host ∨ x = host +:+ ":" +:+ pretty number ∨ x ∈ mcp_allowed_hosts s)
      ∧ ∀ x, x ∈ mcp_allowed_hosts s → "*"%char ∉ chars x
  end.
Proof.
  intros Hu Hh Hn. unfold allowed_hosts_of. destruct (existsb _ _) eqn:Ex.
  - split; [done |]. apply existsb_exists in Ex as (x & Hx%list_elem_of_In & Hs%bool_decide_eq_true). eauto.
  - unfold derived_hosts. rewrite Hu. cbn [rbind]. rewrite Hh, Hn. cbn [rbind]. cbv zeta.
    match goal with |- NoDup (dedup ?l) ∧ _ => destruct (dedup_spec l) as [Hnd Hin] end.
    split; [done |]. split.
    + intros x. rewrite Hin. cbn [app]. by rewrite !elem_of_cons.
    + intros x Hx Hs. apply (f_equal negb) in Ex. rewrite negb_true_iff in Ex.
      assert (existsb (λ extra, bool_decide ("*"%char ∈ chars extra)) (mcp_allowed_hosts s) = true) as Et; [| congruence].
      apply existsb_exists. exists x. split; [by apply list_elem_of_In | by apply bool_decide_eq_true].
Qed.

(** ** The server *)

(** Mounting the server leaves the process-wide root logger as it was,
    whatever the SDK's constructor does to it and whether or not it raises, and
    a server is only built from a checked URL and its allowlist. *)
Theorem mcp_server_mounts_cleanly (new_server : M RootLogger unit) (s : Settings) (before : RootLogger) :
  let '(r, after) := build_mcp_server new_server s before in
  after = before
  ∧ match r with
    | Ok m => public_url_of s = Ok (issuer_url m)
        ∧ resource_server_url m = issuer_url m +:+ MOUNT_PATH
        ∧ allowed_hosts_of s (issuer_url m) = Ok (transport_allowed_hosts m)
        ∧ redirect_slashes m = false ∧ validate_token_resource m = false
    | Raise e => public_url_of s = Raise e
        ∨ (∃ u, public_url_of s = Ok u ∧ allowed_hosts_of s u = Raise e)
        ∨ fst (new_server before) = Raise e
    end.
Proof.
  unfold build_mcp_server, mbind', mlift, mget, mfinally, restore.
  destruct (public_url_of s) as [u | e]; [| by split; [| left]].
  destruct (allowed_hosts_of s u) as [l | e] eqn:El; [| split; [done | right; left; by exists u]].
  destruct (new_server before) as [[[] | e] after]; cbn; (split; [done |]); [by split_and! | by right; right].
Qed.

(** ** Concrete settings *)

Module McpDemo.
Definition settings (url : option string) (extras : list string) : Settings := {|
  session_secret := None; config_db := "config.db"; state_db := "state.db"; Settings.cookie_secure := true;
  workers := 1; digest_evaluator_enabled := false; smtp_host_setting := None; smtp_port_setting := 587;
  smtp_from := None; smtp_username := None; smtp_password := None; smtp_use_tls := true;
  smtp_timeout_seconds := seconds 10; smtp_retry_attempts := 2; smtp_retry_backoff_seconds := seconds 1;
  digest_reaper_timeout_seconds := 900; browser_max_concurrent := 1;
  browser_acquire_timeout_seconds := seconds 300; run_queue_max_restarts := 3;
  run_queue_backlog_warn_threshold := 10; run_now_cooldown_seconds := seconds 60;
  uc_launch_timeout_seconds := seconds 60; browser_launch_timeout_seconds := seconds 60;
  login_rate_limit_window_seconds := seconds 900; login_rate_limit_max_attempts := 5;
  login_rate_limit_row_cap := 10000; uc_orphan_sweep_delay_seconds := seconds 60;
  browser_fetch_timeout_seconds := seconds 120; browser_max_abandoned_fetches := 3;
  uc_fetch_timeout_seconds := seconds 120; camoufox_launch_timeout_seconds := seconds 60;
  camoufox_nav_timeout_seconds := seconds 60; camoufox_fetch_timeout_seconds := seconds 120;
  camoufox_max_abandoned_fetches := 3; mcp_enabled := true; public_url := url;
  mcp_allowed_hosts := extras; mcp_max_sessions := 100;
  mcp_session_idle_timeout_seconds := seconds 1800 |}.
Definition at_ (url : string) : Settings := settings (Some url) ["proxy:8000"].

Example urls :
  (λ u, match public_url_of (at_ u) with Ok r => Some r | Raise _ => None end) <$>
    ["https://Kerdoos.example/"; "http://[::1]:8000//"; "ftp://h"; "https://u@h"; "https://h?q"; "https://h:99999";
     "https://h/a%20b"; "https:///x"; ""]
  = [Some "https://Kerdoos.example"; Some "http://[::1]:8000"; None; None; None; None; None; None; None].
Proof. vm_compute. reflexivity. Qed.

Example hosts :
  (λ u, match allowed_hosts_of (at_ u) u with Ok l => Some l | Raise _ => None end) <$>
    ["https://Kerdoos.example"; "http://[::1]:8000"; "http://h:0"]
  = [Some ["kerdoos.example"; "kerdoos.example:443"; "proxy:8000"];
     Some ["[::1]"; "[::1]:8000"; "proxy:8000"]; Some ["h"; "h:80"; "proxy:8000"]].
Proof. vm_compute. reflexivity. Qed.
End McpDemo.

(** A URL that ends in a question mark has an empty query, so it passes; the
    advertised resource URL, built by appending the mount path to the text, then
    has that path in its query. *)
Theorem empty_query_swallows_mount_path :
  ∃ u p, public_url_of (McpDemo.at_ "https://kerdoos.example?") = Ok u
    ∧ urlsplit5 (u +:+ MOUNT_PATH) = Ok p ∧ sr_path p = [] ∧ of_chars (sr_query p) = MOUNT_PATH.
Proof.
  exists "https://kerdoos.example?". eexists. split_and!; [vm_compute; reflexivity .. |]; reflexivity.
Qed.

Lemma host_allowlist_exact_witness :
  ∃ l, allowed_hosts_of (McpDemo.at_ "https://Kerdoos.example/x") "https://Kerdoos.example/x" = Ok l
    ∧ NoDup l ∧ "kerdoos.example:443" ∈ l.
Proof.
  destruct (allowed_hosts_of (McpDemo.at_ "https://Kerdoos.example/x") "https://Kerdoos.example/x") as [l | e] eqn:El;
    [| vm_compute in El; discriminate El].
  exists l. split; [reflexivity |].
  destruct (urlsplit5 "https://Kerdoos.example/x") as [p | e] eqn:Ep; [| vm_compute in Ep; discriminate Ep].
  pose proof (host_allowlist_exact (McpDemo.at_ "https://Kerdoos.example/x") "https://Kerdoos.example/x" p
    (chars "kerdoos.example") None Ep) as Hl.
  vm_compute in Ep. injection Ep as <-. specialize (Hl eq_refl eq_refl). rewrite El in Hl.
  destruct Hl as (Hn & Hin & _). split; [exact Hn |]. apply Hin. right. left. reflexivity.
Defined.

Import SessionDemo.

Lemma mcp_principal_is_web_principal_witness :
  let w := snd (on_auth (Auth.create_token AuthDemo.sha AuthDemo.ttl AuthDemo.ana "tok" "t1" AuthDemo.t0) WebDemo.shared) in
  ∃ access, fst (verify_token AuthDemo.sha "tok" (gate_now WebDemo.env) (mkAuth (web_db w) (web_argon2 w))) = Ok access
    ∧ current_principal access = Ok AuthDemo.ana.
Proof.
  intros w.
  destruct (mcp_principal_is_web_principal WebDemo.deployment "tok" WebDemo.env w) as (access & Hv & Hp);
    [discriminate | |].
  - intros r Hr. change (r ∈ [AuthDemo.ana_row; WebDemo.bia_row]) in Hr.
    rewrite !elem_of_cons in Hr. destruct Hr as [-> | [-> | Hr]]; [discriminate | discriminate | by apply elem_of_nil in Hr].
  - exists access. split; [exact (f_equal fst Hv) |].
    assert (fst (Web.verify_bearer WebDemo.deployment ("Bearer " +:+ "tok") WebDemo.env w) = Ok (inr AuthDemo.ana)) as E
      by (vm_compute; reflexivity).
    rewrite E in Hp. apply Hp.
Defined.
