(* ===== verification/Cli.v ===== *)
(** The command line, [interfaces/cli/main.py]: one definition per command on
    the state of the machine it runs on, the database files, the other files,
    the standard streams.  [argparse] is the type [command], what it makes of
    the arguments; closing a store does nothing and is left out. *)

From S2P Require Import Text Prelude Domain Orchestrator StateStore Registry ConfigStore DateTime Scheduler Evaluator Safety Urls Services Auth Seconds Fetchers Digest Smtp Settings Boot Yaml.

(** * The machine *)

(** [sys.stdin]: not a terminal, with its text, or a terminal, with the answers
    to the two prompts. *)
Inductive Stdin := Pipe (text : string) | Terminal (password confirmation : string).

Record Machine (W S T : Type) := mkMachine {
  config_dbs : gmap string ConfigDb;
  state_dbs : gmap string S;
  files : gmap (string * string) T;
  outside : W;
  boot : Boot;
  stdin : Stdin;
  stdout : list string;
  stderr : list string;
  reports : list TierReport;
}.
Arguments mkMachine {W S T}.
Arguments config_dbs {W S T}.
Arguments state_dbs {W S T}.
Arguments files {W S T}.
Arguments outside {W S T}.
Arguments boot {W S T}.
Arguments stdin {W S T}.
Arguments stdout {W S T}.
Arguments stderr {W S T}.
Arguments reports {W S T}.

(** What [BrowserGate] is built with. *)
Record GateSettings := {
  max_concurrent : Z;
  lock_dir : string;
  acquire_timeout_seconds : secs;
}.

(** The deployment: the environment and its conversions, the primary keys of
    the database files as they are found, a new state.db, the adapters a gate
    and a router are built into, the outside, and what the services store of a
    site whose name or parser fields are not texts. *)
Record Host (W S : Type) := {
  environ : string → option string;
  to_int : string → result Z;
  to_float : string → result secs;
  show : secs → string;
  repr : string → string;
  sources_pk : string → list string;
  new_state_db : S;
  adapters : GateSettings → RouterSettings → AppPorts W;
  digest_of_url : string → string;
  zone_info : string → result Zone;
  now : M W Z;
  now_iso : M W string;
  uuid4_hex : M W string;
  hash_password : string → M W string;
  other_site : RawSite → result (string * SiteConfig);
  sends : DigestSender → string → nat → SendOutcome;
}.
Arguments environ {W S}.
Arguments to_int {W S}.
Arguments to_float {W S}.
Arguments show {W S}.
Arguments repr {W S}.
Arguments sources_pk {W S}.
Arguments new_state_db {W S}.
Arguments adapters {W S}.
Arguments digest_of_url {W S}.
Arguments zone_info {W S}.
Arguments now {W S}.
Arguments now_iso {W S}.
Arguments uuid4_hex {W S}.
Arguments hash_password {W S}.
Arguments other_site {W S}.
Arguments sends {W S}.

(** ** [pathlib.PurePosixPath] *)

Definition SLASH : ascii := "/"%char.

Definition path_root (cs : list ascii) : list ascii :=
  match cs with
  | a :: rest =>
      if bool_decide (a = SLASH) then
        match rest with
        | b :: rest' =>
            if bool_decide (b = SLASH) && negb (bool_decide (head rest' = Some SLASH)) then [SLASH; SLASH] else [SLASH]
        | [] => [SLASH]
        end
      else []
  | [] => []
  end.

Definition path_parts (cs : list ascii) : list (list ascii) :=
  filter (λ f, f ≠ [] ∧ f ≠ chars ".") (fields_of SLASH cs).

Definition path_of (root : list ascii) (parts : list (list ascii)) : string :=
  let cs := (root ++ join_fields SLASH parts)%list in
  if bool_decide (cs = []) then "." else of_chars cs.

(** [str(Path(p))] and [Path(p).parent]. *)
Definition path_str (p : string) : string := path_of (path_root (chars p)) (path_parts (chars p)).
Definition path_parent (p : string) : string :=
  let parts := path_parts (chars p) in
  path_of (path_root (chars p)) (take (length parts - 1) parts).

(** * The stores behind one tick *)

Section TickPorts.
Context {W : Type} (P : AppPorts W).

Definition on_catalogue {A} (m : M ConfigDb A) : M (ConfigDb * W) A :=
  λ e, let '(r, db) := m e.1 in (r, (db, e.2)).
Definition on_shops {A} (m : M W A) : M (ConfigDb * W) A :=
  λ e, let '(r, w) := m e.2 in (r, (e.1, w)).

(** The arguments [evaluate_tick] is called with, as its interface. *)
Definition tick_ports : EvalPorts (ConfigDb * W) := {|
  Evaluator.list_all_enabled_jobs := on_catalogue Config.list_all_enabled_jobs;
  Evaluator.load owner := on_catalogue (Config.load owner);
  Evaluator.select tier domains :=
    let? fetcher := Services.select tier domains in Ok (λ url, on_shops (fetcher url));
  Evaluator.tier_available := Services.tier_available;
  Evaluator.parser_factory := Services.parser_factory;
  Evaluator.sleep d := on_shops (Services.sleep d);
  Evaluator.utcnow_iso := on_shops Services.utcnow_iso;
|}.
End TickPorts.

(** * Commands *)

Section Cli.
Context {W S T : Type} `{StateStore S} `{Yaml T} `{Cron}.
Variable h : Host W S.

Notation Machine := (Machine W S T).

Definition config_at (path : string) (m : Machine) : ConfigDb := default empty_config_db (m.(config_dbs) !! path).
Definition state_at (path : string) (m : Machine) : S := default h.(new_state_db) (m.(state_dbs) !! path).

Definition set_stores (path : string) (db : ConfigDb) (state_path : string) (s : S) (w : W) (m : Machine) : Machine :=
  mkMachine (<[path := db]> m.(config_dbs)) (<[state_path := s]> m.(state_dbs)) m.(files) w
    m.(boot) m.(stdin) m.(stdout) m.(stderr) m.(reports).
Definition set_config (path : string) (db : ConfigDb) (m : Machine) : Machine :=
  mkMachine (<[path := db]> m.(config_dbs)) m.(state_dbs) m.(files) m.(outside)
    m.(boot) m.(stdin) m.(stdout) m.(stderr) m.(reports).
Definition set_state (path : string) (s : S) (m : Machine) : Machine :=
  mkMachine m.(config_dbs) (<[path := s]> m.(state_dbs)) m.(files) m.(outside)
    m.(boot) m.(stdin) m.(stdout) m.(stderr) m.(reports).
Definition set_outside (w : W) (m : Machine) : Machine :=
  mkMachine m.(config_dbs) m.(state_dbs) m.(files) w
    m.(boot) m.(stdin) m.(stdout) m.(stderr) m.(reports).
Definition set_boot (b : Boot) (m : Machine) : Machine :=
  mkMachine m.(config_dbs) m.(state_dbs) m.(files) m.(outside)
    b m.(stdin) m.(stdout) m.(stderr) m.(reports).

Definition write_text (dir name : string) (t : T) : M Machine unit :=
  mmodify (λ m, mkMachine m.(config_dbs) m.(state_dbs) (<[(path_str dir, name) := t]> m.(files)) m.(outside)
    m.(boot) m.(stdin) m.(stdout) m.(stderr) m.(reports)).
Definition print_out (line : string) : M Machine unit :=
  mmodify (λ m, mkMachine m.(config_dbs) m.(state_dbs) m.(files) m.(outside)
    m.(boot) m.(stdin) (m.(stdout) ++ [line])%list m.(stderr) m.(reports)).
Definition print_err (line : string) : M Machine unit :=
  mmodify (λ m, mkMachine m.(config_dbs) m.(state_dbs) m.(files) m.(outside)
    m.(boot) m.(stdin) m.(stdout) (m.(stderr) ++ [line])%list m.(reports)).
Definition report (r : TierReport) : M Machine unit :=
  mmodify (λ m, mkMachine m.(config_dbs) m.(state_dbs) m.(files) m.(outside)
    m.(boot) m.(stdin) m.(stdout) m.(stderr) (m.(reports) ++ [r])%list).

Definition exists_file (dir name : string) : M Machine bool :=
  mgets (λ m, bool_decide (is_Some (m.(files) !! (path_str dir, name)))).
Definition open_file (dir name : string) : M Machine T :=
  λ m, (match m.(files) !! (path_str dir, name) with
        | Some t => Ok t
        | None => raise OSError "No such file or directory"
        end, m).

(** Run a part of the program on its part of the machine. *)
Definition on_config_db {A} (path : string) (c : M ConfigDb A) : M Machine A :=
  λ m, let '(r, db) := c (config_at path m) in (r, set_config path db m).
Definition on_outside {A} (c : M W A) : M Machine A :=
  λ m, let '(r, w) := c m.(outside) in (r, set_outside w m).
Definition settings_of : M Machine Settings :=
  λ m, let '(r, b) := get_settings h.(environ) h.(to_int) h.(to_float) m.(boot) in (r, set_boot b m).

Definition default_state_db : string := default "kerdoos.db" (h.(environ) "KERDOOS_STATE_DB").
Definition default_config_db : string := default "config.db" (h.(environ) "KERDOOS_CONFIG_DB").

Definition build_browser_gate (state_db : string) (settings : Settings) : GateSettings := {|
  max_concurrent := settings.(browser_max_concurrent);
  lock_dir := path_parent state_db;
  acquire_timeout_seconds := settings.(browser_acquire_timeout_seconds);
|}.

(** [SqliteConfigStore(path)] and [SqliteStateStore(path)]: a file that is not
    there is created. *)
Definition open_config_store (path : string) : M Machine unit :=
  λ m, match Config.open_store (h.(sources_pk) path) (config_at path m) with
       | Ok db => (Ok tt, set_config path db m)
       | Raise e => (Raise e, m)
       end.
Definition open_state_store (path : string) : M Machine unit :=
  mmodify (λ m, set_state path (state_at path m) m).

(** The stores by their paths, the router and the parsers as the ports of the
    service. *)
Record Composition := {
  config_store : string;
  state_store : string;
  router : AppPorts W;
  browser_gate : GateSettings;
  settings : Settings;
}.

Definition build_app_service (config_db db : string) (settings : Settings) : M Machine Composition :=
  open_config_store config_db ;;;
  open_state_store db ;;;
  let gate := build_browser_gate db settings in
  mret' {| config_store := config_db; state_store := db;
           router := h.(adapters) gate (build_static_router h.(show) settings);
           browser_gate := gate; settings := settings |}.

(** [composition.service]: a call runs on the two stores and the outside. *)
Definition service {A} (c : Composition) (call : M (App W S) A) : M Machine A :=
  λ m, let '(r, a) := call (mkApp (config_at c.(config_store) m) (state_at c.(state_store) m) m.(outside)) in
       (r, set_stores c.(config_store) a.(Services.config) c.(state_store) a.(Services.state) a.(Services.world) m).

Definition report_tiers (c : Composition) : M Machine unit :=
  let! db := mgets (config_at c.(config_store)) in
  report (log_unavailable_fetcher_tiers (@Services.tier_available W c.(router)) db).

Definition cmd_run (config_db db owner : string) : M Machine Z :=
  let! settings := settings_of in
  let! composition := build_app_service config_db db settings in
  report_tiers composition ;;;
  let! result := service composition (@run_now W S composition.(router) _ owner) in
  let! text := mlift (render_digest h.(zone_info) result.(Services.generated_at) result.(Services.tier2_labels)
                        result.(run_source_labels) result.(Services.records)) in
  print_out text ;;;
  mret' 0.

(** [asyncio.run(evaluate_tick(...))], which answers the summary. *)
Definition tick (c : Composition) (sender : DigestSender) : M Machine EvaluationSummary :=
  let! tick_now := on_outside h.(now) in
  λ m, let run := let! _ := @evaluate_tick (ConfigDb * W) S (tick_ports c.(router)) _ _
                              (h.(sends) sender c.(config_store)) (λ _ _, false) tick_now
                              c.(settings).(digest_reaper_timeout_seconds) in
                  mgets summary in
       let '(r, e) := run (mkEv (config_at c.(config_store) m, m.(outside)) (state_at c.(state_store) m)
                             DaemonThread [] no_summary []) in
       (r, set_stores c.(config_store) (Evaluator.outside e).1 c.(state_store) e.(store) (Evaluator.outside e).2 m).

Definition cmd_digest (config_db db : string) : M Machine Z :=
  let! settings := settings_of in
  let! composition := build_app_service config_db db settings in
  report_tiers composition ;;;
  let sender := build_sender (mail_settings settings) in
  let! summary := tick composition sender in
  print_out ("scraped_sources=" +:+ pretty summary.(scraped_sources)
             +:+ " notified_jobs=" +:+ pretty summary.(notified_jobs)
             +:+ " skipped_jobs=" +:+ pretty summary.(skipped_jobs)
             +:+ " errors=" +:+ pretty summary.(errors)) ;;;
  mret' 0.

(** ** config import *)

Definition batch_of_raw (sites : list RawSite) : result SiteBatch :=
  rmap (λ r, match site_of_raw r with Some s => Ok s | None => h.(other_site) r end) sites.

Definition import_products (dir : string) (owner : option string) (sites : list RawSite) : M Machine ProductBatch :=
  if truthy_opt owner then
    let! there := exists_file dir "products.yaml" in
    if there : bool then
      let! text := open_file dir "products.yaml" in
      mlift (parse_products_yaml text sites)
    else mret' []
  else mret' [].

(** Both files. *)
Definition read_batch (dir : string) (owner : option string) : M Machine (SiteBatch * ProductBatch) :=
  let! text := open_file dir "sites.yaml" in
  let! raw := mlift (parse_sites_yaml text) in
  let! products := import_products dir owner raw in
  let! sites := mlift (batch_of_raw raw) in
  mret' (sites, products).

(** [exc.errors]: the exception carries the list the validation pass made, on
    the database it left as it was. *)
Definition import_errors (c : Composition) (owner : option string) (sites : SiteBatch) (products : ProductBatch)
    (m : Machine) : list string :=
  match @validate_batch W c.(router) owner sites products (catalogue_domain_allowed (config_at c.(config_store) m)) with
  | Ok errors => errors
  | Raise _ => []
  end.

(** The inner [try]: the summary, or the exit code once the errors are listed. *)
Definition try_import (c : Composition) (owner : option string) (sites : SiteBatch) (products : ProductBatch)
    : M Machine (option ImportSummary) :=
  let principal := {| owner_id := if truthy_opt owner then default "" owner else "cli-import"; role := "admin" |} in
  mtry (let! summary := service c (@import_config W S c.(router) h.(digest_of_url) catalogue_domain_allowed
                                     principal owner sites products) in
        mret' (Some summary))
       (λ e, if is_a e.(exn_class) ConfigImportError then
               let! errors := mgets (import_errors c owner sites products) in
               print_err ("config import: rejected, 0 writes (" +:+ pretty (Z.of_nat (length errors))
                          +:+ " error(s)):") ;;;
               mfor (λ error, print_err ("  - " +:+ error)) errors ;;;
               mret' None
             else mraise e).

Definition cmd_config_import (config_db db config_dir : string) (owner : option string) : M Machine Z :=
  let! settings := settings_of in
  let! composition := build_app_service config_db db settings in
  mtry
    (let! (sites, products) := read_batch config_dir owner in
     let! summary := try_import composition owner sites products in
     match summary with
     | None => mret' 1
     | Some summary =>
         print_out ("imported " +:+ pretty summary.(imported_sites) +:+ " site(s)"
                    +:+ (if truthy_opt owner then " for owner " +:+ h.(repr) (default "" owner) else "")) ;;;
         mret' 0
     end)
    (λ e, if is_a e.(exn_class) ConfigError
          then print_err ("config import: " +:+ e.(exn_msg)) ;;; mret' 1
          else mraise e).

(** ** config export *)

Definition cmd_config_export (config_db config_dir : string) (owner : option string) : M Machine Z :=
  open_config_store config_db ;;;
  let! registry := on_config_db config_db (Config.load (default "" owner)) in
  write_text config_dir "sites.yaml" (safe_dump (sites_doc registry)) ;;;
  (if truthy_opt owner
   then write_text config_dir "products.yaml" (safe_dump (products_doc registry))
   else mret' tt) ;;;
  print_out ("exported " +:+ pretty (Z.of_nat (size registry.(sites))) +:+ " site(s), "
             +:+ pretty (Z.of_nat (length registry.(products))) +:+ " product(s) to " +:+ path_str config_dir) ;;;
  mret' 0.

(** ** user *)

Definition new_owner_id : M W string := let! hex := h.(uuid4_hex) in mret' (of_chars (take 12 (chars hex))).
Definition role_of (admin : bool) : string := if admin then "admin" else "user".

Definition create_owner (config_db id name role : string) (email password_hash : option string) : M Machine string :=
  let! created_at := on_outside h.(now_iso) in
  on_config_db config_db (Config.ensure_owner id name role email password_hash created_at).

Definition cmd_user_bootstrap (config_db name : string) (admin : bool) : M Machine Z :=
  open_config_store config_db ;;;
  let! owner_id := on_outside new_owner_id in
  let! _ := create_owner config_db owner_id name (role_of admin) None None in
  print_out owner_id ;;;
  mret' 0.

Definition system_exit (msg : string) : exn := Exn (OtherException "SystemExit") msg.

(** [sys.stdin.readline().rstrip("\n")]. *)
Fixpoint first_line (cs : list ascii) : list ascii :=
  match cs with
  | [] => []
  | c :: cs => if bool_decide (c = "010"%char) then [] else c :: first_line cs
  end.

Definition read_password : M Machine string :=
  let! input := mgets stdin in
  let! password :=
    match input with
    | Pipe text => mret' (of_chars (first_line (chars text)))
    | Terminal password confirmation =>
        if negb (bool_decide (password = confirmation)) then mraise (system_exit "passwords do not match")
        else mret' password
    end in
  if negb (truthy password) then mraise (system_exit "password must not be empty") else mret' password.

Definition cmd_user_add (config_db name : string) (email : option string) (admin : bool) : M Machine Z :=
  open_config_store config_db ;;;
  let! password := read_password in
  let! owner_id := on_outside new_owner_id in
  let! password_hash := on_outside (h.(hash_password) password) in
  let! _ := create_owner config_db owner_id name (role_of admin) email (Some password_hash) in
  print_out owner_id ;;;
  mret' 0.

(** ** main *)

(** What [build_parser_cli] makes of the arguments; [None] is an option that is
    not given. *)
Inductive command :=
| Run (owner : string) (config_db db : option string)
| DigestTick (config_db db : option string)
| ConfigImport (config_dir config_db db owner : option string)
| ConfigExport (config_dir config_db owner : option string)
| UserBootstrap (name : string) (config_db : option string) (admin : bool)
| UserAdd (name : string) (email config_db : option string) (admin : bool).

Definition main (args : command) : M Machine Z :=
  let config := default default_config_db in
  let state := default default_state_db in
  let dir := default "config" in
  match args with
  | Run owner c d => cmd_run (config c) (state d) owner
  | DigestTick c d => cmd_digest (config c) (state d)
  | ConfigImport f c d owner => cmd_config_import (config c) (state d) (dir f) owner
  | ConfigExport f c owner => cmd_config_export (config c) (dir f) owner
  | UserBootstrap name c admin => cmd_user_bootstrap (config c) name admin
  | UserAdd name email c admin => cmd_user_add (config c) name email admin
  end.
End Cli.

(** * Properties *)

Lemma path_examples :
  path_parent "kerdoos.db" = "." ∧ path_parent "/data/state.db" = "/data" ∧ path_parent "/state.db" = "/"
  ∧ path_parent "a//./b/c.db" = "a/b" ∧ path_str "config/" = "config" ∧ path_str "//x" = "//x" ∧ path_str "" = ".".
Proof. by split_and!. Qed.

(** ** The files an export writes *)

Section Exporting.
Context (db : ConfigDb) (Hw : wf db) (o : string).

Definition registry_of : Registry := {| sites := Config.load_sites db; products := Config.load_products o db |}.

(** The batch an export stands for. *)
Definition exported_sites : SiteBatch :=
  (λ ns, (ns.1, exported_site ns.1 ns.2)) <$> sites_in_order registry_of.
Definition exported_products : ProductBatch := batch_of <$> Config.load_products o db.

Lemma elem_of_sites_in_order n s : (n, s) ∈ sites_in_order registry_of ↔ Config.load_sites db !! n = Some s.
Proof. unfold sites_in_order. by rewrite elem_of_sort_by, elem_of_map_to_list. Qed.

Lemma exported_known p s :
  p ∈ Config.load_products o db → s ∈ prod_sources p →
  known_site (source_site s) ((λ ns, raw_of ns.1 ns.2) <$> sites_in_order registry_of) = true.
Proof.
  intros Hp Hs. destruct (load_products_sources o db p s Hp Hs) as (r & Hr & _ & _ & ->). cbn [source_site source_of_row].
  pose proof (wf_fk_site db Hw r Hr) as Ht. apply list_elem_of_fmap in Ht as (t & Et & Ht).
  apply existsb_exists. exists (raw_of (s_site r) (row_to_site t)). split; [| by apply bool_decide_eq_true_2].
  apply list_elem_of_In, (list_elem_of_fmap_2 (λ ns, raw_of ns.1 ns.2) _ (s_site r, row_to_site t)).
  apply elem_of_sites_in_order. rewrite Et. by apply load_sites_lookup.
Qed.

Lemma triples_of_elem p t :
  t ∈ triples_of p ↔ ∃ s, t = (prod_id p, source_site s, source_url s) ∧ s ∈ prod_sources p.
Proof. unfold triples_of. apply list_elem_of_fmap. Qed.

(** The triples of one product, then those of all: the keys of the tables. *)
Lemma product_triples p : p ∈ Config.load_products o db → NoDup (triples_of p).
Proof.
  unfold Config.load_products. intros (pr & -> & _)%list_elem_of_fmap. unfold triples_of. cbn [prod_id prod_sources].
  rewrite group_sources_lookup, <- list_fmap_compose.
  apply (NoDup_fmap_1 (λ t : string * string * string, (o, t.1.1, t.1.2, t.2))). rewrite <- list_fmap_compose.
  rewrite (list_fmap_ext _ Config.source_triple_of).
  - apply NoDup_fmap_filter. rewrite sort_by_perm. apply NoDup_fmap_filter, Hw.
  - intros i r Hr. apply list_elem_of_lookup_2, list_elem_of_filter in Hr as [Hk Hr].
    apply elem_of_sort_by, list_elem_of_filter in Hr as [Ho _]. cbn. unfold Config.source_triple_of. by rewrite Ho, Hk.
Qed.

Lemma product_ids : NoDup (prod_id <$> Config.load_products o db).
Proof.
  unfold Config.load_products. rewrite <- list_fmap_compose.
  apply (NoDup_fmap_1 (λ x, (o, x))). rewrite <- list_fmap_compose.
  rewrite (list_fmap_ext _ Config.product_key_of).
  - rewrite sort_by_perm. apply NoDup_fmap_filter, Hw.
  - intros i r Hr. apply list_elem_of_lookup_2, elem_of_sort_by, list_elem_of_filter in Hr as [Ho _].
    cbn. unfold Config.product_key_of. by rewrite Ho.
Qed.

Lemma exported_triples : NoDup (Config.load_products o db ≫= triples_of).
Proof.
  pose proof product_ids as Hn. pose proof product_triples as Ht.
  induction (Config.load_products o db) as [| p ps IH]; [constructor |].
  rewrite fmap_cons in Hn. apply NoDup_cons in Hn as [Hx Hn]. rewrite bind_cons. apply NoDup_app. split_and!.
  - apply Ht. by left.
  - intros t (s & -> & _)%triples_of_elem (q & (s' & [= E _ _] & _)%triples_of_elem & Hq)%list_elem_of_bind.
    apply Hx. rewrite E. by apply list_elem_of_fmap_2.
  - apply IH; [done |]. intros q Hq. apply Ht. by right.
Qed.
End Exporting.

Lemma batch_of_exported {W S} (h : Host W S) (l : list (string * SiteConfig)) :
  batch_of_raw h ((λ ns, raw_of ns.1 ns.2) <$> l) = Ok ((λ ns, (ns.1, exported_site ns.1 ns.2)) <$> l).
Proof. apply rmap_fmap_Ok. intros [n s] _. by rewrite site_of_raw_of. Qed.

Section Commands.
Context {W S T : Type} `{StateStore S} `{LawfulYaml T} `{Cron}.
Variable h : Host W S.

Notation Machine := (Machine W S T).

(** The store at [path] opens. *)
Definition opens (path : string) (m : Machine) : Prop :=
  Config.open_store (h.(sources_pk) path) (config_at path m) = Ok (config_at path m).

Definition composed (config_db db : string) (s : Settings) : Composition (W:=W) := {|
  config_store := config_db; state_store := db;
  router := h.(adapters) (build_browser_gate db s) (build_static_router h.(show) s);
  browser_gate := build_browser_gate db s; settings := s |}.

Lemma config_at_set path db (m : Machine) : config_at path (set_config path db m) = db.
Proof. unfold config_at. cbn. by rewrite lookup_insert_eq. Qed.

Lemma build_ok c d s (m : Machine) :
  opens c m →
  build_app_service h c d s m
  = (Ok (composed c d s), set_state d (state_at h d m) (set_config c (config_at c m) m)).
Proof.
  intros Ho. unfold build_app_service. rewrite (mbind_ok _ _ m tt (set_config c (config_at c m) m)); [done |].
  unfold open_config_store. by rewrite Ho.
Qed.

Lemma export_ok src dir o (m : Machine) :
  o ≠ "" → opens src m →
  ∃ m', cmd_config_export h src dir (Some o) m = (Ok 0, m')
    ∧ files m' !! (path_str dir, "sites.yaml") = Some (safe_dump (sites_doc (registry_of (config_at src m) o)))
    ∧ files m' !! (path_str dir, "products.yaml") = Some (safe_dump (products_doc (registry_of (config_at src m) o)))
    ∧ boot m' = boot m ∧ (∀ path, config_at path m' = config_at path m).
Proof.
  intros Ho Hop. unfold cmd_config_export.
  rewrite (mbind_ok _ _ m tt (set_config src (config_at src m) m)) by (unfold open_config_store; by rewrite Hop).
  erewrite mbind_ok; [| unfold on_config_db; rewrite config_at_set; reflexivity].
  erewrite mbind_ok by reflexivity. cbn [default truthy_opt]. unfold truthy.
  rewrite bool_decide_eq_false_2 by done. cbn [negb].
  erewrite mbind_ok by reflexivity. erewrite mbind_ok by reflexivity.
  eexists. split; [reflexivity |]. cbn [files boot]. split_and!; [| | done |].
  - rewrite lookup_insert_ne by (intros [=]). by rewrite lookup_insert_eq.
  - by rewrite lookup_insert_eq.
  - intros path. unfold config_at. cbn. destruct (decide (path = src)) as [-> | Hne].
    + by rewrite !lookup_insert_eq.
    + by rewrite !lookup_insert_ne by congruence.
Qed.

(** The machine on which the body of an import runs. *)
Definition started (c d : string) (b : Boot) (m : Machine) : Machine :=
  set_state d (state_at h d m) (set_config c (config_at c m) (set_boot b m)).

Lemma import_starts c d s b (m : Machine) body handler :
  settings_of h m = (Ok s, set_boot b m) → opens c m →
  (let! settings := settings_of h in
   let! composition := build_app_service h c d settings in
   mtry (body composition) handler) m
  = mtry (A:=Z) (body (composed c d s)) handler (started c d b m).
Proof.
  intros Hs Ho. rewrite (mbind_ok _ _ _ _ _ Hs).
  assert (opens c (set_boot b m)) as Ho' by exact Ho.
  by rewrite (mbind_ok _ _ _ _ _ (build_ok c d s _ Ho')).
Qed.

Lemma products_parse db o known (m : Machine) dir :
  wf db → o ≠ "" → known = (λ ns, raw_of ns.1 ns.2) <$> sites_in_order (registry_of db o) →
  files m !! (path_str dir, "products.yaml") = Some (safe_dump (products_doc (registry_of db o))) →
  ∃ r, import_products dir (Some o) known m = (r, m) ∧
    match r with
    | Ok l => (∀ p, p ∈ Config.load_products o db → prod_sources p ≠ []) ∧ l = exported_products db o
    | Raise e => exn_class e = ConfigError ∧ ∃ p, p ∈ Config.load_products o db ∧ prod_sources p = []
    end.
Proof.
  intros Hw Ho -> Hf. unfold import_products. cbn [truthy_opt]. unfold truthy.
  rewrite bool_decide_eq_false_2 by done. cbn [negb].
  erewrite mbind_ok by reflexivity. rewrite Hf. rewrite bool_decide_eq_true_2 by eauto.
  rewrite (mbind_ok _ _ m (safe_dump (products_doc (registry_of db o))) m) by (unfold open_file; by rewrite Hf).
  eexists. split; [reflexivity |]. unfold parse_products_yaml. rewrite load_dumped by done.
  cbn [rbind]. unfold require, products_doc. cbn [item is_key].
  rewrite (bool_decide_eq_true_2 ("products" = "products")) by done. cbn [rbind].
  apply parse_exported_products.
  - intros p s Hp Hs. by apply (exported_known db Hw o p).
  - by apply exported_triples.
  - by intros p t _ _ ?%elem_of_nil.
Qed.

(** The body of an import once both files are parsed and the service accepts. *)
Lemma try_import_ok c d s db' o ss ps (m : Machine) i :
  let P := router (composed c d s) in
  o ≠ "" →
  @import_config W S P (digest_of_url h) catalogue_domain_allowed {| owner_id := o; role := "admin" |} (Some o) ss ps
    (mkApp (config_at c m) (state_at h d m) (outside m)) = (Ok i, mkApp db' (state_at h d m) (outside m)) →
  try_import h (composed c d s) (Some o) ss ps m
  = (Ok (Some i), set_stores c db' d (state_at h d m) (outside m) m).
Proof.
  intros P Ho Hi. unfold try_import. cbn [truthy_opt default from_option id]. unfold truthy.
  rewrite bool_decide_eq_false_2 by done. cbn [negb]. unfold mtry.
  unfold P in Hi. cbn [composed router] in Hi.
  erewrite mbind_ok; [| unfold service; cbn [composed config_store state_store router]; rewrite Hi; reflexivity].
  reflexivity.
Qed.

Lemma config_at_started c d b (m : Machine) path : config_at path (started c d b m) = config_at path m.
Proof.
  unfold started, config_at. cbn. destruct (decide (path = c)) as [-> | Hne].
  - by rewrite lookup_insert_eq.
  - by rewrite lookup_insert_ne by congruence.
Qed.

(** ** What an import does beside the databases *)

(** Nothing stored and nothing printed as an error between two machines. *)
Definition quiet (m m' : Machine) : Prop :=
  (∀ path, config_at path m' = config_at path m) ∧ stderr m' = stderr m.

Definition keeps {A} (c : M Machine A) : Prop := ∀ m, quiet m (snd (c m)).

Lemma quiet_trans m1 m2 m3 : quiet m1 m2 → quiet m2 m3 → quiet m1 m3.
Proof. intros [Ha Hb] [Hc Hd]. split; [| congruence]. intros path. by rewrite Hc. Qed.

Lemma keeps_settings : keeps (settings_of h).
Proof. intros m. unfold settings_of. destruct (get_settings _ _ _ _). by split. Qed.

Lemma keeps_build c d s : keeps (build_app_service h c d s).
Proof.
  intros m. unfold build_app_service, mbind' at 1, open_config_store.
  unfold Config.open_store. case_bool_decide; [by split |].
  destruct (Config.reject_duplicate_identities _); [| by split]. cbn. split; [| done].
  intros path. apply (config_at_started c d (boot m) m).
Qed.

Lemma keeps_open dir name : keeps (open_file (T:=T) dir name : M Machine T).
Proof. intros m. unfold open_file. by split. Qed.

Lemma keeps_lift {A} (r : result A) : keeps (mlift r).
Proof. by intros m. Qed.

Lemma keeps_bind {A B} (c : M Machine A) (k : A → M Machine B) :
  keeps c → (∀ a, keeps (k a)) → keeps (mbind' c k).
Proof.
  intros Hc Hk m. unfold mbind'. specialize (Hc m). destruct (c m) as [[a | e] m1]; [| done].
  eapply quiet_trans; [done |]. apply Hk.
Qed.

Lemma keeps_products dir owner raw : keeps (import_products dir owner raw : M Machine ProductBatch).
Proof.
  unfold import_products. destruct (truthy_opt owner); [| by intros m].
  apply keeps_bind; [by intros m |]. intros [|]; [| by intros m].
  apply keeps_bind; [apply keeps_open | intros text; apply keeps_lift].
Qed.

Lemma print_errors l (m : Machine) :
  ∃ m', mfor (λ error, print_err ("  - " +:+ error)) l m = (Ok tt, m')
    ∧ (∀ path, config_at path m' = config_at path m)
    ∧ stderr m' = (stderr m ++ ((λ error, "  - " +:+ error) <$> l))%list.
Proof.
  revert m. induction l as [| x l IH]; intros m; [exists m; split_and!; try done; by rewrite app_nil_r |].
  cbn [mfor]. erewrite mbind_ok by reflexivity. edestruct IH as (m' & -> & Hc & He). exists m'. split; [done |].
  split; [intros path; by rewrite Hc |]. rewrite He. cbn. by rewrite <- app_assoc.
Qed.

Lemma keeps_read dir owner : keeps (read_batch h dir owner).
Proof.
  apply keeps_bind; [apply keeps_open | intros text].
  apply keeps_bind; [apply keeps_lift | intros raw].
  apply keeps_bind; [apply keeps_products | intros products].
  apply keeps_bind; [apply keeps_lift | by intros sites m].
Qed.

Definition REJECTED (n : nat) : string :=
  "config import: rejected, 0 writes (" +:+ pretty (Z.of_nat n) +:+ " error(s)):".

Lemma import_by_admin `{AppPorts W} (policy : ConfigDb → string → bool) p o ss ps (a : App W S) :
  (∀ t, is_ok (Services.tier_available t) = true) → is_admin p = true →
  match import_config (digest_of_url h) policy p o ss ps a with
  | (Ok _, _) => True
  | (Raise e, a') =>
      (exn_class e = ConfigImportError ∧ a' = a
       ∧ ∃ errs, validate_batch (W:=W) o ss ps (policy (config a)) = Ok errs ∧ errs ≠ [])
      ∨ (exn_class e = ConfigImportPartialError
         ∧ ∃ why, exn_msg e = "write phase interrupted, import PARTIAL: " +:+ why)
  end.
Proof.
  intros Ht Hp. pose proof (import_config_outcomes (digest_of_url h) Ht policy p o ss ps a) as Hout.
  destruct (import_config _ _ p o ss ps a) as [[i | e] a'] eqn:E; [done |].
  destruct Hout as [(_ & _ & Hn) | [Hr | [Hc Hv]]]; [congruence | by left |]. right. split; [done |].
  revert E. unfold import_config. rewrite Hp. cbn [negb]. rewrite !andb_false_r, andb_false_l.
  rewrite (mbind_ok _ _ a (config a) a) by done. rewrite Hv. rewrite (mbind_ok _ _ a [] a) by done.
  cbn [negb]. rewrite bool_decide_eq_true_2 by done. cbn [negb]. unfold mbind' at 1, mtry.
  destruct (write_batch _ _ p o ss ps a) as [[n | e'] a1]; [done |].
  destruct (is_Exception (exn_class e')) eqn:Ex.
  - destruct (is_a (exn_class e') PermissionError) eqn:Ea.
    + intros [= -> _]. by rewrite Hc in Ea.
    + intros [= <- _]. by eexists.
  - intros [= -> _]. by rewrite Hc in Ex.
Qed.

(** What [try_import] leaves: a summary, the listed errors of a rejection, or
    the exception of an interrupted write. *)
Lemma try_import_outcomes c owner ss ps (m : Machine) :
  (∀ t, is_ok (@Services.tier_available W (router c) t) = true) →
  let a := mkApp (config_at (config_store c) m) (state_at h (state_store c) m) (outside m) in
  let p := {| owner_id := if truthy_opt owner then default "" owner else "cli-import"; role := "admin" |} in
  ∃ errs, @validate_batch W (router c) owner ss ps (catalogue_domain_allowed (config_at (config_store c) m)) = Ok errs ∧
  match try_import h c owner ss ps m with
  | (Ok (Some i), m') => stderr m' = stderr m ∧ errs = []
      ∧ ∃ a', @import_config W S (router c) (digest_of_url h) catalogue_domain_allowed p owner ss ps a = (Ok i, a')
              ∧ config_at (config_store c) m' = config a'
  | (Ok None, m') => (∀ path, config_at path m' = config_at path m) ∧ errs ≠ []
      ∧ stderr m' = (stderr m ++ REJECTED (length errs) :: ((λ x, "  - " +:+ x) <$> errs))%list
  | (Raise e, m') => stderr m' = stderr m ∧ errs = [] ∧ exn_class e = ConfigImportPartialError
      ∧ ∃ why, exn_msg e = "write phase interrupted, import PARTIAL: " +:+ why
  end.
Proof.
  intros Ht a p. pose proof (@validate_batch_ok W (router c) Ht owner ss ps
    (catalogue_domain_allowed (config_at (config_store c) m))) as Hok.
  destruct (validate_batch _ _ _ _) as [errs |] eqn:Ev; [| done]. clear Hok. exists errs. split; [done |].
  unfold try_import, mtry. fold p.
  pose proof (@import_by_admin (router c) catalogue_domain_allowed p owner ss ps a Ht eq_refl) as Hi.
  pose proof (@import_config_outcomes W S (router c) (digest_of_url h) Ht catalogue_domain_allowed p owner ss ps a) as Hv.
  unfold mbind' at 1, service at 1. fold a. destruct (import_config _ _ p owner ss ps a) as [[i | e] a'] eqn:Ei.
  { cbn [config a] in Hv. destruct Hv as (_ & _ & Hv). rewrite Ev in Hv. injection Hv as ->.
    split; [reflexivity |]. split; [done |]. exists a'. split; [done |]. unfold config_at. cbn. by rewrite lookup_insert_eq. }
  destruct Hi as [(Hc & -> & errs' & Hv' & Hne) | [Hc Hwhy]]; rewrite Hc.
  2: { destruct Hv as [(Hc' & _) | [(Hc' & _) | [_ Hv]]]; [congruence.. |]. cbn [config a] in Hv.
       rewrite Ev in Hv. by injection Hv as ->. }
  cbn [config a] in Hv'. rewrite Ev in Hv'. injection Hv' as <-.
  cbn [is_Exception config state world]. change (is_a ConfigImportError ConfigImportError) with true. cbv iota.
  set (m1 := set_stores _ _ _ _ _ m).
  assert (∀ path, config_at path m1 = config_at path m) as Hm1.
  { intros path. unfold m1, config_at. cbn. destruct (decide (path = config_store c)) as [-> | ?];
      [by rewrite lookup_insert_eq | by rewrite lookup_insert_ne by congruence]. }
  rewrite (mbind_ok _ _ m1 errs m1) by (unfold mgets, import_errors; by rewrite Hm1, Ev).
  erewrite mbind_ok by reflexivity. edestruct (print_errors errs) as (m' & E & Hcm & He).
  rewrite (mbind_ok _ _ _ _ _ E). cbn. split_and!; [| done |].
  - intros path. rewrite Hcm. apply Hm1.
  - rewrite He. cbn. by rewrite <- app_assoc.
Qed.

(** Every site of the source has a domain, and the one the target gives it if it
    knows it. *)
Definition domains_agree (source target : ConfigDb) : Prop :=
  ∀ n x, Config.load_sites source !! n = Some x → site_domain x ≠ ""
    ∧ ∀ r, r ∈ site_rows target → t_name r = n → t_domain r = site_domain x.

Lemma exported_site_keys db o :
  NoDup (exported_sites db o).*1 ∧ ∀ n x, (n, x) ∈ exported_sites db o → site_name x = n.
Proof.
  unfold exported_sites. split.
  - rewrite <- list_fmap_compose. unfold compose. cbn. unfold sites_in_order. rewrite sort_by_perm.
    apply NoDup_fst_map_to_list.
  - intros n x ([n' x'] & [= -> ->] & _)%list_elem_of_fmap. done.
Qed.

Lemma exported_batch_ok source target o : domains_agree source target → batch_ok (exported_sites source o) target.
Proof.
  intros Hd. destruct (exported_site_keys source o) as [Hk Hn]. unfold exported_sites in *. split; [done | done | |].
  - intros n x ([n' x'] & [= -> ->] & Hin%elem_of_sites_in_order)%list_elem_of_fmap. by apply (Hd n' x').
  - intros n x row ([n' x'] & [= -> ->] & Hin%elem_of_sites_in_order)%list_elem_of_fmap. by apply (Hd n' x').
Qed.

Section Importing.
Context (source : ConfigDb) (o dir dst d : string) (s : Settings) (b : Boot) (m : Machine).
Context (Hw : wf source) (Ho : o ≠ "").
Context (Hsites : files m !! (path_str dir, "sites.yaml") = Some (safe_dump (sites_doc (registry_of source o)))).
Context (Hprods : files m !! (path_str dir, "products.yaml") = Some (safe_dump (products_doc (registry_of source o)))).
Context (Hs : settings_of h m = (Ok s, set_boot b m)) (Hdst : opens dst m).

Let known := (λ ns, raw_of ns.1 ns.2) <$> sites_in_order (registry_of source o).

Lemma import_reads : parse_sites_yaml (safe_dump (sites_doc (registry_of source o))) = Ok known.
Proof. apply parse_exported_sites. Qed.

(** Reading the files back: the exported batch, or a product without sources. *)
Lemma read_exported :
  let m2 := started dst d b m in
  ∃ r, read_batch h dir (Some o) m2 = (r, m2) ∧
    match r with
    | Ok batch => (∀ p, p ∈ Config.load_products o source → prod_sources p ≠ [])
                  ∧ batch = (exported_sites source o, exported_products source o)
    | Raise e => exn_class e = ConfigError ∧ ∃ p, p ∈ Config.load_products o source ∧ prod_sources p = []
    end.
Proof.
  intros m2. unfold read_batch.
  rewrite (mbind_ok _ _ m2 (safe_dump (sites_doc (registry_of source o))) m2).
  2: { unfold open_file. cbn [m2 started files set_state set_config set_boot]. by rewrite Hsites. }
  rewrite (mbind_ok _ _ m2 known m2) by (unfold mlift; by rewrite import_reads).
  destruct (products_parse source o known m2 dir Hw Ho eq_refl Hprods) as (r & Hr & Hres).
  destruct r as [l | e].
  - rewrite (mbind_ok _ _ _ _ _ Hr). destruct Hres as [Hne ->].
    rewrite (mbind_ok _ _ m2 (exported_sites source o) m2) by (unfold mlift, known; by rewrite batch_of_exported).
    by eexists (Ok _).
  - exists (Raise e). split; [| done]. unfold mbind' at 1. by rewrite Hr.
Qed.

Lemma import_refused :
  (∃ p, p ∈ Config.load_products o source ∧ prod_sources p = []) →
  ∃ m', cmd_config_import h dst d dir (Some o) m = (Ok 1, m') ∧ ∀ path, config_at path m' = config_at path m.
Proof.
  intros (p & Hp & Hnil). unfold cmd_config_import. rewrite (import_starts dst d s b m _ _ Hs Hdst).
  destruct read_exported as ([l | e] & Hr & Hres); [destruct Hres as [Hne _]; by destruct (Hne p Hp) |].
  unfold mtry, mbind' at 1. rewrite Hr.
  destruct Hres as [He _]. rewrite He. cbn. eexists. split; [reflexivity |]. intros path.
  rewrite <- (config_at_started dst d b m path). reflexivity.
Qed.

Lemma import_written :
  let P := router (composed dst d s) in
  (∀ p, p ∈ Config.load_products o source → prod_sources p ≠ []) →
  (∀ t, is_ok (@Services.tier_available W P t) = true) → wf (config_at dst m) →
  ∃ errs, @validate_batch W P (Some o) (exported_sites source o) (exported_products source o)
    (catalogue_domain_allowed (config_at dst m)) = Ok errs ∧
  ∃ code m', cmd_config_import h dst d dir (Some o) m = (Ok code, m')
    ∧ (errs ≠ [] → code = 1 ∧ ∀ path, config_at path m' = config_at path m)
    ∧ (errs = [] →
         (code = 0
          ∧ (∀ n x, (n, x) ∈ exported_sites source o → Config.load_sites (config_at dst m') !! n = Some x)
          ∧ (∀ q, q ∈ exported_products source o → product_stored (digest_of_url h) o q (config_at dst m')))
         ∨ (code = 1 ∧ ∃ why, stderr m' = (stderr m ++
              ["config import: write phase interrupted, import PARTIAL: " +:+ why])%list))
    ∧ (errs = [] → canonical_ids (digest_of_url h) (config_at dst m) → domains_agree source (config_at dst m) →
         code = 0).
Proof.
  intros P Hne Ht Hwd. unfold cmd_config_import. rewrite (import_starts dst d s b m _ _ Hs Hdst).
  destruct read_exported as ([l | e] & Hr & Hres);
    [destruct Hres as [_ ->] | destruct Hres as (_ & p & Hp & Hnil); by destruct (Hne p Hp)].
  pose proof (config_at_started dst d b m) as Hc.
  assert (stderr (started dst d b m) = stderr m) as He by reflexivity.
  set (m2 := started dst d b m) in *. unfold mtry at 1. rewrite (mbind_ok _ _ _ _ _ Hr).
  destruct (try_import_outcomes (composed dst d s) (Some o) (exported_sites source o) (exported_products source o)
    m2 Ht) as (errs & Hv & Hout). cbn [composed router config_store state_store] in Hv, Hout.
  rewrite Hc in Hv. exists errs. split; [exact Hv |].
  assert (truthy_opt (Some o) = true) as Htr by (cbn; unfold truthy; by rewrite bool_decide_eq_false_2).
  rewrite Htr in Hout. cbn [default from_option id] in Hout.
  destruct (exported_site_keys source o) as [Hk Hn].
  assert (errs = [] → canonical_ids (digest_of_url h) (config_at dst m) → domains_agree source (config_at dst m) →
          ∃ i m', try_import h (composed dst d s) (Some o) (exported_sites source o) (exported_products source o) m2
                  = (Ok (Some i), m')) as Hcomplete.
  { intros -> Hids Hd. apply (exported_batch_ok source _ o) in Hd. rewrite <- Hc in Hwd, Hids, Hd, Hv.
    destruct (@import_config_complete W S P (digest_of_url h) Ht {| owner_id := o; role := "admin" |} o
      (exported_sites source o) (exported_products source o) (mkApp (config_at dst m2) (state_at h d m2) (outside m2)))
      as (db' & Hi & _); [by left | done .. |].
    do 2 eexists. exact (try_import_ok dst d s db' o _ _ m2 _ Ho Hi). }
  unfold mbind' at 1.
  destruct (try_import h _ (Some o) _ _ m2) as [[[i |] | e] m3].
  - destruct Hout as (He3 & -> & a' & Hi & Hca). exists 0. eexists. split; [reflexivity |].
    split; [done |]. split; [| done]. intros _. left. split; [done |].
    pose proof (λ Hw', @import_config_stored W S P (digest_of_url h) Ht catalogue_domain_allowed _ o _ _ _ a' i Ho
      Hw' Hk Hn Hi) as Hst.
    destruct (Hst (eq_ind_r wf Hwd (Hc dst))) as [Hst1 Hst2].
    rewrite <- Hca in Hst1, Hst2. split; [exact Hst1 | exact Hst2].
  - destruct Hout as (Hc3 & Hne3 & _). exists 1. eexists. split; [reflexivity |].
    split; [intros _; split; [done |]; intros path; cbn; by rewrite Hc3, Hc |].
    split; [done |]. intros ->. done.
  - destruct Hout as (He3 & -> & Hcl & why & Hwhy). rewrite Hcl. exists 1. eexists. split; [reflexivity |].
    split; [done |]. split.
    + intros _. right. split; [done |]. exists why. cbn. by rewrite He3, Hwhy, He.
    + intros _ Hids Hd. by destruct (Hcomplete eq_refl Hids Hd) as (i & m' & ?).
Qed.
End Importing.

(** C9: what [config export] writes, [config import] reads back.  An export of an
    owner's registry succeeds.  If a product of the owner has no source, the
    import of the two files is refused with exit code 1 and changes no
    database.  Otherwise the files parse to the registry and the service's
    validation pass decides.  If it reports an error (an unknown fetcher tier, a
    tier not available, a url the catalogue does not allow), the import exits
    with 1 and changes no database.  If it reports none, the import either exits
    with 0, and has left in the target database every site of the source as it
    was, up to an empty label and empty hosts, and every product with its
    sources, or exits with 1 and the line that says it is PARTIAL; it exits with
    0 when the sources in the target have the ids the service computes and every
    exported site has a domain, the target's if the target knows the site. *)
Theorem export_import_roundtrip src dst db dir o (m : Machine) s b :
  let source := config_at src m in
  let target := config_at dst m in
  let P := router (composed dst db s) in
  let exported := cmd_config_export h src dir (Some o) m in
  let imported := cmd_config_import h dst db dir (Some o) (snd exported) in
  let unchanged := ∀ path, config_at path (snd imported) = config_at path m in
  let stored :=
    (∀ n x, Config.load_sites source !! n = Some x →
       Config.load_sites (config_at dst (snd imported)) !! n = Some (exported_site n x))
    ∧ (∀ p, p ∈ Config.load_products o source →
         product_stored (digest_of_url h) o (batch_of p) (config_at dst (snd imported))) in
  o ≠ "" → wf source → wf target → (∀ t, is_ok (@Services.tier_available W P t) = true) →
  opens src m → opens dst m → settings_of h m = (Ok s, set_boot b m) →
  fst exported = Ok 0
  ∧ ((∃ p, p ∈ Config.load_products o source ∧ prod_sources p = []) → fst imported = Ok 1 ∧ unchanged)
  ∧ ((∀ p, p ∈ Config.load_products o source → prod_sources p ≠ []) →
     ∃ errs, @validate_batch W P (Some o) (exported_sites source o) (exported_products source o)
               (catalogue_domain_allowed target) = Ok errs
       ∧ (errs ≠ [] → fst imported = Ok 1 ∧ unchanged)
       ∧ (errs = [] →
            fst imported = Ok 0 ∧ stored
            ∨ fst imported = Ok 1 ∧ ∃ why, stderr (snd imported) = (stderr (snd exported) ++
                ["config import: write phase interrupted, import PARTIAL: " +:+ why])%list)
       ∧ (errs = [] → canonical_ids (digest_of_url h) target → domains_agree source target →
            fst imported = Ok 0)).
Proof.
  intros source target P exported imported unchanged stored Ho Hw Hwt Ht Hsrc Hdst Hs.
  destruct (export_ok src dir o m Ho Hsrc) as (m' & He & Hf1 & Hf2 & Hb & Hc).
  fold exported in He. unfold unchanged, stored, imported. rewrite He. cbn [fst snd]. split; [done |].
  assert (settings_of h m' = (Ok s, set_boot b m')) as Hs'.
  { revert Hs. unfold settings_of. rewrite Hb. destruct (get_settings _ _ _ (boot m)) as [r b']. by intros [= -> ->]. }
  assert (opens dst m') as Hdst' by (revert Hdst; unfold opens; by rewrite Hc).
  split.
  - intros Hempty. destruct (import_refused source o dir dst db s b m' Hw Ho Hf1 Hf2 Hs' Hdst' Hempty) as (m2 & -> & Hm2).
    split; [done |]. intros path. cbn [snd]. by rewrite Hm2.
  - intros Hne. unfold target in *. rewrite <- Hc in Hwt.
    destruct (import_written source o dir dst db s b m' Hw Ho Hf1 Hf2 Hs' Hdst' Hne Ht Hwt)
      as (errs & Hv & code & m2 & -> & Hrej & Hacc & Hcan). rewrite Hc in Hv, Hcan. cbn [fst snd].
    exists errs. split; [exact Hv |]. split; [| split].
    + intros Herr. destruct (Hrej Herr) as [-> Hun]. split; [done |]. intros path. by rewrite Hun.
    + intros Herr. destruct (Hacc Herr) as [(-> & Hsites & Hprods) | (-> & Hpart)]; [left | by right].
      split; [done |]. split.
      * intros n x Hx. apply Hsites. unfold exported_sites.
        apply (list_elem_of_fmap_2 (λ ns, (ns.1, exported_site ns.1 ns.2)) _ (n, x)). by apply elem_of_sites_in_order.
      * intros p Hp. apply Hprods. by apply list_elem_of_fmap_2.
    + intros Herr Hids Hd. by rewrite (Hcan Herr Hids Hd).
Qed.

(** C10: the exit code and the error stream of [config import] tell what it did.
    Code 0 comes with no error line.  Code 1 comes with either "rejected, 0
    writes (n error(s)):" and n > 0 lines of errors, or one line; then no
    database has changed, except where that line says that the import is
    PARTIAL.  An exception leaves every database as it was. *)
Theorem import_exit_codes c d dir owner (m : Machine) :
  (∀ s t, is_ok (@Services.tier_available W (router (composed c d s)) t) = true) →
  match cmd_config_import h c d dir owner m with
  | (Ok code, m') =>
      (code = 0 ∧ stderr m' = stderr m)
      ∨ code = 1 ∧ ∃ line rest, stderr m' = (stderr m ++ line :: rest)%list ∧
          (((∀ path, config_at path m' = config_at path m) ∧
            (line = REJECTED (length rest) ∧ rest ≠ [] ∨ rest = [] ∧ ∃ msg, line = "config import: " +:+ msg))
           ∨ rest = [] ∧ ∃ why, line = "config import: write phase interrupted, import PARTIAL: " +:+ why)
  | (Raise _, m') => (∀ path, config_at path m' = config_at path m) ∧ stderr m' = stderr m
  end.
Proof.
  intros Ht. unfold cmd_config_import, mbind' at 1. pose proof (keeps_settings m) as Hq.
  destruct (settings_of h m) as [[s | e] m1]; [| exact Hq]. cbn [snd] in Hq.
  unfold mbind' at 1. pose proof (quiet_trans _ _ _ Hq (keeps_build c d s m1)) as Hq1. clear Hq.
  destruct (build_app_service h c d s m1) as [[k | e] m2] eqn:Ek; [| exact Hq1]. cbn [snd] in Hq1.
  assert (k = composed c d s) as ->.
  { revert Ek. unfold build_app_service, mbind'. destruct (open_config_store h c m1) as [[] m']; [| done].
    cbn. by intros [= <- _]. }
  unfold mtry at 1, mbind' at 1. pose proof (quiet_trans _ _ _ Hq1 (keeps_read dir owner m2)) as [Hc He]. clear Hq1 Ek.
  destruct (read_batch h dir owner m2) as [[[ss ps] | e] m3].
  - destruct (try_import_outcomes (composed c d s) owner ss ps m3 (Ht s)) as (errs & _ & Hi). cbn [snd] in Hc, He.
    unfold mbind' at 1. destruct (try_import h _ owner ss ps m3) as [[[i |] | e] m4].
    + destruct Hi as [Hi _]. left. cbn. by rewrite Hi.
    + destruct Hi as (Hc' & Hne & He'). right. split; [done |]. rewrite He', He.
      eexists _, _. split; [reflexivity |]. left. split; [intros path; by rewrite Hc', Hc |]. left.
      rewrite length_fmap. split; [done |]. by destruct errs.
    + destruct Hi as (He' & _ & Hcl & why & Hwhy). rewrite Hcl. cbn. right. split; [done |]. rewrite He', He, Hwhy.
      eexists _, []. split; [reflexivity |]. right. split; [done |]. by eexists.
  - cbn [snd] in Hc, He. destruct (is_Exception (exn_class e)); [| by split].
    destruct (is_a (exn_class e) ConfigError); [| by split].
    cbn. right. split; [done |]. rewrite He. eexists _, []. split; [reflexivity |]. left. split; [done |].
    right. split; [done |]. by eexists.
Qed.

(** ** New owners *)

(** The row [create_owner] adds under a new identifier, or nothing. *)
Lemma create_owner_spec c id name role email hash (m : Machine) :
  id ∉ o_id <$> owners (config_at c m) →
  match create_owner h c id name role email hash m with
  | (Ok r, m') => r = id ∧ stdout m' = stdout m
      ∧ (∀ x, x ∈ owners (config_at c m) → o_name x ≠ name)
      ∧ ∃ row, owners (config_at c m') = (owners (config_at c m) ++ [row])%list
          ∧ o_id row = id ∧ o_name row = name ∧ o_role row = role ∧ o_state row = "active" ∧ o_password_hash row = hash
  | (Raise _, m') => ∀ path, config_at path m' = config_at path m
  end.
Proof.
  intros Hid. unfold create_owner, mbind' at 1, on_outside at 1.
  destruct (now_iso h (outside m)) as [[t | e] w]; [| done]. unfold on_config_db.
  change (config_at c (set_outside w m)) with (config_at c m). unfold Config.ensure_owner, op.
  case_bool_decide as Hx.
  { intros path. unfold config_at. cbn. destruct (decide (path = c)) as [-> | ?];
      [by rewrite lookup_insert_eq | by rewrite lookup_insert_ne by congruence]. }
  rewrite bool_decide_eq_false_2 by done. split_and!; [done .. | |].
  - intros x Hin E. apply Hx, Exists_exists. exists x. split; [done |]. split; [| by left].
    intros <-. by apply Hid, list_elem_of_fmap_2.
  - rewrite config_at_set. eexists. split; [reflexivity |]. done.
Qed.

(** A password is what the reader gives, and nothing else moves. *)
Lemma read_password_spec (m : Machine) :
  match read_password m with
  | (Ok p, m') => m' = m ∧ p ≠ "" ∧
      match stdin m with
      | Pipe text => p = of_chars (first_line (chars text))
      | Terminal a b => a = p ∧ b = p
      end
  | (Raise e, m') => m' = m ∧ e.(exn_class) = OtherException "SystemExit"
  end.
Proof.
  unfold read_password. erewrite mbind_ok by reflexivity. unfold mbind'.
  destruct (stdin m) as [text | a b].
  - cbn. unfold truthy. by case_bool_decide.
  - cbn. case_bool_decide as Hab; cbn; [| done]. unfold truthy. by case_bool_decide.
Qed.

Lemma read_password_stdin (m m' : Machine) : stdin m = stdin m' → fst (read_password m) = fst (read_password m').
Proof.
  intros E. unfold read_password, mbind', mgets. rewrite E. destruct (stdin m') as [text | a b]; cbn.
  - by destruct (negb _).
  - destruct (negb (bool_decide (a = b))); [done |]. cbn. by destruct (negb _).
Qed.

Lemma lookup_new_owner name db l row :
  auth_owners db = (l ++ [row])%list → (∀ x, x ∈ l → o_name x ≠ name) → o_name row = name → o_state row = "active" →
  AuthStore.lookup_active_credentials name db = Some (AuthStore.credentials_of row).
Proof.
  intros E Hl Hn Ha. unfold AuthStore.lookup_active_credentials. rewrite E, filter_app.
  rewrite (filter_none _ l) by (intros x Hx [Hx' _]; by apply (Hl x)).
  rewrite filter_cons_True by done. done.
Qed.

(** C11: an owner added with [user add] can log in with the name and the password
    that were given, with no other password, and acts under the printed
    identifier with the role that was asked for.  When the command fails, a
    wrong confirmation, an empty password, a name already taken, no database
    has changed. *)
Theorem added_user_logs_in (ph_verify : string → string → result unit) dummy c name email admin (m : Machine) :
  (∀ w p k w', hash_password h p w = (Ok k, w') → ph_verify k p = Ok tt ∧
     ∀ q, q ≠ p → ph_verify k q = raise (OtherException "VerifyMismatchError") "") →
  (∀ w i w', new_owner_id h w = (Ok i, w') → i ∉ o_id <$> owners (config_at c m)) →
  match cmd_user_add h c name email admin m with
  | (Ok code, m') => code = 0 ∧ ∃ id password,
      stdout m' = (stdout m ++ [id])%list ∧ password ≠ "" ∧ fst (read_password m) = Ok password
      ∧ ∀ a q, cfg (auth_db a) = config_at c m' →
          fst (authenticate ph_verify dummy name q a)
          = Ok (if decide (q = password) then Some {| owner_id := id; role := role_of admin |} else None)
  | (Raise _, m') => ∀ path, config_at path m' = config_at path m
  end.
Proof.
  intros Hhash Hfresh. unfold cmd_user_add, mbind' at 1.
  destruct (open_config_store h c m) as [[[] | e] m1] eqn:Eo.
  2: { revert Eo. unfold open_config_store. destruct (Config.open_store _ _); by intros [= <- <-]. }
  assert (∀ path, config_at path m1 = config_at path m) as Hm1.
  { revert Eo. unfold open_config_store, Config.open_store. case_bool_decide; [discriminate |].
    destruct (Config.reject_duplicate_identities _); [| discriminate]. intros [= <-]. intros path.
    apply (config_at_started c "" (boot m) m). }
  assert (stdin m = stdin m1 ∧ stdout m1 = stdout m) as [Hread%read_password_stdin Hout].
  { revert Eo. unfold open_config_store. destruct (Config.open_store _ _); [by intros [= <-] | discriminate]. }
  pose proof (read_password_spec m1) as Hp. unfold mbind' at 1.
  destruct (read_password m1) as [[p | e] m2]; [destruct Hp as (-> & Hp & _) | by destruct Hp as [-> _]].
  unfold mbind' at 1, on_outside at 1. destruct (new_owner_id h (outside m1)) as [[id | e] w] eqn:Ei; [| exact Hm1].
  apply Hfresh in Ei. unfold mbind' at 1, on_outside at 1. cbn [outside set_outside].
  destruct (hash_password h p w) as [[k | e] w'] eqn:Ek; [| exact Hm1]. destruct (Hhash _ _ _ _ Ek) as [Hgood Hbad].
  set (m3 := set_outside w' _). assert (∀ path, config_at path m3 = config_at path m) as Hm3 by exact Hm1.
  rewrite <- (Hm3 c) in Ei. unfold mbind' at 1.
  pose proof (create_owner_spec c id name (role_of admin) email (Some k) m3 Ei) as Hc.
  destruct (create_owner h c id name _ email _ m3) as [[r | e] m4]; [| intros path; by rewrite Hc].
  destruct Hc as (-> & Hout4 & Hnames & row & Hrow & Hi & Hn & Hr & Hst & Hh).
  erewrite mbind_ok by reflexivity. split; [done |]. exists id, p.
  split_and!; [cbn [stdout]; rewrite Hout4; cbn [m3 set_outside stdout]; by rewrite Hout | done | by rewrite Hread |].
  intros a q Ha. unfold authenticate. erewrite mbind_ok by reflexivity.
  rewrite (lookup_new_owner name _ (owners (config_at c m3)) row);
    [| unfold auth_owners; by rewrite Ha, <- Hrow | done ..].
  cbn [AuthStore.credentials_of oc_password_hash]. rewrite Hh. unfold mbind' at 1, verify.
  destruct (decide (q = p)) as [-> | Hq]; [rewrite Hgood | rewrite (Hbad q Hq)]; [| done].
  cbn [fst mret' AuthStore.credentials_of oc_owner_id oc_role]. by rewrite Hi, Hr.
Qed.
End Commands.

(** * A concrete machine *)

Module CliDemo.
#[global] Instance plain_yaml : Yaml yaml := {
  safe_load v := Ok v;
  safe_dump v := v;
  yaml_repr _ := "...";
}.
#[global] Instance plain_lawful : LawfulYaml yaml.
Proof. by intros v. Qed.

Definition host : Host nat StateDb := {|
  environ _ := None;
  to_int _ := raise ValueError "invalid literal";
  to_float _ := raise ValueError "could not convert";
  show s := "";
  repr s := "'" +:+ s +:+ "'";
  sources_pk _ := [];
  new_state_db := empty_state_db;
  adapters _ _ := ServiceDemo.demo_ports;
  digest_of_url := ServiceDemo.digest;
  zone_info _ := raise KeyError "unknown zone";
  now := mret' 0;
  now_iso := mret' "2026-01-01T00:00:00+00:00";
  uuid4_hex n := (Ok ("0123456789" +:+ pretty n), Datatypes.S n);
  hash_password p := mret' ("argon2:" +:+ p);
  other_site _ := raise TypeError "not a text";
  sends _ _ _ := Returned true;
|}.

Definition verify_hash (hash password : string) : result unit :=
  if bool_decide (hash = "argon2:" +:+ password) then Ok tt else raise (OtherException "VerifyMismatchError") "".

(** The catalogue of the service's example, and one with a product that has no
    source. *)
Definition bare : ConfigDb :=
  snd (Config.add_product "ana" {| prod_id := "cpu"; prod_name := None; prod_sources := [] |} (config ServiceDemo.imported)).

Definition machine : Machine nat StateDb yaml :=
  mkMachine {["config.db" := config ServiceDemo.imported; "bare.db" := bare]} ∅ ∅ 5%nat
    {| logged := []; fired := [] |} (Pipe "s3cret") [] [] [].

Lemma at_config : config_at "config.db" machine = config ServiceDemo.imported.
Proof. reflexivity. Qed.
Lemma at_bare : config_at "bare.db" machine = bare.
Proof. reflexivity. Qed.
Lemma at_new : config_at "new.db" machine = empty_config_db.
Proof. reflexivity. Qed.

Lemma bare_wf : wf bare.
Proof.
  apply (wf_exec (ConfigStore.AddProduct "ana" {| prod_id := "cpu"; prod_name := None; prod_sources := [] |})); [done |].
  apply ServiceDemo.imported_wf.
Qed.

Lemma reads_settings : ∃ s, settings_of host machine = (Ok s, set_boot (boot machine) machine).
Proof. eexists. vm_compute. reflexivity. Qed.
End CliDemo.

(** The catalogue goes into a new database; with the bare product the import is
    refused. *)
Lemma export_import_roundtrip_witness :
  let imported src := cmd_config_import CliDemo.host "new.db" "kerdoos.db" "config" (Some "ana")
                        (snd (cmd_config_export CliDemo.host src "config" (Some "ana") CliDemo.machine)) in
  fst (imported "config.db") = Ok 0
  ∧ Config.load_sites (config_at "new.db" (snd (imported "config.db"))) !! "kabum"
    = Some (exported_site "kabum" ConfigDemo.kabum)
  ∧ fst (imported "bare.db") = Ok 1
  ∧ config_at "new.db" (snd (imported "bare.db")) = empty_config_db.
Proof.
  intros imported. destruct CliDemo.reads_settings as [s Hs].
  pose proof (λ src, export_import_roundtrip CliDemo.host src "new.db" "kerdoos.db" "config" "ana"
    CliDemo.machine s (boot CliDemo.machine)) as H. cbv zeta in H. rewrite CliDemo.at_new in H.
  assert (wf (config_at "config.db" CliDemo.machine)) as Hw1 by (rewrite CliDemo.at_config; apply ServiceDemo.imported_wf).
  assert (wf (config_at "bare.db" CliDemo.machine)) as Hw2 by (rewrite CliDemo.at_bare; apply CliDemo.bare_wf).
  destruct (H "config.db" ltac:(discriminate) Hw1 config_wf_empty ltac:(by intros t) ltac:(vm_compute; reflexivity)
    ltac:(reflexivity) Hs) as (_ & _ & Hok).
  destruct (H "bare.db" ltac:(discriminate) Hw2 config_wf_empty ltac:(by intros t) ltac:(vm_compute; reflexivity)
    ltac:(reflexivity) Hs) as (_ & Hno & _).
  clear H. fold (imported "config.db") in Hok. fold (imported "bare.db") in Hno.
  rewrite CliDemo.at_config in Hok. rewrite CliDemo.at_bare in Hno.
  destruct Hok as (errs & Hv & _ & Hacc & Hcan).
  { intros p Hp. assert (Hall : Forall (λ p, prod_sources p ≠ []) (Config.load_products "ana" (config ServiceDemo.imported)))
      by (vm_compute; repeat constructor; discriminate).
    rewrite Forall_forall in Hall. by apply Hall. }
  assert (errs = []) as -> by (vm_compute in Hv; by injection Hv).
  assert (fst (imported "config.db") = Ok 0) as Hzero.
  { apply Hcan; [done | intros r Hr; destruct (proj1 (elem_of_nil r) Hr) |].
    intros n x Hx. apply elem_of_sites_in_order with (o := "ana") in Hx.
    vm_compute in Hx. apply list_elem_of_singleton in Hx as [= -> ->].
    split; [done | intros r Hr; destruct (proj1 (elem_of_nil r) Hr)]. }
  destruct Hno as [Hone Hun].
  { exists {| prod_id := "cpu"; prod_name := None; prod_sources := [] |}.
    split; [| done]. apply (list_elem_of_lookup_2 _ 0%nat). vm_compute. reflexivity. }
  split; [exact Hzero |]. split; [| split; [exact Hone | exact (eq_trans (Hun "new.db") CliDemo.at_new)]].
  destruct (Hacc eq_refl) as [[_ [Hsites _]] | [Hbad _]]; [apply Hsites; vm_compute; reflexivity |].
  rewrite Hzero in Hbad. discriminate Hbad.
Defined.

(** A host that is not in the catalogue: the batch is rejected. *)
Lemma import_exit_codes_witness :
  let m := mkMachine (T:=yaml) ∅ ∅
    {[("config", "sites.yaml") := sites_doc (registry_of (config ServiceDemo.imported) "ana");
      ("config", "products.yaml") := YDict [(YStr "products", YList [product_to_yaml
         {| prod_id := "gpu"; prod_name := None; prod_sources := [{| source_id := ""; product_id := "gpu";
            source_site := "kabum"; source_url := "https://evil.example/" |}] |}])]]}
    5%nat {| logged := []; fired := [] |} (Pipe "") [] [] [] in
  let res := cmd_config_import CliDemo.host "new.db" "kerdoos.db" "config" (Some "ana") m in
  fst res = Ok 1 ∧ head (stderr (snd res)) = Some (REJECTED 1) ∧ config_at "new.db" (snd res) = empty_config_db.
Proof.
  intros m res. pose proof (import_exit_codes CliDemo.host "new.db" "kerdoos.db" "config" (Some "ana") m) as Hx.
  fold res in Hx. assert (fst res = Ok 1 ∧ head (stderr (snd res)) = Some (REJECTED 1)) as [Hc Hh] by (vm_compute; by split).
  split; [done |]. split; [done |]. destruct res as [[c | e] m']; [| done]. cbn [fst snd] in *. injection Hc as ->.
  destruct Hx as [[? _] | (_ & line & rest & He & [[Hu _] | [_ [why ->]]])]; [by intros s t | done | by rewrite Hu |].
  exfalso. rewrite He in Hh. vm_compute in Hh. discriminate.
Defined.

Lemma added_user_logs_in_witness :
  let res := cmd_user_add CliDemo.host "config.db" "bia" None true CliDemo.machine in
  fst res = Ok 0 ∧ stdout (snd res) = ["01234567895"] ∧
  fst (authenticate CliDemo.verify_hash "argon2:" "bia" "s3cret"
         (mkAuth (Build_AuthDb (config_at "config.db" (snd res)) [] [] []) 0))
  = Ok (Some {| owner_id := "01234567895"; role := "admin" |}).
Proof.
  intros res. assert (Hc : fst res = Ok 0 ∧ stdout (snd res) = ["01234567895"]) by (vm_compute; by split).
  destruct Hc as [Hc Ho]. split; [done |]. split; [done |].
  pose proof (added_user_logs_in CliDemo.host CliDemo.verify_hash "argon2:" "config.db" "bia" None true CliDemo.machine) as Hx.
  fold res in Hx. destruct res as [[c | e] m']; [| done]. cbn [fst snd] in *.
  destruct Hx as (_ & id & p & Hid & _ & Hp & Hauth).
  - intros w p k w' [= <- <-]. unfold CliDemo.verify_hash. split; [by rewrite bool_decide_eq_true_2 |].
    intros q Hq. rewrite bool_decide_eq_false_2; [done |]. intros E. by simplify_eq.
  - intros w i w' _ Hin. rewrite CliDemo.at_config in Hin. vm_compute in Hin. by apply elem_of_nil in Hin.
  - rewrite Hauth by done. vm_compute in Hp. injection Hp as <-. rewrite decide_True by done.
    rewrite Ho in Hid. vm_compute in Hid. by injection Hid as <-.
Defined.
