(* ===== verification/Schema.v ===== *)
(** Opening the databases: the schema each store creates and the upgrade of a
    file an earlier release has left, in [persistence/sqlite_store.py],
    [registry/sqlite_store.py] and [registry/auth_store.py].

    A file is its tables and indexes.  [sqlite3] commits a statement that
    defines a table or an index at once, and opens a transaction before one that
    changes rows; the states the disk goes through are kept, so that a crash
    between two statements is one of them. *)

From S2P Require Import Prelude.

(** * Files *)

Inductive sqlval := SNull | SInt (n : Z) | SReal (text : string) | SText (s : string).

#[export] Instance sqlval_eq_dec : EqDecision sqlval.
Proof. solve_decision. Defined.

(** A row maps columns to values; a column it does not have is NULL. *)
Notation SqlRow := (gmap string sqlval) (only parsing).

Record Table := { columns : list string; primary_key : list string; rows : list SqlRow }.

Record Index := { on_table : string; on_columns : list string; unique : bool }.

Record File := { tables : gmap string Table; indexes : gmap string Index; user_version : Z }.

Definition no_file : File := {| tables := ∅; indexes := ∅; user_version := 0 |}.

Definition value (c : string) (r : SqlRow) : sqlval := default SNull (r !! c).

Definition columns_of (t : string) (f : File) : list string :=
  match f.(tables) !! t with Some t => t.(columns) | None => [] end.
Definition rows_of (t : string) (f : File) : list SqlRow :=
  match f.(tables) !! t with Some t => t.(rows) | None => [] end.

Definition set_table (name : string) (t : Table) (f : File) : File :=
  {| tables := <[name := t]> f.(tables); indexes := f.(indexes); user_version := f.(user_version) |}.
Definition set_index (name : string) (i : Index) (f : File) : File :=
  {| tables := f.(tables); indexes := <[name := i]> f.(indexes); user_version := f.(user_version) |}.
Definition set_version (n : Z) (f : File) : File :=
  {| tables := f.(tables); indexes := f.(indexes); user_version := n |}.

(** * Statements *)

Inductive stmt :=
| CreateTable (name : string) (cols pk : list string)
| CreateIndex (name table : string) (cols : list string) (uniq : bool)
| AddColumn (table column : string)
| Backfill (table column : string) (v : string)
| SetVersion (n : Z).

(** The values a unique index on [cols] compares: rows with a NULL are never
    equal to another. *)
Definition index_keys (cols : list string) (l : list SqlRow) : list (list sqlval) :=
  filter (λ k, SNull ∉ k) ((λ r, (λ c, value c r) <$> cols) <$> l).

Definition operational (msg : string) : exn := Exn OperationalError msg.

Definition exec (s : stmt) (f : File) : result File :=
  match s with
  | CreateTable name cols pk =>
      match f.(tables) !! name with
      | Some _ => Ok f
      | None => Ok (set_table name {| columns := cols; primary_key := pk; rows := [] |} f)
      end
  | CreateIndex name table cols uniq =>
      match f.(indexes) !! name, f.(tables) !! table with
      | Some _, _ => Ok f
      | None, None => Raise (operational "no such table")
      | None, Some t =>
          if bool_decide (cols ⊆ t.(columns)) then
            if uniq && negb (bool_decide (NoDup (index_keys cols t.(rows)))) then Raise (Exn IntegrityError "constraint failed")
            else Ok (set_index name {| on_table := table; on_columns := cols; unique := uniq |} f)
          else Raise (operational "no such column")
      end
  | AddColumn table column =>
      match f.(tables) !! table with
      | None => Raise (operational "no such table")
      | Some t =>
          if bool_decide (column ∈ t.(columns)) then Raise (operational "duplicate column name")
          else Ok (set_table table {| columns := t.(columns) ++ [column]; primary_key := t.(primary_key);
                                      rows := t.(rows) |} f)
      end
  | Backfill table column v =>
      match f.(tables) !! table with
      | None => Raise (operational "no such table")
      | Some t =>
          if bool_decide (column ∈ t.(columns))
          then Ok (set_table table
                 {| columns := t.(columns); primary_key := t.(primary_key);
                    rows := (λ r, if bool_decide (value column r = SNull) then <[column := SText v]> r else r) <$> t.(rows) |} f)
          else Raise (operational "no such column")
      end
  | SetVersion n => Ok (set_version n f)
  end.

(** [sqlite3] opens a transaction before a statement that changes rows. *)
Definition begins (s : stmt) : bool := match s with Backfill _ _ _ => true | _ => false end.

(** * Connections *)

(** What the connection sees, whether a transaction is open, and what the disk
    has held, the latest first. *)
Record Conn := mkConn { seen : File; in_transaction : bool; disk : list File }.

Definition connect (f : File) : Conn := mkConn f false [f].

Definition execute (s : stmt) : M Conn unit :=
  λ c, match exec s c.(seen) with
       | Raise e => (Raise e, c)
       | Ok f =>
           let open := c.(in_transaction) || begins s in
           (Ok tt, mkConn f open (if open then c.(disk) else f :: c.(disk)))
       end.

Definition commit : M Conn unit := mmodify (λ c, mkConn c.(seen) false (c.(seen) :: c.(disk))).

Definition executescript (script : list stmt) : M Conn unit := commit ;;; mfor execute script.

(** [PRAGMA table_info]: the columns of a table, the primary key of a table. *)
Definition table_info (t : string) : M Conn (list string) := mgets (λ c, columns_of t c.(seen)).

(** What opening a store leaves: its answer, the file, and the files a crash
    could have left. *)
Record Opening := { answer : result unit; file_after : File; crash_states : list File }.

(** [with self._op() as conn]: commit unless the body raises, then close; what
    was not committed is gone. *)
Definition op (body : M Conn unit) (f : File) : Opening :=
  let '(r, c) := (body ;;; commit) (connect f) in
  {| answer := r; file_after := hd f c.(disk); crash_states := c.(disk) |}.

(** * persistence/sqlite_store.py *)

Module StateFile.
Definition SCHEMA : list stmt :=
  [CreateTable "scrapes"
     ["id"; "owner_id"; "source_id"; "ts"; "status"; "price_pix_cents"; "price_card_cents"; "currency";
      "availability"; "method"; "error"; "raw_ref"; "price_pix_member_cents"; "price_card_member_cents"] ["id"];
   CreateIndex "idx_scrapes_source_ts" "scrapes" ["source_id"; "ts"] false;
   CreateTable "job_runs"
     ["job_id"; "owner_id"; "window_start"; "fired_at"; "sent_at"; "status"; "error"] ["job_id"; "window_start"]].

Definition SCHEMA_VERSION : Z := 4.
Definition MEMBER_COLUMNS : list string := ["price_pix_member_cents"; "price_card_member_cents"].

(** The statements of [_migrate], for the columns it found. *)
Definition migration (bootstrap_owner_id : string) (existing : list string) : list stmt :=
  (AddColumn "scrapes" <$> filter (λ c, c ∉ existing) MEMBER_COLUMNS)
  ++ (if bool_decide ("owner_id" ∈ existing) then []
      else [AddColumn "scrapes" "owner_id"; Backfill "scrapes" "owner_id" bootstrap_owner_id])
  ++ [CreateIndex "idx_scrapes_owner_source_ts" "scrapes" ["owner_id"; "source_id"; "ts"] false;
      CreateIndex "idx_job_runs_owner_job_fired" "job_runs" ["owner_id"; "job_id"; "fired_at"] false;
      SetVersion SCHEMA_VERSION].

Definition migrate (bootstrap_owner_id : string) : M Conn unit :=
  let! existing := table_info "scrapes" in
  mfor execute (migration bootstrap_owner_id existing).

(** [SqliteStateStore.__init__]. *)
Definition open_file (bootstrap_owner_id : string) : File → Opening :=
  op (executescript SCHEMA ;;; migrate bootstrap_owner_id).
End StateFile.

(** * registry/sqlite_store.py *)

Module ConfigFile.
Definition SCHEMA : list stmt :=
  [CreateTable "owners" ["id"; "name"; "email"; "role"; "state"; "password_hash"; "created_at"] ["id"];
   CreateTable "sites" ["name"; "fetcher"; "domain"; "tier2_label"; "subresource_domains"; "parser_kind";
                        "parser_pix"; "parser_card"; "parser_availability"] ["name"];
   CreateTable "products" ["owner_id"; "product_key"; "name"] ["owner_id"; "product_key"];
   CreateTable "sources" ["source_id"; "owner_id"; "product_key"; "site"; "url"] ["owner_id"; "source_id"];
   CreateTable "digest_jobs" ["id"; "owner_id"; "name"; "frequency_kind"; "schedule_cron"; "timezone";
                              "template_id"; "options"; "enabled"; "created_at"] ["id"];
   CreateTable "digest_job_sources" ["owner_id"; "job_id"; "source_id"] ["job_id"; "source_id"]].

Definition SCHEMA_VERSION : Z := 5.
Definition OWNERS_AUTH_COLUMNS : list string := ["password_hash"; "created_at"].

Definition reject_pre_0006_sources : M Conn unit :=
  let! pk := mgets (λ c, match c.(seen).(tables) !! "sources" with Some t => t.(primary_key) | None => [] end) in
  if bool_decide (pk = ["source_id"])
  then mraise (Exn ConfigError "config.db predates schema 5 (source_id without owner)")
  else mret' tt.

(** [GROUP BY ... HAVING COUNT( * ) > 1], of the values that are not NULL. *)
Definition duplicated (column : string) (l : list SqlRow) : list (list sqlval) :=
  let keys := index_keys [column] l in filter (λ x, (1 < length (filter (λ y, y = x) keys))%nat) (remove_dups keys).

Definition reject_duplicate_identities : M Conn unit :=
  let! owners := mgets (λ c, rows_of "owners" c.(seen)) in
  if bool_decide (duplicated "name" owners = [] ∧ duplicated "email" owners = []) then mret' tt
  else mraise (Exn ConfigError "cannot enforce owner identity uniqueness").

Definition migrate : M Conn unit :=
  let! existing := table_info "owners" in
  mfor execute (AddColumn "owners" <$> filter (λ c, c ∉ existing) OWNERS_AUTH_COLUMNS) ;;;
  reject_duplicate_identities ;;;
  mfor execute [CreateIndex "idx_owners_name" "owners" ["name"] true;
                CreateIndex "idx_owners_email" "owners" ["email"] true;
                SetVersion SCHEMA_VERSION].

(** [SqliteConfigStore.__init__]. *)
Definition open_file : File → Opening :=
  op (reject_pre_0006_sources ;;; executescript SCHEMA ;;; migrate).
End ConfigFile.

(** * registry/auth_store.py *)

Module AuthFile.
Definition SESSION_TOKEN_SCHEMA : list stmt :=
  [CreateTable "sessions" ["session_hash"; "owner_id"; "created_at"; "expires_at"] ["session_hash"];
   CreateIndex "idx_sessions_owner" "sessions" ["owner_id"] false;
   CreateTable "tokens" ["token_hash"; "id"; "owner_id"; "created_at"; "expires_at"; "state"] ["token_hash"];
   CreateIndex "idx_tokens_owner" "tokens" ["owner_id"] false;
   CreateTable "login_attempts" ["identifier_key"; "failure_count"; "window_start"] ["identifier_key"];
   CreateIndex "idx_login_attempts_window" "login_attempts" ["window_start"] false].

Definition ensure_email_uniqueness : M Conn unit :=
  let! owners := mgets (λ c, c.(seen).(tables) !! "owners") in
  match owners with
  | None => mret' tt
  | Some t =>
      if bool_decide (ConfigFile.duplicated "email" t.(rows) = [])
      then execute (CreateIndex "idx_owners_email" "owners" ["email"] true)
      else mraise (Exn EmailAlreadyTakenError "cannot enforce owner email uniqueness")
  end.

(** [SqliteAuthStore.__init__]. *)
Definition open_file : File → Opening := op (executescript SESSION_TOKEN_SCHEMA ;;; ensure_email_uniqueness).
End AuthFile.

(** * Running statements *)

Fixpoint run_with (go : stmt → File → result File) (ss : list stmt) (f : File) : result File :=
  match ss with
  | [] => Ok f
  | s :: ss => let? f' := go s f in run_with go ss f'
  end.

(** The files a run goes through. *)
Fixpoint states_of (go : stmt → File → result File) (ss : list stmt) (f : File) : list File :=
  f :: match ss with
       | [] => []
       | s :: ss => match go s f with Ok f' => states_of go ss f' | Raise _ => [] end
       end.

(** A column is added unless it is there: what the stores do of [AddColumn]. *)
Definition ensure (s : stmt) (f : File) : result File :=
  match s with
  | AddColumn t c => if bool_decide (c ∈ columns_of t f) then Ok f else exec s f
  | _ => exec s f
  end.

Definition made (s : stmt) (f : File) : Prop :=
  match s with
  | CreateTable name _ _ => is_Some (f.(tables) !! name)
  | CreateIndex name _ _ _ => is_Some (f.(indexes) !! name)
  | AddColumn t c => c ∈ columns_of t f
  | Backfill _ _ _ => False
  | SetVersion n => f.(user_version) = n
  end.

Lemma run_app go ss1 ss2 f : run_with go (ss1 ++ ss2) f = let? g := run_with go ss1 f in run_with go ss2 g.
Proof. revert f. induction ss1 as [| s ss1 IH]; intros f; [done |]. cbn. by destruct (go s f); cbn. Qed.

Lemma columns_set t name tb f :
  columns_of t (set_table name tb f) = if decide (t = name) then columns tb else columns_of t f.
Proof.
  unfold columns_of. cbn. destruct (decide (t = name)) as [-> | ?];
    [by rewrite lookup_insert_eq | by rewrite lookup_insert_ne by done].
Qed.

Lemma rows_set t name tb f :
  rows_of t (set_table name tb f) = if decide (t = name) then rows tb else rows_of t f.
Proof.
  unfold rows_of. cbn. destruct (decide (t = name)) as [-> | ?];
    [by rewrite lookup_insert_eq | by rewrite lookup_insert_ne by done].
Qed.

Lemma columns_some t tb f : tables f !! t = Some tb → columns_of t f = columns tb.
Proof. unfold columns_of. by intros ->. Qed.
Lemma rows_some t tb f : tables f !! t = Some tb → rows_of t f = rows tb.
Proof. unfold rows_of. by intros ->. Qed.

(** What a statement may do to a file: it drops no table, column or index. *)
Definition grows (f g : File) : Prop :=
  (∀ t, is_Some (tables f !! t) → is_Some (tables g !! t))
  ∧ (∀ i, is_Some (indexes f !! i) → is_Some (indexes g !! i))
  ∧ (∀ t c, c ∈ columns_of t f → c ∈ columns_of t g).

Lemma grows_refl f : grows f f.
Proof. by split_and!. Qed.

Lemma grows_set t tb f :
  (∀ c, c ∈ columns_of t f → c ∈ columns tb) → grows f (set_table t tb f).
Proof.
  intros Hc. split_and!; [| done |].
  - intros t' Ht'. cbn. destruct (decide (t' = t)) as [-> | ?]; [by rewrite lookup_insert_eq |].
    by rewrite lookup_insert_ne by done.
  - intros t' c Hin. rewrite columns_set. destruct (decide (t' = t)) as [-> |]; auto.
Qed.

Lemma exec_grows s f g : exec s f = Ok g → grows f g.
Proof.
  destruct s as [name cols pk | name t cols u | t c | t c v | n]; cbn.
  - destruct (tables f !! name) eqn:E; intros [= <-]; [apply grows_refl |]. apply grows_set.
    unfold columns_of. rewrite E. by intros c ?%elem_of_nil.
  - destruct (indexes f !! name) eqn:E; [intros [= <-]; apply grows_refl |].
    repeat case_match; try done. intros [= <-]. split_and!; try done. intros i Hi. cbn.
    destruct (decide (i = name)) as [-> | ?]; [by rewrite lookup_insert_eq | by rewrite lookup_insert_ne by done].
  - destruct (tables f !! t) eqn:E; [| done]. case_bool_decide; [done |]. intros [= <-]. apply grows_set.
    intros c' Hc. rewrite (columns_some _ _ _ E) in Hc. apply elem_of_app. by left.
  - destruct (tables f !! t) eqn:E; [| done]. case_bool_decide; [| done]. intros [= <-]. apply grows_set.
    intros c' Hc. by rewrite (columns_some _ _ _ E) in Hc.
  - intros [= <-]. by split_and!.
Qed.

Lemma ensure_grows s f g : ensure s f = Ok g → grows f g.
Proof.
  destruct s; cbn [ensure]; try apply exec_grows. case_bool_decide; [intros [= <-]; apply grows_refl | apply exec_grows].
Qed.

Lemma ensure_made s f g : begins s = false → ensure s f = Ok g → made s g.
Proof.
  destruct s as [name cols pk | name t cols u | t c | t c v | n]; cbn; intros Hb.
  - destruct (tables f !! name) eqn:E; intros [= <-]; [by rewrite E |]. cbn. by rewrite lookup_insert_eq.
  - destruct (indexes f !! name) eqn:E; [intros [= <-]; by rewrite E |]. repeat case_match; try done.
    intros [= <-]. cbn. by rewrite lookup_insert_eq.
  - case_bool_decide; [by intros [= <-] |]. destruct (tables f !! t); [| done].
    case_bool_decide; [done |]. intros [= <-]. rewrite columns_set, decide_True by done. cbn. set_solver.
  - done.
  - by intros [= <-].
Qed.

Lemma made_ensure s f : made s f → ensure s f = Ok f.
Proof.
  destruct s as [name cols pk | name t cols u | t c | t c v | n]; cbn.
  - by intros [tb ->].
  - by intros [i ->].
  - intros Hc. by rewrite bool_decide_eq_true_2.
  - done.
  - intros <-. by destruct f.
Qed.

(** The statements agree on the version they set. *)
Definition one_version (ss : list stmt) : Prop := ∀ n m, SetVersion n ∈ ss → SetVersion m ∈ ss → n = m.

Lemma made_kept s t f g ss :
  one_version ss → s ∈ ss → t ∈ ss → made s f → ensure t f = Ok g → made s g.
Proof.
  intros Hv Hs Ht Hm He. destruct (ensure_grows _ _ _ He) as (Gt & Gi & Gc).
  destruct s as [name cols pk | name tb cols u | tb c | tb c v | n]; cbn in *; auto.
  destruct t as [name cols pk | name tb cols u | tb c | tb c v | m]; cbn in He.
  - destruct (tables f !! name); by injection He as <-.
  - repeat case_match; try done; by injection He as <-.
  - repeat case_match; try done; by injection He as <-.
  - repeat case_match; try done; by injection He as <-.
  - injection He as <-. cbn. by apply Hv.
Qed.

Lemma states_split go ss f g f' :
  run_with go ss f = Ok f' → g ∈ states_of go ss f →
  ∃ ss1 ss2, ss = (ss1 ++ ss2)%list ∧ run_with go ss1 f = Ok g ∧ run_with go ss2 g = Ok f'.
Proof.
  revert f. induction ss as [| s ss IH]; intros f Hr Hg.
  - apply list_elem_of_singleton in Hg as ->. by exists [], [].
  - cbn [states_of] in Hg. apply elem_of_cons in Hg as [-> | Hg]; [by exists [], (s :: ss) |].
    cbn in Hr. destruct (go s f) as [f1 |] eqn:E; [| done]. cbn in Hr.
    destruct (IH f1 Hr Hg) as (ss1 & ss2 & -> & H1 & H2). exists (s :: ss1), ss2. split; [done |].
    cbn. by rewrite E.
Qed.

Lemma run_made ss all f g :
  one_version all → Forall (λ s, begins s = false) ss → ss ⊆ all → run_with ensure ss f = Ok g →
  Forall (λ s, made s g) ss.
Proof.
  intros Hv. revert f. induction ss as [| s ss IH]; intros f Hb Hin Hr; [constructor |].
  apply Forall_cons in Hb as [Hs Hb]. cbn in Hr. destruct (ensure s f) as [f1 |] eqn:E; [| done]. cbn in Hr.
  constructor; [| apply (IH f1); [done | set_solver | done]].
  assert (made s f1) as Hm by (by eapply ensure_made). clear E IH. revert f1 Hm Hr.
  assert (s ∈ all) as Hsa by set_solver. assert (ss ⊆ all) as Hssa by set_solver. clear Hin Hb.
  induction ss as [| t ss IH]; intros f1 Hm Hr; [by injection Hr as <- |].
  cbn in Hr. destruct (ensure t f1) as [f2 |] eqn:E; [| done]. cbn in Hr. apply (IH ltac:(set_solver) f2); [| done].
  apply (made_kept s t f1 f2 all); [done | done | set_solver | done | done].
Qed.

Lemma run_done ss f : Forall (λ s, made s f) ss → run_with ensure ss f = Ok f.
Proof.
  induction ss as [| s ss IH]; [done |]. rewrite Forall_cons. intros [Hs Hss]. cbn. rewrite made_ensure by done.
  cbn. auto.
Qed.

(** Started again from any file it went through, a run ends in the same file. *)
Lemma resume ss f f' g :
  one_version ss → Forall (λ s, begins s = false) ss → run_with ensure ss f = Ok f' →
  g ∈ states_of ensure ss f → run_with ensure ss g = Ok f'.
Proof.
  intros Hv Hb Hr Hg. destruct (states_split _ _ _ _ _ Hr Hg) as (ss1 & ss2 & -> & H1 & H2).
  rewrite run_app, run_done; [done |]. apply Forall_app in Hb as [Hb _].
  apply (run_made ss1 (ss1 ++ ss2) f); [done | done | set_solver | done].
Qed.

(** * Connections *)

Definition silent (ss : list stmt) : Prop := Forall (λ s, begins s = false) ss.

Lemma silent_bool ss : forallb (λ s, negb (begins s)) ss = true → silent ss.
Proof.
  intros Hf. apply Forall_forall. intros s Hs%list_elem_of_In. rewrite forallb_forall in Hf.
  by apply negb_true_iff, Hf.
Qed.

(** Outside a transaction each statement reaches the disk; the states of the
    disk are those of the run. *)
Lemma execute_all_auto ss c :
  silent ss → c.(in_transaction) = false → head c.(disk) = Some c.(seen) →
  match mfor execute ss c with
  | (Ok _, c') => run_with exec ss c.(seen) = Ok c'.(seen) ∧ c'.(in_transaction) = false
      ∧ head c'.(disk) = Some c'.(seen)
      ∧ (∀ g, g ∈ c'.(disk) → g ∈ c.(disk) ∨ g ∈ states_of exec ss c.(seen))
      ∧ (∀ g, g ∈ c.(disk) → g ∈ c'.(disk))
  | (Raise e, c') => run_with exec ss c.(seen) = Raise e ∧ c'.(in_transaction) = false
      ∧ (∀ g, g ∈ c'.(disk) → g ∈ c.(disk) ∨ g ∈ states_of exec ss c.(seen))
      ∧ head c'.(disk) = Some c'.(seen)
  end.
Proof.
  revert c. induction ss as [| s ss IH]; intros c Hs Ht Hd; [cbn; split_and!; auto |].
  apply Forall_cons in Hs as [Hb Hs]. cbn [mfor run_with states_of]. unfold mbind' at 1, execute at 1.
  destruct (exec s (seen c)) as [f | e]; [| cbn; split_and!; auto]. cbn [rbind]. rewrite Ht, Hb. cbn [orb].
  specialize (IH (mkConn f false (f :: disk c)) Hs eq_refl eq_refl). cbn [seen disk] in IH.
  destruct (mfor execute ss _) as [[[] | e] c'].
  - destruct IH as (H1 & H2 & H3 & H4 & H5). split_and!; try done.
    + intros g Hg. destruct (H4 g Hg) as [[-> | Hin]%elem_of_cons | Hin]; [right | by left | right; by right].
      right. destruct ss; by left.
    + intros g Hg. apply H5. by right.
  - destruct IH as (H1 & H2 & H4 & H3). split_and!; try done.
    intros g Hg. destruct (H4 g Hg) as [[-> | Hin]%elem_of_cons | Hin]; [right | by left | right; by right].
    right. destruct ss; by left.
Qed.

(** In a transaction the disk stays as it is. *)
Lemma execute_all_tx ss c :
  c.(in_transaction) = true →
  match mfor execute ss c with
  | (Ok _, c') => run_with exec ss c.(seen) = Ok c'.(seen) ∧ c'.(disk) = c.(disk)
  | (Raise e, c') => run_with exec ss c.(seen) = Raise e ∧ c'.(disk) = c.(disk)
  end.
Proof.
  revert c. induction ss as [| s ss IH]; intros c Ht; [done |].
  cbn [mfor run_with]. unfold mbind' at 1, execute at 1. destruct (exec s (seen c)) as [f | e]; [| done].
  cbn [rbind]. rewrite Ht. cbn [orb]. by specialize (IH (mkConn f true (disk c)) eq_refl).
Qed.

Lemma ensure_exec ss f :
  Forall (λ s, ∀ t c, s ≠ AddColumn t c) ss → run_with exec ss f = run_with ensure ss f
  ∧ states_of exec ss f = states_of ensure ss f.
Proof.
  revert f. induction ss as [| s ss IH]; intros f Hs; [done |]. apply Forall_cons in Hs as [Ha Hs].
  cbn [run_with states_of]. assert (ensure s f = exec s f) as -> by (destruct s; try done; by destruct (Ha table column)).
  destruct (exec s f) as [g |]; [| done]. cbn. destruct (IH g Hs) as [-> ->]. done.
Qed.

(** Adding the columns that were missing at the start is ensuring each. *)
Lemma adds_ensure t (existing cs : list string) f :
  is_Some (tables f !! t) → NoDup cs → (∀ c, c ∈ cs → c ∈ existing ↔ c ∈ columns_of t f) →
  run_with exec (AddColumn t <$> filter (λ c, c ∉ existing) cs) f = run_with ensure (AddColumn t <$> cs) f
  ∧ states_of exec (AddColumn t <$> filter (λ c, c ∉ existing) cs) f ⊆ states_of ensure (AddColumn t <$> cs) f.
Proof.
  revert f. induction cs as [| c cs IH]; intros f [tb Ht] Hn Hc; [done |].
  apply NoDup_cons in Hn as [Hx Hn]. rewrite filter_cons.
  assert (c ∈ existing ↔ c ∈ columns_of t f) as Hcc by (apply Hc; by left).
  destruct (decide (c ∉ existing)) as [Hout | Hin].
  - rewrite !fmap_cons. cbn [run_with states_of ensure].
    rewrite bool_decide_eq_false_2 by (by rewrite <- Hcc).
    set (tb' := {| columns := columns tb ++ [c]; primary_key := primary_key tb; rows := rows tb |}).
    assert (exec (AddColumn t c) f = Ok (set_table t tb' f)) as ->.
    { cbn. rewrite Ht. rewrite bool_decide_eq_false_2; [done |]. by rewrite <- (columns_some _ _ _ Ht), <- Hcc. }
    cbn [rbind]. destruct (IH (set_table t tb' f)) as [-> Hs]; [cbn; by rewrite lookup_insert_eq | done | |].
    + intros c' Hc'. rewrite columns_set, decide_True by done. cbn. rewrite elem_of_app, list_elem_of_singleton.
      rewrite <- (columns_some _ _ _ Ht). rewrite (Hc c') by (by right). split; [by left |].
      intros [| ->]; [done | contradiction].
    + split; [done |]. set_solver.
  - apply dec_stable in Hin. rewrite fmap_cons. cbn [run_with states_of ensure].
    rewrite (bool_decide_eq_true_2 (c ∈ columns_of t f)) by (by rewrite <- Hcc). cbn [rbind].
    destruct (IH f) as [-> Hs]; [eauto | done | intros c' Hc'; apply Hc; by right |]. split; [done |]. set_solver.
Qed.

Lemma ensure_rows s f g t : begins s = false → ensure s f = Ok g → rows_of t g = rows_of t f.
Proof.
  destruct s as [name cols pk | name tb cols u | tb c | tb c v | n]; cbn; intros Hb.
  - destruct (tables f !! name) eqn:E; intros [= <-]; [done |]. rewrite rows_set. destruct (decide (t = name)) as [-> |]; [| done].
    unfold rows_of. by rewrite E.
  - repeat case_match; try done; by intros [= <-].
  - case_bool_decide; [by intros [= <-] |]. destruct (tables f !! tb) eqn:E; [| done]. case_bool_decide; [done |].
    intros [= <-]. rewrite rows_set. destruct (decide (t = tb)) as [-> |]; [| done]. by rewrite (rows_some _ _ _ E).
  - done.
  - by intros [= <-].
Qed.

Lemma run_rows ss f g t : silent ss → run_with ensure ss f = Ok g → rows_of t g = rows_of t f.
Proof.
  revert f. induction ss as [| s ss IH]; intros f Hs; [by intros [= <-] |]. apply Forall_cons in Hs as [Hb Hs].
  cbn. destruct (ensure s f) as [f1 |] eqn:E; [| done]. cbn. intros Hr. rewrite (IH f1 Hs Hr). by apply (ensure_rows s).
Qed.

(** A statement that can be run, now or once the file has grown. *)
Definition fits (s : stmt) (f : File) : Prop :=
  match s with
  | CreateTable _ _ _ | SetVersion _ => True
  | CreateIndex _ t cols u => u = false ∧ is_Some (tables f !! t) ∧ cols ⊆ columns_of t f
  | AddColumn t _ => is_Some (tables f !! t)
  | Backfill t c _ => is_Some (tables f !! t) ∧ c ∈ columns_of t f
  end.

Lemma fits_grows s f g : grows f g → fits s f → fits s g.
Proof. intros (Gt & _ & Gc). destruct s; cbn; try done; naive_solver set_solver. Qed.

Lemma fits_ensure s f : fits s f → ∃ g, ensure s f = Ok g.
Proof.
  destruct s as [name cols pk | name t cols u | t c | t c v | n]; cbn.
  - intros _. destruct (tables f !! name); eauto.
  - intros (-> & [tb Ht] & Hc). destruct (indexes f !! name); [eauto |]. rewrite Ht.
    rewrite (columns_some _ _ _ Ht) in Hc. rewrite bool_decide_eq_true_2 by done. eauto.
  - intros [tb Ht]. rewrite (columns_some _ _ _ Ht), Ht. case_bool_decide; eauto.
  - intros [[tb Ht] Hc]. rewrite (columns_some _ _ _ Ht) in Hc. rewrite Ht, bool_decide_eq_true_2 by done. eauto.
  - eauto.
Qed.

Lemma run_fits ss f : Forall (λ s, fits s f) ss → ∃ g, run_with ensure ss f = Ok g ∧ grows f g.
Proof.
  revert f. induction ss as [| s ss IH]; intros f Hs; [by exists f; split; [| apply grows_refl] |].
  apply Forall_cons in Hs as [H1 Hs]. destruct (fits_ensure _ _ H1) as [f1 E]. cbn. rewrite E. cbn.
  destruct (IH f1) as (g & Hr & Hg).
  - eapply Forall_impl; [exact Hs |]. intros s'. by apply fits_grows, (ensure_grows s).
  - exists g. split; [done |]. destruct (ensure_grows _ _ _ E) as (A & B & C), Hg as (A' & B' & C'). split_and!; auto.
Qed.

Lemma mfor_app {S A} (f : A → M S unit) l1 l2 s :
  mfor f (l1 ++ l2) s = (mfor f l1 ;;; mfor f l2) s.
Proof.
  revert s. induction l1 as [| x l1 IH]; intros s; [done |]. cbn [app mfor]. unfold mbind' at 1 3.
  unfold mbind' at 1. destruct (f x s) as [[[] | e] s']; [| done]. apply IH.
Qed.

Lemma states_app_l go ss1 ss2 f g : g ∈ states_of go ss1 f → g ∈ states_of go (ss1 ++ ss2) f.
Proof.
  revert f. induction ss1 as [| s ss1 IH]; intros f; cbn.
  - intros ->%list_elem_of_singleton. destruct ss2; by left.
  - rewrite !elem_of_cons. intros [-> | Hg]; [by left |]. right. destruct (go s f); [by apply IH | done].
Qed.

Lemma states_app_r go ss1 ss2 f h g :
  run_with go ss1 f = Ok h → g ∈ states_of go ss2 h → g ∈ states_of go (ss1 ++ ss2) f.
Proof.
  revert f. induction ss1 as [| s ss1 IH]; intros f; cbn; [by intros [= <-] |].
  destruct (go s f) as [f1 |]; [| done]. cbn. intros Hr Hg. right. by apply (IH f1).
Qed.

Lemma states_last go ss f h : run_with go ss f = Ok h → h ∈ states_of go ss f.
Proof.
  intros Hr. rewrite <- (app_nil_r ss). apply (states_app_r go ss [] f h h Hr). by left.
Qed.

(** A run that succeeds, statement by statement. *)
Lemma phase ss c f' :
  silent ss → c.(in_transaction) = false → head c.(disk) = Some c.(seen) → run_with exec ss c.(seen) = Ok f' →
  ∃ c', mfor execute ss c = (Ok tt, c') ∧ c'.(seen) = f' ∧ c'.(in_transaction) = false
    ∧ head c'.(disk) = Some f' ∧ (∀ g, g ∈ c'.(disk) → g ∈ c.(disk) ∨ g ∈ states_of exec ss c.(seen))
    ∧ (∀ g, g ∈ c.(disk) → g ∈ c'.(disk)).
Proof.
  intros Hs Ht Hd Hr. pose proof (execute_all_auto ss c Hs Ht Hd) as Hx.
  destruct (mfor execute ss c) as [[[] | e] c']; [| destruct Hx as [Hx _]; by rewrite Hr in Hx].
  destruct Hx as (H1 & H2 & H3 & H4 & H5). rewrite Hr in H1. injection H1 as ->. exists c'. by split_and!.
Qed.

Lemma op_ok body f c :
  body (connect f) = (Ok tt, c) →
  op body f = {| answer := Ok tt; file_after := seen c; crash_states := seen c :: disk c |}.
Proof. intros E. unfold op. by rewrite (mbind_ok _ _ _ _ _ E). Qed.

Lemma op_raise body f e c :
  body (connect f) = (Raise e, c) → op body f = {| answer := Raise e; file_after := hd f (disk c); crash_states := disk c |}.
Proof. intros E. unfold op, mbind'. by rewrite E. Qed.

Lemma elem_of_head {A} (l : list A) x : head l = Some x → x ∈ l.
Proof. destruct l; [done |]. intros [= ->]. by left. Qed.

(** Of a table in the new file: it was there with fewer columns, or it is new. *)
Lemma exec_table s f g t tb :
  exec s f = Ok g → tables g !! t = Some tb →
  (∃ tb0, tables f !! t = Some tb0 ∧ columns tb0 ⊆ columns tb)
  ∨ tables f !! t = None ∧ ∃ pk, s = CreateTable t (columns tb) pk.
Proof.
  destruct s as [name cols pk | name t' cols u | t' c | t' c v | n]; cbn.
  - destruct (tables f !! name) eqn:E; intros [= <-]; [eauto |]. cbn. destruct (decide (t = name)) as [-> | ?].
    + rewrite lookup_insert_eq. intros [= <-]. right. eauto.
    + rewrite lookup_insert_ne by done. eauto.
  - repeat case_match; try done; intros [= <-]; eauto.
  - destruct (tables f !! t') eqn:E; [| done]. case_bool_decide; [done |]. intros [= <-]. cbn.
    destruct (decide (t = t')) as [-> | ?]; [| rewrite lookup_insert_ne by done; eauto].
    rewrite lookup_insert_eq. intros [= <-]. left. eexists. split; [done |]. cbn. set_solver.
  - destruct (tables f !! t') eqn:E; [| done]. case_bool_decide; [| done]. intros [= <-]. cbn.
    destruct (decide (t = t')) as [-> | ?]; [| rewrite lookup_insert_ne by done; eauto].
    rewrite lookup_insert_eq. intros [= <-]. left. eexists. split; [done |]. done.
  - intros [= <-]. eauto.
Qed.

Lemma run_keeps (I : File → Prop) ss f g :
  (∀ s f g, s ∈ ss → exec s f = Ok g → I f → I g) → I f → run_with ensure ss f = Ok g → I g.
Proof.
  revert f. induction ss as [| s ss IH]; intros f Hk Hf; [by intros [= <-] |]. cbn [run_with].
  destruct (ensure s f) as [f1 |] eqn:E; [| done]. cbn [rbind]. apply IH.
  - intros s' f' g' Hs'. apply Hk. by right.
  - assert (∀ s', s' = s → exec s' f = Ok f1 → I f1) as He by (intros s' -> He; apply (Hk s f); [left | done | done]).
    revert E. destruct s; cbn [ensure]; try (by apply He).
    case_bool_decide; [by intros [= <-] | by apply He].
Qed.

(** ** What a run keeps of tables and indexes *)

(** Each of these tables, if it is there, has this column. *)
Definition has_columns (need : list (string * string)) (f : File) : Prop :=
  Forall (λ '(t, c), ∀ tb, tables f !! t = Some tb → c ∈ columns tb) need.

(** A statement that creates one of the tables gives it the column. *)
Definition creates_with (need : list (string * string)) (s : stmt) : bool :=
  match s with
  | CreateTable t cols _ => forallb (λ '(t', c), bool_decide (t' = t → c ∈ cols)) need
  | _ => true
  end.

Lemma has_columns_exec need s f g :
  creates_with need s = true → exec s f = Ok g → has_columns need f → has_columns need g.
Proof.
  intros Hw He Hl. unfold has_columns in *. rewrite Forall_forall in *. intros [t c] Hin tb Ht.
  destruct (exec_table _ _ _ _ _ He Ht) as [(tb0 & H0 & Hc) | (_ & pk & ->)]; [apply Hc, (Hl _ Hin _ H0) |].
  cbn [creates_with] in Hw. rewrite forallb_forall in Hw. apply list_elem_of_In in Hin.
  specialize (Hw _ Hin). cbn in Hw. apply bool_decide_eq_true in Hw. auto.
Qed.

Lemma has_columns_run need ss f g :
  forallb (creates_with need) ss = true → has_columns need f → run_with ensure ss f = Ok g → has_columns need g.
Proof.
  intros Hw. apply (run_keeps (has_columns need)). intros s x y Hs. apply has_columns_exec.
  rewrite forallb_forall in Hw. by apply Hw, list_elem_of_In.
Qed.

(** The index of this name, if it is there, is this one. *)
Definition index_as (name : string) (i : Index) (f : File) : Prop := ∀ x, indexes f !! name = Some x → x = i.

Definition indexes_as (name : string) (i : Index) (s : stmt) : bool :=
  match s with
  | CreateIndex n t cols u =>
      bool_decide (n = name → t = i.(on_table) ∧ cols = i.(on_columns) ∧ u = i.(unique))
  | _ => true
  end.

Lemma index_as_exec name i s f g : indexes_as name i s = true → exec s f = Ok g → index_as name i f → index_as name i g.
Proof.
  intros Hw He Hi. destruct s as [n c k | n t c u | t c | t c v | n]; cbn in He, Hw;
    try (repeat case_match; try done; by injection He as <-).
  apply bool_decide_eq_true in Hw. repeat case_match; try done; injection He as <-; [done |]. intros x. cbn.
  destruct (decide (n = name)) as [-> | Hn]; [rewrite lookup_insert_eq | rewrite lookup_insert_ne by done; apply Hi].
  intros [= <-]. destruct (Hw eq_refl) as (-> & -> & ->). by destruct i.
Qed.

Lemma index_as_run name i ss f g :
  forallb (indexes_as name i) ss = true → index_as name i f → run_with ensure ss f = Ok g → index_as name i g.
Proof.
  intros Hw. apply (run_keeps (index_as name i)). intros s x y Hs. apply index_as_exec.
  rewrite forallb_forall in Hw. by apply Hw, list_elem_of_In.
Qed.
