(* ===== verification/Upgrade.v ===== *)
(** Upgrading the databases: what opening a file of an earlier release makes of
    it, whatever the disk held when the opening before was cut short.  The state
    store first, then the configuration. *)

From S2P Require Import Prelude Registry ConfigStore Schema.

(** * state.db *)

Module StateProofs.
Import StateFile.

Definition RUNS_COLUMNS : list string := ["owner_id"; "job_id"; "fired_at"].

(** A file an earlier release may have left: where a table is there, it has the
    columns it always had. *)
Record legacy (f : File) : Prop := {
  legacy_scrapes : ∀ tb, tables f !! "scrapes" = Some tb → ["source_id"; "ts"] ⊆ columns tb;
  legacy_runs : ∀ tb, tables f !! "job_runs" = Some tb → RUNS_COLUMNS ⊆ columns tb;
}.

Definition adds : list stmt := AddColumn "scrapes" <$> MEMBER_COLUMNS.
Definition add_owner : stmt := AddColumn "scrapes" "owner_id".
Definition last_statements : list stmt :=
  [CreateIndex "idx_scrapes_owner_source_ts" "scrapes" ["owner_id"; "source_id"; "ts"] false;
   CreateIndex "idx_job_runs_owner_job_fired" "job_runs" ["owner_id"; "job_id"; "fired_at"] false;
   SetVersion SCHEMA_VERSION].

Lemma index_run name t cols f :
  fits (CreateIndex name t cols false) f → ∃ g, exec (CreateIndex name t cols false) f = Ok g ∧ tables g = tables f.
Proof.
  intros (_ & [tb Ht] & Hc). rewrite (columns_some _ _ _ Ht) in Hc. cbn. destruct (indexes f !! name); [eauto |].
  rewrite Ht, bool_decide_eq_true_2 by done. eauto.
Qed.

Definition created (name : string) (cols pk : list string) (f : File) : File :=
  match tables f !! name with
  | Some _ => f
  | None => set_table name {| columns := cols; primary_key := pk; rows := [] |} f
  end.

Lemma create_run name cols pk f : exec (CreateTable name cols pk) f = Ok (created name cols pk f).
Proof. cbn. unfold created. by destruct (tables f !! name). Qed.

Lemma created_eq name cols pk f :
  tables (created name cols pk f) !! name
  = Some (default {| columns := cols; primary_key := pk; rows := [] |} (tables f !! name)).
Proof. unfold created. destruct (tables f !! name) eqn:E; cbn; [done |]. by rewrite lookup_insert_eq. Qed.

Lemma created_ne name cols pk f t : t ≠ name → tables (created name cols pk f) !! t = tables f !! t.
Proof. intros Hn. unfold created. destruct (tables f !! name) eqn:E; cbn; [done |]. by rewrite lookup_insert_ne. Qed.

(** After the schema script both tables are there; a new one has all its
    columns. *)
Lemma schema_run f :
  legacy f → ∃ f1, run_with ensure SCHEMA f = Ok f1
    ∧ is_Some (tables f1 !! "scrapes") ∧ is_Some (tables f1 !! "job_runs")
    ∧ ["source_id"; "ts"] ⊆ columns_of "scrapes" f1 ∧ RUNS_COLUMNS ⊆ columns_of "job_runs" f1
    ∧ ("owner_id" ∈ columns_of "scrapes" f1 ↔ "owner_id" ∈ columns_of "scrapes" f ∨ tables f !! "scrapes" = None).
Proof.
  intros [Hs Hr]. cbn [SCHEMA run_with ensure]. rewrite create_run. cbn [rbind].
  match goal with |- context [created "scrapes" ?c ?k f] => set (fa := created "scrapes" c k f);
    pose proof (created_eq "scrapes" c k f) as Hfa; pose proof (created_ne "scrapes" c k f) as Hfn;
    fold fa in Hfa, Hfn end.
  destruct (index_run "idx_scrapes_source_ts" "scrapes" ["source_id"; "ts"] fa) as (fb & Eb & Tb).
  { split; [done |]. unfold columns_of. rewrite Hfa. split; [eauto |].
    destruct (tables f !! "scrapes") as [tb |] eqn:E; cbn; [by apply Hs | set_solver]. }
  rewrite Eb. cbn [rbind]. rewrite create_run. cbn [rbind]. eexists. split; [done |].
  unfold columns_of. rewrite created_eq, !(created_ne "job_runs" _ _ fb "scrapes") by done.
  rewrite Tb, Hfa, (Hfn "job_runs") by done.
  split_and!; [eauto | eauto | | |].
  - destruct (tables f !! "scrapes") as [tb |] eqn:E; cbn; [by apply Hs | set_solver].
  - destruct (tables f !! "job_runs") as [tb |] eqn:E; cbn; [by apply Hr | set_solver].
  - destruct (tables f !! "scrapes") as [tb |] eqn:E; cbn; [naive_solver | set_solver].
Qed.

(** Whether the migration finds the column of the owner. *)
Definition has_owner (f : File) : bool :=
  bool_decide ("owner_id" ∈ columns_of "scrapes" f ∨ tables f !! "scrapes" = None).

(** What opening makes of a file. *)
Definition upgraded (b : string) (f : File) : result File :=
  if has_owner f then run_with ensure (SCHEMA ++ adds ++ last_statements) f
  else let? h := run_with ensure (SCHEMA ++ adds ++ [add_owner]) f in
       let? h' := exec (Backfill "scrapes" "owner_id" b) h in
       run_with ensure last_statements h'.

(** The disk holds the states of the statements that commit by themselves, and
    the file at the end. *)
Definition committed (f : File) : list stmt :=
  SCHEMA ++ adds ++ (if has_owner f then last_statements else [add_owner]).

Lemma upgraded_ok b f : legacy f → ∃ g, upgraded b f = Ok g.
Proof.
  intros Hl. destruct (schema_run f Hl) as (f1 & E1 & Hs1 & Hj1 & Hc1 & Hr1 & Ho1). unfold upgraded, has_owner.
  assert (∃ f2, run_with ensure adds f1 = Ok f2 ∧ grows f1 f2) as (f2 & E2 & G2) by (apply run_fits; by repeat constructor).
  assert (∀ h, grows f1 h → "owner_id" ∈ columns_of "scrapes" h → ∃ g, run_with ensure last_statements h = Ok g) as Hlast.
  { intros h (Gt & _ & Gc) Ho. destruct (run_fits last_statements h) as (g & Hg & _); [| eauto].
    repeat constructor; cbn; auto; unfold RUNS_COLUMNS in Hr1; set_solver. }
  case_bool_decide as Ho.
  - rewrite !run_app, E1. cbn [rbind]. rewrite run_app, E2. cbn [rbind]. apply Hlast; [done |]. by apply G2, Ho1.
  - rewrite !run_app, E1. cbn [rbind]. rewrite run_app, E2. cbn [rbind].
    destruct (run_fits [add_owner] f2) as (h & E3 & G3); [repeat constructor; by apply G2 |]. rewrite E3. cbn [rbind].
    assert (grows f1 h) as G by (destruct G2 as (?&?&?), G3 as (?&?&?); split_and!; auto).
    assert ("owner_id" ∈ columns_of "scrapes" h) as Hh.
    { pose proof (run_made [add_owner] [add_owner] f2 h) as Hm. apply Forall_singleton in Hm; [done | | by repeat constructor | done | done].
      intros n m ?%list_elem_of_singleton. done. }
    destruct (fits_ensure (Backfill "scrapes" "owner_id" b) h) as [h' Eh]; [split; [by apply G | done] |].
    cbn [ensure] in Eh. rewrite Eh. cbn [rbind]. pose proof (exec_grows _ _ _ Eh) as G4.
    apply Hlast; [destruct G as (?&?&?), G4 as (?&?&?); split_and!; auto |]. by apply G4.
Qed.

Lemma no_adds_schema : Forall (λ s, ∀ t c, s ≠ AddColumn t c) SCHEMA.
Proof. by repeat constructor. Qed.
Lemma no_adds_last : Forall (λ s, ∀ t c, s ≠ AddColumn t c) last_statements.
Proof. by repeat constructor. Qed.

(** Up to the columns of the members: the file [f2] on the disk, and every state
    the disk went through one of the run's. *)
Lemma open_begins b f f1 f2 :
  legacy f → run_with ensure SCHEMA f = Ok f1 → run_with ensure adds f1 = Ok f2 → is_Some (tables f1 !! "scrapes") →
  ∃ c2, (executescript SCHEMA ;;; migrate b) (connect f)
        = mfor execute ((if bool_decide ("owner_id" ∈ columns_of "scrapes" f1) then []
                         else [add_owner; Backfill "scrapes" "owner_id" b]) ++ last_statements) c2
    ∧ c2.(seen) = f2 ∧ c2.(in_transaction) = false ∧ head c2.(disk) = Some f2
    ∧ ∀ g, g ∈ c2.(disk) → g ∈ states_of ensure (SCHEMA ++ adds) f.
Proof.
  intros Hl E1 E2 Hs. destruct (ensure_exec SCHEMA f no_adds_schema) as [Hx1 Hst1].
  destruct (phase SCHEMA (mkConn f false [f; f]) f1) as (c1 & R1 & S1 & T1 & D1 & M1 & _);
    [by apply silent_bool | done | done | cbn [seen]; by rewrite Hx1 |].
  cbn [seen disk] in M1. unfold executescript. rewrite (mbind_ok _ _ _ tt c1).
  2: { rewrite (mbind_ok _ _ _ tt (mkConn f false [f; f])) by done. exact R1. }
  unfold migrate. rewrite (mbind_ok _ _ _ (columns_of "scrapes" f1) c1) by (unfold table_info, mgets; by rewrite S1).
  unfold migration. rewrite mfor_app.
  destruct (adds_ensure "scrapes" (columns_of "scrapes" f1) MEMBER_COLUMNS f1 Hs) as [Hx2 Hst2];
    [apply (bool_decide_unpack _); vm_compute; exact Logic.I | done |].
  destruct (phase (AddColumn "scrapes" <$> filter (λ c, c ∉ columns_of "scrapes" f1) MEMBER_COLUMNS) c1 f2)
    as (c2 & R2 & S2 & T2 & D2 & M2 & _).
  { apply Forall_fmap, Forall_true. done. }
  { done. }
  { by rewrite S1, D1. }
  { rewrite S1, Hx2. exact E2. }
  rewrite (mbind_ok _ _ _ _ _ R2). exists c2. split_and!; try done.
  intros g Hg. apply M2 in Hg as [Hg | Hg].
  - apply M1 in Hg as [Hg | Hg]; [| rewrite Hst1 in Hg; by apply states_app_l].
    apply elem_of_cons in Hg as [-> | ->%list_elem_of_singleton]; by left.
  - rewrite S1 in Hg. apply (states_app_r ensure SCHEMA adds f f1); [done |]. by apply Hst2.
Qed.

Lemma adds_columns t cs f g c :
  run_with ensure (AddColumn t <$> cs) f = Ok g → c ∈ columns_of t g → c ∈ cs ∨ c ∈ columns_of t f.
Proof.
  revert f. induction cs as [| c' cs IH]; intros f; [intros [= <-]; by right |]. rewrite fmap_cons. cbn [run_with ensure].
  case_bool_decide; cbn [rbind].
  - intros Hr Hc. destruct (IH f Hr Hc); [left; by right | by right].
  - cbn. destruct (tables f !! t) as [tb |] eqn:Et; [| done]. case_bool_decide; [done |]. cbn [rbind]. intros Hr Hc.
    destruct (IH _ Hr Hc) as [| Hin]; [left; by right |]. rewrite columns_set, decide_True in Hin by done. cbn in Hin.
    apply elem_of_app in Hin as [| ->%list_elem_of_singleton]; [right; by rewrite (columns_some _ _ _ Et) | left; by left].
Qed.

(** What opening a file does, and the files it can leave. *)
Lemma open_spec b f :
  legacy f → let o := open_file b f in
  answer o = Ok tt ∧ upgraded b f = Ok (file_after o) ∧ file_after o ∈ crash_states o
  ∧ (∀ g, g ∈ crash_states o → g ∈ states_of ensure (committed f) f ∨ g = file_after o)
  ∧ (has_owner f = false → ∃ h, run_with ensure (committed f) f = Ok h ∧ h ∈ crash_states o).
Proof.
  intros Hl. destruct (schema_run f Hl) as (f1 & E1 & Hs1 & _ & _ & _ & Ho1).
  destruct (upgraded_ok b f Hl) as [fin Hfin].
  destruct (run_fits adds f1) as (f2 & E2 & _); [by repeat constructor |].
  destruct (open_begins b f f1 f2 Hl E1 E2 Hs1) as (c2 & R2 & S2 & T2 & D2 & M2).
  rewrite (bool_decide_ext _ _ Ho1) in R2. fold (has_owner f) in R2. unfold open_file, upgraded, committed in *.
  assert (run_with ensure (SCHEMA ++ adds) f = Ok f2) as E12 by (rewrite run_app, E1; exact E2).
  destruct (has_owner f) eqn:Ho.
  - rewrite app_assoc, run_app, E12 in Hfin. cbn [rbind] in Hfin.
    destruct (ensure_exec last_statements f2 no_adds_last) as [Hx Hst].
    destruct (phase last_statements c2 fin) as (c3 & R3 & S3 & _ & D3 & M3 & _);
      [by apply silent_bool | done | by rewrite S2 | rewrite S2, Hx; exact Hfin |].
    cbn [app] in R2. rewrite R3 in R2. rewrite (op_ok _ _ _ R2). cbn [answer file_after crash_states]. rewrite S3. rewrite app_assoc, run_app, E12. split_and!; [done | exact Hfin | by left | | done].
    intros g [-> | Hg]%elem_of_cons; [by right | left].
    apply M3 in Hg as [Hg | Hg]; [by apply states_app_l, M2 |].
    rewrite S2, Hst in Hg. by apply (states_app_r _ _ _ f f2).
  - rewrite app_assoc, run_app, E12 in Hfin. cbn [rbind] in Hfin.
    destruct (run_with ensure [add_owner] f2) as [h |] eqn:E3; [| done]. cbn [rbind] in Hfin.
    destruct (exec (Backfill "scrapes" "owner_id" b) h) as [h' |] eqn:E4; [| done]. cbn [rbind] in Hfin.
    assert ("owner_id" ∉ columns_of "scrapes" f2) as Hno.
    { intros [Hin | Hin]%(adds_columns "scrapes" MEMBER_COLUMNS f1 f2 "owner_id" E2); [set_solver |].
      apply Ho1 in Hin. unfold has_owner in Ho. by rewrite bool_decide_eq_true_2 in Ho. }
    assert (run_with exec [add_owner] f2 = Ok h) as X3.
    { revert E3. cbn [run_with ensure add_owner]. by rewrite bool_decide_eq_false_2. }
    destruct (phase [add_owner] c2 h) as (c3 & R3 & S3 & T3 & D3 & M3 & _);
      [by apply silent_bool | done | by rewrite S2 | by rewrite S2 |].
    change ([add_owner; Backfill "scrapes" "owner_id" b] ++ last_statements)%list
      with ([add_owner] ++ Backfill "scrapes" "owner_id" b :: last_statements)%list in R2.
    rewrite mfor_app, (mbind_ok _ _ _ _ _ R3) in R2. cbn [mfor] in R2.
    rewrite (mbind_ok _ _ c3 tt (mkConn h' true (disk c3))) in R2
      by (unfold execute; rewrite S3, E4, T3; done).
    pose proof (execute_all_tx last_statements (mkConn h' true (disk c3)) eq_refl) as Hx.
    destruct (ensure_exec last_statements h' no_adds_last) as [Hx' _]. cbn [seen disk] in Hx. rewrite Hx', Hfin in Hx.
    destruct (mfor execute last_statements _) as [[[] | e] c4]; [| by destruct Hx]. destruct Hx as [[= E5] D4].
    rewrite (op_ok _ _ _ R2). cbn [answer file_after crash_states]. rewrite D4, <- E5.
    assert (run_with ensure (SCHEMA ++ adds ++ [add_owner]) f = Ok h) as E123 by (by rewrite app_assoc, run_app, E12).
    rewrite E123. cbn [rbind]. rewrite E4. split_and!; [done | exact Hfin | by left | |].
    + intros g [-> | Hg]%elem_of_cons; [by right | left]. rewrite app_assoc.
      apply M3 in Hg as [Hg | Hg]; [by apply states_app_l, M2 |].
      rewrite S2 in Hg. apply (states_app_r _ _ _ f f2); [done |]. cbn in Hg |- *.
      rewrite (bool_decide_eq_false_2 ("owner_id" ∈ columns_of "scrapes" f2)) by done. exact Hg.
    + intros _. exists h. split; [done |]. right. by apply elem_of_head.
Qed.

(** ** What every state keeps *)

(** The statements create the two tables with the columns they need. *)
Definition good (s : stmt) : Prop :=
  match s with
  | CreateTable name cols _ =>
      (name = "scrapes" → ["owner_id"; "source_id"; "ts"] ⊆ cols) ∧ (name = "job_runs" → RUNS_COLUMNS ⊆ cols)
  | _ => True
  end.

Lemma legacy_exec s f g : good s → exec s f = Ok g → legacy f → legacy g.
Proof.
  intros Hg He [Hs Hr]. split; intros tb Ht.
  - destruct (exec_table _ _ _ _ _ He Ht) as [(tb0 & H0 & Hc) | (_ & pk & ->)]; [specialize (Hs _ H0); set_solver |].
    destruct Hg as [Hg _]. specialize (Hg eq_refl). set_solver.
  - destruct (exec_table _ _ _ _ _ He Ht) as [(tb0 & H0 & Hc) | (_ & pk & ->)]; [specialize (Hr _ H0); set_solver |].
    destruct Hg as [_ Hg]. by apply Hg.
Qed.

Lemma owner_exec s f g : good s → exec s f = Ok g → has_owner f = true → has_owner g = true.
Proof.
  intros Hg He. unfold has_owner. rewrite !bool_decide_eq_true. intros Ho.
  destruct (tables g !! "scrapes") as [tb |] eqn:Et; [left | by right]. rewrite (columns_some _ _ _ Et).
  destruct (exec_table _ _ _ _ _ He Et) as [(tb0 & H0 & Hc) | (_ & pk & ->)].
  - destruct Ho as [Ho | Ho]; [| congruence]. rewrite (columns_some _ _ _ H0) in Ho. set_solver.
  - destruct Hg as [Hg _]. specialize (Hg eq_refl). set_solver.
Qed.

Lemma made_grows s f g : (∀ n, s ≠ SetVersion n) → grows f g → made s f → made s g.
Proof. intros Hn (Gt & Gi & Gc). destruct s; cbn; auto. by destruct (Hn n). Qed.

Lemma committed_facts f : silent (committed f) ∧ one_version (committed f) ∧ Forall good (committed f).
Proof.
  assert (∀ ss, forallb (λ s, match s with SetVersion n => bool_decide (n = SCHEMA_VERSION) | _ => true end) ss = true →
    one_version ss) as Hv.
  { intros ss Hf n m Hn%list_elem_of_In Hm%list_elem_of_In. rewrite forallb_forall in Hf.
    apply Hf in Hn, Hm. cbn in Hn, Hm. apply bool_decide_eq_true in Hn, Hm. congruence. }
  unfold committed. destruct (has_owner f); (split; [by apply silent_bool |]; split; [by apply Hv |]);
    apply Forall_forall; intros s Hs; destruct s; cbn; try done;
    (split; intros ->; apply list_elem_of_In in Hs; cbn in Hs; intuition (simplify_eq; set_solver)).
Qed.

Lemma committed_legacy f ss g : legacy f → ss ⊆ committed f → run_with ensure ss f = Ok g → legacy g.
Proof.
  intros Hl Hin. apply run_keeps; [| done]. intros s f' g' Hs He. apply (legacy_exec s); [| done].
  destruct (committed_facts f) as (_ & _ & Hg). rewrite Forall_forall in Hg. apply Hg. set_solver.
Qed.

Lemma committed_owner f ss g : has_owner f = true → ss ⊆ committed f → run_with ensure ss f = Ok g → has_owner g = true.
Proof.
  intros Hl Hin. apply (run_keeps (λ x, has_owner x = true)); [| done]. intros s f' g' Hs He. apply (owner_exec s); [| done].
  destruct (committed_facts f) as (_ & _ & Hg). rewrite Forall_forall in Hg. apply Hg. set_solver.
Qed.

(** A file that went through everything but the backfill, then the backfill and
    the rest: opening it again changes nothing. *)
Lemma reopen_done b f fin :
  legacy f → has_owner f = false → upgraded b f = Ok fin →
  legacy fin ∧ has_owner fin = true ∧ run_with ensure (SCHEMA ++ adds ++ last_statements) fin = Ok fin.
Proof.
  intros Hl Ho Hu. unfold upgraded in Hu. rewrite Ho in Hu.
  destruct (run_with ensure (SCHEMA ++ adds ++ [add_owner]) f) as [h |] eqn:E1; [| done]. cbn [rbind] in Hu.
  destruct (exec (Backfill "scrapes" "owner_id" b) h) as [h' |] eqn:E2; [| done]. cbn [rbind] in Hu.
  destruct (committed_facts f) as (Hsil & Hone & Hgood). unfold committed in Hsil, Hone, Hgood. rewrite Ho in Hsil, Hone, Hgood.
  assert (legacy h) as Hlh by (apply (committed_legacy f (committed f) h Hl); [done | unfold committed; by rewrite Ho]).
  pose proof (run_made _ _ f h Hone Hsil ltac:(done) E1) as Hmade.
  assert ("owner_id" ∈ columns_of "scrapes" h) as Hoh.
  { rewrite Forall_forall in Hmade. specialize (Hmade add_owner). cbn in Hmade. apply Hmade. set_solver. }
  assert (silent last_statements) as Hsl by (by apply silent_bool).
  assert (Forall good last_statements) as Hgl by (by repeat constructor).
  assert (one_version last_statements) as Hvl.
  { intros n m Hn Hm. unfold last_statements in *. set_solver. }
  assert (legacy fin ∧ grows h fin) as [Hlf Hgf].
  { pose proof (legacy_exec (Backfill "scrapes" "owner_id" b) h h' ltac:(done) E2 Hlh) as Hlh'.
    pose proof (exec_grows _ _ _ E2) as Hg. rewrite Forall_forall in Hgl.
    apply (run_keeps (λ x, legacy x ∧ grows h x) last_statements h'); [| done | done].
    intros s x y Hs He [Hx Hgx]. split; [by apply (legacy_exec s x); [apply Hgl | |] |].
    pose proof (exec_grows _ _ _ He). destruct Hgx as (?&?&?), H as (?&?&?). split_and!; auto. }
  assert ("owner_id" ∈ columns_of "scrapes" fin) as Hofin by (by apply Hgf).
  split; [done |]. split; [unfold has_owner; apply bool_decide_eq_true; by left |].
  apply run_done. rewrite app_assoc in Hmade. apply Forall_app in Hmade as [Hmade _].
  rewrite app_assoc. apply Forall_app. split.
  - rewrite Forall_forall in Hmade. apply Forall_forall. intros s Hs. apply (made_grows s h); [| done | by apply Hmade].
    intros n ->. apply list_elem_of_In in Hs. cbn in Hs. intuition discriminate.
  - by apply (run_made last_statements last_statements h').
Qed.

(** Opening a finished file changes nothing. *)
Lemma reopen_any b f fin :
  legacy f → upgraded b f = Ok fin →
  legacy fin ∧ has_owner fin = true ∧ run_with ensure (SCHEMA ++ adds ++ last_statements) fin = Ok fin.
Proof.
  intros Hl Hu. destruct (has_owner f) eqn:Ho; [| by apply (reopen_done b f)].
  destruct (committed_facts f) as (Hsil & Hone & _).
  assert (run_with ensure (committed f) f = Ok fin) as Hrun by (unfold committed; unfold upgraded in Hu; by rewrite Ho in *).
  split; [by apply (committed_legacy f (committed f)) |]. split; [by apply (committed_owner f (committed f)) |].
  assert (run_with ensure (committed f) fin = Ok fin) as Hagain by (by apply (resume _ f); [| | | apply states_last]).
  unfold committed in Hagain. by rewrite Ho in Hagain.
Qed.

Lemma upgraded_file b f g : legacy f → upgraded b f = Ok g → file_after (open_file b f) = g ∧ answer (open_file b f) = Ok tt.
Proof. intros Hl Hu. destruct (open_spec b f Hl) as (Ha & Hu' & _). rewrite Hu in Hu'. by injection Hu' as <-. Qed.

(** C33: a crash while state.db is being opened.  From whatever the disk held, the
    next opening succeeds and ends in the very file an undisturbed one would
    have left; so does opening the finished file once more.  The exception is a
    file without the column of the owner: if the crash falls between the commit
    of the new column and that of its values, the next opening leaves every row
    of the history as it was, without an owner. *)
Theorem state_open_resumes b f g :
  legacy f → g ∈ crash_states (open_file b f) →
  answer (open_file b g) = Ok tt
  ∧ (file_after (open_file b g) = file_after (open_file b f)
     ∨ has_owner f = false ∧ rows_of "scrapes" (file_after (open_file b g)) = rows_of "scrapes" f).
Proof.
  intros Hl Hg. destruct (open_spec b f Hl) as (_ & Hu & _ & Hstates & _).
  destruct (committed_facts f) as (Hsil & Hone & _).
  destruct (Hstates g Hg) as [Hs | ->]; clear Hstates Hg.
  2: { destruct (reopen_any b f _ Hl Hu) as (Hlg & Hog & Hagain).
       destruct (upgraded_file b (file_after (open_file b f)) (file_after (open_file b f)) Hlg) as [E1 E2]; [| auto].
       unfold upgraded. by rewrite Hog. }
  assert (∃ h, run_with ensure (committed f) f = Ok h) as [h Hh].
  { unfold committed. unfold upgraded in Hu. destruct (has_owner f); [eauto |].
    destruct (run_with ensure (SCHEMA ++ adds ++ [add_owner]) f); [eauto | done]. }
  destruct (states_split _ _ _ _ _ Hh Hs) as (ss1 & ss2 & Ec & H1 & _).
  assert (ss1 ⊆ committed f) as Hin by (rewrite Ec; set_solver).
  pose proof (committed_legacy f ss1 g Hl Hin H1) as Hlg.
  pose proof (resume _ _ _ _ Hone Hsil Hh Hs) as Hres.
  destruct (open_spec b g Hlg) as (Hag & Hug & _). split; [done |].
  destruct (has_owner g) eqn:Hog; [destruct (has_owner f) eqn:Ho |].
  - left. unfold committed in Hres, Hh. unfold upgraded in Hu, Hug. rewrite Ho in Hres, Hh, Hu. rewrite Hog in Hug. congruence.
  - right. split; [done |]. unfold upgraded in Hug. rewrite Hog in Hug.
    rewrite (run_rows (SCHEMA ++ adds ++ last_statements) g); [| by apply silent_bool | done].
    apply (run_rows ss1); [| done]. apply Forall_forall. intros s Hs'. unfold silent in Hsil. rewrite Forall_forall in Hsil. auto.
  - left. destruct (has_owner f) eqn:Ho; [by rewrite (committed_owner f ss1 g Ho Hin H1) in Hog |].
    unfold committed in Hres, Hh. unfold upgraded in Hu, Hug. rewrite Ho in Hres, Hh, Hu. rewrite Hog in Hug.
    rewrite Hh in Hu. rewrite Hres in Hug. congruence.
Qed.

(** [WHERE owner_id = ?]. *)
Definition visible (owner : string) (f : File) : list SqlRow :=
  filter (λ r, value "owner_id" r = SText owner) (rows_of "scrapes" f).

(** [UPDATE ... SET owner_id = ? WHERE owner_id IS NULL], of one row. *)
Definition owned (b : string) (r : SqlRow) : SqlRow :=
  if bool_decide (value "owner_id" r = SNull) then <["owner_id" := SText b]> r else r.

Lemma backfill_rows b f g :
  exec (Backfill "scrapes" "owner_id" b) f = Ok g →
  rows_of "scrapes" g = owned b <$> rows_of "scrapes" f
  ∧ ∀ t, t ≠ "scrapes" → rows_of t g = rows_of t f.
Proof.
  cbn. destruct (tables f !! "scrapes") as [tb |] eqn:E; [| done]. case_bool_decide; [| done]. intros [= <-].
  split; [rewrite rows_set, decide_True by done; cbn; by rewrite (rows_some _ _ _ E) |].
  intros t Ht. by rewrite rows_set, decide_False.
Qed.

Lemma upgraded_rows b f g t :
  upgraded b f = Ok g →
  rows_of t g = if decide (t = "scrapes") then (if has_owner f then rows_of t f else owned b <$> rows_of t f) else rows_of t f.
Proof.
  intros Hu. destruct (committed_facts f) as (Hsil & _ & _). unfold committed, upgraded in *. destruct (has_owner f).
  - rewrite (run_rows _ f g t Hsil Hu). by destruct (decide (t = "scrapes")).
  - destruct (run_with ensure (SCHEMA ++ adds ++ [add_owner]) f) as [h |] eqn:E1; [| done]. cbn [rbind] in Hu.
    destruct (exec (Backfill "scrapes" "owner_id" b) h) as [h' |] eqn:E2; [| done]. cbn [rbind] in Hu.
    rewrite (run_rows last_statements h' g t); [| by apply silent_bool | done].
    destruct (backfill_rows b h h' E2) as [Hs Ho]. destruct (decide (t = "scrapes")) as [-> | Hne].
    + by rewrite Hs, (run_rows _ f h "scrapes" Hsil E1).
    + by rewrite Ho, (run_rows _ f h t Hsil E1).
Qed.

(** Opening state.db, new or left by an earlier release, succeeds and gives
    the tables every column the queries name.  No row is lost or altered, but for
    this: where the history had no owner column, each of its rows becomes the
    bootstrap owner's. *)
Theorem state_open_upgrades b f :
  legacy f → let o := open_file b f in
  answer o = Ok tt
  ∧ user_version (file_after o) = SCHEMA_VERSION
  ∧ ["owner_id"; "source_id"; "ts"; "price_pix_member_cents"; "price_card_member_cents"]
      ⊆ columns_of "scrapes" (file_after o)
  ∧ (∀ t, t ≠ "scrapes" → rows_of t (file_after o) = rows_of t f)
  ∧ rows_of "scrapes" (file_after o)
    = (if has_owner f then rows_of "scrapes" f else owned b <$> rows_of "scrapes" f).
Proof.
  intros Hl. destruct (open_spec b f Hl) as (Ha & Hu & _). cbv zeta. split; [done |].
  set (fin := file_after (open_file b f)) in *. clearbody fin. clear Ha.
  destruct (reopen_any b f fin Hl Hu) as ([Hls _] & Ho & Hrun).
  destruct (committed_facts fin) as (Hsil & Hone & _). unfold committed in Hsil, Hone. rewrite Ho in Hsil, Hone.
  pose proof (run_made _ _ fin fin Hone Hsil ltac:(done) Hrun) as Hm. rewrite Forall_forall in Hm.
  split; [apply (Hm (SetVersion SCHEMA_VERSION)); unfold last_statements; set_solver |].
  destruct (Hm (CreateTable "scrapes" ["id"; "owner_id"; "source_id"; "ts"; "status"; "price_pix_cents"; "price_card_cents";
    "currency"; "availability"; "method"; "error"; "raw_ref"; "price_pix_member_cents"; "price_card_member_cents"] ["id"]))
    as [tb Htb]; [by left |].
  split; [| split].
  - unfold has_owner in Ho. apply bool_decide_eq_true in Ho as [Ho | Ho]; [| congruence].
    specialize (Hls tb Htb). rewrite <- (columns_some _ _ _ Htb) in Hls.
    pose proof (Hm (AddColumn "scrapes" "price_pix_member_cents")) as H1.
    pose proof (Hm (AddColumn "scrapes" "price_card_member_cents")) as H2. cbn [made] in H1, H2.
    assert (∀ c, c ∈ ["owner_id"; "source_id"; "ts"; "price_pix_member_cents"; "price_card_member_cents"] →
      c = "owner_id" ∨ c ∈ ["source_id"; "ts"] ∨ c = "price_pix_member_cents" ∨ c = "price_card_member_cents") as Hc by set_solver.
    intros c Hin. destruct (Hc c Hin) as [-> | [Hin' | [-> | ->]]]; [done | by apply Hls | apply H1 | apply H2];
      apply list_elem_of_In; cbn; tauto.
  - intros t Ht. by rewrite (upgraded_rows b f fin t Hu), decide_False.
  - by rewrite (upgraded_rows b f fin "scrapes" Hu), decide_True.
Qed.

(** The backfill and the column it fills are not one transaction.  Where a
    history has no owner column, a crash can leave a file from which every later
    opening succeeds without assigning the history: no owner sees any of it,
    while an undisturbed opening gives all of it to the bootstrap owner. *)
Theorem interrupted_backfill_orphans b f :
  legacy f → has_owner f = false → (∀ r, r ∈ rows_of "scrapes" f → value "owner_id" r = SNull) →
  length (visible b (file_after (open_file b f))) = length (rows_of "scrapes" f)
  ∧ ∃ g, g ∈ crash_states (open_file b f) ∧
      let after := file_after (open_file b g) in
      answer (open_file b g) = Ok tt ∧ rows_of "scrapes" after = rows_of "scrapes" f
      ∧ (∀ owner, visible owner after = []) ∧ file_after (open_file b after) = after.
Proof.
  intros Hl Ho Hnull. destruct (open_spec b f Hl) as (_ & Hu & _ & _ & Hh). split.
  { unfold visible. rewrite (upgraded_rows b f _ "scrapes" Hu), decide_True, Ho by done.
    induction (rows_of "scrapes" f) as [| r l IH]; [done |]. rewrite fmap_cons, filter_cons_True.
    - cbn [length]. f_equal. apply IH. intros r' Hr'. apply Hnull. by right.
    - unfold owned. rewrite bool_decide_eq_true_2 by (apply Hnull; by left). unfold value. by rewrite lookup_insert_eq. }
  destruct (Hh Ho) as (h & Hrun & Hin). exists h. split; [done |].
  destruct (committed_facts f) as (Hsil & Hone & _).
  pose proof (committed_legacy f _ h Hl ltac:(done) Hrun) as Hlh.
  pose proof (run_made _ _ f h Hone Hsil ltac:(done) Hrun) as Hmade.
  assert (has_owner h = true) as Hoh.
  { unfold has_owner. apply bool_decide_eq_true. left. rewrite Forall_forall in Hmade. apply (Hmade add_owner).
    unfold committed. rewrite Ho. set_solver. }
  destruct (open_spec b h Hlh) as (Ha & Huh & _). split; [done |].
  assert (rows_of "scrapes" (file_after (open_file b h)) = rows_of "scrapes" f) as Hrows.
  { rewrite (upgraded_rows b h _ "scrapes" Huh), decide_True, Hoh by done. by apply (run_rows (committed f)). }
  split; [exact Hrows |]. split.
  - intros owner. unfold visible. rewrite Hrows. apply filter_none. intros r Hr E. by rewrite (Hnull r Hr) in E.
  - destruct (reopen_any b h _ Hlh Huh) as (Hlf & Hof & Hagain). apply upgraded_file; [done |].
    unfold upgraded. by rewrite Hof.
Qed.
End StateProofs.

(** * config.db *)

Module ConfigProofs.
Import ConfigFile.

Definition adds : list stmt := AddColumn "owners" <$> OWNERS_AUTH_COLUMNS.
Definition last_statements : list stmt :=
  [CreateIndex "idx_owners_name" "owners" ["name"] true; CreateIndex "idx_owners_email" "owners" ["email"] true;
   SetVersion SCHEMA_VERSION].
Definition statements : list stmt := SCHEMA ++ adds ++ last_statements.

Definition sources_key (f : File) : list string :=
  match tables f !! "sources" with Some t => primary_key t | None => [] end.

(** The two reasons to refuse a file. *)
Definition refused (f : File) : bool :=
  bool_decide (sources_key f = ["source_id"])
  || negb (bool_decide (duplicated "name" (rows_of "owners" f) = [] ∧ duplicated "email" (rows_of "owners" f) = [])).

Lemma duplicated_nodup c l : duplicated c l = [] ↔ NoDup (index_keys [c] l).
Proof. apply no_duplicates. Qed.

(** A file an earlier release may have left: owners have always had a name and
    an e-mail. *)
Definition legacy (f : File) : Prop := ∀ tb, tables f !! "owners" = Some tb → ["name"; "email"] ⊆ columns tb.

Lemma config_no_adds_schema : Forall (λ s, ∀ t c, s ≠ AddColumn t c) SCHEMA.
Proof. by repeat constructor. Qed.
Lemma config_no_adds_last : Forall (λ s, ∀ t c, s ≠ AddColumn t c) last_statements.
Proof. by repeat constructor. Qed.

Lemma statements_facts : silent statements ∧ one_version statements.
Proof.
  split; [by apply silent_bool |]. intros n m Hn%list_elem_of_In Hm%list_elem_of_In. cbn in Hn, Hm. intuition congruence.
Qed.

(** What the statements keep of a file that is not refused. *)
Definition fine (f : File) : Prop := legacy f ∧ refused f = false.

Lemma refused_false f :
  refused f = false ↔ sources_key f ≠ ["source_id"] ∧ duplicated "name" (rows_of "owners" f) = []
                      ∧ duplicated "email" (rows_of "owners" f) = [].
Proof. unfold refused. rewrite orb_false_iff, bool_decide_eq_false, negb_false_iff, bool_decide_eq_true. tauto. Qed.

Lemma exec_key s f g :
  s ∈ statements → exec s f = Ok g → sources_key g = sources_key f ∨ sources_key g = ["owner_id"; "source_id"].
Proof.
  intros Hs. unfold sources_key. destruct s as [name cols pk | name t cols u | t c | t c v | n]; cbn.
  - destruct (tables f !! name) eqn:E; intros [= <-]; [by left |]. cbn. destruct (decide (name = "sources")) as [-> | ?].
    + right. rewrite lookup_insert_eq. cbn. apply list_elem_of_In in Hs. cbn in Hs. intuition (simplify_eq; done).
    + left. by rewrite lookup_insert_ne.
  - destruct (indexes f !! name); [intros [= <-]; by left |]. destruct (tables f !! t); [| done].
    case_bool_decide; [| done]. destruct (u && _); [done |]. intros [= <-]. by left.
  - destruct (tables f !! t) eqn:E; [| done]. case_bool_decide; [done |]. intros [= <-]. left. cbn.
    destruct (decide (t = "sources")) as [-> | ?]; [by rewrite lookup_insert_eq, E | by rewrite lookup_insert_ne].
  - apply list_elem_of_In in Hs. cbn in Hs. intuition discriminate.
  - intros [= <-]. by left.
Qed.

Lemma exec_fine s f g : s ∈ statements → exec s f = Ok g → fine f → fine g.
Proof.
  intros Hs He [Hl Hr]. rewrite refused_false in Hr. destruct Hr as (Hk & Hn & Hm).
  assert (begins s = false) as Hb.
  { destruct statements_facts as [Hsil _]. unfold silent in Hsil. rewrite Forall_forall in Hsil. auto. }
  assert (∀ t, rows_of t g = rows_of t f) as Hrows.
  { intros t. apply (ensure_rows s); [done |]. destruct s; cbn [ensure]; try exact He. case_bool_decide as Hc; [| exact He].
    revert He. cbn. destruct (tables f !! table) eqn:E; [| done]. rewrite (columns_some _ _ _ E) in Hc.
    by rewrite bool_decide_eq_true_2. }
  split.
  - intros tb Ht. destruct (exec_table _ _ _ _ _ He Ht) as [(tb0 & H0 & Hc) | (_ & pk & E)].
    + specialize (Hl _ H0). set_solver.
    + rewrite E in Hs. apply list_elem_of_In in Hs. cbn in Hs.
      destruct Hs as [[= <- _] | Hs]; [set_solver |]. exfalso. intuition discriminate.
  - apply refused_false. rewrite !Hrows. split_and!; [| done ..]. destruct (exec_key _ _ _ Hs He) as [-> | ->]; done.
Qed.

Lemma unique_run name t c f :
  is_Some (tables f !! t) → c ∈ columns_of t f → NoDup (index_keys [c] (rows_of t f)) →
  ∃ g, exec (CreateIndex name t [c] true) f = Ok g ∧ tables g = tables f.
Proof.
  intros [tb Ht] Hc Hn. rewrite (columns_some _ _ _ Ht) in Hc. rewrite (rows_some _ _ _ Ht) in Hn.
  cbn. destruct (indexes f !! name); [eauto |]. rewrite Ht, bool_decide_eq_true_2 by set_solver.
  rewrite bool_decide_eq_true_2 by done. cbn. eauto.
Qed.

(** The schema and the new columns, then, unless the rows forbid it, the
    indexes. *)
Lemma begins_run f :
  legacy f → ∃ f1 f2, run_with ensure SCHEMA f = Ok f1 ∧ run_with ensure adds f1 = Ok f2
    ∧ is_Some (tables f1 !! "owners") ∧ grows f1 f2 ∧ legacy f2.
Proof.
  intros Hl. destruct (run_fits SCHEMA f) as (f1 & E1 & _); [by repeat constructor |].
  destruct statements_facts as [_ Hone].
  pose proof (run_made SCHEMA statements f f1 Hone ltac:(by apply silent_bool) ltac:(unfold statements; set_solver) E1) as Hm.
  assert (is_Some (tables f1 !! "owners")) as Ho.
  { rewrite Forall_forall in Hm. by apply (Hm (CreateTable "owners" ["id"; "name"; "email"; "role"; "state"; "password_hash";
      "created_at"] ["id"])); left. }
  destruct (run_fits adds f1) as (f2 & E2 & G2); [by repeat constructor |]. exists f1, f2. split_and!; try done.
  assert (∀ s x y, s ∈ statements → exec s x = Ok y → legacy x → legacy y) as Hk.
  { intros s x y Hs He Hx tb Ht. destruct (exec_table _ _ _ _ _ He Ht) as [(tb0 & H0 & Hc) | (_ & pk & E)].
    - specialize (Hx _ H0). set_solver.
    - rewrite E in Hs. apply list_elem_of_In in Hs. cbn in Hs.
      destruct Hs as [[= <- _] | Hs]; [set_solver |]. exfalso. intuition discriminate. }
  apply (run_keeps legacy adds f1); [| | done].
  - intros s x y Hs. apply Hk. unfold statements. set_solver.
  - apply (run_keeps legacy SCHEMA f); [| done | done]. intros s x y Hs. apply Hk. unfold statements. set_solver.
Qed.

Lemma last_run f2 :
  is_Some (tables f2 !! "owners") → legacy f2 → NoDup (index_keys ["name"] (rows_of "owners" f2)) →
  NoDup (index_keys ["email"] (rows_of "owners" f2)) → ∃ fin, run_with ensure last_statements f2 = Ok fin.
Proof.
  intros [tb Ht] Hl Hn Hm. specialize (Hl tb Ht). rewrite <- (columns_some _ _ _ Ht) in Hl. cbn [last_statements run_with ensure].
  destruct (unique_run "idx_owners_name" "owners" "name" f2) as (g & -> & Tg); [eauto | set_solver | done |]. cbn [rbind].
  assert (rows_of "owners" g = rows_of "owners" f2 ∧ columns_of "owners" g = columns_of "owners" f2) as [Eg Ec]
    by (unfold rows_of, columns_of; by rewrite Tg).
  destruct (unique_run "idx_owners_email" "owners" "email" g) as (g' & -> & _);
    [rewrite Tg; eauto | rewrite Ec; set_solver | by rewrite Eg |]. cbn. eauto.
Qed.

Lemma upgrade_begins f f1 f2 :
  run_with ensure SCHEMA f = Ok f1 → run_with ensure adds f1 = Ok f2 → is_Some (tables f1 !! "owners") →
  sources_key f ≠ ["source_id"] →
  ∃ c2, (reject_pre_0006_sources ;;; executescript SCHEMA ;;; migrate) (connect f)
        = (reject_duplicate_identities ;;; mfor execute last_statements) c2
    ∧ c2.(seen) = f2 ∧ c2.(in_transaction) = false ∧ head c2.(disk) = Some f2
    ∧ ∀ g, g ∈ c2.(disk) → g ∈ states_of ensure (SCHEMA ++ adds) f.
Proof.
  intros E1 E2 Hs Hk. rewrite (mbind_ok _ _ _ tt (connect f)).
  2: { unfold reject_pre_0006_sources, mgets, mbind'. cbn [seen connect]. fold (sources_key f). by rewrite bool_decide_eq_false_2. }
  destruct (ensure_exec SCHEMA f config_no_adds_schema) as [Hx1 Hst1].
  destruct (phase SCHEMA (mkConn f false [f; f]) f1) as (c1 & R1 & S1 & T1 & D1 & M1 & _);
    [by apply silent_bool | done | done | cbn [seen]; by rewrite Hx1 |].
  cbn [seen disk] in M1. unfold executescript. rewrite (mbind_ok _ _ _ tt c1).
  2: { rewrite (mbind_ok _ _ _ tt (mkConn f false [f; f])) by done. exact R1. }
  unfold migrate. rewrite (mbind_ok _ _ _ (columns_of "owners" f1) c1) by (unfold table_info, mgets; by rewrite S1).
  destruct (adds_ensure "owners" (columns_of "owners" f1) OWNERS_AUTH_COLUMNS f1 Hs) as [Hx2 Hst2];
    [apply (bool_decide_unpack _); vm_compute; exact Logic.I | done |].
  destruct (phase (AddColumn "owners" <$> filter (λ c, c ∉ columns_of "owners" f1) OWNERS_AUTH_COLUMNS) c1 f2)
    as (c2 & R2 & S2 & T2 & D2 & M2 & _).
  { apply Forall_fmap, Forall_true. done. }
  { done. }
  { by rewrite S1, D1. }
  { rewrite S1, Hx2. exact E2. }
  rewrite (mbind_ok _ _ _ _ _ R2). exists c2. split_and!; try done.
  intros g Hg. apply M2 in Hg as [Hg | Hg].
  - apply M1 in Hg as [Hg | Hg]; [| rewrite Hst1 in Hg; by apply states_app_l].
    apply elem_of_cons in Hg as [-> | ->%list_elem_of_singleton]; by left.
  - rewrite S1 in Hg. apply (states_app_r ensure SCHEMA adds f f1); [done |]. by apply Hst2.
Qed.

(** What opening config.db does. *)
Lemma config_open_spec f :
  legacy f → let o := open_file f in
  if refused f then
    (∃ e, answer o = Raise e ∧ exn_class e = ConfigError) ∧ (∀ t, rows_of t (file_after o) = rows_of t f)
    ∧ (sources_key f = ["source_id"] → crash_states o = [f])
  else answer o = Ok tt ∧ run_with ensure statements f = Ok (file_after o)
    ∧ (∀ g, g ∈ crash_states o → g ∈ states_of ensure statements f).
Proof.
  intros Hl. destruct (begins_run f Hl) as (f1 & f2 & E1 & E2 & Hs1 & G2 & Hl2). cbv zeta.
  assert (run_with ensure (SCHEMA ++ adds) f = Ok f2) as E12 by (rewrite run_app, E1; exact E2).
  assert (∀ t, rows_of t f2 = rows_of t f) as Hrows by (intros t; apply (run_rows (SCHEMA ++ adds)); [by apply silent_bool | done]).
  unfold open_file. destruct (decide (sources_key f = ["source_id"])) as [Hk | Hk].
  { unfold refused. rewrite bool_decide_eq_true_2 by done. cbn [orb].
    assert (reject_pre_0006_sources (connect f) = (Raise (Exn ConfigError "config.db predates schema 5 (source_id without owner)"),
      connect f)) as Er.
    { unfold reject_pre_0006_sources, mgets, mbind'. cbn [seen connect]. fold (sources_key f). by rewrite bool_decide_eq_true_2. }
    erewrite op_raise; [| unfold mbind' at 1; rewrite Er; reflexivity]. cbn. split_and!; [eauto | done | done]. }
  destruct (upgrade_begins f f1 f2 E1 E2 Hs1 Hk) as (c2 & R2 & S2 & T2 & D2 & M2).
  unfold refused. rewrite (bool_decide_eq_false_2 (sources_key f = ["source_id"])) by done. cbn [orb].
  destruct (bool_decide _) eqn:Hd; cbn [negb].
  - apply bool_decide_eq_true in Hd as [Hn%duplicated_nodup Hm%duplicated_nodup]. rewrite <- !Hrows in Hn, Hm.
    destruct (last_run f2) as [fin Hfin]; [by apply G2 | done .. |].
    destruct (ensure_exec last_statements f2 config_no_adds_last) as [Hx Hst].
    destruct (phase last_statements c2 fin) as (c3 & R3 & S3 & _ & D3 & M3 & _);
      [by apply silent_bool | done | by rewrite S2 | by rewrite S2, Hx |].
    rewrite (mbind_ok _ _ c2 tt c2) in R2.
    2: { unfold reject_duplicate_identities, mgets, mbind'. rewrite S2, bool_decide_eq_true_2; [done |].
         by rewrite !duplicated_nodup. }
    fold last_statements in R2. rewrite R3 in R2. rewrite (op_ok _ _ _ R2). cbn [answer file_after crash_states].
    assert (run_with ensure statements f = Ok fin) as Hrun
      by (unfold statements; rewrite app_assoc, run_app, E12; exact Hfin).
    rewrite S3. split_and!; [done | exact Hrun |]. intros g [-> | Hg]%elem_of_cons; [by apply states_last |].
    unfold statements. rewrite app_assoc. apply M3 in Hg as [Hg | Hg]; [by apply states_app_l, M2 |].
    rewrite S2, Hst in Hg. by apply (states_app_r _ _ _ f f2).
  - apply bool_decide_eq_false in Hd. unfold mbind' at 1 in R2. unfold reject_duplicate_identities, mgets, mbind' in R2.
    rewrite S2, Hrows, bool_decide_eq_false_2 in R2 by done. cbn [mraise] in R2. rewrite (op_raise _ _ _ _ R2).
    cbn [answer file_after crash_states]. split; [eauto |]. split; [| done].
    intros t. destruct (disk c2); [done |]. injection D2 as ->. apply Hrows.
Qed.

(** A crash while config.db is being opened costs nothing.  From whatever the
    disk held, and from the finished file, the next opening succeeds and ends in
    the very file an undisturbed one would have left. *)
Theorem config_open_resumes f g :
  legacy f → refused f = false → g ∈ crash_states (open_file f) →
  answer (open_file g) = Ok tt ∧ file_after (open_file g) = file_after (open_file f).
Proof.
  intros Hl Hr Hg. pose proof (config_open_spec f Hl) as Hf. cbv zeta in Hf. rewrite Hr in Hf.
  destruct Hf as (_ & Hrun & Hstates). apply Hstates in Hg. destruct statements_facts as [Hsil Hone].
  pose proof (resume _ _ _ _ Hone Hsil Hrun Hg) as Hres.
  destruct (states_split _ _ _ _ _ Hrun Hg) as (ss1 & ss2 & Ec & H1 & _).
  assert (fine g) as [Hlg Hrg].
  { apply (run_keeps fine ss1 f); [| done | done]. intros s x y Hs. apply exec_fine. rewrite Ec. set_solver. }
  pose proof (config_open_spec g Hlg) as Hog. cbv zeta in Hog. rewrite Hrg in Hog. destruct Hog as (Ha & Hug & _).
  split; [done |]. rewrite Hres in Hug. by injection Hug.
Qed.

(** Config.db is opened exactly when its sources are keyed by owner and no two
    owners share a name or an e-mail; it then has the columns of the credentials
    and the indexes that keep names and e-mails apart.  Otherwise the opening
    fails with [ConfigError].  Either way every row of every table is as it was,
    and a file refused for the key of its sources is not written at all. *)
Theorem config_open_decides f :
  legacy f → let o := open_file f in
  (∀ t, rows_of t (file_after o) = rows_of t f)
  ∧ match answer o with
    | Ok _ =>
        sources_key f ≠ ["source_id"]
        ∧ NoDup (index_keys ["name"] (rows_of "owners" f)) ∧ NoDup (index_keys ["email"] (rows_of "owners" f))
        ∧ OWNERS_AUTH_COLUMNS ⊆ columns_of "owners" (file_after o) ∧ user_version (file_after o) = SCHEMA_VERSION
        ∧ is_Some (indexes (file_after o) !! "idx_owners_name") ∧ is_Some (indexes (file_after o) !! "idx_owners_email")
    | Raise e =>
        exn_class e = ConfigError
        ∧ (sources_key f = ["source_id"] ∧ file_after o = f ∨ ¬ NoDup (index_keys ["name"] (rows_of "owners" f))
           ∨ ¬ NoDup (index_keys ["email"] (rows_of "owners" f)))
    end.
Proof.
  intros Hl. pose proof (config_open_spec f Hl) as Ho. cbv zeta in *. destruct (refused f) eqn:Hr.
  - destruct Ho as ((e & -> & He) & Hrows & Hkey). split; [done |]. split; [done |].
    unfold refused in Hr. apply orb_true_iff in Hr as [Hr%bool_decide_eq_true | Hr].
    + left. split; [done |]. assert (∀ body, crash_states (op body f) = [f] → file_after (op body f) = f) as Hop.
      { intros body. unfold op. destruct ((body ;;; commit) (connect f)) as [r c]. cbn. by intros ->. }
      apply Hop. by apply Hkey.
    + right. apply negb_true_iff, bool_decide_eq_false in Hr. rewrite <- !duplicated_nodup.
      destruct (decide (duplicated "name" (rows_of "owners" f) = [])); [right | left]; tauto.
  - destruct Ho as (-> & Hrun & _). apply refused_false in Hr as (Hk & Hn & Hm).
    destruct statements_facts as [Hsil Hone]. split; [intros t; by apply (run_rows statements) |].
    pose proof (run_made statements statements f _ Hone Hsil ltac:(done) Hrun) as Hmade. rewrite Forall_forall in Hmade.
    rewrite <- !duplicated_nodup. split_and!; try done.
    + assert (∀ c, c ∈ OWNERS_AUTH_COLUMNS → c ∈ columns_of "owners" (file_after (open_file f))) as Hc; [| done].
      intros c Hc. apply (Hmade (AddColumn "owners" c)). unfold statements, adds. rewrite !elem_of_app. right. left.
      by apply list_elem_of_fmap_2.
    + apply (Hmade (SetVersion SCHEMA_VERSION)). apply list_elem_of_In. cbn. tauto.
    + apply (Hmade (CreateIndex "idx_owners_name" "owners" ["name"] true)). apply list_elem_of_In. cbn. tauto.
    + apply (Hmade (CreateIndex "idx_owners_email" "owners" ["email"] true)). apply list_elem_of_In. cbn. tauto.
Qed.

(** ** The tables of the model *)

Definition text_or_null (x : option string) : sqlval := match x with Some s => SText s | None => SNull end.

(** What a row of the model stands for: a value in each column.  The encoding of
    the columns that hold JSON is any that the two sides share. *)
Section Rows.
Variables (dumps_domains : list string → string) (dumps_options : list (string * pyval) → string).

Notation cells := (list (string * sqlval)).

Definition owner_cells (o : OwnerRow) : cells :=
  [("id", SText o.(o_id)); ("name", SText o.(o_name)); ("email", text_or_null o.(o_email));
   ("role", SText o.(o_role)); ("state", SText o.(o_state));
   ("password_hash", text_or_null o.(o_password_hash)); ("created_at", text_or_null o.(o_created_at))].

Definition site_cells (t : SiteRow) : cells :=
  [("name", SText t.(t_name)); ("fetcher", SText t.(t_fetcher)); ("domain", SText t.(t_domain));
   ("tier2_label", text_or_null t.(t_tier2_label));
   ("subresource_domains", SText (dumps_domains t.(t_subresource_domains)));
   ("parser_kind", SText t.(t_parser_kind)); ("parser_pix", text_or_null t.(t_parser_pix));
   ("parser_card", text_or_null t.(t_parser_card)); ("parser_availability", text_or_null t.(t_parser_availability))].

Definition product_cells (p : ProductRow) : cells :=
  [("owner_id", SText p.(p_owner)); ("product_key", SText p.(p_key)); ("name", text_or_null p.(p_name))].

Definition source_cells (s : SourceRow) : cells :=
  [("source_id", SText s.(s_id)); ("owner_id", SText s.(s_owner)); ("product_key", SText s.(s_key));
   ("site", SText s.(s_site)); ("url", SText s.(s_url))].

Definition job_cells (j : JobRow) : cells :=
  [("id", SText j.(j_id)); ("owner_id", SText j.(j_owner)); ("name", SText j.(j_name));
   ("frequency_kind", SText j.(j_kind)); ("schedule_cron", SText j.(j_cron)); ("timezone", SText j.(j_timezone));
   ("template_id", SText j.(j_template)); ("options", SText (dumps_options j.(j_options)));
   ("enabled", SInt j.(j_enabled)); ("created_at", text_or_null j.(j_created_at))].

Definition link_cells (l : LinkRow) : cells :=
  [("owner_id", SText l.(l_owner)); ("job_id", SText l.(l_job)); ("source_id", SText l.(l_source))].

Definition db_cells (db : ConfigDb) : list (string * list cells) :=
  [("owners", owner_cells <$> owners db); ("sites", site_cells <$> site_rows db);
   ("products", product_cells <$> product_rows db); ("sources", source_cells <$> source_rows db);
   ("digest_jobs", job_cells <$> job_rows db); ("digest_job_sources", link_cells <$> link_rows db)].

Definition row_is (r : SqlRow) (cs : cells) : Prop := Forall (λ '(c, v), value c r = v) cs.

(** Table by table, the rows of the file are those of the database. *)
Definition holds (f : File) (db : ConfigDb) : Prop :=
  Forall (λ '(t, rs), Forall2 row_is (rows_of t f) rs) (db_cells db).

(** The columns the statements of the store name, in every release and since
    passwords. *)
Definition FIRST_COLUMNS : list (string * string) :=
  ((λ c, ("owners", c)) <$> ["id"; "name"; "email"; "role"; "state"])
  ++ ((λ c, ("sites", c)) <$> ["name"; "fetcher"; "domain"; "tier2_label"; "subresource_domains"; "parser_kind";
                               "parser_pix"; "parser_card"; "parser_availability"])
  ++ ((λ c, ("products", c)) <$> ["owner_id"; "product_key"; "name"])
  ++ ((λ c, ("sources", c)) <$> ["source_id"; "owner_id"; "product_key"; "site"; "url"])
  ++ ((λ c, ("digest_jobs", c)) <$> ["id"; "owner_id"; "name"; "frequency_kind"; "schedule_cron"; "timezone";
                                     "template_id"; "options"; "enabled"; "created_at"])
  ++ ((λ c, ("digest_job_sources", c)) <$> ["owner_id"; "job_id"; "source_id"]).
Definition LATER_COLUMNS : list (string * string) := [("owners", "password_hash"); ("owners", "created_at")].

Definition unique_on (t c : string) : Index := {| on_table := t; on_columns := [c]; unique := true |}.

(** The file of an earlier release: the tables it has lack at most the columns
    of the credentials, and the indexes on the owners are what they are now. *)
Record earlier (f : File) : Prop := {
  earlier_columns : has_columns FIRST_COLUMNS f;
  earlier_names : index_as "idx_owners_name" (unique_on "owners" "name") f;
  earlier_emails : index_as "idx_owners_email" (unique_on "owners" "email") f;
}.

(** The file a store can work on: it holds the database, every column its
    statements name is there, and names and e-mails are kept apart. *)
Record ready (f : File) (db : ConfigDb) : Prop := {
  ready_rows : holds f db;
  ready_columns : ∀ t c, (t, c) ∈ FIRST_COLUMNS ++ LATER_COLUMNS → c ∈ columns_of t f;
  ready_names : indexes f !! "idx_owners_name" = Some (unique_on "owners" "name");
  ready_emails : indexes f !! "idx_owners_email" = Some (unique_on "owners" "email");
  ready_version : user_version f = 5;
}.

#[local] Instance one_text_inj : Inj (=) (=) (λ n, [SText n]).
Proof. by intros x y [=]. Qed.

Lemma name_keys l os :
  Forall2 row_is l (owner_cells <$> os) → index_keys ["name"] l = (λ n, [SText n]) <$> (o_name <$> os).
Proof.
  revert os. induction l as [| r l IH]; intros [| o os] Hr; try by inversion Hr.
  apply Forall2_cons in Hr as [Hr Hl]. unfold row_is, owner_cells in Hr. rewrite !Forall_cons in Hr.
  destruct Hr as (_ & Hn & _). specialize (IH os Hl). unfold index_keys in *. rewrite !fmap_cons, filter_cons.
  cbn [fmap list_fmap] in *. rewrite Hn, decide_True by set_solver. by f_equal.
Qed.

Lemma email_keys l os :
  Forall2 row_is l (owner_cells <$> os) → index_keys ["email"] l = (λ n, [SText n]) <$> omap o_email os.
Proof.
  revert os. induction l as [| r l IH]; intros [| o os] Hr; try by inversion Hr.
  apply Forall2_cons in Hr as [Hr Hl]. unfold row_is, owner_cells in Hr. rewrite !Forall_cons in Hr.
  destruct Hr as (_ & _ & He & _). specialize (IH os Hl). unfold index_keys in *. rewrite !fmap_cons, filter_cons.
  cbn [fmap list_fmap omap list_omap] in *. rewrite He. destruct (o_email o); cbn [text_or_null].
  - rewrite decide_True by set_solver. cbn. by f_equal.
  - rewrite decide_False by set_solver. done.
Qed.

(** What the statements make of an earlier file. *)
Lemma run_ready f g db :
  earlier f → holds f db → run_with ensure statements f = Ok g → ready g db.
Proof.
  intros [Hc Hn He] Hh Hr. destruct statements_facts as [Hsil Hone].
  pose proof (run_made _ _ _ _ Hone Hsil ltac:(done) Hr) as Hm. rewrite Forall_forall in Hm.
  assert (∀ n c, index_as n (unique_on "owners" c) g → CreateIndex n "owners" [c] true ∈ statements →
    indexes g !! n = Some (unique_on "owners" c)) as Hi.
  { intros n c Hx Hin. destruct (Hm _ Hin) as [x Ex]. rewrite Ex. f_equal. by apply Hx. }
  pose proof (has_columns_run FIRST_COLUMNS statements f g ltac:(vm_compute; reflexivity) Hc Hr) as Hcg.
  split.
  - unfold holds in *. eapply Forall_impl; [exact Hh |]. intros [t rs]. cbn. by rewrite (run_rows statements f g t Hsil Hr).
  - intros t c [Hin | Hin]%elem_of_app.
    + assert (is_Some (tables g !! t)) as [tb Et].
      { assert (∃ cols pk, CreateTable t cols pk ∈ statements) as (cols & pk & Hs); [| exact (Hm _ Hs)].
        unfold FIRST_COLUMNS in Hin. rewrite !elem_of_app, !list_elem_of_fmap in Hin.
        destruct_or!; destruct Hin as (x & [= -> ->] & _); do 2 eexists; apply list_elem_of_In; cbn; eauto 8. }
      rewrite (columns_some _ _ _ Et). unfold has_columns in Hcg. rewrite Forall_forall in Hcg. exact (Hcg _ Hin _ Et).
    + assert (AddColumn t c ∈ statements) as Hs; [| exact (Hm _ Hs)].
      apply list_elem_of_In in Hin. cbn in Hin. apply list_elem_of_In. cbn. intuition (simplify_eq; auto 12).
  - apply Hi; [| apply list_elem_of_In; cbn; tauto].
    by apply (index_as_run _ _ statements f); [vm_compute; reflexivity | |].
  - apply Hi; [| apply list_elem_of_In; cbn; tauto].
    by apply (index_as_run _ _ statements f); [vm_compute; reflexivity | |].
  - apply (Hm (SetVersion 5)). apply list_elem_of_In. cbn. tauto.
Qed.

(** C34: the opening of the file refines the one of the tables.  When a file of an
    earlier release holds a database, [SqliteConfigStore] opens the file exactly
    when [Config.open_store] opens the database, and both fail with the same
    class of error.  The file opened holds the same rows in every table, every
    column that the statements of the store name is there, those of the
    credentials included, and unique indexes keep names and e-mails apart. *)
Theorem open_store_refined f db :
  earlier f → holds f db →
  match answer (open_file f), Config.open_store (sources_key f) db with
  | Ok _, Ok db' => db' = db ∧ ready (file_after (open_file f)) db'
  | Raise e, Raise e' => exn_class e = exn_class e'
  | _, _ => False
  end.
Proof.
  intros He Hrep. assert (legacy f) as Hl.
  { intros tb Ht. destruct He as [Hc _ _]. unfold has_columns in Hc. rewrite Forall_forall in Hc.
    intros c Hin. apply (Hc ("owners", c)); [| done]. apply list_elem_of_In in Hin. apply list_elem_of_In.
    cbn in Hin |- *. intuition (subst; auto 8). }
  pose proof (config_open_spec f Hl) as Ho. cbv zeta in Ho.
  assert (Forall2 row_is (rows_of "owners" f) (owner_cells <$> owners db)) as Hown by (by inversion Hrep).
  assert (bool_decide (duplicated "name" (rows_of "owners" f) = [] ∧ duplicated "email" (rows_of "owners" f) = [])
          = bool_decide (Config.duplicated (o_name <$> owners db) = [] ∧ Config.duplicated (omap o_email (owners db)) = [])) as Heq.
  { apply bool_decide_ext. unfold Config.duplicated. rewrite !duplicated_nodup, !no_duplicates.
    rewrite (name_keys _ _ Hown), (email_keys _ _ Hown). by rewrite !(NoDup_fmap (λ n, [SText n])). }
  unfold Config.open_store, Config.reject_duplicate_identities. unfold refused in Ho. rewrite Heq in Ho.
  destruct (bool_decide (sources_key f = ["source_id"])); cbn [orb] in Ho.
  { destruct Ho as ((e & -> & Hx) & _). by rewrite Hx. }
  destruct (bool_decide (Config.duplicated _ = [] ∧ _)); cbn [negb] in Ho; cbn [rbind].
  - destruct Ho as (-> & Hrun & _). split; [done |]. by apply (run_ready f).
  - destruct Ho as ((e & -> & Hx) & _). by rewrite Hx.
Qed.
End Rows.
End ConfigProofs.

(** * Concrete files *)

Module UpgradeDemo.
(** The history of a release that knew no owners. *)
Definition history : list SqlRow :=
  [{["id" := SInt 1; "source_id" := SText "gpu:kabum:1"; "ts" := SText "2026-01-01T00:00:00+00:00"]};
   {["id" := SInt 2; "source_id" := SText "gpu:kabum:1"; "ts" := SText "2026-01-02T00:00:00+00:00"]}].

Definition old_state : File := {|
  tables := {["scrapes" := {| columns := ["id"; "source_id"; "ts"; "status"; "price_pix_cents"; "price_card_cents";
                                          "currency"; "availability"; "method"; "error"; "raw_ref"];
                              primary_key := ["id"]; rows := history |}]};
  indexes := ∅; user_version := 1 |}.

Lemma old_state_legacy : StateProofs.legacy old_state.
Proof. split; intros tb Ht; [injection Ht as <-; set_solver | discriminate Ht]. Qed.

(** Owners of a release that knew no passwords. *)
Definition old_owners : list SqlRow :=
  [{["id" := SText "1"; "name" := SText "ana"; "email" := SText "a@x.br"; "role" := SText "admin";
     "state" := SText "active"]};
   {["id" := SText "2"; "name" := SText "bia"; "role" := SText "user"; "state" := SText "active"]}].

Definition old_config (owners : list SqlRow) : File := {|
  tables := {["owners" := {| columns := ["id"; "name"; "email"; "role"; "state"]; primary_key := ["id"]; rows := owners |}]};
  indexes := ∅; user_version := 1 |}.

Lemma old_config_legacy l : ConfigProofs.legacy (old_config l).
Proof. intros tb [= <-]. set_solver. Qed.
End UpgradeDemo.

Lemma state_open_upgrades_witness :
  let after := file_after (StateFile.open_file "bootstrap" UpgradeDemo.old_state) in
  user_version after = 4
  ∧ rows_of "scrapes" after = <["owner_id" := SText "bootstrap"]> <$> UpgradeDemo.history.
Proof.
  destruct (StateProofs.state_open_upgrades "bootstrap" UpgradeDemo.old_state UpgradeDemo.old_state_legacy)
    as (_ & Hv & _ & _ & Hr).
  split; [exact Hv | rewrite Hr; reflexivity].
Defined.

(** The disk goes through eleven files; the crash after the column of the owner
    is the one that loses the history, the one before it loses nothing. *)
Lemma state_open_resumes_witness :
  let f := UpgradeDemo.old_state in
  let o := StateFile.open_file "bootstrap" f in
  let after k := file_after (StateFile.open_file "bootstrap" (nth k (crash_states o) f)) in
  length (crash_states o) = 9%nat
  ∧ (after 1%nat = file_after o ∨ rows_of "scrapes" (after 1%nat) = rows_of "scrapes" f)
  ∧ after 2%nat = file_after o.
Proof.
  intros f o after. assert (Hlen : length (crash_states o) = 9%nat) by (vm_compute; reflexivity).
  assert (Hin : ∀ k, (k < 9)%nat → nth k (crash_states o) f ∈ crash_states o).
  { intros k Hk. apply list_elem_of_In, nth_In. lia. }
  split; [done |]. split.
  - destruct (StateProofs.state_open_resumes "bootstrap" f _ UpgradeDemo.old_state_legacy (Hin 1%nat ltac:(lia)))
      as (_ & [E | [_ E]]); [by left | by right].
  - destruct (StateProofs.state_open_resumes "bootstrap" f _ UpgradeDemo.old_state_legacy (Hin 2%nat ltac:(lia)))
      as (_ & [E | [_ E]]); [exact E |]. exfalso.
    assert (Hne : bool_decide (rows_of "scrapes" (after 2%nat) = rows_of "scrapes" f) = false) by (vm_compute; reflexivity).
    apply bool_decide_eq_false in Hne. exact (Hne E).
Defined.

Lemma config_open_resumes_witness :
  let f := UpgradeDemo.old_config UpgradeDemo.old_owners in
  let o := ConfigFile.open_file f in
  length (crash_states o) = 14%nat
  ∧ file_after (ConfigFile.open_file (nth 5 (crash_states o) f)) = file_after o.
Proof.
  intros f o. assert (Hlen : length (crash_states o) = 14%nat) by (vm_compute; reflexivity). split; [done |].
  destruct (ConfigProofs.config_open_resumes f (nth 5 (crash_states o) f) (UpgradeDemo.old_config_legacy _))
    as [_ E]; [reflexivity | apply list_elem_of_In, nth_In; change (5 < length (crash_states o))%nat; lia | exact E].
Defined.

Lemma config_open_decides_witness :
  let twice := UpgradeDemo.old_config (UpgradeDemo.old_owners ++ UpgradeDemo.old_owners) in
  is_ok (answer (ConfigFile.open_file twice)) = false
  ∧ rows_of "owners" (file_after (ConfigFile.open_file twice)) = (UpgradeDemo.old_owners ++ UpgradeDemo.old_owners)%list.
Proof.
  intros twice. destruct (ConfigProofs.config_open_decides twice (UpgradeDemo.old_config_legacy _)) as [Hrows _].
  split; [vm_compute; reflexivity | rewrite Hrows; reflexivity].
Defined.

(** A file of before passwords: opened, its owners are read with none. *)
Lemma open_store_refined_witness :
  let owner i n e role := {| o_id := i; o_name := n; o_email := e; o_role := role; o_state := "active";
                             o_password_hash := None; o_created_at := None |} in
  let db := {| owners := [owner "1" "ana" (Some "a@x.br") "admin"; owner "2" "bia" None "user"];
               site_rows := []; product_rows := []; source_rows := []; job_rows := []; link_rows := [] |} in
  let f := UpgradeDemo.old_config UpgradeDemo.old_owners in
  Config.open_store [] db = Ok db
  ∧ bool_decide ("password_hash" ∈ columns_of "owners" f) = false
  ∧ is_ok (answer (ConfigFile.open_file f)) = true
  ∧ ConfigProofs.ready (λ _, "[]") (λ _, "{}") (file_after (ConfigFile.open_file f)) db.
Proof.
  intros owner db f.
  assert (He : ConfigProofs.earlier f).
  { split; [| intros x Hx; discriminate Hx ..]. apply Forall_forall. intros [t c] Hin tb Ht.
    unfold f, UpgradeDemo.old_config in Ht. cbn [tables] in Ht. apply lookup_singleton_Some in Ht as [<- <-].
    clear -Hin. apply list_elem_of_In in Hin. apply list_elem_of_In. cbn in Hin |- *. intuition (simplify_eq; auto 8). }
  assert (Hh : ConfigProofs.holds (λ _, "[]") (λ _, "{}") f db).
  { apply (bool_decide_unpack _). vm_compute. exact Logic.I. }
  pose proof (ConfigProofs.open_store_refined (λ _, "[]") (λ _, "{}") f db He Hh) as H.
  assert (E : Config.open_store [] db = Ok db) by (vm_compute; reflexivity). split; [exact E |].
  split; [vm_compute; reflexivity |].
  change (ConfigProofs.sources_key f) with (@nil string) in H. rewrite E in H.
  destruct (answer (ConfigFile.open_file f)); [split; [reflexivity | exact (proj2 H)] | destruct H].
Defined.
