(* ===== verification/OpenOrder.v ===== *)
(** Two stores open config.db: the configuration store, which owns the table of
    the owners, and the store of sessions and tokens, which keeps e-mails apart
    by itself ([registry/auth_store.py]).  What its opening does, and that the
    order of the two openings makes no difference to the file. *)

From S2P Require Import Prelude Schema Upgrade.

(** * Statements that commute *)

(** Two statements that can be run in either order: they do not define the same
    thing in two ways. *)
Definition compatible (s t : stmt) : bool :=
  match s, t with
  | Backfill _ _ _, _ | _, Backfill _ _ _ => false
  | CreateTable n c k, CreateTable n' c' k' => bool_decide (n = n' → c = c' ∧ k = k')
  | CreateIndex n t c u, CreateIndex n' t' c' u' => bool_decide (n = n' → t = t' ∧ c = c' ∧ u = u')
  | AddColumn t _, AddColumn t' _ => bool_decide (t ≠ t')
  | SetVersion n, SetVersion m => bool_decide (n = m)
  | _, _ => true
  end.

Lemma compatible_silent s t : compatible s t = true → begins s = false ∧ begins t = false.
Proof. by destruct s, t. Qed.

Lemma compatible_version s t : compatible s t = true → one_version [s; t].
Proof.
  intros Hc n m Hn Hm. rewrite !elem_of_cons, elem_of_nil in Hn, Hm.
  destruct Hn as [<- | [<- | []]], Hm as [Hm | [Hm | []]]; try (by injection Hm).
  - subst t. cbn in Hc. by apply bool_decide_eq_true in Hc.
  - subst s. cbn in Hc. by apply bool_decide_eq_true in Hc.
Qed.

Lemma set_table_ne t t' tb tb' f : t ≠ t' → set_table t tb (set_table t' tb' f) = set_table t' tb' (set_table t tb f).
Proof. intros Hn. unfold set_table. cbn. by rewrite insert_insert_ne. Qed.

Lemma set_index_ne i i' x x' f : i ≠ i' → set_index i x (set_index i' x' f) = set_index i' x' (set_index i x f).
Proof. intros Hn. unfold set_index. cbn. by rewrite insert_insert_ne. Qed.

(** When a statement has something to do that it can do, and what it does. *)
Definition due (s : stmt) (f : File) : Prop :=
  match s with
  | CreateTable n _ _ => tables f !! n = None
  | CreateIndex n t c u =>
      indexes f !! n = None ∧ is_Some (tables f !! t) ∧ c ⊆ columns_of t f
      ∧ (u = true → NoDup (index_keys c (rows_of t f)))
  | AddColumn t c => is_Some (tables f !! t) ∧ c ∉ columns_of t f
  | Backfill _ _ _ => False
  | SetVersion _ => True
  end.

Definition change (s : stmt) (f : File) : File :=
  match s with
  | CreateTable n c k => set_table n {| columns := c; primary_key := k; rows := [] |} f
  | CreateIndex n t c u => set_index n {| on_table := t; on_columns := c; unique := u |} f
  | AddColumn t c =>
      match tables f !! t with
      | Some tb => set_table t {| columns := columns tb ++ [c]; primary_key := primary_key tb; rows := rows tb |} f
      | None => f
      end
  | Backfill _ _ _ => f
  | SetVersion n => set_version n f
  end.

Lemma ensure_cases s f g : begins s = false → ensure s f = Ok g → made s f ∧ g = f ∨ due s f ∧ g = change s f.
Proof.
  destruct s as [n c k | n t c u | t c | t c v | n]; cbn [ensure]; intros Hb; cbn [exec].
  - destruct (tables f !! n) eqn:E; intros [= <-]; [left; split; [cbn; eauto | done] | by right].
  - destruct (indexes f !! n) eqn:E; [intros [= <-]; left; split; [cbn; eauto | done] |].
    destruct (tables f !! t) as [tb |] eqn:Et; [| done]. case_bool_decide as Hc; [| done].
    destruct (u && _) eqn:Hu; [done |]. intros [= <-]. right. cbn. rewrite (columns_some _ _ _ Et), (rows_some _ _ _ Et).
    split_and!; eauto. intros ->. cbn in Hu. by apply negb_false_iff, bool_decide_eq_true in Hu.
  - case_bool_decide as Hin; [intros [= <-]; left; by split |]. destruct (tables f !! t) as [tb |] eqn:Et; [| done].
    case_bool_decide; [done |]. intros [= <-]. right. cbn. rewrite Et. eauto.
  - done.
  - intros [= <-]. by right.
Qed.

Lemma ensure_due s f : due s f → ensure s f = Ok (change s f).
Proof.
  destruct s as [n c k | n t c u | t c | t c v | n]; cbn; [by intros -> | | | done | done].
  - intros (-> & [tb Et] & Hc & Hu). rewrite (columns_some _ _ _ Et) in Hc. rewrite (rows_some _ _ _ Et) in Hu.
    rewrite Et, bool_decide_eq_true_2 by done. destruct u; [| done]. by rewrite bool_decide_eq_true_2 by auto.
  - intros [[tb Et] Hc]. rewrite bool_decide_eq_false_2 by done. rewrite Et, bool_decide_eq_false_2; [done |].
    by rewrite <- (columns_some _ _ _ Et).
Qed.

Lemma compatible_sym s t : compatible s t = compatible t s.
Proof. destruct s, t; cbn; try done; apply bool_decide_ext; naive_solver. Qed.

Lemma lookup_set t t' tb f : tables (set_table t' tb f) !! t = if decide (t = t') then Some tb else tables f !! t.
Proof. cbn. destruct (decide (t = t')) as [-> | ?]; [by rewrite lookup_insert_eq | by rewrite lookup_insert_ne]. Qed.

(** What is due stays due, and the two changes commute. *)
Lemma due_change s t f : compatible s t = true → s ≠ t → due s f → due t f → due s (change t f).
Proof.
  intros Hc Hn Hs Ht.
  destruct t as [n' c' k' | n' t' c' u' | t' c' | t' c' v' | n'].
  - destruct s as [n c k | n t c u | t c | t c v | n]; cbn [compatible due change] in *.
    + apply bool_decide_eq_true in Hc. rewrite lookup_set, decide_False; [done |]. intros ->.
      destruct (Hc eq_refl); congruence.
    + rewrite lookup_set, columns_set, rows_set. destruct Hs as (? & [tb Et] & ?). rewrite !decide_False by congruence. eauto.
    + rewrite lookup_set, columns_set. destruct Hs as ([tb Et] & ?). rewrite !decide_False by congruence. eauto.
    + done.
    + done.
  - destruct s as [n c k | n t c u | t c | t c v | n]; cbn [compatible due change] in *; try done.
    apply bool_decide_eq_true in Hc. destruct Hs as (Hi & Hs). split; [| exact Hs]. cbn.
    rewrite lookup_insert_ne; [done |]. intros ->. destruct (Hc eq_refl) as (? & ? & ?). congruence.
  - cbn [due change] in *. destruct Ht as ([tb Et] & Hin). rewrite Et.
    destruct s as [n c k | n t c u | t c | t c v | n]; cbn [compatible due] in *; try done.
    + rewrite lookup_set, decide_False by congruence. done.
    + rewrite lookup_set, columns_set, rows_set. destruct Hs as (? & Hs & Hcols & Hu).
      destruct (decide (t = t')) as [-> |]; [| done]. rewrite (columns_some _ _ _ Et) in Hcols.
      rewrite (rows_some _ _ _ Et) in Hu. cbn. split_and!; [done | eauto | set_solver | done].
    + apply bool_decide_eq_true in Hc. by rewrite lookup_set, columns_set, !decide_False.
  - done.
  - by destruct s.
Qed.

#[export] Instance stmt_eq_dec : EqDecision stmt.
Proof. solve_decision. Defined.

Lemma change_add t c tb f :
  tables f !! t = Some tb →
  change (AddColumn t c) f = set_table t {| columns := columns tb ++ [c]; primary_key := primary_key tb; rows := rows tb |} f.
Proof. cbn. by intros ->. Qed.

Lemma add_comm s t c f :
  compatible s (AddColumn t c) = true → due s f → is_Some (tables f !! t) →
  change s (change (AddColumn t c) f) = change (AddColumn t c) (change s f).
Proof.
  intros Hc Hs [tb Et]. rewrite (change_add _ _ _ _ Et).
  destruct s as [n c' k | n tn c' u | t' c' | t' c' v | n]; cbn [compatible due] in *; try done.
  - assert (n ≠ t) by congruence. rewrite (change_add _ _ tb); [by apply set_table_ne |].
    cbn [change]. by rewrite lookup_set, decide_False.
  - cbn. by rewrite Et.
  - apply bool_decide_eq_true in Hc. destruct Hs as ([tb' Et'] & _). rewrite (change_add _ _ tb' f) by done.
    rewrite (change_add t' c' tb') by (by rewrite lookup_set, decide_False).
    rewrite (change_add t c tb) by (by rewrite lookup_set, decide_False). by apply set_table_ne.
  - cbn. by rewrite Et.
Qed.

Lemma change_comm s t f :
  compatible s t = true → s ≠ t → due s f → due t f → change s (change t f) = change t (change s f).
Proof.
  intros Hc Hn Hs Ht.
  destruct t as [n' c' k' | n' tn' c' u' | tn' c' | tn' c' v' | n']; [| | by apply add_comm; [| | apply Ht] | done |];
    (destruct s as [n c k | n tn c u | tn c | tn c v | n];
       [| | symmetry; apply add_comm; [by rewrite compatible_sym | done | apply Hs] | done |]);
    cbn [compatible due change] in *; try done.
  - apply bool_decide_eq_true in Hc. apply set_table_ne. intros ->. destruct (Hc eq_refl); congruence.
  - apply bool_decide_eq_true in Hc. apply set_index_ne. intros ->. destruct (Hc eq_refl) as (? & ? & ?). congruence.
  - apply bool_decide_eq_true in Hc. congruence.
Qed.

(** Each of two compatible statements can follow the other, to the same file. *)
Lemma diamond s t f g h :
  compatible s t = true → ensure s f = Ok g → ensure t f = Ok h → ∃ k, ensure t g = Ok k ∧ ensure s h = Ok k.
Proof.
  intros Hc Hg Hh. destruct (compatible_silent _ _ Hc) as [Bs Bt]. pose proof (compatible_version _ _ Hc) as Hv.
  destruct (ensure_cases _ _ _ Bs Hg) as [[Ms ->] | [Ds ->]].
  - exists h. split; [done |]. by apply made_ensure, (made_kept s t f h [s; t]); [| left | right; left | |].
  - destruct (ensure_cases _ _ _ Bt Hh) as [[Mt ->] | [Dt ->]].
    + exists (change s f). split; [| done]. by apply made_ensure, (made_kept t s f _ [s; t]); [| right; left | left | |].
    + destruct (decide (s = t)) as [<- | Hn].
      * exists (change s f). split; by apply made_ensure, (ensure_made s f).
      * exists (change t (change s f)). split; [| rewrite <- change_comm by done]; apply ensure_due, due_change; try done.
        by rewrite compatible_sym.
Qed.

Lemma strip s ss f g h :
  Forall (λ t, compatible s t = true) ss → ensure s f = Ok g → run_with ensure ss f = Ok h →
  ∃ k, run_with ensure ss g = Ok k ∧ ensure s h = Ok k.
Proof.
  intros Hc. revert f g. induction Hc as [| t ss Ht Hss IH]; intros f g Hg; [intros [= <-]; eauto |].
  cbn. destruct (ensure t f) as [f1 |] eqn:E; [| done]. cbn. intros Hr.
  destruct (diamond s t f g f1) as (g1 & -> & H1); [done .. |]. by apply (IH f1).
Qed.

(** So do two scripts. *)
Lemma tile ss ts f g h :
  Forall (λ s, Forall (λ t, compatible s t = true) ts) ss →
  run_with ensure ss f = Ok g → run_with ensure ts f = Ok h →
  ∃ k, run_with ensure ts g = Ok k ∧ run_with ensure ss h = Ok k.
Proof.
  intros Hc. revert f h. induction Hc as [| s ss Hs Hss IH]; intros f h; [intros [= <-]; eauto |].
  cbn. destruct (ensure s f) as [f1 |] eqn:E; [| done]. cbn. intros Hg Hh.
  destruct (strip s ts f f1 h) as (h1 & H1 & ->); [done .. |]. by apply (IH f1).
Qed.

(** * registry/auth_store.py *)

Module AuthProofs.
Import AuthFile.

(** The columns its indexes read; a table an earlier release has left has them. *)
Definition INDEXED : list (string * string) :=
  [("sessions", "owner_id"); ("tokens", "owner_id"); ("login_attempts", "window_start"); ("owners", "email")].

Definition legacy : File → Prop := has_columns INDEXED.

Definition email_index : stmt := CreateIndex "idx_owners_email" "owners" ["email"] true.

(** The statements of an opening that is not refused. *)
Definition statements (f : File) : list stmt :=
  SESSION_TOKEN_SCHEMA ++ match tables f !! "owners" with Some _ => [email_index] | None => [] end.

Lemma schema_no_adds : Forall (λ s, ∀ t c, s ≠ AddColumn t c) SESSION_TOKEN_SCHEMA.
Proof. by repeat constructor. Qed.

Lemma auth_statements_facts f : silent (statements f) ∧ one_version (statements f).
Proof.
  unfold statements. destruct (tables f !! "owners"); (split; [by apply silent_bool |]);
    intros n m Hn%list_elem_of_In Hm; cbn in Hn; intuition discriminate.
Qed.

Definition untouched (t : string) (s : stmt) : bool :=
  match s with
  | CreateTable t' _ _ | AddColumn t' _ | Backfill t' _ _ => bool_decide (t' ≠ t)
  | _ => true
  end.

Lemma ensure_untouched t s f g : untouched t s = true → ensure s f = Ok g → tables g !! t = tables f !! t.
Proof.
  intros Hu%Is_true_true He. destruct s as [n c k | n t' c u | t' c | t' c v | n]; cbn in Hu, He;
    try (apply bool_decide_unpack in Hu); repeat (case_match; try done); try (by injection He as <-);
    injection He as <-; rewrite lookup_set, decide_False by done; done.
Qed.

Lemma run_untouched t ss f g :
  Forall (λ s, untouched t s = true) ss → run_with ensure ss f = Ok g → tables g !! t = tables f !! t.
Proof.
  intros Hu. revert f. induction Hu as [| s ss Hs Hss IH]; intros f; [by intros [= <-] |]. cbn.
  destruct (ensure s f) as [f1 |] eqn:E; [| done]. cbn. intros Hr. rewrite (IH f1 Hr). by apply (ensure_untouched t s).
Qed.

(** A table and the index on it. *)
Lemma pair_run name cols pk idx c f :
  (∀ tb, tables f !! name = Some tb → c ∈ columns tb) → c ∈ cols →
  ∃ g, run_with ensure [CreateTable name cols pk; CreateIndex idx name [c] false] f = Ok g
    ∧ ∀ t, t ≠ name → tables g !! t = tables f !! t.
Proof.
  intros Hf Hc. cbn [run_with ensure]. rewrite StateProofs.create_run. cbn [rbind].
  pose proof (StateProofs.created_eq name cols pk f) as He.
  destruct (StateProofs.index_run idx name [c] (StateProofs.created name cols pk f)) as (g & -> & Eg).
  - split; [done |]. rewrite He. split; [eauto |]. rewrite (columns_some _ _ _ He).
    destruct (tables f !! name) as [tb |]; cbn; [specialize (Hf tb eq_refl) |]; set_solver.
  - exists g. split; [done |]. intros t Ht. rewrite Eg. by apply StateProofs.created_ne.
Qed.

Lemma auth_schema_run f :
  legacy f → ∃ g, run_with ensure SESSION_TOKEN_SCHEMA f = Ok g ∧ tables g !! "owners" = tables f !! "owners".
Proof.
  intros Hl. repeat (apply Forall_cons in Hl as [? Hl]).
  change SESSION_TOKEN_SCHEMA
    with (take 2 SESSION_TOKEN_SCHEMA ++ take 2 (drop 2 SESSION_TOKEN_SCHEMA) ++ drop 4 SESSION_TOKEN_SCHEMA)%list.
  cbn [take drop SESSION_TOKEN_SCHEMA]. rewrite run_app.
  destruct (pair_run "sessions" ["session_hash"; "owner_id"; "created_at"; "expires_at"] ["session_hash"]
    "idx_sessions_owner" "owner_id" f) as (f1 & -> & T1); [done | set_solver |]. cbn [rbind]. rewrite run_app.
  destruct (pair_run "tokens" ["token_hash"; "id"; "owner_id"; "created_at"; "expires_at"; "state"] ["token_hash"]
    "idx_tokens_owner" "owner_id" f1) as (f2 & -> & T2); [by rewrite T1 | set_solver |]. cbn [rbind].
  destruct (pair_run "login_attempts" ["identifier_key"; "failure_count"; "window_start"] ["identifier_key"]
    "idx_login_attempts_window" "window_start" f2) as (f3 & -> & T3); [by rewrite T2, T1 | set_solver |].
  exists f3. split; [done |]. by rewrite T3, T2, T1.
Qed.

(** What opening the store does, and the files it can leave. *)
Lemma auth_open_spec f :
  legacy f → let o := open_file f in
  (if bool_decide (NoDup (index_keys ["email"] (rows_of "owners" f)))
   then answer o = Ok tt ∧ run_with ensure (statements f) f = Ok (file_after o)
   else answer o = Raise (Exn EmailAlreadyTakenError "cannot enforce owner email uniqueness")
        ∧ run_with ensure SESSION_TOKEN_SCHEMA f = Ok (file_after o))
  ∧ (∀ g, g ∈ crash_states o → g ∈ states_of ensure (statements f) f).
Proof.
  intros Hl. destruct (auth_schema_run f Hl) as (f1 & E1 & T1). cbv zeta.
  destruct (ensure_exec SESSION_TOKEN_SCHEMA f schema_no_adds) as [Hx1 Hst1].
  destruct (phase SESSION_TOKEN_SCHEMA (mkConn f false [f; f]) f1) as (c1 & R1 & S1 & Tx1 & D1 & M1 & _);
    [by apply silent_bool | done | done | cbn [seen]; by rewrite Hx1 |]. cbn [seen disk] in M1.
  assert (∀ g, g ∈ disk c1 → g ∈ states_of ensure (statements f) f) as Hd.
  { intros g [Hg | Hg]%M1; [| rewrite Hst1 in Hg; by apply states_app_l].
    apply elem_of_cons in Hg as [-> | ->%list_elem_of_singleton]; by left. }
  assert (rows_of "owners" f1 = rows_of "owners" f) as Er by (unfold rows_of; by rewrite T1).
  assert ((executescript SESSION_TOKEN_SCHEMA ;;; ensure_email_uniqueness) (connect f) = ensure_email_uniqueness c1) as Ro.
  { unfold executescript. rewrite (mbind_ok _ _ _ tt c1); [done |].
    rewrite (mbind_ok _ _ _ tt (mkConn f false [f; f])) by done. exact R1. }
  unfold ensure_email_uniqueness at 2 in Ro. rewrite (mbind_ok _ _ c1 (tables f !! "owners") c1) in Ro by (unfold mgets; by rewrite S1, T1).
  rewrite <- Er.
  unfold open_file, statements in *. destruct (tables f !! "owners") as [tb |] eqn:Et.
  - rewrite (rows_some _ _ _ T1). rewrite (bool_decide_ext _ _ (ConfigProofs.duplicated_nodup _ _)) in Ro.
    case_bool_decide as Hn.
    + destruct (ConfigProofs.unique_run "idx_owners_email" "owners" "email" f1) as (g & Eg & _).
      { rewrite T1. eauto. }
      { rewrite (columns_some _ _ _ T1). repeat (apply Forall_cons in Hl as [? Hl]). auto. }
      { by rewrite (rows_some _ _ _ T1). }
      unfold execute in Ro. rewrite S1, Eg, Tx1 in Ro. cbn [orb begins] in Ro. rewrite (op_ok _ _ _ Ro). cbn [answer file_after seen crash_states disk].
      assert (run_with ensure (SESSION_TOKEN_SCHEMA ++ [email_index]) f = Ok g) as Hr
        by (rewrite run_app, E1; cbn [rbind run_with]; change (ensure email_index f1) with (exec email_index f1);
            unfold email_index; by rewrite Eg).
      split; [done |]. intros x [-> | [-> | Hx]%elem_of_cons]%elem_of_cons; [by apply states_last .. | auto].
    + rewrite (op_raise _ _ _ _ Ro). cbn [answer file_after crash_states]. split; [| done]. split; [done |].
      destruct (disk c1); [done |]. by injection D1 as ->.
  - rewrite Er. unfold rows_of. rewrite Et, bool_decide_eq_true_2 by constructor. rewrite app_nil_r in *.
    rewrite (op_ok _ _ _ Ro). cbn [answer file_after crash_states]. rewrite S1. split; [done |].
    intros x [-> | Hx]%elem_of_cons; [by apply states_last | auto].
Qed.

(** The statements leave the owners and the sources alone. *)
Lemma owners_kept f ss g : ss ⊆ statements f → run_with ensure ss f = Ok g → tables g !! "owners" = tables f !! "owners".
Proof.
  intros Hs. apply run_untouched, Forall_forall. intros s Hin. apply Hs in Hin. revert Hin. unfold statements.
  rewrite elem_of_app. intros [Hin | Hin].
  - assert (Forall (λ s, untouched "owners" s = true) SESSION_TOKEN_SCHEMA) as Hf by (by repeat constructor).
    rewrite Forall_forall in Hf. auto.
  - destruct (tables f !! "owners"); [by apply list_elem_of_singleton in Hin as -> | by apply elem_of_nil in Hin].
Qed.

Lemma sources_kept f g : run_with ensure (statements f) f = Ok g → tables g !! "sources" = tables f !! "sources".
Proof. apply run_untouched. unfold statements. destruct (tables f !! "owners"); by repeat constructor. Qed.

Lemma statements_well f : forallb (creates_with INDEXED) (statements f) = true.
Proof. unfold statements. by destruct (tables f !! "owners"). Qed.

(** Opening the store of sessions and tokens never changes a row or the table of
    the owners, and always leaves its three tables.  It succeeds exactly when no
    two owners share an e-mail, and if there are owners the index that keeps it
    so is then there; otherwise it fails with [EmailAlreadyTakenError]. *)
Theorem auth_open_decides f :
  legacy f → let o := open_file f in
  (∀ t, rows_of t (file_after o) = rows_of t f)
  ∧ tables (file_after o) !! "owners" = tables f !! "owners"
  ∧ Forall (λ t, is_Some (tables (file_after o) !! t)) ["sessions"; "tokens"; "login_attempts"]
  ∧ match answer o with
    | Ok _ => NoDup (index_keys ["email"] (rows_of "owners" f))
              ∧ (is_Some (tables f !! "owners") → is_Some (indexes (file_after o) !! "idx_owners_email"))
    | Raise e => exn_class e = EmailAlreadyTakenError ∧ ¬ NoDup (index_keys ["email"] (rows_of "owners" f))
    end.
Proof.
  intros Hl. destruct (auth_open_spec f Hl) as [Ho _]. cbv zeta in *. destruct (auth_statements_facts f) as [Hsil Hone].
  assert (∃ ss, SESSION_TOKEN_SCHEMA ⊆ ss ∧ ss ⊆ statements f ∧ run_with ensure ss f = Ok (file_after (open_file f)))
    as (ss & Hin & Hss & Hr).
  { unfold statements in *. case_bool_decide; destruct Ho as [_ Hr]; eexists; (split; [| split; [| exact Hr]]); set_solver. }
  assert (silent ss) as Hsil' by (unfold silent in *; rewrite Forall_forall in *; auto).
  pose proof (run_made ss (statements f) f _ Hone Hsil' Hss Hr) as Hm. rewrite Forall_forall in Hm.
  split; [intros t; by apply (run_rows ss) |]. split; [by apply (owners_kept f ss) |]. split.
  - assert (∀ t c k, CreateTable t c k ∈ SESSION_TOKEN_SCHEMA → is_Some (tables (file_after (open_file f)) !! t)) as Ht
      by (intros t c k Hc; exact (Hm _ (Hin _ Hc))).
    repeat constructor; eapply Ht; apply list_elem_of_In; cbn; eauto 8.
  - case_bool_decide as Hn; destruct Ho as [-> Hr']; [split; [done |] | by split]. intros [tb Et].
    pose proof (run_made (statements f) (statements f) f _ Hone Hsil ltac:(done) Hr') as Hm'. rewrite Forall_forall in Hm'.
    apply (Hm' email_index). unfold statements. rewrite Et. set_solver.
Qed.

(** A crash while the store is being opened costs nothing: from whatever the disk
    held, the next opening ends in the file an undisturbed one would have left. *)
Theorem auth_open_resumes f g :
  legacy f → NoDup (index_keys ["email"] (rows_of "owners" f)) → g ∈ crash_states (open_file f) →
  answer (open_file g) = Ok tt ∧ file_after (open_file g) = file_after (open_file f).
Proof.
  intros Hl Hn Hg. destruct (auth_open_spec f Hl) as [Hf Hst]. rewrite bool_decide_eq_true_2 in Hf by done.
  destruct Hf as [_ Hrun]. apply Hst in Hg. destruct (auth_statements_facts f) as [Hsil Hone].
  pose proof (resume _ _ _ _ Hone Hsil Hrun Hg) as Hres.
  destruct (states_split _ _ _ _ _ Hrun Hg) as (ss1 & ss2 & Ec & H1 & _).
  assert (tables g !! "owners" = tables f !! "owners") as Et by (apply (owners_kept f ss1); [rewrite Ec; set_solver | done]).
  assert (statements g = statements f) as Es by (unfold statements; by rewrite Et).
  assert (legacy g) as Hlg.
  { apply (has_columns_run INDEXED ss1 f); [| done | done]. pose proof (statements_well f) as Hw. rewrite Ec, forallb_app in Hw.
    by apply andb_true_iff in Hw as [? _]. }
  destruct (auth_open_spec g Hlg) as [Hog _]. rewrite bool_decide_eq_true_2 in Hog by (unfold rows_of; rewrite Et; exact Hn).
  destruct Hog as [Ha Hug]. split; [done |]. rewrite Es, Hres in Hug. by injection Hug.
Qed.

(** ** The two openings *)

Lemma scripts_compatible f :
  Forall (λ s, Forall (λ t, compatible s t = true) ConfigProofs.statements) (statements f).
Proof.
  assert (∀ ss, forallb (λ s, forallb (compatible s) ConfigProofs.statements) ss = true →
    Forall (λ s, Forall (λ t, compatible s t = true) ConfigProofs.statements) ss) as Hb.
  { intros ss Hf. apply Forall_forall. intros s Hs%list_elem_of_In. rewrite forallb_forall in Hf.
    apply Forall_forall. intros t Ht%list_elem_of_In. specialize (Hf s Hs). rewrite forallb_forall in Hf. auto. }
  apply Hb. unfold statements. destruct (tables f !! "owners"); vm_compute; reflexivity.
Qed.

(** After the configuration store has opened the file, the openings of the other
    do nothing more for e-mails. *)
Lemma after_config f g k :
  run_with ensure ConfigProofs.statements f = Ok g → run_with ensure (statements f) g = Ok k →
  run_with ensure (statements g) g = Ok k.
Proof.
  intros Hg Hk. destruct ConfigProofs.statements_facts as [Hsil Hone].
  pose proof (run_made _ _ _ _ Hone Hsil ltac:(done) Hg) as Hm. rewrite Forall_forall in Hm.
  assert (made email_index k) as Hi.
  { assert (made email_index g) as Hmg by (apply Hm, list_elem_of_In; cbn; tauto). revert Hmg. revert Hk. clear.
    generalize (statements f). intros ss. revert g. induction ss as [| s ss IH]; intros g; [by intros [= <-] |]. cbn.
    destruct (ensure s g) as [g1 |] eqn:E; [| done]. cbn. intros Hk Hmg. apply (IH g1 Hk).
    by apply (ensure_grows s g g1 E). }
  assert (is_Some (tables g !! "owners")) as [tb Et].
  { apply (Hm (CreateTable "owners" ["id"; "name"; "email"; "role"; "state"; "password_hash"; "created_at"] ["id"])).
    apply list_elem_of_In. cbn. tauto. }
  unfold statements in *. rewrite Et, run_app. destruct (tables f !! "owners").
  - by rewrite run_app in Hk.
  - rewrite app_nil_r in Hk. rewrite Hk. cbn [rbind run_with]. by rewrite (made_ensure email_index).
Qed.

(** The opening of the other store changes nothing the configuration store looks
    at. *)
Lemma before_config f :
  legacy f → let g := file_after (open_file f) in
  tables g !! "owners" = tables f !! "owners" ∧ tables g !! "sources" = tables f !! "sources".
Proof.
  intros Hl. destruct (auth_open_spec f Hl) as [Ho _]. cbv zeta. case_bool_decide; destruct Ho as [_ Hr].
  - split; [by apply (owners_kept f (statements f)) | by apply sources_kept].
  - split; apply (run_untouched _ SESSION_TOKEN_SCHEMA f); by repeat constructor.
Qed.

(** C35: the order in which the two stores open config.db is immaterial.  The one for
    sessions and tokens never makes the configuration store refuse a file it
    would have opened, nor open one it would have refused; and when that one
    opens the file, so does the other, before it or after it, and both orders end
    in the very same file. *)
Theorem open_order_immaterial f :
  legacy f → ConfigProofs.legacy f →
  let c := ConfigFile.open_file f in let a := open_file f in
  let ca := open_file (file_after c) in let ac := ConfigFile.open_file (file_after a) in
  is_ok (answer ac) = is_ok (answer c)
  ∧ (is_ok (answer c) = true → answer a = Ok tt ∧ answer ca = Ok tt ∧ file_after ca = file_after ac).
Proof.
  intros Hl Hcl. cbv zeta. set (fc := file_after (ConfigFile.open_file f)). set (fa := file_after (open_file f)).
  destruct (before_config f Hl) as [To Ts]. fold fa in To, Ts.
  assert (ConfigProofs.legacy fa) as Hla by (intros tb; rewrite To; apply Hcl).
  assert (ConfigProofs.refused fa = ConfigProofs.refused f) as Er
    by (unfold ConfigProofs.refused, ConfigProofs.sources_key, rows_of; by rewrite To, Ts).
  pose proof (ConfigProofs.config_open_spec f Hcl) as Hc. pose proof (ConfigProofs.config_open_spec fa Hla) as Hac.
  cbv zeta in *. rewrite Er in Hac. destruct (ConfigProofs.refused f) eqn:Hr.
  { destruct Hc as ((e & -> & _) & _), Hac as ((e' & -> & _) & _). done. }
  destruct Hc as (-> & Hrc & _), Hac as (-> & Hrac & _). split; [done |]. intros _. fold fc in Hrc.
  destruct (ConfigProofs.statements_facts) as [Hsil _].
  assert (NoDup (index_keys ["email"] (rows_of "owners" f))) as Hn
    by (apply ConfigProofs.refused_false in Hr as (_ & _ & Hr); by apply ConfigProofs.duplicated_nodup).
  destruct (auth_open_spec f Hl) as [Ha _]. rewrite bool_decide_eq_true_2 in Ha by done. destruct Ha as [-> Hra]. fold fa in Hra.
  assert (legacy fc) as Hlc by (by apply (has_columns_run INDEXED ConfigProofs.statements f)).
  destruct (auth_open_spec fc Hlc) as [Hca _].
  rewrite bool_decide_eq_true_2 in Hca by (rewrite (run_rows _ _ _ "owners" Hsil Hrc); done). destruct Hca as [-> Hrca].
  split; [done |]. split; [done |].
  destruct (tile (statements f) ConfigProofs.statements f fa fc) as (k & H1 & H2); [apply scripts_compatible | done .. |].
  rewrite (after_config _ _ _ Hrc H2) in Hrca. rewrite H1 in Hrac. congruence.
Qed.
End AuthProofs.

(** * Concrete files *)

(** A file with sessions and owners, of a release that knew no passwords. *)
Definition older (owners : list SqlRow) : File :=
  set_table "sessions" {| columns := ["session_hash"; "owner_id"; "created_at"; "expires_at"];
                          primary_key := ["session_hash"]; rows := [{["session_hash" := SText "h"; "owner_id" := SText "1"]}] |}
    (UpgradeDemo.old_config owners).

Lemma older_legacy l : AuthProofs.legacy (older l) ∧ ConfigProofs.legacy (older l).
Proof.
  split.
  - unfold AuthProofs.legacy, has_columns, AuthProofs.INDEXED. rewrite !Forall_cons, Forall_nil. split_and!; [| | | | done];
      intros tb; cbn; rewrite lookup_insert; intros [= <-] || intros [=]; cbn; set_solver.
  - intros tb [= <-]. cbn. set_solver.
Qed.

(** Both orders, on a file that has none of the tables of passwords and tokens. *)
Lemma open_order_immaterial_witness :
  let f := older UpgradeDemo.old_owners in
  let ca := AuthFile.open_file (file_after (ConfigFile.open_file f)) in
  let ac := ConfigFile.open_file (file_after (AuthFile.open_file f)) in
  answer ca = Ok tt ∧ file_after ca = file_after ac
  ∧ bool_decide (is_Some (tables (file_after (ConfigFile.open_file f)) !! "tokens")) = false
  ∧ bool_decide (is_Some (tables (file_after ac) !! "tokens")) = true.
Proof.
  intros f ca ac. destruct (older_legacy UpgradeDemo.old_owners) as [Ha Hc].
  destruct (AuthProofs.open_order_immaterial f Ha Hc) as [_ H]. destruct H as (_ & H1 & H2); [vm_compute; reflexivity |].
  split; [exact H1 |]. split; [exact H2 |]. split; vm_compute; reflexivity.
Defined.

(** Two owners with one e-mail: refused, the rows as they were. *)
Lemma auth_open_decides_witness :
  let f := older (UpgradeDemo.old_owners ++ UpgradeDemo.old_owners) in
  is_ok (answer (AuthFile.open_file f)) = false
  ∧ rows_of "owners" (file_after (AuthFile.open_file f)) = (UpgradeDemo.old_owners ++ UpgradeDemo.old_owners)%list.
Proof.
  intros f. destruct (older_legacy (UpgradeDemo.old_owners ++ UpgradeDemo.old_owners)) as [Ha _].
  destruct (AuthProofs.auth_open_decides f Ha) as [Hr _]. split; [vm_compute; reflexivity | rewrite Hr; reflexivity].
Defined.

Lemma auth_open_resumes_witness :
  let f := older UpgradeDemo.old_owners in
  let o := AuthFile.open_file f in
  length (crash_states o) = 10%nat ∧ file_after (AuthFile.open_file (nth 4 (crash_states o) f)) = file_after o.
Proof.
  intros f o. assert (Hlen : length (crash_states o) = 10%nat) by (vm_compute; reflexivity). split; [done |].
  destruct (older_legacy UpgradeDemo.old_owners) as [Ha _].
  destruct (AuthProofs.auth_open_resumes f (nth 4 (crash_states o) f) Ha) as [_ E]; [| | exact E].
  - apply (bool_decide_unpack _). vm_compute. exact Logic.I.
  - apply list_elem_of_In, nth_In. change (4 < length (crash_states o))%nat. lia.
Defined.
