(* ===== verification/App.v ===== *)
(** The web application, [interfaces/web/app.py]: what [create_app] builds on
    the machine it runs on, in its order, and the tasks its lifespan starts and
    stops.  Opening [SqliteAuthStore] creates the tables of [Schema.AuthFile] in
    config.db, which changes nothing in the tables of the model, or fails.  What
    SQLite answers then, the SDK's server constructor, its session manager and
    what asyncio raises at an [await] are arguments. *)

From S2P Require Import Text Prelude Domain Orchestrator StateStore DateTime Registry ConfigStore Scheduler Evaluator Safety Urls Services Auth Seconds Fetchers Digest Smtp Settings Boot Yaml Session Mcp Cli.

(** * create_app *)

(** The three warnings of [app.py]. *)
Inductive app_warning := McpWorkers (workers : Z) | EvaluatorRefused (workers : Z) | RateLimitDisabled.

(** The machine, the process's root logger and what was logged. *)
Record Process (W S T : Type) := mkProcess {
  machine : Machine W S T;
  root_logger : RootLogger;
  app_log : list app_warning;
}.
Arguments mkProcess {W S T}.
Arguments machine {W S T}.
Arguments root_logger {W S T}.
Arguments app_log {W S T}.

(** The arguments of [RunQueue] and of [SqliteAuthStore]. *)
Record QueueSettings := {
  max_consumer_restarts : Z;
  cooldown_seconds : secs;
  backlog_warn_threshold : Z;
}.
Record AuthSettings := {
  auth_db : string;
  login_window_seconds : secs;
  login_max_attempts : Z;
  login_row_cap : Z;
}.

(** What the routers and the lifespan find in [app.state] and in the closure
    of [create_app]. *)
Record Kerdoos (W : Type) := mkKerdoos {
  composition : Composition (W:=W);
  run_queue : QueueSettings;
  auth_service : AuthSettings;
  session_cookie : SessionCookie;
  csrf_secret : string;
  mcp_mount : option McpMount;
}.
Arguments mkKerdoos {W}.
Arguments composition {W}.
Arguments run_queue {W}.
Arguments auth_service {W}.
Arguments session_cookie {W}.
Arguments csrf_secret {W}.
Arguments mcp_mount {W}.

Section CreateApp.
Context {W S T : Type} `{StateStore S}.
Variables (h : Host W S) (new_server : M RootLogger unit).
(** What SQLite answers to the statements of [SqliteAuthStore.__init__]. *)
Variable auth_sqlite : string → result unit.

Notation Process := (Process W S T).

Definition on_machine {A} (m : M (Machine W S T) A) : M Process A :=
  λ p, let '(r, machine) := m p.(machine) in (r, mkProcess machine p.(root_logger) p.(app_log)).
Definition on_root {A} (m : M RootLogger A) : M Process A :=
  λ p, let '(r, root) := m p.(root_logger) in (r, mkProcess p.(machine) root p.(app_log)).
Definition warning (w : app_warning) : M Process unit :=
  mmodify (λ p, mkProcess p.(machine) p.(root_logger) (p.(app_log) ++ [w])%list).

Definition queue_settings (s : Settings) : QueueSettings := {|
  max_consumer_restarts := s.(run_queue_max_restarts);
  cooldown_seconds := s.(run_now_cooldown_seconds);
  backlog_warn_threshold := s.(run_queue_backlog_warn_threshold) |}.

Definition auth_settings (s : Settings) : AuthSettings := {|
  auth_db := s.(config_db);
  login_window_seconds := s.(login_rate_limit_window_seconds);
  login_max_attempts := s.(login_rate_limit_max_attempts);
  login_row_cap := s.(login_rate_limit_row_cap) |}.

(** [SqliteAuthStore(path)]: the statements, then the refusal of two owners with
    one e-mail address. *)
Definition open_auth_store (path : string) : M (Machine W S T) unit :=
  let! _ := mlift (auth_sqlite path) in
  let! db := mgets (config_at path) in
  let! _ := mlift (AuthStore.ensure_email_uniqueness {| cfg := db; Auth.sessions := []; Auth.tokens := []; Auth.attempts := [] |}) in
  mret' tt.

Definition build_mount (s : Settings) : M Process (option McpMount) :=
  if s.(mcp_enabled) then
    let! mount := on_root (build_mcp_server new_server s) in mret' (Some mount)
  else mret' None.

Definition create_app : M Process (Kerdoos W) :=
  let! settings := on_machine (settings_of h) in
  let! secret := mlift (require_session_secret settings) in
  let! composition := on_machine (build_app_service h settings.(config_db) settings.(state_db) settings) in
  on_machine (report_tiers composition) ;;;
  on_machine (open_auth_store settings.(config_db)) ;;;
  let! mcp_mount := build_mount settings in
  (if bool_decide (is_Some mcp_mount) && (1 <? settings.(workers))
   then warning (McpWorkers settings.(workers)) else mret' tt) ;;;
  (if settings.(login_rate_limit_max_attempts) <=? 0 then warning RateLimitDisabled else mret' tt) ;;;
  let! cookie := mlift (new_session_cookie secret settings.(Settings.cookie_secure)) in
  mret' {| composition := composition; run_queue := queue_settings settings;
           auth_service := auth_settings settings; session_cookie := cookie;
           csrf_secret := secret; mcp_mount := mcp_mount |}.
End CreateApp.

(** * The lifespan *)

Inductive task := RunQueueTask | EvaluatorTask.

#[export] Instance task_eq_dec : EqDecision task.
Proof. solve_decision. Defined.

(** What the lifespan does, in order. *)
Inductive life_event :=
| CreateTask (t : task)
| Refused (workers : Z)     (* the warning *)
| McpEntered | Serving | McpExited
| SetStop (t : task) | Cancel (t : task) | Awaited (t : task).

#[export] Instance life_event_eq_dec : EqDecision life_event.
Proof. solve_decision. Defined.

(** What the outside answers: opening the sender's store, the session
    manager's [run()] at both ends, what the server raises at the [yield], and
    what an [await] of each cancelled task raises. *)
Class Outside := {
  open_sender : result unit;
  mcp_enter : result unit;
  mcp_exit : result unit;
  served : result unit;
  awaited : task → result unit;
}.

Section Lifespan.
Context `{Outside}.

Definition does (e : life_event) : M (list life_event) unit := mmodify (λ l, l ++ [e])%list.

(** [contextlib.suppress(asyncio.CancelledError)]. *)
Definition suppress_cancelled (r : result unit) : result unit :=
  match r with
  | Raise e => if bool_decide (e.(exn_class) = CancelledError) then Ok tt else Raise e
  | Ok tt => Ok tt
  end.

Definition stop_task (t : task) : M (list life_event) unit :=
  does (SetStop t) ;;; does (Cancel t) ;;; does (Awaited t) ;;; mlift (suppress_cancelled (awaited t)).

(** Whether the evaluator's task was created. *)
Definition start_evaluator (s : Settings) : M (list life_event) bool :=
  if s.(digest_evaluator_enabled) then
    if should_start_intra_process_evaluator s.(workers) then
      mlift open_sender ;;; does (CreateTask EvaluatorTask) ;;; mret' true
    else does (Refused s.(workers)) ;;; mret' false
  else mret' false.

Definition serve (mcp : bool) : M (list life_event) unit :=
  if mcp then
    mlift mcp_enter ;;; does McpEntered ;;;
    mfinally (does Serving ;;; mlift served) (does McpExited ;;; mlift mcp_exit)
  else does Serving ;;; mlift served.

Definition lifespan (s : Settings) (mcp : bool) : M (list life_event) unit :=
  does (CreateTask RunQueueTask) ;;;
  let! evaluator := start_evaluator s in
  mfinally (serve mcp)
    ((if evaluator : bool then stop_task EvaluatorTask else mret' tt) ;;; stop_task RunQueueTask).
End Lifespan.

(** * Properties of create_app *)

Section CreateAppProofs.
Context {W S T : Type} `{StateStore S}.
Variables (h : Host W S) (new_server : M RootLogger unit) (auth_sqlite : string → result unit).

Notation create := (create_app (T:=T) h new_server auth_sqlite).

(** [m] leaves the process's root logger as it found it. *)
Definition keeps_root {A} (m : M (Process W S T) A) : Prop := ∀ p, root_logger (m p).2 = root_logger p.

Lemma keeps_root_pres {A} (m : M (Process W S T) A) :
  keeps_root m ↔ ∀ root, pres (λ p, root_logger p = root) m.
Proof. split; [by intros Hm root p <- | by intros Hm p; apply (Hm (root_logger p))]. Qed.

Lemma pres_on_machine {A} (m : M (Machine W S T) A) root :
  pres (λ p, root_logger p = root) (on_machine m).
Proof. intros p Hp. unfold on_machine. by destruct (m _). Qed.

Lemma build_mcp_server_root s root : (build_mcp_server new_server s root).2 = root.
Proof.
  unfold build_mcp_server, mbind', mlift, mget, mfinally, restore.
  destruct (public_url_of s) as [url |]; [| done]. destruct (allowed_hosts_of s url); [| done].
  by destruct (new_server root) as [[] ?].
Qed.

Lemma create_keeps_root : keeps_root create.
Proof.
  apply keeps_root_pres. intros root.
  assert (pres (λ p : Process W S T, root_logger p = root) (mret' tt)) by apply pres_ret.
  assert (∀ w, pres (λ p : Process W S T, root_logger p = root) (warning w)) by by intros w p <-.
  unfold create_app, build_mount, on_root.
  repeat (first [apply pres_on_machine | apply pres_bind; [| intros ?] | apply pres_lift | case_match]; try done).
  intros p <-. pose proof (build_mcp_server_root a (root_logger p)) as Hr.
  destruct (build_mcp_server _ _ _); cbn in *. done.
Qed.

Lemma on_machine_ok {A} (m : M (Machine W S T) A) p a m' :
  m (machine p) = (Ok a, m') → on_machine m p = (Ok a, mkProcess m' (root_logger p) (app_log p)).
Proof. intros E. unfold on_machine. by rewrite E. Qed.

Lemma session_secret_long s secret :
  require_session_secret s = Ok secret → session_secret s = Some secret ∧ (32 <= String.length secret)%nat.
Proof.
  unfold require_session_secret, MIN_SESSION_SECRET_LENGTH. destruct (session_secret s) as [x |]; [| done].
  destruct (negb (truthy x)); [done |]. destruct (Nat.ltb_spec (String.length x) 32); [done |].
  intros [= ->]. by split.
Qed.

(** The state once the settings were read. *)
Definition settled (p : Process W S T) : Process W S T :=
  mkProcess (settings_of h (machine p)).2 (root_logger p) (app_log p).

Lemma create_settled p s :
  (settings_of h (machine p)).1 = Ok s →
  create p = (let! secret := mlift (require_session_secret s) in
              let! composition := on_machine (build_app_service h s.(config_db) s.(state_db) s) in
              on_machine (report_tiers composition) ;;;
              on_machine (open_auth_store auth_sqlite s.(config_db)) ;;;
              let! mcp_mount := build_mount new_server s in
              (if bool_decide (is_Some mcp_mount) && (1 <? s.(workers))
               then warning (McpWorkers s.(workers)) else mret' tt) ;;;
              (if s.(login_rate_limit_max_attempts) <=? 0 then warning RateLimitDisabled else mret' tt) ;;;
              let! cookie := mlift (new_session_cookie secret s.(Settings.cookie_secure)) in
              mret' {| composition := composition; run_queue := queue_settings s;
                       auth_service := auth_settings s; session_cookie := cookie;
                       csrf_secret := secret; mcp_mount := mcp_mount |}) (settled p).
Proof.
  intros Hs. unfold create_app. rewrite (mbind_ok _ _ p s (settled p)); [done |].
  unfold settled. destruct (settings_of h (machine p)) as [r m] eqn:E. cbn in Hs. subst r.
  by apply on_machine_ok.
Qed.

Lemma built_composition c d s (p p' : Process W S T) composition :
  on_machine (build_app_service h c d s) p = (Ok composition, p') → composition = composed h c d s.
Proof.
  unfold on_machine, build_app_service, mbind', open_config_store, open_state_store, mmodify, mret'.
  destruct (Config.open_store _ _); [| done]. by intros [= <- _].
Qed.
End CreateAppProofs.

(** C13: the application never starts on an unusable session secret, and then no
    database file was opened or created; when it starts, the cookie and the
    CSRF tokens are signed with that secret, of at least 32 characters, the
    stores and the tiers are those of the settings, the authentication store
    opened, and /mcp is there exactly when it is enabled; the process's root
    logger is as before in any case. *)
Theorem create_app_fails_closed {W S T} `{StateStore S} (h : Host W S) (new_server : M RootLogger unit)
    (auth_sqlite : string → result unit) (p : Process W S T) (s : Settings) :
  (settings_of h (machine p)).1 = Ok s →
  let '(r, p') := create_app (T:=T) h new_server auth_sqlite p in
  root_logger p' = root_logger p
  ∧ (∀ e, require_session_secret s = Raise e →
       r = Raise e ∧ config_dbs (machine p') = config_dbs (machine p)
       ∧ state_dbs (machine p') = state_dbs (machine p) ∧ app_log p' = app_log p)
  ∧ (∀ app, r = Ok app →
       session_secret s = Some (csrf_secret app) ∧ (32 <= String.length (csrf_secret app))%nat
       ∧ session_cookie app = {| cookie_key := csrf_secret app; cookie_secure := s.(Settings.cookie_secure) |}
       ∧ composition app = composed h s.(config_db) s.(state_db) s
       ∧ auth_sqlite s.(config_db) = Ok tt
       ∧ (is_Some (mcp_mount app) ↔ s.(mcp_enabled) = true)).
Proof.
  intros Hs. pose proof (create_keeps_root (T:=T) h new_server auth_sqlite p) as Hroot.
  destruct (create_app h new_server auth_sqlite p) as [r p'] eqn:E. split; [exact Hroot |].
  rewrite (create_settled _ _ _ _ s Hs) in E. split.
  - intros e He. unfold mbind' at 1, mlift at 1 in E. rewrite He in E. injection E as <- <-.
    unfold settled, settings_of. cbn. by destruct (get_settings _ _ _ _).
  - intros app ->. apply mbind_inv in E as (secret & p1 & [= Es <-] & E).
    apply mbind_inv in E as (c & p2 & Ec & E). apply built_composition in Ec as ->.
    apply mbind_inv in E as ([] & p3 & _ & E). apply mbind_inv in E as ([] & p3' & Ea & E).
    apply mbind_inv in E as (mount & p4 & Em & E).
    apply mbind_inv in E as ([] & p5 & _ & E). apply mbind_inv in E as ([] & p6 & _ & E).
    apply mbind_inv in E as (cookie & p7 & [= Ek <-] & [= <- _]). cbn.
    apply session_secret_long in Es as [-> Hlen]. split_and!; [done.. | | done | |].
    + unfold new_session_cookie in Ek. case_bool_decide; [done |]. by injection Ek as <-.
    + unfold on_machine, open_auth_store, mbind', mlift in Ea. by destruct (auth_sqlite _) as [[] |].
    + unfold build_mount in Em. destruct (mcp_enabled s).
      * apply mbind_inv in Em as (m & ? & _ & [= <- _]). split; [done | eauto].
      * injection Em as <- _. split; [by intros [? ?] | done].
Qed.

(** * Properties of the lifespan *)

Section LifespanProofs.
Context `{Outside}.

(** The evaluator runs in this process. *)
Definition runs_evaluator (s : Settings) : bool :=
  s.(digest_evaluator_enabled) && should_start_intra_process_evaluator s.(workers).

Definition stopped (t : task) : list life_event := [SetStop t; Cancel t; Awaited t].

Lemma stop_task_run t l : stop_task t l = (suppress_cancelled (awaited t), (l ++ stopped t)%list).
Proof. unfold stop_task, does, mbind', mmodify, mlift. by rewrite <- !app_assoc. Qed.

(** The ways the serving goes. *)
Definition servings (mcp : bool) : list (list life_event) :=
  if mcp then [[]; [McpEntered; Serving; McpExited]] else [[Serving]].

Lemma serve_run mcp l :
  ∃ r middle, serve mcp l = (r, (l ++ middle)%list)
    ∧ middle ∈ servings mcp.
Proof.
  unfold servings, serve, does, mbind', mmodify, mlift, mfinally.
  destruct mcp; [destruct mcp_enter; [destruct served, mcp_exit |] |].
  all: try (eexists _, [McpEntered; Serving; McpExited]; cbn; rewrite <- !app_assoc; split; [done | set_solver]).
  - eexists _, []. rewrite app_nil_r. split; [done | set_solver].
  - eexists _, [Serving]. split; [done | set_solver].
Qed.

(** What the start-up of the evaluator writes down. *)
Definition started (s : Settings) : list life_event :=
  if runs_evaluator s then [CreateTask EvaluatorTask]
  else if s.(digest_evaluator_enabled) then [Refused s.(workers)] else [].

Lemma start_evaluator_run s l :
  start_evaluator s l
  = match (if runs_evaluator s then open_sender else Ok tt) with
    | Ok _ => (Ok (runs_evaluator s), (l ++ started s)%list)
    | Raise e => (Raise e, l)
    end.
Proof.
  unfold start_evaluator, started, runs_evaluator, does, mbind', mmodify, mlift.
  destruct (digest_evaluator_enabled s); cbn; [| by rewrite app_nil_r].
  destruct (should_start_intra_process_evaluator _); [| done]. by destruct open_sender as [[] |].
Qed.

Lemma lifespan_eq s mcp :
  lifespan s mcp []
  = match (if runs_evaluator s then open_sender else Ok tt) with
    | Raise e => (Raise e, [CreateTask RunQueueTask])
    | Ok _ => mfinally (serve mcp)
        ((if runs_evaluator s then stop_task EvaluatorTask else mret' tt) ;;; stop_task RunQueueTask)
        (CreateTask RunQueueTask :: started s)
    end.
Proof.
  transitivity (mbind' (start_evaluator s) (λ evaluator, mfinally (serve mcp)
    ((if evaluator : bool then stop_task EvaluatorTask else mret' tt) ;;; stop_task RunQueueTask))
    [CreateTask RunQueueTask]); [done |].
  unfold mbind' at 1. rewrite start_evaluator_run.
  by destruct (if runs_evaluator s then open_sender else Ok tt).
Qed.

Lemma lifespan_run s mcp :
  match (if runs_evaluator s then open_sender else Ok tt) with
  | Raise e => lifespan s mcp [] = (Raise e, [CreateTask RunQueueTask])
  | Ok _ => ∃ r middle, middle ∈ servings mcp
      ∧ lifespan s mcp []
        = (r, (CreateTask RunQueueTask :: started s ++ middle
               ++ (if runs_evaluator s then stopped EvaluatorTask else [])
               ++ (if runs_evaluator s && negb (is_ok (suppress_cancelled (awaited EvaluatorTask)))
                   then [] else stopped RunQueueTask))%list)
  end.
Proof.
  rewrite lifespan_eq. destruct (if runs_evaluator s then open_sender else Ok tt) as [[] | e]; [| done].
  unfold mfinally. destruct (serve_run mcp (CreateTask RunQueueTask :: started s)) as (r & middle & -> & Hm).
  destruct (runs_evaluator s); cbn [andb].
  - unfold mbind'. rewrite stop_task_run.
    destruct (suppress_cancelled (awaited EvaluatorTask)) as [[] |]; cbn [is_ok negb];
      [rewrite stop_task_run; destruct (suppress_cancelled _) as [[] |] |].
    all: eexists _, middle; split; [exact Hm |]. all: rewrite ?app_nil_r, <- !app_assoc; done.
  - unfold mbind', mret'. rewrite stop_task_run. destruct (suppress_cancelled _) as [[] |].
    all: eexists _, middle; split; [exact Hm |]. all: rewrite <- !app_assoc; done.
Qed.
End LifespanProofs.

(** C14: the lifespan of the application, whatever the server, the MCP session
    manager and the run queue raise: when the evaluator could be started and
    its task ends normally or cancelled, each task that was created, and no
    other, is told to stop, cancelled and awaited, once, after the serving is
    over, the evaluator before the queue that it shares the stores with. *)
Theorem lifespan_stops_its_tasks `{Outside} (s : Settings) (mcp : bool) :
  (runs_evaluator s = true → open_sender = Ok tt ∧ is_ok (suppress_cancelled (awaited EvaluatorTask)) = true) →
  let tasks := if runs_evaluator s then [EvaluatorTask; RunQueueTask] else [RunQueueTask] in
  ∃ r before, lifespan s mcp [] = (r, (before ++ (tasks ≫= stopped))%list)
    ∧ (∀ t, CreateTask t ∈ before ↔ t ∈ tasks)
    ∧ (∀ t, t ∈ tasks → SetStop t ∉ before ∧ Cancel t ∉ before ∧ Awaited t ∉ before)
    ∧ (mcp = true → Serving ∈ before → McpEntered ∈ before ∧ McpExited ∈ before).
Proof.
  intros Hok tasks. pose proof (lifespan_run s mcp) as Hrun.
  assert (∃ r middle, middle ∈ servings mcp
    ∧ lifespan s mcp []
      = (r, ((CreateTask RunQueueTask :: started s ++ middle) ++ (tasks ≫= stopped))%list)) as (r & middle & Hm & E).
  { subst tasks. destruct (runs_evaluator s); cbn [andb] in Hrun.
    - destruct (Hok eq_refl) as [Ho Ha]. rewrite Ho, Ha in Hrun. destruct Hrun as (r & middle & Hm & ->).
      exists r, middle. split; [exact Hm |]. cbn. by rewrite <- !app_assoc.
    - destruct Hrun as (r & middle & Hm & ->). exists r, middle. split; [exact Hm |].
      cbn. by rewrite <- !app_assoc. }
  exists r, (CreateTask RunQueueTask :: started s ++ middle)%list. split; [exact E |].
  clear E Hrun Hok. unfold started, servings in *. subst tasks. destruct mcp.
  all: rewrite !elem_of_cons, elem_of_nil in Hm.
  1: destruct Hm as [-> | [-> | []]].
  3: destruct Hm as [-> | []].
  all: destruct (runs_evaluator s); [| destruct (digest_evaluator_enabled s)]; set_solver.
Qed.

(** Over all the worker processes of one deployment at most one evaluator
    runs, whatever happens in each of them: with several workers each refuses,
    and says so. *)
Theorem one_evaluator (s : Settings) (mcp : bool) (processes : list Outside) :
  length processes = Z.to_nat s.(workers) →
  let logs := (λ o, (@lifespan o s mcp []).2) <$> processes in
  (length (filter (λ log, CreateTask EvaluatorTask ∈ log) logs) ≤ 1)%nat
  ∧ (1 < s.(workers) → s.(digest_evaluator_enabled) = true →
     ∀ log, log ∈ logs → Refused s.(workers) ∈ log).
Proof.
  intros Hlen logs. destruct (Z.leb_spec s.(workers) 1) as [Hw | Hw].
  - split; [| lia]. etrans; [apply length_filter |]. unfold logs. rewrite length_fmap. lia.
  - assert (Hrun : ∀ o : Outside, runs_evaluator s = false).
    { intros _. unfold runs_evaluator, should_start_intra_process_evaluator.
      rewrite (proj2 (Z.leb_gt _ _) Hw). apply andb_false_r. }
    assert (Hlogs : ∀ log, log ∈ logs → CreateTask EvaluatorTask ∉ log
      ∧ (digest_evaluator_enabled s = true → Refused (workers s) ∈ log)).
    { intros log (o & -> & _)%list_elem_of_fmap. pose proof (@lifespan_run o s mcp) as H.
      rewrite (Hrun o) in H. destruct H as (r & middle & Hm & ->). unfold started, servings in *.
      rewrite (Hrun o). cbn [andb]. unfold stopped.
      destruct (digest_evaluator_enabled s), mcp; rewrite !elem_of_cons, elem_of_nil in Hm;
        repeat destruct Hm as [-> | Hm]; try destruct Hm; set_solver. }
    split.
    + destruct (filter _ logs) as [| log rest] eqn:Ef; [cbn; lia |]. exfalso.
      assert (log ∈ log :: rest) as Hin by left. rewrite <- Ef in Hin.
      apply list_elem_of_filter in Hin as [Hc Hin]. by apply (Hlogs log).
    + intros _ He log Hin. by apply Hlogs.
Qed.

(** The sender is built after the queue's task was created and before the
    block that stops it: when that fails the task is left behind. *)
Lemma sender_failure_leaves_the_queue `{Outside} (s : Settings) (mcp : bool) (e : exn) :
  runs_evaluator s = true → open_sender = Raise e →
  lifespan s mcp [] = (Raise e, [CreateTask RunQueueTask]).
Proof. intros Hr Ho. pose proof (lifespan_run s mcp) as Hrun. by rewrite Hr, Ho in Hrun. Qed.

(** * Witnesses *)

Module AppDemo.
(** The command line's example host, with a session secret, and MCP on. *)
Definition host (secret : option string) : Host nat StateDb := {|
  environ name := if bool_decide (name = "KERDOOS_SESSION_SECRET") then secret
                  else if bool_decide (name = "KERDOOS_MCP_ENABLED") then Some "true"
                  else if bool_decide (name = "KERDOOS_PUBLIC_URL") then Some "https://kerdoos.example/"
                  else None;
  to_int := CliDemo.host.(to_int); to_float := CliDemo.host.(to_float); show := CliDemo.host.(show);
  repr := CliDemo.host.(repr); sources_pk := CliDemo.host.(sources_pk);
  new_state_db := CliDemo.host.(new_state_db); adapters := CliDemo.host.(adapters);
  digest_of_url := CliDemo.host.(digest_of_url); zone_info := CliDemo.host.(zone_info);
  now := CliDemo.host.(now); now_iso := CliDemo.host.(now_iso); uuid4_hex := CliDemo.host.(uuid4_hex);
  hash_password := CliDemo.host.(hash_password); other_site := CliDemo.host.(other_site);
  sends := CliDemo.host.(sends) |}.

Definition secret : string := "0123456789abcdef0123456789abcdef".
Definition process : Process nat StateDb yaml :=
  mkProcess CliDemo.machine {| handlers := ["stderr"]; level := 30 |} [].

(** [logging.basicConfig]. *)
Definition new_server : M RootLogger unit :=
  mmodify (λ r, {| handlers := r.(handlers) ++ ["rich"]; level := 20 |})%list.

Definition settings (secret : option string) : Settings :=
  match (settings_of (host secret) CliDemo.machine).1 with
  | Ok s => s
  | Raise _ => McpDemo.settings None []
  end.

(** A server that is cancelled, with its tasks. *)
Definition cancelled : Outside := {|
  open_sender := Ok tt; mcp_enter := Ok tt; mcp_exit := Ok tt;
  served := raise CancelledError ""; awaited _ := raise CancelledError "" |}.

Definition evaluating (n : Z) : Settings :=
  let s := McpDemo.settings None [] in
  {| session_secret := None; config_db := "config.db"; state_db := "state.db"; Settings.cookie_secure := true;
     workers := n; digest_evaluator_enabled := true; smtp_host_setting := None; smtp_port_setting := 587;
     smtp_from := None; smtp_username := None; smtp_password := None; smtp_use_tls := true;
     smtp_timeout_seconds := s.(smtp_timeout_seconds); smtp_retry_attempts := 2;
     smtp_retry_backoff_seconds := s.(smtp_retry_backoff_seconds);
     digest_reaper_timeout_seconds := 900; browser_max_concurrent := 1;
     browser_acquire_timeout_seconds := s.(browser_acquire_timeout_seconds); run_queue_max_restarts := 3;
     run_queue_backlog_warn_threshold := 10; run_now_cooldown_seconds := s.(run_now_cooldown_seconds);
     uc_launch_timeout_seconds := s.(uc_launch_timeout_seconds);
     browser_launch_timeout_seconds := s.(browser_launch_timeout_seconds);
     login_rate_limit_window_seconds := s.(login_rate_limit_window_seconds);
     login_rate_limit_max_attempts := 5; login_rate_limit_row_cap := 10000;
     uc_orphan_sweep_delay_seconds := s.(uc_orphan_sweep_delay_seconds);
     browser_fetch_timeout_seconds := s.(browser_fetch_timeout_seconds); browser_max_abandoned_fetches := 3;
     uc_fetch_timeout_seconds := s.(uc_fetch_timeout_seconds);
     camoufox_launch_timeout_seconds := s.(camoufox_launch_timeout_seconds);
     camoufox_nav_timeout_seconds := s.(camoufox_nav_timeout_seconds);
     camoufox_fetch_timeout_seconds := s.(camoufox_fetch_timeout_seconds);
     camoufox_max_abandoned_fetches := 3; mcp_enabled := true; public_url := None;
     mcp_allowed_hosts := []; mcp_max_sessions := 100;
     mcp_session_idle_timeout_seconds := s.(mcp_session_idle_timeout_seconds) |}.
End AppDemo.

Lemma create_app_fails_closed_witness :
  (settings_of (AppDemo.host (Some AppDemo.secret)) (machine AppDemo.process)).1
    = Ok (AppDemo.settings (Some AppDemo.secret))
  ∧ is_ok (create_app (AppDemo.host (Some AppDemo.secret)) AppDemo.new_server (λ _, Ok tt) AppDemo.process).1 = true
  ∧ is_ok (create_app (AppDemo.host (Some "short")) AppDemo.new_server (λ _, Ok tt) AppDemo.process).1 = false
  ∧ root_logger (create_app (AppDemo.host (Some AppDemo.secret)) AppDemo.new_server (λ _, Ok tt) AppDemo.process).2
    = root_logger AppDemo.process.
Proof.
  split; [vm_compute; reflexivity |]. split; [vm_compute; reflexivity |]. split; [vm_compute; reflexivity |].
  pose proof (create_app_fails_closed (AppDemo.host (Some AppDemo.secret)) AppDemo.new_server (λ _, Ok tt) AppDemo.process
    (AppDemo.settings (Some AppDemo.secret)) ltac:(vm_compute; reflexivity)) as H.
  destruct (create_app _ _ _ _) as [r p']. exact (proj1 H).
Defined.

(** Cancelled while it serves, with the evaluator and MCP on. *)
Lemma lifespan_stops_its_tasks_witness :
  (@lifespan AppDemo.cancelled (AppDemo.evaluating 1) true []).2
    = ([CreateTask RunQueueTask; CreateTask EvaluatorTask; McpEntered; Serving; McpExited]
       ++ stopped EvaluatorTask ++ stopped RunQueueTask)%list
  ∧ ∃ r before, @lifespan AppDemo.cancelled (AppDemo.evaluating 1) true []
      = (r, (before ++ ([EvaluatorTask; RunQueueTask] ≫= stopped))%list).
Proof.
  split; [vm_compute; reflexivity |].
  destruct (@lifespan_stops_its_tasks AppDemo.cancelled (AppDemo.evaluating 1) true (λ _, conj eq_refl eq_refl))
    as (r & before & E & _).
  exists r, before. exact E.
Defined.

Lemma one_evaluator_witness :
  (length (filter (λ log, CreateTask EvaluatorTask ∈ log)
    ((λ o, (@lifespan o (AppDemo.evaluating 2) false []).2) <$> [AppDemo.cancelled; AppDemo.cancelled])) ≤ 1)%nat.
Proof.
  exact (proj1 (one_evaluator (AppDemo.evaluating 2) false [AppDemo.cancelled; AppDemo.cancelled] eq_refl)).
Defined.
